(* ===== verification/_CoqProject ===== *)
-Q . S2P
Prelude.v
Preserving.v
Liveness.v
LoopTrace.v
Machine.v
Sched.v
Interrupts.v
CString.v
Priorities.v
TestControl.v
RaceDetector.v
Stats.v
InstructionDetector.v
Instrument.v
Timers.v
Pic.v
Board.v
Apic.v
Chips.v
Delivery.v
ApicTimer.v
ChipsTypes.v
Keeps.v
CpuLoop.v
Input.v
InputSafety.v
Sha1.v
Driver.v
Forkall.v
Memfs.v
MemfsRefine.v
QemuFile.v
Vmstate.v
VmstateRoundtrip.v
SaveVM.v
SaveVMRoundtrip.v
Descriptions.v
Snapshot.v
BoardSnapshot.v
CpuSnapshot.v
Qcow2.v
SkiSnapshot.v
SkiSnapshotRestore.v
