(* ===== verification/Prelude.v ===== *)
(** * SKI: systematic exploration of kernel interleavings

    SKI is a modified QEMU (under [src/vmm]) that runs a kernel test on a virtual
    machine with several CPUs, lets exactly one thread of the guest run at a
    time, and chooses by itself when to switch.  A thread is a CPU or an
    interrupt handler of a CPU.  The choices follow from priorities, preemption
    points and a seed, so a test can be repeated; a parent process explores many
    inputs and interleavings by forking a child for each.  This library models
    the parts of the emulator that SKI adds and proves what they promise.

    ** The parts and how they interact

    - The _scheduler_ ([cpu-exec.c], [ski.h]) keeps the thread table, selects the
      next thread and answers, for every CPU of QEMU's main loop, whether it may
      run.  [Machine.v] has its state: [thread_context], [ski_interrupt],
      [SKICPU], the fields of [CPUState] that SKI uses and the globals and options
      as the record [machine].  [Sched.v] has its operations.
    - The _read sets_ ([ski-liveness.h], [Liveness.v]) remember what a CPU has read
      recently; the scheduler lets a thread sleep on its read set until another
      thread stores to it.
    - _Interrupt threads_ ([cpu-exec.c], [Interrupts.v]) are made runnable by the
      interrupt controller, begin and end with their handlers and are limited by
      their count; each CPU has a stack of active interrupts.
    - The _priorities file_ ([ski-priorities.c], [Priorities.v], on the C string
      functions of [CString.v]) fills the thread table.
    - The _test life cycle_ ([cpu-exec.c], [ski-hyper.c], [ski-debug.c],
      [TestControl.v]): the barrier of the CPUs, the begin of a test, the guest's
      hypercalls and the end of a test.
    - The _instrumentation_ ([target-i386/op_helper.c], [Instrument.v]) is called
      by the translated guest code at every instruction and memory access.  It
      calls the scheduler, the loop compression of the trace ([LoopTrace.v]), the
      race detector ([ski-race-detector.h], [RaceDetector.v]), the instruction
      detector ([ski-instruction-detector.c], [InstructionDetector.v]) and the
      access statistics ([ski-stats.c], [Stats.v]).
    - The _interrupt controllers_ ([hw/apic.c], [hw/i8259.c], [hw/ioapic.c],
      [hw/pc.c]): the local APICs ([Apic.v]), the 8259s ([Pic.v]), the IO-APIC and
      the lines between them ([Chips.v]) with the timers of the virtual clock
      ([qemu-timer.c], [cpus.c], [Timers.v]) on one [board] ([Board.v]).  During a
      test the scheduler's current thread determines the vector.  [Delivery.v]
      follows a message to the APICs it is addressed to, [ApicTimer.v] the timer
      of the APIC, [ChipsTypes.v] the widths of the registers; [Preserving.v] and
      [Keeps.v] are what their proofs share.
    - The _CPU loop_ ([cpus.c], [cpu-exec.c], [CpuLoop.v]) ties these together: it
      asks the scheduler for every CPU, resumes snapshots, handles hypercalls and
      exceptions, delivers interrupts and executes blocks of guest code, which
      call the instrumentation.
    - The _inputs_ ([ski-input.c], [Input.v], [InputSafety.v]): the ranges read
      from the environment and the enumeration of the tests.
    - The _parent process_ ([vl.c], [Driver.v]) forks the tests, bounds the number
      of children, collects their statistics and maintains the IP filter.
    - The _hash_ of the kernel and the disk image ([ski-sha1.c], [vl.c], [Sha1.v])
      identifies what was tested.
    - _Fork with all threads_ ([forkall-coop.c], [Forkall.v]): before a fork the
      host threads save their stacks and registers; the child recreates them.
    - The _in-memory file system_ ([ski-memfs.c], [Memfs.v], [MemfsRefine.v])
      replaces the file functions of libc, so that children do not change the
      disk image they share.
    - _Snapshots_ ([savevm.c], [target-i386/machine.c], [block/qcow2-snapshot.c]):
      SKI saves the machine when a test starts, and every exploration begins by
      loading it.  [QemuFile.v] is the buffered file, [Vmstate.v] the interpreter
      of the descriptions of objects with its inverse in [VmstateRoundtrip.v],
      [SaveVM.v] the table of registered objects and the sections of a snapshot
      ([SaveVMRoundtrip.v]), [Descriptions.v] the descriptions of the CPUs and the
      interrupt controllers, [Snapshot.v] and [BoardSnapshot.v] what they make of
      a board, [CpuSnapshot.v] the floating-point state of a CPU.  [Qcow2.v] has the
      snapshots inside an image and [SkiSnapshot.v] the functions that take a
      snapshot of machine and disks and start from it ([SkiSnapshotRestore.v]).

    ** How the code is represented

    A C [int] is a [Z] kept in its range by [wrap32]; unsigned and 64-bit values
    by [u32], [u64] and [wrap64].  Pointers into the CPU list, the thread table
    and the pools are indices.  A function of the source is a definition with the
    source's name.  It is a function of the state in the monad [M] of this file:
    a result [Ret], a [Jump] (the [longjmp] to the CPU loop) with the state
    reached, or a [Halt], which ends the process: [HAssert] for a failed
    assertion or [abort()], [HExit c] for [exit(c)], [HTrap] for a trap, and [HUndef] where
    the C code would access memory outside an object or overflow a signed
    integer.  Code without state that may stop is in the monad [E].  A loop over a
    C array or list is a structural recursion on it; loops that read text are
    recursions with fuel, and their fuel (the length of the text plus one, or
    the number of entries of the table) is shown to suffice where a theorem
    depends on it: running out is [HUndef] or an error, never a normal result,
    and the theorems state the result itself.  The loop of [cpu_exec] runs as
    long as the guest does: its fuel bounds the rounds that are looked at, its
    theorems hold for every fuel, and a loop that is not over says so.
    An APIC that requests a vector of its own while it delivers one is followed
    to depth 2 (one step more repeats the first).  The timers of the clock are
    run until none is expired; the fuel counts the periods an armed timer is
    behind.  A snapshot is loaded with fuel 5 for subsections, more than their
    nesting, and one round more than it has sections; the handlers that save in
    parts are given one round, since the machine registers none but the RAM, whose
    handler is an argument.
    The code of several host threads ([Forkall.v]) is cut at its accesses to
    shared data, and the theorems quantify over all interleavings.

    The build is the one the sources configure: trace messages ([SKI_TRACE...])
    are compiled out ([SKI_NO_OUTPUT]), the IP filter is the hash table
    ([SKI_IPFILTER_HASH]), the memory and trace detectors behind
    [SKI_MEMORY_DETECTOR_ENABLED] and [SKI_SELECTIVE_TRACE_ENABLED] are off.
    QEMU, the guest and the operating system are inputs: guest memory, the page
    walk, the process ids of [fork], the children of [wait], the files and their
    attributes are arguments of the definitions that use them.  What the CPU loop
    relies on of QEMU's own code is the hypothesis [CpuLoop.guest_ok].

    ** What the theorems show

    - The whole loop: a block of guest code is executed only for the CPU of the
      scheduler's current thread ([CpuLoop.tcg_exec_all_runs_current]), the selected
      interrupt is the one that is delivered
      ([CpuLoop.service_interrupts_delivers]), and when no thread can run the
      process ends with the exit code for that.
    - Scheduling: one CPU runs at a time ([Sched.ski_cpu_can_run_exclusive]); the
      choice of the thread; preemption, waiting and waking; every operation keeps
      the table consistent ([Interrupts.ski_threads_consistent]); the life of
      an interrupt thread.
    - Tests: a well-formed configuration starts ([TestControl.ski_start_test_ready]);
      the barrier, the exit and quit hypercalls; the round trip of the blocked CPUs.
    - Liveness heuristics: the read set is an LRU list; spinning, pausing and
      starving threads are descheduled, and woken by a store.
    - Records: the compressed trace decompresses to what was executed
      ([LoopTrace.ski_loop_roundtrip]); the race detector, the instruction detector
      and the communication points are exact over whole runs.
    - Exploration: configuration files round-trip; reading a range terminates and
      stays in its array; what is accepted is well formed and can be explored to
      the end; each test is forked once and each child is collected once.
    - Forking: when the parent forks every thread is saved, and in the child every
      thread continues once with what was saved ([Forkall.ski_forkall_saves_all],
      [Forkall.ski_forkall_restores]).
    - Hashes: the digest is SHA-1 as the standard defines it
      ([Sha1.ski_sha_file_exact]).
    - Files: the hooks refine an abstract file system ([MemfsRefine.ski_memfs_refines])
      and stay inside their memory blocks.

    - Interrupt controllers: the 8259 offers the request of highest priority
      ([Pic.pic_get_irq_exact]), a message reaches exactly the APICs it is addressed
      to ([Delivery.apic_deliver_irq_reaches]), the timer is exact and the loop over
      the timers ends ([ApicTimer.apic_timer_exact], [ApicTimer.run_vm_timers_drains]),
      every register keeps its width ([ChipsTypes.chips_stay_typed]).
    - Snapshots: what is written to a snapshot file is read back
      ([QemuFile.qemu_file_roundtrip]), loading a snapshot of a board gives every
      CPU and controller its registers ([BoardSnapshot.board_snapshot_roundtrip],
      [CpuSnapshot.cpu_load_save]), and a process started from the snapshot SKI took
      has machine, disks and clock as they were ([SkiSnapshotRestore.ski_snapshot_restores]).

    Lemmas named in the text of a file that are not among these theorems record
    behaviour that differs from what the code intends, with a concrete input:
    [Interrupts.is_top_hw_stack_reads_past], [Driver.ipfilter_comment_line_asserts],
    [InputSafety.range_size_overflows], [MemfsRefine.memfs_open_overflows],
    [CpuLoop.hard_interrupt_masked], [Forkall.kill_before_restore],
    [BoardSnapshot.apic_forgets_sipi], [CpuSnapshot.xmm_register_not_loaded],
    [SkiSnapshotRestore.identifier_taken] and the like.

    ** Not modelled

    - QEMU itself: the translator and its generated code, the other devices,
      guest memory and the event loop.  They are large third-party code that SKI
      calls or is called by.
    - Of snapshots: the RAM (a handler that saves in parts is an argument of its
      entry) and the other devices; what an image holds at the level of clusters
      and reference counts; requests in flight; drivers that pass snapshots on to
      the file below them; the interactive commands.
    - [ski-watchdog.c] (a host timer and a flag), and the printing of statistics,
      dumps and trace messages: output only.
    - [ski-memory-detector.c], [ski-selective-trace.c] (compiled out), and
      [ski-sched.c], [ski-by-eip.h] and the heuristics headers, which hold
      declarations only.
    - The scripts and the test programs that run inside the guest. *)

From Stdlib Require Export ZArith Lia.
From stdpp Require Export base tactics sets list list_numbers numbers option.
Export list_basics.list list_relations.list list_monad.list list_misc.list.

Open Scope Z_scope.

(** ** Machine integers *)

(** [int] is 32 bits, two's complement; [wrap32] brings a mathematical result
    back to its range; [wrap64] does so for [int64_t] and [long long].  [u32] and
    [u64] are the unsigned conversions. *)
Definition wrap32 (z : Z) : Z := (z + 2 ^ 31) mod 2 ^ 32 - 2 ^ 31.
Definition wrap64 (z : Z) : Z := (z + 2 ^ 63) mod 2 ^ 64 - 2 ^ 63.
Definition u32 (z : Z) : Z := z mod 2 ^ 32.
Definition u64 (z : Z) : Z := z mod 2 ^ 64.
Definition in_int (z : Z) : Prop := - 2 ^ 31 <= z < 2 ^ 31.
Definition in_int64 (z : Z) : Prop := - 2 ^ 63 <= z < 2 ^ 63.

#[export] Instance in_int_dec z : Decision (in_int z).
Proof. unfold in_int. apply _. Defined.

(** C truth values. *)
Definition c_true (z : Z) : bool := negb (z =? 0).
Definition b2z (b : bool) : Z := if b then 1 else 0.

Lemma wrap32_id z : in_int z -> wrap32 z = z.
Proof.
  unfold wrap32, in_int. intros H.
  rewrite Z.mod_small by lia. lia.
Qed.

Lemma wrap32_range z : in_int (wrap32 z).
Proof.
  unfold wrap32, in_int.
  pose proof (Z.mod_pos_bound (z + 2 ^ 31) (2 ^ 32) ltac:(lia)). lia.
Qed.

Lemma wrap64_id z : in_int64 z -> wrap64 z = z.
Proof. unfold wrap64, in_int64. intros H. rewrite Z.mod_small by lia. lia. Qed.

Lemma wrap64_range z : in_int64 (wrap64 z).
Proof. unfold wrap64, in_int64. pose proof (Z.mod_pos_bound (z + 2 ^ 63) (2 ^ 64) ltac:(lia)). lia. Qed.

Lemma u32_range z : 0 <= u32 z < 2 ^ 32.
Proof. apply Z.mod_pos_bound. lia. Qed.

Lemma u32_id z : 0 <= z < 2 ^ 32 -> u32 z = z.
Proof. apply Z.mod_small. Qed.

Lemma u64_range z : 0 <= u64 z < 2 ^ 64.
Proof. apply Z.mod_pos_bound. lia. Qed.

Lemma u64_id z : 0 <= z < 2 ^ 64 -> u64 z = z.
Proof. apply Z.mod_small. Qed.

(** Decides the integer comparisons of the goal that [lia] settles. *)
Ltac zdecide e :=
  first [ replace e with true by lia | replace e with false by lia ].
Ltac zbool :=
  repeat match goal with
  | |- context [?a <? ?b] => zdecide (a <? b)
  | |- context [?a <=? ?b] => zdecide (a <=? b)
  | |- context [?a =? ?b] => zdecide (a =? b)
  | |- context [?a >? ?b] => zdecide (a >? b)
  | |- context [?a >=? ?b] => zdecide (a >=? b)
  end; cbn [negb andb orb].

(** ** How a C function ends *)

(** [HAssert] is a failed libc [assert], [HExit c] a call of [exit] (the body
    of [SKI_ASSERT_MSG]), [HTrap] the [int $0x3] of [SKI_ASSERT], [HUndef] an
    access C leaves undefined (null or out-of-bounds pointer, division by
    zero, a missing return value that is used). *)
Inductive halt :=
  | HAssert
  | HExit (code : Z)
  | HTrap
  | HUndef.

#[export] Instance halt_eq_dec : EqDecision halt.
Proof. solve_decision. Defined.

(** Partial computations that do not change state. *)
Inductive E (A : Type) :=
  | Val (a : A)
  | Fail (h : halt).
Arguments Val {A} a.
Arguments Fail {A} h.

Definition ebind {A B} (m : E A) (k : A -> E B) : E B :=
  match m with Val a => k a | Fail h => Fail h end.

(** Stateful computations: they return, leave through [cpu_loop_exit] (a
    [longjmp] that keeps every effect made so far), or stop the process. *)
Inductive R (S A : Type) :=
  | Ret (s : S) (a : A)
  | Jump (s : S)
  | Halt (s : S) (h : halt).
Arguments Ret {S A} s a.
Arguments Jump {S A} s.
Arguments Halt {S A} s h.

Definition M (S A : Type) : Type := S -> R S A.

Definition ret {S A} (a : A) : M S A := fun s => Ret s a.
Definition bind {S A B} (m : M S A) (k : A -> M S B) : M S B :=
  fun s => match m s with
           | Ret s' a => k a s'
           | Jump s' => Jump s'
           | Halt s' h => Halt s' h
           end.
Definition get {S} : M S S := fun s => Ret s s.
Definition put {S} (s : S) : M S unit := fun _ => Ret s tt.
Definition modify {S} (f : S -> S) : M S unit := fun s => Ret (f s) tt.
Definition jump {S A} : M S A := fun s => Jump s.
Definition stop {S A} (h : halt) : M S A := fun s => Halt s h.
Definition lift {S A} (e : S -> E A) : M S A :=
  fun s => match e s with Val a => Ret s a | Fail h => Halt s h end.
Definition when {S} (b : bool) (m : M S unit) : M S unit :=
  if b then m else ret tt.

Fixpoint for_each {S A} (l : list A) (f : A -> M S unit) : M S unit :=
  match l with
  | [] => ret tt
  | x :: l' => bind (f x) (fun _ => for_each l' f)
  end.

Declare Scope ski_scope.
Delimit Scope ski_scope with ski.
Notation "x <- m ;; k" := (bind m (fun x => k))
  (at level 60, m at next level, right associativity) : ski_scope.
Notation "m ;;; k" := (bind m (fun _ => k))
  (at level 60, right associativity) : ski_scope.
Notation "x <-? e ;; k" := (ebind e (fun x => k))
  (at level 60, e at next level, right associativity) : ski_scope.
Open Scope ski_scope.

Lemma bind_Ret {S A B} (m : M S A) (k : A -> M S B) s s1 a :
  m s = Ret s1 a -> bind m k s = k a s1.
Proof. unfold bind. by intros ->. Qed.

Lemma bind_Jump {S A B} (m : M S A) (k : A -> M S B) s s1 : m s = Jump s1 -> bind m k s = Jump s1.
Proof. unfold bind. by intros ->. Qed.

Lemma bind_Halt {S A B} (m : M S A) (k : A -> M S B) s s1 h : m s = Halt s1 h -> bind m k s = Halt s1 h.
Proof. unfold bind. by intros ->. Qed.

Lemma bind_assoc {S A B C} (m : M S A) (k : A -> M S B) (k' : B -> M S C) s :
  bind (bind m k) k' s = bind m (fun a => bind (k a) k') s.
Proof. unfold bind. by destruct (m s). Qed.

Lemma lift_Val {S A} (f : S -> E A) s a : f s = Val a -> lift f s = Ret s a.
Proof. unfold lift. by intros ->. Qed.

Lemma lift_Fail {S A} (f : S -> E A) s h : f s = Fail h -> lift f s = Halt s h.
Proof. unfold lift. by intros ->. Qed.

Lemma for_each_app {S A} (l l' : list A) (f : A -> M S unit) s :
  for_each (l ++ l') f s = bind (for_each l f) (fun _ => for_each l' f) s.
Proof.
  revert s. induction l as [|x l IH]; intros s; [done|]. cbn [app for_each]. rewrite bind_assoc.
  unfold bind at 1 2. destruct (f x s) as [s1 []|s1|s1 h]; [apply IH|done..].
Qed.

Lemma for_each_ext {S A} (l : list A) (f g : A -> M S unit) s :
  (forall x s, f x s = g x s) -> for_each l f s = for_each l g s.
Proof.
  intros H. revert s. induction l as [|x l IH]; intros s; [done|]. cbn [for_each]. unfold bind. rewrite H.
  by destruct (g x s).
Qed.

Lemma for_each_concat {S A} (ls : list (list A)) (f : A -> M S unit) s :
  for_each ls (fun l => for_each l f) s = for_each (concat ls) f s.
Proof.
  revert s. induction ls as [|l ls IH]; intros s; [done|]. cbn [for_each concat]. rewrite for_each_app.
  unfold bind. destruct (for_each l f s) as [s1 []|s1|s1 h]; [apply IH|done..].
Qed.

Lemma for_each_fmap {S A B} (g : A -> B) (l : list A) (f : B -> M S unit) s :
  for_each (map g l) f s = for_each l (fun x => f (g x)) s.
Proof.
  revert s. induction l as [|x l IH]; intros s; [done|]. cbn [for_each map]. unfold bind.
  destruct (f (g x) s) as [s1 []|s1|s1 h]; [apply IH|done..].
Qed.

(** libc's [assert]. *)
Definition assert_ {S} (b : bool) : M S unit :=
  if b then ret tt else stop HAssert.
Definition eassert (b : bool) : E unit := if b then Val tt else Fail HAssert.

(** ** Lists *)

Section lists.
Context {A B : Type}.
Implicit Types (l : list A).

(** Filtering out the one element that [f] maps outside [P]. *)
Lemma fmap_filter_ne `{EqDecision A} (f : A -> B) (P : B -> Prop)
    `{∀ x, Decision (P x)} (x : A) l :
  (∀ y, y ∈ l -> P (f y) <-> y ≠ x) ->
  filter P (f <$> l) = f <$> filter (.≠ x) l.
Proof.
  induction l as [|y l IH]; [done|]. intros Hl.
  rewrite fmap_cons, !filter_cons. pose proof (Hl y (list_elem_of_here y l)) as Hy.
  assert (filter P (f <$> l) = f <$> filter (.≠ x) l) as E.
  { apply IH. intros z Hz. apply Hl. by right. }
  destruct (decide (P (f y))), (decide (y ≠ x)); cbn; rewrite ?E; tauto.
Qed.

Lemma filter_ne_id `{EqDecision A} (x : A) l :
  x ∉ l -> filter (.≠ x) l = l.
Proof.
  intros Hx. induction l as [|y l IH]; [done|].
  rewrite filter_cons_True by set_solver. rewrite IH; set_solver.
Qed.

Lemma filter_ne_Permutation `{EqDecision A} (x : A) l :
  NoDup l -> x ∈ l -> x :: filter (.≠ x) l ≡ₚ l.
Proof.
  intros Hnd Hx. induction l as [|y l IH]; [set_solver|].
  apply NoDup_cons in Hnd as [Hy Hnd]. rewrite filter_cons.
  destruct (decide (y ≠ x)) as [Hne|Heq%dec_stable].
  - rewrite Permutation_swap. rewrite IH; [done|done|].
    by apply elem_of_cons in Hx as [<-|].
  - subst y. by rewrite filter_ne_id.
Qed.

Lemma fmap_insert_notin `{Inhabited B} (f : list B) (i : nat) (b : B) (ks : list nat) :
  i ∉ ks ->
  (fun k => <[i := b]> f !!! k) <$> ks = (fun k => f !!! k) <$> ks.
Proof.
  intros Hi. apply list_fmap_ext. intros j k Hk.
  apply list_lookup_total_insert_ne. intros ->.
  apply Hi. by eapply list_elem_of_lookup_2.
Qed.
End lists.

Lemma alter_middle {A} (f : A -> A) (l1 l2 : list A) x :
  alter f (length l1) (l1 ++ x :: l2) = l1 ++ f x :: l2.
Proof. induction l1 as [|y l1 IH]; [done|]. cbn. f_equal. apply IH. Qed.

Lemma alter_alter {A} (f g : A -> A) i (l : list A) : alter f i (alter g i l) = alter (f ∘ g) i l.
Proof. revert i. induction l as [|x l IH]; intros [|i]; try done. cbn. f_equal. apply IH. Qed.

Lemma alter_ext_at {A} (f g : A -> A) i (l : list A) x :
  l !! i = Some x -> f x = g x -> alter f i l = alter g i l.
Proof.
  revert i. induction l as [|y l IH]; intros [|i] Hx Hfg; try done; cbn in *; [by injection Hx as -> ; rewrite Hfg|].
  f_equal. by apply IH.
Qed.

Lemma alter_fmap_same {A B} (f : A -> A) (g : A -> B) i (l : list A) :
  (forall x, g (f x) = g x) -> g <$> alter f i l = g <$> l.
Proof.
  intros H. revert i. induction l as [|x l IH]; intros [|i]; cbn; [done..| |]; rewrite ?H; f_equal. apply IH.
Qed.

Lemma and_iff_both (P P' Q Q' : Prop) : (P <-> P') -> (Q <-> Q') -> P /\ Q <-> P' /\ Q'.
Proof. tauto. Qed.

Lemma filter_ext_Forall {A} (P Q : A -> Prop) `{!forall x, Decision (P x)} `{!forall x, Decision (Q x)} l :
  Forall (fun x => P x <-> Q x) l -> filter P l = filter Q l.
Proof.
  intros HF. induction HF as [|x l Hx _ IH]; [done|]. rewrite !filter_cons, IH.
  destruct (decide (P x)), (decide (Q x)); tauto.
Qed.
