(* ===== verification/Preserving.v ===== *)
(** * Preserving.v -- invariants of stateful operations

    An operation is [preserving P J H] if the state it starts in is related to the
    state it returns in by [P], to the state it leaves by a jump by [J] and to the
    state the process stops in by [H].  The rules for composed operations hold when
    the relations compose ([Keeping]); [preserving_step] applies them. *)

From S2P Require Import Prelude.

(** A state reached by returning satisfies [P], one reached by a jump [J], one
    where the process stops [H]. *)
Definition outcome {S A} (P J H : S -> Prop) (r : R S A) : Prop :=
  match r with Ret s _ => P s | Jump s => J s | Halt s _ => H s end.

(** Operations whose outcomes are related to the state they start in. *)
Definition preserving {S A} (P J H : S -> S -> Prop) (op : M S A) : Prop := forall s, outcome (P s) (J s) (H s) (op s).

Class Keeping {S} (P J H : S -> S -> Prop) : Prop := {
  keeping_preorder : PreOrder P;
  keeping_jump s1 s2 s3 : P s1 s2 -> J s2 s3 -> J s1 s3;
  keeping_halt s1 s2 s3 : P s1 s2 -> H s2 s3 -> H s1 s3;
  keeping_stop s : H s s
}.

Section preserving.
Context {S : Type} (P J H : S -> S -> Prop) `{K : !Keeping P J H}.

Lemma preserving_bind {A B} (op : M S A) (k : A -> M S B) :
  preserving P J H op -> (forall a, preserving P J H (k a)) -> preserving P J H (bind op k).
Proof.
  destruct K as [Hpre Hj Ht _]. intros Ho Hk s. unfold bind. specialize (Ho s). destruct (op s) as [s' a|s'|s' x]; try done.
  specialize (Hk a s'). cbn in Ho. destruct (k a s'); cbn in *; [by etrans|by eapply Hj|by eapply Ht].
Qed.

Lemma preserving_ret {A} (a : A) : preserving P J H (ret a).
Proof. destruct K. intros s. cbn. reflexivity. Qed.
Lemma preserving_get : preserving P J H get.
Proof. destruct K. intros s. cbn. reflexivity. Qed.
Lemma preserving_stop {A} x : preserving P J H (stop x : M S A).
Proof. destruct K as [_ _ _ Hs]. intros s. apply Hs. Qed.
Lemma preserving_when c (op : M S unit) : preserving P J H op -> preserving P J H (when c op).
Proof. intros Ho. destruct c; [done|apply preserving_ret]. Qed.
Lemma preserving_assert c : preserving P J H (assert_ c).
Proof. destruct c; [apply preserving_ret|apply preserving_stop]. Qed.
Lemma preserving_for_each {A} (l : list A) (f : A -> M S unit) :
  (forall x, preserving P J H (f x)) -> preserving P J H (for_each l f).
Proof. intros Hf. induction l as [|x l IH]; cbn [for_each]; [apply preserving_ret|by apply preserving_bind]. Qed.
Lemma preserving_modify f : (forall s, P s (f s)) -> preserving P J H (modify f).
Proof. intros Hf s. apply Hf. Qed.
Lemma preserving_lift {A} (f : S -> E A) : preserving P J H (lift f).
Proof. destruct K as [Hp _ _ Hs]. intros s. unfold lift. destruct (f s); [cbn; reflexivity|apply Hs]. Qed.
End preserving.

Lemma preserving_jump {S A} (P H : S -> S -> Prop) `{K : !Keeping P P H} : preserving P P H (jump : M S A).
Proof. destruct K. intros s. cbn. reflexivity. Qed.

(** One step of a proof that a composed operation is preserving. *)
Ltac preserving_step :=
  match goal with
  | |- _ (bind _ _) => apply preserving_bind; [apply _| |intros]
  | |- _ (ret _) => apply preserving_ret; apply _
  | |- _ get => apply preserving_get; apply _
  | |- _ (stop _) => apply preserving_stop; apply _
  | |- _ (when _ _) => apply preserving_when; [apply _|]
  | |- _ (assert_ _) => apply preserving_assert; apply _
  | |- _ (lift _) => apply preserving_lift; apply _
  | |- _ (for_each _ _) => apply preserving_for_each; [apply _|intros]
  | |- _ (if ?c then _ else _) => destruct c
  | |- _ (match ?x with _ => _ end) => destruct x
  end.
