(* ===== verification/Liveness.v ===== *)
(** * Liveness.v -- the read-set memory of the liveness heuristics

    Models [vmm/ski-liveness.h]: a bounded table of recent memory reads
    ([ski_ma]) kept as an entry array, a doubly linked list in recency order
    ([utlist]) and a hash on the address ([uthash]).  The array, the list and
    the hash are kept separate, as in the source; the refinement theorem shows
    that together they implement a least-recently-used list. *)

From S2P Require Import Prelude.

Definition SKI_MA_ENTRIES_MAX : Z := 20.

Record ski_ma_entry := mk_ma_entry {
  me_count : Z;
  me_eip : Z;
  me_mem_address : Z;
  me_mem_value : Z
}.

#[export] Instance ski_ma_entry_eq_dec : EqDecision ski_ma_entry.
Proof. solve_decision. Defined.
#[export] Instance ski_ma_entry_inhabited : Inhabited ski_ma_entry :=
  populate (mk_ma_entry 0 0 0 0).

(** [ma_list] lists the array slots in the order of [ma->list] (oldest first),
    [ma_hash] the slots linked in [ma->hash]. *)
Record ski_ma := mk_ski_ma {
  ma_is_initialized : Z;
  ma_entries : list ski_ma_entry;
  ma_n_entries : Z;
  ma_max_entries : Z;
  ma_list : list nat;
  ma_hash : list nat
}.

(** The all-zero structure [bzero] leaves. *)
Definition ski_ma_zero : ski_ma :=
  mk_ski_ma 0 (replicate (Z.to_nat SKI_MA_ENTRIES_MAX) (mk_ma_entry 0 0 0 0)) 0 0 [] [].

(** Hash operations of [uthash] on slots keyed by [mem_address]. *)
Definition ma_key (es : list ski_ma_entry) (i : nat) : Z := me_mem_address (es !!! i).
Definition HASH_FIND_INT (es : list ski_ma_entry) (h : list nat) (a : Z) : option nat :=
  snd <$> list_find (fun i => ma_key es i = a) h.
Definition HASH_ADD_INT (h : list nat) (i : nat) : list nat := h ++ [i].
Definition HASH_DEL (h : list nat) (i : nat) : list nat := filter (.≠ i) h.

(** List operations of [utlist]. *)
Definition DL_APPEND (l : list nat) (i : nat) : list nat := l ++ [i].
Definition DL_DELETE (l : list nat) (i : nat) : list nat := filter (.≠ i) l.

Definition ski_liveness_init (max_entries : Z) : E ski_ma :=
  _ <-? eassert (max_entries <=? SKI_MA_ENTRIES_MAX) ;;
  Val (mk_ski_ma 1 (ma_entries ski_ma_zero) 0 max_entries [] []).

(** The first return of the C function has no value ([None]). *)
Definition ski_liveness_store (ma : ski_ma) (eip mem_address mem_value : Z)
  : E (ski_ma * option Z) :=
  if ma_is_initialized ma =? 0 then Val (ma, None)
  else
    match HASH_FIND_INT (ma_entries ma) (ma_hash ma) mem_address with
    | Some i =>
        let mae := ma_entries ma !!! i in
        let c := if negb (me_mem_value mae =? mem_value) then 0 else me_count mae in
        let mae := mk_ma_entry (wrap32 (c + 1)) (me_eip mae) (me_mem_address mae) mem_value in
        Val (mk_ski_ma (ma_is_initialized ma) (<[i := mae]> (ma_entries ma))
               (ma_n_entries ma) (ma_max_entries ma)
               (DL_APPEND (DL_DELETE (ma_list ma) i) i) (ma_hash ma),
             Some (me_count mae))
    | None =>
        let mae := mk_ma_entry 1 eip mem_address mem_value in
        if ma_n_entries ma <? ma_max_entries ma then
          let i := Z.to_nat (ma_n_entries ma) in
          if ma_n_entries ma <? SKI_MA_ENTRIES_MAX then
            Val (mk_ski_ma (ma_is_initialized ma) (<[i := mae]> (ma_entries ma))
                   (ma_n_entries ma + 1) (ma_max_entries ma)
                   (DL_APPEND (ma_list ma) i) (HASH_ADD_INT (ma_hash ma) i),
                 Some (me_count mae))
          else Fail HUndef
        else
          match ma_list ma with
          | [] => Fail HUndef
          | i :: _ =>
              Val (mk_ski_ma (ma_is_initialized ma) (<[i := mae]> (ma_entries ma))
                     (ma_n_entries ma) (ma_max_entries ma)
                     (DL_APPEND (DL_DELETE (ma_list ma) i) i)
                     (HASH_ADD_INT (HASH_DEL (ma_hash ma) i) i),
                   Some (me_count mae))
          end
    end.

Definition ski_liveness_is_present (ma : ski_ma) (mem_address : Z) : Z :=
  match HASH_FIND_INT (ma_entries ma) (ma_hash ma) mem_address with
  | Some _ => 1
  | None => 0
  end.

Definition ski_liveness_reset (ma : ski_ma) : E ski_ma :=
  _ <-? eassert (c_true (ma_is_initialized ma)) ;;
  ski_liveness_init (ma_max_entries ma).

(** [DL_FOREACH(ma_src->list, mae) ski_liveness_store(ma_dest, ...)] *)
Fixpoint ski_liveness_copy_loop (src : ski_ma) (l : list nat) (dest : ski_ma) : E ski_ma :=
  match l with
  | [] => Val dest
  | i :: l' =>
      let mae := ma_entries src !!! i in
      r <-? ski_liveness_store dest (me_eip mae) (me_mem_address mae) (me_mem_value mae) ;;
      ski_liveness_copy_loop src l' (fst r)
  end.

(** [ski_liveness_copy(ma_dest, ma_src)]: the new contents of [ma_dest]. *)
Definition ski_liveness_copy (ma_src : ski_ma) : E ski_ma :=
  _ <-? eassert (c_true (ma_is_initialized ma_src)) ;;
  dest <-? ski_liveness_init (ma_max_entries ma_src) ;;
  ski_liveness_copy_loop ma_src (ma_list ma_src) dest.

Ltac ma_cbn :=
  cbn [ma_is_initialized ma_entries ma_n_entries ma_max_entries ma_list ma_hash
       me_count me_eip me_mem_address me_mem_value fst snd].

(** ** The promise: a least-recently-used list of reads *)

(** The entries in recency order, oldest first. *)
Definition ma_view (ma : ski_ma) : list ski_ma_entry :=
  (fun i => ma_entries ma !!! i) <$> ma_list ma.

(** A read of an address already remembered moves it to the end; its counter
    restarts when the value read has changed.  A new address is appended, at
    the expense of the oldest one when the table is full. *)
Definition lru_store (max eip a v : Z) (l : list ski_ma_entry) : list ski_ma_entry * Z :=
  match list_find (fun e => me_mem_address e = a) l with
  | Some (_, e) =>
      let c := if me_mem_value e =? v then me_count e else 0 in
      (filter (fun e => me_mem_address e ≠ a) l ++ [mk_ma_entry (wrap32 (c + 1)) (me_eip e) a v],
       wrap32 (c + 1))
  | None =>
      ((if Z.of_nat (length l) <? max then l else tail l) ++ [mk_ma_entry 1 eip a v], 1)
  end.

Record ma_wf (ma : ski_ma) : Prop := {
  wf_init : ma_is_initialized ma = 1;
  wf_max : 0 < ma_max_entries ma <= SKI_MA_ENTRIES_MAX;
  wf_len : length (ma_entries ma) = Z.to_nat SKI_MA_ENTRIES_MAX;
  wf_n : ma_n_entries ma = Z.of_nat (length (ma_list ma));
  wf_le : ma_n_entries ma <= ma_max_entries ma;
  wf_list : ma_list ma ≡ₚ seq 0 (length (ma_list ma));
  wf_hash : ma_hash ma ≡ₚ ma_list ma;
  wf_nodup : NoDup (ma_key (ma_entries ma) <$> ma_list ma)
}.

Section liveness.
Context (ma : ski_ma) (Hwf : ma_wf ma).

Lemma ma_list_NoDup : NoDup (ma_list ma).
Proof. rewrite (wf_list _ Hwf). apply NoDup_seq. Qed.

Lemma ma_list_bound i : i ∈ ma_list ma -> (i < length (ma_list ma))%nat.
Proof. rewrite (wf_list _ Hwf) at 1. rewrite elem_of_seq. lia. Qed.

Lemma ma_list_slot i : i ∈ ma_list ma -> (i < length (ma_entries ma))%nat.
Proof.
  intros Hi%ma_list_bound. pose proof (wf_n _ Hwf). pose proof (wf_le _ Hwf).
  pose proof (wf_max _ Hwf). rewrite (wf_len _ Hwf). unfold SKI_MA_ENTRIES_MAX in *. lia.
Qed.

Lemma ma_key_inj i j :
  i ∈ ma_list ma -> j ∈ ma_list ma ->
  ma_key (ma_entries ma) i = ma_key (ma_entries ma) j -> i = j.
Proof.
  intros [p Hp]%list_elem_of_lookup [q Hq]%list_elem_of_lookup Heq.
  assert (p = q) as ->; [|congruence].
  eapply (NoDup_lookup _ p q _ (wf_nodup _ Hwf));
    rewrite list_lookup_fmap, ?Hp, ?Hq; cbn; [done|by rewrite Heq].
Qed.

(** The hash finds exactly the slot of the view's entry. *)
Lemma hash_find_Some a i :
  HASH_FIND_INT (ma_entries ma) (ma_hash ma) a = Some i <->
  i ∈ ma_list ma /\ ma_key (ma_entries ma) i = a.
Proof.
  unfold HASH_FIND_INT. rewrite fmap_Some. split.
  - intros ([p j] & Hf & ->). apply list_find_Some in Hf as (Hp & Ha & _). cbn.
    split; [|done]. rewrite <- (wf_hash _ Hwf). by eapply list_elem_of_lookup_2.
  - intros [Hi Ha]. rewrite <- (wf_hash _ Hwf) in Hi.
    destruct (list_find_elem_of (fun i => ma_key (ma_entries ma) i = a) (ma_hash ma) i Hi Ha)
      as [[p j] Hf]. exists (p, j). split; [done|]. cbn.
    apply list_find_Some in Hf as (Hp & Ha' & _).
    apply ma_key_inj; [|by rewrite <- (wf_hash _ Hwf); eapply list_elem_of_lookup_2|congruence].
    by rewrite <- (wf_hash _ Hwf).
Qed.

Lemma hash_find_None a :
  HASH_FIND_INT (ma_entries ma) (ma_hash ma) a = None <->
  ∀ e, e ∈ ma_view ma -> me_mem_address e ≠ a.
Proof.
  unfold ma_view. split.
  - intros Hn e (i & -> & Hi)%list_elem_of_fmap Ha.
    assert (HASH_FIND_INT (ma_entries ma) (ma_hash ma) a = Some i) by by apply hash_find_Some.
    congruence.
  - intros Hall. destruct (HASH_FIND_INT _ _ _) as [i|] eqn:Hf; [|done].
    apply hash_find_Some in Hf as [Hi Ha]. exfalso. eapply Hall; [|exact Ha].
    apply list_elem_of_fmap. by exists i.
Qed.
End liveness.

(** Each of the three branches of the store, as an update of the view. *)
Section store.
Context (ma : ski_ma) (Hwf : ma_wf ma).
Abbreviation es := (ma_entries ma).

Lemma view_move_to_end i e :
  i ∈ ma_list ma ->
  (fun k => <[i := e]> es !!! k) <$> DL_APPEND (DL_DELETE (ma_list ma) i) i =
  ((fun k => es !!! k) <$> filter (.≠ i) (ma_list ma)) ++ [e].
Proof.
  intros Hi. unfold DL_APPEND, DL_DELETE. rewrite fmap_app. f_equal.
  - apply fmap_insert_notin. rewrite list_elem_of_filter. tauto.
  - cbn. f_equal. apply list_lookup_total_insert_eq. by apply ma_list_slot.
Qed.

Lemma view_filter_addr i :
  i ∈ ma_list ma ->
  filter (fun e => me_mem_address e ≠ ma_key es i) (ma_view ma) =
  (fun k => es !!! k) <$> filter (.≠ i) (ma_list ma).
Proof.
  intros Hi. apply fmap_filter_ne. intros j Hj. cbn. split.
  - intros Hne ->. by apply Hne.
  - intros Hne Heq. apply Hne. by apply (ma_key_inj ma Hwf).
Qed.

Lemma list_move_Permutation i :
  i ∈ ma_list ma -> DL_APPEND (DL_DELETE (ma_list ma) i) i ≡ₚ ma_list ma.
Proof.
  intros Hi. unfold DL_APPEND, DL_DELETE.
  rewrite <- (filter_ne_Permutation i (ma_list ma)) at 2
    by (done || by apply ma_list_NoDup).
  by rewrite Permutation_app_comm.
Qed.

(** Replacing the entry of slot [i] by one with address [a] keeps addresses
    distinct when [a] is the old address or a new one. *)
Lemma keys_insert_NoDup i e ks :
  i ∈ ma_list ma -> ks ≡ₚ ma_list ma ->
  (∀ j, j ∈ ma_list ma -> j ≠ i -> ma_key es j ≠ me_mem_address e) ->
  NoDup (ma_key (<[i := e]> es) <$> ks).
Proof.
  intros Hi -> Hne. pose proof (ma_list_NoDup _ Hwf) as Hnd.
  pose proof (ma_list_slot _ Hwf i Hi) as Hslot.
  assert (∀ k, k ∈ ma_list ma ->
    ma_key (<[i := e]> es) k = if decide (k = i) then me_mem_address e else ma_key es k) as Hk.
  { intros k _. unfold ma_key. case_decide as Hki.
    - subst. by rewrite list_lookup_total_insert_eq.
    - by rewrite list_lookup_total_insert_ne. }
  apply NoDup_fmap_2_strong; [|done].
  intros x y Hx Hy. rewrite !Hk by done. intros Heq.
  repeat case_decide; subst; try done.
  - exfalso. by apply (Hne y).
  - exfalso. by apply (Hne x).
  - by apply (ma_key_inj ma Hwf).
Qed.
End store.

(** A view entry with address [a] is the one [list_find] returns. *)
Lemma lru_store_hit max eip a v ma i :
  ma_wf ma -> i ∈ ma_list ma -> ma_key (ma_entries ma) i = a ->
  let mae := ma_entries ma !!! i in
  let c := if me_mem_value mae =? v then me_count mae else 0 in
  lru_store max eip a v (ma_view ma) =
  (filter (fun e => me_mem_address e ≠ a) (ma_view ma)
     ++ [mk_ma_entry (wrap32 (c + 1)) (me_eip mae) a v], wrap32 (c + 1)).
Proof.
  intros Hwf Hi Ha mae c. unfold lru_store.
  destruct (list_find_elem_of (fun e => me_mem_address e = a) (ma_view ma) mae)
    as [[p e] Hf]; [by apply list_elem_of_fmap; exists i|done|].
  rewrite Hf. apply list_find_Some in Hf as (Hp & He & _).
  unfold ma_view in Hp. rewrite list_lookup_fmap in Hp.
  apply fmap_Some in Hp as (j & Hj & ->).
  assert (j = i) as ->; [|done].
  apply (ma_key_inj ma Hwf); [by eapply list_elem_of_lookup_2|done|].
  cbn in He. unfold ma_key in *. congruence.
Qed.

Lemma lru_store_miss max eip a v ma :
  (∀ e, e ∈ ma_view ma -> me_mem_address e ≠ a) ->
  lru_store max eip a v (ma_view ma) =
  ((if Z.of_nat (length (ma_list ma)) <? max then ma_view ma else tail (ma_view ma))
     ++ [mk_ma_entry 1 eip a v], 1).
Proof.
  intros Hall. unfold lru_store.
  assert (list_find (fun e => me_mem_address e = a) (ma_view ma) = None) as ->.
  { apply list_find_None, Forall_forall. exact Hall. }
  unfold ma_view at 1. by rewrite length_fmap.
Qed.

Lemma store_hit_refines ma eip a v i :
  ma_wf ma -> HASH_FIND_INT (ma_entries ma) (ma_hash ma) a = Some i ->
  ∃ ma' c, ski_liveness_store ma eip a v = Val (ma', Some c) /\ ma_wf ma' /\
    ma_max_entries ma' = ma_max_entries ma /\
    lru_store (ma_max_entries ma) eip a v (ma_view ma) = (ma_view ma', c).
Proof.
  intros Hwf Hf. pose proof Hf as [Hi Ha]%(hash_find_Some _ Hwf).
  unfold ski_liveness_store. rewrite (wf_init _ Hwf), Hf. cbn [Z.eqb].
  eexists _, _. split; [reflexivity|].
  assert (∀ x y, (if negb x then 0 else y) = if x then y else 0 :> Z) as Hneg by by intros [].
  rewrite Hneg. split; [|split; [done|]].
  - constructor; ma_cbn; try reflexivity; try apply Hwf.
    + rewrite length_insert. apply Hwf.
    + rewrite (wf_n _ Hwf). f_equal. symmetry. by apply Permutation_length, list_move_Permutation.
    + rewrite list_move_Permutation at 1 by done.
      rewrite (Permutation_length (list_move_Permutation ma Hwf i Hi)). apply Hwf.
    + rewrite list_move_Permutation by done. apply Hwf.
    + apply keys_insert_NoDup; [done|done|by apply list_move_Permutation|].
      intros j Hj Hne Heq. apply Hne. by apply (ma_key_inj ma Hwf).
  - rewrite (lru_store_hit _ _ a v ma i) by done. ma_cbn. f_equal.
    rewrite <- Ha, view_filter_addr by done. unfold ma_view. ma_cbn.
    symmetry. by apply view_move_to_end.
Qed.

Lemma store_fresh_refines ma eip a v :
  ma_wf ma -> HASH_FIND_INT (ma_entries ma) (ma_hash ma) a = None ->
  ma_n_entries ma < ma_max_entries ma ->
  ∃ ma', ski_liveness_store ma eip a v = Val (ma', Some 1) /\ ma_wf ma' /\
    ma_max_entries ma' = ma_max_entries ma /\
    ma_view ma' = ma_view ma ++ [mk_ma_entry 1 eip a v].
Proof.
  intros Hwf Hf Hlt. pose proof (wf_max _ Hwf) as Hmax. pose proof (wf_n _ Hwf) as Hn.
  pose proof (proj1 (hash_find_None _ Hwf a) Hf) as Hall.
  set (i := Z.to_nat (ma_n_entries ma)).
  assert (i = length (ma_list ma)) as Hi by lia.
  assert (i < length (ma_entries ma))%nat as Hslot.
  { rewrite (wf_len _ Hwf). lia. }
  assert (i ∉ ma_list ma) as Hnin by (intros ?%(ma_list_bound _ Hwf); lia).
  unfold ski_liveness_store. rewrite (wf_init _ Hwf), Hf. cbn [Z.eqb].
  rewrite (proj2 (Z.ltb_lt _ _) Hlt), (proj2 (Z.ltb_lt _ _)) by lia.
  eexists. split; [reflexivity|]. fold i. unfold DL_APPEND, HASH_ADD_INT.
  split; [|split; [done|]].
  - constructor; ma_cbn; try reflexivity; try apply Hwf.
    + rewrite length_insert. apply Hwf.
    + rewrite length_app. cbn [length]. lia.
    + lia.
    + rewrite length_app, Nat.add_1_r, seq_S. cbn [Nat.add]. rewrite <- Hi.
      f_equiv. rewrite Hi. apply Hwf.
    + f_equiv. apply Hwf.
    + rewrite fmap_app. apply NoDup_app. cbn [fmap list_fmap].
      assert (ma_key (<[i := mk_ma_entry 1 eip a v]> (ma_entries ma)) <$> ma_list ma
              = ma_key (ma_entries ma) <$> ma_list ma) as ->.
      { apply list_fmap_ext. intros p k Hk. unfold ma_key.
        rewrite list_lookup_total_insert_ne; [done|]. intros ->.
        by apply Hnin; eapply list_elem_of_lookup_2. }
      split; [apply Hwf|]. split; [|apply NoDup_singleton].
      intros k (j & -> & Hj)%list_elem_of_fmap. rewrite list_elem_of_singleton.
      unfold ma_key at 2. rewrite list_lookup_total_insert_eq by done.
      apply (Hall (ma_entries ma !!! j)). apply list_elem_of_fmap. by exists j.
  - unfold ma_view. ma_cbn. rewrite fmap_app. f_equal.
    + by apply fmap_insert_notin.
    + cbn [fmap list_fmap]. f_equal. by apply list_lookup_total_insert_eq.
Qed.

Lemma store_full_refines ma eip a v :
  ma_wf ma -> HASH_FIND_INT (ma_entries ma) (ma_hash ma) a = None ->
  ma_n_entries ma = ma_max_entries ma ->
  ∃ ma', ski_liveness_store ma eip a v = Val (ma', Some 1) /\ ma_wf ma' /\
    ma_max_entries ma' = ma_max_entries ma /\
    ma_view ma' = tail (ma_view ma) ++ [mk_ma_entry 1 eip a v].
Proof.
  intros Hwf Hf Hfull. pose proof (wf_max _ Hwf) as Hmax. pose proof (wf_n _ Hwf) as Hn.
  pose proof (proj1 (hash_find_None _ Hwf a) Hf) as Hall.
  unfold ski_liveness_store. rewrite (wf_init _ Hwf), Hf. cbn [Z.eqb].
  rewrite (proj2 (Z.ltb_ge _ _)) by lia.
  destruct (ma_list ma) as [|i l] eqn:Hl; [cbn in Hn; lia|].
  assert (i ∈ ma_list ma) as Hi by (rewrite Hl; apply list_elem_of_here).
  pose proof (ma_list_NoDup _ Hwf) as Hnd. rewrite Hl in Hnd. apply NoDup_cons in Hnd as [Hnin _].
  pose proof (list_move_Permutation ma Hwf i Hi) as Hperm. rewrite Hl in Hperm.
  eexists. split; [reflexivity|]. split; [|split; [done|]].
  - constructor; ma_cbn; try reflexivity; try apply Hwf.
    + rewrite length_insert. apply Hwf.
    + rewrite (Permutation_length Hperm). lia.
    + rewrite (Permutation_length Hperm), Hperm, <- Hl. apply Hwf.
    + rewrite Hperm. unfold HASH_ADD_INT, HASH_DEL.
      rewrite (wf_hash _ Hwf), Hl. apply Hperm.
    + apply keys_insert_NoDup; [done|done|by rewrite Hl|].
      intros j Hj Hne. apply (Hall (ma_entries ma !!! j)). apply list_elem_of_fmap. by exists j.
  - unfold ma_view at 2. rewrite Hl. cbn [fmap list_fmap tail].
    pose proof (view_move_to_end ma Hwf i (mk_ma_entry 1 eip a v) Hi) as Hv.
    rewrite Hl in Hv. unfold ma_view. ma_cbn. rewrite Hv.
    rewrite filter_cons_False by (intros Hc; by apply Hc). by rewrite filter_ne_id.
Qed.

(** The three branches together. *)
Lemma store_refines (ma : ski_ma) (eip a v : Z) (Hwf : ma_wf ma) :
  ∃ ma' c, ski_liveness_store ma eip a v = Val (ma', Some c) /\ ma_wf ma' /\
    ma_max_entries ma' = ma_max_entries ma /\
    lru_store (ma_max_entries ma) eip a v (ma_view ma) = (ma_view ma', c).
Proof.
  destruct (HASH_FIND_INT (ma_entries ma) (ma_hash ma) a) as [i|] eqn:Hf.
  { by eapply store_hit_refines. }
  pose proof (proj1 (hash_find_None _ Hwf a) Hf) as Hall.
  pose proof (wf_n _ Hwf). pose proof (wf_le _ Hwf).
  rewrite (lru_store_miss _ _ a v ma Hall).
  destruct (Z.ltb_spec (Z.of_nat (length (ma_list ma))) (ma_max_entries ma)).
  - destruct (store_fresh_refines ma eip a v) as (ma' & -> & ? & ? & Hv); [done|done|lia|].
    exists ma', 1. by rewrite Hv.
  - destruct (store_full_refines ma eip a v) as (ma' & -> & ? & ? & Hv); [done|done|lia|].
    exists ma', 1. by rewrite Hv.
Qed.

Lemma init_wf max :
  0 < max <= SKI_MA_ENTRIES_MAX ->
  ∃ ma, ski_liveness_init max = Val ma /\ ma_wf ma /\ ma_view ma = [] /\ ma_max_entries ma = max.
Proof.
  intros Hmax. unfold ski_liveness_init, eassert.
  rewrite (proj2 (Z.leb_le _ _)) by lia. eexists. split; [reflexivity|].
  split; [|done]. constructor; try done; cbn; try lia. constructor.
Qed.

Lemma is_present_view ma a :
  ma_wf ma -> ski_liveness_is_present ma a = 1 <-> a ∈ (me_mem_address <$> ma_view ma).
Proof.
  intros Hwf. unfold ski_liveness_is_present.
  destruct (HASH_FIND_INT (ma_entries ma) (ma_hash ma) a) as [i|] eqn:Hf; split; try done.
  - intros _. apply hash_find_Some in Hf as [Hi <-]; [|done].
    apply list_elem_of_fmap. exists (ma_entries ma !!! i). split; [done|].
    apply list_elem_of_fmap. by exists i.
  - intros (e & -> & He)%list_elem_of_fmap. exfalso.
    by apply (proj1 (hash_find_None _ Hwf _) Hf e He).
Qed.

(** A run of reads (eip, address, value), with the counters the calls return. *)
Fixpoint liveness_run (ma : ski_ma) (rs : list (Z * Z * Z)) : E (ski_ma * list (option Z)) :=
  match rs with
  | [] => Val (ma, [])
  | (eip, a, v) :: rs' =>
      r <-? ski_liveness_store ma eip a v ;;
      r' <-? liveness_run (fst r) rs' ;;
      Val (fst r', snd r :: snd r')
  end.

Fixpoint lru_run (max : Z) (l : list ski_ma_entry) (rs : list (Z * Z * Z))
  : list ski_ma_entry * list (option Z) :=
  match rs with
  | [] => (l, [])
  | (eip, a, v) :: rs' =>
      let r := lru_store max eip a v l in
      let r' := lru_run max (fst r) rs' in
      (fst r', Some (snd r) :: snd r')
  end.

Lemma liveness_run_refines rs ma :
  ma_wf ma ->
  ∃ ma' cs, liveness_run ma rs = Val (ma', cs) /\ ma_wf ma' /\
    ma_max_entries ma' = ma_max_entries ma /\
    lru_run (ma_max_entries ma) (ma_view ma) rs = (ma_view ma', cs).
Proof.
  revert ma. induction rs as [|[[eip a] v] rs IH]; intros ma Hwf.
  { by exists ma, []. }
  destruct (store_refines ma eip a v Hwf) as (ma1 & c & Hs & Hwf1 & Hm1 & Hv1).
  destruct (IH ma1 Hwf1) as (ma2 & cs & Hr & Hwf2 & Hm2 & Hv2).
  exists ma2, (Some c :: cs). cbn. rewrite Hs. cbn. rewrite Hr. cbn.
  rewrite Hv1. cbn. rewrite <- Hm1, Hv2. cbn. by rewrite Hm2.
Qed.

(** C8: From a freshly initialised table, any sequence of [ski_liveness_store]
    calls returns, keeps the entry array, the recency list and the hash
    consistent, and behaves as a bounded least-recently-used list of reads: the
    entries, their order and every returned counter are those of [lru_run], and
    [ski_liveness_is_present] answers 1 exactly for the addresses it holds. *)
Theorem ski_liveness_refines_lru (max : Z) (rs : list (Z * Z * Z))
    (Hmax : 0 < max <= SKI_MA_ENTRIES_MAX) :
  ∃ ma0 ma cs,
    ski_liveness_init max = Val ma0 /\ liveness_run ma0 rs = Val (ma, cs) /\ ma_wf ma /\
    lru_run max [] rs = (ma_view ma, cs) /\
    (∀ a, ski_liveness_is_present ma a = 1 <-> a ∈ (me_mem_address <$> ma_view ma)).
Proof.
  destruct (init_wf max Hmax) as (ma0 & Hi & Hwf0 & Hv0 & Hm0).
  destruct (liveness_run_refines rs ma0 Hwf0) as (ma & cs & Hr & Hwf & _ & Hv).
  exists ma0, ma, cs. rewrite Hv0, Hm0 in Hv.
  repeat (split; [done|]). intros a. by apply is_present_view.
Qed.

(** Three slots, four addresses: address 1 is evicted, the re-read of 2 with the
    same value counts 2 and the re-read of 3 with another value counts 1. *)
Lemma ski_liveness_refines_lru_witness :
  ∃ ma0 ma cs,
    ski_liveness_init 3 = Val ma0 /\
    liveness_run ma0 [(9,1,5); (9,2,5); (9,3,5); (9,2,5); (9,4,7); (9,3,6)] = Val (ma, cs) /\
    ma_wf ma /\
    lru_run 3 [] [(9,1,5); (9,2,5); (9,3,5); (9,2,5); (9,4,7); (9,3,6)] = (ma_view ma, cs) /\
    (∀ a, ski_liveness_is_present ma a = 1 <-> a ∈ (me_mem_address <$> ma_view ma)).
Proof.
  apply (ski_liveness_refines_lru 3 [(9,1,5); (9,2,5); (9,3,5); (9,2,5); (9,4,7); (9,3,6)]).
  unfold SKI_MA_ENTRIES_MAX. lia.
Defined.

Example lru_run_example :
  lru_run 3 [] [(9,1,5); (9,2,5); (9,3,5); (9,2,5); (9,4,7); (9,3,6)] =
  ([mk_ma_entry 2 9 2 5; mk_ma_entry 1 9 4 7; mk_ma_entry 1 9 3 6],
   [Some 1; Some 1; Some 1; Some 2; Some 1; Some 1]).
Proof. vm_compute. reflexivity. Qed.

(** ** Copying and resetting *)

Definition count_one (e : ski_ma_entry) : ski_ma_entry :=
  mk_ma_entry 1 (me_eip e) (me_mem_address e) (me_mem_value e).

Lemma copy_loop_view src l dest :
  ma_wf dest ->
  NoDup ((me_mem_address <$> ma_view dest) ++ (ma_key (ma_entries src) <$> l)) ->
  Z.of_nat (length (ma_view dest) + length l) <= ma_max_entries dest ->
  ∃ ma, ski_liveness_copy_loop src l dest = Val ma /\ ma_wf ma /\
    ma_max_entries ma = ma_max_entries dest /\
    ma_view ma = ma_view dest ++ (count_one <$> ((fun i => ma_entries src !!! i) <$> l)).
Proof.
  revert dest. induction l as [|i l IH]; intros dest Hwf Hnd Hlen.
  { exists dest. cbn. by rewrite app_nil_r. }
  set (e := ma_entries src !!! i).
  destruct (store_refines dest (me_eip e) (me_mem_address e) (me_mem_value e) Hwf)
    as (ma1 & c & Hs & Hwf1 & Hm1 & Hv1).
  rewrite lru_store_miss in Hv1.
  2:{ intros e' He' Heq. apply NoDup_app in Hnd as (_ & Hnd & _).
      apply (Hnd (me_mem_address e')); [by apply list_elem_of_fmap_2|].
      rewrite Heq. cbn. apply list_elem_of_here. }
  assert (length (ma_list dest) = length (ma_view dest)) as Hll
    by (unfold ma_view; by rewrite length_fmap).
  cbn [length] in Hlen. rewrite (proj2 (Z.ltb_lt _ _)) in Hv1 by lia.
  injection Hv1 as Hv1 _.
  destruct (IH ma1 Hwf1) as (ma & Hr & Hwf' & Hm & Hv).
  { rewrite <- Hv1, fmap_app, <- app_assoc. exact Hnd. }
  { rewrite <- Hv1, length_app, Hm1. cbn [length]. lia. }
  exists ma. cbn [ski_liveness_copy_loop]. fold e. rewrite Hs. cbn [ebind fst].
  split; [done|]. split; [done|]. split; [congruence|].
  rewrite Hv, <- Hv1, <- app_assoc. done.
Qed.

Lemma copy_view src :
  ma_wf src ->
  ∃ ma, ski_liveness_copy src = Val ma /\ ma_wf ma /\ ma_view ma = count_one <$> ma_view src.
Proof.
  intros Hwf. unfold ski_liveness_copy. rewrite (wf_init _ Hwf). cbn [ebind eassert c_true Z.eqb negb].
  destruct (init_wf (ma_max_entries src) (wf_max _ Hwf)) as (ma0 & -> & Hwf0 & Hv0 & Hm0).
  destruct (copy_loop_view src (ma_list src) ma0 Hwf0) as (ma & Hr & Hwf' & _ & Hv).
  { rewrite Hv0. apply Hwf. }
  { rewrite Hv0, Hm0. cbn. rewrite <- (wf_n _ Hwf). apply Hwf. }
  rewrite Hv0 in Hv. by exists ma.
Qed.

(** [ski_liveness_copy] returns a consistent table with the same reads in
    the same recency order as its source, every repeat counter restarted at 1,
    so that a thread put to sleep waits on exactly the addresses it read. *)
Theorem ski_liveness_copy_view (src : ski_ma) (Hwf : ma_wf src) :
  ∃ ma, ski_liveness_copy src = Val ma /\ ma_wf ma /\
    ma_view ma = count_one <$> ma_view src /\
    (∀ a, ski_liveness_is_present ma a = ski_liveness_is_present src a).
Proof.
  destruct (copy_view src Hwf) as (ma & Hr & Hwf' & Hv).
  exists ma. repeat (split; [done|]). intros a.
  assert (ski_liveness_is_present ma a = 1 <-> ski_liveness_is_present src a = 1) as Hiff.
  { rewrite !is_present_view, Hv by done. by rewrite <- list_fmap_compose. }
  unfold ski_liveness_is_present in *. repeat case_match; lia.
Qed.

Definition ma_sample : ski_ma :=
  match ski_liveness_init 4 with
  | Val ma => match liveness_run ma [(9,1,5); (9,2,5); (9,1,5)] with
              | Val (ma, _) => ma | Fail _ => ma end
  | Fail _ => ski_ma_zero
  end.

Lemma ma_sample_wf : ma_wf ma_sample.
Proof.
  destruct (init_wf 4 ltac:(unfold SKI_MA_ENTRIES_MAX; lia)) as (ma0 & Hi & Hwf0 & _ & _).
  destruct (liveness_run_refines [(9,1,5); (9,2,5); (9,1,5)] ma0 Hwf0) as (ma & cs & Hr & Hwf & _).
  unfold ma_sample. by rewrite Hi, Hr.
Qed.

Lemma ski_liveness_copy_view_witness :
  ∃ ma, ski_liveness_copy ma_sample = Val ma /\ ma_wf ma /\
    ma_view ma = count_one <$> ma_view ma_sample /\
    (∀ a, ski_liveness_is_present ma a = ski_liveness_is_present ma_sample a).
Proof. exact (ski_liveness_copy_view ma_sample ma_sample_wf). Defined.

Lemma reset_empty ma :
  ma_wf ma -> ∃ ma', ski_liveness_reset ma = Val ma' /\ ma_wf ma' /\
    ma_view ma' = [] /\ ma_max_entries ma' = ma_max_entries ma.
Proof.
  intros Hwf. unfold ski_liveness_reset. rewrite (wf_init _ Hwf).
  apply init_wf, Hwf.
Qed.

(** ** Spin detection *)

Lemma lru_run_spin n max eip a v k :
  1 <= k -> k + Z.of_nat n < 2 ^ 31 ->
  lru_run max [mk_ma_entry k eip a v] (replicate n (eip, a, v)) =
  ([mk_ma_entry (k + Z.of_nat n) eip a v], Some <$> seqZ (k + 1) (Z.of_nat n)).
Proof.
  revert k. induction n as [|n IH]; intros k Hk Hlt.
  { cbn. by rewrite Z.add_0_r. }
  cbn [replicate lru_run]. unfold lru_store.
  cbn [list_find me_mem_address]. rewrite decide_True by done.
  ma_cbn. rewrite Z.eqb_refl, filter_cons_False by (cbn; tauto). cbn [app fst snd].
  change (filter _ []) with (@nil ski_ma_entry). cbn [app].
  rewrite wrap32_id by (unfold in_int; lia).
  rewrite IH by lia. cbn [fst snd]. rewrite (seqZ_cons (k + 1)) by lia.
  replace (Z.succ (k + 1)) with (k + 1 + 1) by lia.
  replace (Z.pred (Z.of_nat (S n))) with (Z.of_nat n) by lia.
  by replace (k + Z.of_nat (S n)) with (k + 1 + Z.of_nat n) by lia.
Qed.

(** The spin detector: [n] reads in a row of one address with one value, on
    a fresh table, return the counters 1, 2, ..., [n]; the counter therefore
    exceeds the loop threshold exactly from the read after it on. *)
Theorem ski_liveness_spin (max eip a v : Z) (n : nat)
    (Hmax : 0 < max <= SKI_MA_ENTRIES_MAX) (Hn : Z.of_nat n < 2 ^ 31) :
  ∃ ma0 ma, ski_liveness_init max = Val ma0 /\
    liveness_run ma0 (replicate n (eip, a, v)) = Val (ma, Some <$> seqZ 1 (Z.of_nat n)).
Proof.
  destruct (init_wf max Hmax) as (ma0 & Hi & Hwf0 & Hv0 & Hm0).
  destruct (liveness_run_refines (replicate n (eip, a, v)) ma0 Hwf0) as (ma & cs & Hr & _ & _ & Hv).
  exists ma0, ma. split; [done|]. rewrite Hr. do 2 f_equal.
  rewrite Hv0, Hm0 in Hv. destruct n as [|n]; [by injection Hv|].
  cbn [replicate lru_run] in Hv. unfold lru_store in Hv. cbn [list_find fst snd length] in Hv.
  rewrite (proj2 (Z.ltb_lt _ _)) in Hv by lia. cbn [app] in Hv.
  rewrite lru_run_spin in Hv by lia. injection Hv as _ <-.
  cbn [snd]. rewrite (seqZ_cons 1) by lia.
  by replace (Z.pred (Z.of_nat (S n))) with (Z.of_nat n) by lia.
Qed.

Lemma ski_liveness_spin_witness :
  ∃ ma0 ma, ski_liveness_init 20 = Val ma0 /\
    liveness_run ma0 (replicate 7 (9, 64, 1)) = Val (ma, Some <$> seqZ 1 (Z.of_nat 7)).
Proof. apply (ski_liveness_spin 20 9 64 1 7); unfold SKI_MA_ENTRIES_MAX; lia. Defined.
