(* ===== verification/LoopTrace.v ===== *)
(** * LoopTrace.v -- the execution trace and its loop compression

    Models the trace file ([ski_exec_trace_print_comment] of
    [vmm/ski-debug.c]) and the loop compressor of
    [vmm/target-i386/op_helper.c]: a ring of the last
    [SKI_LOOP_MAX_LOG_ENTRIES] instructions with repeat counters.  An
    instruction is written when it runs for the first
    [SKI_LOOP_INTERATIONS_ACTIVATE] times of a loop and only counted
    afterwards; a flush writes the loop body once with its repeat count.

    The configuration is the one the file compiles with: [SKI_LOOP_ENABLED] and
    [SKI_LOOP_CMP_IGNORE_REGISTERS] defined, [SKI_DISABLE_TRACE_OUTPUT] and
    [SKI_LOOP_DEBUG_OUTPUT_DECOMPRESSED] not. *)

From S2P Require Import Prelude.

Definition SKI_LOOP_INTERATIONS_ACTIVATE : Z := 10.
Definition SKI_LOOP_MAX_LOG_ENTRIES : Z := 10.
Definition SKI_EXEC_TRACE_MAX_ENTRIES : Z := 4000000.
Definition SKI_DEBUG_LOOP_CYCLE_IN_PROGREESS : Z := 50000.

(** The comments of the trace file, with the values their format strings print. *)
Inductive comment :=
  | CLoopStart
  | CLoopEnd (repeated : Z)
  | CLoopTailEnd
  | CLoopInProgress (iterations : Z)
  | CMaxEntries
  | CDispatch (int_no cpu_no : Z)
  | CWakeInterrupt (cpu_index by_thread : Z)
  | CPriorityAdjust (cpu_no int_no id old_adjust new_adjust : Z)
  | CAdjusted
  | CWakeRs (cpu_no int_no id is_pause mem_address by_thread : Z)
  | CWaitRs (cpu_no int_no id is_pause : Z)
  | CWaitHlt (cpu_no int_no id : Z)
  | CPreemption (eip : Z)
  | CSwitch (id cpu_no priority priority_adjust : Z) (from : option (Z * Z * Z * Z))
  | CExecuting (cpu_no int_no id calc : Z)
  | CInterruptHandler (intno is_int error_code next_eip is_hw : Z)
  | CReturnInterrupt
  | CReachedExit (cpu_index : Z)
  | CMaxInstructions
  | CTestFinished
  | CTestHeader (nr_cpus nr_max_instr : Z)
  | CKernelHeader
  | CDiskHeader
  | CUserReset
  | CMem (vcpu eip mem_address value mem_index n_bits : Z) (is_load : bool) (paddr : Z).

(** The registers written in a trace line. *)
Record cpu_regs := mk_cpu_regs {
  r_eax : Z; r_ebx : Z; r_ecx : Z; r_edx : Z; r_esp : Z; r_ebp : Z; r_esi : Z; r_edi : Z;
  r_cs : Z; r_ss : Z; r_ds : Z; r_cr3 : Z; r_gdt : Z
}.

#[export] Instance cpu_regs_eq_dec : EqDecision cpu_regs.
Proof. solve_decision. Defined.

Inductive trace_line :=
  | TComment (c : comment)
  | TEntry (vcpu eip : Z) (regs : cpu_regs).

Record ski_loop_execution_context := mk_ctx {
  c_count : Z;
  c_vcpu : Z;
  c_eip : Z;
  c_regs : cpu_regs
}.

Definition regs_zero : cpu_regs := mk_cpu_regs 0 0 0 0 0 0 0 0 0 0 0 0 0.
Definition ctx_zero : ski_loop_execution_context := mk_ctx 0 0 0 regs_zero.
#[export] Instance ctx_inhabited : Inhabited ski_loop_execution_context := populate ctx_zero.

(** [ski_loop_log], [ski_loop_log_head], the trace file ([tr_fd]: it is open,
    [tr_out]: its lines, latest last) and [ski_exec_trace_nr_entries]. *)
Record trace_state := mk_trace {
  lp_log : list ski_loop_execution_context;
  lp_head : Z;
  tr_fd : bool;
  tr_nr_entries : Z;
  tr_out : list trace_line
}.

Definition set_lp_log v s := mk_trace v (lp_head s) (tr_fd s) (tr_nr_entries s) (tr_out s).
Definition set_lp_head v s := mk_trace (lp_log s) v (tr_fd s) (tr_nr_entries s) (tr_out s).
Definition set_tr_fd v s := mk_trace (lp_log s) (lp_head s) v (tr_nr_entries s) (tr_out s).
Definition set_tr_nr_entries v s := mk_trace (lp_log s) (lp_head s) (tr_fd s) v (tr_out s).
Definition set_tr_out v s := mk_trace (lp_log s) (lp_head s) (tr_fd s) (tr_nr_entries s) v.

Definition set_count (n : Z) (e : ski_loop_execution_context) : ski_loop_execution_context :=
  mk_ctx n (c_vcpu e) (c_eip e) (c_regs e).

Definition ski_exec_trace_print_comment (c : comment) : M trace_state unit :=
  s <- get ;;
  when (tr_fd s && (tr_nr_entries s <? SKI_EXEC_TRACE_MAX_ENTRIES))
    (put (set_tr_out (tr_out s ++ [TComment c]) s)).

(** [fprintf] on the trace file; [NULL] is not a stream. *)
Definition fprintf_entry (vcpu eip : Z) (regs : cpu_regs) : M trace_state unit :=
  s <- get ;;
  if tr_fd s then put (set_tr_out (tr_out s ++ [TEntry vcpu eip regs]) s)
  else stop HUndef.

Definition ski_loop_debug_print_entry (c : ski_loop_execution_context) : M trace_state unit :=
  when (c_count c >? 0) (fprintf_entry (c_vcpu c) (c_eip c) (c_regs c)).

Definition ski_loop_print_entry (c : ski_loop_execution_context) : M trace_state unit :=
  when (c_count c >? 0)
    (ski_loop_debug_print_entry c ;;;
     modify (fun s => set_tr_nr_entries (wrap32 (tr_nr_entries s + 1)) s)).

(** [&ski_loop_log[pos % SKI_LOOP_MAX_LOG_ENTRIES]] *)
Definition log_at (log : list ski_loop_execution_context) (pos : Z) : ski_loop_execution_context :=
  log !!! Z.to_nat (Z.rem pos SKI_LOOP_MAX_LOG_ENTRIES).

(** The indices 0 .. SKI_LOOP_MAX_LOG_ENTRIES - 1 of the [for] loops. *)
Definition log_indices : list Z := seqZ 0 SKI_LOOP_MAX_LOG_ENTRIES.

(** One iteration of the scan for the extreme counters. *)
Definition scan_counts (log : list ski_loop_execution_context) (acc : Z * Z * Z) (pos : Z)
  : Z * Z * Z :=
  let '(count_min, count_max, first_max_pos) := acc in
  let e := log_at log pos in
  if c_count e >? 0 then
    (if count_min <=? 0 then c_count e
     else if c_count e <? count_min then c_count e else count_min,
     if count_max <=? 0 then c_count e
     else if c_count e >? count_max then c_count e else count_max,
     if count_max <? c_count e then pos else first_max_pos)
  else acc.

(** [for (...) if (keep e) ski_loop_print_entry(e);] over the given positions. *)
Fixpoint print_entries (keep : Z -> bool) (es : list ski_loop_execution_context)
  : M trace_state unit :=
  match es with
  | [] => ret tt
  | e :: es' => when (keep (c_count e)) (ski_loop_print_entry e) ;;; print_entries keep es'
  end.

Definition reset_log : M trace_state unit :=
  modify (fun s => set_lp_head (-1) (set_lp_log (set_count 0 <$> lp_log s) s)).

Definition ski_loop_print_reset_all : M trace_state unit :=
  s <- get ;;
  let log := lp_log s in
  let old_pos := lp_head s in
  let '(count_min, count_max, first_max_pos) :=
    foldl (scan_counts log) (-1, -1, -1) ((fun i => i + old_pos + 1) <$> log_indices) in
  if count_max - count_min >? 1 then stop HAssert
  else if count_min - SKI_LOOP_INTERATIONS_ACTIVATE <? 0 then reset_log
  else
    when (count_min - SKI_LOOP_INTERATIONS_ACTIVATE >=? 1)
      (ski_exec_trace_print_comment CLoopStart ;;;
       print_entries (fun c => c >=? count_min)
         ((fun i => log_at log (first_max_pos + i)) <$> log_indices) ;;;
       ski_exec_trace_print_comment (CLoopEnd (count_min - SKI_LOOP_INTERATIONS_ACTIVATE))) ;;;
    when (negb (count_min =? count_max))
      (print_entries (fun c => c =? count_max)
         ((fun i => log_at log (i + old_pos + 1)) <$> log_indices) ;;;
       when (count_min - SKI_LOOP_INTERATIONS_ACTIVATE >? 0)
         (ski_exec_trace_print_comment CLoopTailEnd)) ;;;
    reset_log.

Definition ski_loop_flush : M trace_state unit := ski_loop_print_reset_all.
Definition ski_loop_finish : M trace_state unit := ski_loop_flush.

Definition ski_loop_init : M trace_state unit :=
  modify (fun s => set_lp_log (set_count 0 <$> lp_log s) s) ;;;
  ski_loop_print_reset_all.

(** First loop of [ski_loop_print_reset_range]: is a compressed loop in the range? *)
Fixpoint range_needs_print (log : list ski_loop_execution_context) (reset_start reset_end : Z)
    (idx : list Z) : bool :=
  match idx with
  | [] => false
  | i :: idx' =>
      let next_pos := Z.rem (i + reset_start) SKI_LOOP_MAX_LOG_ENTRIES in
      if c_count (log_at log next_pos) >? SKI_LOOP_INTERATIONS_ACTIVATE then true
      else if next_pos =? reset_end then false
      else range_needs_print log reset_start reset_end idx'
  end.

(** Second loop: clear the range. *)
Fixpoint clear_range (reset_start reset_end : Z) (idx : list Z)
    (log : list ski_loop_execution_context) : list ski_loop_execution_context :=
  match idx with
  | [] => log
  | i :: idx' =>
      let next_pos := Z.rem (i + reset_start) SKI_LOOP_MAX_LOG_ENTRIES in
      let log := alter (set_count 0) (Z.to_nat next_pos) log in
      if next_pos =? reset_end then log
      else clear_range reset_start reset_end idx' log
  end.

Definition ski_loop_print_reset_range (reset_start reset_end : Z) : M trace_state unit :=
  s <- get ;;
  when (range_needs_print (lp_log s) reset_start reset_end log_indices)
    ski_loop_print_reset_all ;;;
  modify (fun s => set_lp_log (clear_range reset_start reset_end log_indices (lp_log s)) s).

(** The instruction being executed: [env->cpu_index], its address and the registers. *)
Definition ski_loop_store_instruction (vcpu eip : Z) (regs : cpu_regs) (update_if_exists : bool)
    (c : ski_loop_execution_context) : ski_loop_execution_context :=
  if negb (c_eip c =? eip) || (c_count c <=? 0) then mk_ctx 1 vcpu eip regs
  else
    let n := wrap32 (c_count c + 1) in
    if update_if_exists then mk_ctx n vcpu eip regs else set_count n c.

Definition store_at (pos : Z) (vcpu eip : Z) (regs : cpu_regs) (upd : bool)
  : M trace_state unit :=
  modify (fun s => set_lp_log
    (alter (ski_loop_store_instruction vcpu eip regs upd) (Z.to_nat pos) (lp_log s)) s).

Definition ski_loop_find_entry (log : list ski_loop_execution_context) (eip : Z) : Z :=
  match list_find (fun e => 0 < c_count e /\ c_eip e = eip) log with
  | Some (i, _) => Z.of_nat i
  | None => -1
  end.

Definition ski_loop_equal_vcpu_regs (c : ski_loop_execution_context) (vcpu : Z) : bool :=
  c_vcpu c =? vcpu.

(** Returns 1 if the caller should print the instruction, 0 if it is compressed. *)
Definition ski_loop_add_instruction (vcpu eip : Z) (regs : cpu_regs) : M trace_state Z :=
  s <- get ;;
  let existing_pos := ski_loop_find_entry (lp_log s) eip in
  let old_pos := lp_head s in
  if old_pos <? 0 then
    store_at 0 vcpu eip regs false ;;;
    modify (set_lp_head 0) ;;;
    ret 1
  else if (existing_pos >=? 0)
          && ski_loop_equal_vcpu_regs (log_at (lp_log s) existing_pos) vcpu then
    let new_pos := existing_pos in
    if new_pos =? Z.rem (old_pos + 1) SKI_LOOP_MAX_LOG_ENTRIES then
      modify (set_lp_head new_pos) ;;;
      if c_count (log_at (lp_log s) new_pos) >=? SKI_LOOP_INTERATIONS_ACTIVATE then
        store_at new_pos vcpu eip regs false ;;;
        s' <- get ;;
        let n := c_count (log_at (lp_log s') new_pos) in
        when (Z.rem n SKI_DEBUG_LOOP_CYCLE_IN_PROGREESS =? 0)
          (ski_exec_trace_print_comment (CLoopInProgress n)) ;;;
        ret 0
      else
        store_at new_pos vcpu eip regs true ;;;
        ret 1
    else
      ski_loop_print_reset_range (Z.rem (old_pos + 1) SKI_LOOP_MAX_LOG_ENTRIES)
        (Z.rem (new_pos - 1 + SKI_LOOP_MAX_LOG_ENTRIES) SKI_LOOP_MAX_LOG_ENTRIES) ;;;
      modify (set_lp_head new_pos) ;;;
      s' <- get ;;
      if c_count (log_at (lp_log s') new_pos) >=? SKI_LOOP_INTERATIONS_ACTIVATE then
        store_at new_pos vcpu eip regs false ;;;
        ret 0
      else
        store_at new_pos vcpu eip regs true ;;;
        ret 1
  else
    when (c_count (log_at (lp_log s) old_pos) >? 1) ski_loop_print_reset_all ;;;
    s' <- get ;;
    let new_pos := Z.rem (lp_head s' + 1) SKI_LOOP_MAX_LOG_ENTRIES in
    store_at new_pos vcpu eip regs false ;;;
    modify (set_lp_head new_pos) ;;;
    ret 1.

(** The tracing part of [helper_ski_instrument_all] (with
    [ski_init_options_trace_instructions_enabled] given). *)
Definition trace_instruction (trace_instructions_enabled : bool) (vcpu eip : Z) (regs : cpu_regs)
  : M trace_state unit :=
  s <- get ;;
  when (tr_fd s && (tr_nr_entries s <? SKI_EXEC_TRACE_MAX_ENTRIES))
    (r <- ski_loop_add_instruction vcpu eip regs ;;
     when (r =? 1)
       (when trace_instructions_enabled (fprintf_entry vcpu eip regs) ;;;
        s' <- get ;;
        when (tr_nr_entries s' =? SKI_EXEC_TRACE_MAX_ENTRIES - 1)
          (ski_loop_flush ;;; ski_exec_trace_print_comment CMaxEntries) ;;;
        modify (fun s => set_tr_nr_entries (wrap32 (tr_nr_entries s + 1)) s))).

(** ** The ring seen from its head *)

(** The entries from the oldest position to the head. *)
Definition ring (head : Z) (log : list ski_loop_execution_context) :
    list ski_loop_execution_context :=
  drop (Z.to_nat (head + 1)) log ++ take (Z.to_nat (head + 1)) log.

Lemma ten_entries (log : list ski_loop_execution_context) :
  length log = 10%nat ->
  exists a0 a1 a2 a3 a4 a5 a6 a7 a8 a9, log = [a0; a1; a2; a3; a4; a5; a6; a7; a8; a9].
Proof.
  intros H. do 10 (destruct log as [|? log]; [discriminate|]).
  destruct log; [|discriminate]. by repeat eexists.
Qed.

Lemma index_cases (h : Z) :
  0 <= h < 10 ->
  h = 0 \/ h = 1 \/ h = 2 \/ h = 3 \/ h = 4 \/ h = 5 \/ h = 6 \/ h = 7 \/ h = 8 \/ h = 9.
Proof. lia. Qed.

(** Case analysis over the ten positions of the ring. *)
Ltac ring_cases H := apply index_cases in H;
  repeat (destruct H as [->|H]); try subst.

(** Distance from the position after the head to a position. *)
Definition ring_index (head p : Z) : nat := Z.to_nat ((p - head - 1) mod 10).

Section ring.
Context (log : list ski_loop_execution_context) (Hlen : length log = 10%nat).

Lemma ring_positions (h : Z) :
  -1 <= h < 10 ->
  ((fun i => log_at log (i + h + 1)) <$> log_indices) = ring h log.
Proof.
  intros Hh. destruct (ten_entries _ Hlen) as (?&?&?&?&?&?&?&?&?&?&->).
  destruct (decide (h = -1)) as [->|]; [reflexivity|].
  assert (0 <= h < 10) as H by lia. ring_cases H; reflexivity.
Qed.

Lemma ring_lookup (h p : Z) :
  0 <= h < 10 -> 0 <= p < 10 -> ring h log !! ring_index h p = log !! Z.to_nat p.
Proof.
  intros Hh Hp. destruct (ten_entries _ Hlen) as (?&?&?&?&?&?&?&?&?&?&->).
  ring_cases Hh; ring_cases Hp; reflexivity.
Qed.

(** Positions starting inside the ring: the part from there on comes first. *)
Lemma ring_rotate (h : Z) (n : nat) :
  -1 <= h < 10 -> (n < 10)%nat ->
  ((fun i => log_at log (h + 1 + Z.of_nat n + i)) <$> log_indices) =
  drop n (ring h log) ++ take n (ring h log).
Proof.
  intros Hh Hn. destruct (ten_entries _ Hlen) as (?&?&?&?&?&?&?&?&?&?&->).
  do 10 (destruct n as [|n]; [
    destruct (decide (h = -1)) as [->|]; [reflexivity|];
    assert (0 <= h < 10) as H by lia; ring_cases H; reflexivity|]). lia.
Qed.

Lemma ring_new (h : Z) f :
  -1 <= h < 10 ->
  ring (Z.rem (h + 1) 10) (alter f (Z.to_nat (Z.rem (h + 1) 10)) log) =
  drop 1 (ring h log) ++ (f <$> take 1 (ring h log)).
Proof.
  intros Hh. destruct (ten_entries _ Hlen) as (?&?&?&?&?&?&?&?&?&?&->).
  destruct (decide (h = -1)) as [->|]; [reflexivity|].
  assert (0 <= h < 10) as H by lia. ring_cases H; reflexivity.
Qed.

Lemma ring_first f :
  ring 0 (alter f 0%nat log) = drop 1 (ring (-1) log) ++ (f <$> take 1 (ring (-1) log)).
Proof. by destruct (ten_entries _ Hlen) as (?&?&?&?&?&?&?&?&?&?&->). Qed.

Lemma ring_store (p : Z) f :
  0 <= p < 10 ->
  ring p (alter f (Z.to_nat p) log) = take 9 (ring p log) ++ [f (log_at log p)].
Proof.
  intros Hp. destruct (ten_entries _ Hlen) as (?&?&?&?&?&?&?&?&?&?&->).
  ring_cases Hp; reflexivity.
Qed.

Lemma ring_clear (h p : Z) f :
  0 <= h < 10 -> 0 <= p < 10 -> p <> Z.rem (h + 1) 10 ->
  ring p (alter f (Z.to_nat p)
    (clear_range (Z.rem (h + 1) 10) (Z.rem (p - 1 + 10) 10) log_indices log)) =
  drop (S (ring_index h p)) (ring h log) ++
  (set_count 0 <$> take (ring_index h p) (ring h log)) ++
  (f <$> take 1 (drop (ring_index h p) (ring h log))).
Proof.
  intros Hh Hp Hne. destruct (ten_entries _ Hlen) as (?&?&?&?&?&?&?&?&?&?&->).
  ring_cases Hh; ring_cases Hp; first [reflexivity | by destruct Hne].
Qed.

Lemma clear_lookup (h p : Z) :
  0 <= h < 10 -> 0 <= p < 10 -> p <> Z.rem (h + 1) 10 ->
  log_at (clear_range (Z.rem (h + 1) 10) (Z.rem (p - 1 + 10) 10) log_indices log) p
  = log_at log p.
Proof.
  intros Hh Hp Hne. destruct (ten_entries _ Hlen) as (?&?&?&?&?&?&?&?&?&?&->).
  ring_cases Hh; ring_cases Hp; first [reflexivity | by destruct Hne].
Qed.

Lemma range_print (h p : Z) :
  0 <= h < 10 -> 0 <= p < 10 -> p <> Z.rem (h + 1) 10 ->
  range_needs_print log (Z.rem (h + 1) 10) (Z.rem (p - 1 + 10) 10) log_indices =
  existsb (fun e => c_count e >? 10) (take (ring_index h p) (ring h log)).
Proof.
  intros Hh Hp Hne. destruct (ten_entries _ Hlen) as (?&?&?&?&?&?&?&?&?&?&->).
  ring_cases Hh; ring_cases Hp; first [reflexivity | by destruct Hne].
Qed.

End ring.
(** ** What a trace file stands for *)

Definition tag (e : ski_loop_execution_context) : Z * Z := (c_vcpu e, c_eip e).
Definition entry_line (e : ski_loop_execution_context) : trace_line :=
  TEntry (c_vcpu e) (c_eip e) (c_regs e).

(** [n] copies of [l]. *)
Definition rep {A} (n : Z) (l : list A) : list A := concat (replicate (Z.to_nat n) l).

(** Reading a trace file: entries stand for themselves, a loop body between its
    start and end comments for its repetitions.  The state is the instructions
    read so far and, inside a loop body, the body read so far. *)
Definition read_line (acc : list (Z * Z) * option (list (Z * Z))) (l : trace_line)
  : list (Z * Z) * option (list (Z * Z)) :=
  match l, acc with
  | TEntry v e _, (d, None) => (d ++ [(v, e)], None)
  | TEntry v e _, (d, Some b) => (d, Some (b ++ [(v, e)]))
  | TComment CLoopStart, (d, _) => (d, Some [])
  | TComment (CLoopEnd n), (d, Some b) => (d ++ rep n b, None)
  | _, _ => acc
  end.

Definition decompress (out : list trace_line) : list (Z * Z) * option (list (Z * Z)) :=
  foldl read_line ([], None) out.

Lemma decompress_app out1 out2 :
  decompress (out1 ++ out2) = foldl read_line (decompress out1) out2.
Proof. apply foldl_app. Qed.

Lemma read_entries es d :
  foldl read_line (d, None) (entry_line <$> es) = (d ++ (tag <$> es), None).
Proof.
  revert d. induction es as [|e es IH]; intros d; cbn [fmap list_fmap foldl].
  - by rewrite app_nil_r.
  - cbn [read_line entry_line]. rewrite IH, <- app_assoc. done.
Qed.

Lemma read_body es d b :
  foldl read_line (d, Some b) (entry_line <$> es) = (d, Some (b ++ (tag <$> es))).
Proof.
  revert b. induction es as [|e es IH]; intros b; cbn [fmap list_fmap foldl].
  - by rewrite app_nil_r.
  - cbn [read_line entry_line]. rewrite IH, <- app_assoc. done.
Qed.

(** ** The suppressed instructions *)

Definition live (l : list ski_loop_execution_context) : list ski_loop_execution_context :=
  filter (fun e => 0 < c_count e) l.

(** The live entries are [mn ++ mx]: those at the end have run [k] times, those
    before them once less. *)
Definition shape (l mn mx : list ski_loop_execution_context) (k : Z) : Prop :=
  live l = mn ++ mx /\
  Forall (fun e => c_count e = k - 1) mn /\ Forall (fun e => c_count e = k) mx /\ mx <> [].

(** The instructions that the counters stand for and the file does not have. *)
Definition pend {A} (mn mx : list A) (k : Z) : list A :=
  match mn with
  | [] => rep (k - 10) mx
  | _ => if k - 1 <? 10 then [] else rep (k - 11) (mx ++ mn) ++ mx
  end.

Lemma live_split l mn mx k :
  shape l mn mx k ->
  exists A x B, l = A ++ x :: B /\ mn = live A /\ mx = x :: live B.
Proof.
  intros (Hl&_&_&Hne). revert mn Hl. induction l as [|e l IH]; intros mn Hl.
  { destruct mn, mx; discriminate || done. }
  unfold live in Hl. rewrite filter_cons in Hl. destruct (decide (0 < c_count e)) as [H|H].
  - destruct mn as [|e' mn].
    + destruct mx as [|x mx]; [done|]. injection Hl as <- <-. exists [], e, l. done.
    + injection Hl as <- Hl. destruct (IH _ Hl) as (A&x&B&->&->&->).
      exists (e :: A), x, B. split; [done|]. split; [|done].
      unfold live. rewrite filter_cons_True; done.
  - destruct (IH _ Hl) as (A&x&B&->&->&->). exists (e :: A), x, B.
    split; [done|]. split; [|done]. unfold live. rewrite filter_cons_False; done.
Qed.

(** ** The flush *)

Ltac tr_simpl :=
  unfold set_lp_log, set_lp_head, set_tr_fd, set_tr_nr_entries, set_tr_out;
  cbn [tr_fd tr_nr_entries tr_out lp_log lp_head].

Section scan.
Context (log : list ski_loop_execution_context).

Lemma scan_low c ps f :
  0 < c -> Forall (fun p => 0 < c_count (log_at log p) -> c_count (log_at log p) = c) ps ->
  exists f', foldl (scan_counts log) (c, c, f) ps = (c, c, f').
Proof.
  intros Hc H. revert f. induction H as [|p ps Hp _ IH]; intros f; [by exists f|].
  cbn [foldl]. unfold scan_counts at 2. destruct (c_count (log_at log p) >? 0) eqn:E; [|apply IH].
  rewrite (Hp ltac:(lia)). zbool. apply IH.
Qed.

Lemma scan_start c ps :
  0 < c -> Forall (fun p => 0 < c_count (log_at log p) -> c_count (log_at log p) = c) ps ->
  (live (log_at log <$> ps) = [] /\ foldl (scan_counts log) (-1, -1, -1) ps = (-1, -1, -1)) \/
  (live (log_at log <$> ps) <> [] /\
   exists f, foldl (scan_counts log) (-1, -1, -1) ps = (c, c, f)).
Proof.
  intros Hc H. induction H as [|p ps Hp Hps IH]; [by left|].
  rewrite fmap_cons. unfold live. rewrite filter_cons. cbn [foldl].
  unfold scan_counts at 2 4. destruct (c_count (log_at log p) >? 0) eqn:E.
  - right. rewrite decide_True by lia. split; [done|].
    rewrite (Hp ltac:(lia)). cbn. apply scan_low; [|done].  done.
  - rewrite decide_False by lia. apply IH.
Qed.

Lemma scan_high m c ps f :
  0 < m <= c -> Forall (fun p => 0 < c_count (log_at log p) -> c_count (log_at log p) = c) ps ->
  foldl (scan_counts log) (m, c, f) ps = (m, c, f).
Proof.
  intros Hc H. induction H as [|p ps Hp _ IH]; [done|].
  cbn [foldl]. unfold scan_counts at 2. destruct (c_count (log_at log p) >? 0) eqn:E; [|apply IH].
  rewrite (Hp ltac:(lia)). zbool. apply IH.
Qed.

Lemma scan_all k (A B : list Z) p :
  live (log_at log <$> A) = [] \/ 0 < k - 1 ->
  Forall (fun p => 0 < c_count (log_at log p) -> c_count (log_at log p) = k - 1) A ->
  0 < k -> c_count (log_at log p) = k ->
  Forall (fun p => 0 < c_count (log_at log p) -> c_count (log_at log p) = k) B ->
  foldl (scan_counts log) (-1, -1, -1) (A ++ p :: B) =
  (if decide (live (log_at log <$> A) = []) then k else k - 1, k, p).
Proof.
  intros HA0 HA Hk Hp HB. rewrite foldl_app. cbn [foldl].
  assert (forall c f, c = -1 \/ c = k - 1 /\ 0 < k - 1 ->
    scan_counts log (c, c, f) p = (if c =? -1 then k else k - 1, k, p)) as Hs.
  { intros c f Hc. unfold scan_counts. rewrite Hp.
    destruct Hc as [->|[-> ?]]; by zbool. }
  destruct (decide (live (log_at log <$> A) = [])) as [HA'|HA'].
  - destruct (decide (0 < k - 1)) as [Hk1|Hk1].
    + destruct (scan_start (k - 1) A Hk1 HA) as [[_ ->]|[? _]]; [|done].
      rewrite Hs by (by left). apply scan_high; [cbn; lia|done].
    + assert (foldl (scan_counts log) (-1, -1, -1) A = (-1, -1, -1)) as ->.
      { clear -HA'. induction A as [|a A IH]; [done|]. rewrite fmap_cons in HA'.
        unfold live in HA'. rewrite filter_cons in HA'. cbn [foldl]. unfold scan_counts at 2.
        destruct (decide _); [done|]. zbool.
        by apply IH. }
      rewrite Hs by (by left). apply scan_high; [cbn; lia|done].
  - destruct HA0 as [?|Hk1]; [done|].
    destruct (scan_start (k - 1) A Hk1 HA) as [[? _]|[_ [f ->]]]; [done|].
    rewrite Hs by (right; lia). zbool.
    apply scan_high; [lia|done].
Qed.
End scan.

Definition printed (keep : Z -> bool) (es : list ski_loop_execution_context) :=
  filter (fun e => Is_true (keep (c_count e)) /\ 0 < c_count e) es.

Lemma print_entries_eq keep es s :
  tr_fd s = true -> 0 <= tr_nr_entries s -> tr_nr_entries s + Z.of_nat (length es) < 2 ^ 31 ->
  print_entries keep es s =
  Ret (mk_trace (lp_log s) (lp_head s) true
        (tr_nr_entries s + Z.of_nat (length (printed keep es)))
        (tr_out s ++ (entry_line <$> printed keep es))) tt.
Proof.
  destruct s as [log head fd nr out]. cbn [tr_fd tr_nr_entries tr_out lp_log lp_head].
  intros ->. revert nr out. induction es as [|e es IH]; intros nr out H0 Hb.
  - cbn. rewrite app_nil_r, Z.add_0_r. done.
  - cbn [length] in Hb. cbn [print_entries]. unfold printed. rewrite filter_cons.
    destruct (keep (c_count e)) eqn:Hk; cbn [when].
    + unfold ski_loop_print_entry, ski_loop_debug_print_entry.
      destruct (c_count e >? 0) eqn:Hc.
      * rewrite decide_True by (split; [done|lia]). cbn [when].
        unfold fprintf_entry, bind, get, put, modify.
        tr_simpl.
        rewrite wrap32_id by (unfold in_int; lia). rewrite IH by lia.
        fold (printed keep es). cbn [length fmap list_fmap].
        rewrite <- app_assoc. do 2 f_equal. lia.
      * rewrite decide_False by (intros [? ?]; lia). cbn [when bind ret].
        unfold bind, ret. apply IH; lia.
    + rewrite decide_False by (intros [? ?]; done). unfold bind, ret. apply IH; lia.
Qed.

Lemma printed_all keep es :
  Forall (fun e => 0 < c_count e -> keep (c_count e) = true) es -> printed keep es = live es.
Proof.
  intros H. induction H as [|e es He _ IH]; [done|].
  unfold printed, live. rewrite !filter_cons. fold (printed keep es) (live es). rewrite IH.
  destruct (decide (0 < c_count e)) as [Hc|Hc].
  - rewrite decide_True; [done|]. by rewrite He.
  - rewrite decide_False; [done|]. tauto.
Qed.

Lemma printed_none keep es :
  Forall (fun e => 0 < c_count e -> keep (c_count e) = false) es -> printed keep es = [].
Proof.
  intros H. induction H as [|e es He _ IH]; [done|].
  unfold printed. rewrite filter_cons. fold (printed keep es). rewrite IH.
  rewrite decide_False; [done|]. intros [H1 H2]. by rewrite He in H1.
Qed.

Lemma printed_app keep es1 es2 : printed keep (es1 ++ es2) = printed keep es1 ++ printed keep es2.
Proof. apply filter_app. Qed.

Lemma print_comment_eq c s :
  ski_exec_trace_print_comment c s =
  Ret (if tr_fd s && (tr_nr_entries s <? SKI_EXEC_TRACE_MAX_ENTRIES)
       then set_tr_out (tr_out s ++ [TComment c]) s else s) tt.
Proof.
  unfold ski_exec_trace_print_comment, bind, get, when, put, ret.
  by destruct (tr_fd s && _).
Qed.

Lemma live_Forall c l :
  Forall (fun e => c_count e = c) (live l) ->
  Forall (fun e => 0 < c_count e -> c_count e = c) l.
Proof.
  intros H. apply Forall_forall. intros e He Hc.
  eapply Forall_forall in H; [exact H|]. by apply list_elem_of_filter.
Qed.

(** The counters of a well-shaped ring in their array order. *)
Lemma ring_shape_scan log h mn mx k :
  length log = 10%nat -> -1 <= h < 10 -> shape (ring h log) mn mx k -> 
  exists n, (n < 10)%nat /\ 0 < k /\
  foldl (scan_counts log) (-1, -1, -1) ((fun i => i + h + 1) <$> log_indices) =
    (if decide (mn = []) then k else k - 1, k, h + 1 + Z.of_nat n) /\
  live (take n (ring h log)) = mn /\ live (drop n (ring h log)) = mx.
Proof.
  intros Hlen Hh Hs. destruct (live_split _ _ _ _ Hs) as (A&x&B&HAB&->&->).
  destruct Hs as (Hl&Hmn&Hmx&_). exists (length A).
  assert (length (ring h log) = 10%nat) as Hr.
  { unfold ring. rewrite length_app, length_drop, length_take. lia. }
  assert (length A < 10)%nat as HA.
  { rewrite HAB, length_app in Hr. cbn in Hr. lia. }
  assert (0 < c_count x) as Hx.
  { assert (x ∈ live (ring h log)) as Hx by (rewrite Hl; apply elem_of_app; right; left).
    by apply list_elem_of_filter in Hx as [? _]. }
  assert (c_count x = k) as Hk by (by apply Forall_cons in Hmx as [? _]).
  split; [done|]. split; [lia|].
  assert (live (take (length A) (ring h log)) = live A /\
          live (drop (length A) (ring h log)) = x :: live B) as [-> ->].
  { rewrite HAB, take_app_length, drop_app_length. split; [done|].
    unfold live. by rewrite filter_cons_True. }
  split; [|done].
  pose proof (ring_positions log Hlen h Hh) as Hp. rewrite HAB in Hp.
  set (ps := (fun i => i + h + 1) <$> log_indices) in *.
  assert (log_at log <$> ps = A ++ x :: B) as Hps.
  { rewrite <- Hp. unfold ps. by rewrite <- list_fmap_compose. }
  assert (ps = take (length A) ps ++ (h + 1 + Z.of_nat (length A)) :: drop (S (length A)) ps) as Hsp.
  { symmetry. apply take_drop_middle. unfold ps, log_indices.
    rewrite list_lookup_fmap, lookup_seqZ_lt by (unfold SKI_LOOP_MAX_LOG_ENTRIES; lia). cbn. f_equal. lia. }
  assert (log_at log <$> take (length A) ps = A) as HA2.
  { rewrite fmap_take, Hps. apply take_app_length. }
  assert (log_at log <$> drop (S (length A)) ps = B) as HB2.
  { rewrite fmap_drop, Hps, drop_app_ge by lia.
    by replace (S (length A) - length A)%nat with 1%nat by lia. }
  assert (log_at log (h + 1 + Z.of_nat (length A)) = x) as Hx2.
  { rewrite Hsp in Hps. rewrite fmap_app, fmap_cons, HA2 in Hps.
    by apply app_inj_1 in Hps as [_ [= ? _]]. }
  rewrite Hsp, (scan_all log k); rewrite ?HA2; try done; try lia.
  - destruct (live A) as [|a A'] eqn:EA; [by left|right].
    assert (a ∈ live A) as Ha by (rewrite EA; left).
    apply list_elem_of_filter in Ha as [Ha _]. apply Forall_cons in Hmn as [? _]. lia.
  - apply live_Forall in Hmn. rewrite <- HA2 in Hmn. by apply Forall_fmap in Hmn.
  - by rewrite Hx2.
  - apply Forall_cons in Hmx as [_ Hmx]. apply live_Forall in Hmx. rewrite <- HB2 in Hmx.
    by apply Forall_fmap in Hmx.
Qed.

(** The flush writes the pending instructions and empties the ring. *)
Lemma print_reset_all_empty s :
  length (lp_log s) = 10%nat -> -1 <= lp_head s < 10 -> live (lp_log s) = [] ->
  ski_loop_print_reset_all s =
  Ret (set_lp_head (-1) (set_lp_log (set_count 0 <$> lp_log s) s)) tt.
Proof.
  intros Hlen Hh Hl. unfold ski_loop_print_reset_all, bind, get.
  assert (forall ps, Forall (fun p => 0 <= p) ps ->
    foldl (scan_counts (lp_log s)) (-1, -1, -1) ps = (-1, -1, -1)) as Hf.
  { intros ps Hps. induction Hps as [|p ps Hp _ IH]; [done|]. cbn [foldl]. unfold scan_counts at 2.
    assert (c_count (log_at (lp_log s) p) <= 0) as Hc.
    { destruct (decide (0 < c_count (log_at (lp_log s) p))) as [H|]; [|lia].
      assert (log_at (lp_log s) p ∈ live (lp_log s)) as Hin; [|rewrite Hl in Hin; by inversion Hin].
      apply list_elem_of_filter. split; [done|]. apply list_elem_of_lookup_2 with
        (i := Z.to_nat (Z.rem p SKI_LOOP_MAX_LOG_ENTRIES)).
      apply list_lookup_lookup_total_lt. rewrite Hlen. unfold SKI_LOOP_MAX_LOG_ENTRIES.
      pose proof (Z.rem_bound_pos p 10 Hp ltac:(lia)). lia. }
    zbool. apply IH. }
  rewrite Hf; [done|]. apply Forall_fmap. unfold log_indices. apply Forall_forall.
  intros i Hi. apply elem_of_seqZ in Hi. unfold compose. lia.
Qed.

Definition trace_bound : Z := 2 ^ 30.

(** Writing a loop body and writing a loop tail; [es] are the entries written. *)
Lemma print_loop_eq n keep l es log h nr out :
  0 <= nr <= trace_bound -> length l = 10%nat -> printed keep l = es ->
  exists out',
    (ski_exec_trace_print_comment CLoopStart ;;; print_entries keep l ;;;
     ski_exec_trace_print_comment (CLoopEnd n)) (mk_trace log h true nr out) =
    Ret (mk_trace log h true (nr + Z.of_nat (length es)) out') tt /\
    forall d, nr + Z.of_nat (length es) < SKI_EXEC_TRACE_MAX_ENTRIES ->
      decompress out = (d, None) -> decompress out' = (d ++ rep n (tag <$> es), None).
Proof.
  unfold trace_bound. intros Hnr Hlen <-. unfold bind at 1. rewrite print_comment_eq. tr_simpl.
  eexists. split.
  - unfold bind. rewrite print_entries_eq; [|destruct (_ && _); done|destruct (_ && _); cbn; lia..].
    rewrite print_comment_eq. tr_simpl.
    instantiate (1 := if nr + Z.of_nat (length (printed keep l)) <? SKI_EXEC_TRACE_MAX_ENTRIES
      then (if nr <? SKI_EXEC_TRACE_MAX_ENTRIES then out ++ [TComment CLoopStart] else out) ++
           (entry_line <$> printed keep l) ++ [TComment (CLoopEnd n)]
      else (if nr <? SKI_EXEC_TRACE_MAX_ENTRIES then out ++ [TComment CLoopStart] else out) ++
           (entry_line <$> printed keep l)).
    cbn [andb]. destruct (nr <? _); tr_simpl; destruct (_ <? _); by rewrite <- ?app_assoc.
  - intros d Hb Hd. zbool. rewrite <- app_assoc, !decompress_app, Hd. cbn [app foldl].
    rewrite foldl_app. cbn [read_line foldl]. by rewrite read_body.
Qed.

Lemma print_tail_eq b keep l es log h nr out :
  0 <= nr <= trace_bound + 10 -> length l = 10%nat -> printed keep l = es ->
  exists out',
    (print_entries keep l ;;; when b (ski_exec_trace_print_comment CLoopTailEnd))
      (mk_trace log h true nr out) =
    Ret (mk_trace log h true (nr + Z.of_nat (length es)) out') tt /\
    forall d, decompress out = (d, None) -> decompress out' = (d ++ (tag <$> es), None).
Proof.
  unfold trace_bound. intros Hnr Hlen <-. unfold bind.
  rewrite print_entries_eq; [|done|cbn; lia..]. tr_simpl.
  set (out1 := out ++ (entry_line <$> printed keep l)).
  assert (forall d, decompress out = (d, None) ->
    decompress out1 = (d ++ (tag <$> printed keep l), None)) as H1.
  { intros d Hd. unfold out1. by rewrite decompress_app, Hd, read_entries. }
  destruct b; cbn [when].
  - rewrite print_comment_eq. tr_simpl. cbn [andb].
    destruct (_ <? _); [|by eexists]. eexists. split; [done|].
    intros d Hd. rewrite decompress_app, (H1 d Hd). done.
  - eexists. split; [reflexivity|]. done.
Qed.

Lemma length_printed keep l : (length (printed keep l) <= length l)%nat.
Proof. apply length_filter. Qed.

Lemma rep_nonpos {A} n (l : list A) : n <= 0 -> rep n l = [].
Proof. intros H. unfold rep. by replace (Z.to_nat n) with 0%nat by lia. Qed.

Lemma rep_fmap {A B} (f : A -> B) n l : f <$> rep n l = rep n (f <$> l).
Proof.
  unfold rep. induction (Z.to_nat n) as [|m IH]; [done|].
  cbn [replicate concat]. by rewrite fmap_app, IH.
Qed.

Lemma flush_phases cmin k l1 l2 body mx log h nr out :
  length l1 = 10%nat -> length l2 = 10%nat -> 0 <= nr <= trace_bound ->
  printed (fun c => c >=? cmin) l1 = body -> (cmin <> k -> printed (fun c => c =? k) l2 = mx) ->
  exists nr' out',
    (when (cmin - 10 >=? 1)
       (ski_exec_trace_print_comment CLoopStart ;;; print_entries (fun c => c >=? cmin) l1 ;;;
        ski_exec_trace_print_comment (CLoopEnd (cmin - 10))) ;;;
     when (negb (cmin =? k))
       (print_entries (fun c => c =? k) l2 ;;;
        when (cmin - 10 >? 0) (ski_exec_trace_print_comment CLoopTailEnd)) ;;;
     reset_log) (mk_trace log h true nr out) =
    Ret (mk_trace (set_count 0 <$> log) (-1) true nr' out') tt /\
    nr <= nr' <= nr + 20 /\
    forall d, nr' < SKI_EXEC_TRACE_MAX_ENTRIES -> decompress out = (d, None) ->
      decompress out' =
      (d ++ rep (cmin - 10) (tag <$> body) ++ (if cmin =? k then [] else tag <$> mx), None).
Proof.
  intros H1 H2 Hnr Hb Hm.
  assert (exists nr1 out1,
    when (cmin - 10 >=? 1)
       (ski_exec_trace_print_comment CLoopStart ;;; print_entries (fun c => c >=? cmin) l1 ;;;
        ski_exec_trace_print_comment (CLoopEnd (cmin - 10))) (mk_trace log h true nr out) =
    Ret (mk_trace log h true nr1 out1) tt /\ nr <= nr1 <= nr + 10 /\
    forall d, nr1 < SKI_EXEC_TRACE_MAX_ENTRIES -> decompress out = (d, None) ->
      decompress out1 = (d ++ rep (cmin - 10) (tag <$> body), None)) as (nr1&out1&E1&B1&D1).
  { pose proof (length_printed (fun c => c >=? cmin) l1) as L. rewrite Hb, H1 in L.
    destruct (cmin - 10 >=? 1) eqn:E; cbn [when].
    - destruct (print_loop_eq (cmin - 10) _ l1 body log h nr out Hnr H1 Hb) as (out1&->&D).
      eexists _, out1. split; [done|]. split; [lia|]. intros d. apply D.
    - eexists nr, out. split; [done|]. split; [lia|]. intros d _ ->.
      by rewrite rep_nonpos, app_nil_r by lia. }
  erewrite bind_Ret by exact E1. destruct (cmin =? k) eqn:Ek; cbn [negb when].
  - eexists nr1, out1. split; [done|]. split; [lia|]. intros d ? ?.
    rewrite app_nil_r. by apply D1.
  - specialize (Hm ltac:(lia)). pose proof (length_printed (fun c => c =? k) l2) as L.
    rewrite Hm, H2 in L.
    destruct (print_tail_eq (cmin - 10 >? 0) _ l2 mx log h nr1 out1 ltac:(lia) H2 Hm) as (out2&E2&D2).
    erewrite bind_Ret by exact E2. exists (nr1 + Z.of_nat (length mx)), out2. split; [done|]. split; [lia|].
    intros d Hlt Hd. rewrite (D2 _ (D1 d ltac:(lia) Hd)). by rewrite <- app_assoc.
Qed.

Lemma pend_small {A} (mn mx : list A) (k : Z) :
  ((if decide (mn = []) then k else k - 1) - 10 <? 0) = true -> pend mn mx k = [].
Proof.
  intros H. destruct mn; cbn [pend]; [rewrite decide_True in H by done|
    rewrite decide_False in H by done; by zbool]. rewrite rep_nonpos by lia. done.
Qed.

Lemma flush_spec s mn mx k :
  length (lp_log s) = 10%nat -> -1 <= lp_head s < 10 -> tr_fd s = true ->
  0 <= tr_nr_entries s <= trace_bound ->
  shape (ring (lp_head s) (lp_log s)) mn mx k ->
  exists nr' out',
    ski_loop_print_reset_all s =
      Ret (mk_trace (set_count 0 <$> lp_log s) (-1) true nr' out') tt /\
    tr_nr_entries s <= nr' <= tr_nr_entries s + 20 /\
    forall d, nr' < SKI_EXEC_TRACE_MAX_ENTRIES -> decompress (tr_out s) = (d, None) ->
      decompress out' = (d ++ (tag <$> pend mn mx k), None).
Proof.
  destruct s as [log h fd nr out]. tr_simpl. intros Hlen Hh -> Hnr Hs.
  destruct (ring_shape_scan log h mn mx k Hlen Hh Hs) as (n&Hn&Hk&Hscan&Hmn&Hmx).
  destruct Hs as (_&Cmn&Cmx&Hne).
  unfold ski_loop_print_reset_all. unfold bind at 1. unfold get at 1. tr_simpl.
  rewrite Hscan. clear Hscan.
  rewrite (ring_rotate log Hlen h n Hh Hn), (ring_positions log Hlen h Hh).
  assert (length (ring h log) = 10%nat) as Hr.
  { unfold ring. rewrite length_app, length_drop, length_take. lia. }
  set (rg := ring h log) in *. set (cmin := if decide (mn = []) then k else k - 1).
  assert (printed (fun c => c >=? cmin) (drop n rg ++ take n rg) = mx ++ mn) as Hbody.
  { rewrite printed_app, !printed_all, Hmn, Hmx; [done|..]; subst mn mx.
    - apply Forall_forall. intros e He H0.
      assert (e ∈ live (take n rg)) as Hl by (by apply list_elem_of_filter).
      eapply Forall_forall in Cmn; [|done]. cbn in Cmn |- *. unfold cmin.
      destruct (decide _) as [E|]; [rewrite E in Hl; by inversion Hl|lia].
    - eapply Forall_impl; [by apply live_Forall|]. intros e He H0. cbn in He |- *. rewrite (He H0).
      unfold cmin. destruct (decide _); lia. }
  assert (mn <> [] -> printed (fun c => c =? k) rg = mx) as Htail.
  { intros _. rewrite <- (take_drop n rg), printed_app, printed_none, printed_all; [done|..];
      subst mn mx; (eapply Forall_impl; [by apply live_Forall|]); cbn; intros e He H0; lia. }
  assert (length (drop n rg ++ take n rg) = 10%nat) as Hd.
  { rewrite length_app, length_drop, length_take. lia. }
  destruct (k - cmin >? 1) eqn:Ec; [unfold cmin in Ec; destruct (decide _); lia|clear Ec].
  unfold SKI_LOOP_INTERATIONS_ACTIVATE in *.
  destruct (cmin - 10 <? 0) eqn:E1.
  { eexists nr, out. split; [reflexivity|]. split; [lia|]. intros d _ Hdd. rewrite Hdd.
    rewrite pend_small by done. by rewrite app_nil_r. }
  edestruct (flush_phases cmin k _ rg (mx ++ mn) mx log h nr out Hd Hr Hnr Hbody) as (nr'&out'&->&?&D).
  { intros Hck. apply Htail. intros ->. by apply Hck. }
  exists nr', out'. split; [done|]. split; [done|]. intros d Hlt Hdd. rewrite (D d Hlt Hdd).
  do 2 f_equal. unfold pend, cmin in *. destruct mn as [|m mn']; cbn [decide].
  - rewrite decide_True, Z.eqb_refl, !app_nil_r by done. by rewrite rep_fmap.
  - rewrite !decide_False in * by done. zbool. rewrite (fmap_app tag (rep _ _)), rep_fmap.
    by replace (k - 1 - 10) with (k - 11) by lia.
Qed.

Lemma pend_fmap {A B} (f : A -> B) mn mx k : f <$> pend mn mx k = pend (f <$> mn) (f <$> mx) k.
Proof.
  destruct mn as [|m mn]; cbn [pend fmap list_fmap]; [apply rep_fmap|].
  destruct (k - 1 <? 10); [done|]. rewrite fmap_app, rep_fmap, fmap_app. done.
Qed.

Lemma rep_succ {A} n (l : list A) : 0 <= n -> rep (n + 1) l = rep n l ++ l.
Proof.
  intros Hn. unfold rep. replace (Z.to_nat (n + 1)) with (Z.to_nat n + 1)%nat by lia.
  rewrite replicate_add, concat_app. cbn. by rewrite app_nil_r.
Qed.

Lemma rep_1 {A} (l : list A) : rep 1 l = l.
Proof. apply app_nil_r. Qed.

(** Running again an instruction [x] of the older part [U ++ x :: R], where [U]
    is skipped. *)
Lemma pend_low {A} (x : A) U R mx k :
  (U = [] \/ k - 1 <= 10) ->
  pend R (mx ++ [x]) k = pend (U ++ x :: R) mx k ++ (if k - 1 >=? 10 then [x] else []).
Proof.
  intros HU. assert (pend (U ++ x :: R) mx k =
    if k - 1 <? 10 then [] else rep (k - 11) (mx ++ U ++ x :: R) ++ mx) as -> by (by destruct U).
  destruct (Z.lt_ge_cases (k - 1) 10) as [H|H].
  - zbool. destruct R; cbn [pend]; [by rewrite rep_nonpos by lia|by zbool].
  - zbool. destruct HU as [->|HU].
    + destruct R as [|r R]; cbn [pend]; zbool.
      * replace (k - 10) with (k - 11 + 1) by lia. rewrite rep_succ, <- !app_assoc by lia. done.
      * rewrite <- !app_assoc. done.
    + assert (k = 11) as -> by lia. destruct R; cbn [pend]; [by rewrite rep_1|done].
Qed.

(** Running again an instruction [x] of the newer part [T ++ x :: V]. *)
Lemma pend_high {A} (x : A) mn T V k :
  (T = [] \/ k <= 10) -> (mn = [] \/ k - 1 <= 10) ->
  pend V [x] (k + 1) = pend mn (T ++ x :: V) k ++ (if k >=? 10 then [x] else []).
Proof.
  intros HT Hm. destruct (Z.lt_ge_cases k 10) as [H|H].
  { zbool. rewrite app_nil_r. destruct mn; cbn [pend]; zbool;
      (destruct V; cbn [pend]; zbool; rewrite ?rep_nonpos by lia; done). }
  zbool. destruct (decide (k = 10)) as [->|Hk].
  - by destruct mn, V.
  - destruct HT as [->|]; [|lia]. destruct mn as [|m mn].
    + cbn [pend app]. destruct V as [|v V]; cbn [pend]; zbool.
      * replace (k + 1 - 10) with (k - 10 + 1) by lia. by rewrite rep_succ by lia.
      * by replace (k + 1 - 11) with (k - 10) by lia.
    + assert (k = 11) as -> by (destruct Hm; [done|lia]).
      destruct V as [|v V]; [done|]. cbn [pend]. change (11 + 1 - 11) with 1. by rewrite rep_1.
Qed.

(** ** One instruction *)

Lemma live_app l1 l2 : live (l1 ++ l2) = live l1 ++ live l2.
Proof. apply filter_app. Qed.

Lemma live_cons x l : 0 < c_count x -> live (x :: l) = x :: live l.
Proof. intros H. unfold live. by rewrite filter_cons_True. Qed.

Lemma live_zero l : live (set_count 0 <$> l) = [].
Proof. induction l as [|e l IH]; [done|]. rewrite fmap_cons. unfold live. by rewrite filter_cons_False. Qed.

Lemma live_small c l : Forall (fun e => c_count e <= c) l -> Forall (fun e => c_count e <= c) (live l).
Proof. intros H. apply Forall_forall. intros e [_ He]%list_elem_of_filter. by eapply Forall_forall in H. Qed.

Lemma shape_again U x V mn mx k x' :
  shape (U ++ x :: V) mn mx k -> 0 < c_count x -> Forall (fun e => c_count e <= 10) U ->
  tag x' = tag x -> c_count x' = c_count x + 1 ->
  exists mn' mx', shape (V ++ (set_count 0 <$> U) ++ [x']) mn' mx' (c_count x') /\
    c_count x' <= k + 1 /\
    (tag <$> pend mn' mx' (c_count x')) =
    (tag <$> pend mn mx k) ++ (if c_count x >=? 10 then [tag x] else []).
Proof.
  intros (Hl&Hmn&Hmx&_) Hx HU Ht Hc. apply live_small in HU.
  rewrite live_app, live_cons in Hl by done.
  assert (live (V ++ (set_count 0 <$> U) ++ [x']) = live V ++ [x']) as Hl'.
  { rewrite !live_app, live_zero, live_cons by lia. done. }
  assert ((exists R, mn = live U ++ x :: R /\ live V = R ++ mx) \/
          (exists T, live U = mn ++ T /\ mx = T ++ x :: live V)) as [(R&->&HV)|(T&HT&->)].
  { apply app_eq_app in Hl as [l [[-> ->]|[-> Hl]]]; [right; by exists l|].
    destruct l as [|y R]; cbn in Hl.
    - right. exists []. by rewrite !app_nil_r, Hl.
    - injection Hl as <- ->. left. by exists R. }
  - apply Forall_app in Hmn as [HUk [Hxk HR]%Forall_cons].
    assert (c_count x' = k) as -> by lia. exists R, (mx ++ [x']). split; [|split; [lia|]].
    + split; [by rewrite Hl', HV, <- app_assoc|]. split; [done|].
      split; [|by destruct mx]. apply Forall_app. split; [done|]. by repeat constructor; lia.
    + rewrite !pend_fmap, !fmap_app, fmap_cons, Hxk. cbn [fmap list_fmap]. rewrite Ht.
      apply pend_low. destruct (live U) as [|u U']; [by left|right].
      apply Forall_cons in HUk as [? _], HU as [? _]. lia.
  - apply Forall_app in Hmx as [HTk [Hxk HV]%Forall_cons].
    exists (live V), [x']. rewrite Hc, Hxk. split; [|split; [lia|]].
    + split; [done|]. split; [eapply Forall_impl; [done|]; cbn; intros; lia|].
      split; [repeat constructor; lia|done].
    + rewrite !pend_fmap, !fmap_app, fmap_cons. cbn [fmap list_fmap]. rewrite Ht.
      rewrite HT in HU. apply Forall_app in HU as [HU1 HU2].
      apply pend_high.
      * destruct T as [|t T]; [by left|right]. apply Forall_cons in HTk as [? _], HU2 as [? _]. lia.
      * destruct mn as [|m mn]; [by left|right]. apply Forall_cons in Hmn as [? _], HU1 as [? _]. lia.
Qed.

(** The compressor's invariant: every entry belongs to CPU [v], at most [N]
    instructions were recorded, and [sup] are the suppressed ones. *)
Definition loop_inv (v N : Z) (s : trace_state) (sup : list (Z * Z)) : Prop :=
  length (lp_log s) = 10%nat /\ tr_fd s = true /\
  0 <= tr_nr_entries s <= trace_bound /\
  Forall (fun e => c_vcpu e = v) (live (ring (lp_head s) (lp_log s))) /\
  NoDup (c_eip <$> live (ring (lp_head s) (lp_log s))) /\
  (lp_head s = -1 /\ live (ring (lp_head s) (lp_log s)) = [] /\ sup = [] \/
   0 <= lp_head s < 10 /\
   exists mn mx k, shape (ring (lp_head s) (lp_log s)) mn mx k /\ k <= N /\
     c_count (log_at (lp_log s) (lp_head s)) = k /\ sup = tag <$> pend mn mx k).

(** Adding [add] to what is written and suppressed. *)
Definition adds (s s' : trace_state) (sup sup' add : list (Z * Z)) : Prop :=
  tr_nr_entries s <= tr_nr_entries s' /\
  forall d, tr_nr_entries s' < SKI_EXEC_TRACE_MAX_ENTRIES -> decompress (tr_out s) = (d, None) ->
    exists d', decompress (tr_out s') = (d', None) /\ d' ++ sup' = d ++ sup ++ add.

Lemma ring_zero h log : live (ring h (set_count 0 <$> log)) = [].
Proof.
  unfold ring. rewrite <- fmap_drop, <- fmap_take, <- fmap_app. apply live_zero.
Qed.

(** A flush from any state of the invariant. *)
Lemma flush_inv v N s sup :
  loop_inv v N s sup ->
  exists s', ski_loop_print_reset_all s = Ret s' tt /\ lp_log s' = set_count 0 <$> lp_log s /\
    lp_head s' = -1 /\ tr_fd s' = true /\
    tr_nr_entries s' <= tr_nr_entries s + 20 /\ adds s s' sup [] [].
Proof.
  intros (Hlen&Hfd&Hnr&_&_&[(Hh&Hl&->)|(Hh&mn&mx&k&Hs&Hk&_&->)]).
  - eexists. split; [apply print_reset_all_empty; [done|lia|]|].
    { unfold ring in Hl. rewrite Hh in Hl. cbn in Hl. by rewrite drop_0, app_nil_r in Hl. }
    repeat split; try done; cbn; try lia. intros d _ Hd. exists d. done.
  - destruct (flush_spec s mn mx k Hlen ltac:(lia) Hfd Hnr Hs) as (nr'&out'&->&?&D).
    eexists. split; [done|]. repeat split; try done; cbn; try lia.
    intros d Hlt Hd. eexists. split; [by apply D|]. by rewrite !app_nil_r.
Qed.

Lemma ring_last log h :
  length log = 10%nat -> 0 <= h < 10 -> last (ring h log) = Some (log_at log h).
Proof.
  intros Hlen Hh. destruct (ten_entries _ Hlen) as (?&?&?&?&?&?&?&?&?&?&->).
  ring_cases Hh; reflexivity.
Qed.

Lemma pend_below mn mx k l x :
  shape l mn mx k -> x ∈ live l -> c_count x < 10 -> pend mn mx k = [].
Proof.
  intros (Hl&Hmn&Hmx&_) Hx Hc. rewrite Hl in Hx. apply elem_of_app in Hx as [Hx|Hx].
  - eapply Forall_forall in Hmn; [|done]. destruct mn; [by inversion Hx|]. cbn in *. by zbool.
  - eapply Forall_forall in Hmx; [|done]. cbn in Hmx.
    destruct mn; cbn [pend]; zbool; [|done]. by rewrite rep_nonpos by lia.
Qed.

Lemma inv_fresh v N s x :
  length (lp_log s) = 10%nat -> tr_fd s = true -> 0 <= tr_nr_entries s <= trace_bound ->
  0 <= lp_head s < 10 -> 1 <= N -> c_count x = 1 -> c_vcpu x = v ->
  live (ring (lp_head s) (lp_log s)) = [x] -> last (ring (lp_head s) (lp_log s)) = Some x ->
  loop_inv v N s [].
Proof.
  intros Hlen Hfd Hnr Hh HN Hc Hv Hl Hla. rewrite ring_last in Hla by done. injection Hla as Hla.
  split; [done|]. split; [done|]. split; [done|]. rewrite Hl.
  split; [by repeat constructor|]. split; [apply NoDup_singleton|].
  right. split; [done|]. exists [], [x], 1.
  split; [|split; [lia|split; [by rewrite Hla|done]]].
  split; [done|]. repeat split; try done. by repeat constructor.
Qed.

Lemma inv_again v N s sup U x V x' s' :
  loop_inv v N s sup -> ring (lp_head s) (lp_log s) = U ++ x :: V ->
  0 < c_count x -> Forall (fun e => c_count e <= 10) U ->
  tag x' = tag x -> c_count x' = c_count x + 1 ->
  length (lp_log s') = 10%nat -> tr_fd s' = true -> 0 <= tr_nr_entries s' <= trace_bound ->
  0 <= lp_head s' < 10 ->
  ring (lp_head s') (lp_log s') = V ++ (set_count 0 <$> U) ++ [x'] ->
  loop_inv v (N + 1) s' (sup ++ (if c_count x >=? 10 then [tag x] else [])) /\
  (c_count x < 10 -> sup = []).
Proof.
  intros (_&_&_&Hv&Hnd&Hst) Hr Hx HU Ht Hc Hlen Hfd Hnr Hh Hr'.
  rewrite Hr, live_app, live_cons in Hv, Hnd by done.
  destruct Hst as [(_&Hl&_)|(_&mn&mx&k&Hs&Hk&_&->)].
  { rewrite Hr, live_app, live_cons in Hl by done. by destruct (live U). }
  rewrite Hr in Hs. split.
  2:{ intros Hlt. erewrite pend_below; [done|exact Hs| |exact Hlt].
      rewrite live_app, live_cons by done. apply elem_of_app. right. left. }
  destruct (shape_again U x V mn mx k x' Hs Hx HU Ht Hc) as (mn'&mx'&Hs'&Hk'&Hp).
  assert (live (V ++ (set_count 0 <$> U) ++ [x']) = live V ++ [x']) as Hl'.
  { rewrite !live_app, live_zero, live_cons by lia. done. }
  injection Ht as Ht1 Ht2.
  apply Forall_app in Hv as [_ [Hvx Hv]%Forall_cons].
  rewrite fmap_app, fmap_cons in Hnd. apply NoDup_app in Hnd as (_&_&Hnd).
  split; [done|]. split; [done|]. split; [done|]. rewrite Hr', Hl'.
  split; [apply Forall_app; split; [done|]; repeat constructor; congruence|].
  split. { rewrite fmap_app. cbn [fmap list_fmap]. rewrite Ht2.
    rewrite <- Permutation_cons_append. done. }
  right. split; [done|]. exists mn', mx', (c_count x'). split; [done|]. split; [lia|].
  split; [|done]. pose proof (ring_last _ _ Hlen Hh) as Hla. rewrite Hr', !last_app in Hla.
  by injection Hla as <-.
Qed.

Lemma length_ring h log : length log = 10%nat -> length (ring h log) = 10%nat.
Proof. intros H. unfold ring. rewrite length_app, length_drop, length_take. lia. Qed.

Lemma ring_live h log x :
  x ∈ live log <-> x ∈ live (ring h log).
Proof.
  unfold ring. rewrite live_app, elem_of_app. rewrite <- (take_drop (Z.to_nat (h + 1)) log) at 1.
  rewrite live_app, elem_of_app. tauto.
Qed.

(** What finding an entry of the ring gives. *)
Lemma find_entry_Some log h eip :
  length log = 10%nat -> 0 <= h < 10 -> ski_loop_find_entry log eip >= 0 ->
  exists U x V, let p := ski_loop_find_entry log eip in
    ring h log = U ++ x :: V /\ length U = ring_index h p /\ 0 <= p < 10 /\
    log_at log p = x /\ 0 < c_count x /\ c_eip x = eip.
Proof.
  intros Hlen Hh. unfold ski_loop_find_entry.
  destruct (list_find _ log) as [[i x]|] eqn:E; [|lia]. intros _.
  apply list_find_Some in E as (Hi&[Hx He]&_).
  pose proof (lookup_lt_Some _ _ _ Hi) as Hlt. rewrite Hlen in Hlt.
  pose proof (ring_lookup log Hlen h (Z.of_nat i) Hh ltac:(lia)) as Hr. rewrite Nat2Z.id, Hi in Hr.
  exists (take (ring_index h (Z.of_nat i)) (ring h log)), x,
    (drop (S (ring_index h (Z.of_nat i))) (ring h log)).
  split; [by rewrite take_drop_middle|]. split.
  { rewrite length_take, length_ring by done. unfold ring_index.
    pose proof (Z.mod_pos_bound (Z.of_nat i - h - 1) 10). lia. }
  split; [lia|]. split; [|done]. unfold log_at, SKI_LOOP_MAX_LOG_ENTRIES.
  rewrite Z.rem_small by lia. rewrite Nat2Z.id. by apply list_lookup_total_correct.
Qed.

Lemma find_entry_None log eip :
  ski_loop_find_entry log eip < 0 -> forall x, x ∈ live log -> c_eip x <> eip.
Proof.
  unfold ski_loop_find_entry. destruct (list_find _ log) as [[i x]|] eqn:E; [lia|].
  intros _ x [Hx Hin]%list_elem_of_filter ?. apply list_find_None in E.
  eapply Forall_forall in E; [|done]. by apply E.
Qed.

Lemma store_again v eip regs upd x :
  0 < c_count x < 2 ^ 31 - 1 -> c_eip x = eip -> c_vcpu x = v ->
  tag (ski_loop_store_instruction v eip regs upd x) = tag x /\
  c_count (ski_loop_store_instruction v eip regs upd x) = c_count x + 1.
Proof.
  intros Hc He Hv. unfold ski_loop_store_instruction. rewrite He. zbool.
  rewrite wrap32_id by (unfold in_int; lia).
  destruct upd; cbn; unfold tag; cbn; by rewrite ?He, ?Hv.
Qed.

Lemma store_zero v eip regs upd x :
  c_count x <= 0 -> ski_loop_store_instruction v eip regs upd x = mk_ctx 1 v eip regs.
Proof. intros H. unfold ski_loop_store_instruction. zbool. by rewrite orb_true_r. Qed.

(** Either the instruction is left to the caller to write (and nothing is
    pending), or it joins the suppressed ones. *)
Definition add_result (v N : Z) (s : trace_state) (sup : list (Z * Z)) (eip : Z)
    (r : R trace_state Z) : Prop :=
  exists s' a sup', r = Ret s' a /\ loop_inv v (N + 1) s' sup' /\
    tr_nr_entries s' <= tr_nr_entries s + 20 /\
    (a = 1 /\ sup' = [] /\ adds s s' sup [] [] \/ a = 0 /\ adds s s' sup sup' [(v, eip)]).

Lemma adds_same s s' sup add :
  tr_nr_entries s' = tr_nr_entries s ->
  (forall d, decompress (tr_out s) = (d, None) -> decompress (tr_out s') = (d, None)) ->
  adds s s' sup (sup ++ add) add.
Proof. intros Hn Ho. split; [lia|]. intros d _ Hd. exists d. split; [by apply Ho|done]. Qed.

Lemma live_middle l U x V : l = U ++ x :: V -> 0 < c_count x -> x ∈ live l.
Proof. intros -> H. rewrite live_app, live_cons by done. apply elem_of_app. right. left. Qed.

(** A ring whose other entries are dead. *)
Lemma inv_single v N log h nr out l eip regs :
  length log = 10%nat -> 0 <= nr <= trace_bound -> 0 <= h < 10 -> 1 <= N ->
  live l = [] -> ring h log = l ++ [mk_ctx 1 v eip regs] ->
  loop_inv v N (mk_trace log h true nr out) [].
Proof.
  intros Hlen Hnr Hh HN Hl Hr.
  apply inv_fresh with (x := mk_ctx 1 v eip regs); tr_simpl; try done; rewrite Hr.
  - by rewrite live_app, Hl.
  - by rewrite last_snoc.
Qed.

Lemma zero_alter (p : nat) (l : list ski_loop_execution_context) : alter (set_count 0) p (set_count 0 <$> l) = set_count 0 <$> l.
Proof.
  revert p. induction l as [|e l IH]; intros [|p]; try done. cbn. by rewrite <- IH at 2.
Qed.

Lemma zero_at log p :
  length log = 10%nat -> 0 <= p < 10 -> c_count (log_at (set_count 0 <$> log) p) = 0.
Proof.
  intros Hlen Hp. unfold log_at, SKI_LOOP_MAX_LOG_ENTRIES. rewrite Z.rem_small by lia.
  destruct (lookup_lt_is_Some_2 log (Z.to_nat p)) as [x Hx]; [lia|].
  erewrite list_lookup_total_correct; [|rewrite list_lookup_fmap, Hx; reflexivity]. done.
Qed.

Lemma clear_zero a b idx (l : list ski_loop_execution_context) : clear_range a b idx (set_count 0 <$> l) = set_count 0 <$> l.
Proof.
  induction idx as [|i idx IH]; [done|]. cbn [clear_range]. rewrite zero_alter.
  destruct (_ =? _); [done|apply IH].
Qed.

Lemma length_clear a b idx l : length (clear_range a b idx l) = length l.
Proof.
  revert l. induction idx as [|i idx IH]; intros l; [done|]. cbn [clear_range].
  destruct (_ =? _); [|rewrite IH]; by rewrite length_alter.
Qed.

Lemma shape_max mn mx l e : shape l mn mx 1 -> e ∈ live l -> c_count e = 1.
Proof.
  intros (Hl&Hmn&Hmx&_) He. pose proof (proj1 (proj1 (list_elem_of_filter _ _ _) He)) as H0.
  rewrite Hl in He. cbn in H0. apply elem_of_app in He as [He|He];
    [eapply Forall_forall in Hmn; [|done]|eapply Forall_forall in Hmx; [|done]]; cbn in *; lia.
Qed.

Section add.
Context (v N : Z) (s : trace_state) (sup : list (Z * Z)) (eip : Z) (regs : cpu_regs).
Context (Hinv : loop_inv v N s sup) (HN : 0 <= N < 2 ^ 31 - 1)
  (Hnr : tr_nr_entries s <= trace_bound - 40).

Lemma add_first :
  lp_head s < 0 -> add_result v N s sup eip (ski_loop_add_instruction v eip regs s).
Proof.
  intros Hneg. destruct Hinv as (Hlen&Hfd&Hnr0&_&_&[(Hh&Hl&->)|(?&_)]); [|lia].
  unfold ski_loop_add_instruction, store_at. change (Z.to_nat 0) with 0%nat.
  unfold bind, get, modify, ret. zbool. tr_simpl.
  eexists _, 1, []. split; [done|]. split; [|split; [cbn; lia|left; split; [done|split; [done|]]]].
  2:{ apply (adds_same _ _ [] []); done. }
  pose proof (ring_first _ Hlen (ski_loop_store_instruction v eip regs false)) as Hr.
  rewrite Hh in Hl.
  destruct (ring (-1) (lp_log s)) as [|e l] eqn:E.
  { pose proof (length_ring (-1) _ Hlen) as HL. by rewrite E in HL. }
  assert (c_count e <= 0 /\ live l = []) as [He Hl2].
  { unfold live in Hl. rewrite filter_cons in Hl. destruct (decide _); [done|]. split; [lia|done]. }
  cbn [drop take fmap list_fmap] in Hr. rewrite store_zero in Hr by done.
  rewrite Hfd. apply inv_single with (l := drop 0 l) (eip := eip) (regs := regs); try done; try lia.
  by rewrite length_alter.
Qed.

Lemma inv_entry x :
  0 <= lp_head s -> x ∈ live (ring (lp_head s) (lp_log s)) -> c_vcpu x = v /\ 0 < c_count x <= N.
Proof.
  intros Hh Hx. destruct Hinv as (_&_&_&Hv&_&[(?&_)|(_&mn&mx&k&(Hl&Hmn&Hmx&_)&Hk&_)]); [lia|].
  eapply Forall_forall in Hv; [|done]. split; [done|].
  pose proof (proj1 (proj1 (list_elem_of_filter _ _ _) Hx)). cbn in *. split; [done|].
  rewrite Hl in Hx. apply elem_of_app in Hx as [Hx|Hx].
  - eapply Forall_forall in Hmn; [|done]. cbn in *. lia.
  - eapply Forall_forall in Hmx; [|done]. cbn in *. lia.
Qed.

(** The state after running the entry [x] again, [U] being skipped. *)
Lemma add_again U x V x' log' p out' :
  0 <= lp_head s -> ring (lp_head s) (lp_log s) = U ++ x :: V -> 0 < c_count x ->
  c_eip x = eip ->
  Forall (fun e => c_count e <= 10) U -> tag x' = tag x -> c_count x' = c_count x + 1 ->
  length log' = 10%nat -> 0 <= p < 10 -> ring p log' = V ++ (set_count 0 <$> U) ++ [x'] ->
  (forall d, decompress (tr_out s) = (d, None) -> decompress out' = (d, None)) ->
  add_result v N s sup eip
    (Ret (mk_trace log' p true (tr_nr_entries s) out') (if c_count x >=? 10 then 0 else 1)).
Proof.
  intros Hh Hr Hx He HU Ht Hc Hlen' Hp Hr' Ho.
  destruct (inv_again v N s sup U x V x' (mk_trace log' p true (tr_nr_entries s) out'))
    as [Hi Hs]; try done. { apply Hinv. }
  assert (tag x = (v, eip)) as Htx.
  { unfold tag. rewrite He. f_equal. apply inv_entry; [done|]. by eapply live_middle. }
  rewrite Htx in Hi. eexists _, _, _. split; [done|]. split; [exact Hi|]. split; [cbn; lia|].
  destruct (c_count x >=? 10) eqn:E.
  - right. split; [done|]. by apply adds_same.
  - left. split; [done|]. rewrite Hs by lia. split; [done|]. by apply (adds_same _ _ [] []).
Qed.

Lemma add_next U x V :
  let p := ski_loop_find_entry (lp_log s) eip in
  0 <= lp_head s < 10 -> 0 <= p -> ski_loop_equal_vcpu_regs (log_at (lp_log s) p) v = true ->
  p = Z.rem (lp_head s + 1) 10 ->
  ring (lp_head s) (lp_log s) = U ++ x :: V -> length U = ring_index (lp_head s) p ->
  log_at (lp_log s) p = x -> 0 < c_count x -> c_eip x = eip ->
  add_result v N s sup eip (ski_loop_add_instruction v eip regs s).
Proof.
  cbn zeta. set (p := ski_loop_find_entry (lp_log s) eip). intros Hh Hp Hv Hadj Hr HU Hpx Hx He.
  assert (U = []) as ->.
  { apply length_zero_iff_nil. rewrite HU, Hadj. unfold ring_index.
    destruct Hh as [Hh1 Hh2]. clear -Hh1 Hh2. assert (0 <= lp_head s < 10) as H by lia.
    revert H. generalize (lp_head s). intros h H. ring_cases H; done. }
  destruct Hinv as (Hlen&Hfd&Hnr0&_).
  destruct (inv_entry x) as [Hxv Hxc]; [lia|by eapply live_middle|].
  assert (0 <= p < 10) as Hp10.
  { rewrite Hadj. apply Z.rem_bound_pos; lia. }
  assert (forall upd, let f := ski_loop_store_instruction v eip regs upd in
    ring p (alter f (Z.to_nat p) (lp_log s)) = V ++ (set_count 0 <$> []) ++ [f x]) as Hr'.
  { intros upd. cbn zeta. rewrite Hadj, ring_new, Hr by (done || lia). cbn. by rewrite drop_0. }
  unfold ski_loop_add_instruction. unfold bind at 1. unfold get at 1. fold p.
  rewrite Hv, Hpx. unfold SKI_LOOP_MAX_LOG_ENTRIES, SKI_LOOP_INTERATIONS_ACTIVATE.
  rewrite <- Hadj, Z.eqb_refl. zbool. cbn [when].
  assert (forall upd out',
    (forall d, decompress (tr_out s) = (d, None) -> decompress out' = (d, None)) ->
    add_result v N s sup eip (Ret (mk_trace
      (alter (ski_loop_store_instruction v eip regs upd) (Z.to_nat p) (lp_log s)) p true
      (tr_nr_entries s) out') (if c_count x >=? 10 then 0 else 1))) as Hag.
  { intros upd out' Ho. destruct (store_again v eip regs upd x) as [Ht Hc]; [lia|done|done|].
    eapply add_again; try done; try lia. by rewrite length_alter. }
  destruct (c_count x >=? 10) eqn:E.
  - unfold bind, store_at, modify, get. tr_simpl. unfold when.
    destruct (_ =? 0).
    + rewrite print_comment_eq. tr_simpl. rewrite Hfd. cbn [andb].
      destruct (_ <? _); apply Hag; [|done]. intros d Hd. by rewrite decompress_app, Hd.
    + rewrite Hfd. by apply Hag.
  - unfold bind, store_at, modify, ret. tr_simpl. rewrite Hfd. by apply Hag.
Qed.

Lemma add_jump U x V :
  let p := ski_loop_find_entry (lp_log s) eip in
  0 <= lp_head s < 10 -> 0 <= p < 10 -> ski_loop_equal_vcpu_regs (log_at (lp_log s) p) v = true ->
  p <> Z.rem (lp_head s + 1) 10 ->
  ring (lp_head s) (lp_log s) = U ++ x :: V -> length U = ring_index (lp_head s) p ->
  log_at (lp_log s) p = x -> 0 < c_count x -> c_eip x = eip ->
  add_result v N s sup eip (ski_loop_add_instruction v eip regs s).
Proof.
  cbn zeta. set (p := ski_loop_find_entry (lp_log s) eip). intros Hh Hp Hv Hadj Hr HU Hpx Hx He.
  destruct Hinv as (Hlen&Hfd&Hnr0&_).
  destruct (inv_entry x) as [Hxv Hxc]; [lia|by eapply live_middle|].
  unfold ski_loop_add_instruction. unfold bind at 1. unfold get at 1. fold p.
  rewrite Hv. unfold SKI_LOOP_MAX_LOG_ENTRIES, SKI_LOOP_INTERATIONS_ACTIVATE.
  replace (p =? Z.rem (lp_head s + 1) 10) with false by (symmetry; by apply Z.eqb_neq). zbool.
  unfold ski_loop_print_reset_range, bind, get.
  rewrite range_print, Hr, <- HU, take_app_length by done.
  destruct (existsb _ U) eqn:EU; cbn [when].
  - destruct (flush_inv v N s sup Hinv) as (s1&Es1&El&Eh&Efd&Enr&Ha).
    unfold bind. rewrite Es1. unfold modify, get, store_at. tr_simpl. rewrite El, clear_zero.
    rewrite zero_at by done. unfold ret. cbn [Z.geb Z.compare]. tr_simpl. rewrite Efd.
    eexists _, 1, []. split; [done|]. split; [|split; [cbn; lia|by left]].
    destruct Ha as [Ha _].
    apply inv_single with (l := take 9 (ring p (set_count 0 <$> lp_log s))) (eip := eip) (regs := regs);
      tr_simpl; try done; try lia; [by rewrite length_alter, length_fmap|..].
    + unfold ring. rewrite <- fmap_drop, <- fmap_take, <- fmap_app, <- fmap_take. apply live_zero.
    + rewrite ring_store by (by rewrite ?length_fmap). rewrite store_zero; [done|].
      by rewrite zero_at.
  - assert (Forall (fun e => c_count e <= 10) U) as HU10.
    { apply Forall_forall. intros e He0. destruct (Z.le_gt_cases (c_count e) 10); [done|].
      exfalso. apply not_true_iff_false in EU. apply EU, existsb_exists. exists e.
      split; [by apply list_elem_of_In|lia]. }
    unfold bind, ret, modify, get, store_at. tr_simpl. rewrite clear_lookup, Hpx by done.
    assert (forall upd, add_result v N s sup eip (Ret (mk_trace
      (alter (ski_loop_store_instruction v eip regs upd) (Z.to_nat p)
         (clear_range (Z.rem (lp_head s + 1) 10) (Z.rem (p - 1 + 10) 10) log_indices (lp_log s)))
      p true (tr_nr_entries s) (tr_out s)) (if c_count x >=? 10 then 0 else 1))) as Hag.
    { intros upd. destruct (store_again v eip regs upd x) as [Ht Hc]; [lia|done|done|].
      eapply (add_again U x V); try done; try lia.
      - rewrite length_alter. by rewrite length_clear.
      - rewrite ring_clear, Hr, <- HU by done.
        rewrite take_app_length, drop_app_length. cbn [take fmap list_fmap].
        rewrite drop_app_ge by lia. by replace (S (length U) - length U)%nat with 1%nat by lia. }
    rewrite Hfd. destruct (c_count x >=? 10); apply Hag.
Qed.

(** A new instruction in a ring that holds no loop. *)
Lemma inv_new h log nr out mn mx :
  length log = 10%nat -> 0 <= h < 10 -> 0 <= nr <= trace_bound ->
  Forall (fun e => c_vcpu e = v) (live (ring h log)) ->
  NoDup (c_eip <$> live (ring h log)) -> (forall x, x ∈ live (ring h log) -> c_eip x <> eip) ->
  shape (ring h log) mn mx 1 ->
  let p := Z.rem (h + 1) 10 in
  loop_inv v (N + 1) (mk_trace (alter (ski_loop_store_instruction v eip regs false)
    (Z.to_nat p) log) p true nr out) [].
Proof.
  intros Hlen Hh Hnr' Hv Hnd Hni Hs. cbn zeta.
  set (f := ski_loop_store_instruction v eip regs false).
  pose proof (ring_new log Hlen h f ltac:(lia)) as Hr.
  destruct (ring h log) as [|e W] eqn:E.
  { pose proof (length_ring h _ Hlen) as HL. by rewrite E in HL. }
  cbn [drop take] in Hr. rewrite drop_0, take_0 in Hr. cbn [fmap list_fmap] in Hr.
  assert (f e = mk_ctx 1 v eip regs) as Hf.
  { unfold f. destruct (Z.le_gt_cases (c_count e) 0) as [?|Hpos]; [by apply store_zero|].
    unfold ski_loop_store_instruction. replace (c_eip e =? eip) with false; [done|].
    symmetry. apply Z.eqb_neq, Hni. rewrite live_cons by lia. left. }
  rewrite Hf in Hr. set (x' := mk_ctx 1 v eip regs) in *.
  assert (live (W ++ [x']) = live W ++ [x']) as Hl by (by rewrite live_app, live_cons).
  assert (forall x, x ∈ live W -> x ∈ live (e :: W)) as Hsub.
  { intros x Hx. apply list_elem_of_filter in Hx as [? ?]. apply list_elem_of_filter. split; [done|by right]. }
  assert (0 <= Z.rem (h + 1) 10 < 10) as Hp by (apply Z.rem_bound_pos; lia).
  unfold loop_inv. tr_simpl.
  split; [by rewrite length_alter|]. split; [done|]. split; [done|]. rewrite Hr, Hl.
  split. { apply Forall_app. split; [|by repeat constructor].
    apply Forall_forall. intros x Hx. eapply Forall_forall in Hv; [exact Hv|by apply Hsub]. }
  split. { rewrite fmap_app. cbn [fmap list_fmap]. rewrite <- Permutation_cons_append.
    apply NoDup_cons. split.
    - intros (x&Hx1&Hx2)%list_elem_of_fmap. by apply (Hni x (Hsub x Hx2)).
    - unfold live in Hnd. rewrite filter_cons in Hnd. destruct (decide _); [|done].
      by apply NoDup_cons in Hnd as [_ ?]. }
  right. split; [done|]. exists [], (live W ++ [x']), 1. split.
  - split; [done|]. split; [done|]. split; [|by destruct (live W)]. apply Forall_app.
    split; [|by repeat constructor]. apply Forall_forall. intros x Hx.
    by eapply shape_max; [exact Hs|apply Hsub].
  - split; [lia|]. split; [|done].
    pose proof (ring_last (alter f (Z.to_nat (Z.rem (h + 1) 10)) log) (Z.rem (h + 1) 10)) as HL.
    rewrite Hr, last_snoc, length_alter in HL. specialize (HL Hlen Hp). by injection HL as <-.
Qed.

Lemma add_new :
  0 <= lp_head s < 10 ->
  (ski_loop_find_entry (lp_log s) eip >=? 0)
    && ski_loop_equal_vcpu_regs (log_at (lp_log s) (ski_loop_find_entry (lp_log s) eip)) v = false ->
  ski_loop_find_entry (lp_log s) eip < 0 ->
  add_result v N s sup eip (ski_loop_add_instruction v eip regs s).
Proof.
  intros Hh Hc Hneg. pose proof (find_entry_None _ _ Hneg) as Hnone.
  pose proof Hinv as (Hlen&Hfd&Hnr0&Hv&Hnd&[(?&_)|(_&mn&mx&k&Hs&Hk&Hhd&Hsup)]); [lia|].
  unfold ski_loop_add_instruction. unfold bind at 1. unfold get at 1. rewrite Hc. zbool.
  rewrite Hhd. destruct (k >? 1) eqn:Ek; cbn [when].
  - destruct (flush_inv v N s sup Hinv) as (s1&Es1&El&Eh&Efd&Enr&Ha).
    unfold store_at, bind, get, ret, modify. rewrite Es1. tr_simpl.
    rewrite El, Eh, Efd. change (Z.rem (-1 + 1) SKI_LOOP_MAX_LOG_ENTRIES) with 0.
    eexists _, 1, []. split; [done|]. split; [|split; [cbn; lia|by left]]. destruct Ha as [Ha _].
    apply inv_single with (l := take 9 (ring 0 (set_count 0 <$> lp_log s))) (eip := eip) (regs := regs);
      tr_simpl; try done; try lia; [by rewrite length_alter, length_fmap|..].
    + unfold ring. rewrite <- fmap_drop, <- fmap_take, <- fmap_app, <- fmap_take. apply live_zero.
    + rewrite ring_store by (by rewrite ?length_fmap). rewrite store_zero; [done|].
      by rewrite zero_at.
  - unfold store_at, bind, get, ret, modify. tr_simpl. rewrite Hfd.
    assert (k = 1) as ->.
    { destruct Hs as (Hl&_&Hmx&Hne). destruct mx as [|m mx]; [done|].
      apply Forall_cons in Hmx as [Hm _].
      assert (m ∈ live (ring (lp_head s) (lp_log s))) as Hin.
      { rewrite Hl. apply elem_of_app. right. left. }
      apply list_elem_of_filter in Hin as [? _]. cbn in *. lia. }
    eexists _, 1, []. split; [done|]. split; [|split; [cbn; lia|left; split; [done|split; [done|]]]].
    + eapply inv_new; try done; try lia.
      intros x Hx. apply Hnone. by eapply ring_live.
    + assert (sup = []) as ->; [|by apply (adds_same _ _ [] [])].
      rewrite Hsup. by destruct mn; cbn [pend]; rewrite ?rep_nonpos by lia.
Qed.
End add.

(** One instruction of CPU [v] never trips the compressor's assertion. *)
Lemma add_spec v N s sup eip regs :
  loop_inv v N s sup -> 0 <= N < 2 ^ 31 - 1 -> tr_nr_entries s <= trace_bound - 40 ->
  add_result v N s sup eip (ski_loop_add_instruction v eip regs s).
Proof.
  intros Hinv HN Hnr. destruct (Z.lt_ge_cases (lp_head s) 0) as [Hh|Hh]; [by apply add_first|].
  assert (length (lp_log s) = 10%nat /\ 0 <= lp_head s < 10) as [Hlen Hh'].
  { destruct Hinv as (?&_&_&_&_&[?|[? _]]); lia. }
  set (p := ski_loop_find_entry (lp_log s) eip).
  destruct (Z.lt_ge_cases p 0) as [Hp|Hp].
  { apply add_new; try done. by zbool. }
  destruct (find_entry_Some _ (lp_head s) eip Hlen Hh' ltac:(lia)) as (U&x&V&Hr&HU&Hp'&Hpx&Hx&He).
  fold p in HU, Hp', Hpx.
  assert (ski_loop_equal_vcpu_regs (log_at (lp_log s) p) v = true) as Hv.
  { unfold ski_loop_equal_vcpu_regs. rewrite Hpx. apply Z.eqb_eq.
    eapply (inv_entry v N s sup Hinv); [done|by eapply live_middle]. }
  destruct (decide (p = Z.rem (lp_head s + 1) 10)); [by eapply add_next|by eapply add_jump].
Qed.

(** ** The whole trace *)

Lemma inv_empty v N s : length (lp_log s) = 10%nat -> tr_fd s = true ->
  0 <= tr_nr_entries s <= trace_bound -> lp_head s = -1 -> live (lp_log s) = [] ->
  loop_inv v N s [].
Proof.
  intros Hlen Hfd Hnr Hh Hl.
  assert (live (ring (-1) (lp_log s)) = []) as Hr.
  { unfold ring. change (Z.to_nat (-1 + 1)) with 0%nat. by rewrite drop_0, take_0, app_nil_r. }
  split; [done|]. split; [done|]. split; [done|]. rewrite Hh, Hr.
  split; [done|]. split; [apply NoDup_nil; done|]. by left.
Qed.

Lemma inv_out v N N' s sup nr' out' :
  loop_inv v N s sup -> N <= N' -> 0 <= nr' <= trace_bound ->
  loop_inv v N' (mk_trace (lp_log s) (lp_head s) (tr_fd s) nr' out') sup.
Proof.
  intros (?&?&?&?&?&Hs) HN Hnr. split; [done|]. split; [done|]. split; [done|]. split; [done|].
  split; [done|]. destruct Hs as [?|(?&mn&mx&k&?&?&?&?)]; [by left|right].
  split; [done|]. exists mn, mx, k. split; [done|]. split; [lia|done].
Qed.

Lemma max_bound : SKI_EXEC_TRACE_MAX_ENTRIES + 100 <= trace_bound - 40.
Proof. by vm_compute. Qed.

Lemma print_comment_ex c s :
  exists out', ski_exec_trace_print_comment c s =
    Ret (mk_trace (lp_log s) (lp_head s) (tr_fd s) (tr_nr_entries s) out') tt.
Proof.
  rewrite print_comment_eq. destruct s as [log h fd nr out]. cbn. destruct (_ && _); by eexists.
Qed.

Lemma trace_step v N s sup eip regs :
  loop_inv v N s sup -> 0 <= N < 2 ^ 31 - 1 ->
  tr_nr_entries s <= SKI_EXEC_TRACE_MAX_ENTRIES + 50 ->
  exists s' sup', trace_instruction true v eip regs s = Ret s' tt /\
    loop_inv v (N + 1) s' sup' /\ tr_nr_entries s' <= SKI_EXEC_TRACE_MAX_ENTRIES + 50 /\
    adds s s' sup sup' [(v, eip)].
Proof.
  intros Hinv HN Hnr. pose proof max_bound as Hmb. pose proof Hinv as (_&Hfd&Hnr0&_).
  assert (trace_bound < 2 ^ 31 - 1) as Htb by done.
  unfold trace_instruction. unfold bind at 1. unfold get at 1. rewrite Hfd. cbn [andb].
  destruct (tr_nr_entries s <? SKI_EXEC_TRACE_MAX_ENTRIES) eqn:Hm; cbn [when].
  2:{ exists s, sup. split; [done|]. split; [|split; [lia|split; [lia|intros; lia]]].
      destruct s as [log h fd nr out]. by apply (inv_out v N (N + 1) (mk_trace log h fd nr out)); [|lia|]. }
  destruct (add_spec v N s sup eip regs Hinv HN ltac:(lia))
    as (s1&r&sup1&Er&Hi1&Hn1&[(->&->&Ha)|(->&Ha)]); erewrite bind_Ret by exact Er;
    cbn [when Z.eqb Pos.eqb].
  2:{ exists s1, sup1. split; [done|]. split; [done|]. split; [lia|done]. }
  pose proof Hi1 as (_&Hfd1&Hnr1&_). destruct Ha as [Hle Ha].
  unfold fprintf_entry, bind, get, put. tr_simpl. rewrite Hfd1.
  set (s2 := mk_trace (lp_log s1) (lp_head s1) true (tr_nr_entries s1)
    (tr_out s1 ++ [TEntry v eip regs])).
  change (tr_nr_entries s2) with (tr_nr_entries s1).
  destruct (tr_nr_entries s1 =? SKI_EXEC_TRACE_MAX_ENTRIES - 1) eqn:E; cbn [when].
  - assert (loop_inv v (N + 1) s2 []) as Hi2.
    { unfold s2. rewrite <- Hfd1. apply (inv_out v (N + 1) (N + 1) s1); [done|lia|lia]. }
    destruct (flush_inv v (N + 1) s2 [] Hi2) as (s3&Es3&El3&Eh3&Ef3&En3&[Hle3 _]).
    unfold ski_loop_flush. rewrite Es3. destruct (print_comment_ex CMaxEntries s3) as [out4 ->].
    change (tr_nr_entries s2) with (tr_nr_entries s1) in En3, Hle3.
    unfold modify. tr_simpl. rewrite El3, Eh3, Ef3, wrap32_id by (unfold in_int; lia).
    eexists _, []. split; [done|]. split; [|split; [cbn; lia|split; [cbn; lia|cbn; intros; lia]]].
    apply inv_empty; cbn [lp_log lp_head tr_fd tr_nr_entries]; rewrite ?length_fmap; try done; try lia;
      try apply live_zero; by apply Hi2.
  - unfold ret, modify, s2. tr_simpl. rewrite wrap32_id by (unfold in_int; lia).
    eexists _, []. split; [done|]. split; [|split; [cbn; lia|split; [cbn; lia|]]].
    + rewrite <- Hfd1. apply (inv_out v (N + 1) (N + 1) s1); [done|lia|lia].
    + cbn [tr_nr_entries tr_out]. intros d Hlt Hd. destruct (Ha d ltac:(lia) Hd) as (d1&Hd1&Heq).
      exists (d1 ++ [(v, eip)]). rewrite decompress_app, Hd1. split; [done|].
      rewrite !app_nil_r in *. by rewrite Heq, <- app_assoc.
Qed.

(** A stretch of instructions of one CPU. *)
Fixpoint trace_run (v : Z) (l : list (Z * cpu_regs)) : M trace_state unit :=
  match l with
  | [] => ret tt
  | (eip, regs) :: l' => trace_instruction true v eip regs ;;; trace_run v l'
  end.

Lemma adds_trans s1 s2 s3 a b c x y : adds s1 s2 a b x -> adds s2 s3 b c y -> adds s1 s3 a c (x ++ y).
Proof.
  intros [H1 D1] [H2 D2]. split; [lia|]. intros d Hlt Hd.
  destruct (D1 d ltac:(lia) Hd) as (d1&Hd1&E1). destruct (D2 d1 Hlt Hd1) as (d2&Hd2&E2).
  exists d2. split; [done|]. rewrite E2, (app_assoc d1), E1, <- !app_assoc. done.
Qed.

Lemma trace_run_spec v l N s sup :
  loop_inv v N s sup -> 0 <= N -> N + Z.of_nat (length l) < 2 ^ 31 ->
  tr_nr_entries s <= SKI_EXEC_TRACE_MAX_ENTRIES + 50 ->
  exists s' sup', trace_run v l s = Ret s' tt /\
    loop_inv v (N + Z.of_nat (length l)) s' sup' /\
    tr_nr_entries s' <= SKI_EXEC_TRACE_MAX_ENTRIES + 50 /\
    adds s s' sup sup' ((fun i => (v, fst i)) <$> l).
Proof.
  revert N s sup. induction l as [|[eip regs] l IH]; intros N s sup Hinv HN Hl Hnr.
  - exists s, sup. split; [done|]. cbn [length fmap list_fmap]. rewrite Z.add_0_r.
    split; [done|]. split; [done|]. split; [lia|]. intros d _ Hd. exists d. by rewrite app_nil_r.
  - cbn [length] in Hl.
    destruct (trace_step v N s sup eip regs Hinv ltac:(lia) Hnr) as (s1&sup1&E1&I1&N1&A1).
    destruct (IH (N + 1) s1 sup1 I1 ltac:(lia) ltac:(lia) N1) as (s2&sup2&E2&I2&N2&A2).
    exists s2, sup2. cbn [trace_run]. erewrite bind_Ret by exact E1. split; [done|].
    split. { cbn [length]. by replace (N + Z.of_nat (S (length l))) with (N + 1 + Z.of_nat (length l)) by lia. }
    split; [done|]. rewrite fmap_cons. by apply (adds_trans s s1 s2 sup sup1 sup2 [_]).
Qed.

(** C3: loop compression of the execution trace loses no instruction.  Start
    from an open trace file with an empty ring ([ski_loop_init]), let one CPU
    run any sequence of instructions and flush: the compressor returns normally
    (its [assert(0)] on diverging counters never fires), and, as long as the
    file did not reach its entry limit, expanding the loops written in the file
    gives exactly the executed instruction addresses in order. *)
Theorem ski_loop_roundtrip (v : Z) (l : list (Z * cpu_regs)) (log : list ski_loop_execution_context)
    (head : Z) (Hlen : length log = 10%nat) (Hhead : -1 <= head < 10)
    (Hl : Z.of_nat (length l) < 2 ^ 31) :
  exists s', (ski_loop_init ;;; trace_run v l ;;; ski_loop_flush) (mk_trace log head true 0 []) =
    Ret s' tt /\ live (lp_log s') = [] /\
    (tr_nr_entries s' < SKI_EXEC_TRACE_MAX_ENTRIES ->
     decompress (tr_out s') = ((fun i => (v, fst i)) <$> l, None)).
Proof.
  set (s0 := mk_trace (set_count 0 <$> (set_count 0 <$> log)) (-1) true 0 []).
  assert (ski_loop_init (mk_trace log head true 0 []) = Ret s0 tt) as E0.
  { unfold ski_loop_init, bind, modify. tr_simpl. rewrite print_reset_all_empty; tr_simpl;
      [done|by rewrite length_fmap|done|apply live_zero]. }
  erewrite bind_Ret by exact E0.
  assert (loop_inv v 0 s0 []) as I0.
  { apply inv_empty; cbn; rewrite ?length_fmap; try done. apply live_zero. }
  destruct (trace_run_spec v l 0 s0 [] I0 ltac:(lia) ltac:(lia) ltac:(done)) as (s1&sup1&E1&I1&_&A1).
  erewrite bind_Ret by exact E1.
  destruct (flush_inv _ _ _ _ I1) as (s2&E2&El&_&_&_&A2).
  exists s2. split; [exact E2|]. split; [rewrite El; apply live_zero|]. intros Hlt.
  destruct (adds_trans _ _ _ _ _ _ _ _ A1 A2) as [_ HA].
  destruct (HA [] Hlt eq_refl) as (d&Hd&Heq). cbn in Heq. rewrite !app_nil_r in Heq. by rewrite Hd, Heq.
Qed.

Lemma ski_loop_roundtrip_witness :
  let l := concat (replicate 25 [(16, regs_zero); (32, regs_zero); (48, regs_zero)]) in
  exists s', (ski_loop_init ;;; trace_run 1 l ;;; ski_loop_flush)
      (mk_trace (replicate 10 ctx_zero) (-1) true 0 []) = Ret s' tt /\ live (lp_log s') = [] /\
    (tr_nr_entries s' < SKI_EXEC_TRACE_MAX_ENTRIES ->
     decompress (tr_out s') = ((fun i => (1, fst i)) <$> l, None)).
Proof.
  cbv zeta. apply (ski_loop_roundtrip 1 _ (replicate 10 ctx_zero) (-1)).
  - reflexivity.
  - lia.
  - vm_compute. reflexivity.
Defined.

(** The 75 instructions of that run take 35 lines: ten iterations, the start
    comment, the body, the end comment. *)
Example ski_loop_example :
  let l := concat (replicate 25 [(16, regs_zero); (32, regs_zero); (48, regs_zero)]) in
  match (ski_loop_init ;;; trace_run 1 l ;;; ski_loop_flush)
          (mk_trace (replicate 10 ctx_zero) (-1) true 0 []) with
  | Ret s' _ => length (tr_out s') = 35%nat /\ drop 30 (tr_out s') =
      [TComment CLoopStart; TEntry 1 16 regs_zero; TEntry 1 32 regs_zero; TEntry 1 48 regs_zero;
       TComment (CLoopEnd 15)]
  | _ => False
  end.
Proof. vm_compute. split; reflexivity. Qed.

(** ** What the scheduler needs of the trace *)

(** The trace file is in a state from which flushes and comments succeed. *)
Definition trace_ok (s : trace_state) : Prop :=
  (exists v N sup, loop_inv v N s sup) \/
  (length (lp_log s) = 10%nat /\ -1 <= lp_head s < 10 /\ live (lp_log s) = []).

Lemma flush_ok s : trace_ok s -> exists s', ski_loop_flush s = Ret s' tt /\ trace_ok s'.
Proof.
  intros [(v&N&sup&Hi)|(Hlen&Hh&Hl)].
  - destruct (flush_inv v N s sup Hi) as (s'&E&El&Eh&_). exists s'. split; [done|].
    right. rewrite El, Eh, length_fmap. split; [apply Hi|]. split; [lia|apply live_zero].
  - eexists. split; [by apply print_reset_all_empty|]. right. cbn.
    rewrite length_fmap. split; [done|]. split; [lia|apply live_zero].
Qed.

Lemma comment_ok c s :
  trace_ok s -> exists s', ski_exec_trace_print_comment c s = Ret s' tt /\ trace_ok s'.
Proof.
  intros H. destruct (print_comment_ex c s) as [out' ->]. eexists. split; [done|].
  destruct H as [(v&N&sup&Hi)|H]; [left|by right].
  exists v, N, sup. apply (inv_out v N N s); [done|lia|apply Hi].
Qed.

(** The trace of CPU [v] while it runs: instructions, comments and flushes
    succeed.  Past the entry limit nothing is recorded, and a flush of what is
    left adds at most twenty entries. *)
Definition trace_running (v N : Z) (s : trace_state) : Prop :=
  exists sup, loop_inv v N s sup /\
    (tr_nr_entries s <= SKI_EXEC_TRACE_MAX_ENTRIES + 50 \/
     live (lp_log s) = [] /\ tr_nr_entries s <= SKI_EXEC_TRACE_MAX_ENTRIES + 70).

Lemma running_ok v N s : trace_running v N s -> trace_ok s.
Proof. intros (sup&H&_). left. by exists v, N, sup. Qed.

Lemma running_comment c v N s :
  trace_running v N s -> exists s', ski_exec_trace_print_comment c s = Ret s' tt /\ trace_running v N s'.
Proof.
  intros (sup&Hi&H). destruct (print_comment_ex c s) as [out' ->]. eexists. split; [done|].
  exists sup. split; [|done]. apply (inv_out v N N s); [done|lia|apply Hi].
Qed.

Lemma running_flush v N s :
  trace_running v N s -> exists s', ski_loop_flush s = Ret s' tt /\ trace_running v N s'.
Proof.
  pose proof max_bound as Hmb. intros (sup&Hi&[H|[Hl H]]).
  - destruct (flush_inv v N s sup Hi) as (s'&E&El&Eh&Ef&En&[Hle _]). exists s'. split; [done|].
    assert (live (lp_log s') = []) as Hl by (rewrite El; apply live_zero).
    exists []. split; [|right; split; [done|lia]]. pose proof Hi as (Hlen&_&Hnr&_).
    apply inv_empty; [by rewrite El, length_fmap|done|lia|done|done].
  - pose proof Hi as (Hlen&Hf&Hnr&_&_&Hh). eexists. split; [apply print_reset_all_empty; [done|lia|done]|].
    exists []. split; [|right; split; [apply live_zero|done]].
    apply inv_empty; cbn; rewrite ?length_fmap; try done. apply live_zero.
Qed.

Lemma running_mono v N s : trace_running v N s -> trace_running v (N + 1) s.
Proof.
  intros (sup&Hi&H). exists sup. split; [|done]. destruct s as [log h fd nr out].
  apply (inv_out v N (N + 1) (mk_trace log h fd nr out)); [done|lia|apply Hi].
Qed.

Lemma running_step v N s eip regs :
  trace_running v N s -> 0 <= N < 2 ^ 31 - 1 ->
  exists s', trace_instruction true v eip regs s = Ret s' tt /\ trace_running v (N + 1) s'.
Proof.
  intros Hr HN. pose proof Hr as (sup&Hi&H). destruct (Z_le_gt_dec (tr_nr_entries s) (SKI_EXEC_TRACE_MAX_ENTRIES + 50)) as [Hle|Hgt].
  - destruct (trace_step v N s sup eip regs Hi HN Hle) as (s'&sup'&E&Hi'&Hle'&_).
    exists s'. split; [done|]. exists sup'. by split; [|left].
  - exists s. split; [|by apply running_mono].
    unfold trace_instruction, bind, get. replace (tr_nr_entries s <? _) with false by lia.
    by rewrite andb_false_r.
Qed.
