(* ===== verification/Machine.v ===== *)
(** * Machine.v -- the state the scheduler works on

    Data types of [vmm/ski.h] and [vmm/cpu-defs.h]: the thread table entry
    ([thread_context]), an entry of a CPU's interrupt stack ([ski_interrupt]),
    the per-CPU test state ([SKICPU]) and the part of QEMU's [CPUState] that
    SKI reads or writes; the global variables of [vmm/cpu-exec.c] and the
    command-line options are the fields of [machine].

    [first_cpu]/[next_cpu] is the list [m_cpus], an [env] pointer is an index
    in it, and [ski_threads_current] an index in [m_threads]. *)

From S2P Require Import Prelude Liveness LoopTrace.

(** ** Constants of ski.h, cpu-defs.h, ski-config.h and ski-debug.h *)

Definition SKI_TC_STATE_RUNNABLE : Z := 1.
Definition SKI_TC_STATE_NEEDS_TRIGGER : Z := 16.
Definition SKI_TC_STATE_COUNT_ZERO : Z := 32.
Definition SKI_TC_STATE_NA : Z := 64.

Definition SKI_LIVENESS_PRIORITY_HLT : Z := 10000.
Definition SKI_LIVENESS_PRIORITY_PAUSE : Z := 5000.
Definition SKI_LIVENESS_PRIORITY_NOPAUSE_LOOP : Z := 2000.

Definition MAX_SKI_THREADS : Z := 512.
Definition SKI_MAX_INTERRUPTS_STACK : Z := 20.
Definition SKI_MAX_LIVENESS_PAUSE_DISTANCE : Z := 30.
Definition SKI_MAX_LIVENESS_MA_LOOP_THRESHOLD : Z := 10000.

Definition SKI_CPU_NA : Z := 0.
Definition SKI_CPU_BLOCKED_ON_ENTER : Z := 1.
Definition SKI_CPU_RUNNING_TEST : Z := 2.
Definition SKI_CPU_BLOCKED_ON_EXIT : Z := 3.

Definition SKI_PREEMPTION_MODE_ALL : Z := 1.
Definition SKI_PREEMPTION_MODE_CPU : Z := 2.
Definition SKI_PREEMPTION_MODE_CPU_AND_NONTIMER : Z := 3.

Definition SKI_SCHED_MAX_PREEMPTION_INSTRUCTIONS : Z := 100000000.
Definition SKI_SCHED_ADJUST_MODULO : Z := 500000.
Definition SKI_SCHED_ADJUST_INC : Z := 20.
Definition SKI_DEBUG_MAX_ADJUST : Z := 500.

Definition SKI_EXIT_OK : Z := 4.
Definition SKI_EXIT_NO_RUNNABLE : Z := 2.
Definition SKI_EXIT_MAX_PRIORITY_ADJ : Z := 5.
Definition SKI_EXIT_MAX_PREEMPTION_INST : Z := 6.
Definition SKI_EXIT_ASSERT_INTERRUPT : Z := 7.
Definition SKI_EXIT_AFTER_HYPERCALL : Z := 8.

(** ** Data *)

(** [thread_context]; its [wc] field ([waiting_context]) is not used by any code. *)
Record thread_context := mk_tc {
  tc_exists : Z;
  tc_id : Z;
  tc_priority : Z;
  tc_priority_adjust : Z;
  tc_cpu_no : Z;
  tc_is_int : Z;
  tc_int_no : Z;
  tc_reentry_no : Z;
  tc_count : Z;
  tc_state : Z;
  tc_last_pause : Z;
  tc_wait_rs : ski_ma;
  tc_wait_for_rs_on_pause : Z;
  tc_wait_for_rs : Z
}.

Record ski_interrupt := mk_si {
  si_exists : Z;
  si_int_no : Z;
  si_is_int_instruction : Z;
  si_is_hw : Z
}.

(** [SKICPU] of cpu-defs.h. *)
Record SKICPU := mk_skicpu {
  sc_nr_cpus : Z;
  sc_nr_max_instr : Z;
  sc_bug_depth : Z;
  sc_state : Z;
  sc_nr_instr_executed : Z;
  sc_nr_instr_executed_other : Z;
  sc_priority : Z;
  sc_priority_adjust : Z;
  sc_blocked : bool;
  sc_ignore_interrupts : list Z;
  sc_nr_syscalls_self : Z;
  sc_nr_interrupts_self : Z;
  sc_nr_syscalls_other : Z;
  sc_nr_interrupts_other : Z;
  sc_cr3 : Z;
  sc_gdt : Z;
  sc_interrupts_stack : list ski_interrupt;
  sc_interrupts_stack_no : Z;
  sc_cpu_rs : ski_ma;
  sc_wait_for_interrupt : Z;
  sc_last_enter_cpu : bool
}.

(** The fields of [CPUState] that SKI uses.  [cpu_old_stop] and [cpu_old_stopped]
    are declared [bool] in cpu-defs.h; [cpu_apic_isr] is the CPU's local APIC
    in-service register (eight 32-bit words). *)
Record CPUState := mk_cpu {
  cpu_index : Z;
  cpu_ski_active : bool;
  cpu_ski : SKICPU;
  cpu_stop : Z;
  cpu_stopped : Z;
  cpu_old_stop : bool;
  cpu_old_stopped : bool;
  cpu_exception_index : Z;
  cpu_eip : Z;
  cpu_interrupt_request : Z;
  cpu_hflags : Z;
  cpu_hflags2 : Z;
  cpu_eflags : Z;
  cpu_regs_ : cpu_regs;
  cpu_ds_base : Z;
  cpu_apic_isr : list Z
}.

(** What the scheduler writes to files other than the trace: the heuristics
    statistics, the snapshots and messages requested by the guest. *)
Inductive event :=
  | EvHeuristic (kind eip cpu_no instructions : Z)
  | EvGuestWrite (cpu_index hg_res : Z)
  | EvExitResult (cpu_index : Z) (results : list Z)
  | EvSnapshot
  | EvMessage (cpu_index : Z) (msg : list Z).

(** The [ski_init_options_*] variables. *)
Record options := mk_opts {
  o_preemption_mode : Z;
  o_preemption_by_eip : bool;
  o_input_number : list Z;
  o_seed : Z;
  o_nr_cpus : Z;
  o_assert_trap : bool;
  o_heuristics_statistics : bool;
  o_trace_instructions : bool;
  o_forkall : bool;
  o_exit_after_hypercall : bool;
  o_quit_hypercall_threshold : Z
}.

(** The global state; [m_preemptions] holds the first
    [ski_init_options_preemptions_len] entries of [ski_init_options_preemptions],
    [m_log] the events of files other than the trace, latest first. *)
Record machine := mk_machine {
  m_cpus : list CPUState;
  m_threads : list thread_context;
  m_threads_no : Z;
  m_threads_current : option nat;
  m_need_reevaluate : Z;
  m_instructions_current : Z;
  m_instructions_total : Z;
  m_counter_total : Z;
  m_counter_per_cycle : Z;
  m_apic_disable_timer : Z;
  m_apic_disable_all : Z;
  m_block_other_cpus : Z;
  m_global_init_preemption : Z;
  m_preemptions : list Z;
  m_trace : trace_state;
  m_log : list event;
  m_quit_counter : Z;
  m_opts : options
}.

(** Field updates. *)

Definition set_tc_exists (v : Z) (s : thread_context) : thread_context :=
  mk_tc v (tc_id s) (tc_priority s) (tc_priority_adjust s) (tc_cpu_no s) (tc_is_int s)
    (tc_int_no s) (tc_reentry_no s) (tc_count s) (tc_state s) (tc_last_pause s) (tc_wait_rs s)
    (tc_wait_for_rs_on_pause s) (tc_wait_for_rs s).
Definition set_tc_priority (v : Z) (s : thread_context) : thread_context :=
  mk_tc (tc_exists s) (tc_id s) v (tc_priority_adjust s) (tc_cpu_no s) (tc_is_int s)
    (tc_int_no s) (tc_reentry_no s) (tc_count s) (tc_state s) (tc_last_pause s) (tc_wait_rs s)
    (tc_wait_for_rs_on_pause s) (tc_wait_for_rs s).
Definition set_tc_priority_adjust (v : Z) (s : thread_context) : thread_context :=
  mk_tc (tc_exists s) (tc_id s) (tc_priority s) v (tc_cpu_no s) (tc_is_int s) (tc_int_no s)
    (tc_reentry_no s) (tc_count s) (tc_state s) (tc_last_pause s) (tc_wait_rs s)
    (tc_wait_for_rs_on_pause s) (tc_wait_for_rs s).
Definition set_tc_count (v : Z) (s : thread_context) : thread_context :=
  mk_tc (tc_exists s) (tc_id s) (tc_priority s) (tc_priority_adjust s) (tc_cpu_no s)
    (tc_is_int s) (tc_int_no s) (tc_reentry_no s) v (tc_state s) (tc_last_pause s)
    (tc_wait_rs s) (tc_wait_for_rs_on_pause s) (tc_wait_for_rs s).
Definition set_tc_state (v : Z) (s : thread_context) : thread_context :=
  mk_tc (tc_exists s) (tc_id s) (tc_priority s) (tc_priority_adjust s) (tc_cpu_no s)
    (tc_is_int s) (tc_int_no s) (tc_reentry_no s) (tc_count s) v (tc_last_pause s)
    (tc_wait_rs s) (tc_wait_for_rs_on_pause s) (tc_wait_for_rs s).
Definition set_tc_last_pause (v : Z) (s : thread_context) : thread_context :=
  mk_tc (tc_exists s) (tc_id s) (tc_priority s) (tc_priority_adjust s) (tc_cpu_no s)
    (tc_is_int s) (tc_int_no s) (tc_reentry_no s) (tc_count s) (tc_state s) v (tc_wait_rs s)
    (tc_wait_for_rs_on_pause s) (tc_wait_for_rs s).
Definition set_tc_wait_rs (v : ski_ma) (s : thread_context) : thread_context :=
  mk_tc (tc_exists s) (tc_id s) (tc_priority s) (tc_priority_adjust s) (tc_cpu_no s)
    (tc_is_int s) (tc_int_no s) (tc_reentry_no s) (tc_count s) (tc_state s) (tc_last_pause s) v
    (tc_wait_for_rs_on_pause s) (tc_wait_for_rs s).
Definition set_tc_wait_for_rs_on_pause (v : Z) (s : thread_context) : thread_context :=
  mk_tc (tc_exists s) (tc_id s) (tc_priority s) (tc_priority_adjust s) (tc_cpu_no s)
    (tc_is_int s) (tc_int_no s) (tc_reentry_no s) (tc_count s) (tc_state s) (tc_last_pause s)
    (tc_wait_rs s) v (tc_wait_for_rs s).
Definition set_tc_wait_for_rs (v : Z) (s : thread_context) : thread_context :=
  mk_tc (tc_exists s) (tc_id s) (tc_priority s) (tc_priority_adjust s) (tc_cpu_no s)
    (tc_is_int s) (tc_int_no s) (tc_reentry_no s) (tc_count s) (tc_state s) (tc_last_pause s)
    (tc_wait_rs s) (tc_wait_for_rs_on_pause s) v.

Definition set_si_exists (v : Z) (s : ski_interrupt) : ski_interrupt :=
  mk_si v (si_int_no s) (si_is_int_instruction s) (si_is_hw s).

Definition set_sc_nr_cpus (v : Z) (s : SKICPU) : SKICPU :=
  mk_skicpu v (sc_nr_max_instr s) (sc_bug_depth s) (sc_state s) (sc_nr_instr_executed s)
    (sc_nr_instr_executed_other s) (sc_priority s) (sc_priority_adjust s) (sc_blocked s)
    (sc_ignore_interrupts s) (sc_nr_syscalls_self s) (sc_nr_interrupts_self s)
    (sc_nr_syscalls_other s) (sc_nr_interrupts_other s) (sc_cr3 s) (sc_gdt s)
    (sc_interrupts_stack s) (sc_interrupts_stack_no s) (sc_cpu_rs s) (sc_wait_for_interrupt s)
    (sc_last_enter_cpu s).
Definition set_sc_nr_max_instr (v : Z) (s : SKICPU) : SKICPU :=
  mk_skicpu (sc_nr_cpus s) v (sc_bug_depth s) (sc_state s) (sc_nr_instr_executed s)
    (sc_nr_instr_executed_other s) (sc_priority s) (sc_priority_adjust s) (sc_blocked s)
    (sc_ignore_interrupts s) (sc_nr_syscalls_self s) (sc_nr_interrupts_self s)
    (sc_nr_syscalls_other s) (sc_nr_interrupts_other s) (sc_cr3 s) (sc_gdt s)
    (sc_interrupts_stack s) (sc_interrupts_stack_no s) (sc_cpu_rs s) (sc_wait_for_interrupt s)
    (sc_last_enter_cpu s).
Definition set_sc_state (v : Z) (s : SKICPU) : SKICPU :=
  mk_skicpu (sc_nr_cpus s) (sc_nr_max_instr s) (sc_bug_depth s) v (sc_nr_instr_executed s)
    (sc_nr_instr_executed_other s) (sc_priority s) (sc_priority_adjust s) (sc_blocked s)
    (sc_ignore_interrupts s) (sc_nr_syscalls_self s) (sc_nr_interrupts_self s)
    (sc_nr_syscalls_other s) (sc_nr_interrupts_other s) (sc_cr3 s) (sc_gdt s)
    (sc_interrupts_stack s) (sc_interrupts_stack_no s) (sc_cpu_rs s) (sc_wait_for_interrupt s)
    (sc_last_enter_cpu s).
Definition set_sc_nr_instr_executed (v : Z) (s : SKICPU) : SKICPU :=
  mk_skicpu (sc_nr_cpus s) (sc_nr_max_instr s) (sc_bug_depth s) (sc_state s) v
    (sc_nr_instr_executed_other s) (sc_priority s) (sc_priority_adjust s) (sc_blocked s)
    (sc_ignore_interrupts s) (sc_nr_syscalls_self s) (sc_nr_interrupts_self s)
    (sc_nr_syscalls_other s) (sc_nr_interrupts_other s) (sc_cr3 s) (sc_gdt s)
    (sc_interrupts_stack s) (sc_interrupts_stack_no s) (sc_cpu_rs s) (sc_wait_for_interrupt s)
    (sc_last_enter_cpu s).
Definition set_sc_nr_instr_executed_other (v : Z) (s : SKICPU) : SKICPU :=
  mk_skicpu (sc_nr_cpus s) (sc_nr_max_instr s) (sc_bug_depth s) (sc_state s)
    (sc_nr_instr_executed s) v (sc_priority s) (sc_priority_adjust s) (sc_blocked s)
    (sc_ignore_interrupts s) (sc_nr_syscalls_self s) (sc_nr_interrupts_self s)
    (sc_nr_syscalls_other s) (sc_nr_interrupts_other s) (sc_cr3 s) (sc_gdt s)
    (sc_interrupts_stack s) (sc_interrupts_stack_no s) (sc_cpu_rs s) (sc_wait_for_interrupt s)
    (sc_last_enter_cpu s).
Definition set_sc_priority (v : Z) (s : SKICPU) : SKICPU :=
  mk_skicpu (sc_nr_cpus s) (sc_nr_max_instr s) (sc_bug_depth s) (sc_state s)
    (sc_nr_instr_executed s) (sc_nr_instr_executed_other s) v (sc_priority_adjust s)
    (sc_blocked s) (sc_ignore_interrupts s) (sc_nr_syscalls_self s) (sc_nr_interrupts_self s)
    (sc_nr_syscalls_other s) (sc_nr_interrupts_other s) (sc_cr3 s) (sc_gdt s)
    (sc_interrupts_stack s) (sc_interrupts_stack_no s) (sc_cpu_rs s) (sc_wait_for_interrupt s)
    (sc_last_enter_cpu s).
Definition set_sc_priority_adjust (v : Z) (s : SKICPU) : SKICPU :=
  mk_skicpu (sc_nr_cpus s) (sc_nr_max_instr s) (sc_bug_depth s) (sc_state s)
    (sc_nr_instr_executed s) (sc_nr_instr_executed_other s) (sc_priority s) v (sc_blocked s)
    (sc_ignore_interrupts s) (sc_nr_syscalls_self s) (sc_nr_interrupts_self s)
    (sc_nr_syscalls_other s) (sc_nr_interrupts_other s) (sc_cr3 s) (sc_gdt s)
    (sc_interrupts_stack s) (sc_interrupts_stack_no s) (sc_cpu_rs s) (sc_wait_for_interrupt s)
    (sc_last_enter_cpu s).
Definition set_sc_blocked (v : bool) (s : SKICPU) : SKICPU :=
  mk_skicpu (sc_nr_cpus s) (sc_nr_max_instr s) (sc_bug_depth s) (sc_state s)
    (sc_nr_instr_executed s) (sc_nr_instr_executed_other s) (sc_priority s)
    (sc_priority_adjust s) v (sc_ignore_interrupts s) (sc_nr_syscalls_self s)
    (sc_nr_interrupts_self s) (sc_nr_syscalls_other s) (sc_nr_interrupts_other s) (sc_cr3 s)
    (sc_gdt s) (sc_interrupts_stack s) (sc_interrupts_stack_no s) (sc_cpu_rs s)
    (sc_wait_for_interrupt s) (sc_last_enter_cpu s).
Definition set_sc_ignore_interrupts (v : list Z) (s : SKICPU) : SKICPU :=
  mk_skicpu (sc_nr_cpus s) (sc_nr_max_instr s) (sc_bug_depth s) (sc_state s)
    (sc_nr_instr_executed s) (sc_nr_instr_executed_other s) (sc_priority s)
    (sc_priority_adjust s) (sc_blocked s) v (sc_nr_syscalls_self s) (sc_nr_interrupts_self s)
    (sc_nr_syscalls_other s) (sc_nr_interrupts_other s) (sc_cr3 s) (sc_gdt s)
    (sc_interrupts_stack s) (sc_interrupts_stack_no s) (sc_cpu_rs s) (sc_wait_for_interrupt s)
    (sc_last_enter_cpu s).
Definition set_sc_nr_syscalls_self (v : Z) (s : SKICPU) : SKICPU :=
  mk_skicpu (sc_nr_cpus s) (sc_nr_max_instr s) (sc_bug_depth s) (sc_state s)
    (sc_nr_instr_executed s) (sc_nr_instr_executed_other s) (sc_priority s)
    (sc_priority_adjust s) (sc_blocked s) (sc_ignore_interrupts s) v (sc_nr_interrupts_self s)
    (sc_nr_syscalls_other s) (sc_nr_interrupts_other s) (sc_cr3 s) (sc_gdt s)
    (sc_interrupts_stack s) (sc_interrupts_stack_no s) (sc_cpu_rs s) (sc_wait_for_interrupt s)
    (sc_last_enter_cpu s).
Definition set_sc_nr_interrupts_self (v : Z) (s : SKICPU) : SKICPU :=
  mk_skicpu (sc_nr_cpus s) (sc_nr_max_instr s) (sc_bug_depth s) (sc_state s)
    (sc_nr_instr_executed s) (sc_nr_instr_executed_other s) (sc_priority s)
    (sc_priority_adjust s) (sc_blocked s) (sc_ignore_interrupts s) (sc_nr_syscalls_self s) v
    (sc_nr_syscalls_other s) (sc_nr_interrupts_other s) (sc_cr3 s) (sc_gdt s)
    (sc_interrupts_stack s) (sc_interrupts_stack_no s) (sc_cpu_rs s) (sc_wait_for_interrupt s)
    (sc_last_enter_cpu s).
Definition set_sc_nr_syscalls_other (v : Z) (s : SKICPU) : SKICPU :=
  mk_skicpu (sc_nr_cpus s) (sc_nr_max_instr s) (sc_bug_depth s) (sc_state s)
    (sc_nr_instr_executed s) (sc_nr_instr_executed_other s) (sc_priority s)
    (sc_priority_adjust s) (sc_blocked s) (sc_ignore_interrupts s) (sc_nr_syscalls_self s)
    (sc_nr_interrupts_self s) v (sc_nr_interrupts_other s) (sc_cr3 s) (sc_gdt s)
    (sc_interrupts_stack s) (sc_interrupts_stack_no s) (sc_cpu_rs s) (sc_wait_for_interrupt s)
    (sc_last_enter_cpu s).
Definition set_sc_nr_interrupts_other (v : Z) (s : SKICPU) : SKICPU :=
  mk_skicpu (sc_nr_cpus s) (sc_nr_max_instr s) (sc_bug_depth s) (sc_state s)
    (sc_nr_instr_executed s) (sc_nr_instr_executed_other s) (sc_priority s)
    (sc_priority_adjust s) (sc_blocked s) (sc_ignore_interrupts s) (sc_nr_syscalls_self s)
    (sc_nr_interrupts_self s) (sc_nr_syscalls_other s) v (sc_cr3 s) (sc_gdt s)
    (sc_interrupts_stack s) (sc_interrupts_stack_no s) (sc_cpu_rs s) (sc_wait_for_interrupt s)
    (sc_last_enter_cpu s).
Definition set_sc_cr3 (v : Z) (s : SKICPU) : SKICPU :=
  mk_skicpu (sc_nr_cpus s) (sc_nr_max_instr s) (sc_bug_depth s) (sc_state s)
    (sc_nr_instr_executed s) (sc_nr_instr_executed_other s) (sc_priority s)
    (sc_priority_adjust s) (sc_blocked s) (sc_ignore_interrupts s) (sc_nr_syscalls_self s)
    (sc_nr_interrupts_self s) (sc_nr_syscalls_other s) (sc_nr_interrupts_other s) v (sc_gdt s)
    (sc_interrupts_stack s) (sc_interrupts_stack_no s) (sc_cpu_rs s) (sc_wait_for_interrupt s)
    (sc_last_enter_cpu s).
Definition set_sc_gdt (v : Z) (s : SKICPU) : SKICPU :=
  mk_skicpu (sc_nr_cpus s) (sc_nr_max_instr s) (sc_bug_depth s) (sc_state s)
    (sc_nr_instr_executed s) (sc_nr_instr_executed_other s) (sc_priority s)
    (sc_priority_adjust s) (sc_blocked s) (sc_ignore_interrupts s) (sc_nr_syscalls_self s)
    (sc_nr_interrupts_self s) (sc_nr_syscalls_other s) (sc_nr_interrupts_other s) (sc_cr3 s) v
    (sc_interrupts_stack s) (sc_interrupts_stack_no s) (sc_cpu_rs s) (sc_wait_for_interrupt s)
    (sc_last_enter_cpu s).
Definition set_sc_interrupts_stack (v : list ski_interrupt) (s : SKICPU) : SKICPU :=
  mk_skicpu (sc_nr_cpus s) (sc_nr_max_instr s) (sc_bug_depth s) (sc_state s)
    (sc_nr_instr_executed s) (sc_nr_instr_executed_other s) (sc_priority s)
    (sc_priority_adjust s) (sc_blocked s) (sc_ignore_interrupts s) (sc_nr_syscalls_self s)
    (sc_nr_interrupts_self s) (sc_nr_syscalls_other s) (sc_nr_interrupts_other s) (sc_cr3 s)
    (sc_gdt s) v (sc_interrupts_stack_no s) (sc_cpu_rs s) (sc_wait_for_interrupt s)
    (sc_last_enter_cpu s).
Definition set_sc_interrupts_stack_no (v : Z) (s : SKICPU) : SKICPU :=
  mk_skicpu (sc_nr_cpus s) (sc_nr_max_instr s) (sc_bug_depth s) (sc_state s)
    (sc_nr_instr_executed s) (sc_nr_instr_executed_other s) (sc_priority s)
    (sc_priority_adjust s) (sc_blocked s) (sc_ignore_interrupts s) (sc_nr_syscalls_self s)
    (sc_nr_interrupts_self s) (sc_nr_syscalls_other s) (sc_nr_interrupts_other s) (sc_cr3 s)
    (sc_gdt s) (sc_interrupts_stack s) v (sc_cpu_rs s) (sc_wait_for_interrupt s)
    (sc_last_enter_cpu s).
Definition set_sc_cpu_rs (v : ski_ma) (s : SKICPU) : SKICPU :=
  mk_skicpu (sc_nr_cpus s) (sc_nr_max_instr s) (sc_bug_depth s) (sc_state s)
    (sc_nr_instr_executed s) (sc_nr_instr_executed_other s) (sc_priority s)
    (sc_priority_adjust s) (sc_blocked s) (sc_ignore_interrupts s) (sc_nr_syscalls_self s)
    (sc_nr_interrupts_self s) (sc_nr_syscalls_other s) (sc_nr_interrupts_other s) (sc_cr3 s)
    (sc_gdt s) (sc_interrupts_stack s) (sc_interrupts_stack_no s) v (sc_wait_for_interrupt s)
    (sc_last_enter_cpu s).
Definition set_sc_wait_for_interrupt (v : Z) (s : SKICPU) : SKICPU :=
  mk_skicpu (sc_nr_cpus s) (sc_nr_max_instr s) (sc_bug_depth s) (sc_state s)
    (sc_nr_instr_executed s) (sc_nr_instr_executed_other s) (sc_priority s)
    (sc_priority_adjust s) (sc_blocked s) (sc_ignore_interrupts s) (sc_nr_syscalls_self s)
    (sc_nr_interrupts_self s) (sc_nr_syscalls_other s) (sc_nr_interrupts_other s) (sc_cr3 s)
    (sc_gdt s) (sc_interrupts_stack s) (sc_interrupts_stack_no s) (sc_cpu_rs s) v
    (sc_last_enter_cpu s).
Definition set_sc_last_enter_cpu (v : bool) (s : SKICPU) : SKICPU :=
  mk_skicpu (sc_nr_cpus s) (sc_nr_max_instr s) (sc_bug_depth s) (sc_state s)
    (sc_nr_instr_executed s) (sc_nr_instr_executed_other s) (sc_priority s)
    (sc_priority_adjust s) (sc_blocked s) (sc_ignore_interrupts s) (sc_nr_syscalls_self s)
    (sc_nr_interrupts_self s) (sc_nr_syscalls_other s) (sc_nr_interrupts_other s) (sc_cr3 s)
    (sc_gdt s) (sc_interrupts_stack s) (sc_interrupts_stack_no s) (sc_cpu_rs s)
    (sc_wait_for_interrupt s) v.

Definition set_cpu_ski_active (v : bool) (s : CPUState) : CPUState :=
  mk_cpu (cpu_index s) v (cpu_ski s) (cpu_stop s) (cpu_stopped s) (cpu_old_stop s)
    (cpu_old_stopped s) (cpu_exception_index s) (cpu_eip s) (cpu_interrupt_request s)
    (cpu_hflags s) (cpu_hflags2 s) (cpu_eflags s) (cpu_regs_ s) (cpu_ds_base s) (cpu_apic_isr s).
Definition set_cpu_ski (v : SKICPU) (s : CPUState) : CPUState :=
  mk_cpu (cpu_index s) (cpu_ski_active s) v (cpu_stop s) (cpu_stopped s) (cpu_old_stop s)
    (cpu_old_stopped s) (cpu_exception_index s) (cpu_eip s) (cpu_interrupt_request s)
    (cpu_hflags s) (cpu_hflags2 s) (cpu_eflags s) (cpu_regs_ s) (cpu_ds_base s) (cpu_apic_isr s).
Definition set_cpu_stop (v : Z) (s : CPUState) : CPUState :=
  mk_cpu (cpu_index s) (cpu_ski_active s) (cpu_ski s) v (cpu_stopped s) (cpu_old_stop s)
    (cpu_old_stopped s) (cpu_exception_index s) (cpu_eip s) (cpu_interrupt_request s)
    (cpu_hflags s) (cpu_hflags2 s) (cpu_eflags s) (cpu_regs_ s) (cpu_ds_base s) (cpu_apic_isr s).
Definition set_cpu_stopped (v : Z) (s : CPUState) : CPUState :=
  mk_cpu (cpu_index s) (cpu_ski_active s) (cpu_ski s) (cpu_stop s) v (cpu_old_stop s)
    (cpu_old_stopped s) (cpu_exception_index s) (cpu_eip s) (cpu_interrupt_request s)
    (cpu_hflags s) (cpu_hflags2 s) (cpu_eflags s) (cpu_regs_ s) (cpu_ds_base s) (cpu_apic_isr s).
Definition set_cpu_old_stop (v : bool) (s : CPUState) : CPUState :=
  mk_cpu (cpu_index s) (cpu_ski_active s) (cpu_ski s) (cpu_stop s) (cpu_stopped s) v
    (cpu_old_stopped s) (cpu_exception_index s) (cpu_eip s) (cpu_interrupt_request s)
    (cpu_hflags s) (cpu_hflags2 s) (cpu_eflags s) (cpu_regs_ s) (cpu_ds_base s) (cpu_apic_isr s).
Definition set_cpu_old_stopped (v : bool) (s : CPUState) : CPUState :=
  mk_cpu (cpu_index s) (cpu_ski_active s) (cpu_ski s) (cpu_stop s) (cpu_stopped s)
    (cpu_old_stop s) v (cpu_exception_index s) (cpu_eip s) (cpu_interrupt_request s)
    (cpu_hflags s) (cpu_hflags2 s) (cpu_eflags s) (cpu_regs_ s) (cpu_ds_base s) (cpu_apic_isr s).
Definition set_cpu_exception_index (v : Z) (s : CPUState) : CPUState :=
  mk_cpu (cpu_index s) (cpu_ski_active s) (cpu_ski s) (cpu_stop s) (cpu_stopped s)
    (cpu_old_stop s) (cpu_old_stopped s) v (cpu_eip s) (cpu_interrupt_request s) (cpu_hflags s)
    (cpu_hflags2 s) (cpu_eflags s) (cpu_regs_ s) (cpu_ds_base s) (cpu_apic_isr s).
Definition set_cpu_eip (v : Z) (s : CPUState) : CPUState :=
  mk_cpu (cpu_index s) (cpu_ski_active s) (cpu_ski s) (cpu_stop s) (cpu_stopped s)
    (cpu_old_stop s) (cpu_old_stopped s) (cpu_exception_index s) v (cpu_interrupt_request s)
    (cpu_hflags s) (cpu_hflags2 s) (cpu_eflags s) (cpu_regs_ s) (cpu_ds_base s) (cpu_apic_isr s).

Definition set_m_cpus (v : list CPUState) (s : machine) : machine :=
  mk_machine v (m_threads s) (m_threads_no s) (m_threads_current s) (m_need_reevaluate s)
    (m_instructions_current s) (m_instructions_total s) (m_counter_total s)
    (m_counter_per_cycle s) (m_apic_disable_timer s) (m_apic_disable_all s)
    (m_block_other_cpus s) (m_global_init_preemption s) (m_preemptions s) (m_trace s) (m_log s)
    (m_quit_counter s) (m_opts s).
Definition set_m_threads (v : list thread_context) (s : machine) : machine :=
  mk_machine (m_cpus s) v (m_threads_no s) (m_threads_current s) (m_need_reevaluate s)
    (m_instructions_current s) (m_instructions_total s) (m_counter_total s)
    (m_counter_per_cycle s) (m_apic_disable_timer s) (m_apic_disable_all s)
    (m_block_other_cpus s) (m_global_init_preemption s) (m_preemptions s) (m_trace s) (m_log s)
    (m_quit_counter s) (m_opts s).
Definition set_m_threads_no (v : Z) (s : machine) : machine :=
  mk_machine (m_cpus s) (m_threads s) v (m_threads_current s) (m_need_reevaluate s)
    (m_instructions_current s) (m_instructions_total s) (m_counter_total s)
    (m_counter_per_cycle s) (m_apic_disable_timer s) (m_apic_disable_all s)
    (m_block_other_cpus s) (m_global_init_preemption s) (m_preemptions s) (m_trace s) (m_log s)
    (m_quit_counter s) (m_opts s).
Definition set_m_threads_current (v : option nat) (s : machine) : machine :=
  mk_machine (m_cpus s) (m_threads s) (m_threads_no s) v (m_need_reevaluate s)
    (m_instructions_current s) (m_instructions_total s) (m_counter_total s)
    (m_counter_per_cycle s) (m_apic_disable_timer s) (m_apic_disable_all s)
    (m_block_other_cpus s) (m_global_init_preemption s) (m_preemptions s) (m_trace s) (m_log s)
    (m_quit_counter s) (m_opts s).
Definition set_m_need_reevaluate (v : Z) (s : machine) : machine :=
  mk_machine (m_cpus s) (m_threads s) (m_threads_no s) (m_threads_current s) v
    (m_instructions_current s) (m_instructions_total s) (m_counter_total s)
    (m_counter_per_cycle s) (m_apic_disable_timer s) (m_apic_disable_all s)
    (m_block_other_cpus s) (m_global_init_preemption s) (m_preemptions s) (m_trace s) (m_log s)
    (m_quit_counter s) (m_opts s).
Definition set_m_instructions_current (v : Z) (s : machine) : machine :=
  mk_machine (m_cpus s) (m_threads s) (m_threads_no s) (m_threads_current s)
    (m_need_reevaluate s) v (m_instructions_total s) (m_counter_total s) (m_counter_per_cycle s)
    (m_apic_disable_timer s) (m_apic_disable_all s) (m_block_other_cpus s)
    (m_global_init_preemption s) (m_preemptions s) (m_trace s) (m_log s) (m_quit_counter s)
    (m_opts s).
Definition set_m_instructions_total (v : Z) (s : machine) : machine :=
  mk_machine (m_cpus s) (m_threads s) (m_threads_no s) (m_threads_current s)
    (m_need_reevaluate s) (m_instructions_current s) v (m_counter_total s)
    (m_counter_per_cycle s) (m_apic_disable_timer s) (m_apic_disable_all s)
    (m_block_other_cpus s) (m_global_init_preemption s) (m_preemptions s) (m_trace s) (m_log s)
    (m_quit_counter s) (m_opts s).
Definition set_m_counter_total (v : Z) (s : machine) : machine :=
  mk_machine (m_cpus s) (m_threads s) (m_threads_no s) (m_threads_current s)
    (m_need_reevaluate s) (m_instructions_current s) (m_instructions_total s) v
    (m_counter_per_cycle s) (m_apic_disable_timer s) (m_apic_disable_all s)
    (m_block_other_cpus s) (m_global_init_preemption s) (m_preemptions s) (m_trace s) (m_log s)
    (m_quit_counter s) (m_opts s).
Definition set_m_counter_per_cycle (v : Z) (s : machine) : machine :=
  mk_machine (m_cpus s) (m_threads s) (m_threads_no s) (m_threads_current s)
    (m_need_reevaluate s) (m_instructions_current s) (m_instructions_total s)
    (m_counter_total s) v (m_apic_disable_timer s) (m_apic_disable_all s) (m_block_other_cpus s)
    (m_global_init_preemption s) (m_preemptions s) (m_trace s) (m_log s) (m_quit_counter s)
    (m_opts s).
Definition set_m_apic_disable_timer (v : Z) (s : machine) : machine :=
  mk_machine (m_cpus s) (m_threads s) (m_threads_no s) (m_threads_current s)
    (m_need_reevaluate s) (m_instructions_current s) (m_instructions_total s)
    (m_counter_total s) (m_counter_per_cycle s) v (m_apic_disable_all s) (m_block_other_cpus s)
    (m_global_init_preemption s) (m_preemptions s) (m_trace s) (m_log s) (m_quit_counter s)
    (m_opts s).
Definition set_m_apic_disable_all (v : Z) (s : machine) : machine :=
  mk_machine (m_cpus s) (m_threads s) (m_threads_no s) (m_threads_current s)
    (m_need_reevaluate s) (m_instructions_current s) (m_instructions_total s)
    (m_counter_total s) (m_counter_per_cycle s) (m_apic_disable_timer s) v
    (m_block_other_cpus s) (m_global_init_preemption s) (m_preemptions s) (m_trace s) (m_log s)
    (m_quit_counter s) (m_opts s).
Definition set_m_global_init_preemption (v : Z) (s : machine) : machine :=
  mk_machine (m_cpus s) (m_threads s) (m_threads_no s) (m_threads_current s)
    (m_need_reevaluate s) (m_instructions_current s) (m_instructions_total s)
    (m_counter_total s) (m_counter_per_cycle s) (m_apic_disable_timer s) (m_apic_disable_all s)
    (m_block_other_cpus s) v (m_preemptions s) (m_trace s) (m_log s) (m_quit_counter s)
    (m_opts s).
Definition set_m_preemptions (v : list Z) (s : machine) : machine :=
  mk_machine (m_cpus s) (m_threads s) (m_threads_no s) (m_threads_current s)
    (m_need_reevaluate s) (m_instructions_current s) (m_instructions_total s)
    (m_counter_total s) (m_counter_per_cycle s) (m_apic_disable_timer s) (m_apic_disable_all s)
    (m_block_other_cpus s) (m_global_init_preemption s) v (m_trace s) (m_log s)
    (m_quit_counter s) (m_opts s).
Definition set_m_trace (v : trace_state) (s : machine) : machine :=
  mk_machine (m_cpus s) (m_threads s) (m_threads_no s) (m_threads_current s)
    (m_need_reevaluate s) (m_instructions_current s) (m_instructions_total s)
    (m_counter_total s) (m_counter_per_cycle s) (m_apic_disable_timer s) (m_apic_disable_all s)
    (m_block_other_cpus s) (m_global_init_preemption s) (m_preemptions s) v (m_log s)
    (m_quit_counter s) (m_opts s).
Definition set_m_log (v : list event) (s : machine) : machine :=
  mk_machine (m_cpus s) (m_threads s) (m_threads_no s) (m_threads_current s)
    (m_need_reevaluate s) (m_instructions_current s) (m_instructions_total s)
    (m_counter_total s) (m_counter_per_cycle s) (m_apic_disable_timer s) (m_apic_disable_all s)
    (m_block_other_cpus s) (m_global_init_preemption s) (m_preemptions s) (m_trace s) v
    (m_quit_counter s) (m_opts s).
Definition set_m_quit_counter (v : Z) (s : machine) : machine :=
  mk_machine (m_cpus s) (m_threads s) (m_threads_no s) (m_threads_current s)
    (m_need_reevaluate s) (m_instructions_current s) (m_instructions_total s)
    (m_counter_total s) (m_counter_per_cycle s) (m_apic_disable_timer s) (m_apic_disable_all s)
    (m_block_other_cpus s) (m_global_init_preemption s) (m_preemptions s) (m_trace s) (m_log s)
    v (m_opts s).
#[export] Instance ski_ma_inhabited : Inhabited ski_ma := populate ski_ma_zero.
#[export] Instance thread_context_inhabited : Inhabited thread_context :=
  populate (mk_tc 0 0 0 0 0 0 0 0 0 0 0 ski_ma_zero 0 0).
Definition si_zero : ski_interrupt := mk_si 0 0 0 0.
#[export] Instance ski_interrupt_inhabited : Inhabited ski_interrupt := populate si_zero.

(** A zeroed [SKICPU], as [bzero] leaves it. *)
Definition skicpu_zero : SKICPU :=
  mk_skicpu 0 0 0 0 0 0 0 0 false (replicate 8 0) 0 0 0 0 0 0 (replicate 20 si_zero) 0
    ski_ma_zero 0 false.
#[export] Instance CPUState_inhabited : Inhabited CPUState :=
  populate (mk_cpu 0 false skicpu_zero 0 0 false false 0 0 0 0 0 0 regs_zero 0 (replicate 8 0)).

(** ** Access *)

Definition SCH := M machine.

(** The CPU of an [env] pointer. *)
Definition get_cpu (e : nat) : SCH CPUState := fun m => Ret m (m_cpus m !!! e).
Definition mod_cpu (e : nat) (f : CPUState -> CPUState) : SCH unit :=
  modify (fun m => set_m_cpus (alter f e (m_cpus m)) m).
Definition mod_ski (e : nat) (f : SKICPU -> SKICPU) : SCH unit :=
  mod_cpu e (fun c => set_cpu_ski (f (cpu_ski c)) c).
Definition mod_all_cpus (f : CPUState -> CPUState) : SCH unit :=
  modify (fun m => set_m_cpus (f <$> m_cpus m) m).
Definition mod_thread (i : nat) (f : thread_context -> thread_context) : SCH unit :=
  modify (fun m => set_m_threads (alter f i (m_threads m)) m).

(** [*ski_threads_current], with the [assert(ski_threads_current)] (or the null
    dereference) that precedes its uses. *)
Definition current_thread (h : halt) : SCH (nat * thread_context) :=
  fun m => match m_threads_current m with
           | Some i => Ret m (i, m_threads m !!! i)
           | None => Halt m h
           end.

(** Running an operation of the trace file. *)
Definition on_trace {A} (t : M trace_state A) : SCH A :=
  fun m => match t (m_trace m) with
           | Ret t' a => Ret (set_m_trace t' m) a
           | Jump t' => Jump (set_m_trace t' m)
           | Halt t' h => Halt (set_m_trace t' m) h
           end.
Definition comment_ (c : comment) : SCH unit := on_trace (ski_exec_trace_print_comment c).
Definition log_event (e : event) : SCH unit := modify (fun m => set_m_log (e :: m_log m) m).

(** [SKI_ASSERT]: an [int $0x3] when the trap option is set, nothing otherwise. *)
Definition SKI_ASSERT (b : bool) : SCH unit :=
  m <- get ;; when (negb b && o_assert_trap (m_opts m)) (stop HTrap).

(** [SKI_ASSERT_MSG]: [exit] with the given code. *)
Definition SKI_ASSERT_MSG {S} (b : bool) (exit_code : Z) : M S unit :=
  when (negb b) (stop (HExit exit_code)).

(** The first [ski_threads_no] entries of [ski_threads]. *)
Definition live_threads (m : machine) : list thread_context :=
  take (Z.to_nat (m_threads_no m)) (m_threads m).
