(* ===== verification/Sched.v ===== *)
(** * Sched.v -- SKI's thread table and scheduler

    Models the scheduler of [vmm/cpu-exec.c]: the table of CPU and interrupt
    threads, the calculated priorities, the choice of the next thread
    ([ski_threads_find_next_runnable]), the decision whether a CPU may run
    ([ski_cpu_can_run]), preemption, starvation adjustment and the liveness
    waits.  The interrupt stacks the scheduler reads are handled in this file
    too; the operations that change them are in [Interrupts.v]. *)

From Stdlib Require Import Sorting.Sorted.
From S2P Require Import Prelude Liveness LoopTrace Machine.

(** ** Definitions *)

Definition find_cpu (cpus : list CPUState) (cpu_no : Z) : E CPUState :=
  match list_find (fun c => cpu_index c = cpu_no) cpus with
  | Some (_, c) => Val c
  | None => Fail HAssert
  end.

(** [(tc->is_int == 0) && find_cpu(tc->cpu_no)->ski_cpu.wait_for_interrupt] *)
Definition waits_for_interrupt (cpus : list CPUState) (tc : thread_context) : E bool :=
  if tc_is_int tc =? 0 then
    c <-? find_cpu cpus (tc_cpu_no tc) ;;
    Val (c_true (sc_wait_for_interrupt (cpu_ski c)))
  else Val false.

Definition ski_threads_calculate_priority (cpus : list CPUState) (tc : thread_context) : E Z :=
  let priority := wrap32 (tc_priority tc + tc_priority_adjust tc) in
  hlt <-? waits_for_interrupt cpus tc ;;
  let priority := if hlt then wrap32 (priority + SKI_LIVENESS_PRIORITY_HLT) else priority in
  let priority := if c_true (tc_wait_for_rs_on_pause tc)
                  then wrap32 (priority + SKI_LIVENESS_PRIORITY_PAUSE) else priority in
  let priority := if c_true (tc_wait_for_rs tc)
                  then wrap32 (priority + SKI_LIVENESS_PRIORITY_NOPAUSE_LOOP) else priority in
  Val priority.

(** *** Interrupt stacks *)

(** The loop of [ski_interrupts_in_hw_int]. *)
Definition is_hw_entry (si : ski_interrupt) : bool :=
  c_true (si_exists si) && (si_is_hw si =? 1) && (si_is_int_instruction si =? 0).

Definition ski_interrupts_in_hw_int (penv : CPUState) : Z :=
  b2z (existsb is_hw_entry (sc_interrupts_stack (cpu_ski penv))).

(** [ski_interrupts_is_top_hw_stack] runs its loop to [i <= SKI_MAX_INTERRUPTS_STACK]
    and so reads one entry past the array.  What lies there on x86-64 is the
    next fields of [SKICPU]: [interrupts_stack_no], then [cpu_rs.is_initialized],
    four bytes of padding (cleared by the [bzero] of [cpu_rs]) and
    [cpu_rs.entries[0].count]. *)
Definition past_the_stack (s : SKICPU) : ski_interrupt :=
  mk_si (sc_interrupts_stack_no s) (ma_is_initialized (sc_cpu_rs s)) 0
    (me_count (ma_entries (sc_cpu_rs s) !!! 0%nat)).

(** The loop: [reentry_no] counts the entries of [int_no]. *)
Fixpoint count_reentry (int_no : Z) (stack : list ski_interrupt) (reentry_no : Z) : Z :=
  match stack with
  | [] => reentry_no
  | si :: stack' =>
      count_reentry int_no stack'
        (if is_hw_entry si && (si_int_no si =? int_no) then reentry_no + 1 else reentry_no)
  end.

Definition ski_interrupts_is_top_hw_stack (cpus : list CPUState) (tc : thread_context) : E Z :=
  penv <-? find_cpu cpus (tc_cpu_no tc) ;;
  let s := cpu_ski penv in
  let reentry_no :=
    count_reentry (tc_int_no tc) (sc_interrupts_stack s ++ [past_the_stack s]) (-1) in
  Val (if tc_reentry_no tc =? reentry_no then 1 else 0).

Definition CPU_INTERRUPT_HARD : Z := 2.
Definition HF2_VINTR_MASK : Z := 8.
Definition HF2_HIF_MASK : Z := 2.
Definition IF_MASK : Z := 512.
Definition HF_INHIBIT_IRQ_MASK : Z := 8.

Definition has_flag (flags mask : Z) : bool := c_true (Z.land flags mask).

Definition ski_cpu_can_start_interrupts (env : CPUState) : Z :=
  b2z (has_flag (cpu_interrupt_request env) CPU_INTERRUPT_HARD &&
       ((has_flag (cpu_hflags2 env) HF2_VINTR_MASK && has_flag (cpu_hflags2 env) HF2_HIF_MASK) ||
        (negb (has_flag (cpu_hflags2 env) HF2_VINTR_MASK) &&
         (has_flag (cpu_eflags env) IF_MASK && negb (has_flag (cpu_hflags env) HF_INHIBIT_IRQ_MASK))))).

(** *** The choice of the next thread *)

(** [res = (res && prio(res) < prio(tc)) ? res : tc] over the threads that
    pass [elig]; the result carries the thread's index. *)
Fixpoint select (elig : thread_context -> E bool) (prio : thread_context -> E Z)
    (tcs : list thread_context) (i : nat) (res : option (nat * thread_context))
  : E (option (nat * thread_context)) :=
  match tcs with
  | [] => Val res
  | tc :: tcs' =>
      b <-? elig tc ;;
      res' <-? (if b : bool then
                  match res with
                  | None => Val (Some (i, tc))
                  | Some (j, r) =>
                      p1 <-? prio r ;;
                      p2 <-? prio tc ;;
                      Val (if p1 <? p2 then Some (j, r) else Some (i, tc))
                  end
                else Val res) ;;
      select elig prio tcs' (S i) res'
  end.

(** The tests of the loop of [ski_threads_find_next_runnable], in its order;
    [false] is its [continue] (or a thread that does not exist). *)
Definition is_runnable (cpus : list CPUState) (tc : thread_context) : E bool :=
  if negb (c_true (tc_exists tc)) then Val false
  else
    waiting <-? (if c_true (tc_wait_for_rs tc) || c_true (tc_wait_for_rs_on_pause tc) then Val true
                 else waits_for_interrupt cpus tc) ;;
    if waiting : bool then Val false
    else
      at_exit <-? (if tc_is_int tc =? 0 then
                     c <-? find_cpu cpus (tc_cpu_no tc) ;;
                     Val (sc_state (cpu_ski c) =? SKI_CPU_BLOCKED_ON_EXIT)
                   else Val false) ;;
      if at_exit : bool then Val false
      else if tc_is_int tc =? 1 then
        top <-? ski_interrupts_is_top_hw_stack cpus tc ;;
        if c_true top then Val true
        else
          c <-? find_cpu cpus (tc_cpu_no tc) ;;
          Val (negb (ski_cpu_can_start_interrupts c =? 0))
      else
        c <-? find_cpu cpus (tc_cpu_no tc) ;;
        Val (negb (c_true (ski_interrupts_in_hw_int c))).

Definition ski_threads_find_next_runnable (m : machine) : E (nat * thread_context) :=
  res <-? select (is_runnable (m_cpus m)) (ski_threads_calculate_priority (m_cpus m))
            (live_threads m) 0 None ;;
  match res with
  | Some r =>
      p <-? ski_threads_calculate_priority (m_cpus m) (snd r) ;;
      if p >? SKI_LIVENESS_PRIORITY_NOPAUSE_LOOP then Fail (HExit SKI_EXIT_NO_RUNNABLE)
      else Val r
  | None => Fail (HExit SKI_EXIT_NO_RUNNABLE)
  end.

Definition ski_threads_find_next_runnable_int (e : nat) (m : machine) : Z :=
  match m_threads_current m with
  | None => -1
  | Some i =>
      let tc := m_threads m !!! i in
      if (tc_is_int tc =? 0) || negb (tc_cpu_no tc =? cpu_index (m_cpus m !!! e)) then -1
      else tc_int_no tc
  end.

(** The condition of [ski_threads_find]; [exists_ = -1] matches any thread. *)
Definition find_matches (exists_ cpu_no is_int int_no state_mask : Z) (tc : thread_context) : bool :=
  ((exists_ =? -1) || (tc_exists tc =? exists_)) && c_true (Z.land state_mask (tc_state tc)) &&
  ((tc_cpu_no tc =? cpu_no) && (tc_is_int tc =? is_int) && (tc_int_no tc =? int_no)).

Definition ski_threads_find (m : machine) (exists_ cpu_no is_int int_no state_mask : Z)
  : E (option (nat * thread_context)) :=
  select (fun tc => Val (find_matches exists_ cpu_no is_int int_no state_mask tc))
    (ski_threads_calculate_priority (m_cpus m)) (live_threads m) 0 None.

(** *** The thread table *)

Definition ski_tc_initialize (id priority cpu_no int_no reentry_no : Z) (tc : thread_context)
  : thread_context :=
  let is_int := if int_no >=? 0 then 1 else 0 in
  mk_tc (if c_true is_int then 0 else 1) id priority 0 cpu_no is_int int_no reentry_no 1
    (if c_true is_int then SKI_TC_STATE_NA else SKI_TC_STATE_RUNNABLE)
    (tc_last_pause tc) (tc_wait_rs tc) (tc_wait_for_rs_on_pause tc) (tc_wait_for_rs tc).

Definition ski_threads_reset : SCH unit := modify (set_m_threads_no 0).

Definition ski_threads_insert (cpu i n : Z) : SCH unit :=
  m <- get ;;
  let entry_index := m_threads_no m in
  assert_ ((i =? -1) || (i >=? 0)) ;;;
  assert_ (entry_index <? MAX_SKI_THREADS) ;;;
  mod_thread (Z.to_nat entry_index)
    (fun tc => set_tc_count n (ski_tc_initialize entry_index entry_index cpu i 0 tc)) ;;;
  modify (fun m => set_m_threads_no (wrap32 (m_threads_no m + 1)) m).

(** The loops of [ski_liveness_initialize]. *)
Definition liveness_clear (tc : thread_context) : thread_context :=
  set_tc_last_pause (- SKI_MAX_LIVENESS_PAUSE_DISTANCE)
    (set_tc_wait_rs ski_ma_zero (set_tc_wait_for_rs_on_pause 0 (set_tc_wait_for_rs 0 tc))).

Definition ski_liveness_initialize : SCH unit :=
  modify (fun m => set_m_threads
    ((liveness_clear <$> live_threads m) ++ drop (Z.to_nat (m_threads_no m)) (m_threads m)) m) ;;;
  mod_all_cpus (fun c => set_cpu_ski (set_sc_wait_for_interrupt 0 (cpu_ski c)) c).

(** *** Preemption points *)

(** The loop of [ski_preemption_get_and_clear_lowest]; [min_found] is the index
    and value the pointer refers to. *)
Fixpoint lowest_preemption (min_required : Z) (ps : list Z) (i : nat) (min_found : option (nat * Z))
  : option (nat * Z) :=
  match ps with
  | [] => min_found
  | p :: ps' =>
      lowest_preemption min_required ps' (S i)
        (match min_found with
         | None => if p >=? min_required then Some (i, p) else None
         | Some (_, v) => if (v >? p) && (p >=? min_required) then Some (i, p) else min_found
         end)
  end.

Definition ski_preemption_get_and_clear_lowest (min_required : Z) : SCH Z :=
  m <- get ;;
  match lowest_preemption min_required (m_preemptions m) 0 None with
  | Some (i, v) =>
      modify (set_m_preemptions (<[i := -1]> (m_preemptions m))) ;;;
      ret v
  | None => ret (-1)
  end.

(** *** Scheduling decisions *)

(** The call under its option.  The file is opened with the first record, which
    asserts that tests run in parallel processes. *)
Definition ski_heuristics_statistics_print (kind eip cpu_no n : Z) : SCH unit :=
  m <- get ;;
  when (o_heuristics_statistics (m_opts m))
    (assert_ (o_forkall (m_opts m)) ;;; log_event (EvHeuristic kind eip cpu_no n)).

(** The [SKI_HEURISTICS_STATISTICS_*] kinds of ski-heuristics-statistics.h. *)
Definition HEUR_HLT : Z := 1.
Definition HEUR_PAUSE : Z := 2.
Definition HEUR_LOOP : Z := 3.
Definition HEUR_STARVATION : Z := 4.

Definition need_reevaluate : SCH unit := modify (set_m_need_reevaluate 1).
Definition ski_threads_reevaluate : SCH unit := need_reevaluate.

Definition ski_threads_adjust_priority_current (e : nat) : SCH Z :=
  m <- get ;;
  if (m_instructions_current m >=? 0)
     && (Z.rem (m_instructions_current m) SKI_SCHED_ADJUST_MODULO =? 0) then
    cur <- current_thread HAssert ;;
    let '(i, tc) := cur in
    let new_adjust := wrap32 (tc_priority_adjust tc + SKI_SCHED_ADJUST_INC) in
    comment_ (CPriorityAdjust (tc_cpu_no tc) (tc_int_no tc) (tc_id tc)
                (tc_priority_adjust tc) new_adjust) ;;;
    SKI_ASSERT_MSG (new_adjust <? SKI_DEBUG_MAX_ADJUST) SKI_EXIT_MAX_PRIORITY_ADJ ;;;
    ski_heuristics_statistics_print HEUR_STARVATION (cpu_eip (m_cpus m !!! e)) (tc_cpu_no tc)
      (m_counter_total m) ;;;
    mod_thread i (set_tc_priority_adjust new_adjust) ;;;
    need_reevaluate ;;;
    ret 1
  else ret 0.

(** The loop of [ski_threads_all_wake_rs] over the thread indices. *)
Fixpoint wake_loop (mem_address : Z) (idx : list nat) (found : Z) : SCH Z :=
  match idx with
  | [] => ret found
  | i :: idx' =>
      m <- get ;;
      let tc := m_threads m !!! i in
      if (c_true (tc_wait_for_rs_on_pause tc) || c_true (tc_wait_for_rs tc)) &&
         c_true (tc_exists tc) && c_true (ski_liveness_is_present (tc_wait_rs tc) mem_address) then
        cur <- current_thread HAssert ;;
        comment_ (CWakeRs (tc_cpu_no tc) (tc_int_no tc) (tc_id tc) (tc_wait_for_rs_on_pause tc)
                    mem_address (tc_id (snd cur))) ;;;
        mod_thread i (fun tc => set_tc_wait_for_rs 0 (set_tc_wait_for_rs_on_pause 0 tc)) ;;;
        rs <- lift (fun _ => ski_liveness_reset (tc_wait_rs tc)) ;;
        mod_thread i (set_tc_wait_rs rs) ;;;
        wake_loop mem_address idx' 1
      else wake_loop mem_address idx' found
  end.

Definition ski_threads_all_wake_rs (mem_address : Z) : SCH Z :=
  m <- get ;;
  found <- wake_loop mem_address (seq 0 (Z.to_nat (m_threads_no m))) 0 ;;
  if c_true found then need_reevaluate ;;; ret 1 else ret 0.

Definition ski_threads_self_wait_rs (e : nat) (is_pause : bool) : SCH unit :=
  cur <- current_thread HAssert ;;
  let '(i, tc) := cur in
  comment_ (CWaitRs (tc_cpu_no tc) (tc_int_no tc) (tc_id tc) (b2z is_pause)) ;;;
  mod_thread i (if is_pause then set_tc_wait_for_rs_on_pause 1 else set_tc_wait_for_rs 1) ;;;
  m <- get ;;
  ski_heuristics_statistics_print (if is_pause then HEUR_PAUSE else HEUR_LOOP)
    (cpu_eip (m_cpus m !!! e)) (tc_cpu_no tc) (m_counter_total m) ;;;
  mod_thread i (set_tc_last_pause (- SKI_MAX_LIVENESS_PAUSE_DISTANCE)) ;;;
  rs <- lift (fun m => ski_liveness_copy (sc_cpu_rs (cpu_ski (m_cpus m !!! e)))) ;;
  mod_thread i (set_tc_wait_rs rs) ;;;
  need_reevaluate.

Definition ski_threads_self_wait_hlt (e : nat) : SCH unit :=
  cur <- current_thread HAssert ;;
  let '(i, tc) := cur in
  comment_ (CWaitHlt (tc_cpu_no tc) (tc_int_no tc) (tc_id tc)) ;;;
  m <- get ;;
  ski_heuristics_statistics_print HEUR_HLT (cpu_eip (m_cpus m !!! e)) (tc_cpu_no tc)
    (m_counter_total m) ;;;
  mod_ski e (set_sc_wait_for_interrupt 1) ;;;
  need_reevaluate.

(** The condition and the loop of [ski_threads_invert_priority].  Here
    [find_cpu] is reached for interrupt threads too. *)
Definition counts_for_inversion (cpus : list CPUState) (tc : thread_context) : E bool :=
  if c_true (tc_exists tc) &&
     ((tc_int_no tc <? 0) || negb (tc_state tc =? SKI_TC_STATE_NEEDS_TRIGGER)) then
    if c_true (tc_wait_for_rs tc) || c_true (tc_wait_for_rs_on_pause tc) then Val false
    else
      c <-? find_cpu cpus (tc_cpu_no tc) ;;
      Val (negb (c_true (sc_wait_for_interrupt (cpu_ski c))))
  else Val false.

Fixpoint lowest_priority (cpus : list CPUState) (tcs : list thread_context) (acc : Z) : E Z :=
  match tcs with
  | [] => Val acc
  | tc :: tcs' =>
      b <-? counts_for_inversion cpus tc ;;
      lowest_priority cpus tcs' (if b : bool then Z.max acc (tc_priority tc) else acc)
  end.

Definition ski_threads_invert_priority (e : nat) : SCH unit :=
  cur <- current_thread HAssert ;;
  lowest <- lift (fun m => lowest_priority (m_cpus m) (live_threads m) 0) ;;
  let new_priority := wrap32 (lowest + 1) in
  m <- get ;;
  comment_ (CPreemption (cpu_eip (m_cpus m !!! e))) ;;;
  mod_thread (fst cur) (set_tc_priority new_priority) ;;;
  need_reevaluate.

Definition ski_preemption_mode_matches (m : machine) : Z :=
  match m_threads_current m with
  | None => 1
  | Some i =>
      let int_no := tc_int_no (m_threads m !!! i) in
      let mode := o_preemption_mode (m_opts m) in
      if mode =? SKI_PREEMPTION_MODE_ALL then 1
      else if (mode =? SKI_PREEMPTION_MODE_CPU) && (int_no <? 0) then 1
      else if (mode =? SKI_PREEMPTION_MODE_CPU_AND_NONTIMER) &&
              ((int_no <? 0) || (negb (int_no =? 239) && negb (int_no =? 48))) then 1
      else 0
  end.

(** What the "Switching" comment prints of the previous thread. *)
Definition thread_summary (tc : thread_context) : Z * Z * Z * Z :=
  (tc_id tc, tc_cpu_no tc, tc_priority tc, tc_priority_adjust tc).

(** The switch to a thread in [ski_cpu_can_run]. *)
Definition switch_to (e : nat) (i : nat) (tc : thread_context) : SCH unit :=
  calc <- lift (fun m => ski_threads_calculate_priority (m_cpus m) tc) ;;
  m <- get ;;
  on_trace ski_loop_flush ;;;
  modify (set_m_instructions_current 0) ;;;
  comment_ (CSwitch (tc_id tc) (tc_cpu_no tc) (tc_priority tc) (tc_priority_adjust tc)
    (match m_threads_current m with
     | Some j => Some (thread_summary (m_threads m !!! j))
     | None => None
     end)) ;;;
  comment_ (CExecuting (tc_cpu_no tc) (tc_int_no tc) (tc_id tc) calc) ;;;
  rs <- lift (fun m => ski_liveness_reset (sc_cpu_rs (cpu_ski (m_cpus m !!! e)))) ;;
  mod_ski e (set_sc_cpu_rs rs) ;;;
  modify (set_m_threads_current (Some i)).

Definition ski_cpu_can_run (e : nat) : SCH Z :=
  env <- get_cpu e ;;
  let state := sc_state (cpu_ski env) in
  let res := if cpu_ski_active env && (state =? SKI_CPU_BLOCKED_ON_ENTER) then 0 else 1 in
  if cpu_ski_active env && ((state =? SKI_CPU_RUNNING_TEST) || (state =? SKI_CPU_BLOCKED_ON_EXIT)) then
    next <- lift ski_threads_find_next_runnable ;;
    let '(i, tc) := next in
    res' <- (if tc_cpu_no tc =? cpu_index env then
               m <- get ;;
               when (negb (bool_decide (m_threads_current m = Some i))) (switch_to e i tc) ;;;
               ret 1
             else ret 0) ;;
    modify (set_m_need_reevaluate 0) ;;;
    ret res'
  else ret res.

(** ** The selection loop *)

(** Entry [i], [tc] is the last of the eligible threads of least priority. *)
Definition selected (elig : thread_context -> Prop) (prio : thread_context -> Z)
    (tcs : list thread_context) (i : nat) (tc : thread_context) : Prop :=
  tcs !! i = Some tc /\ elig tc /\
  forall j tc', tcs !! j = Some tc' -> elig tc' ->
    prio tc <= prio tc' /\ ((i < j)%nat -> prio tc < prio tc').

Lemma selected_unique elig prio tcs i1 tc1 i2 tc2 :
  selected elig prio tcs i1 tc1 -> selected elig prio tcs i2 tc2 -> i1 = i2 /\ tc1 = tc2.
Proof.
  intros (H1&E1&M1) (H2&E2&M2).
  destruct (M1 i2 tc2 H2 E2) as [L1 S1]. destruct (M2 i1 tc1 H1 E1) as [L2 S2].
  assert (i1 = i2) as ->; [|by rewrite H1 in H2; injection H2].
  destruct (Nat.lt_trichotomy i1 i2) as [Hlt|[->|Hlt]]; [specialize (S1 Hlt); lia|done|].
  specialize (S2 Hlt). lia.
Qed.

Lemma selected_ext elig elig' prio prio' tcs i tc :
  (forall t, t ∈ tcs -> elig t <-> elig' t) -> (forall t, t ∈ tcs -> elig t -> prio t = prio' t) ->
  selected elig prio tcs i tc -> selected elig' prio' tcs i tc.
Proof.
  intros He Hp (H&Hel&Hm). pose proof (list_elem_of_lookup_2 _ _ _ H) as Hin.
  split; [done|]. split; [by apply He|]. intros j tc' Hj Hej.
  pose proof (list_elem_of_lookup_2 _ _ _ Hj) as Hin'.
  rewrite <- (Hp _ Hin), <- (Hp _ Hin') by (done || by apply He). apply Hm; [done|by apply He].
Qed.

Section select.
Context (eligE : thread_context -> E bool) (prioE : thread_context -> E Z).
Context (elig : thread_context -> Prop) (prio : thread_context -> Z).

(** The partial tests agree with the specification on [tcs]. *)
Definition computes (tcs : list thread_context) : Prop :=
  Forall (fun tc => exists b : bool, eligE tc = Val b /\ (b = true <-> elig tc) /\
                     (elig tc -> prioE tc = Val (prio tc))) tcs.

(** The state of the loop after the prefix [done_]. *)
Definition best (done_ : list thread_context) (res : option (nat * thread_context)) : Prop :=
  match res with
  | None => Forall (fun tc => ~ elig tc) done_
  | Some (i, tc) => selected elig prio done_ i tc /\ prioE tc = Val (prio tc)
  end.

Lemma lookup_snoc (l : list thread_context) x j y :
  (l ++ [x]) !! j = Some y -> (l !! j = Some y /\ (j < length l)%nat) \/ (j = length l /\ y = x).
Proof.
  intros H. destruct (decide (j < length l)%nat) as [Hj|Hj].
  - rewrite lookup_app_l in H by done. by left.
  - right. rewrite lookup_app_r in H by lia.
    assert (j = length l) as -> by (apply lookup_lt_Some in H; cbn in H; lia).
    by rewrite Nat.sub_diag in H; injection H.
Qed.

Lemma best_skip done_ tc res : best done_ res -> ~ elig tc -> best (done_ ++ [tc]) res.
Proof.
  intros Hb Hn. destruct res as [[i r]|]; cbn in *.
  - destruct Hb as [(Hi&Hr&Hm) Hp]. split; [|done].
    split; [by apply lookup_app_l_Some|]. split; [done|].
    intros j tc' [[Hj _]|[_ ->]]%lookup_snoc He; [by eapply Hm|done].
  - apply Forall_app. by repeat constructor.
Qed.

Lemma best_first done_ tc :
  best done_ None -> elig tc -> prioE tc = Val (prio tc) ->
  best (done_ ++ [tc]) (Some (length done_, tc)).
Proof.
  intros Hb He Hp. split; [|done]. split; [by rewrite lookup_app_r, Nat.sub_diag|].
  split; [done|]. intros j tc' [[Hj _]|[-> ->]]%lookup_snoc He'; [|lia].
  cbn in Hb. eapply Forall_lookup_1 in Hb; [|done]. done.
Qed.

Lemma best_keep done_ tc i r :
  best done_ (Some (i, r)) -> prio r < prio tc -> best (done_ ++ [tc]) (Some (i, r)).
Proof.
  intros [(Hi&Hr&Hm) Hp] Hlt. split; [|done]. split; [by apply lookup_app_l_Some|].
  split; [done|]. intros j tc' [[Hj _]|[-> ->]]%lookup_snoc He'; [by eapply Hm|lia].
Qed.

Lemma best_replace done_ tc i r :
  best done_ (Some (i, r)) -> elig tc -> prioE tc = Val (prio tc) -> prio tc <= prio r ->
  best (done_ ++ [tc]) (Some (length done_, tc)).
Proof.
  intros [(Hi&Hr&Hm) Hp] He Hpt Hle. split; [|done].
  split; [by rewrite lookup_app_r, Nat.sub_diag|].
  split; [done|]. intros j tc' [[Hj Hlt]|[-> ->]]%lookup_snoc He'; [|lia].
  destruct (Hm j tc' Hj He'). split; [lia|intros; lia].
Qed.

Lemma select_best tcs done_ res :
  computes tcs -> best done_ res ->
  exists res', select eligE prioE tcs (length done_) res = Val res' /\ best (done_ ++ tcs) res'.
Proof.
  revert done_ res. induction tcs as [|tc tcs IH]; intros done_ res Hc Hb.
  { exists res. by rewrite app_nil_r. }
  apply Forall_cons in Hc as [(b&Hb1&Hb2&Hb3) Hc].
  assert (S (length done_) = length (done_ ++ [tc])) as Hlen by (rewrite length_app; cbn; lia).
  cbn [select ebind]. rewrite Hb1. cbn [ebind]. rewrite Hlen.
  replace (done_ ++ tc :: tcs) with ((done_ ++ [tc]) ++ tcs) by (by rewrite <- app_assoc).
  destruct b.
  - assert (elig tc) as He by (by apply Hb2). specialize (Hb3 He). destruct res as [[i r]|].
    + destruct Hb as [Hs Hp]. rewrite Hp, Hb3. cbn [ebind].
      destruct (prio r <? prio tc) eqn:E; apply IH; try done.
      * apply best_keep; [done|lia].
      * eapply best_replace; [done|done|done|lia].
    + cbn [ebind]. apply IH; [done|]. by apply best_first.
  - cbn [ebind]. apply IH; [done|]. apply best_skip; [done|]. rewrite <- Hb2. done.
Qed.

(** The loop finds the selected thread, and [None] exactly when no thread is
    eligible. *)
Lemma select_spec tcs :
  computes tcs ->
  exists res, select eligE prioE tcs 0 None = Val res /\
    match res with
    | None => Forall (fun tc => ~ elig tc) tcs
    | Some (i, tc) => selected elig prio tcs i tc
    end.
Proof.
  intros Hc. destruct (select_best tcs [] None Hc) as (res&H1&H2); [by apply Forall_nil|].
  exists res. split; [done|]. destruct res as [[i tc]|]; [apply H2|done].
Qed.

Lemma select_selected tcs i tc :
  computes tcs -> selected elig prio tcs i tc -> select eligE prioE tcs 0 None = Val (Some (i, tc)).
Proof.
  intros Hc Hs. destruct (select_spec tcs Hc) as ([[j t]|]&->&H).
  - by destruct (selected_unique _ _ _ _ _ _ _ H Hs) as [-> ->].
  - destruct Hs as (Hi&He&_). eapply Forall_lookup_1 in H; [|done]. done.
Qed.

Lemma select_none tcs :
  computes tcs -> Forall (fun tc => ~ elig tc) tcs -> select eligE prioE tcs 0 None = Val None.
Proof.
  intros Hc Hs. destruct (select_spec tcs Hc) as ([[j t]|]&->&H); [|done].
  destruct H as (Hi&He&_). by eapply Forall_lookup_1 in Hs.
Qed.
End select.

(** ** Runnable threads *)

(** Every thread belongs to a CPU of the machine. *)
Definition cpu_known (cpus : list CPUState) (tc : thread_context) : Prop :=
  exists c, find_cpu cpus (tc_cpu_no tc) = Val c.

(** What the scheduler means by a runnable thread: it exists, waits for
    nothing and owns its CPU's current context (a CPU thread), or is the
    interrupt being handled or one the CPU can accept (an interrupt thread). *)
Definition runnable (cpus : list CPUState) (tc : thread_context) : Prop :=
  tc_exists tc <> 0 /\ tc_wait_for_rs tc = 0 /\ tc_wait_for_rs_on_pause tc = 0 /\
  exists c, find_cpu cpus (tc_cpu_no tc) = Val c /\
    (tc_is_int tc = 0 -> sc_wait_for_interrupt (cpu_ski c) = 0 /\
                         sc_state (cpu_ski c) <> SKI_CPU_BLOCKED_ON_EXIT) /\
    (tc_is_int tc = 1 ->
       ski_interrupts_is_top_hw_stack cpus tc = Val 1 \/ ski_cpu_can_start_interrupts c <> 0) /\
    (tc_is_int tc <> 1 -> ski_interrupts_in_hw_int c = 0).

Definition base_priority (tc : thread_context) : Z := wrap32 (tc_priority tc + tc_priority_adjust tc).

Lemma c_true_false z : c_true z = false <-> z = 0.
Proof. unfold c_true. destruct (z =? 0) eqn:E; cbn; split; intros; try done; lia. Qed.

Lemma c_true_true z : c_true z = true <-> z <> 0.
Proof. unfold c_true. destruct (z =? 0) eqn:E; cbn; split; intros; try done; lia. Qed.

Lemma is_runnable_spec cpus tc :
  cpu_known cpus tc -> exists b, is_runnable cpus tc = Val b /\ (b = true <-> runnable cpus tc).
Proof.
  intros [c Hc]. unfold runnable, is_runnable, waits_for_interrupt, ski_interrupts_is_top_hw_stack.
  rewrite Hc. cbn [ebind].
  destruct (c_true (tc_exists tc)) eqn:Ee; cbn [negb].
  2:{ exists false. apply c_true_false in Ee. split; [done|]. split; [done|tauto]. }
  destruct (c_true (tc_wait_for_rs tc)) eqn:Er; cbn [orb ebind].
  { exists false. apply c_true_true in Er. split; [done|]. split; [done|tauto]. }
  destruct (c_true (tc_wait_for_rs_on_pause tc)) eqn:Ep; cbn [orb ebind].
  { exists false. apply c_true_true in Ep. split; [done|]. split; [done|tauto]. }
  apply c_true_true in Ee. apply c_true_false in Er, Ep.
  destruct (tc_is_int tc =? 0) eqn:E0; cbn [ebind].
  - apply Z.eqb_eq in E0.
    destruct (c_true (sc_wait_for_interrupt (cpu_ski c))) eqn:Eh.
    { exists false. split; [done|]. split; [done|]. intros (_&_&_&c'&[= <-]&H&_).
      apply c_true_true in Eh. by destruct (H E0). }
    cbn [ebind]. apply c_true_false in Eh.
    destruct (sc_state (cpu_ski c) =? SKI_CPU_BLOCKED_ON_EXIT) eqn:Ex.
    { exists false. split; [done|]. split; [done|]. intros (_&_&_&c'&[= <-]&H&_).
      destruct (H E0). lia. }
    cbn [ebind]. rewrite E0. cbn [Z.eqb ebind]. eexists. split; [done|]. split.
    + intros Hn. apply negb_true_iff, c_true_false in Hn. do 3 (split; [done|]).
      exists c. split; [done|]. split; [intros _; split; [done|lia]|]. split; [lia|done].
    + intros (_&_&_&c'&[= <-]&_&_&H). by rewrite H by lia.
  - destruct (tc_is_int tc =? 1) eqn:E1; cbn [ebind].
    + destruct (tc_reentry_no tc =? _); cbn [c_true ebind].
      * exists true. split; [done|]. split; [intros _|done]. do 3 (split; [done|]).
        exists c. split; [done|]. split; [lia|]. split; [by left|lia].
      * eexists. split; [done|]. split.
        -- intros Hn. do 3 (split; [done|]). exists c. split; [done|].
           split; [lia|]. split; [right; lia|lia].
        -- intros (_&_&_&c'&[= <-]&_&H&_). destruct H as [H|H]; [lia|done|lia].
    + eexists. split; [done|]. split.
      * intros Hn. apply negb_true_iff, c_true_false in Hn. do 3 (split; [done|]).
        exists c. split; [done|]. split; [lia|]. split; [lia|done].
      * intros (_&_&_&c'&[= <-]&_&_&H). by rewrite H by lia.
Qed.

(** A runnable thread pays no liveness penalty. *)
Lemma runnable_priority cpus tc :
  runnable cpus tc -> ski_threads_calculate_priority cpus tc = Val (base_priority tc).
Proof.
  intros (_&Hr&Hp&c&Hc&H0&_). unfold ski_threads_calculate_priority, waits_for_interrupt.
  rewrite Hr, Hp, Hc. cbn [ebind]. destruct (tc_is_int tc =? 0) eqn:E; [|done].
  apply Z.eqb_eq in E. destruct (H0 E) as [-> _]. done.
Qed.

Definition threads_known (m : machine) : Prop := Forall (cpu_known (m_cpus m)) (live_threads m).

Lemma runnable_computes m :
  threads_known m ->
  computes (is_runnable (m_cpus m)) (ski_threads_calculate_priority (m_cpus m))
    (runnable (m_cpus m)) base_priority (live_threads m).
Proof.
  intros Hk. eapply Forall_impl; [exact Hk|]. intros tc Htc.
  destruct (is_runnable_spec _ _ Htc) as (b&Hb1&Hb2). exists b.
  split; [done|]. split; [done|]. apply runnable_priority.
Qed.

(** The chosen thread. *)
Definition next_thread (m : machine) (i : nat) (tc : thread_context) : Prop :=
  selected (runnable (m_cpus m)) base_priority (live_threads m) i tc /\
  base_priority tc <= SKI_LIVENESS_PRIORITY_NOPAUSE_LOOP.

Lemma find_next_runnable_total m :
  threads_known m ->
  (exists i tc, next_thread m i tc /\ ski_threads_find_next_runnable m = Val (i, tc)) \/
  ((forall i tc, ~ next_thread m i tc) /\
   ski_threads_find_next_runnable m = Fail (HExit SKI_EXIT_NO_RUNNABLE)).
Proof.
  intros Hk. unfold ski_threads_find_next_runnable.
  destruct (select_spec _ _ _ _ _ (runnable_computes m Hk)) as ([[i tc]|]&->&Hs); cbn [ebind snd].
  - rewrite runnable_priority by apply Hs. cbn [ebind].
    destruct (base_priority tc >? SKI_LIVENESS_PRIORITY_NOPAUSE_LOOP) eqn:E.
    + right. split; [|done]. intros j t [Hs' Hle].
      destruct (selected_unique _ _ _ _ _ _ _ Hs Hs') as [-> ->]. lia.
    + left. exists i, tc. split; [|done]. split; [done|lia].
  - right. split; [|done]. intros j t [(Hj&He&_) _]. by eapply Forall_lookup_1 in Hs.
Qed.

Lemma find_next_runnable_iff m i tc :
  threads_known m -> ski_threads_find_next_runnable m = Val (i, tc) <-> next_thread m i tc.
Proof.
  intros Hk. destruct (find_next_runnable_total m Hk) as [(j&t&Hn&->)|(Hn&->)]; split.
  - intros [= <- <-]. done.
  - intros Hn'. by destruct (selected_unique _ _ _ _ _ _ _ (proj1 Hn) (proj1 Hn')) as [-> ->].
  - done.
  - intros H. by destruct (Hn i tc).
Qed.

(** ** The decision of a CPU *)

(** A read-set log that can be reset. *)
Definition ma_ready (ma : ski_ma) : Prop :=
  ma_is_initialized ma = 1 /\ ma_max_entries ma <= SKI_MA_ENTRIES_MAX.

(** CPU [e] takes part in the running test. *)
Definition testing (m : machine) (e : nat) : Prop :=
  exists c, m_cpus m !! e = Some c /\ cpu_ski_active c = true /\
    (sc_state (cpu_ski c) = SKI_CPU_RUNNING_TEST \/ sc_state (cpu_ski c) = SKI_CPU_BLOCKED_ON_EXIT) /\
    ma_ready (sc_cpu_rs (cpu_ski c)).

Lemma reset_ready ma : ma_ready ma -> exists ma', ski_liveness_reset ma = Val ma' /\ ma_ready ma'.
Proof.
  intros [Hi Hm]. unfold ski_liveness_reset, ski_liveness_init. rewrite Hi. cbn [c_true Z.eqb negb eassert ebind].
  zbool. cbn [eassert ebind].
  eexists. split; [done|]. done.
Qed.

Lemma on_trace_flush m :
  trace_ok (m_trace m) ->
  exists t', on_trace ski_loop_flush m = Ret (set_m_trace t' m) tt /\ trace_ok t'.
Proof. intros H. destruct (flush_ok _ H) as (t'&E&Ht). exists t'. unfold on_trace. by rewrite E. Qed.

Lemma comment_Ret c m :
  trace_ok (m_trace m) -> exists t', comment_ c m = Ret (set_m_trace t' m) tt /\ trace_ok t'.
Proof. intros H. destruct (comment_ok c _ H) as (t'&E&Ht). exists t'. unfold comment_, on_trace. by rewrite E. Qed.

(** The machine after a switch of CPU [e] to thread [i]. *)
Definition switched (m : machine) (e i : nat) (rs : ski_ma) (t : trace_state) : machine :=
  set_m_threads_current (Some i)
    (set_m_cpus (alter (fun c => set_cpu_ski (set_sc_cpu_rs rs (cpu_ski c)) c) e (m_cpus m))
       (set_m_trace t (set_m_instructions_current 0 m))).

Lemma switch_spec m e i tc c p :
  trace_ok (m_trace m) -> m_cpus m !! e = Some c -> ma_ready (sc_cpu_rs (cpu_ski c)) ->
  ski_threads_calculate_priority (m_cpus m) tc = Val p ->
  exists rs t, switch_to e i tc m = Ret (switched m e i rs t) tt /\ trace_ok t /\ ma_ready rs.
Proof.
  intros Ht Hc Hr Hp. unfold switch_to.
  erewrite bind_Ret by (by apply lift_Val). erewrite bind_Ret by done.
  destruct (on_trace_flush m Ht) as (t1&E1&Ht1). erewrite bind_Ret by exact E1.
  erewrite bind_Ret by done.
  destruct (comment_Ret (CSwitch (tc_id tc) (tc_cpu_no tc) (tc_priority tc) (tc_priority_adjust tc)
    (match m_threads_current m with
     | Some j => Some (thread_summary (m_threads m !!! j))
     | None => None
     end)) (set_m_instructions_current 0 (set_m_trace t1 m)) Ht1) as (t2&E2&Ht2).
  erewrite bind_Ret by exact E2.
  edestruct (comment_Ret (CExecuting (tc_cpu_no tc) (tc_int_no tc) (tc_id tc) p)) as (t3&E3&Ht3);
    [|erewrite bind_Ret by exact E3]; [exact Ht2|].
  destruct (reset_ready _ Hr) as (rs&Hrs&Hrr).
  erewrite bind_Ret; [|apply lift_Val; cbn; rewrite (list_lookup_total_correct _ _ _ Hc); exact Hrs].
  exists rs, t3. split; [done|]. done.
Qed.

Lemma testing_state m e c :
  m_cpus m !! e = Some c -> testing m e ->
  cpu_ski_active c && ((sc_state (cpu_ski c) =? SKI_CPU_RUNNING_TEST) ||
                       (sc_state (cpu_ski c) =? SKI_CPU_BLOCKED_ON_EXIT)) = true.
Proof. intros Hc (c'&Hc'&Ha&Hs&_). rewrite Hc in Hc'. injection Hc' as <-. rewrite Ha. destruct Hs as [->| ->]; done. Qed.

(** [ski_cpu_can_run] for a CPU of the test. *)
Lemma can_run_next m e i tc :
  threads_known m -> testing m e -> trace_ok (m_trace m) -> next_thread m i tc ->
  if decide (tc_cpu_no tc = cpu_index (m_cpus m !!! e)) then
    if decide (m_threads_current m = Some i) then
      ski_cpu_can_run e m = Ret (set_m_need_reevaluate 0 m) 1
    else exists rs t, trace_ok t /\ ma_ready rs /\
      ski_cpu_can_run e m = Ret (set_m_need_reevaluate 0 (switched m e i rs t)) 1
  else ski_cpu_can_run e m = Ret (set_m_need_reevaluate 0 m) 0.
Proof.
  intros Hk Ht Htr Hn. pose proof Ht as (c&Hc&_&_&Hready).
  assert (m_cpus m !!! e = c) as Hct by (by apply list_lookup_total_correct).
  pose proof (testing_state m e c Hc Ht) as Hst.
  assert (ski_cpu_can_run e m =
    (res' <- (if tc_cpu_no tc =? cpu_index c then
               m <- get ;;
               when (negb (bool_decide (m_threads_current m = Some i))) (switch_to e i tc) ;;;
               ret 1
             else ret 0) ;;
     modify (set_m_need_reevaluate 0) ;;;
     ret res') m) as ->.
  { unfold ski_cpu_can_run. erewrite bind_Ret by done. rewrite Hct, Hst.
    rewrite (bind_Ret _ _ m m (i, tc)); [reflexivity|]. apply lift_Val. by apply find_next_runnable_iff. }
  rewrite Hct. destruct (decide (tc_cpu_no tc = cpu_index c)) as [Heq|Hne].
  - rewrite Heq, Z.eqb_refl. destruct (decide (m_threads_current m = Some i)) as [Hcur|Hcur].
    + unfold bind, get, when. rewrite bool_decide_true by done. done.
    + destruct (switch_spec m e i tc c (base_priority tc) Htr Hc Hready) as (rs&t&E&Ht'&Hr').
      { apply runnable_priority, Hn. }
      exists rs, t. split; [done|]. split; [done|].
      unfold bind, get, when. rewrite bool_decide_false by done. cbn [negb]. by rewrite E.
  - apply Z.eqb_neq in Hne. rewrite Hne. done.
Qed.

(** ** What a switch leaves unchanged *)

(** Two CPUs the scheduler cannot tell apart, except by what lies past the
    interrupt stack when their read-set logs are initialised. *)
Definition agree (c c' : CPUState) : Prop :=
  cpu_index c = cpu_index c' /\ cpu_interrupt_request c = cpu_interrupt_request c' /\
  cpu_hflags c = cpu_hflags c' /\ cpu_hflags2 c = cpu_hflags2 c' /\ cpu_eflags c = cpu_eflags c' /\
  sc_state (cpu_ski c) = sc_state (cpu_ski c') /\
  sc_interrupts_stack (cpu_ski c) = sc_interrupts_stack (cpu_ski c') /\
  sc_wait_for_interrupt (cpu_ski c) = sc_wait_for_interrupt (cpu_ski c') /\
  (past_the_stack (cpu_ski c) = past_the_stack (cpu_ski c') \/
   ma_is_initialized (sc_cpu_rs (cpu_ski c)) = 1 /\ ma_is_initialized (sc_cpu_rs (cpu_ski c')) = 1).

Lemma agree_refl c : agree c c.
Proof. unfold agree. tauto. Qed.

Lemma agree_sym c c' : agree c c' -> agree c' c.
Proof. unfold agree. intuition congruence. Qed.

Lemma find_cpu_agree cpus cpus' n c :
  Forall2 agree cpus cpus' -> find_cpu cpus n = Val c ->
  exists c', find_cpu cpus' n = Val c' /\ agree c c'.
Proof.
  unfold find_cpu. intros H. induction H as [|x y cpus cpus' Hxy _ IH]; [done|].
  cbn [list_find]. pose proof Hxy as (Hi&_). destruct (decide (cpu_index x = n)) as [E|E].
  - intros [= <-]. rewrite decide_True by congruence. exists y. done.
  - rewrite decide_False by congruence.
    destruct (list_find _ cpus) as [[j a]|], (list_find _ cpus') as [[j' a']|]; cbn; apply IH.
Qed.

Lemma count_reentry_app int_no s1 s2 r :
  count_reentry int_no (s1 ++ s2) r = count_reentry int_no s2 (count_reentry int_no s1 r).
Proof. revert r. induction s1 as [|x s1 IH]; intros r; [done|]. apply IH. Qed.

(** The entry past the array can only be mistaken for interrupt 1. *)
Lemma past_not_counted s int_no r :
  ma_is_initialized (sc_cpu_rs s) = 1 -> int_no <> 1 -> count_reentry int_no [past_the_stack s] r = r.
Proof.
  intros Hi Hn. cbn [count_reentry]. unfold past_the_stack at 2. cbn [si_int_no]. rewrite Hi.
  replace (1 =? int_no) with false by lia. by rewrite andb_false_r.
Qed.

Lemma is_top_agree cpus cpus' tc :
  Forall2 agree cpus cpus' -> tc_int_no tc <> 1 -> cpu_known cpus tc ->
  ski_interrupts_is_top_hw_stack cpus' tc = ski_interrupts_is_top_hw_stack cpus tc.
Proof.
  intros H Hn [c Hc]. destruct (find_cpu_agree _ _ _ _ H Hc) as (c'&Hc'&Ha).
  unfold ski_interrupts_is_top_hw_stack. rewrite Hc, Hc'. cbn [ebind].
  destruct Ha as (_&_&_&_&_&_&Hst&_&Hp). rewrite <- Hst, !count_reentry_app.
  destruct Hp as [->|[H1 H2]]; [done|]. by rewrite !past_not_counted.
Qed.

Lemma can_start_agree c c' :
  agree c c' -> ski_cpu_can_start_interrupts c' = ski_cpu_can_start_interrupts c.
Proof. intros (_&H1&H2&H3&H4&_). unfold ski_cpu_can_start_interrupts. by rewrite H1, H2, H3, H4. Qed.

Lemma runnable_agree_1 cpus cpus' tc :
  Forall2 agree cpus cpus' -> tc_int_no tc <> 1 -> runnable cpus tc -> runnable cpus' tc.
Proof.
  intros H Hn (H1&H2&H3&c&Hc&H4&H5&H6). do 3 (split; [done|]).
  destruct (find_cpu_agree _ _ _ _ H Hc) as (c'&Hc'&Ha). exists c'. split; [done|].
  rewrite (is_top_agree _ _ _ H Hn) by (by exists c). rewrite (can_start_agree _ _ Ha).
  destruct Ha as (_&_&_&_&_&Hs&Hst&Hw&_). rewrite <- Hs, <- Hw.
  unfold ski_interrupts_in_hw_int in *. rewrite <- Hst. done.
Qed.

Lemma runnable_agree cpus cpus' tc :
  Forall2 agree cpus cpus' -> tc_int_no tc <> 1 -> runnable cpus tc <-> runnable cpus' tc.
Proof.
  intros H Hn. split; apply runnable_agree_1; try done.
  apply Forall2_flip. eapply Forall2_impl; [done|apply agree_sym].
Qed.

Definition no_int_1 (m : machine) : Prop := Forall (fun tc => tc_int_no tc <> 1) (live_threads m).

(** The choice depends only on the threads and on what [agree] keeps. *)
Lemma next_thread_agree m m' i tc :
  Forall2 agree (m_cpus m) (m_cpus m') -> live_threads m' = live_threads m -> no_int_1 m ->
  next_thread m i tc -> next_thread m' i tc.
Proof.
  intros Ha Hl Hn [Hs Hp]. split; [|done]. rewrite Hl.
  eapply selected_ext; [| |exact Hs]; [|done].
  intros t Ht. apply runnable_agree; [done|]. unfold no_int_1 in Hn.
  eapply Forall_forall in Hn; done.
Qed.

Lemma threads_known_agree m m' :
  Forall2 agree (m_cpus m) (m_cpus m') -> live_threads m' = live_threads m ->
  threads_known m -> threads_known m'.
Proof.
  intros Ha Hl Hk. unfold threads_known. rewrite Hl. eapply Forall_impl; [exact Hk|].
  intros tc [c Hc]. destruct (find_cpu_agree _ _ _ _ Ha Hc) as (c'&?&_). by exists c'.
Qed.

Lemma switched_agree m e i rs t c :
  m_cpus m !! e = Some c -> ma_ready (sc_cpu_rs (cpu_ski c)) -> ma_ready rs ->
  Forall2 agree (m_cpus m) (m_cpus (switched m e i rs t)).
Proof.
  intros Hc [Hr _] [Hr' _]. cbn. apply Forall2_same_length_lookup. rewrite length_alter. split; [done|].
  intros j x y Hx Hy. destruct (decide (e = j)) as [<-|Hne].
  - rewrite list_lookup_alter_eq in Hy. rewrite Hx in Hc, Hy. simplify_eq/=.
    do 8 (split; [done|]). by right.
  - rewrite list_lookup_alter_ne in Hy by done. rewrite Hx in Hy. injection Hy as ->. apply agree_refl.
Qed.

(** ** The scheduler's guarantees *)

Lemma testing_switched m e i rs t e' c :
  m_cpus m !! e = Some c -> ma_ready rs ->
  testing m e' -> testing (set_m_need_reevaluate 0 (switched m e i rs t)) e'.
Proof.
  intros Hc Hr (c'&Hc'&Ha&Hs&Hr'). unfold testing. cbn.
  destruct (decide (e = e')) as [<-|Hne].
  - rewrite Hc in Hc'. injection Hc' as <-. eexists.
    split; [rewrite list_lookup_alter_eq, Hc; reflexivity|]. done.
  - exists c'. rewrite list_lookup_alter_ne by done. done.
Qed.

Lemma can_run_granted m e m1 :
  threads_known m -> no_int_1 m -> trace_ok (m_trace m) -> testing m e ->
  ski_cpu_can_run e m = Ret m1 1 ->
  exists i tc, next_thread m i tc /\ next_thread m1 i tc /\ tc_cpu_no tc = cpu_index (m_cpus m !!! e) /\
    m_threads_current m1 = Some i /\ Forall2 agree (m_cpus m) (m_cpus m1) /\
    m_threads m1 = m_threads m /\ m_threads_no m1 = m_threads_no m /\ trace_ok (m_trace m1) /\
    m_need_reevaluate m1 = 0 /\ forall e', testing m e' -> testing m1 e'.
Proof.
  intros Hk Hn Ht He Hrun. pose proof He as (c&Hc&_&_&Hr).
  destruct (find_next_runnable_total m Hk) as [(i&tc&Hnx&_)|(_&Hf)].
  2:{ unfold ski_cpu_can_run in Hrun. erewrite bind_Ret in Hrun by done.
      rewrite (list_lookup_total_correct _ _ _ Hc), (testing_state m e c Hc He) in Hrun.
      unfold bind in Hrun. rewrite (lift_Fail _ _ _ Hf) in Hrun. done. }
  exists i, tc. pose proof (can_run_next m e i tc Hk He Ht Hnx) as Hs.
  destruct (decide (tc_cpu_no tc = cpu_index (m_cpus m !!! e))) as [Heq|]; [|congruence].
  destruct (decide (m_threads_current m = Some i)) as [Hcur|Hcur].
  - rewrite Hrun in Hs. injection Hs as ->. split; [done|]. split; [done|].
    split; [done|]. split; [done|]. split; [|done]. cbn.
    apply Forall2_same_length_lookup. split; [done|]. intros j x y Hx Hy.
    rewrite Hx in Hy. injection Hy as ->. apply agree_refl.
  - destruct Hs as (rs&t&Ht'&Hrs&Hs). rewrite Hrun in Hs. injection Hs as ->.
    pose proof (switched_agree m e i rs t c Hc Hr Hrs) as Ha.
    split; [done|]. split; [by apply (next_thread_agree m)|].
    split; [done|]. split; [done|]. split; [done|]. do 4 (split; [done|]).
    intros e'. by eapply testing_switched.
Qed.


(** ** Preemption *)

Lemma take_alter_comm {A} (f : A -> A) n i (l : list A) : take n (alter f i l) = alter f i (take n l).
Proof.
  revert n i. induction l as [|x l IH]; intros [|n] [|i]; try done. cbn. f_equal. apply IH.
Qed.

(** The threads that [ski_threads_invert_priority] looks at. *)
Definition counted (cpus : list CPUState) (tc : thread_context) : Prop :=
  tc_exists tc <> 0 /\ (tc_int_no tc < 0 \/ tc_state tc <> SKI_TC_STATE_NEEDS_TRIGGER) /\
  tc_wait_for_rs tc = 0 /\ tc_wait_for_rs_on_pause tc = 0 /\
  exists c, find_cpu cpus (tc_cpu_no tc) = Val c /\ sc_wait_for_interrupt (cpu_ski c) = 0.

Lemma counts_for_inversion_spec cpus tc :
  cpu_known cpus tc ->
  exists b, counts_for_inversion cpus tc = Val b /\ (b = true <-> counted cpus tc).
Proof.
  intros [c Hc]. unfold counts_for_inversion, counted. rewrite Hc.
  destruct (c_true (tc_exists tc)) eqn:E1; cbn [andb].
  2:{ apply c_true_false in E1. exists false. split; [done|]. split; [done|tauto]. }
  apply c_true_true in E1.
  destruct ((tc_int_no tc <? 0) || negb (tc_state tc =? SKI_TC_STATE_NEEDS_TRIGGER)) eqn:E2.
  2:{ apply orb_false_iff in E2 as [Ha Hb]. exists false. split; [done|]. split; [done|].
      intros (_&H&_). lia. }
  assert (tc_int_no tc < 0 \/ tc_state tc <> SKI_TC_STATE_NEEDS_TRIGGER) as H2.
  { apply orb_true_iff in E2 as [?|?]; lia. }
  destruct (c_true (tc_wait_for_rs tc)) eqn:E3; cbn [orb].
  { apply c_true_true in E3. exists false. split; [done|]. split; [done|tauto]. }
  destruct (c_true (tc_wait_for_rs_on_pause tc)) eqn:E4.
  { apply c_true_true in E4. exists false. split; [done|]. split; [done|tauto]. }
  apply c_true_false in E3, E4. cbn [ebind]. eexists. split; [done|].
  rewrite negb_true_iff, c_true_false. split.
  - intros H. do 4 (split; [done|]). by exists c.
  - intros (_&_&_&_&c'&[= <-]&H). done.
Qed.

Lemma lowest_priority_spec cpus tcs acc :
  Forall (cpu_known cpus) tcs ->
  exists r, lowest_priority cpus tcs acc = Val r /\ acc <= r /\
    (forall tc, tc ∈ tcs -> counted cpus tc -> tc_priority tc <= r) /\
    (r = acc \/ exists tc, tc ∈ tcs /\ counted cpus tc /\ tc_priority tc = r).
Proof.
  intros H. revert acc. induction H as [|tc tcs Hk _ IH]; intros acc.
  { exists acc. split; [done|]. split; [lia|]. split; [by intros ? ?%elem_of_nil|by left]. }
  cbn [lowest_priority]. destruct (counts_for_inversion_spec cpus tc Hk) as (b&->&Hb). cbn [ebind].
  destruct (IH (if b then Z.max acc (tc_priority tc) else acc)) as (r&->&H1&H2&H3).
  exists r. split; [done|]. split; [destruct b; lia|]. split.
  - intros t [->|Ht]%elem_of_cons Hc; [|by apply H2]. apply Hb in Hc. subst b. lia.
  - destruct H3 as [->|(t&Ht&Hct&<-)].
    + destruct b; [|by left]. destruct (Z.max_spec acc (tc_priority tc)) as [[_ ->]|[_ ->]]; [|by left].
      right. exists tc. split; [left|]. split; [by apply Hb|done].
    + right. exists t. split; [by right|done].
Qed.

(** The new priority of a preempted thread: one more than every counted one. *)
Lemma invert_priority_spec m e i cur :
  threads_known m -> trace_ok (m_trace m) -> m_threads_current m = Some i ->
  live_threads m !! i = Some cur ->
  exists r t, trace_ok t /\ 0 <= r /\
    (forall tc, tc ∈ live_threads m -> counted (m_cpus m) tc -> tc_priority tc <= r) /\
    (r = 0 \/ exists tc, tc ∈ live_threads m /\ counted (m_cpus m) tc /\ tc_priority tc = r) /\
    ski_threads_invert_priority e m =
      Ret (set_m_need_reevaluate 1 (set_m_threads
        (alter (set_tc_priority (wrap32 (r + 1))) i (m_threads m)) (set_m_trace t m))) tt.
Proof.
  intros Hk Ht Hc Hi. destruct (lowest_priority_spec _ _ 0 Hk) as (r&Hr&H0&H1&H2).
  destruct (comment_Ret (CPreemption (cpu_eip (m_cpus m !!! e))) m Ht) as (t&E&Ht').
  exists r, t. do 4 (split; [done|]). unfold ski_threads_invert_priority, bind, current_thread.
  rewrite Hc, (lift_Val (fun m => lowest_priority (m_cpus m) (live_threads m) 0) m r Hr). unfold get. by rewrite E.
Qed.

(** Priorities far from the limits of [int]. *)
Definition small (z : Z) : Prop := - 2 ^ 29 < z < 2 ^ 29.

Lemma base_priority_small tc :
  small (tc_priority tc) -> small (tc_priority_adjust tc) ->
  base_priority tc = tc_priority tc + tc_priority_adjust tc.
Proof. unfold small. intros. apply wrap32_id. unfold in_int. lia. Qed.


(** ** Waiting for a read set *)

(** [ski_threads_all_wake_rs] wakes this thread. *)
Definition woken (a : Z) (tc : thread_context) : bool :=
  (c_true (tc_wait_for_rs_on_pause tc) || c_true (tc_wait_for_rs tc)) &&
  c_true (tc_exists tc) && c_true (ski_liveness_is_present (tc_wait_rs tc) a).

(** The read set a reset leaves. *)
Definition empty_ma (ma : ski_ma) : ski_ma :=
  mk_ski_ma 1 (ma_entries ski_ma_zero) 0 (ma_max_entries ma) [] [].

Definition wake (a : Z) (tc : thread_context) : thread_context :=
  if woken a tc
  then set_tc_wait_rs (empty_ma (tc_wait_rs tc)) (set_tc_wait_for_rs 0 (set_tc_wait_for_rs_on_pause 0 tc))
  else tc.

Lemma reset_empty_ma ma : ma_ready ma -> ski_liveness_reset ma = Val (empty_ma ma).
Proof.
  intros [Hi Hm]. unfold ski_liveness_reset, ski_liveness_init. rewrite Hi.
  cbn [c_true Z.eqb negb eassert ebind]. zbool. done.
Qed.

Lemma wake_loop_spec a (todo done_ rest : list thread_context) found m :
  trace_ok (m_trace m) -> is_Some (m_threads_current m) ->
  m_threads m = done_ ++ todo ++ rest ->
  Forall (fun tc => woken a tc = true -> ma_ready (tc_wait_rs tc)) todo ->
  exists t, trace_ok t /\
    wake_loop a (seq (length done_) (length todo)) found m =
    Ret (set_m_threads (done_ ++ (wake a <$> todo) ++ rest) (set_m_trace t m))
      (if existsb (woken a) todo then 1 else found).
Proof.
  intros Ht [i Hcur] Hth Hr. revert done_ found m Ht Hcur Hth.
  induction Hr as [|tc todo Htc _ IH]; intros done_ found m Ht Hcur Hth.
  { exists (m_trace m). split; [done|]. cbn. by destruct m; cbn in *; subst. }
  cbn [length seq wake_loop existsb]. unfold bind at 1. unfold get at 1. cbn beta.
  assert (m_threads m !!! length done_ = tc) as ->.
  { rewrite Hth. apply list_lookup_total_correct. by rewrite lookup_app_r, Nat.sub_diag. }
  assert (S (length done_) = length (done_ ++ [wake a tc])) as Hlen by (rewrite length_app; cbn; lia).
  assert (forall l, done_ ++ (wake a <$> tc :: todo) ++ l = (done_ ++ [wake a tc]) ++ (wake a <$> todo) ++ l)
    as Hshape by (intros l; rewrite fmap_cons, <- (app_assoc done_); done).
  fold (woken a tc). rewrite Hlen, Hshape. destruct (woken a tc) eqn:E; cbn [orb].
  - unfold bind at 1. unfold current_thread. rewrite Hcur. cbn beta iota.
    edestruct comment_Ret as (t1&E1&Ht1); [exact Ht|]. erewrite bind_Ret by exact E1.
    erewrite bind_Ret by done.
    erewrite bind_Ret; [|apply lift_Val, reset_empty_ma, Htc; done]. erewrite bind_Ret by done.
    match goal with |- context [wake_loop a _ 1 ?m1] =>
      destruct (IH (done_ ++ [wake a tc]) 1 m1) as (t2&Ht2&E2); [done|done| |] end.
    { cbn. rewrite Hth. cbn [app]. rewrite !alter_middle, <- app_assoc. unfold wake. by rewrite E. }
    exists t2. split; [done|]. rewrite E2. by destruct (existsb _ _).
  - destruct (IH (done_ ++ [wake a tc]) found m) as (t2&Ht2&E2); [done|done| |].
    { rewrite Hth, <- app_assoc. unfold wake. by rewrite E. }
    exists t2. split; [done|]. by rewrite E2.
Qed.

Lemma all_wake_rs_spec a m :
  trace_ok (m_trace m) -> is_Some (m_threads_current m) ->
  0 <= m_threads_no m <= Z.of_nat (length (m_threads m)) ->
  Forall (fun tc => woken a tc = true -> ma_ready (tc_wait_rs tc)) (live_threads m) ->
  exists t, trace_ok t /\
    let m1 := set_m_threads ((wake a <$> live_threads m) ++ drop (Z.to_nat (m_threads_no m)) (m_threads m))
                (set_m_trace t m) in
    ski_threads_all_wake_rs a m =
      if existsb (woken a) (live_threads m) then Ret (set_m_need_reevaluate 1 m1) 1 else Ret m1 0.
Proof.
  intros Ht Hc Hn Hr.
  destruct (wake_loop_spec a (live_threads m) [] (drop (Z.to_nat (m_threads_no m)) (m_threads m)) 0 m)
    as (t&Ht'&E); [done|done| |done|].
  { cbn. unfold live_threads. by rewrite take_drop. }
  exists t. split; [done|]. cbn zeta. unfold ski_threads_all_wake_rs. unfold bind at 1. unfold get at 1.
  cbn beta. assert (length (live_threads m) = Z.to_nat (m_threads_no m)) as Hl.
  { unfold live_threads. rewrite length_take. lia. }
  rewrite Hl in E. erewrite bind_Ret by exact E. by destruct (existsb _ _).
Qed.

(** C17: a write to memory wakes exactly the threads that wait for it.
    [ski_threads_all_wake_rs] clears the wait of every existing thread whose
    read set holds the address, empties that read set, leaves every other
    thread as it was, and asks for a new scheduling decision (returning 1)
    exactly when it woke a thread. *)
Theorem ski_threads_all_wake_rs_exact (a : Z) (m : machine)
    (Ht : trace_ok (m_trace m)) (Hc : is_Some (m_threads_current m))
    (Hn : 0 <= m_threads_no m <= Z.of_nat (length (m_threads m)))
    (Hr : Forall (fun tc => woken a tc = true -> ma_ready (tc_wait_rs tc)) (live_threads m)) :
  exists m1 r, ski_threads_all_wake_rs a m = Ret m1 r /\
    live_threads m1 = wake a <$> live_threads m /\ m_cpus m1 = m_cpus m /\
    (r = 1 /\ m_need_reevaluate m1 = 1 /\ (exists tc, tc ∈ live_threads m /\ woken a tc = true) \/
     r = 0 /\ m_need_reevaluate m1 = m_need_reevaluate m /\
     forall tc, tc ∈ live_threads m -> woken a tc = false).
Proof.
  destruct (all_wake_rs_spec a m Ht Hc Hn Hr) as (t&_&E). cbn zeta in E. rewrite E.
  assert (forall l, live_threads (set_m_threads ((wake a <$> live_threads m) ++ l) (set_m_trace t m)) =
            wake a <$> live_threads m) as Hl.
  { intros l. unfold live_threads at 1. cbn. rewrite take_app_length'; [done|].
    unfold live_threads. rewrite length_fmap, length_take. lia. }
  destruct (existsb (woken a) (live_threads m)) eqn:Ex; eexists _, _; (split; [done|]).
  - split; [apply Hl|]. split; [done|]. left. split; [done|]. split; [done|].
    apply existsb_exists in Ex as (tc&Htc&Hw). exists tc. by rewrite list_elem_of_In.
  - split; [apply Hl|]. split; [done|]. right. split; [done|]. split; [done|].
    intros tc Htc. apply not_true_iff_false. intros Hw. apply not_true_iff_false in Ex. apply Ex.
    apply existsb_exists. exists tc. by rewrite <- list_elem_of_In.
Qed.

(** ** Waiting *)

(** The statistics option is only used with parallel tests. *)
Definition heuristics_ok (m : machine) : Prop :=
  o_heuristics_statistics (m_opts m) = true -> o_forkall (m_opts m) = true.

Lemma heuristics_Ret k eip c n m :
  heuristics_ok m -> exists l, ski_heuristics_statistics_print k eip c n m = Ret (set_m_log l m) tt.
Proof.
  intros H. unfold ski_heuristics_statistics_print, bind, get, when, log_event, modify, ret, heuristics_ok in *.
  destruct (o_heuristics_statistics _); [rewrite H by done; by eexists|exists (m_log m)]. by destruct m.
Qed.

(** The thread that [ski_threads_self_wait_rs] puts to sleep. *)
Definition asleep (is_pause : bool) (rs : ski_ma) (tc : thread_context) : thread_context :=
  set_tc_wait_rs rs (set_tc_last_pause (- SKI_MAX_LIVENESS_PAUSE_DISTANCE)
    ((if is_pause then set_tc_wait_for_rs_on_pause 1 else set_tc_wait_for_rs 1) tc)).

Lemma self_wait_rs_spec m e i is_pause rs :
  trace_ok (m_trace m) -> heuristics_ok m -> m_threads_current m = Some i ->
  ski_liveness_copy (sc_cpu_rs (cpu_ski (m_cpus m !!! e))) = Val rs ->
  exists t l, trace_ok t /\
    ski_threads_self_wait_rs e is_pause m =
    Ret (set_m_need_reevaluate 1 (set_m_threads (alter (asleep is_pause rs) i (m_threads m))
           (set_m_log l (set_m_trace t m)))) tt.
Proof.
  intros Ht Hh Hc Hrs. unfold ski_threads_self_wait_rs. unfold bind at 1. unfold current_thread.
  rewrite Hc. cbn beta iota.
  edestruct comment_Ret as (t&E&Ht'); [exact Ht|]. erewrite bind_Ret by exact E.
  erewrite bind_Ret by done. erewrite bind_Ret by done.
  edestruct heuristics_Ret as (l&El); [|erewrite bind_Ret by exact El]; [exact Hh|].
  erewrite bind_Ret by done. erewrite bind_Ret by (apply lift_Val; exact Hrs).
  erewrite bind_Ret by done. exists t, l. split; [done|].
  unfold need_reevaluate, modify. do 2 f_equal. cbn.
  rewrite !alter_alter. by destruct is_pause.
Qed.

Lemma wf_ready ma : ma_wf ma -> ma_ready ma.
Proof. intros H. split; [apply H|]. apply H. Qed.

Lemma asleep_woken a is_pause rs tc :
  ma_wf rs -> tc_exists tc <> 0 ->
  woken a (asleep is_pause rs tc) = true <-> a ∈ (me_mem_address <$> ma_view rs).
Proof.
  intros Hwf He. rewrite <- is_present_view by done. apply c_true_true in He. unfold woken.
  assert (c_true (tc_wait_for_rs_on_pause (asleep is_pause rs tc))
          || c_true (tc_wait_for_rs (asleep is_pause rs tc)) = true) as ->.
  { destruct is_pause; cbn; by rewrite ?orb_true_r. }
  replace (tc_exists (asleep is_pause rs tc)) with (tc_exists tc) by (by destruct is_pause).
  rewrite He. cbn [andb]. change (tc_wait_rs (asleep is_pause rs tc)) with rs.
  unfold ski_liveness_is_present. by destruct (HASH_FIND_INT _ _ _).
Qed.

Lemma asleep_not_runnable cpus is_pause rs tc : ~ runnable cpus (asleep is_pause rs tc).
Proof. intros (_&H1&H2&_). by destruct is_pause. Qed.

(** C18: a spinning thread sleeps until its read set is written.  When the
    current thread waits ([ski_threads_self_wait_rs], after a pause or a
    detected loop), the scheduler no longer picks it; a later write to address
    [a] makes [ski_threads_all_wake_rs] clear its waits if [a] is one of the
    addresses its CPU had logged, and leaves it asleep otherwise. *)
Theorem ski_wait_wake_handshake (m : machine) (e i : nat) (is_pause : bool) (a : Z) (tc : thread_context)
    (Ht : trace_ok (m_trace m)) (Hh : heuristics_ok m) (Hc : m_threads_current m = Some i)
    (Hi : live_threads m !! i = Some tc) (He : tc_exists tc <> 0)
    (Hn : 0 <= m_threads_no m <= Z.of_nat (length (m_threads m)))
    (Hr : Forall (fun tc => woken a tc = true -> ma_ready (tc_wait_rs tc)) (live_threads m))
    (Hwf : ma_wf (sc_cpu_rs (cpu_ski (m_cpus m !!! e)))) :
  exists m1 m2 r tc1 tc2, ski_threads_self_wait_rs e is_pause m = Ret m1 tt /\
    live_threads m1 !! i = Some tc1 /\ (forall cpus, ~ runnable cpus tc1) /\
    ski_threads_all_wake_rs a m1 = Ret m2 r /\ live_threads m2 !! i = Some tc2 /\
    (if decide (a ∈ (me_mem_address <$> ma_view (sc_cpu_rs (cpu_ski (m_cpus m !!! e)))))
     then r = 1 /\ tc_wait_for_rs tc2 = 0 /\ tc_wait_for_rs_on_pause tc2 = 0
     else tc2 = tc1).
Proof.
  destruct (copy_view _ Hwf) as (rs&Hrs&Hwf'&Hv).
  destruct (self_wait_rs_spec m e i is_pause rs Ht Hh Hc Hrs) as (t&l&Ht1&->).
  set (m1 := set_m_need_reevaluate 1 _).
  assert (live_threads m1 = alter (asleep is_pause rs) i (live_threads m)) as Hl1 by apply take_alter_comm.
  assert (live_threads m1 !! i = Some (asleep is_pause rs tc)) as Hi1.
  { by rewrite Hl1, list_lookup_alter_eq, Hi. }
  destruct (all_wake_rs_spec a m1) as (t2&_&E); [done|by eexists| | |].
  { cbn. by rewrite length_alter. }
  { rewrite Hl1. apply Forall_alter; [done|]. intros x _ _ _. by apply wf_ready. }
  cbn zeta in E. set (m2 := set_m_threads _ _) in E.
  assert (live_threads m2 !! i = Some (wake a (asleep is_pause rs tc))) as Hi2.
  { unfold live_threads. cbn -[take]. rewrite take_app_length'.
    - by rewrite list_lookup_fmap, Hi1.
    - unfold live_threads. rewrite length_fmap, length_take. cbn. rewrite length_alter. lia. }
  pose proof (asleep_woken a is_pause rs tc Hwf' He) as Hw.
  rewrite Hv, <- list_fmap_compose in Hw. change (me_mem_address ∘ count_one) with me_mem_address in Hw.
  assert (exists r, ski_threads_all_wake_rs a m1 =
    Ret (if existsb (woken a) (live_threads m1) then set_m_need_reevaluate 1 m2 else m2) r /\
    r = b2z (existsb (woken a) (live_threads m1))) as (r&Er&Hr').
  { rewrite E. destruct (existsb _ _); by eexists. }
  eexists m1, _, r, _, _. split; [done|]. split; [exact Hi1|].
  split; [intros; apply asleep_not_runnable|]. split; [exact Er|].
  split; [destruct (existsb _ _); exact Hi2|].
  destruct (decide _) as [Hin|Hin].
  - apply Hw in Hin. unfold wake. rewrite Hin. split; [|done]. rewrite Hr'.
    replace (existsb (woken a) (live_threads m1)) with true; [done|]. symmetry.
    apply existsb_exists. exists (asleep is_pause rs tc). split; [|done].
    apply list_elem_of_In. by eapply list_elem_of_lookup_2.
  - unfold wake. destruct (woken a _); [|done]. by destruct Hin; apply Hw.
Qed.

(** ** Preemption points *)

Definition lowest_in (min : Z) (ps : list Z) (r : option (nat * Z)) : Prop :=
  match r with
  | None => Forall (fun p => p < min) ps
  | Some (i, v) => ps !! i = Some v /\ min <= v /\ Forall (fun p => min <= p -> v <= p) ps
  end.

Lemma lowest_preemption_spec min todo done_ r :
  lowest_in min done_ r ->
  lowest_in min (done_ ++ todo) (lowest_preemption min todo (length done_) r).
Proof.
  revert done_ r. induction todo as [|p todo IH]; intros done_ r Hr.
  { by rewrite app_nil_r. }
  cbn [lowest_preemption].
  replace (S (length done_)) with (length (done_ ++ [p])) by (rewrite length_app; cbn; lia).
  replace (done_ ++ p :: todo) with ((done_ ++ [p]) ++ todo) by (by rewrite <- app_assoc).
  apply IH. destruct r as [[i v]|]; cbn in Hr.
  - destruct Hr as (Hi&Hv&Hm). destruct ((v >? p) && (p >=? min)) eqn:E.
    + apply andb_true_iff in E as [E1 E2]. split; [by rewrite lookup_app_r, Nat.sub_diag|].
      split; [lia|]. apply Forall_app. split; [|by repeat constructor].
      eapply Forall_impl; [exact Hm|]. cbn. intros x Hx ?. specialize (Hx ltac:(lia)). lia.
    + apply andb_false_iff in E. split; [by apply lookup_app_l_Some|]. split; [done|].
      apply Forall_app. split; [done|]. repeat constructor. intros. destruct E; lia.
  - destruct (p >=? min) eqn:E.
    + split; [by rewrite lookup_app_r, Nat.sub_diag|]. split; [lia|].
      apply Forall_app. split; [|by repeat constructor].
      eapply Forall_impl; [exact Hr|]. cbn. intros. lia.
    + cbn. apply Forall_app. split; [done|]. repeat constructor. lia.
Qed.

(** Taking preemption points one after another, each time asking for the lowest
    point that is not below the previous one. *)
Fixpoint drain (fuel : nat) (min_required : Z) : SCH (list Z) :=
  match fuel with
  | O => ret []
  | S fuel' =>
      v <- ski_preemption_get_and_clear_lowest min_required ;;
      if v <? 0 then ret []
      else l <- drain fuel' v ;; ret (v :: l)
  end.

Lemma filter_clear min ps i v :
  0 <= min -> ps !! i = Some v -> min <= v ->
  filter (fun p => min <= p) ps ≡ₚ v :: filter (fun p => min <= p) (<[i := -1]> ps).
Proof.
  intros H0. revert i. induction ps as [|p ps IH]; intros [|i] Hi Hv; try done.
  - injection Hi as ->. cbn [insert list_insert]. rewrite !filter_cons.
    rewrite decide_True, decide_False by lia. done.
  - cbn [insert list_insert]. rewrite !filter_cons. specialize (IH i Hi Hv).
    destruct (decide (min <= p)); [|done]. rewrite IH. constructor.
Qed.

Lemma drain_spec fuel min m :
  0 <= min -> (length (filter (fun p => (min <= p)%Z) (m_preemptions m)) < fuel)%nat ->
  exists ps l, drain fuel min m = Ret (set_m_preemptions ps m) l /\
    l ≡ₚ filter (fun p => min <= p) (m_preemptions m) /\ StronglySorted Z.le l /\ Forall (Z.le min) l.
Proof.
  revert min m. induction fuel as [|fuel IH]; intros min m H0 Hf; [lia|].
  cbn [drain]. unfold ski_preemption_get_and_clear_lowest.
  pose proof (lowest_preemption_spec min (m_preemptions m) [] None ltac:(by apply Forall_nil)) as Hs.
  cbn [app length] in Hs. unfold bind at 1 2. unfold get at 1.
  destruct (lowest_preemption min (m_preemptions m) 0 None) as [[i v]|]; cbn in Hs.
  - destruct Hs as (Hi&Hv&Hm). unfold bind at 1. unfold modify at 1, ret at 1. cbn beta. zbool.
    pose proof (filter_clear min _ i v H0 Hi Hv) as Hp.
    set (m1 := set_m_preemptions (<[i:=-1]> (m_preemptions m)) m).
    assert (filter (fun p => min <= p) (m_preemptions m1) = filter (fun p => v <= p) (m_preemptions m1)) as Heq.
    { apply filter_ext_Forall, Forall_insert; [|lia].
      eapply Forall_impl; [exact Hm|]. cbn. intros p Hpp. split; [apply Hpp|lia]. }
    change (<[i:=-1]> (m_preemptions m)) with (m_preemptions m1) in Hp. rewrite Heq in Hp.
    destruct (IH v m1) as (ps&l&E&Hl&Hsd&Hle); [lia| |].
    { rewrite (Permutation_length Hp) in Hf. cbn [length] in Hf. lia. }
    exists ps, (v :: l). rewrite (bind_Ret _ _ _ _ _ E). split; [done|].
    split; [by rewrite Hp, Hl|]. split; [by constructor|].
    constructor; [done|]. eapply Forall_impl; [exact Hle|]. cbn. intros. lia.
  - unfold ret. cbn. exists (m_preemptions m), []. split; [by destruct m|].
    split; [|by repeat constructor].
    replace (filter (fun p => min <= p) (m_preemptions m)) with (@nil Z); [done|].
    symmetry. clear -Hs. induction Hs as [|p ps Hp _ IHs]; [done|]. by rewrite filter_cons_False by lia.
Qed.

(** The preemption points of a test are taken in order.  Asking again and
    again for the lowest point not below the previous one
    ([ski_preemption_get_and_clear_lowest]) yields every configured point from
    [min_required] on exactly once, in ascending order, whatever the order and
    the repetitions in the configuration. *)
Theorem ski_preemptions_ascending (m : machine) (min_required : Z) (fuel : nat)
    (Hmin : 0 <= min_required) (Hfuel : (length (m_preemptions m) < fuel)%nat) :
  exists ps l, drain fuel min_required m = Ret (set_m_preemptions ps m) l /\
    l ≡ₚ filter (fun p => min_required <= p) (m_preemptions m) /\ StronglySorted Z.le l.
Proof.
  destruct (drain_spec fuel min_required m Hmin) as (ps&l&E&Hp&Hs&_); [|by exists ps, l].
  pose proof (length_filter (fun p => min_required <= p) (m_preemptions m)). lia.
Qed.

(** ** Starvation *)

Lemma adjust_skip e m :
  m_instructions_current m < 0 \/ Z.rem (m_instructions_current m) SKI_SCHED_ADJUST_MODULO <> 0 ->
  ski_threads_adjust_priority_current e m = Ret m 0.
Proof.
  intros H. unfold ski_threads_adjust_priority_current, bind, get.
  replace ((m_instructions_current m >=? 0) && (Z.rem (m_instructions_current m) SKI_SCHED_ADJUST_MODULO =? 0))
    with false; [done|]. symmetry. apply andb_false_iff. lia.
Qed.

Lemma adjust_fires e m i tc :
  heuristics_ok m -> 0 <= m_instructions_current m ->
  Z.rem (m_instructions_current m) SKI_SCHED_ADJUST_MODULO = 0 ->
  m_threads_current m = Some i -> m_threads m !! i = Some tc -> small (tc_priority_adjust tc) ->
  exists c t l, ski_exec_trace_print_comment c (m_trace m) = Ret t tt /\
    ski_threads_adjust_priority_current e m =
    if tc_priority_adjust tc + SKI_SCHED_ADJUST_INC <? SKI_DEBUG_MAX_ADJUST then
      Ret (set_m_need_reevaluate 1 (set_m_threads
             (alter (set_tc_priority_adjust (tc_priority_adjust tc + SKI_SCHED_ADJUST_INC)) i (m_threads m))
             (set_m_log l (set_m_trace t m)))) 1
    else Halt (set_m_trace t m) (HExit SKI_EXIT_MAX_PRIORITY_ADJ).
Proof.
  intros Hh H0 Hm Hc Hi Hs. unfold ski_threads_adjust_priority_current.
  unfold bind at 1. unfold get at 1. cbn beta. rewrite Hm. zbool. unfold bind at 1, current_thread.
  rewrite Hc, (list_lookup_total_correct _ _ _ Hi). cbn beta iota. unfold small in Hs.
  rewrite wrap32_id by (unfold in_int, SKI_SCHED_ADJUST_INC; lia).
  set (c := CPriorityAdjust _ _ _ _ _). destruct (print_comment_ex c (m_trace m)) as [out E].
  set (t := mk_trace _ _ _ _ _) in E.
  erewrite bind_Ret by (unfold comment_, on_trace; rewrite E; reflexivity).
  edestruct (heuristics_Ret HEUR_STARVATION (cpu_eip (m_cpus m !!! e)) (tc_cpu_no tc) (m_counter_total m)
    (set_m_trace t m) Hh) as (l&El). exists c, t, l. split; [done|].
  unfold SKI_ASSERT_MSG. destruct (_ <? SKI_DEBUG_MAX_ADJUST); cbn [negb when].
  - erewrite bind_Ret by done. by erewrite bind_Ret by exact El.
  - done.
Qed.

(** ** The table of threads *)

Definition thread_entry (id cpu i n : Z) (old : thread_context) : thread_context :=
  set_tc_count n (ski_tc_initialize id id cpu i 0 old).

Lemma threads_insert_Ret cpu i n m :
  (i = -1 \/ 0 <= i) -> 0 <= m_threads_no m < MAX_SKI_THREADS ->
  ski_threads_insert cpu i n m =
  Ret (set_m_threads_no (m_threads_no m + 1)
    (set_m_threads (alter (thread_entry (m_threads_no m) cpu i n) (Z.to_nat (m_threads_no m)) (m_threads m)) m)) tt.
Proof.
  intros Hi Hn. unfold ski_threads_insert, bind, get, assert_.
  assert ((i =? -1) || (i >=? 0) = true) as -> by (destruct Hi as [->| ?]; [done|apply orb_true_iff; lia]).
  zbool. unfold mod_thread, modify, ret, MAX_SKI_THREADS in *. cbn.
  by rewrite wrap32_id by (unfold in_int; lia).
Qed.

(** C15: the scheduler's choice.  With every thread on a known CPU,
    [ski_threads_find_next_runnable] returns thread [i] exactly when it is
    runnable, no runnable thread has a lower value of priority plus adjustment
    (ties go to the last of them in the table) and that value is at most
    [SKI_LIVENESS_PRIORITY_NOPAUSE_LOOP]; otherwise the process exits with
    [SKI_EXIT_NO_RUNNABLE]. *)
Theorem ski_threads_find_next_runnable_spec (m : machine) (Hk : threads_known m) :
  (forall i tc, ski_threads_find_next_runnable m = Val (i, tc) <-> next_thread m i tc) /\
  (ski_threads_find_next_runnable m = Fail (HExit SKI_EXIT_NO_RUNNABLE) <->
   forall i tc, ~ next_thread m i tc).
Proof.
  split; [by intros; apply find_next_runnable_iff|].
  destruct (find_next_runnable_total m Hk) as [(i&tc&Hn&->)|(Hn&->)]; [|done].
  split; [done|]. intros H. by destruct (H i tc).
Qed.

(** ** A sample machine *)

#[export] Instance cpu_known_dec cpus tc : Decision (cpu_known cpus tc).
Proof.
  refine (match find_cpu cpus (tc_cpu_no tc) as r return (find_cpu cpus (tc_cpu_no tc) = r -> _) with
          | Val c => fun H => left (ex_intro _ c H)
          | Fail h => fun H => right _
          end eq_refl).
  intros [c Hc]. congruence.
Defined.

Definition sample_rs : ski_ma :=
  match ski_liveness_init SKI_MA_ENTRIES_MAX with Val ma => ma | Fail _ => ski_ma_zero end.

Definition sample_cpu (idx : Z) : CPUState :=
  mk_cpu idx true
    (set_sc_cpu_rs sample_rs (set_sc_state SKI_CPU_RUNNING_TEST (set_sc_nr_cpus 2 skicpu_zero)))
    0 0 false false 0 4096 0 0 0 IF_MASK regs_zero 0 (replicate 8 0).

Definition sample_trace : trace_state := mk_trace (replicate 10 ctx_zero) (-1) true 0 [].

Definition sample_opts : options := mk_opts 1 false (replicate 16 0) 7 2 false false true true false 0.

Definition sample_start : machine :=
  mk_machine [sample_cpu 0; sample_cpu 1] (replicate 8 inhabitant) 0 None 0 0 0 0 0 1 1 1 (-1)
    [700; 300; 500] sample_trace [] 0 sample_opts.

(** Two CPU threads and one interrupt thread of CPU 0. *)
Definition sample : machine :=
  match (ski_threads_insert 0 (-1) 1 ;;; ski_threads_insert 1 (-1) 1 ;;;
         ski_threads_insert 0 49 2 ;;; ski_liveness_initialize) sample_start with
  | Ret m _ => m
  | Jump m | Halt m _ => m
  end.

Lemma sample_trace_ok : trace_ok sample_trace.
Proof. right. repeat split; cbn; lia. Qed.

Lemma sample_known : threads_known sample.
Proof. apply (bool_decide_unpack _). by vm_compute. Qed.

Lemma sample_testing e : (e < 2)%nat -> testing sample e.
Proof.
  intros H. destruct e as [|[|e]]; [| |lia]; (eexists; split; [reflexivity|]; repeat split; by left || done).
Qed.

Lemma ski_threads_find_next_runnable_spec_witness :
  (forall i tc, ski_threads_find_next_runnable sample = Val (i, tc) <-> next_thread sample i tc) /\
  (ski_threads_find_next_runnable sample = Fail (HExit SKI_EXIT_NO_RUNNABLE) <->
   forall i tc, ~ next_thread sample i tc).
Proof. apply (ski_threads_find_next_runnable_spec sample). exact sample_known. Defined.

(** CPU 0 runs its thread first. *)
Example sample_next : exists tc, ski_threads_find_next_runnable sample = Val (0%nat, tc) /\ tc_cpu_no tc = 0.
Proof. eexists. split; [vm_compute; reflexivity|reflexivity]. Qed.

Definition sample_running : machine :=
  match ski_cpu_can_run 0 sample with Ret m _ => m | Jump m | Halt m _ => m end.



Lemma ski_threads_all_wake_rs_exact_witness :
  exists m1 r, ski_threads_all_wake_rs 64 sample_running = Ret m1 r /\
    live_threads m1 = wake 64 <$> live_threads sample_running /\ m_cpus m1 = m_cpus sample_running /\
    (r = 1 /\ m_need_reevaluate m1 = 1 /\
       (exists tc, tc ∈ live_threads sample_running /\ woken 64 tc = true) \/
     r = 0 /\ m_need_reevaluate m1 = m_need_reevaluate sample_running /\
     forall tc, tc ∈ live_threads sample_running -> woken 64 tc = false).
Proof.
  apply (ski_threads_all_wake_rs_exact 64 sample_running).
  - right. vm_compute. split; [reflexivity|]. split; [split; discriminate || reflexivity|reflexivity].
  - exists 0%nat. vm_compute. reflexivity.
  - vm_compute. split; discriminate.
  - apply Forall_forall. intros tc Htc Hw. exfalso.
    assert (Forall (fun tc => woken 64 tc = false) (live_threads sample_running)) as HF.
    { apply (bool_decide_unpack _). by vm_compute. }
    eapply Forall_forall in HF; [|exact Htc]. cbn in HF. congruence.
Defined.

Lemma sample_rs_wf : ma_wf sample_rs.
Proof.
  destruct (init_wf SKI_MA_ENTRIES_MAX ltac:(by vm_compute)) as (ma&E&Hwf&_).
  unfold sample_rs. by rewrite E.
Qed.

Lemma ski_wait_wake_handshake_witness :
  exists m1 m2 r tc1 tc2, ski_threads_self_wait_rs 0 true sample_running = Ret m1 tt /\
    live_threads m1 !! 0%nat = Some tc1 /\ (forall cpus, ~ runnable cpus tc1) /\
    ski_threads_all_wake_rs 64 m1 = Ret m2 r /\ live_threads m2 !! 0%nat = Some tc2 /\
    (if decide (64 ∈ (me_mem_address <$> ma_view (sc_cpu_rs (cpu_ski (m_cpus sample_running !!! 0%nat)))))
     then r = 1 /\ tc_wait_for_rs tc2 = 0 /\ tc_wait_for_rs_on_pause tc2 = 0
     else tc2 = tc1).
Proof.
  eapply (ski_wait_wake_handshake sample_running 0 0 true 64).
  - right. vm_compute. split; [reflexivity|]. split; [split; discriminate || reflexivity|reflexivity].
  - by intros ?.
  - vm_compute. reflexivity.
  - vm_compute. reflexivity.
  - vm_compute. discriminate.
  - vm_compute. split; discriminate.
  - apply Forall_forall. intros tc Htc Hw. exfalso.
    assert (Forall (fun tc => woken 64 tc = false) (live_threads sample_running)) as HF.
    { apply (bool_decide_unpack _). by vm_compute. }
    eapply Forall_forall in HF; [|exact Htc]. cbn in HF. congruence.
  - replace (sc_cpu_rs (cpu_ski (m_cpus sample_running !!! 0%nat))) with sample_rs
      by (vm_compute; reflexivity). exact sample_rs_wf.
Defined.

Lemma ski_preemptions_ascending_witness :
  exists ps l, drain 4 0 sample = Ret (set_m_preemptions ps sample) l /\
    l ≡ₚ filter (fun p => 0 <= p) (m_preemptions sample) /\ StronglySorted Z.le l.
Proof. apply (ski_preemptions_ascending sample 0 4); [lia|vm_compute; lia]. Defined.

Example sample_drain : exists m', drain 4 400 sample = Ret m' [500; 700].
Proof. eexists. vm_compute. reflexivity. Qed.
