(* ===== verification/Interrupts.v ===== *)
(** * Interrupts.v -- interrupt threads and interrupt stacks

    Models the interrupt handling of [vmm/cpu-exec.c]: a request line turns an
    interrupt thread into a schedulable one ([ski_handle_new_irq_set]), its
    delivery pushes an entry on the CPU's interrupt stack
    ([ski_handle_interrupt_begin]), the return pops it and retires the thread
    ([ski_handle_interrupt_end]).  The theorems give the stack discipline, the
    life cycle of an interrupt thread, and that the scheduler's operations
    preserve the invariant of the thread table. *)

From stdpp Require Import relations.
From S2P Require Import Prelude Liveness LoopTrace Machine Sched.

(** ** Definitions *)

Definition ski_handle_new_irq_set (e : nat) (vector_num : Z) : SCH unit :=
  env <- get_cpu e ;;
  if negb (cpu_ski_active env) then ret tt
  else
    let cpu_no := cpu_index env in
    tc_new <- lift (fun m => ski_threads_find m 0 cpu_no 1 vector_num SKI_TC_STATE_NA) ;;
    match tc_new with
    | None =>
        (* only decides which message is printed *)
        lift (fun m => ski_threads_find m 0 cpu_no 1 vector_num SKI_TC_STATE_COUNT_ZERO) ;;;
        ret tt
    | Some (i, tc) =>
        if tc_count tc <=? 0 then stop HAssert
        else
          mod_thread i (fun tc => set_tc_count (wrap32 (tc_count tc - 1))
            (set_tc_state SKI_TC_STATE_NEEDS_TRIGGER (set_tc_exists 1 tc)))
    end.

Definition ski_handle_cpu_begin (e : nat) : SCH unit :=
  env <- get_cpu e ;;
  let in_hw_int := ski_interrupts_in_hw_int env in
  cur <- current_thread HUndef ;;
  SKI_ASSERT (in_hw_int =? tc_is_int (snd cur)).

(** The loop of [ski_handle_interrupt_begin]: the first free entry. *)
Definition free_entry (stack : list ski_interrupt) : option nat :=
  fst <$> list_find (fun si => si_exists si = 0) stack.

Definition ski_handle_interrupt_begin (e : nat) (int_no is_int_instruction is_hw : Z) : SCH unit :=
  env <- get_cpu e ;;
  match free_entry (sc_interrupts_stack (cpu_ski env)) with
  | Some i =>
      mod_ski e (fun s => set_sc_interrupts_stack_no (wrap32 (sc_interrupts_stack_no s + 1))
        (set_sc_interrupts_stack
           (<[i := mk_si 1 int_no is_int_instruction is_hw]> (sc_interrupts_stack s)) s)) ;;;
      when ((is_int_instruction =? 0) && (is_hw =? 1))
        (tc_ <- lift (fun m => ski_threads_find m 1 (cpu_index env) 1 int_no SKI_TC_STATE_NEEDS_TRIGGER) ;;
         match tc_ with
         | None => stop HAssert
         | Some (j, tc) =>
             SKI_ASSERT (tc_state tc =? SKI_TC_STATE_NEEDS_TRIGGER) ;;;
             mod_thread j (set_tc_state SKI_TC_STATE_RUNNABLE) ;;;
             comment_ (CDispatch (tc_int_no tc) (tc_cpu_no tc)) ;;;
             m <- get ;;
             SKI_ASSERT_MSG
               (match m_threads_current m with
                | Some k => tc_id (m_threads m !!! k) =? tc_id tc
                | None => false
                end) SKI_EXIT_ASSERT_INTERRUPT
         end) ;;;
      need_reevaluate
  | None => SKI_ASSERT false ;;; stop HAssert
  end.

(** The part of [ski_handle_interrupt_end] that retires the interrupt thread. *)
Definition retire_thread (e : nat) (int_no : Z) : SCH unit :=
  env <- get_cpu e ;;
  tc_ <- lift (fun m => ski_threads_find m 1 (cpu_index env) 1 int_no SKI_TC_STATE_RUNNABLE) ;;
  match tc_ with
  | None => stop HAssert
  | Some (j, tc) =>
      mod_thread j (fun tc =>
        set_tc_state (if tc_count tc =? 0 then SKI_TC_STATE_COUNT_ZERO else SKI_TC_STATE_NA)
          (set_tc_exists 0 tc)) ;;;
      when (c_true (sc_wait_for_interrupt (cpu_ski env)))
        (current_thread HAssert ;;;
         comment_ (CWakeInterrupt (cpu_index env) (tc_id tc)) ;;;
         mod_ski e (set_sc_wait_for_interrupt 0)) ;;;
      need_reevaluate
  end.

Definition ski_handle_interrupt_end (e : nat) : SCH unit :=
  env <- get_cpu e ;;
  let n := sc_interrupts_stack_no (cpu_ski env) in
  if n >? 0 then
    let k := Z.to_nat (n - 1) in
    mod_ski e (set_sc_interrupts_stack_no (n - 1)) ;;;
    let si := sc_interrupts_stack (cpu_ski env) !!! k in
    when (c_true (si_is_hw si)) (retire_thread e (si_int_no si)) ;;;
    mod_ski e (fun s => set_sc_interrupts_stack
      (alter (set_si_exists 0) k (sc_interrupts_stack s)) s)
  else SKI_ASSERT false.

(** [ski_set_bit] on the ignore mask. *)
Definition ski_set_bit (tab : list Z) (index : Z) : list Z :=
  alter (fun w => Z.lor w (Z.shiftl 1 (Z.land index 31))) (Z.to_nat (Z.shiftr index 5)) tab.

(** [ski_apic_check_interrupt_set] of hw/apic.c: is the vector in service? *)
Definition get_bit (tab : list Z) (index : Z) : Z :=
  b2z (Z.testbit (tab !!! Z.to_nat (Z.shiftr index 5)) (Z.land index 31)).

Fixpoint irq_set_loop (e : nat) (vectors : list Z) : SCH unit :=
  match vectors with
  | [] => ret tt
  | i :: vectors' =>
      env <- get_cpu e ;;
      when (c_true (get_bit (cpu_apic_isr env) i)) (ski_handle_new_irq_set e i) ;;;
      irq_set_loop e vectors'
  end.

Definition ski_initialize_interrupts (e : nat) : SCH unit :=
  mod_ski e (fun s =>
    set_sc_interrupts_stack_no 0 (set_sc_interrupts_stack (replicate 20 si_zero)
      (set_sc_ignore_interrupts
         (foldl ski_set_bit (replicate 8 0)
            [239; 48; 48; 49; 50; 51; 52; 53; 54; 55; 56; 57; 58; 59; 60; 61; 62; 63]) s))) ;;;
  irq_set_loop e (seqZ 0 255).

(** ** Finding interrupt threads *)

(** The calculated priority of an interrupt thread: no CPU is consulted. *)
Definition int_priority (tc : thread_context) : Z :=
  let p := base_priority tc in
  let p := if c_true (tc_wait_for_rs_on_pause tc) then wrap32 (p + SKI_LIVENESS_PRIORITY_PAUSE) else p in
  if c_true (tc_wait_for_rs tc) then wrap32 (p + SKI_LIVENESS_PRIORITY_NOPAUSE_LOOP) else p.

Lemma find_int_spec m ex cpu int_no mask :
  exists res, ski_threads_find m ex cpu 1 int_no mask = Val res /\
    match res with
    | None => Forall (fun tc => find_matches ex cpu 1 int_no mask tc = false) (live_threads m)
    | Some (i, tc) => selected (fun tc => find_matches ex cpu 1 int_no mask tc = true) int_priority
                        (live_threads m) i tc
    end.
Proof.
  destruct (select_spec (fun tc => Val (find_matches ex cpu 1 int_no mask tc))
    (ski_threads_calculate_priority (m_cpus m))
    (fun tc => find_matches ex cpu 1 int_no mask tc = true) int_priority (live_threads m)) as (res&E&H).
  { apply Forall_forall. intros tc _. eexists. split; [done|]. split; [done|]. intros Hm.
    unfold find_matches in Hm. apply andb_true_iff in Hm as [_ Hm].
    apply andb_true_iff in Hm as [Hm _]. apply andb_true_iff in Hm as [_ Hi].
    unfold ski_threads_calculate_priority, waits_for_interrupt, int_priority.
    replace (tc_is_int tc =? 0) with false by lia. done. }
  exists res. split; [exact E|]. destruct res as [[i tc]|]; [done|].
  eapply Forall_impl; [exact H|]. cbn. intros tc Htc. by destruct (find_matches _ _ _ _ _ tc).
Qed.

Lemma find_matches_true ex cpu is_int int_no mask tc :
  find_matches ex cpu is_int int_no mask tc = true ->
  (ex = -1 \/ tc_exists tc = ex) /\ Z.land mask (tc_state tc) <> 0 /\
  tc_cpu_no tc = cpu /\ tc_is_int tc = is_int /\ tc_int_no tc = int_no.
Proof.
  unfold find_matches. rewrite !andb_true_iff, orb_true_iff, c_true_true, !Z.eqb_eq. tauto.
Qed.

(** ** The invariant of the thread table *)

(** A CPU thread always exists; an interrupt thread is idle with spawns left,
    idle with none left, or spawned (waiting for its trigger or running). *)
Definition thread_ok (tc : thread_context) : Prop :=
  tc_is_int tc = 0 /\ tc_int_no tc < 0 /\ tc_exists tc = 1 /\ tc_state tc = SKI_TC_STATE_RUNNABLE \/
  tc_is_int tc = 1 /\ 0 <= tc_int_no tc /\ 0 <= tc_count tc < 2 ^ 31 /\
  (tc_exists tc = 0 /\ tc_state tc = SKI_TC_STATE_NA /\ 0 < tc_count tc \/
   tc_exists tc = 0 /\ tc_state tc = SKI_TC_STATE_COUNT_ZERO /\ tc_count tc = 0 \/
   tc_exists tc = 1 /\ (tc_state tc = SKI_TC_STATE_NEEDS_TRIGGER \/ tc_state tc = SKI_TC_STATE_RUNNABLE)).

(** The entries below [interrupts_stack_no] are in use, the others free. *)
Definition stack_ok (s : SKICPU) : Prop :=
  length (sc_interrupts_stack s) = 20%nat /\ 0 <= sc_interrupts_stack_no s <= 20 /\
  Forall (fun si => si_exists si = 1) (take (Z.to_nat (sc_interrupts_stack_no s)) (sc_interrupts_stack s)) /\
  Forall (fun si => si_exists si = 0) (drop (Z.to_nat (sc_interrupts_stack_no s)) (sc_interrupts_stack s)).

Definition table_ok (m : machine) : Prop :=
  0 <= m_threads_no m <= Z.of_nat (length (m_threads m)) /\
  Forall thread_ok (live_threads m) /\ Forall (fun c => stack_ok (cpu_ski c)) (m_cpus m).

(** Threads keep their identity: id, CPU, vector and kind never change, and the
    number of spawns left never grows. *)
Definition same_thread (tc tc' : thread_context) : Prop :=
  tc_id tc' = tc_id tc /\ tc_cpu_no tc' = tc_cpu_no tc /\ tc_is_int tc' = tc_is_int tc /\
  tc_int_no tc' = tc_int_no tc /\ tc_count tc' <= tc_count tc.

Definition same_threads (m m' : machine) : Prop :=
  Forall2 same_thread (live_threads m) (live_threads m').

Lemma same_thread_refl tc : same_thread tc tc.
Proof. unfold same_thread. lia. Qed.

Lemma same_threads_refl m : same_threads m m.
Proof.
  unfold same_threads. induction (live_threads m); constructor; [apply same_thread_refl|done].
Qed.

Lemma land_state mask tc :
  thread_ok tc -> Z.land mask (tc_state tc) <> 0 -> tc_is_int tc = 1 ->
  (mask = SKI_TC_STATE_NA -> tc_state tc = SKI_TC_STATE_NA) /\
  (mask = SKI_TC_STATE_NEEDS_TRIGGER -> tc_state tc = SKI_TC_STATE_NEEDS_TRIGGER) /\
  (mask = SKI_TC_STATE_RUNNABLE -> tc_state tc = SKI_TC_STATE_RUNNABLE).
Proof.
  intros Hok Hm Hi. destruct Hok as [(?&_)|(_&_&_&Hs)]; [lia|].
  assert (tc_state tc = SKI_TC_STATE_NA \/ tc_state tc = SKI_TC_STATE_COUNT_ZERO \/
          tc_state tc = SKI_TC_STATE_NEEDS_TRIGGER \/ tc_state tc = SKI_TC_STATE_RUNNABLE) as H by tauto.
  repeat split; intros ->; destruct H as [H|[H|[H|H]]]; rewrite H in *; done.
Qed.

Lemma mod_thread_ok m m' f i :
  live_threads m' = alter f i (live_threads m) -> m_threads_no m' = m_threads_no m ->
  length (m_threads m') = length (m_threads m) -> m_cpus m' = m_cpus m -> table_ok m ->
  (forall tc, live_threads m !! i = Some tc -> thread_ok tc -> thread_ok (f tc) /\ same_thread tc (f tc)) ->
  table_ok m' /\ same_threads m m'.
Proof.
  intros Hl Hn Hlen Hc (Hno&Hth&Hst) Hf. split.
  - split; [by rewrite Hn, Hlen|]. split; [|by rewrite Hc].
    rewrite Hl. apply Forall_alter; [done|]. intros tc Htc Hok. by apply Hf.
  - unfold same_threads. rewrite Hl. apply Forall2_same_length_lookup. rewrite length_alter.
    split; [done|]. intros j x y Hx Hy. destruct (decide (i = j)) as [<-|Hne].
    + rewrite list_lookup_alter_eq, Hx in Hy. injection Hy as <-. apply Hf; [done|].
      by eapply Forall_lookup_1 in Hth.
    + rewrite list_lookup_alter_ne in Hy by done. rewrite Hx in Hy. injection Hy as ->. apply same_thread_refl.
Qed.

Lemma get_cpu_Ret m e c : m_cpus m !! e = Some c -> get_cpu e m = Ret m c.
Proof. intros H. unfold get_cpu. by rewrite (list_lookup_total_correct _ _ _ H). Qed.

(** ** Requests *)

(** An interrupt thread of CPU [cpu] for [vector] that can be spawned. *)
Definition idle (cpu vector : Z) (tc : thread_context) : Prop :=
  tc_exists tc = 0 /\ tc_state tc = SKI_TC_STATE_NA /\ tc_is_int tc = 1 /\
  tc_cpu_no tc = cpu /\ tc_int_no tc = vector.

Definition spawn (tc : thread_context) : thread_context :=
  set_tc_count (tc_count tc - 1) (set_tc_state SKI_TC_STATE_NEEDS_TRIGGER (set_tc_exists 1 tc)).

Lemma idle_matches m cpu vector :
  Forall thread_ok (live_threads m) -> forall tc, tc ∈ live_threads m ->
  find_matches 0 cpu 1 vector SKI_TC_STATE_NA tc = true <-> idle cpu vector tc.
Proof.
  intros Hok tc Htc. split.
  - intros (H1&H2&H3&H4&H5)%find_matches_true. eapply Forall_forall in Hok; [|done].
    destruct (land_state _ _ Hok H2 H4) as (Hs&_). split; [lia|]. split; [by apply Hs|done].
  - intros (H1&H2&H3&H4&H5). unfold find_matches. rewrite H1, H2, H3, H4, H5, !Z.eqb_refl. done.
Qed.

(** A request spawns the idle thread of least priority for its vector, or is
    dropped when there is none; it never fails. *)
Lemma irq_set_spec m e c vector :
  table_ok m -> m_cpus m !! e = Some c -> cpu_ski_active c = true ->
  (ski_handle_new_irq_set e vector m = Ret m tt /\
     forall tc, tc ∈ live_threads m -> ~ idle (cpu_index c) vector tc) \/
  (exists i tc, selected (idle (cpu_index c) vector) int_priority (live_threads m) i tc /\
     ski_handle_new_irq_set e vector m = Ret (set_m_threads (alter spawn i (m_threads m)) m) tt).
Proof.
  intros (Hno&Hth&Hst) Hc Ha. unfold ski_handle_new_irq_set.
  erewrite bind_Ret by (by apply get_cpu_Ret). rewrite Ha. cbn [negb].
  destruct (find_int_spec m 0 (cpu_index c) vector SKI_TC_STATE_NA) as ([[i tc]|]&E&H).
  - right. exists i, tc. erewrite bind_Ret by (by apply lift_Val).
    assert (selected (idle (cpu_index c) vector) int_priority (live_threads m) i tc) as Hs.
    { eapply selected_ext; [| |exact H]; [|done]. by apply idle_matches. }
    split; [done|]. pose proof Hs as (Hi&(H1&H2&H3&_)&_).
    eapply Forall_lookup_1 in Hth; [|exact Hi].
    assert (0 < tc_count tc < 2 ^ 31) as Hcnt.
    { destruct Hth as [(?&_)|(_&_&?&[(_&_&?)|[(_&Hs'&_)|(?&_)]])]; try lia. by rewrite H2 in Hs'. }
    zbool. unfold mod_thread, modify. do 2 f_equal. unfold live_threads in Hi.
    apply lookup_take_Some in Hi as [Hi _].
    apply list_eq. intros j. destruct (decide (i = j)) as [<-|Hne].
    + rewrite !list_lookup_alter_eq, Hi. cbn. unfold spawn. by rewrite wrap32_id by (unfold in_int; lia).
    + by rewrite !list_lookup_alter_ne.
  - left. erewrite bind_Ret by (by apply lift_Val).
    destruct (find_int_spec m 0 (cpu_index c) vector SKI_TC_STATE_COUNT_ZERO) as (r&E2&_).
    erewrite bind_Ret by (by apply lift_Val). split; [done|].
    intros tc Htc Hidle. apply (idle_matches m) in Hidle; [|done|done].
    eapply Forall_forall in H; [|done]. cbn in H. congruence.
Qed.

Lemma spawn_ok tc : idle (tc_cpu_no tc) (tc_int_no tc) tc -> thread_ok tc ->
  thread_ok (spawn tc) /\ same_thread tc (spawn tc).
Proof.
  intros (H1&H2&H3&_) [(?&_)|(_&?&?&[(_&_&?)|[(_&Hs'&_)|(?&_)]])]; try lia.
  - split; [right|]; cbn; [|split; [done|]; cbn; lia].
    split; [done|]. split; [done|]. split; [lia|]. right; right. split; [done|by left].
  - by rewrite H2 in Hs'.
Qed.

Lemma irq_set_ok m e c vector :
  table_ok m -> m_cpus m !! e = Some c ->
  exists m', ski_handle_new_irq_set e vector m = Ret m' tt /\ table_ok m' /\ same_threads m m' /\
    m_cpus m' = m_cpus m /\ m_threads_current m' = m_threads_current m /\ m_trace m' = m_trace m.
Proof.
  intros Hok Hc. destruct (cpu_ski_active c) eqn:Ha.
  2:{ exists m. unfold ski_handle_new_irq_set. erewrite bind_Ret by (by apply get_cpu_Ret). rewrite Ha.
      split; [done|]. split; [done|]. split; [apply same_threads_refl|done]. }
  destruct (irq_set_spec m e c vector Hok Hc Ha) as [[-> _]|(i&tc&(Hi&Hid&_)&->)].
  - exists m. split; [done|]. split; [done|]. split; [apply same_threads_refl|done].
  - eexists. split; [done|].
    destruct (mod_thread_ok m (set_m_threads (alter spawn i (m_threads m)) m) spawn i) as [H1 H2];
      try done.
    + apply take_alter_comm.
    + cbn. by rewrite length_alter.
    + intros t Ht Htok. rewrite Hi in Ht. injection Ht as <-. apply spawn_ok; [|done].
      by destruct Hid as (?&?&?&_&_).
Qed.

(** ** The interrupt stack *)

Lemma free_entry_stack s :
  stack_ok s -> free_entry (sc_interrupts_stack s) =
    if sc_interrupts_stack_no s <? 20 then Some (Z.to_nat (sc_interrupts_stack_no s)) else None.
Proof.
  intros (Hlen&Hno&Ht&Hd). unfold free_entry. set (n := Z.to_nat (sc_interrupts_stack_no s)) in *.
  destruct (sc_interrupts_stack_no s <? 20) eqn:E.
  - assert (n < length (sc_interrupts_stack s))%nat as Hlt by lia.
    destruct (lookup_lt_is_Some_2 _ _ Hlt) as [x Hx].
    replace (list_find (fun si => si_exists si = 0) (sc_interrupts_stack s)) with (Some (n, x)); [done|].
    symmetry. apply list_find_Some. split; [done|]. split.
    + rewrite <- (take_drop_middle _ _ _ Hx) in Hd at 1.
      eapply Forall_lookup_1 in Hd; [exact Hd|]. rewrite lookup_drop, Nat.add_0_r.
      rewrite lookup_app_r; rewrite length_take; [|lia].
      by replace (n - n `min` length (sc_interrupts_stack s))%nat with 0%nat by lia.
    + intros j y Hy Hj H0. assert (si_exists y = 1); [|lia].
      eapply Forall_lookup_1 in Ht; [exact Ht|]. by rewrite lookup_take_lt.
  - replace (list_find (fun si => si_exists si = 0) (sc_interrupts_stack s)) with (@None (nat * ski_interrupt));
      [done|]. symmetry. apply list_find_None.
    rewrite take_ge in Ht by lia. eapply Forall_impl; [exact Ht|]. cbn. intros. lia.
Qed.

(** The pending interrupts of a CPU, outermost first. *)
Definition pending (s : SKICPU) : list ski_interrupt :=
  take (Z.to_nat (sc_interrupts_stack_no s)) (sc_interrupts_stack s).

Definition pushed (si : ski_interrupt) (s : SKICPU) : SKICPU :=
  set_sc_interrupts_stack_no (sc_interrupts_stack_no s + 1)
    (set_sc_interrupts_stack (<[Z.to_nat (sc_interrupts_stack_no s) := si]> (sc_interrupts_stack s)) s).

Definition popped (s : SKICPU) : SKICPU :=
  set_sc_interrupts_stack_no (sc_interrupts_stack_no s - 1)
    (set_sc_interrupts_stack
       (alter (set_si_exists 0) (Z.to_nat (sc_interrupts_stack_no s - 1)) (sc_interrupts_stack s)) s).

Lemma pushed_ok si s :
  stack_ok s -> sc_interrupts_stack_no s < 20 -> si_exists si = 1 ->
  stack_ok (pushed si s) /\ pending (pushed si s) = pending s ++ [si].
Proof.
  intros (Hlen&Hno&Ht&Hd) Hlt Hsi. unfold pushed, pending, stack_ok. cbn -[take drop].
  set (n := Z.to_nat (sc_interrupts_stack_no s)) in *.
  replace (Z.to_nat (sc_interrupts_stack_no s + 1)) with (S n) by lia.
  assert (take (S n) (<[n:=si]> (sc_interrupts_stack s)) = take n (sc_interrupts_stack s) ++ [si]) as Htk.
  { rewrite (take_S_r _ _ si); [by rewrite take_insert_ge|]. apply list_lookup_insert_eq. lia. }
  rewrite Htk, length_insert, drop_insert_lt by lia. repeat split; try done; try lia.
  - apply Forall_app. split; [done|]. by repeat constructor.
  - replace (S n) with (n + 1)%nat by lia. rewrite <- drop_drop. by apply Forall_drop.
Qed.

Lemma popped_ok s :
  stack_ok s -> 0 < sc_interrupts_stack_no s ->
  stack_ok (popped s) /\ exists si, si = sc_interrupts_stack s !!! Z.to_nat (sc_interrupts_stack_no s - 1) /\
    pending s = pending (popped s) ++ [si].
Proof.
  intros (Hlen&Hno&Ht&Hd) Hlt. unfold popped, pending, stack_ok. cbn -[take drop].
  set (n := Z.to_nat (sc_interrupts_stack_no s - 1)).
  replace (Z.to_nat (sc_interrupts_stack_no s)) with (S n) in * by lia.
  destruct (lookup_lt_is_Some_2 (sc_interrupts_stack s) n) as [x Hx]; [lia|].
  rewrite (take_S_r _ _ _ Hx) in Ht |- *. apply Forall_app in Ht as [Ht _].
  rewrite length_alter, take_alter_ge by lia. repeat split; try done; try lia.
  - rewrite (drop_S _ (set_si_exists 0 x)) by (by rewrite list_lookup_alter_eq, Hx).
    constructor; [done|]. rewrite drop_alter_lt by lia. done.
  - exists x. split; [|done]. symmetry. by apply list_lookup_total_correct.
Qed.

(** ** Delivery and return *)

Definition mod_ski_at (e : nat) (f : SKICPU -> SKICPU) (m : machine) : machine :=
  set_m_cpus (alter (fun c => set_cpu_ski (f (cpu_ski c)) c) e (m_cpus m)) m.

(** An interrupt thread of [cpu] for [int_no] in state [st] that was spawned. *)
Definition spawned (cpu int_no st : Z) (tc : thread_context) : Prop :=
  tc_exists tc = 1 /\ tc_state tc = st /\ tc_is_int tc = 1 /\ tc_cpu_no tc = cpu /\ tc_int_no tc = int_no.

Lemma spawned_matches m cpu int_no st :
  st = SKI_TC_STATE_NEEDS_TRIGGER \/ st = SKI_TC_STATE_RUNNABLE ->
  Forall thread_ok (live_threads m) -> forall tc, tc ∈ live_threads m ->
  find_matches 1 cpu 1 int_no st tc = true <-> spawned cpu int_no st tc.
Proof.
  intros Hst Hok tc Htc. split.
  - intros (H1&H2&H3&H4&H5)%find_matches_true. eapply Forall_forall in Hok; [|done].
    destruct (land_state _ _ Hok H2 H4) as (_&Hs1&Hs2). split; [lia|].
    split; [destruct Hst as [->| ->]; auto|done].
  - intros (H1&H2&H3&H4&H5). unfold find_matches. rewrite H1, H2, H3, H4, H5, !Z.eqb_refl.
    by destruct Hst as [->| ->].
Qed.

Lemma find_spawned m cpu int_no st :
  st = SKI_TC_STATE_NEEDS_TRIGGER \/ st = SKI_TC_STATE_RUNNABLE ->
  Forall thread_ok (live_threads m) ->
  (exists j tc, ski_threads_find m 1 cpu 1 int_no st = Val (Some (j, tc)) /\
     selected (spawned cpu int_no st) int_priority (live_threads m) j tc) \/
  (ski_threads_find m 1 cpu 1 int_no st = Val None /\
     forall tc, tc ∈ live_threads m -> ~ spawned cpu int_no st tc).
Proof.
  intros Hst Hok. destruct (find_int_spec m 1 cpu int_no st) as ([[j tc]|]&E&H).
  - left. exists j, tc. split; [done|]. eapply selected_ext; [| |exact H]; [|done].
    by apply spawned_matches.
  - right. split; [done|]. intros tc Htc Hs. apply (spawned_matches m) in Hs; [|done|done|done].
    eapply Forall_forall in H; [|done]. cbn in H. congruence.
Qed.

Lemma SKI_ASSERT_true m : SKI_ASSERT true m = Ret m tt.
Proof. done. Qed.

Lemma wrap_stack_no s : stack_ok s -> wrap32 (sc_interrupts_stack_no s + 1) = sc_interrupts_stack_no s + 1.
Proof. intros (_&H&_). apply wrap32_id. unfold in_int. lia. Qed.

Lemma push_step m e c int_no ii hw :
  table_ok m -> m_cpus m !! e = Some c -> sc_interrupts_stack_no (cpu_ski c) < 20 ->
  alter (fun c0 => set_cpu_ski (set_sc_interrupts_stack_no (wrap32 (sc_interrupts_stack_no (cpu_ski c0) + 1))
     (set_sc_interrupts_stack (<[Z.to_nat (sc_interrupts_stack_no (cpu_ski c)):=mk_si 1 int_no ii hw]>
        (sc_interrupts_stack (cpu_ski c0))) (cpu_ski c0))) c0) e (m_cpus m) =
  alter (fun c0 => set_cpu_ski (pushed (mk_si 1 int_no ii hw) (cpu_ski c0)) c0) e (m_cpus m).
Proof.
  intros (_&_&Hst) Hc Hlt. apply list_eq. intros j. destruct (decide (e = j)) as [<-|Hne].
  - rewrite !list_lookup_alter_eq, Hc. cbn. unfold pushed.
    eapply Forall_lookup_1 in Hst; [|done]. by rewrite wrap_stack_no.
  - by rewrite !list_lookup_alter_ne.
Qed.

(** Delivery of a software interrupt. *)
Lemma begin_sw m e c int_no ii hw :
  table_ok m -> m_cpus m !! e = Some c -> sc_interrupts_stack_no (cpu_ski c) < 20 ->
  ii <> 0 \/ hw <> 1 ->
  ski_handle_interrupt_begin e int_no ii hw m =
  Ret (set_m_need_reevaluate 1 (mod_ski_at e (pushed (mk_si 1 int_no ii hw)) m)) tt.
Proof.
  intros Hok Hc Hlt Hk. unfold ski_handle_interrupt_begin.
  erewrite bind_Ret by (by apply get_cpu_Ret).
  pose proof Hok as (_&_&Hst). eapply Forall_lookup_1 in Hst; [|exact Hc].
  rewrite (free_entry_stack _ Hst). zbool. erewrite bind_Ret by done.
  replace ((ii =? 0) && (hw =? 1)) with false by (symmetry; apply andb_false_iff; lia).
  unfold bind, when, ret, need_reevaluate, modify, mod_ski_at. by rewrite (push_step m e c) by done.
Qed.

(** Delivery of a hardware interrupt to the scheduled interrupt thread. *)
Lemma begin_hw m e c int_no j tc k :
  table_ok m -> trace_ok (m_trace m) -> m_cpus m !! e = Some c -> sc_interrupts_stack_no (cpu_ski c) < 20 ->
  selected (spawned (cpu_index c) int_no SKI_TC_STATE_NEEDS_TRIGGER) int_priority (live_threads m) j tc ->
  m_threads_current m = Some k -> (k < length (m_threads m))%nat -> tc_id (m_threads m !!! k) = tc_id tc ->
  exists t, trace_ok t /\
    ski_handle_interrupt_begin e int_no 0 1 m =
    Ret (set_m_need_reevaluate 1 (set_m_trace t (set_m_threads
           (alter (set_tc_state SKI_TC_STATE_RUNNABLE) j (m_threads m))
           (mod_ski_at e (pushed (mk_si 1 int_no 0 1)) m)))) tt.
Proof.
  intros Hok Ht Hc Hlt Hs Hcur Hk Hid. unfold ski_handle_interrupt_begin.
  erewrite bind_Ret by (by apply get_cpu_Ret).
  pose proof Hok as (_&Hth&Hst). eapply Forall_lookup_1 in Hst; [|exact Hc].
  rewrite (free_entry_stack _ Hst). zbool. erewrite bind_Ret by done. cbn [when Z.eqb Pos.eqb andb].
  rewrite (push_step m e c) by done.
  fold (mod_ski_at e (pushed (mk_si 1 int_no 0 1)) m). set (m1 := mod_ski_at _ _ m).
  assert (lift (fun m0 => ski_threads_find m0 1 (cpu_index c) 1 int_no SKI_TC_STATE_NEEDS_TRIGGER) m1 =
    Ret m1 (Some (j, tc))) as Hf.
  { apply lift_Val. destruct (find_spawned m1 (cpu_index c) int_no SKI_TC_STATE_NEEDS_TRIGGER)
      as [(j'&tc'&->&Hs')|(_&Hn)]; [by left|done| |].
    - by destruct (selected_unique _ _ _ _ _ _ _ Hs Hs') as [-> ->].
    - destruct Hs as (Hj&Hsp&_). destruct (Hn tc); [by eapply list_elem_of_lookup_2|done]. }
  assert (tc_state tc = SKI_TC_STATE_NEEDS_TRIGGER) as Hst' by apply Hs.
  edestruct (comment_Ret (CDispatch (tc_int_no tc) (tc_cpu_no tc))
    (set_m_threads (alter (set_tc_state SKI_TC_STATE_RUNNABLE) j (m_threads m1)) m1)) as (t&E&Ht'); [exact Ht|].
  exists t. split; [done|]. unfold bind at 1. rewrite (bind_Ret _ _ _ _ _ Hf).
  rewrite Hst', Z.eqb_refl. erewrite bind_Ret by done. erewrite bind_Ret by done.
  erewrite bind_Ret by exact E. unfold bind, get, SKI_ASSERT_MSG. cbn. rewrite Hcur.
  assert (tc_id (alter (set_tc_state SKI_TC_STATE_RUNNABLE) j (m_threads m) !!! k) = tc_id tc) as ->.
  { rewrite <- Hid. destruct (decide (j = k)) as [->|Hne].
    - destruct (lookup_lt_is_Some_2 _ _ Hk) as [x Hx].
      rewrite (list_lookup_total_correct _ _ _ Hx).
      erewrite list_lookup_total_correct by (rewrite list_lookup_alter_eq, Hx; reflexivity). done.
    - by rewrite list_lookup_total_alter_ne. }
  by rewrite Z.eqb_refl.
Qed.

Definition retire (tc : thread_context) : thread_context :=
  set_tc_state (if tc_count tc =? 0 then SKI_TC_STATE_COUNT_ZERO else SKI_TC_STATE_NA) (set_tc_exists 0 tc).

Lemma mod_ski_at_ext e f g m c :
  m_cpus m !! e = Some c -> f (cpu_ski c) = g (cpu_ski c) -> mod_ski_at e f m = mod_ski_at e g m.
Proof.
  intros Hc Hfg. unfold mod_ski_at. f_equal. apply list_eq. intros j.
  destruct (decide (e = j)) as [<-|Hne].
  - rewrite !list_lookup_alter_eq, Hc. cbn. by rewrite Hfg.
  - by rewrite !list_lookup_alter_ne.
Qed.

Lemma mod_ski_at_twice e f g m : mod_ski_at e f (mod_ski_at e g m) = mod_ski_at e (f ∘ g) m.
Proof. unfold mod_ski_at. cbn. by rewrite alter_alter. Qed.

Lemma mod_ski_at_id e f m c :
  m_cpus m !! e = Some c -> f (cpu_ski c) = cpu_ski c -> mod_ski_at e f m = m.
Proof.
  intros Hc Hf. rewrite (mod_ski_at_ext e f id m c Hc Hf). unfold mod_ski_at.
  replace (alter _ e (m_cpus m)) with (m_cpus m); [by destruct m|]. symmetry.
  apply list_eq. intros j. destruct (decide (e = j)) as [<-|Hne].
  - rewrite list_lookup_alter_eq, Hc. cbn. by destruct c.
  - by rewrite list_lookup_alter_ne.
Qed.

Lemma mod_ski_at_lookup e f m c :
  m_cpus m !! e = Some c -> m_cpus (mod_ski_at e f m) !! e = Some (set_cpu_ski (f (cpu_ski c)) c).
Proof. intros H. cbn. by rewrite list_lookup_alter_eq, H. Qed.

(** Return from a software interrupt. *)
Lemma end_sw m e c :
  table_ok m -> m_cpus m !! e = Some c -> 0 < sc_interrupts_stack_no (cpu_ski c) ->
  si_is_hw (sc_interrupts_stack (cpu_ski c) !!! Z.to_nat (sc_interrupts_stack_no (cpu_ski c) - 1)) = 0 ->
  ski_handle_interrupt_end e m = Ret (mod_ski_at e popped m) tt.
Proof.
  intros Hok Hc Hlt Hhw. unfold ski_handle_interrupt_end.
  erewrite bind_Ret by (by apply get_cpu_Ret). zbool. erewrite bind_Ret by done.
  rewrite Hhw. erewrite bind_Ret by done. unfold mod_ski, mod_cpu, modify.
  match goal with |- Ret ?x _ = _ => transitivity (Ret (mod_ski_at e (fun s => set_sc_interrupts_stack
      (alter (set_si_exists 0) (Z.to_nat (sc_interrupts_stack_no (cpu_ski c) - 1)) (sc_interrupts_stack s)) s)
      (mod_ski_at e (set_sc_interrupts_stack_no (sc_interrupts_stack_no (cpu_ski c) - 1)) m)) tt); [done|] end.
  f_equal. rewrite mod_ski_at_twice. by eapply mod_ski_at_ext.
Qed.

(** Return from a hardware interrupt: its thread is retired. *)
Lemma end_hw m e c int_no j tc :
  table_ok m -> trace_ok (m_trace m) -> m_cpus m !! e = Some c -> 0 < sc_interrupts_stack_no (cpu_ski c) ->
  sc_interrupts_stack (cpu_ski c) !!! Z.to_nat (sc_interrupts_stack_no (cpu_ski c) - 1) = mk_si 1 int_no 0 1 ->
  is_Some (m_threads_current m) ->
  selected (spawned (cpu_index c) int_no SKI_TC_STATE_RUNNABLE) int_priority (live_threads m) j tc ->
  exists t, trace_ok t /\
    ski_handle_interrupt_end e m =
    Ret (set_m_need_reevaluate 1 (set_m_trace t (set_m_threads (alter retire j (m_threads m))
           (mod_ski_at e (set_sc_wait_for_interrupt 0 ∘ popped) m)))) tt.
Proof.
  intros Hok Ht Hc Hlt Hsi [k Hcur] Hs. unfold ski_handle_interrupt_end.
  erewrite bind_Ret by (by apply get_cpu_Ret). zbool. erewrite bind_Ret by done.
  rewrite Hsi. cbn [si_is_hw si_int_no c_true Z.eqb negb when].
  set (no := sc_interrupts_stack_no (cpu_ski c)) in *.
  change (set_m_cpus _ m) with (mod_ski_at e (set_sc_interrupts_stack_no (no - 1)) m).
  set (m1 := mod_ski_at e (set_sc_interrupts_stack_no (no - 1)) m).
  pose proof (mod_ski_at_lookup e (set_sc_interrupts_stack_no (no - 1)) m c Hc) as Hc1. fold m1 in Hc1.
  set (c1 := set_cpu_ski _ c) in Hc1.
  assert (lift (fun m0 => ski_threads_find m0 1 (cpu_index c1) 1 int_no SKI_TC_STATE_RUNNABLE) m1 =
    Ret m1 (Some (j, tc))) as Hf.
  { apply lift_Val. change (cpu_index c1) with (cpu_index c).
    destruct (find_spawned m1 (cpu_index c) int_no SKI_TC_STATE_RUNNABLE)
      as [(j'&tc'&->&Hs')|(_&Hn)]; [by right|apply Hok| |].
    - by destruct (selected_unique _ _ _ _ _ _ _ Hs Hs') as [-> ->].
    - destruct Hs as (Hj&Hsp&_). destruct (Hn tc); [by eapply list_elem_of_lookup_2|done]. }
  set (m2 := set_m_threads (alter retire j (m_threads m1)) m1).
  assert (exists t, trace_ok t /\ retire_thread e int_no m1 =
    Ret (set_m_need_reevaluate 1 (set_m_trace t (mod_ski_at e (set_sc_wait_for_interrupt 0) m2))) tt)
    as (t&Ht'&E).
  { unfold retire_thread. rewrite (bind_Ret _ _ _ _ _ (get_cpu_Ret _ _ _ Hc1)).
    rewrite (bind_Ret _ _ _ _ _ Hf).
    match goal with |- context [bind ?x ?y m1] =>
      change (bind x y m1) with (y tt m2); cbn beta end.
    change (sc_wait_for_interrupt (cpu_ski c1)) with (sc_wait_for_interrupt (cpu_ski c)).
    fold m2. destruct (c_true (sc_wait_for_interrupt (cpu_ski c))) eqn:Ew; cbn [when].
    - edestruct (comment_Ret (CWakeInterrupt (cpu_index c1) (tc_id tc)) m2) as (t&E&Ht'); [exact Ht|].
      exists t. split; [done|]. unfold bind, current_thread. cbn [m_threads_current m2].
      change (m_threads_current m2) with (m_threads_current m). rewrite Hcur.
      change (mod_thread j _ m1) with (Ret (S := machine) m2 tt). by rewrite E.
    - apply c_true_false in Ew. exists (m_trace m). split; [done|].
      unfold bind, ret, need_reevaluate, modify.
      rewrite (mod_ski_at_id e _ m2 c1 Hc1) by (cbn; rewrite <- Ew; by destruct (cpu_ski c)).
      by destruct m. }
  erewrite bind_Ret by exact E. exists t. split; [done|]. unfold mod_ski, mod_cpu, modify.
  match goal with |- Ret ?x _ = _ => transitivity (Ret (set_m_need_reevaluate 1 (set_m_trace t
      (mod_ski_at e (fun s => set_sc_interrupts_stack
        (alter (set_si_exists 0) (Z.to_nat (no - 1)) (sc_interrupts_stack s)) s)
        (mod_ski_at e (set_sc_wait_for_interrupt 0) m2)))) tt); [done|] end.
  rewrite mod_ski_at_twice. do 3 f_equal. unfold m2, m1.
  transitivity (set_m_threads (alter retire j (m_threads m)) (mod_ski_at e (fun s =>
    set_sc_interrupts_stack (alter (set_si_exists 0) (Z.to_nat (no - 1)) (sc_interrupts_stack s)) s)
    (mod_ski_at e (set_sc_wait_for_interrupt 0 ∘ set_sc_interrupts_stack_no (no - 1)) m))).
  - unfold mod_ski_at. cbn. by rewrite !alter_alter.
  - rewrite mod_ski_at_twice. f_equal. by eapply mod_ski_at_ext.
Qed.

(** ** Operations that leave the table's invariant alone *)

(** Same interrupt stack, same thread identities and life-cycle states. *)
Definition frame_thread (tc tc' : thread_context) : Prop :=
  tc_exists tc' = tc_exists tc /\ tc_id tc' = tc_id tc /\ tc_cpu_no tc' = tc_cpu_no tc /\
  tc_is_int tc' = tc_is_int tc /\ tc_int_no tc' = tc_int_no tc /\ tc_count tc' = tc_count tc /\
  tc_state tc' = tc_state tc.

Definition frame_ski (s s' : SKICPU) : Prop :=
  sc_interrupts_stack s' = sc_interrupts_stack s /\ sc_interrupts_stack_no s' = sc_interrupts_stack_no s.

Record frame (m m' : machine) : Prop := {
  fr_no : m_threads_no m' = m_threads_no m;
  fr_threads : Forall2 frame_thread (m_threads m) (m_threads m');
  fr_cpus : Forall2 (fun c c' => frame_ski (cpu_ski c) (cpu_ski c')) (m_cpus m) (m_cpus m')
}.

Lemma Forall2_refl_all {A} (P : A -> A -> Prop) l : (forall x, P x x) -> Forall2 P l l.
Proof. intros H. induction l; by constructor. Qed.

Lemma Forall2_trans_all {A} (P : A -> A -> Prop) l1 l2 l3 :
  (forall x y z, P x y -> P y z -> P x z) -> Forall2 P l1 l2 -> Forall2 P l2 l3 -> Forall2 P l1 l3.
Proof.
  intros HP H. revert l3. induction H as [|x y l1 l2 Hxy _ IH]; intros l3 H3; inversion H3; subst; constructor; eauto.
Qed.

Lemma Forall2_alter_r {A} (P : A -> A -> Prop) f i l :
  (forall x, P x x) -> (forall x, P x (f x)) -> Forall2 P l (alter f i l).
Proof.
  intros H Hf. apply Forall2_same_length_lookup. rewrite length_alter. split; [done|].
  intros j x y Hx Hy. destruct (decide (i = j)) as [<-|Hne].
  - rewrite list_lookup_alter_eq, Hx in Hy. injection Hy as <-. done.
  - rewrite list_lookup_alter_ne in Hy by done. rewrite Hx in Hy. by injection Hy as ->.
Qed.

Lemma frame_thread_refl tc : frame_thread tc tc.
Proof. by repeat split. Qed.

Lemma frame_refl m : frame m m.
Proof. split; [done|apply Forall2_refl_all; intros; apply frame_thread_refl|by apply Forall2_refl_all]. Qed.

Lemma frame_trans m1 m2 m3 : frame m1 m2 -> frame m2 m3 -> frame m1 m3.
Proof.
  intros [H1 H2 H3] [K1 K2 K3]. split; [congruence|..].
  - eapply Forall2_trans_all; [|exact H2|exact K2]. unfold frame_thread. intuition congruence.
  - eapply Forall2_trans_all; [|exact H3|exact K3]. unfold frame_ski. intuition congruence.
Qed.

(** The final state of a computation, however it ends. *)
Definition final {S A} (r : R S A) : S := match r with Ret s _ | Jump s | Halt s _ => s end.

Definition frames {A} (op : SCH A) : Prop := forall m, frame m (final (op m)).

Lemma frames_bind {A B} (op : SCH A) (k : A -> SCH B) :
  frames op -> (forall a, frames (k a)) -> frames (bind op k).
Proof.
  intros H1 H2 m. unfold bind. specialize (H1 m). destruct (op m) as [m1 a|m1|m1 h]; cbn in *; try done.
  eapply frame_trans; [done|apply H2].
Qed.

Lemma frames_same {A} (op : SCH A) : (forall m, final (op m) = m) -> frames op.
Proof. intros H m. rewrite H. apply frame_refl. Qed.

Lemma frames_ret {A} (a : A) : frames (ret a).
Proof. by apply frames_same. Qed.
Lemma frames_get : frames get.
Proof. by apply frames_same. Qed.
Lemma frames_get_cpu e : frames (get_cpu e).
Proof. by apply frames_same. Qed.
Lemma frames_stop {A} h : frames (A := A) (stop h).
Proof. by apply frames_same. Qed.
Lemma frames_assert b : frames (assert_ b).
Proof. apply frames_same. intros m. by destruct b. Qed.
Lemma frames_lift {A} (f : machine -> E A) : frames (lift f).
Proof. apply frames_same. intros m. unfold lift. by destruct (f m). Qed.
Lemma frames_current h : frames (current_thread h).
Proof. apply frames_same. intros m. unfold current_thread. by destruct (m_threads_current m). Qed.
Lemma frames_when b (op : SCH unit) : frames op -> frames (when b op).
Proof. destruct b; [done|]. intros _. apply frames_ret. Qed.
Lemma frames_if {A} (b : bool) (op1 op2 : SCH A) : frames op1 -> frames op2 -> frames (if b then op1 else op2).
Proof. by destruct b. Qed.

(** Updates of fields the frame does not mention. *)
Lemma frames_modify f :
  (forall m, m_threads_no (f m) = m_threads_no m /\ m_threads (f m) = m_threads m /\ m_cpus (f m) = m_cpus m) ->
  frames (modify f).
Proof.
  intros H m. destruct (H m) as (H1&H2&H3). split; cbn; rewrite ?H1, ?H2, ?H3; [done|..].
  - apply Forall2_refl_all. intros. apply frame_thread_refl.
  - by apply Forall2_refl_all.
Qed.

Lemma frames_on_trace {A} (t : M trace_state A) : frames (on_trace t).
Proof.
  intros m. unfold on_trace. destruct (t (m_trace m)); cbn; (split; cbn; [done|..];
    [apply Forall2_refl_all; intros; apply frame_thread_refl|by apply Forall2_refl_all]).
Qed.

Lemma frames_mod_thread i f : (forall tc, frame_thread tc (f tc)) -> frames (mod_thread i f).
Proof.
  intros H m. split; cbn; [done|..].
  - apply Forall2_alter_r; [apply frame_thread_refl|done].
  - by apply Forall2_refl_all.
Qed.

Lemma frames_mod_cpu e f : (forall c, frame_ski (cpu_ski c) (cpu_ski (f c))) -> frames (mod_cpu e f).
Proof.
  intros H m. split; cbn; [done|..].
  - apply Forall2_refl_all, frame_thread_refl.
  - by apply Forall2_alter_r.
Qed.

Create HintDb frames.
#[export] Hint Resolve frames_ret frames_get frames_get_cpu frames_stop frames_assert frames_lift frames_current
  frames_on_trace frames_when : frames.

(** Walks through an operation. *)
Ltac frames_step :=
  match goal with
  | |- frames (bind _ _) => apply frames_bind; [|intros ?]
  | |- frames (if _ then _ else _) => apply frames_if
  | |- frames (when _ _) => apply frames_when
  | |- frames (comment_ _) => apply frames_on_trace
  | |- frames (modify _) => apply frames_modify; by intros ?
  | |- frames (mod_thread _ _) => apply frames_mod_thread; by intros ?
  | |- frames (mod_ski _ _) => apply frames_mod_cpu; by intros ?
  | |- frames (mod_cpu _ _) => apply frames_mod_cpu; by intros ?
  | |- frames (match ?x with _ => _ end) => destruct x
  | |- frames _ => solve [auto with frames]
  end.
Ltac frames_auto := repeat frames_step.

Lemma frames_heuristics k eip c n : frames (ski_heuristics_statistics_print k eip c n).
Proof. unfold ski_heuristics_statistics_print, log_event. frames_auto. Qed.
#[export] Hint Resolve frames_heuristics : frames.

Lemma frames_need_reevaluate : frames need_reevaluate.
Proof. unfold need_reevaluate. frames_auto. Qed.
#[export] Hint Resolve frames_need_reevaluate : frames.

Lemma frames_adjust e : frames (ski_threads_adjust_priority_current e).
Proof. unfold ski_threads_adjust_priority_current, SKI_ASSERT_MSG. frames_auto. Qed.

Lemma frames_wake_loop a idx found : frames (wake_loop a idx found).
Proof. revert found. induction idx as [|i idx IH]; intros found; cbn [wake_loop]; frames_auto; apply IH. Qed.

Lemma frames_wake a : frames (ski_threads_all_wake_rs a).
Proof. unfold ski_threads_all_wake_rs. frames_step; [frames_auto|]. frames_step; [apply frames_wake_loop|frames_auto]. Qed.

Lemma frames_wait_rs e p : frames (ski_threads_self_wait_rs e p).
Proof. unfold ski_threads_self_wait_rs. destruct p; frames_auto. Qed.

Lemma frames_wait_hlt e : frames (ski_threads_self_wait_hlt e).
Proof. unfold ski_threads_self_wait_hlt. frames_auto. Qed.

Lemma frames_invert e : frames (ski_threads_invert_priority e).
Proof. unfold ski_threads_invert_priority. frames_auto. Qed.

Lemma frames_preemption k : frames (ski_preemption_get_and_clear_lowest k).
Proof. unfold ski_preemption_get_and_clear_lowest. frames_auto. Qed.

Lemma frames_can_run e : frames (ski_cpu_can_run e).
Proof. unfold ski_cpu_can_run, switch_to. frames_auto. Qed.

Lemma frame_live m m' : frame m m' -> Forall2 frame_thread (live_threads m) (live_threads m').
Proof. intros [H1 H2 _]. unfold live_threads. rewrite H1. by apply Forall2_take. Qed.

Lemma frame_table m m' : frame m m' -> table_ok m -> table_ok m' /\ same_threads m m'.
Proof.
  intros Hf (Hno&Hth&Hst). pose proof (frame_live _ _ Hf) as Hl. destruct Hf as [F1 F2 F3].
  split; [|eapply Forall2_impl; [exact Hl|]; unfold frame_thread, same_thread; intuition lia].
  split; [rewrite F1; by rewrite <- (Forall2_length _ _ _ F2)|]. split.
  - apply Forall_forall. intros tc' Htc'. apply list_elem_of_lookup in Htc' as [i Hi].
    destruct (Forall2_lookup_r _ _ _ _ _ Hl Hi) as (tc&Htc&E1&E2&E3&E4&E5&E6&E7).
    eapply Forall_lookup_1 in Hth; [|exact Htc]. unfold thread_ok in *. by rewrite E1, E4, E5, E6, E7.
  - apply Forall_forall. intros c' Hc'. apply list_elem_of_lookup in Hc' as [i Hi].
    destruct (Forall2_lookup_r _ _ _ _ _ F3 Hi) as (c&Hc&E1&E2).
    eapply Forall_lookup_1 in Hst; [|exact Hc]. unfold stack_ok in *. by rewrite E1, E2.
Qed.

Lemma same_threads_trans m1 m2 m3 : same_threads m1 m2 -> same_threads m2 m3 -> same_threads m1 m3.
Proof. apply Forall2_trans_all. unfold same_thread. intuition (congruence || lia). Qed.

(** Replacing the state of CPU [e] by one with a good stack, and thread [j]. *)
Lemma table_ok_update m m' e f j g c :
  table_ok m -> m_cpus m !! e = Some c -> stack_ok (f (cpu_ski c)) ->
  m_cpus m' = m_cpus (mod_ski_at e f m) -> m_threads m' = alter g j (m_threads m) ->
  m_threads_no m' = m_threads_no m ->
  (forall tc, live_threads m !! j = Some tc -> thread_ok tc -> thread_ok (g tc) /\ same_thread tc (g tc)) ->
  table_ok m' /\ same_threads m m'.
Proof.
  intros Hok Hc Hs Hcp Hth Hno Hg.
  destruct (mod_thread_ok m (set_m_threads (alter g j (m_threads m)) m) g j) as [(H1&H2&H3) Hsame]; try done.
  { apply take_alter_comm. } { cbn. by rewrite length_alter. }
  assert (live_threads m' = live_threads (set_m_threads (alter g j (m_threads m)) m)) as Hl.
  { unfold live_threads. by rewrite Hth, Hno. }
  split; [|unfold same_threads; by rewrite Hl].
  split; [rewrite Hno, Hth; exact H1|]. split; [by rewrite Hl|].
  rewrite Hcp. apply Forall_alter; [exact H3|]. intros c' Hc' _. rewrite Hc in Hc'. by injection Hc' as <-.
Qed.

Lemma comment_any c m : exists t, comment_ c m = Ret (set_m_trace t m) tt.
Proof. unfold comment_, on_trace. destruct (print_comment_ex c (m_trace m)) as [out ->]. by eexists. Qed.

(** A delivery that returns leaves the table in order. *)
Lemma begin_ok m e c int_no ii hw m' :
  table_ok m -> m_cpus m !! e = Some c -> ski_handle_interrupt_begin e int_no ii hw m = Ret m' tt ->
  table_ok m' /\ same_threads m m'.
Proof.
  intros Hok Hc Hb. pose proof Hok as (_&Hth&Hst). eapply Forall_lookup_1 in Hst; [|exact Hc].
  destruct (Z.lt_ge_cases (sc_interrupts_stack_no (cpu_ski c)) 20) as [Hlt|Hge].
  2:{ unfold ski_handle_interrupt_begin in Hb. erewrite bind_Ret in Hb by (by apply get_cpu_Ret).
      rewrite (free_entry_stack _ Hst) in Hb. replace (_ <? 20) with false in Hb by lia.
      unfold SKI_ASSERT, bind, get, when, stop in Hb. by destruct (o_assert_trap (m_opts m)). }
  destruct (decide (ii <> 0 \/ hw <> 1)) as [Hk|Hk].
  { rewrite (begin_sw m e c) in Hb by done. injection Hb as <-.
    eapply (table_ok_update m _ e (pushed (mk_si 1 int_no ii hw)) 0 id c); try done.
    - by apply pushed_ok.
    - cbn. symmetry. by apply list_alter_id. }
  assert (ii = 0 /\ hw = 1) as [-> ->] by lia.
  unfold ski_handle_interrupt_begin in Hb. erewrite bind_Ret in Hb by (by apply get_cpu_Ret).
  rewrite (free_entry_stack _ Hst) in Hb. replace (_ <? 20) with true in Hb by lia.
  erewrite bind_Ret in Hb by done. cbn [when Z.eqb Pos.eqb andb] in Hb.
  rewrite (push_step m e c) in Hb by done.
  fold (mod_ski_at e (pushed (mk_si 1 int_no 0 1)) m) in Hb. set (m1 := mod_ski_at _ _ m) in Hb.
  unfold bind at 1 in Hb.
  destruct (find_spawned m1 (cpu_index c) int_no SKI_TC_STATE_NEEDS_TRIGGER) as [(j&tc&Hf&Hs)|(Hf&_)];
    [by left|done| |]; erewrite bind_Ret in Hb by (apply lift_Val; exact Hf); [|done].
  pose proof Hs as (Hj&(Hs1&Hs2&Hs3&_)&_).
  cbn beta iota in Hb. rewrite Hs2, Z.eqb_refl in Hb. erewrite bind_Ret in Hb by done. erewrite bind_Ret in Hb by done.
  edestruct comment_any as (t&E). erewrite bind_Ret in Hb by exact E.
  unfold bind, get, SKI_ASSERT_MSG in Hb.
  match type of Hb with context [negb ?b] => destruct b end; cbn [negb when] in Hb; [|done].
  injection Hb as <-.
  eapply (table_ok_update m _ e (pushed (mk_si 1 int_no 0 1)) j (set_tc_state SKI_TC_STATE_RUNNABLE) c); try done.
  - by apply pushed_ok.
  - intros tc' Htc' [(?&_)|(?&?&?&_)]; change (live_threads m) with (live_threads m1) in Htc';
      rewrite Hj in Htc'; injection Htc' as <-; [lia|].
    split; [|unfold same_thread; cbn; lia]. right. do 3 (split; [done|]). right; right. split; [done|by right].
Qed.

Lemma retire_ok tc st : spawned (tc_cpu_no tc) (tc_int_no tc) st tc -> thread_ok tc ->
  thread_ok (retire tc) /\ same_thread tc (retire tc).
Proof.
  intros (_&_&Hi&_) [(?&_)|(?&?&?&_)]; [lia|]. split; [|unfold same_thread; cbn; lia].
  right. do 3 (split; [done|]). unfold retire. destruct (tc_count tc =? 0) eqn:E.
  - right; left. split; [done|]. split; [done|]. cbn. lia.
  - left. split; [done|]. split; [done|]. cbn. lia.
Qed.

(** So does a return. *)
Lemma end_ok m e c m' :
  table_ok m -> m_cpus m !! e = Some c -> ski_handle_interrupt_end e m = Ret m' tt ->
  table_ok m' /\ same_threads m m'.
Proof.
  intros Hok Hc Hb. pose proof Hok as (_&Hth&Hst). eapply Forall_lookup_1 in Hst; [|exact Hc].
  destruct (Z.le_gt_cases (sc_interrupts_stack_no (cpu_ski c)) 0) as [Hge|Hlt].
  { unfold ski_handle_interrupt_end in Hb. erewrite bind_Ret in Hb by (by apply get_cpu_Ret).
    replace (_ >? 0) with false in Hb by lia. unfold SKI_ASSERT, bind, get, when, stop, ret in Hb.
    destruct (o_assert_trap (m_opts m)); [done|]. injection Hb as <-.
    split; [done|apply same_threads_refl]. }
  set (si := sc_interrupts_stack (cpu_ski c) !!! Z.to_nat (sc_interrupts_stack_no (cpu_ski c) - 1)).
  destruct (decide (si_is_hw si = 0)) as [Hhw|Hhw].
  { rewrite (end_sw m e c) in Hb by done. injection Hb as <-.
    eapply (table_ok_update m _ e popped 0 id c); try done.
    - by apply popped_ok.
    - cbn. symmetry. by apply list_alter_id. }
  unfold ski_handle_interrupt_end in Hb. erewrite bind_Ret in Hb by (by apply get_cpu_Ret).
  replace (_ >? 0) with true in Hb by lia. erewrite bind_Ret in Hb by done.
  change (set_m_cpus _ m) with
    (mod_ski_at e (set_sc_interrupts_stack_no (sc_interrupts_stack_no (cpu_ski c) - 1)) m) in Hb.
  fold si in Hb. apply c_true_true in Hhw. rewrite Hhw in Hb. cbn [when] in Hb.
  set (no := sc_interrupts_stack_no (cpu_ski c)) in *.
  set (m1 := mod_ski_at _ _ m) in Hb.
  pose proof (mod_ski_at_lookup e (set_sc_interrupts_stack_no (no - 1)) m c Hc) as Hc1. fold m1 in Hc1.
  unfold retire_thread in Hb. unfold bind at 1 in Hb.
  rewrite (bind_Ret _ _ _ _ _ (get_cpu_Ret _ _ _ Hc1)) in Hb.
  change (cpu_index (set_cpu_ski _ c)) with (cpu_index c) in Hb.
  destruct (find_spawned m1 (cpu_index c) (si_int_no si) SKI_TC_STATE_RUNNABLE) as [(j&tc&Hf&Hs)|(Hf&_)];
    [by right|done| |]; erewrite bind_Ret in Hb by (apply lift_Val; exact Hf); [|done].
  pose proof Hs as (Hj&(Hs1&Hs2&Hs3&_)&_).
  cbn beta iota in Hb. erewrite bind_Ret in Hb by done. cbn beta iota in Hb. fold retire in Hb.
  assert (exists f, stack_ok (f (cpu_ski c)) /\ m_cpus m' = m_cpus (mod_ski_at e f m) /\
    m_threads m' = alter retire j (m_threads m) /\ m_threads_no m' = m_threads_no m) as (f&F1&F2&F3&F4).
  { set (zap := fun s => set_sc_interrupts_stack
      (alter (set_si_exists 0) (Z.to_nat (no - 1)) (sc_interrupts_stack s)) s).
    unfold bind at 1 in Hb. change (sc_wait_for_interrupt (cpu_ski (set_cpu_ski _ c)))
      with (sc_wait_for_interrupt (cpu_ski c)) in Hb.
    destruct (c_true (sc_wait_for_interrupt (cpu_ski c))); cbn [when] in Hb.
    - unfold bind at 1, current_thread in Hb. destruct (m_threads_current _); [|done].
      edestruct comment_any as (t&E). rewrite (bind_Ret _ _ _ _ _ E) in Hb.
      injection Hb as <-. exists (zap ∘ set_sc_wait_for_interrupt 0 ∘ set_sc_interrupts_stack_no (no - 1)).
      split; [by apply (popped_ok (cpu_ski c))|]. split; [|done]. cbn. by rewrite !alter_alter.
    - injection Hb as <-. exists (zap ∘ set_sc_interrupts_stack_no (no - 1)).
      split; [by apply (popped_ok (cpu_ski c))|]. split; [|done]. cbn. by rewrite !alter_alter. }
  eapply (table_ok_update m m' e f j retire c); try done.
  intros tc' Htc' Hok'. change (live_threads m) with (live_threads m1) in Htc'.
  rewrite Hj in Htc'. injection Htc' as <-. by apply (retire_ok _ SKI_TC_STATE_RUNNABLE).
Qed.

(** ** Every run keeps the table in order *)

(** What happens to the scheduler's state during a test. *)
Inductive sched_step (m m' : machine) : Prop :=
  | step_irq e c v : m_cpus m !! e = Some c -> ski_handle_new_irq_set e v m = Ret m' tt -> sched_step m m'
  | step_begin e c n ii hw :
      m_cpus m !! e = Some c -> ski_handle_interrupt_begin e n ii hw m = Ret m' tt -> sched_step m m'
  | step_end e c : m_cpus m !! e = Some c -> ski_handle_interrupt_end e m = Ret m' tt -> sched_step m m'
  | step_adjust e r : ski_threads_adjust_priority_current e m = Ret m' r -> sched_step m m'
  | step_wake a r : ski_threads_all_wake_rs a m = Ret m' r -> sched_step m m'
  | step_wait_rs e p : ski_threads_self_wait_rs e p m = Ret m' tt -> sched_step m m'
  | step_wait_hlt e : ski_threads_self_wait_hlt e m = Ret m' tt -> sched_step m m'
  | step_invert e : ski_threads_invert_priority e m = Ret m' tt -> sched_step m m'
  | step_preemption k r : ski_preemption_get_and_clear_lowest k m = Ret m' r -> sched_step m m'
  | step_can_run e r : ski_cpu_can_run e m = Ret m' r -> sched_step m m'
  | step_guest :
      (* the guest runs: any change outside SKI's own state *)
      m_threads m' = m_threads m -> m_threads_no m' = m_threads_no m ->
      Forall2 (fun c c' => cpu_ski c' = cpu_ski c) (m_cpus m) (m_cpus m') -> sched_step m m'.

Lemma frames_step_ok {A} (op : SCH A) m m' a :
  frames op -> op m = Ret m' a -> table_ok m -> table_ok m' /\ same_threads m m'.
Proof. intros Hf Ho. apply frame_table. specialize (Hf m). by rewrite Ho in Hf. Qed.

Lemma sched_step_ok m m' : sched_step m m' -> table_ok m -> table_ok m' /\ same_threads m m'.
Proof.
  intros [e c v Hc H|e c n ii hw Hc H|e c Hc H|e r H|a r H|e p H|e H|e H|k r H|e r H|H1 H2 H3] Hok.
  - destruct (irq_set_ok m e c v Hok Hc) as (m1&H'&?&?&_). rewrite H in H'. by injection H' as ->.
  - by eapply begin_ok.
  - by eapply end_ok.
  - eapply frames_step_ok; [apply frames_adjust|done|done].
  - eapply frames_step_ok; [apply frames_wake|done|done].
  - eapply frames_step_ok; [apply frames_wait_rs|done|done].
  - eapply frames_step_ok; [apply frames_wait_hlt|done|done].
  - eapply frames_step_ok; [apply frames_invert|done|done].
  - eapply frames_step_ok; [apply frames_preemption|done|done].
  - eapply frames_step_ok; [apply frames_can_run|done|done].
  - apply frame_table; [|done]. split; [done|..].
    + rewrite H1. apply Forall2_refl_all, frame_thread_refl.
    + eapply Forall2_impl; [exact H3|]. cbn. intros c c' ->. done.
Qed.

Lemma sched_steps_ok m m' : rtc sched_step m m' -> table_ok m -> table_ok m' /\ same_threads m m'.
Proof.
  intros H. induction H as [m|m m1 m' Hs _ IH]; intros Hok; [split; [done|apply same_threads_refl]|].
  destruct (sched_step_ok _ _ Hs Hok) as [Hok1 Hs1]. destruct (IH Hok1) as [Hok2 Hs2].
  split; [done|]. by eapply same_threads_trans.
Qed.

(** C7: the thread table stays consistent in every run of the scheduler.
    Whatever sequence of requests, deliveries, returns, waits, wake-ups,
    preemptions, adjustments and scheduling decisions happens, every CPU thread
    keeps existing, every interrupt thread is in one of its legal states with a
    non-negative spawn counter that never grew, and every CPU's interrupt stack
    has exactly its first [interrupts_stack_no] entries in use. *)
Theorem ski_threads_consistent (m m' : machine) (Hok : table_ok m) (Hrun : rtc sched_step m m') :
  table_ok m' /\ same_threads m m'.
Proof. by apply sched_steps_ok. Qed.

(** the assertion in [ski_handle_new_irq_set] that its comment calls
    unreachable is unreachable: from a consistent table, in any run, a request
    for any vector on any CPU returns, either dropping the request because no
    idle thread for it is left, or spawning the idle thread of least priority
    and using up one of its spawns. *)
Theorem ski_irq_set_total (m m' : machine) (e : nat) (c : CPUState) (vector : Z)
    (Hok : table_ok m) (Hrun : rtc sched_step m m')
    (Hc : m_cpus m' !! e = Some c) (Ha : cpu_ski_active c = true) :
  (ski_handle_new_irq_set e vector m' = Ret m' tt /\
     forall tc, tc ∈ live_threads m' -> ~ idle (cpu_index c) vector tc) \/
  (exists i tc, selected (idle (cpu_index c) vector) int_priority (live_threads m') i tc /\ 0 < tc_count tc /\
     ski_handle_new_irq_set e vector m' = Ret (set_m_threads (alter spawn i (m_threads m')) m') tt).
Proof.
  destruct (sched_steps_ok m m' Hrun Hok) as [Hok' _].
  destruct (irq_set_spec m' e c vector Hok' Hc Ha) as [?|(i&tc&Hs&E)]; [by left|right].
  exists i, tc. split; [done|]. split; [|done]. destruct Hs as (Hi&(H1&H2&H3&_)&_).
  destruct Hok' as (_&Hth&_). eapply Forall_lookup_1 in Hth; [|exact Hi].
  destruct Hth as [(?&_)|(_&_&_&[(_&_&?)|[(_&Hs'&_)|(?&_)]])]; try lia. by rewrite H2 in Hs'.
Qed.

(** ** Life of an interrupt *)

Lemma selected_only elig prio (l : list thread_context) j tc :
  l !! j = Some tc -> elig tc -> (forall j' tc', l !! j' = Some tc' -> elig tc' -> j' = j) ->
  selected elig prio l j tc.
Proof.
  intros Hj He Hu. split; [done|]. split; [done|]. intros j' tc' Hj' He'.
  pose proof (Hu _ _ Hj' He') as ->. rewrite Hj in Hj'. injection Hj' as <-. lia.
Qed.


Lemma lookup_alter_only (f : thread_context -> thread_context) (l : list thread_context) j tc j' tc' :
  l !! j = Some tc -> alter f j l !! j' = Some tc' -> (j' = j /\ tc' = f tc) \/ (j' <> j /\ l !! j' = Some tc').
Proof.
  intros Hj H. destruct (decide (j = j')) as [<-|Hne].
  - rewrite list_lookup_alter_eq, Hj in H. injection H as <-. by left.
  - rewrite list_lookup_alter_ne in H by done. right. split; [congruence|done].
Qed.

(** C19: the life of an interrupt.  Take an idle interrupt thread [j] of an
    active CPU with room on its stack, with no other interrupt of that vector
    spawned on the CPU.  The request spawns it; once the scheduler has made it
    current, the delivery pushes the interrupt on the CPU's stack and makes the
    thread runnable; the return pops the entry, ends a wait for an interrupt
    and retires the thread with one spawn less, idle again or, after its last
    spawn, exhausted.  The pending interrupts of the CPU and all other threads
    are as before. *)
Theorem ski_interrupt_lifecycle (m : machine) (e j : nat) (c : CPUState) (v : Z) (tc : thread_context)
    (Hok : table_ok m) (Ht : trace_ok (m_trace m))
    (Hc : m_cpus m !! e = Some c) (Ha : cpu_ski_active c = true)
    (Hroom : sc_interrupts_stack_no (cpu_ski c) < 20)
    (Hs : selected (idle (cpu_index c) v) int_priority (live_threads m) j tc)
    (Hnone : forall tc' st, tc' ∈ live_threads m -> ~ spawned (cpu_index c) v st tc') :
  exists m1 m2 m3 c2 c3 tc3,
    ski_handle_new_irq_set e v m = Ret m1 tt /\
    ski_handle_interrupt_begin e v 0 1 (set_m_threads_current (Some j) m1) = Ret m2 tt /\
    ski_handle_interrupt_end e m2 = Ret m3 tt /\
    m_cpus m2 !! e = Some c2 /\ pending (cpu_ski c2) = pending (cpu_ski c) ++ [mk_si 1 v 0 1] /\
    m_cpus m3 !! e = Some c3 /\ pending (cpu_ski c3) = pending (cpu_ski c) /\
    sc_wait_for_interrupt (cpu_ski c3) = 0 /\
    live_threads m3 = <[j := tc3]> (live_threads m) /\
    tc_exists tc3 = 0 /\ tc_count tc3 = tc_count tc - 1 /\
    tc_state tc3 = (if tc_count tc =? 1 then SKI_TC_STATE_COUNT_ZERO else SKI_TC_STATE_NA).
Proof.
  destruct (irq_set_spec m e c v Hok Hc Ha) as [[_ Hn]|(j'&tc'&Hs'&E1)].
  { destruct Hs as (Hj&Hid&_). destruct (Hn tc); [by eapply list_elem_of_lookup_2|done]. }
  destruct (selected_unique _ _ _ _ _ _ _ Hs Hs') as [<- <-]. clear Hs'.
  destruct (irq_set_ok m e c v Hok Hc) as (m1&E1'&Hok1&_). rewrite E1 in E1'. injection E1' as <-.
  destruct Hs as (Hj&(I1&I2&I3&I4&I5)&_). pose proof Hj as Hj0.
  unfold live_threads in Hj0. apply lookup_take_Some in Hj0 as [Hj0 Hjlt].
  set (m1 := set_m_threads_current (Some j) (set_m_threads (alter spawn j (m_threads m)) m)).
  assert (live_threads m1 = alter spawn j (live_threads m)) as Hl1 by apply take_alter_comm.
  assert (forall st f, (forall t, tc_cpu_no (f t) = tc_cpu_no t) -> spawned (cpu_index c) v st (f tc) ->
    selected (spawned (cpu_index c) v st) int_priority (alter f j (live_threads m)) j (f tc)) as Hsel.
  { intros st f _ Hsp. apply selected_only; [by rewrite list_lookup_alter_eq, Hj|done|].
    intros j' t' Ht' Hsp'. destruct (lookup_alter_only f _ j tc j' t' Hj Ht') as [[? _]|[_ Hl]]; [done|].
    destruct (Hnone t' st); [by eapply list_elem_of_lookup_2|done]. }
  destruct (begin_hw m1 e c v j (spawn tc) j) as (t2&Ht2&E2); try done.
  { rewrite Hl1. by apply Hsel. } { cbn. rewrite length_alter. by eapply lookup_lt_Some. }
  { cbn. erewrite list_lookup_total_correct by (rewrite list_lookup_alter_eq, Hj0; reflexivity). done. }
  destruct (begin_ok m1 e c v 0 1 _ Hok1 Hc E2) as [Hok2 _].
  set (m2 := set_m_need_reevaluate 1 _) in E2, Hok2.
  pose proof (mod_ski_at_lookup e (pushed (mk_si 1 v 0 1)) m c Hc) as Hc2. set (c2 := set_cpu_ski _ c) in Hc2.
  assert (stack_ok (cpu_ski c)) as Hst. { destruct Hok as (_&_&H). by eapply Forall_lookup_1 in H. }
  destruct (pushed_ok (mk_si 1 v 0 1) (cpu_ski c) Hst Hroom eq_refl) as [Hst2 Hp2].
  change (pushed _ (cpu_ski c)) with (cpu_ski c2) in Hst2, Hp2.
  set (runs := set_tc_state SKI_TC_STATE_RUNNABLE ∘ spawn).
  assert (live_threads m2 = alter runs j (live_threads m)) as Hl2.
  { transitivity (alter (set_tc_state SKI_TC_STATE_RUNNABLE) j (live_threads m1)); [apply take_alter_comm|].
    by rewrite Hl1, alter_alter. }
  assert (0 <= sc_interrupts_stack_no (cpu_ski c)) as H0 by apply Hst.
  destruct (popped_ok (cpu_ski c2) Hst2) as [Hst3 (si&Hsi&Hp3)]; [cbn; lia|].
  rewrite Hp2 in Hp3. apply app_inj_tail in Hp3 as [Hp3 <-].
  destruct (end_hw m2 e c2 v j (runs tc)) as (t3&Ht3&E3); try done.
  { cbn. lia. } { rewrite Hl2. by apply Hsel. }
  set (tc3 := retire (runs tc)).
  eexists _, m2, _, c2, _, tc3. split; [exact E1|]. split; [exact E2|]. split; [exact E3|].
  split; [exact Hc2|]. split; [exact Hp2|].
  split; [by apply (mod_ski_at_lookup e (set_sc_wait_for_interrupt 0 ∘ popped) m2 c2)|].
  split; [symmetry; exact Hp3|]. split; [done|]. split.
  { transitivity (alter retire j (live_threads m2)); [apply take_alter_comm|].
    rewrite Hl2, alter_alter. apply list_eq. intros k. destruct (decide (j = k)) as [<-|Hne].
    - rewrite list_lookup_alter_eq, Hj, list_lookup_insert_eq; [done|by eapply lookup_lt_Some].
    - by rewrite list_lookup_alter_ne, list_lookup_insert_ne. }
  split; [done|]. split; [done|]. cbn.
  by replace (tc_count tc - 1 =? 0) with (tc_count tc =? 1) by lia.
Qed.

(** Software interrupts nest.  An [int] instruction (or an exception) pushes
    its entry on the CPU's interrupt stack and the matching return takes it off
    again: the pending interrupts are as before, and no thread changed. *)
Theorem ski_interrupt_sw_roundtrip (m : machine) (e : nat) (c : CPUState) (int_no ii : Z)
    (Hok : table_ok m) (Hc : m_cpus m !! e = Some c)
    (Hroom : sc_interrupts_stack_no (cpu_ski c) < 20) :
  exists m1 m2 c1 c2, ski_handle_interrupt_begin e int_no ii 0 m = Ret m1 tt /\
    m_cpus m1 !! e = Some c1 /\ pending (cpu_ski c1) = pending (cpu_ski c) ++ [mk_si 1 int_no ii 0] /\
    ski_handle_interrupt_end e m1 = Ret m2 tt /\
    m_cpus m2 !! e = Some c2 /\ pending (cpu_ski c2) = pending (cpu_ski c) /\
    stack_ok (cpu_ski c2) /\ m_threads m2 = m_threads m.
Proof.
  assert (stack_ok (cpu_ski c)) as Hst. { destruct Hok as (_&_&H). by eapply Forall_lookup_1 in H. }
  pose proof (begin_sw m e c int_no ii 0 Hok Hc Hroom ltac:(lia)) as E1.
  destruct (begin_ok m e c int_no ii 0 _ Hok Hc E1) as [Hok1 _].
  destruct (pushed_ok (mk_si 1 int_no ii 0) (cpu_ski c) Hst Hroom eq_refl) as [Hst1 Hp1].
  pose proof (mod_ski_at_lookup e (pushed (mk_si 1 int_no ii 0)) m c Hc) as Hc1.
  set (c1 := set_cpu_ski _ c) in Hc1. change (pushed _ (cpu_ski c)) with (cpu_ski c1) in Hst1, Hp1.
  set (m1 := set_m_need_reevaluate 1 _) in E1, Hok1.
  assert (0 <= sc_interrupts_stack_no (cpu_ski c)) as H0 by apply Hst.
  destruct (popped_ok (cpu_ski c1) Hst1) as [Hst2 (si&Hsi&Hp2)]; [cbn; lia|].
  rewrite Hp1 in Hp2. apply app_inj_tail in Hp2 as [Hp2 <-].
  exists m1, (mod_ski_at e popped m1), c1, (set_cpu_ski (popped (cpu_ski c1)) c1).
  split; [done|]. split; [done|]. split; [done|].
  split. { apply (end_sw m1 e c1); [done|done|cbn; lia|by rewrite <- Hsi]. }
  split; [by apply (mod_ski_at_lookup e popped m1 c1)|]. by split.
Qed.

(** ** Witnesses *)

#[export] Instance thread_ok_dec tc : Decision (thread_ok tc).
Proof. unfold thread_ok. apply _. Defined.
#[export] Instance stack_ok_dec s : Decision (stack_ok s).
Proof. unfold stack_ok. apply _. Defined.
#[export] Instance spawned_dec cpu n st tc : Decision (spawned cpu n st tc).
Proof. unfold spawned. apply _. Defined.

Lemma sample_table : table_ok sample.
Proof.
  split; [vm_compute; split; discriminate|].
  split; apply (bool_decide_unpack _); by vm_compute.
Qed.

(** Interrupt 49 was requested on CPU 0. *)
Definition sample_requested : machine :=
  match ski_handle_new_irq_set 0 49 sample with Ret m _ => m | Jump m | Halt m _ => m end.

Lemma sample_requested_run : rtc sched_step sample sample_requested.
Proof.
  apply rtc_once. apply (step_irq _ _ 0 (sample_cpu 0) 49); vm_compute; reflexivity.
Qed.

Lemma ski_threads_consistent_witness : table_ok sample_requested /\ same_threads sample sample_requested.
Proof. apply (ski_threads_consistent sample sample_requested); [exact sample_table|exact sample_requested_run]. Defined.

Lemma ski_irq_set_total_witness :
  (ski_handle_new_irq_set 0 49 sample_requested = Ret sample_requested tt /\
     forall tc, tc ∈ live_threads sample_requested -> ~ idle (cpu_index (sample_cpu 0)) 49 tc) \/
  (exists i tc, selected (idle (cpu_index (sample_cpu 0)) 49) int_priority (live_threads sample_requested) i tc /\
     0 < tc_count tc /\
     ski_handle_new_irq_set 0 49 sample_requested =
     Ret (set_m_threads (alter spawn i (m_threads sample_requested)) sample_requested) tt).
Proof.
  apply (ski_irq_set_total sample sample_requested 0 (sample_cpu 0) 49).
  - exact sample_table.
  - exact sample_requested_run.
  - vm_compute. reflexivity.
  - reflexivity.
Defined.

Lemma sample_idle tc : live_threads sample !! 2%nat = Some tc ->
  selected (idle 0 49) int_priority (live_threads sample) 2 tc.
Proof.
  intros H. apply selected_only; [done|vm_compute in H; injection H as <-; by vm_compute|].
  intros j' tc' Hj (_&_&Hi&_). destruct j' as [|[|[|j']]]; [vm_compute in Hj; injection Hj as <-; done..|done|].
  vm_compute in Hj. done.
Qed.

Lemma ski_interrupt_lifecycle_witness :
  exists m1 m2 m3 c2 c3 tc3,
    ski_handle_new_irq_set 0 49 sample = Ret m1 tt /\
    ski_handle_interrupt_begin 0 49 0 1 (set_m_threads_current (Some 2%nat) m1) = Ret m2 tt /\
    ski_handle_interrupt_end 0 m2 = Ret m3 tt /\
    m_cpus m2 !! 0%nat = Some c2 /\ pending (cpu_ski c2) = pending (cpu_ski (sample_cpu 0)) ++ [mk_si 1 49 0 1] /\
    m_cpus m3 !! 0%nat = Some c3 /\ pending (cpu_ski c3) = pending (cpu_ski (sample_cpu 0)) /\
    sc_wait_for_interrupt (cpu_ski c3) = 0 /\
    live_threads m3 = <[2%nat := tc3]> (live_threads sample) /\
    tc_exists tc3 = 0 /\ tc_count tc3 = tc_count (live_threads sample !!! 2%nat) - 1 /\
    tc_state tc3 = (if tc_count (live_threads sample !!! 2%nat) =? 1 then SKI_TC_STATE_COUNT_ZERO else SKI_TC_STATE_NA).
Proof.
  apply (ski_interrupt_lifecycle sample 0 2 (sample_cpu 0) 49 (live_threads sample !!! 2%nat)).
  - exact sample_table.
  - exact sample_trace_ok.
  - vm_compute. reflexivity.
  - reflexivity.
  - reflexivity.
  - apply sample_idle. vm_compute. reflexivity.
  - intros tc' st Hin (H1&_&H3&_).
    assert (Forall (fun tc => ~ (tc_exists tc = 1 /\ tc_is_int tc = 1)) (live_threads sample)) as HF.
    { apply (bool_decide_unpack _). by vm_compute. }
    eapply Forall_forall in HF; [|exact Hin]. tauto.
Defined.

Lemma ski_interrupt_sw_roundtrip_witness :
  exists m1 m2 c1 c2, ski_handle_interrupt_begin 1 128 1 0 sample = Ret m1 tt /\
    m_cpus m1 !! 1%nat = Some c1 /\
    pending (cpu_ski c1) = pending (cpu_ski (sample_cpu 1)) ++ [mk_si 1 128 1 0] /\
    ski_handle_interrupt_end 1 m1 = Ret m2 tt /\
    m_cpus m2 !! 1%nat = Some c2 /\ pending (cpu_ski c2) = pending (cpu_ski (sample_cpu 1)) /\
    stack_ok (cpu_ski c2) /\ m_threads m2 = m_threads sample.
Proof.
  apply (ski_interrupt_sw_roundtrip sample 1 (sample_cpu 1) 128 1).
  - exact sample_table.
  - vm_compute. reflexivity.
  - reflexivity.
Defined.

(** A priorities file may give an interrupt thread a count of 0; the first
    request for it then reaches the [assert(0)]. *)
Definition sample_zero_count : machine :=
  match (ski_threads_insert 0 (-1) 1 ;;; ski_threads_insert 0 49 0) sample_start with
  | Ret m _ => m
  | Jump m | Halt m _ => m
  end.

Lemma irq_set_zero_count_asserts :
  ski_handle_new_irq_set 0 49 sample_zero_count = Halt sample_zero_count HAssert.
Proof. vm_compute. reflexivity. Qed.

(** An interrupt thread of vector 1 is taken for the running one because of what
    lies past the interrupt stack, although the stack holds no hardware
    interrupt. *)
Definition past_cpu : CPUState :=
  let rs := mk_ski_ma 1 (<[0%nat := mk_ma_entry 1 4096 64 5]> (ma_entries sample_rs)) 1 20 [0%nat] [0%nat] in
  set_cpu_ski (set_sc_cpu_rs rs (pushed (mk_si 1 128 1 0) (cpu_ski (sample_cpu 0)))) (sample_cpu 0).

Lemma is_top_hw_stack_reads_past :
  existsb is_hw_entry (sc_interrupts_stack (cpu_ski past_cpu)) = false /\
  ski_interrupts_is_top_hw_stack [past_cpu] (thread_entry 0 0 1 1 inhabitant) = Val 1.
Proof. split; vm_compute; reflexivity. Qed.
