(* ===== verification/CString.v ===== *)
(** * CString.v -- the libc string functions the sources use

    A C string is the list of its character codes without the terminating NUL.
    [sscanf] with [%d] and [%x], [strchr], the line reading of [fgets], and the
    decimal output of [printf] are modelled as far as SKI uses them; the
    round trip of decimal numbers is proved once here. *)

From Stdlib Require Import Strings.Ascii Strings.String.
From S2P Require Import Prelude.

(** A string literal. *)
Definition str (s : string) : list Z := (fun a => Z.of_N (N_of_ascii a)) <$> list_ascii_of_string s.
Arguments str s%_string_scope.

Definition is_digit (c : Z) : bool := (48 <=? c) && (c <=? 57).
Definition is_space (c : Z) : bool := (c =? 32) || ((9 <=? c) && (c <=? 13)).

Fixpoint skip_spaces (s : list Z) : list Z :=
  match s with
  | c :: s' => if is_space c then skip_spaces s' else s
  | [] => []
  end.

(** The digits at the front of [s], appended to the value [v]. *)
Fixpoint scan_digits (s : list Z) (v : Z) : Z * list Z :=
  match s with
  | c :: s' => if is_digit c then scan_digits s' (10 * v + (c - 48)) else (v, s)
  | [] => (v, [])
  end.

Definition scan_number (s : list Z) : option (Z * list Z) :=
  match s with
  | c :: _ => if is_digit c then Some (scan_digits s 0) else None
  | [] => None
  end.

(** [sscanf(s, "%d", &n)]: the value and the rest of the input, or [None] on a
    matching failure. *)
Definition sscanf_d (s : list Z) : option (Z * list Z) :=
  match skip_spaces s with
  | c :: s' =>
      if c =? 45 then (fun r => (- r.1, r.2)) <$> scan_number s'
      else if c =? 43 then scan_number s'
      else scan_number (c :: s')
  | [] => None
  end.

Definition hex_digit (c : Z) : option Z :=
  if is_digit c then Some (c - 48)
  else if (97 <=? c) && (c <=? 102) then Some (c - 87)
  else if (65 <=? c) && (c <=? 70) then Some (c - 55)
  else None.

Fixpoint scan_hex (s : list Z) (v : Z) : Z * list Z :=
  match s with
  | c :: s' => match hex_digit c with
               | Some d => scan_hex s' (16 * v + d)
               | None => (v, s)
               end
  | [] => (v, [])
  end.

(** The digits of a [%x] conversion after its optional sign and [0x] prefix. *)
Definition scan_hex_number (s : list Z) : option (Z * list Z) :=
  let s' := match s with
            | 48 :: x :: c :: r =>
                if ((x =? 120) || (x =? 88)) && bool_decide (is_Some (hex_digit c)) then c :: r else s
            | _ => s
            end in
  match s' with
  | c :: _ => match hex_digit c with Some _ => Some (scan_hex s' 0) | None => None end
  | [] => None
  end.

(** [sscanf(s, "%x", &n)]: the value as an unsigned 32-bit number. *)
Definition sscanf_x (s : list Z) : option (Z * list Z) :=
  match skip_spaces s with
  | c :: s' =>
      if c =? 45 then (fun r => (u32 (- r.1), r.2)) <$> scan_hex_number s'
      else (fun r => (u32 r.1, r.2)) <$> scan_hex_number (if c =? 43 then s' else c :: s')
  | [] => None
  end.

(** [strchr(s, c)]: the suffix that starts at the first [c]. *)
Fixpoint strchr (s : list Z) (c : Z) : option (list Z) :=
  match s with
  | [] => None
  | x :: s' => if x =? c then Some s else strchr s' c
  end.

(** [strncmp(s, p, strlen(p)) == 0] *)
Fixpoint starts_with (p s : list Z) : bool :=
  match p, s with
  | [], _ => true
  | a :: p', b :: s' => (a =? b) && starts_with p' s'
  | _ :: _, [] => false
  end.

(** The line [fgets] with a buffer of [n + 1] bytes reads from [s] (its newline
    included), and the rest. *)
Fixpoint fgets (n : nat) (s : list Z) : list Z * list Z :=
  match n, s with
  | O, _ => ([], s)
  | _, [] => ([], [])
  | S n', c :: s' =>
      if c =? 10 then ([c], s') else let '(l, r) := fgets n' s' in (c :: l, r)
  end.

(** Decimal output. *)
Fixpoint print_digits (fuel : nat) (n : Z) (acc : list Z) : list Z :=
  match fuel with
  | O => acc
  | S fuel' =>
      let acc := (48 + n mod 10) :: acc in
      if n / 10 =? 0 then acc else print_digits fuel' (n / 10) acc
  end.

(** [printf("%d", z)]; twenty digits are more than an [int] has. *)
Definition print_dec (z : Z) : list Z :=
  if z <? 0 then 45 :: print_digits 20 (- z) [] else print_digits 20 z [].

(** ** Decimal numbers round-trip *)

Lemma is_digit_mod n : is_digit (48 + n mod 10) = true.
Proof. unfold is_digit. pose proof (Z.mod_pos_bound n 10). lia. Qed.

Lemma scan_digits_print fuel n acc v :
  0 <= n < 10 ^ Z.of_nat fuel ->
  exists k, 0 <= k /\ scan_digits (print_digits fuel n acc) v = scan_digits acc (v * 10 ^ k + n) /\
    (fuel <> O -> exists c s, print_digits fuel n acc = c :: s /\ is_digit c = true).
Proof.
  revert n acc. induction fuel as [|fuel IH]; intros n acc Hn.
  { exists 0. cbn in Hn. assert (n = 0) as -> by lia. cbn [print_digits].
    split; [lia|]. split; [f_equal; lia|done]. }
  cbn [print_digits]. pose proof (Z.div_mod n 10 ltac:(lia)) as Hdm.
  pose proof (Z.mod_pos_bound n 10 ltac:(lia)) as Hmb.
  destruct (n / 10 =? 0) eqn:E.
  - exists 1. split; [lia|]. cbn [scan_digits]. rewrite is_digit_mod.
    split; [f_equal; lia|]. intros _. eexists _, _. split; [reflexivity|apply is_digit_mod].
  - assert (0 <= n / 10 < 10 ^ Z.of_nat fuel) as Hn'.
    { split; [apply Z.div_pos; lia|]. apply Z.div_lt_upper_bound; [lia|].
      rewrite <- Z.pow_succ_r by lia. rewrite <- Nat2Z.inj_succ. apply Hn. }
    destruct (IH (n / 10) ((48 + n mod 10) :: acc) Hn') as (k&Hk&Hs&Hd).
    exists (k + 1). split; [lia|]. rewrite Hs. cbn [scan_digits]. rewrite is_digit_mod. split.
    + f_equal. rewrite Z.pow_add_r by lia. lia.
    + intros _. destruct fuel as [|fuel].
      * cbn in Hn'. assert (n / 10 = 0) by lia. lia.
      * by apply Hd.
Qed.

Lemma scan_digits_stop s v : (forall c s', s = c :: s' -> is_digit c = false) -> scan_digits s v = (v, s).
Proof. destruct s as [|c s]; [done|]. intros H. cbn. by rewrite (H c s). Qed.

(** The text of [n] followed by [rest]. *)
Lemma print_digits_app fuel n acc rest : print_digits fuel n acc ++ rest = print_digits fuel n (acc ++ rest).
Proof.
  revert n acc. induction fuel as [|fuel IH]; intros n acc; [done|]. cbn [print_digits].
  destruct (n / 10 =? 0); [done|]. apply IH.
Qed.

Lemma scan_number_print n rest :
  0 <= n < 10 ^ 20 -> (forall c s', rest = c :: s' -> is_digit c = false) ->
  scan_number (print_digits 20 n [] ++ rest) = Some (n, rest) /\
  exists c s, print_digits 20 n [] ++ rest = c :: s /\ is_digit c = true.
Proof.
  intros Hn Hr. rewrite print_digits_app. cbn [app].
  destruct (scan_digits_print 20 n rest 0 Hn) as (k&_&Hs&Hd).
  destruct (Hd ltac:(done)) as (c&s&Hc&Hdc). split; [|by exists c, s].
  rewrite Hc. cbn [scan_number]. rewrite Hdc. rewrite <- Hc, Hs, scan_digits_stop by done.
  by replace (0 * 10 ^ k + n) with n by lia.
Qed.

Lemma skip_spaces_digit c s : is_digit c = true -> skip_spaces (c :: s) = c :: s.
Proof.
  intros H. cbn. replace (is_space c) with false; [done|]. symmetry. unfold is_digit, is_space in *. lia.
Qed.

(** Reading back a printed number. *)
Lemma sscanf_print_wide z rest :
  - 10 ^ 20 < z < 10 ^ 20 -> (forall c s', rest = c :: s' -> is_digit c = false) ->
  sscanf_d (print_dec z ++ rest) = Some (z, rest).
Proof.
  intros Hz Hr. unfold print_dec, sscanf_d. destruct (z <? 0) eqn:E.
  - destruct (scan_number_print (- z) rest ltac:(lia) Hr) as [Hs _].
    change (skip_spaces ((45 :: print_digits 20 (- z) []) ++ rest)) with (45 :: (print_digits 20 (- z) [] ++ rest)).
    cbn [Z.eqb Pos.eqb]. rewrite Hs. cbn. do 2 f_equal. lia.
  - destruct (scan_number_print z rest ltac:(lia) Hr) as [Hs (c&s&Hc&Hd)].
    rewrite Hc in *. rewrite skip_spaces_digit by done.
    unfold is_digit in Hd. zbool. done.
Qed.

Lemma sscanf_print z rest :
  in_int z -> (forall c s', rest = c :: s' -> is_digit c = false) ->
  sscanf_d (print_dec z ++ rest) = Some (z, rest).
Proof. unfold in_int. intros Hz. apply sscanf_print_wide. lia. Qed.

(** ** Searching printed text *)

Lemma strchr_app_notin p s c : c ∉ p -> strchr (p ++ s) c = strchr s c.
Proof.
  induction p as [|x p IH]; [done|]. intros [Hx Hp]%not_elem_of_cons.
  cbn [app strchr]. rewrite (proj2 (Z.eqb_neq x c)) by congruence. by apply IH.
Qed.

Lemma strchr_hit p s c : c ∉ p -> strchr (p ++ c :: s) c = Some (c :: s).
Proof. intros H. rewrite strchr_app_notin by done. cbn. by rewrite Z.eqb_refl. Qed.

Lemma strchr_length s c r : strchr s c = Some r -> (length r <= length s)%nat.
Proof.
  induction s as [|x s IH]; [done|]. cbn [strchr].
  destruct (x =? c); [intros [= <-]; done|]. intros H%IH. cbn. lia.
Qed.

Lemma print_digits_chars fuel n acc c :
  c ∈ print_digits fuel n acc -> is_digit c = true \/ c ∈ acc.
Proof.
  revert n acc. induction fuel as [|fuel IH]; intros n acc; [by right|]. cbn [print_digits].
  assert (c ∈ 48 + n mod 10 :: acc -> is_digit c = true \/ c ∈ acc) as Hstep.
  { intros [->|H]%elem_of_cons; [left; apply is_digit_mod|by right]. }
  destruct (n / 10 =? 0); [done|]. intros [H|H]%IH; [by left|by apply Hstep].
Qed.

(** Decimal numbers consist of digits and a sign. *)
Lemma print_dec_notin z c : is_digit c = false -> c <> 45 -> c ∉ print_dec z.
Proof.
  intros Hd Hm. unfold print_dec.
  destruct (z <? 0); rewrite ?not_elem_of_cons; [split; [done|]|];
    intros [H|H]%print_digits_chars; (congruence || by apply not_elem_of_nil in H).
Qed.

Lemma print_digits_nonempty fuel n acc : acc <> [] \/ fuel <> O -> print_digits fuel n acc <> [].
Proof.
  revert n acc. induction fuel as [|fuel IH]; intros n acc; [by intros [?|?]|]. intros _. cbn [print_digits].
  destruct (n / 10 =? 0); [done|]. apply IH. by left.
Qed.

Lemma print_dec_nonempty z : print_dec z <> [].
Proof. unfold print_dec. destruct (z <? 0); [done|]. apply print_digits_nonempty. by right. Qed.

(** Texts joined by a separator. *)
Fixpoint sep_by (c : Z) (ls : list (list Z)) : list Z :=
  match ls with
  | [] => []
  | [l] => l
  | l :: ls' => l ++ c :: sep_by c ls'
  end.

Lemma sep_by_cons c l l' ls : sep_by c (l :: l' :: ls) = l ++ c :: sep_by c (l' :: ls).
Proof. done. Qed.

Lemma sep_by_notin c d ls : c <> d -> Forall (fun l => c ∉ l) ls -> c ∉ sep_by d ls.
Proof.
  intros Hcd. induction 1 as [|l ls Hl Hls IH]; [apply not_elem_of_nil|].
  destruct ls as [|l' ls]; [done|]. rewrite sep_by_cons, not_elem_of_app, not_elem_of_cons. done.
Qed.

(** Reading a whole line. *)
Lemma fgets_line n l rest :
  (length l < n)%nat -> 10 ∉ l -> fgets n (l ++ 10 :: rest) = (l ++ [10], rest).
Proof.
  revert n. induction l as [|x l IH]; intros [|n] Hn Hl; cbn in Hn; try lia; [done|].
  apply not_elem_of_cons in Hl as [Hx Hl]. cbn [app fgets].
  rewrite (proj2 (Z.eqb_neq x 10)) by congruence. rewrite IH by (done || lia). done.
Qed.

(** The characters in front of the first NUL. *)
Fixpoint c_string (s : list Z) : list Z :=
  match s with
  | [] => []
  | c :: s' => if c =? 0 then [] else c :: c_string s'
  end.

Lemma c_string_id s : 0 ∉ s -> c_string s = s.
Proof.
  induction s as [|c s IH]; [done|]. intros [Hc Hs]%not_elem_of_cons. cbn.
  rewrite (proj2 (Z.eqb_neq _ _)) by congruence. by rewrite IH.
Qed.
