(* ===== verification/Priorities.v ===== *)
(** * Priorities.v -- the initial priorities file

    Models [vmm/ski-priorities.c]: each line of the file names groups
    [cpu{...};int{...};n] separated by bars; a group stands for one thread per
    pair of its CPUs and interrupts, and the threads of a line with more than
    one group are shuffled with a generator seeded from the schedule seed.  The
    resulting list fills SKI's thread table, lowest priority value first.

    The regular expression of the source is matched by [regexec]; its three
    bracketed sublists cannot contain a closing brace, so the match at a given
    position is unique. *)

From Stdlib Require Import Strings.String.
From S2P Require Import Prelude CString Liveness LoopTrace Machine Sched.

Definition SKI_MAX_CONFIG_PRIORITIES_PER_LINE : Z := 64 * 256.
Definition SKI_MAX_CONFIG_PRIORITIES_LENGHT : nat := 1024.
Definition SKI_MAX_CONFIG_PRIORITIES_FIELD_ENTRIES : nat := 50.

Record ski_config_priorities_entry := mk_entry { p_cpu : Z; p_i : Z; p_n : Z }.

#[export] Instance entry_eq_dec : EqDecision ski_config_priorities_entry.
Proof. solve_decision. Defined.
#[export] Instance entry_inhabited : Inhabited ski_config_priorities_entry := populate (mk_entry 0 0 0).

(** *** The generator *)

(** [ski_config_priorities_random]: the new [unsigned long] state and the result. *)
Definition ski_config_priorities_random (next : Z) : Z * Z :=
  let next := u64 (next * 1103515245 + 12345) in
  (next, u32 (next / 65536) mod 32768).

(** [ski_config_priorities_random_init]: the state for an [unsigned] seed. *)
Definition ski_config_priorities_random_init (seed : Z) : Z := u32 seed.

(** *** Parsing a line *)

Definition from_brace (s : list Z) : list Z := default [] (strchr s 125).

(** A match of the regular expression at the front of [s]: where the first
    sublist starts and ends, where the second does, and where the third starts. *)
Definition match_here (s : list Z) : option (list Z * list Z * list Z * list Z * list Z) :=
  if starts_with (str "cpu{") s then
    let s1 := drop 4 s in
    let e1 := from_brace s1 in
    if starts_with (str "};int{") e1 then
      let s2 := drop 6 e1 in
      let e2 := from_brace s2 in
      if starts_with (str "};") e2 then Some (s1, e1, s2, e2, drop 2 e2) else None
    else None
  else None.

(** The leftmost match. *)
Fixpoint regexec (s : list Z) : option (list Z * list Z * list Z * list Z * list Z) :=
  match match_here s with
  | Some r => Some r
  | None => match s with [] => None | _ :: s' => regexec s' end
  end.

(** The loop over the numbers of a sublist, [cur] being [cur_entry] and [lim]
    the end of the sublist; a pointer is before another one when the string at
    it is longer.  [fuel] bounds the iterations by the length of the string. *)
Fixpoint read_list (fuel : nat) (cur lim : list Z) (acc : list Z) : E (list Z) :=
  match fuel with
  | O => Val acc
  | S fuel' =>
      if bool_decide (length lim < length cur)%nat then
        match sscanf_d cur with
        | None => Fail HAssert
        | Some (n, _) =>
            if bool_decide (SKI_MAX_CONFIG_PRIORITIES_FIELD_ENTRIES <= length acc)%nat then Fail HUndef
            else
              match strchr cur 44 with
              | Some (_ :: next) => read_list fuel' next lim (acc ++ [n])
              | _ => Val (acc ++ [n])
              end
        end
      else Val acc
  end.

(** The threads of a group. *)
Definition product (cpus ints : list Z) (n : Z) : list ski_config_priorities_entry :=
  cpus ≫= (fun c => (fun i => mk_entry c i n) <$> ints).

(** The loop over the groups; the flag is [should_randomize]. *)
Fixpoint parse_groups (fuel : nat) (cur : list Z) (plist : list ski_config_priorities_entry)
    (should_randomize : bool) : E (list ski_config_priorities_entry * bool) :=
  match fuel with
  | O => Val (plist, should_randomize)
  | S fuel' =>
      match cur with
      | [] => Val (plist, should_randomize)
      | _ =>
          match regexec cur with
          | None => Fail HAssert
          | Some (s1, e1, s2, e2, s3) =>
              cpus <-? read_list (S (length cur)) s1 e1 [] ;;
              ints <-? read_list (S (length cur)) s2 e2 [] ;;
              let n := match sscanf_d s3 with Some (n, _) => n | None => default 0 (last ints) end in
              let plist := plist ++ product cpus ints n in
              if SKI_MAX_CONFIG_PRIORITIES_PER_LINE <? Z.of_nat (length plist) then Fail HUndef
              else
                match strchr cur 124 with
                | Some (_ :: next) => parse_groups fuel' next plist true
                | _ => Val (plist, should_randomize)
                end
          end
      end
  end.

(** Exchange of two entries. *)
Definition swap (i j : nat) (l : list ski_config_priorities_entry) : list ski_config_priorities_entry :=
  let tmp := l !!! i in
  let l := <[i := l !!! j]> l in
  <[j := tmp]> l.

(** The shuffle of the entries [start .. start + k - 1], from the last one down. *)
Fixpoint shuffle (k start : nat) (next : Z) (l : list ski_config_priorities_entry)
  : Z * list ski_config_priorities_entry :=
  match k with
  | O => (next, l)
  | S k' =>
      let '(next, r) := ski_config_priorities_random next in
      let j := (Z.to_nat (r mod Z.of_nat k) + start)%nat in
      shuffle k' start next (swap (start + k') j l)
  end.

Definition ski_config_priorities_parseline (arg_str : list Z)
    (st : Z * list ski_config_priorities_entry) : E (Z * list ski_config_priorities_entry) :=
  let '(next, plist) := st in
  let s := take (SKI_MAX_CONFIG_PRIORITIES_LENGHT - 1) arg_str in
  r <-? parse_groups (S (length s)) s plist false ;;
  let '(plist', should_randomize) := r in
  if should_randomize : bool
  then Val (shuffle (length plist' - length plist) (length plist) next plist')
  else Val (next, plist').

(** *** Reading the file *)

Definition strip_newline (l : list Z) : list Z :=
  match last l with
  | Some 10 => removelast l
  | _ => l
  end.

(** The [fgets] loop over the rest of the file. *)
Fixpoint read_file (fuel : nat) (content : list Z) (st : Z * list ski_config_priorities_entry)
  : E (Z * list ski_config_priorities_entry) :=
  match fuel with
  | O => Val st
  | S fuel' =>
      match content with
      | [] => Val st
      | _ =>
          let '(buffer, rest) := fgets 510 content in
          st' <-? ski_config_priorities_parseline (strip_newline buffer) st ;;
          read_file fuel' rest st'
      end
  end.

(** [for(i=0;i<plist_n;i++) ski_threads_insert(env, p->cpu, p->i, p->n);] *)
Fixpoint insert_all (plist : list ski_config_priorities_entry) : SCH unit :=
  match plist with
  | [] => ret tt
  | p :: plist' => ski_threads_insert (p_cpu p) (p_i p) (p_n p) ;;; insert_all plist'
  end.

(** [content] is [None] when the file cannot be opened. *)
Definition ski_config_priorities_parse_file (content : option (list Z)) (seed : Z) : SCH unit :=
  match content with
  | None => stop HAssert
  | Some content =>
      let next := ski_config_priorities_random_init (Z.quot seed 10) in
      st <- lift (fun _ => read_file (S (length content)) content (next, [])) ;;
      ski_threads_reset ;;;
      insert_all (snd st)
  end.

(** [ski_threads_initialize] of cpu-exec.c; [filename] is [None] when no
    priorities file was given. *)
Definition ski_threads_initialize (filename : option (option (list Z))) : SCH unit :=
  match filename with
  | Some content =>
      m <- get ;;
      ski_config_priorities_parse_file content (o_seed (m_opts m)) ;;;
      ski_liveness_initialize
  | None => stop HAssert
  end.

(** ** The shuffle permutes a segment *)

Lemma insert_Permutation_delete {A} (l : list A) i x y :
  l !! i = Some x -> <[i := y]> l ≡ₚ y :: delete i l.
Proof.
  intros Hi. assert (i < length l)%nat as Hlt by (by eapply lookup_lt_Some).
  rewrite (delete_Permutation (<[i := y]> l) i y) by by apply list_lookup_insert_eq.
  replace (delete i (<[i := y]> l)) with (delete i l); [done|].
  rewrite !delete_take_drop, take_insert_ge, drop_insert_lt by lia. done.
Qed.

Lemma swap_Permutation i j l :
  (i < length l)%nat -> (j < length l)%nat -> swap i j l ≡ₚ l.
Proof.
  intros [x Hx]%lookup_lt_is_Some_2 [y Hy]%lookup_lt_is_Some_2. unfold swap.
  rewrite (list_lookup_total_correct l i x Hx), (list_lookup_total_correct l j y Hy).
  destruct (decide (i = j)) as [->|Hne].
  { simplify_eq. by rewrite !list_insert_id by (rewrite ?list_lookup_insert_eq by (by eapply lookup_lt_Some); done). }
  assert (<[i := y]> l !! j = Some y) as Hj by by rewrite list_lookup_insert_ne.
  etrans; [exact (insert_Permutation_delete _ j y x Hj)|].
  etrans; [|symmetry; exact (delete_Permutation l i x Hx)]. f_equiv.
  apply (Permutation_cons_inv (a := y)).
  etrans; [symmetry; exact (delete_Permutation _ j y Hj)|exact (insert_Permutation_delete l i x y Hx)].
Qed.

Lemma swap_app i j p q :
  (j < length q)%nat -> (i < length q)%nat ->
  swap (length p + i) (length p + j) (p ++ q) = p ++ swap i j q.
Proof.
  intros Hj Hi. unfold swap. rewrite !lookup_total_app_r by lia.
  replace (length p + i - length p)%nat with i by lia. replace (length p + j - length p)%nat with j by lia.
  by rewrite !insert_app_r.
Qed.

Lemma swap_length i j l : length (swap i j l) = length l.
Proof. unfold swap. by rewrite !length_insert. Qed.

Lemma shuffle_Permutation k next p q :
  (k <= length q)%nat ->
  exists next' q', shuffle k (length p) next (p ++ q) = (next', p ++ q') /\ q' ≡ₚ q.
Proof.
  revert next q. induction k as [|k IH]; intros next q Hk; [by eexists _, _|].
  cbn [shuffle]. destruct (ski_config_priorities_random next) as [next1 r].
  pose proof (Z.mod_pos_bound r (Z.of_nat (S k)) ltac:(lia)) as Hr.
  rewrite (Nat.add_comm (Z.to_nat _)), swap_app by lia.
  edestruct (IH next1) as (next2 & q2 & -> & Hq); [rewrite swap_length; lia|].
  eexists _, _. split; [done|]. rewrite Hq. apply swap_Permutation; lia.
Qed.

(** ** Reading back a printed configuration *)

(** A group as it is meant: its CPUs, its interrupts and its count. *)
Record group := mk_group { g_cpus : list Z; g_ints : list Z; g_n : Z }.

Definition group_entries (g : group) : list ski_config_priorities_entry :=
  product (g_cpus g) (g_ints g) (g_n g).

Definition group_ok (g : group) : Prop :=
  g_cpus g <> [] /\ g_ints g <> [] /\
  (length (g_cpus g) <= SKI_MAX_CONFIG_PRIORITIES_FIELD_ENTRIES)%nat /\
  (length (g_ints g) <= SKI_MAX_CONFIG_PRIORITIES_FIELD_ENTRIES)%nat /\
  Forall in_int (g_cpus g) /\ Forall in_int (g_ints g) /\ in_int (g_n g).

#[export] Instance group_eq_dec : EqDecision group.
Proof. solve_decision. Defined.
#[export] Instance group_ok_dec g : Decision (group_ok g).
Proof. unfold group_ok. apply _. Defined.

Definition print_list (zs : list Z) : list Z := sep_by 44 (print_dec <$> zs).

(** The text [cpu{...};int{...};n]. *)
Definition print_group (g : group) : list Z :=
  str "cpu{" ++ print_list (g_cpus g) ++ str "};int{" ++ print_list (g_ints g) ++ str "};" ++ print_dec (g_n g).

Definition print_line (gs : list group) : list Z := sep_by 124 (print_group <$> gs).

Lemma print_list_notin c zs : is_digit c = false -> c <> 45 -> c <> 44 -> c ∉ print_list zs.
Proof.
  intros ???. apply sep_by_notin; [done|]. apply Forall_fmap, Forall_true. intros z. by apply print_dec_notin.
Qed.

Lemma print_group_notin c g :
  is_digit c = false -> c <> 45 -> c <> 44 -> c ∉ str "cpu{};int" -> c ∉ print_group g.
Proof.
  intros Hd H1 H2 Hs. unfold print_group. rewrite !not_elem_of_app.
  repeat split; try (by apply print_list_notin || by apply print_dec_notin);
    rewrite list_elem_of_In in *; vm_compute in Hs |- *; tauto.
Qed.

Lemma print_group_bar g : 124 ∉ print_group g.
Proof. apply print_group_notin; [done..|]. apply (bool_decide_unpack _). by vm_compute. Qed.

Lemma print_group_newline g : 10 ∉ print_group g.
Proof. apply print_group_notin; [done..|]. apply (bool_decide_unpack _). by vm_compute. Qed.

(** The number loop reads a printed list and stops at its end. *)
Lemma read_list_print fuel zs rest acc :
  zs <> [] -> Forall in_int zs -> (length zs <= fuel)%nat ->
  (length acc + length zs <= SKI_MAX_CONFIG_PRIORITIES_FIELD_ENTRIES)%nat ->
  (exists r, rest = 125 :: r) ->
  read_list fuel (print_list zs ++ rest) rest acc = Val (acc ++ zs).
Proof.
  intros Hne Hz Hf Hl [r Hr]. revert fuel acc Hf Hl. unfold print_list.
  induction zs as [|z zs IH]; [done|]; intros [|fuel] acc Hf Hl; cbn [length] in *; [lia|].
  apply Forall_cons in Hz as [Hz Hzs]. cbn [read_list].
  pose proof (print_dec_nonempty z) as Hpz.
  assert (exists tl, print_dec z <> [] /\ sep_by 44 (print_dec <$> z :: zs) ++ rest = print_dec z ++ tl
    /\ (forall c s', tl = c :: s' -> is_digit c = false) /\ (length rest <= length tl)%nat
    /\ tl = match zs with [] => rest | _ => 44 :: (sep_by 44 (print_dec <$> zs) ++ rest) end)
    as (tl&_&Htl&Hnd&Hlen&Etl).
  { destruct zs as [|z' zs]; (eexists; split; [done|]; split; [|split; [|split; [|reflexivity]]]).
    - done.
    - intros c s' E. rewrite Hr in E. by inversion E.
    - done.
    - rewrite !fmap_cons, sep_by_cons, <- app_assoc. done.
    - intros c s' E. by inversion E.
    - rewrite length_cons, length_app. lia. }
  rewrite Htl, sscanf_print by done.
  rewrite bool_decide_true by (rewrite length_app; destruct (print_dec z); [done|cbn; lia]).
  rewrite bool_decide_false by lia. rewrite strchr_app_notin by by apply print_dec_notin.
  subst tl. destruct zs as [|z' zs].
  - destruct (strchr rest 44) as [[|x next]|] eqn:E; [done| |done].
    apply strchr_length in E. cbn in E. destruct fuel; cbn [read_list]; [done|].
    by rewrite bool_decide_false by lia.
  - change (strchr (44 :: ?s) 44) with (Some (44 :: s)). cbn [read_list]. rewrite IH; [|done..|cbn in *; lia|].
    + by rewrite <- app_assoc.
    + rewrite length_app. cbn in *. lia.
Qed.

Lemma match_here_print g tail :
  let e2 := str "};" ++ print_dec (g_n g) ++ tail in
  let e1 := str "};int{" ++ print_list (g_ints g) ++ e2 in
  match_here (print_group g ++ tail) =
  Some (print_list (g_cpus g) ++ e1, e1, print_list (g_ints g) ++ e2, e2, print_dec (g_n g) ++ tail).
Proof.
  intros e2 e1. unfold print_group. rewrite <- !app_assoc. fold e2. fold e1. unfold match_here, from_brace.
  change (starts_with (str "cpu{") (str "cpu{" ++ print_list (g_cpus g) ++ e1)) with true.
  change (drop 4 (str "cpu{" ++ print_list (g_cpus g) ++ e1)) with (print_list (g_cpus g) ++ e1). cbn zeta.
  replace (strchr (print_list (g_cpus g) ++ e1) 125) with (Some e1)
    by (symmetry; apply strchr_hit; by apply print_list_notin).
  cbn [default id from_option]. unfold id. change (starts_with (str "};int{") e1) with true.
  change (drop 6 e1) with (print_list (g_ints g) ++ e2). cbn iota.
  replace (strchr (print_list (g_ints g) ++ e2) 125) with (Some e2)
    by (symmetry; apply strchr_hit; by apply print_list_notin).
  reflexivity.
Qed.

Lemma regexec_here s r : match_here s = Some r -> regexec s = Some r.
Proof. destruct s; cbn [regexec]; by intros ->. Qed.

(** A count of separators and numbers never exceeds the text. *)
Lemma print_list_length zs : (length zs <= length (print_list zs))%nat.
Proof.
  unfold print_list. induction zs as [|z zs IH]; [done|]. destruct zs as [|z' zs].
  - cbn [fmap list_fmap sep_by length]. pose proof (print_dec_nonempty z). destruct (print_dec z); [done|cbn; lia].
  - rewrite !fmap_cons, sep_by_cons in *. rewrite length_app, !length_cons in *. lia.
Qed.

Lemma group_step fuel g tail plist b :
  group_ok g -> (forall c s', tail = c :: s' -> is_digit c = false) ->
  Z.of_nat (length (plist ++ group_entries g)) <= SKI_MAX_CONFIG_PRIORITIES_PER_LINE ->
  parse_groups (S fuel) (print_group g ++ tail) plist b =
  match strchr tail 124 with
  | Some (_ :: next) => parse_groups fuel next (plist ++ group_entries g) true
  | _ => Val (plist ++ group_entries g, b)
  end.
Proof.
  intros (Hc&Hi&Hlc&Hli&Hfc&Hfi&Hn) Ht Hl.
  assert (exists c s, print_group g ++ tail = c :: s) as (c&s&Es) by by eexists _, _.
  assert (length (g_cpus g) <= length (print_group g ++ tail) /\
          length (g_ints g) <= length (print_group g ++ tail))%nat as [Hfuel1 Hfuel2].
  { pose proof (print_list_length (g_cpus g)). pose proof (print_list_length (g_ints g)).
    unfold print_group. rewrite !length_app. lia. }
  cbn [parse_groups]. rewrite Es, <- Es.
  rewrite (regexec_here _ _ (match_here_print g tail)).
  rewrite !read_list_print by (done || lia || by eexists). cbn [ebind app].
  rewrite sscanf_print by done. cbn zeta. unfold group_entries in Hl.
  zbool. by rewrite strchr_app_notin by apply print_group_bar.
Qed.

(** The groups of a printed line are read in order; more than one asks for the
    shuffle. *)
Lemma parse_groups_print gs fuel plist b :
  gs <> [] -> Forall group_ok gs -> (length gs <= fuel)%nat ->
  Z.of_nat (length (plist ++ (gs ≫= group_entries))) <= SKI_MAX_CONFIG_PRIORITIES_PER_LINE ->
  parse_groups fuel (print_line gs) plist b =
  Val (plist ++ (gs ≫= group_entries), b || bool_decide (1 < length gs)%nat).
Proof.
  intros Hne Hgs. revert fuel plist b. unfold print_line.
  induction Hgs as [|g gs Hg Hgs IH]; [done|]; intros [|fuel] plist b Hf Hl; cbn [length] in Hf; [lia|].
  rewrite bind_cons, app_assoc in *. clear Hne. destruct gs as [|g' gs].
  - cbn [fmap list_fmap sep_by]. rewrite <- (app_nil_r (print_group g)).
    rewrite group_step by (done || by cbn [mbind list_bind] in Hl; rewrite app_nil_r in Hl).
    cbn [strchr mbind list_bind length]. rewrite app_nil_r. by rewrite orb_false_r.
  - rewrite !fmap_cons, sep_by_cons, group_step; [|done|by intros c s' [= <- _]|rewrite !length_app in *; lia].
    change (strchr (124 :: ?s) 124) with (Some (124 :: s)). cbn iota.
    rewrite <- fmap_cons. rewrite IH by (done || (cbn in *; lia)).
    rewrite (bool_decide_true (1 < length (g :: g' :: gs))%nat) by (cbn; lia).
    by rewrite orb_true_r.
Qed.

(** What a line stands for: its groups' threads, in order for one group, in
    some order for more. *)
Definition line_entries (gs : list group) (seg : list ski_config_priorities_entry) : Prop :=
  seg ≡ₚ gs ≫= group_entries /\ (length gs = 1%nat -> seg = gs ≫= group_entries).

(** Lines that fit the buffer of the file reader. *)
Definition line_ok (gs : list group) : Prop :=
  gs <> [] /\ Forall group_ok gs /\ (length (print_line gs) < 510)%nat.

#[export] Instance line_ok_dec gs : Decision (line_ok gs).
Proof. unfold line_ok. apply _. Defined.

Lemma print_line_length gs : (length gs <= length (print_line gs))%nat.
Proof.
  unfold print_line. induction gs as [|g gs IH]; [done|]. destruct gs as [|g' gs].
  - cbn. lia.
  - rewrite !fmap_cons, sep_by_cons in *. rewrite length_app, !length_cons in *. lia.
Qed.

Lemma parseline_print gs next plist :
  line_ok gs ->
  Z.of_nat (length plist + length (gs ≫= group_entries)) <= SKI_MAX_CONFIG_PRIORITIES_PER_LINE ->
  exists next' seg,
    ski_config_priorities_parseline (print_line gs) (next, plist) = Val (next', plist ++ seg) /\
    line_entries gs seg.
Proof.
  intros (Hne&Hok&Hlen) Hl. unfold ski_config_priorities_parseline, SKI_MAX_CONFIG_PRIORITIES_LENGHT.
  rewrite take_ge by lia. pose proof (print_line_length gs).
  rewrite parse_groups_print by (done || lia || rewrite length_app; lia).
  cbn [ebind orb]. case_bool_decide as Hlg.
  - rewrite length_app, Nat.add_comm, Nat.add_sub.
    edestruct (shuffle_Permutation (length (gs ≫= group_entries)) next plist) as (next'&q&->&Hq); [done|].
    eexists _, _. split; [done|]. split; [done|lia].
  - by eexists _, _.
Qed.

Definition print_file (cfg : list (list group)) : list Z := cfg ≫= (fun gs => print_line gs ++ [10]).

Lemma read_file_print cfg fuel next plist :
  Forall line_ok cfg -> (length cfg <= fuel)%nat ->
  Z.of_nat (length plist + length (cfg ≫= (fun gs => gs ≫= group_entries))) <= SKI_MAX_CONFIG_PRIORITIES_PER_LINE ->
  exists next' segs, read_file fuel (print_file cfg) (next, plist) = Val (next', plist ++ concat segs) /\
    Forall2 line_entries cfg segs.
Proof.
  intros Hcfg. revert fuel next plist.
  induction Hcfg as [|gs cfg Hgs Hcfg IH]; intros [|fuel] next plist Hf Hl; cbn [length] in Hf; try lia;
    [exists next, []; rewrite app_nil_r; by repeat constructor..|].
  unfold print_file in *. rewrite bind_cons. rewrite bind_cons, length_app in Hl. rewrite <- app_assoc. cbn [app].
  assert (10 ∉ print_line gs) as Hnl.
  { apply sep_by_notin; [done|]. apply Forall_fmap, Forall_true. intros g. apply print_group_newline. }
  assert (exists c s, print_line gs ++ 10 :: (cfg ≫= (fun gs => print_line gs ++ [10])) = c :: s) as (c&s&Es)
    by (destruct (print_line gs); by eexists _, _).
  cbn [read_file]. rewrite Es, <- Es. destruct Hgs as (Hne&Hok&Hlen).
  rewrite fgets_line by done. unfold strip_newline. rewrite last_snoc, removelast_last.
  destruct (parseline_print gs next plist) as (next1&seg&->&Hseg); [done|lia|]. cbn [ebind].
  destruct (IH fuel next1 (plist ++ seg)) as (next2&segs&->&Hsegs); [lia| |].
  { rewrite length_app, (Permutation_length (proj1 Hseg)). lia. }
  eexists _, (seg :: segs). rewrite <- app_assoc. split; [done|]. by constructor.
Qed.

(** ** The bounds on the loops never bind *)

Lemma read_list_fuel f1 f2 cur lim acc :
  (length cur < f1)%nat -> (length cur < f2)%nat -> read_list f1 cur lim acc = read_list f2 cur lim acc.
Proof.
  revert f2 cur acc. induction f1 as [|f1 IH]; intros [|f2] cur acc H1 H2; try lia. cbn [read_list].
  case_bool_decide; [|done]. destruct (sscanf_d cur) as [[n ?]|]; [|done]. case_bool_decide; [done|].
  destruct (strchr cur 44) as [[|x next]|] eqn:E; [done| |done].
  apply strchr_length in E. cbn in E. apply IH; lia.
Qed.

Lemma parse_groups_fuel f1 f2 cur plist b :
  (length cur < f1)%nat -> (length cur < f2)%nat -> parse_groups f1 cur plist b = parse_groups f2 cur plist b.
Proof.
  revert f2 cur plist b. induction f1 as [|f1 IH]; intros [|f2] cur plist b H1 H2; try lia. cbn [parse_groups].
  destruct cur as [|c cur]; [done|]. destruct (regexec (c :: cur)) as [[[[[s1 e1] s2] e2] s3]|]; [|done].
  destruct (read_list _ s1 e1 []) as [cpus|]; [|done]. cbn [ebind].
  destruct (read_list _ s2 e2 []) as [ints|]; [|done]. cbn [ebind].
  destruct (_ <? _); [done|]. destruct (strchr (c :: cur) 124) as [[|x next]|] eqn:E; [done| |done].
  apply strchr_length in E. cbn in E, H1, H2. apply IH; lia.
Qed.

Lemma fgets_rest n s : (length (fgets n s).2 <= length s)%nat.
Proof.
  revert s. induction n as [|n IH]; intros [|c s]; cbn; [lia..|].
  destruct (c =? 10); [cbn; lia|]. specialize (IH s). destruct (fgets n s). cbn in *. lia.
Qed.

Lemma fgets_progress n c s : (length (fgets (S n) (c :: s)).2 <= length s)%nat.
Proof.
  cbn [fgets]. destruct (c =? 10); [done|]. pose proof (fgets_rest n s). by destruct (fgets n s).
Qed.

Lemma read_file_fuel f1 f2 content st :
  (length content < f1)%nat -> (length content < f2)%nat -> read_file f1 content st = read_file f2 content st.
Proof.
  revert f2 content st. induction f1 as [|f1 IH]; intros [|f2] content st H1 H2; try lia. cbn [read_file].
  destruct content as [|c content]; [done|]. pose proof (fgets_progress 509 c content) as Hr.
  change (S 509) with 510%nat in Hr. destruct (fgets 510 (c :: content)) as [l r]. cbn [length snd] in *.
  destruct (ski_config_priorities_parseline (strip_newline l) st); cbn [ebind]; [apply IH; lia|done].
Qed.

(** ** The thread table *)

(** The list [plist] fills the table from index [k] on. *)
Definition fills (k : nat) (plist : list ski_config_priorities_entry) (ts0 ts : list thread_context) : Prop :=
  length ts = length ts0 /\
  (forall j, (j < k)%nat -> ts !! j = ts0 !! j) /\
  forall j p, plist !! j = Some p -> exists old, ts0 !! (k + j)%nat = Some old /\
    ts !! (k + j)%nat = Some (thread_entry (Z.of_nat (k + j)) (p_cpu p) (p_i p) (p_n p) old).

Lemma insert_all_Ret plist k m :
  m_threads_no m = Z.of_nat k -> Forall (fun p => p_i p = -1 \/ 0 <= p_i p) plist ->
  Z.of_nat (k + length plist) <= MAX_SKI_THREADS -> Z.of_nat (length (m_threads m)) = MAX_SKI_THREADS ->
  exists ts, insert_all plist m =
    Ret (set_m_threads_no (Z.of_nat (k + length plist)) (set_m_threads ts m)) tt /\ fills k plist (m_threads m) ts.
Proof.
  revert k m. induction plist as [|p plist IH]; intros k m Hk Hi Hn Hlen; cbn [insert_all length] in *.
  { exists (m_threads m). rewrite Nat.add_0_r, <- Hk. by destruct m. }
  apply Forall_cons in Hi as [Hp Hi]. unfold MAX_SKI_THREADS in *.
  erewrite bind_Ret by (apply threads_insert_Ret; unfold MAX_SKI_THREADS; [done|lia]).
  rewrite Hk, Nat2Z.id.
  destruct (IH (S k) (set_m_threads_no (Z.of_nat k + 1)
    (set_m_threads (alter (thread_entry (Z.of_nat k) (p_cpu p) (p_i p) (p_n p)) k (m_threads m)) m)))
    as (ts&Hts&Hl&Hlow&Hnew); [cbn; lia|done|lia|cbn; by rewrite length_alter|].
  cbn in Hl, Hlow, Hnew. rewrite length_alter in Hl.
  exists ts. rewrite Hts, Nat.add_succ_r. split; [by destruct m|].
  split; [done|]. split.
  - intros j Hj. rewrite Hlow by lia. by rewrite list_lookup_alter_ne by lia.
  - assert (exists old, m_threads m !! k = Some old) as [old Hold] by (apply lookup_lt_is_Some_2; lia).
    intros [|j] q Hq; cbn in Hq.
    + injection Hq as ->. exists old. rewrite Nat.add_0_r. split; [done|].
      rewrite Hlow by lia. by rewrite list_lookup_alter_eq, Hold.
    + destruct (Hnew j q Hq) as (o&Ho&Hq'). exists o. rewrite list_lookup_alter_ne in Ho by lia.
      by rewrite Nat.add_succ_r.
Qed.

Lemma insert_all_full plist k m :
  m_threads_no m = Z.of_nat k -> Forall (fun p => p_i p = -1 \/ 0 <= p_i p) plist ->
  MAX_SKI_THREADS < Z.of_nat (k + length plist) -> (Z.of_nat k <= MAX_SKI_THREADS) ->
  exists m', insert_all plist m = Halt m' HAssert.
Proof.
  revert k m. induction plist as [|p plist IH]; intros k m Hk Hi Hn Hk2; cbn [insert_all length] in *; [lia|].
  apply Forall_cons in Hi as [Hp Hi]. destruct (decide (Z.of_nat k < MAX_SKI_THREADS)) as [Hlt|Hge].
  - erewrite bind_Ret by (apply threads_insert_Ret; [done|lia]). apply (IH (S k)); [cbn; lia|done|lia|lia].
  - exists m. unfold ski_threads_insert, bind, get, assert_.
    assert ((p_i p =? -1) || (p_i p >=? 0) = true) as -> by (destruct Hp as [->| ?]; [done|apply orb_true_iff; lia]).
    rewrite Hk. cbn [ret]. unfold ret. by zbool.
Qed.

Definition config_entries (cfg : list (list group)) : list ski_config_priorities_entry :=
  cfg ≫= (fun gs => gs ≫= group_entries).

Lemma Forall2_line_Permutation cfg segs :
  Forall2 line_entries cfg segs -> concat segs ≡ₚ config_entries cfg.
Proof.
  unfold config_entries. induction 1 as [|gs seg cfg segs [H _] _ IH]; [done|]. rewrite bind_cons. cbn. by rewrite H, IH.
Qed.

(** What the lines of a configuration give. *)
Lemma read_config cfg seed :
  Forall line_ok cfg -> Z.of_nat (length (config_entries cfg)) <= SKI_MAX_CONFIG_PRIORITIES_PER_LINE ->
  exists next segs, Forall2 line_entries cfg segs /\
    read_file (S (length (print_file cfg))) (print_file cfg)
      (ski_config_priorities_random_init (Z.quot seed 10), []) = Val (next, concat segs).
Proof.
  intros Hcfg Hsize.
  destruct (read_file_print cfg (S (length (print_file cfg)))
    (ski_config_priorities_random_init (Z.quot seed 10)) []) as (next&segs&Hr&Hsegs); [done| |done|].
  { apply le_S. unfold print_file. clear. induction cfg as [|gs cfg IH]; [done|].
    rewrite bind_cons, !length_app. cbn. lia. }
  by exists next, segs.
Qed.

Lemma parse_file_Ret cfg seed m :
  Forall line_ok cfg -> Forall (fun p => p_i p = -1 \/ 0 <= p_i p) (config_entries cfg) ->
  Z.of_nat (length (config_entries cfg)) <= MAX_SKI_THREADS -> Z.of_nat (length (m_threads m)) = MAX_SKI_THREADS ->
  exists segs ts,
    ski_config_priorities_parse_file (Some (print_file cfg)) seed m =
      Ret (set_m_threads_no (Z.of_nat (length (config_entries cfg))) (set_m_threads ts m)) tt /\
    Forall2 line_entries cfg segs /\ fills 0 (concat segs) (m_threads m) ts.
Proof.
  intros Hcfg Hints Hsize Hm. unfold ski_config_priorities_parse_file.
  destruct (read_config cfg seed Hcfg) as (next&segs&Hsegs&Hr);
    [unfold MAX_SKI_THREADS, SKI_MAX_CONFIG_PRIORITIES_PER_LINE in *; lia|].
  pose proof (Forall2_line_Permutation _ _ Hsegs) as Hp.
  rewrite <- Hp in Hints. apply Permutation_length in Hp.
  erewrite bind_Ret by (apply lift_Val, Hr). cbn [snd]. erewrite bind_Ret by reflexivity.
  destruct (insert_all_Ret (concat segs) 0 (set_m_threads_no 0 m)) as (ts&Hts&Hf); [done|done|lia|done|].
  exists segs, ts. split; [|done]. rewrite Hts. rewrite <- Hp. by destruct m.
Qed.

(** C12: the priorities file round-trips into the thread table.  Parsing the text
    of a configuration whose lines are well formed gives a table with one thread
    per CPU and interrupt of every group; the lines keep their order, a line
    with a single group keeps the order of its threads and a line with several
    is permuted; thread [k] of the table has identifier and priority [k] and the
    CPU, interrupt and count of the [k]-th entry, and nothing else of the
    machine changes.  A configuration with more threads than the table holds
    stops at the assertion. *)
Theorem ski_config_priorities_roundtrip (cfg : list (list group)) (seed : Z) (m : machine)
    (Hcfg : Forall line_ok cfg)
    (Hints : Forall (fun p => p_i p = -1 \/ 0 <= p_i p) (config_entries cfg))
    (Hsize : Z.of_nat (length (config_entries cfg)) <= SKI_MAX_CONFIG_PRIORITIES_PER_LINE)
    (Hm : Z.of_nat (length (m_threads m)) = MAX_SKI_THREADS) :
  let n := Z.of_nat (length (config_entries cfg)) in
  (n <= MAX_SKI_THREADS ->
   exists segs ts,
    ski_config_priorities_parse_file (Some (print_file cfg)) seed m =
      Ret (set_m_threads_no n (set_m_threads ts m)) tt /\
    Forall2 line_entries cfg segs /\ fills 0 (concat segs) (m_threads m) ts) /\
  (MAX_SKI_THREADS < n ->
   exists m', ski_config_priorities_parse_file (Some (print_file cfg)) seed m = Halt m' HAssert).
Proof.
  intros n. split; intros Hn; [by apply parse_file_Ret|].
  unfold ski_config_priorities_parse_file.
  destruct (read_config cfg seed Hcfg Hsize) as (next&segs&Hsegs&Hr).
  pose proof (Forall2_line_Permutation _ _ Hsegs) as Hp.
  rewrite <- Hp in Hints. apply Permutation_length in Hp.
  erewrite bind_Ret by (apply lift_Val, Hr). cbn [snd]. erewrite bind_Ret by reflexivity.
  apply (insert_all_full _ 0); [done|done|unfold n in Hn; lia|by vm_compute].
Qed.

(** The example of the file's format comment: one fixed line, one shuffled line. *)
Definition sample_config : list (list group) :=
  [[mk_group [0; 1; 2; 3] [-1] 1];
   [mk_group [0; 1; 2; 3] [1; 4; 5; 7] 1; mk_group [0] [1; 3] 3]].

Definition empty_table : machine := set_m_threads (replicate 512 inhabitant) sample.

Lemma ski_config_priorities_roundtrip_witness :
  exists segs ts,
    ski_config_priorities_parse_file (Some (print_file sample_config)) 17 empty_table =
      Ret (set_m_threads_no 22 (set_m_threads ts empty_table)) tt /\
    Forall2 line_entries sample_config segs /\ fills 0 (concat segs) (m_threads empty_table) ts.
Proof.
  refine (proj1 (ski_config_priorities_roundtrip sample_config 17 empty_table _ _ _ _) _);
    apply (bool_decide_unpack _); by vm_compute.
Defined.
