(* ===== verification/TestControl.v ===== *)
(** * TestControl.v -- entering, running and leaving a test

    Models the test life cycle of [vmm/cpu-exec.c] (the barrier, blocking of the
    CPUs outside the test, the initialisation of a fresh test and of one resumed
    from a snapshot), the trace file functions of [vmm/ski-debug.c] and the
    guest's hypercalls of [vmm/ski-hyper.c].

    The host side is the record [host]: whether the trace file can be created,
    whether the file names fit the comment buffers, and the priorities file.
    The structure a guest passes with a hypercall is an argument of
    [ski_process_hypercall] (what [cpu_memory_rw_debug] reads); what SKI writes
    back is an event. *)

From Stdlib Require Import Strings.String.
From S2P Require Import Prelude CString Liveness LoopTrace Machine Sched Interrupts Priorities.

Definition EXCP_INTERRUPT : Z := 65536.
Definition EXCP_DEBUG : Z := 65538.
Definition EXCP_HALTED : Z := 65539.
Definition EXCP_SKI_ENTER_WAITING : Z := 65540.
Definition EXCP_SKI_EXIT_WAITING : Z := 65541.
Definition EXCP_SKI_SCHEDULER : Z := 65542.

Record host := mk_host {
  h_trace_opens : bool;
  h_names_fit : bool;
  h_priorities : option (option (list Z))
}.

(** ** The trace file *)

(** A new file is written from here on. *)
Definition ski_exec_trace_start (h : host) : SCH unit :=
  assert_ (h_trace_opens h) ;;;
  on_trace (modify (fun s => set_tr_nr_entries 0 (set_tr_out [] (set_tr_fd true s))) ;;;
            ski_loop_init).

Definition ski_exec_trace_stop : SCH unit :=
  on_trace (s <- get ;;
            when (tr_fd s) (ski_loop_finish ;;; modify (set_tr_fd false))).

Definition ski_exec_trace_print_initial_comment (h : host) (e : nat) : SCH unit :=
  env <- get_cpu e ;;
  comment_ (CTestHeader (sc_nr_cpus (cpu_ski env)) (sc_nr_max_instr (cpu_ski env))) ;;;
  assert_ (h_names_fit h) ;;;
  comment_ CKernelHeader ;;;
  comment_ CDiskHeader.

(** ** CPUs outside the test *)

Definition ski_nontesting_cpus_block : SCH unit :=
  m <- get ;;
  when (c_true (m_block_other_cpus m))
    (mod_all_cpus (fun c =>
       if negb (cpu_ski_active c) then
         set_cpu_stopped 1 (set_cpu_stop 1
           (set_cpu_old_stopped (c_true (cpu_stopped c)) (set_cpu_old_stop (c_true (cpu_stop c)) c)))
       else c)).

(** [ski_old_stop] and [ski_old_stopped] are [bool]: the assertion that they are
    not -1 holds and storing -1 stores [true]. *)
Definition ski_nontesting_cpus_unblock : SCH unit :=
  m <- get ;;
  when (c_true (m_block_other_cpus m))
    (mod_all_cpus (fun c =>
       if negb (cpu_ski_active c) then
         set_cpu_old_stopped (c_true (-1)) (set_cpu_old_stop (c_true (-1))
           (set_cpu_stopped (b2z (cpu_old_stopped c)) (set_cpu_stop (b2z (cpu_old_stop c)) c)))
       else c)).

Definition ski_deactivate_all_cpu : SCH unit :=
  ski_nontesting_cpus_unblock ;;;
  mod_all_cpus (fun c => set_cpu_ski skicpu_zero (set_cpu_ski_active false c)).

(** ** The barrier *)

Definition in_state (state : Z) (c : CPUState) : bool := sc_state (cpu_ski c) =? state.

(** [cpu_loop_exit] leaves the CPU loop: a [Jump]. *)
Definition ski_barrier (e : nat) (nr_cpus_barrier old_state new_state blocking_exception : Z) : SCH Z :=
  m <- get ;;
  let nr_cpus_missing :=
    foldl (fun missing c => if in_state old_state c then wrap32 (missing - 1) else missing)
      nr_cpus_barrier (m_cpus m) in
  if nr_cpus_missing =? 0 then
    mod_all_cpus (fun c => if in_state old_state c
                           then set_cpu_ski (set_sc_state new_state (cpu_ski c)) c else c) ;;;
    ret 0
  else
    mod_cpu e (set_cpu_exception_index blocking_exception) ;;;
    jump.

(** ** Starting a test *)

(** The debug dump looks up the CPU of every thread that exists. *)
Fixpoint dump_loop (cpus : list CPUState) (tcs : list thread_context) : E unit :=
  match tcs with
  | [] => Val tt
  | tc :: tcs' =>
      _ <-? (if tc_exists tc =? 0 then Val tt
             else c <-? find_cpu cpus (tc_cpu_no tc) ;; Val tt) ;;
      dump_loop cpus tcs'
  end.
Definition ski_threads_dump : SCH unit := lift (fun m => dump_loop (m_cpus m) (live_threads m)).

Definition ski_first_in_test (h : host) : SCH unit :=
  m <- get ;;
  when (Z.of_nat (length (filter (fun c => cpu_ski_active c = true) (m_cpus m))) =? 1)
    (modify (set_m_instructions_current 0) ;;;
     modify (set_m_instructions_total 0) ;;;
     ski_exec_trace_start h ;;;
     modify (set_m_apic_disable_timer 1) ;;;
     modify (set_m_apic_disable_all 1)).

Definition ski_start_test (h : host) (e : nat) : SCH unit :=
  ski_exec_trace_print_initial_comment h e ;;;
  ski_threads_initialize (h_priorities h) ;;;
  ski_threads_dump ;;;
  ski_nontesting_cpus_block ;;;
  mod_cpu e (set_cpu_exception_index EXCP_SKI_SCHEDULER) ;;;
  jump.

Definition ski_last_in_test : SCH unit :=
  comment_ CTestFinished ;;;
  ski_exec_trace_stop ;;;
  SKI_ASSERT false.

Definition ski_reset_common : SCH unit :=
  modify (set_m_apic_disable_timer 0) ;;;
  modify (set_m_apic_disable_all 0).

(** *** Resuming from a snapshot *)

Definition ski_snapshot_reinitialize (h : host) : SCH unit :=
  modify (set_m_instructions_current 0) ;;;
  modify (set_m_instructions_total 0) ;;;
  modify (set_m_counter_total 0) ;;;
  modify (set_m_counter_per_cycle 0) ;;;
  ski_exec_trace_start h ;;;
  modify (set_m_apic_disable_timer 1) ;;;
  modify (set_m_apic_disable_all 1) ;;;
  m <- get ;;
  when (c_true (Z.of_nat (length (m_preemptions m))))
    (p <- ski_preemption_get_and_clear_lowest (-1) ;;
     modify (set_m_global_init_preemption p)).

(** The result written to the guest: the CPU's input number or the seed. *)
Definition input_number (m : machine) (env : CPUState) : Z :=
  o_input_number (m_opts m) !!! Z.to_nat (cpu_index env).

Definition ski_liveness_init_cpu (e : nat) : SCH unit :=
  rs <- lift (fun _ => ski_liveness_init SKI_MA_ENTRIES_MAX) ;;
  mod_ski e (set_sc_cpu_rs rs).

Definition clear_counters (s : SKICPU) : SKICPU :=
  set_sc_nr_interrupts_other 0 (set_sc_nr_syscalls_other 0
    (set_sc_nr_interrupts_self 0 (set_sc_nr_syscalls_self 0 s))).

Definition ski_snapshot_reinitialize_cpu (e : nat) : SCH unit :=
  m <- get ;;
  when (m_global_init_preemption m >=? 0)
    (mod_ski e (set_sc_nr_max_instr (m_global_init_preemption m))) ;;;
  when (c_true (o_nr_cpus (m_opts m))) (mod_ski e (set_sc_nr_cpus (o_nr_cpus (m_opts m)))) ;;;
  env <- get_cpu e ;;
  let n := input_number m env in
  log_event (EvGuestWrite (cpu_index env) (if n >? -1 then n else o_seed (m_opts m))) ;;;
  mod_ski e clear_counters ;;;
  ski_liveness_init_cpu e.

(** ** Hypercalls *)

Definition HYPERCALL_IO_TYPE_TEST_ENTER : Z := 1.
Definition HYPERCALL_IO_TYPE_TEST_EXIT : Z := 2.
Definition HYPERCALL_IO_TYPE_DEBUG : Z := 3.
Definition HYPERCALL_IO_TYPE_TRACE_START : Z := 4.
Definition HYPERCALL_IO_TYPE_TRACE_STOP : Z := 5.

Definition SKI_HYPERCALL_QUIT_MESSAGE : list Z := str "END INFO".
Definition SKI_HYPERCALL_NORMAL_SNAPSHOT_MESSAGE : list Z := str "TAKE NORMAL SNAPSHOT".

(** [hypercall_io] as read from the guest; the members of the union that the
    hypercalls read are separate fields, each used with its own type.  The magic
    numbers and the size are compared, but the [assert(-1)] on a mismatch always
    holds. *)
Record hypercall_io := mk_hio {
  hio_magic_start : Z;
  hio_size : Z;
  hio_type : Z;
  gh_nr_instr : Z;
  gh_nr_cpus : Z;
  gh_msg : list Z;
  hio_magic_end : Z
}.

Definition hypercall_enter (h : host) (e : nat) (hio : hypercall_io) : SCH unit :=
  mod_cpu e (set_cpu_ski_active true) ;;;
  ski_first_in_test h ;;;
  mod_cpu e (set_cpu_exception_index (-1)) ;;;
  mod_cpu e (fun c =>
    set_cpu_ski
      (set_sc_state SKI_CPU_BLOCKED_ON_ENTER
        (set_sc_gdt (r_gdt (cpu_regs_ c)) (set_sc_cr3 (r_cr3 (cpu_regs_ c))
          (set_sc_nr_cpus (gh_nr_cpus hio) (set_sc_nr_instr_executed 0
            (set_sc_nr_instr_executed_other 0 (set_sc_nr_max_instr (gh_nr_instr hio)
              (set_sc_blocked true (set_sc_priority_adjust 0 (set_sc_priority (-1) (cpu_ski c))))))))))) c) ;;;
  ski_initialize_interrupts e ;;;
  mod_ski e clear_counters ;;;
  mod_ski e (set_sc_last_enter_cpu false) ;;;
  m <- get ;;
  env <- get_cpu e ;;
  let n := input_number m env in
  log_event (EvGuestWrite (cpu_index env) (if c_true n then n else o_seed (m_opts m))) ;;;
  ski_liveness_init_cpu e ;;;
  env <- get_cpu e ;;
  ski_barrier e (sc_nr_cpus (cpu_ski env)) SKI_CPU_BLOCKED_ON_ENTER SKI_CPU_RUNNING_TEST
    EXCP_SKI_ENTER_WAITING ;;;
  mod_ski e (set_sc_last_enter_cpu true) ;;;
  log_event EvSnapshot ;;;
  ski_start_test h e.

Definition exit_results (s : SKICPU) : list Z :=
  [sc_nr_syscalls_self s; sc_nr_interrupts_self s; sc_nr_syscalls_other s;
   sc_nr_interrupts_other s; sc_nr_instr_executed s; sc_nr_instr_executed_other s].

Definition hypercall_exit (e : nat) : SCH unit :=
  env <- get_cpu e ;;
  when (cpu_ski_active env)
    (mod_ski e (set_sc_state SKI_CPU_BLOCKED_ON_EXIT) ;;;
     env <- get_cpu e ;;
     log_event (EvExitResult (cpu_index env) (exit_results (cpu_ski env))) ;;;
     comment_ (CReachedExit (cpu_index env)) ;;;
     ski_barrier e (sc_nr_cpus (cpu_ski env)) SKI_CPU_BLOCKED_ON_EXIT SKI_CPU_NA EXCP_SKI_EXIT_WAITING ;;;
     m <- get ;;
     when (o_forkall (m_opts m) && o_exit_after_hypercall (m_opts m))
       (SKI_ASSERT_MSG false SKI_EXIT_AFTER_HYPERCALL) ;;;
     ski_last_in_test ;;;
     ski_deactivate_all_cpu).

(** The message [SYNC] only flushes the host's disks. *)
Definition hypercall_debug (e : nat) (hio : hypercall_io) : SCH unit :=
  env <- get_cpu e ;;
  log_event (EvMessage (cpu_index env) (gh_msg hio)) ;;;
  m <- get ;;
  when (c_true (o_quit_hypercall_threshold (m_opts m)) &&
        bool_decide (gh_msg hio = SKI_HYPERCALL_QUIT_MESSAGE))
    (modify (fun m => set_m_quit_counter (wrap32 (m_quit_counter m + 1)) m) ;;;
     m <- get ;;
     when (m_quit_counter m =? o_quit_hypercall_threshold (m_opts m))
       (SKI_ASSERT_MSG false SKI_EXIT_OK)) ;;;
  when (bool_decide (gh_msg hio = SKI_HYPERCALL_NORMAL_SNAPSHOT_MESSAGE)) (log_event EvSnapshot).

Definition ski_process_hypercall (h : host) (e : nat) (hio : hypercall_io) : SCH unit :=
  mod_cpu e (fun c => set_cpu_exception_index (-1) (set_cpu_eip (u32 (cpu_eip c + 2)) c)) ;;;
  if hio_type hio =? HYPERCALL_IO_TYPE_TEST_ENTER then hypercall_enter h e hio
  else if hio_type hio =? HYPERCALL_IO_TYPE_TEST_EXIT then hypercall_exit e
  else if hio_type hio =? HYPERCALL_IO_TYPE_DEBUG then hypercall_debug e hio
  else if hio_type hio =? HYPERCALL_IO_TYPE_TRACE_START then ski_exec_trace_start h
  else if hio_type hio =? HYPERCALL_IO_TYPE_TRACE_STOP then ski_exec_trace_stop
  else ret tt.

(** ** The barrier is a rendezvous *)

Definition set_state (state : Z) (c : CPUState) : CPUState := set_cpu_ski (set_sc_state state (cpu_ski c)) c.

(** The CPUs in a state. *)
Definition count_state (state : Z) (cpus : list CPUState) : Z :=
  Z.of_nat (length (filter (fun c => in_state state c = true) cpus)).

Lemma barrier_missing nr old cpus :
  0 <= nr < 2 ^ 31 -> count_state old cpus < 2 ^ 31 ->
  foldl (fun missing c => if in_state old c then wrap32 (missing - 1) else missing) nr cpus =
  nr - count_state old cpus.
Proof.
  unfold count_state. assert (forall k, - (2 ^ 31) < k - count_state old cpus -> k < 2 ^ 31 ->
    foldl (fun missing c => if in_state old c then wrap32 (missing - 1) else missing) k cpus =
    k - count_state old cpus) as H; unfold count_state in *; [|intros; apply H; lia].
  induction cpus as [|c cpus IH]; intros k H1 H2; cbn [foldl]; [change (k = k - 0); lia|].
  rewrite filter_cons in *. destruct (in_state old c) eqn:E.
  - rewrite decide_True in * by done. rewrite length_cons in *.
    rewrite wrap32_id by (unfold in_int; lia). rewrite IH by lia. lia.
  - rewrite decide_False in * by done. apply IH; lia.
Qed.

(** What the barrier does: it passes exactly when the given number of CPUs is
    in the old state, and moves them all. *)
Lemma barrier_cases e nr old new exc m :
  0 <= nr < 2 ^ 31 -> count_state old (m_cpus m) < 2 ^ 31 ->
  ski_barrier e nr old new exc m =
  if nr =? count_state old (m_cpus m)
  then Ret (set_m_cpus ((fun c => if in_state old c then set_state new c else c) <$> m_cpus m) m) 0
  else Jump (set_m_cpus (alter (set_cpu_exception_index exc) e (m_cpus m)) m).
Proof.
  intros H1 H2. unfold ski_barrier. erewrite bind_Ret by reflexivity. rewrite barrier_missing by done.
  destruct (nr =? count_state old (m_cpus m)) eqn:E; [|]; zbool; reflexivity.
Qed.

(** A CPU's arrival, as in both hypercalls: it takes the waiting state and
    enters the barrier. *)
Definition arrive (nr old new exc : Z) (e : nat) : SCH Z :=
  mod_ski e (set_sc_state old) ;;; ski_barrier e nr old new exc.

(** CPUs arrive one after the other and all of them wait. *)
Fixpoint all_wait (nr old new exc : Z) (es : list nat) (m : machine) : option machine :=
  match es with
  | [] => Some m
  | e :: es' => match arrive nr old new exc e m with
                | Jump m' => all_wait nr old new exc es' m'
                | _ => None
                end
  end.

Lemma count_alter old cpus e :
  (exists c, cpus !! e = Some c /\ in_state old c = false) ->
  count_state old (alter (set_state old) e cpus) = count_state old cpus + 1.
Proof.
  unfold count_state. revert e. induction cpus as [|c cpus IH]; intros [|e] (c'&Hc&Hs); cbn in Hc; try done.
  - injection Hc as ->. cbn [alter list_alter]. rewrite !filter_cons.
    rewrite decide_True by (unfold in_state; cbn; apply Z.eqb_refl).
    rewrite decide_False by by rewrite Hs. rewrite length_cons. lia.
  - cbn [alter list_alter]. rewrite !filter_cons.
    assert (Z.of_nat (length (filter (fun c => in_state old c = true) (alter (set_state old) e cpus))) =
            Z.of_nat (length (filter (fun c => in_state old c = true) cpus)) + 1) as Hr by (apply IH; by eexists).
    destruct (decide (in_state old c = true)); cbn [length]; unfold alter in *; lia.
Qed.

Lemma count_exception old cpus e exc :
  count_state old (alter (set_cpu_exception_index exc) e cpus) = count_state old cpus.
Proof.
  unfold count_state. revert e. induction cpus as [|c cpus IH]; intros [|e]; [done..| |].
  - cbn [alter list_alter]. rewrite !filter_cons.
    change (in_state old (set_cpu_exception_index exc c)) with (in_state old c). by destruct (decide _).
  - cbn [alter list_alter]. rewrite !filter_cons. specialize (IH e). unfold alter in *.
    destruct (decide (in_state old c = true)); cbn [length]; lia.
Qed.

Definition parked (old exc : Z) (c : CPUState) : CPUState := set_cpu_exception_index exc (set_state old c).

Lemma mod_ski_state e old m :
  mod_ski e (set_sc_state old) m = Ret (set_m_cpus (alter (set_state old) e (m_cpus m)) m) tt.
Proof. done. Qed.

(** One CPU arrives too early: it is parked. *)
Lemma arrive_waits nr old new exc e m :
  0 <= nr < 2 ^ 31 -> (exists c, m_cpus m !! e = Some c /\ in_state old c = false) ->
  count_state old (m_cpus m) + 1 < nr ->
  arrive nr old new exc e m = Jump (set_m_cpus (alter (parked old exc) e (m_cpus m)) m).
Proof.
  intros Hnr He Hlt. unfold arrive. erewrite bind_Ret by apply mod_ski_state.
  rewrite barrier_cases by (cbn [m_cpus set_m_cpus]; rewrite ?count_alter; done || lia).
  cbn [m_cpus set_m_cpus]. rewrite (count_alter old (m_cpus m) e He). zbool.
  rewrite alter_alter. by destruct m.
Qed.

Definition park_all (old exc : Z) (es : list nat) (cpus : list CPUState) : list CPUState :=
  foldl (fun cs e => alter (parked old exc) e cs) cpus es.

Lemma parked_lookup old exc (es : list nat) cpus i :
  NoDup es ->
  park_all old exc es cpus !! i =
  (if decide (i ∈ es) then parked old exc else id) <$> cpus !! i.
Proof.
  unfold park_all. intros Hnd. revert cpus. induction Hnd as [|e es He Hnd IH]; intros cpus; cbn [foldl].
  - rewrite decide_False by apply not_elem_of_nil. by rewrite option_fmap_id.
  - rewrite IH. destruct (decide (i = e)) as [->|Hne].
    + rewrite decide_False, decide_True by set_solver. by rewrite option_fmap_id, list_lookup_alter_eq.
    + rewrite list_lookup_alter_ne by done. by destruct (decide (i ∈ es)), (decide (i ∈ e :: es)); set_solver.
Qed.

Lemma all_wait_parks nr old new exc es m :
  0 <= nr < 2 ^ 31 -> NoDup es ->
  (forall e, e ∈ es -> exists c, m_cpus m !! e = Some c /\ in_state old c = false) ->
  count_state old (m_cpus m) + Z.of_nat (length es) < nr ->
  all_wait nr old new exc es m =
    Some (set_m_cpus (park_all old exc es (m_cpus m)) m) /\
  count_state old (park_all old exc es (m_cpus m)) =
    count_state old (m_cpus m) + Z.of_nat (length es).
Proof.
  unfold park_all. intros Hnr Hnd. revert m. induction Hnd as [|e es He Hnd IH]; intros m Hes Hc; cbn [all_wait foldl length] in *.
  { split; [by destruct m|lia]. }
  assert (count_state old (alter (parked old exc) e (m_cpus m)) = count_state old (m_cpus m) + 1) as Hcnt.
  { rewrite <- (count_alter old _ e (Hes e (list_elem_of_here _ _))).
    by rewrite <- (count_exception old (alter (set_state old) e (m_cpus m)) e exc), alter_alter. }
  rewrite arrive_waits by (done || lia || by apply Hes; set_solver).
  destruct (IH (set_m_cpus (alter (parked old exc) e (m_cpus m)) m)) as [-> Hn].
  - intros e' He'. cbn [m_cpus set_m_cpus]. rewrite list_lookup_alter_ne by set_solver. apply Hes. set_solver.
  - cbn [m_cpus set_m_cpus]. lia.
  - cbn [m_cpus set_m_cpus] in *. split; [by destruct m|lia].
Qed.

Lemma count_none state cpus : Forall (fun c => in_state state c = false) cpus -> count_state state cpus = 0.
Proof.
  unfold count_state. induction 1 as [|c cpus Hc _ IH]; [done|]. by rewrite filter_cons_False by by rewrite Hc.
Qed.

(** C14: the barrier is a rendezvous.  When as many CPUs as the barrier expects
    arrive one after the other, and none was waiting before, every one but the
    last is parked (its exception index is the waiting one and it leaves the CPU
    loop), the last one passes, and then exactly the CPUs that arrived are in
    the new state; no other CPU and nothing else of the machine changes. *)
Theorem ski_barrier_rendezvous (nr old new exc : Z) (es : list nat) (e : nat) (m : machine)
    (Hnd : NoDup (e :: es)) (Hnr : nr = Z.of_nat (length (e :: es))) (Hint : nr < 2 ^ 31)
    (Hes : forall i, i ∈ e :: es -> is_Some (m_cpus m !! i))
    (Hold : Forall (fun c => in_state old c = false) (m_cpus m)) :
  exists m1 m2,
    all_wait nr old new exc es m = Some m1 /\
    m1 = set_m_cpus (park_all old exc es (m_cpus m)) m /\
    arrive nr old new exc e m1 = Ret m2 0 /\
    m2 = set_m_cpus (m_cpus m2) m /\
    forall i, m_cpus m2 !! i =
      (if decide (i = e) then set_state new else
       if decide (i ∈ es) then set_cpu_exception_index exc ∘ set_state new else id) <$> m_cpus m !! i.
Proof.
  apply NoDup_cons in Hnd as [He Hnd]. rewrite length_cons in Hnr.
  assert (forall i, i ∈ e :: es -> exists c, m_cpus m !! i = Some c /\ in_state old c = false) as Hc.
  { intros i [c Hi]%Hes. exists c. split; [done|]. by eapply (Forall_lookup_1 _ _ _ _ Hold Hi). }
  pose proof (count_none old _ Hold) as H0.
  destruct (all_wait_parks nr old new exc es m) as [Hw Hn]; [lia|done|intros; apply Hc; set_solver|lia|].
  pose proof (parked_lookup old exc es (m_cpus m) e Hnd) as Hpe. rewrite decide_False, option_fmap_id in Hpe by done.
  eexists _, _. split; [exact Hw|]. split; [done|]. split; [|split].
  - unfold arrive. erewrite bind_Ret by apply mod_ski_state.
    assert (exists c, park_all old exc es (m_cpus m) !! e = Some c /\ in_state old c = false) as Hpc
      by (rewrite Hpe; apply Hc; set_solver).
    rewrite barrier_cases by (cbn [m_cpus set_m_cpus]; rewrite ?count_alter by done; lia).
    cbn [m_cpus set_m_cpus]. rewrite count_alter by done. zbool. reflexivity.
  - by destruct m.
  - intros i. cbn [m_cpus set_m_cpus]. rewrite list_lookup_fmap.
    destruct (decide (i = e)) as [->|Hne].
    + rewrite list_lookup_alter_eq, Hpe. destruct (m_cpus m !! e) as [c|] eqn:E; [|done]. cbn.
      unfold in_state at 1. cbn. rewrite Z.eqb_refl. done.
    + rewrite list_lookup_alter_ne, parked_lookup by done.
      destruct (m_cpus m !! i) as [c|] eqn:E; [|done]. cbn. destruct (decide (i ∈ es)).
      * unfold in_state. cbn. by rewrite Z.eqb_refl.
      * unfold id. by rewrite (Forall_lookup_1 _ _ _ _ Hold E).
Qed.

Lemma ski_barrier_rendezvous_witness :
  exists m1 m2,
    all_wait 2 SKI_CPU_BLOCKED_ON_EXIT SKI_CPU_NA EXCP_SKI_EXIT_WAITING [0%nat] sample = Some m1 /\
    m1 = set_m_cpus (park_all SKI_CPU_BLOCKED_ON_EXIT EXCP_SKI_EXIT_WAITING [0%nat] (m_cpus sample)) sample /\
    arrive 2 SKI_CPU_BLOCKED_ON_EXIT SKI_CPU_NA EXCP_SKI_EXIT_WAITING 1 m1 = Ret m2 0 /\
    m2 = set_m_cpus (m_cpus m2) sample /\
    forall i, m_cpus m2 !! i =
      (if decide (i = 1%nat) then set_state SKI_CPU_NA else
       if decide (i ∈ [0%nat]) then set_cpu_exception_index EXCP_SKI_EXIT_WAITING ∘ set_state SKI_CPU_NA
       else id) <$> m_cpus sample !! i.
Proof.
  apply (ski_barrier_rendezvous 2 SKI_CPU_BLOCKED_ON_EXIT SKI_CPU_NA EXCP_SKI_EXIT_WAITING [0%nat] 1 sample).
  - apply (bool_decide_unpack _). by vm_compute.
  - done.
  - done.
  - intros i Hi. apply list_elem_of_In in Hi. destruct Hi as [<-|[<-|[]]]; by eexists.
  - apply (bool_decide_unpack _). by vm_compute.
Defined.

(** ** Blocking the other CPUs *)

(** A CPU outside the test whose [stop] flags are truth values. *)
Definition flags_ok (c : CPUState) : Prop :=
  cpu_ski_active c = false -> (cpu_stop c = 0 \/ cpu_stop c = 1) /\ (cpu_stopped c = 0 \/ cpu_stopped c = 1).

Lemma c_true_b2z z : z = 0 \/ z = 1 -> b2z (c_true z) = z.
Proof. by intros [-> | ->]. Qed.

Definition blocked_cpu (c : CPUState) : CPUState :=
  if cpu_ski_active c then c
  else set_cpu_stopped 1 (set_cpu_stop 1
         (set_cpu_old_stopped (c_true (cpu_stopped c)) (set_cpu_old_stop (c_true (cpu_stop c)) c))).

Lemma nontesting_block_eq m :
  c_true (m_block_other_cpus m) = true ->
  ski_nontesting_cpus_block m = Ret (set_m_cpus (blocked_cpu <$> m_cpus m) m) tt.
Proof.
  intros H. unfold ski_nontesting_cpus_block. erewrite bind_Ret by reflexivity. rewrite H.
  cbn. unfold mod_all_cpus, modify. do 2 f_equal. apply list_fmap_ext. intros i c _.
  unfold blocked_cpu. by destruct (cpu_ski_active c).
Qed.

(** stopping the CPUs outside the test is undone at its end.  While they are
    blocked every CPU outside the test is stopped; unblocking gives each CPU its
    [stop] and [stopped] flags back, a CPU of the test is not touched, and only
    the saved copies differ from the state before. *)
Theorem ski_nontesting_cpus_roundtrip (m : machine) (Hb : m_block_other_cpus m = 1)
    (Hf : Forall flags_ok (m_cpus m)) :
  exists m1 m2,
    ski_nontesting_cpus_block m = Ret m1 tt /\
    Forall (fun c => cpu_ski_active c = false -> cpu_stop c = 1 /\ cpu_stopped c = 1) (m_cpus m1) /\
    ski_nontesting_cpus_unblock m1 = Ret m2 tt /\
    m2 = set_m_cpus ((fun c => if cpu_ski_active c then c
                               else set_cpu_old_stopped true (set_cpu_old_stop true c)) <$> m_cpus m) m.
Proof.
  eexists _, _. rewrite nontesting_block_eq by by rewrite Hb. split; [done|]. split; [|split].
  - cbn [m_cpus set_m_cpus]. apply Forall_fmap, Forall_true. intros c. unfold compose, blocked_cpu.
    destruct (cpu_ski_active c) eqn:E; cbn; [by rewrite E|done].
  - unfold ski_nontesting_cpus_unblock. erewrite bind_Ret by reflexivity.
    cbn [m_block_other_cpus set_m_cpus]. rewrite Hb. reflexivity.
  - cbn [m_cpus set_m_cpus]. rewrite <- list_fmap_compose.
    match goal with |- set_m_cpus ?l _ = set_m_cpus ?l' _ => replace l with l'; [by destruct m|] end. symmetry.
    apply list_fmap_ext. intros i c Hc. pose proof (Forall_lookup_1 _ _ _ _ Hf Hc) as Hfc.
    unfold compose, blocked_cpu. destruct (cpu_ski_active c) eqn:E; cbn; rewrite E; [done|].
    destruct (Hfc E) as [H1 H2]. cbn. rewrite !c_true_b2z by done. destruct c; done.
Qed.

Definition sample_outside : machine :=
  set_m_cpus (m_cpus sample ++ [set_cpu_ski_active false (sample_cpu 2); set_cpu_stop 1 (set_cpu_ski_active false (sample_cpu 3))]) sample.

Lemma ski_nontesting_cpus_roundtrip_witness :
  exists m1 m2,
    ski_nontesting_cpus_block sample_outside = Ret m1 tt /\
    Forall (fun c => cpu_ski_active c = false -> cpu_stop c = 1 /\ cpu_stopped c = 1) (m_cpus m1) /\
    ski_nontesting_cpus_unblock m1 = Ret m2 tt /\
    m2 = set_m_cpus ((fun c => if cpu_ski_active c then c
                               else set_cpu_old_stopped true (set_cpu_old_stop true c)) <$> m_cpus sample_outside)
           sample_outside.
Proof.
  apply (ski_nontesting_cpus_roundtrip sample_outside); [done|].
  repeat (constructor; [intros ?; split; (by left) || (by right)|]). constructor.
Defined.

(** ** Leaving a test *)

Lemma trace_stop_Ret m :
  trace_ok (m_trace m) ->
  exists t, ski_exec_trace_stop m = Ret (set_m_trace t m) tt /\ tr_fd t = false.
Proof.
  intros Ht. unfold ski_exec_trace_stop, on_trace. erewrite bind_Ret by reflexivity.
  destruct (tr_fd (m_trace m)) eqn:E.
  - destruct (flush_ok _ Ht) as (t'&Hf&_). exists (set_tr_fd false t').
    change ski_loop_finish with ski_loop_flush. cbn [when]. by erewrite bind_Ret by exact Hf.
  - by exists (m_trace m).
Qed.

Definition deactivated (c : CPUState) : CPUState :=
  set_cpu_ski skicpu_zero (set_cpu_ski_active false
    (if cpu_ski_active c then c
     else set_cpu_old_stopped true (set_cpu_old_stop true
            (set_cpu_stopped (b2z (cpu_old_stopped c)) (set_cpu_stop (b2z (cpu_old_stop c)) c))))).

Lemma deactivate_Ret m :
  m_block_other_cpus m = 1 ->
  ski_deactivate_all_cpu m = Ret (set_m_cpus (deactivated <$> m_cpus m) m) tt.
Proof.
  intros Hb. unfold ski_deactivate_all_cpu, ski_nontesting_cpus_unblock, bind, get, when, mod_all_cpus, modify.
  rewrite Hb. cbn. rewrite <- list_fmap_compose.
  match goal with |- Ret (set_m_cpus ?a _) _ = Ret (set_m_cpus ?b _) _ => enough (a = b) as -> by done end.
  apply list_fmap_ext. intros i c _. unfold compose, deactivated. by destruct (cpu_ski_active c).
Qed.

(** The test's CPU at the exit barrier. *)
Definition at_exit (e : nat) (cpus : list CPUState) : list CPUState :=
  alter (set_state SKI_CPU_BLOCKED_ON_EXIT) e cpus.

(** What [hypercall_exit] does before the barrier. *)
Lemma hypercall_exit_barrier e c m :
  m_cpus m !! e = Some c -> cpu_ski_active c = true -> trace_ok (m_trace m) ->
  exists t, trace_ok t /\
    hypercall_exit e m =
    (ski_barrier e (sc_nr_cpus (cpu_ski c)) SKI_CPU_BLOCKED_ON_EXIT SKI_CPU_NA EXCP_SKI_EXIT_WAITING ;;;
     m <- get ;;
     when (o_forkall (m_opts m) && o_exit_after_hypercall (m_opts m))
       (SKI_ASSERT_MSG false SKI_EXIT_AFTER_HYPERCALL) ;;;
     ski_last_in_test ;;;
     ski_deactivate_all_cpu)
    (set_m_trace t (set_m_log (EvExitResult (cpu_index c) (exit_results (cpu_ski c)) :: m_log m)
       (set_m_cpus (at_exit e (m_cpus m)) m))).
Proof.
  intros Hc Ha Ht. unfold hypercall_exit.
  assert (forall s, m_cpus s !! e = Some c -> get_cpu e s = Ret s c) as Hget.
  { intros s Hs. unfold get_cpu. by rewrite (list_lookup_total_correct _ _ _ Hs). }
  erewrite bind_Ret by by apply Hget. rewrite Ha. cbn [when].
  erewrite bind_Ret by apply mod_ski_state.
  erewrite (bind_Ret (get_cpu e)); [|unfold get_cpu; cbn [m_cpus set_m_cpus];
    erewrite list_lookup_total_correct by (rewrite list_lookup_alter_eq, Hc; reflexivity); reflexivity].
  erewrite bind_Ret by reflexivity.
  edestruct (comment_Ret (CReachedExit (cpu_index (set_state SKI_CPU_BLOCKED_ON_EXIT c)))
    (set_m_log (EvExitResult (cpu_index c) (exit_results (cpu_ski c)) :: m_log m)
       (set_m_cpus (at_exit e (m_cpus m)) m))) as (t&Et&Ht'); [by destruct m|].
  exists t. split; [done|]. erewrite bind_Ret by exact Et. reflexivity.
Qed.

(** The end of the test, once all CPUs are at the exit barrier. *)
Lemma last_in_test_cases m :
  trace_ok (m_trace m) -> m_block_other_cpus m = 1 ->
  if o_assert_trap (m_opts m) then exists m', (ski_last_in_test ;;; ski_deactivate_all_cpu) m = Halt m' HTrap
  else exists m', (ski_last_in_test ;;; ski_deactivate_all_cpu) m = Ret m' tt /\
    tr_fd (m_trace m') = false /\ m_cpus m' = deactivated <$> m_cpus m /\
    Forall (fun c => cpu_ski_active c = false /\ cpu_ski c = skicpu_zero) (m_cpus m').
Proof.
  intros Ht Hb. unfold ski_last_in_test.
  destruct (comment_Ret CTestFinished m Ht) as (t2&E2&Ht2).
  destruct (trace_stop_Ret (set_m_trace t2 m) Ht2) as (t3&E3&H3).
  rewrite bind_assoc, (bind_Ret _ _ _ _ _ E2), bind_assoc, (bind_Ret _ _ _ _ _ E3). unfold SKI_ASSERT.
  rewrite bind_assoc. erewrite bind_Ret by reflexivity. cbn [m_opts set_m_trace negb andb].
  destruct (o_assert_trap (m_opts m)); [by eexists|]. cbn [when]. erewrite bind_Ret by reflexivity.
  rewrite deactivate_Ret by done. eexists. split; [done|]. split; [done|]. split; [done|].
  cbn [m_cpus set_m_cpus]. apply Forall_fmap, Forall_true. by intros c'.
Qed.

(** the exit hypercall.  A CPU of the test that leaves it while others are
    still running is parked with its results reported.  The last one, once its
    peers wait at the exit barrier, closes the trace and deactivates SKI: no CPU
    is in a test any more, every test state is cleared and the CPUs outside the
    test get their saved [stop] flags back.  With the exit option of parallel
    exploration the process instead exits with [SKI_EXIT_AFTER_HYPERCALL], and
    with the trap option it traps. *)
Theorem ski_hypercall_exit_cases (e : nat) (c : CPUState) (m : machine)
    (Hc : m_cpus m !! e = Some c) (Ha : cpu_ski_active c = true) (Ht : trace_ok (m_trace m))
    (Hb : m_block_other_cpus m = 1) (Hnr : 0 <= sc_nr_cpus (cpu_ski c) < 2 ^ 31)
    (Hcpus : Z.of_nat (length (m_cpus m)) < 2 ^ 31) :
  let waiting := count_state SKI_CPU_BLOCKED_ON_EXIT (at_exit e (m_cpus m)) in
  (waiting <> sc_nr_cpus (cpu_ski c) ->
   exists m', hypercall_exit e m = Jump m' /\
     m_cpus m' = alter (parked SKI_CPU_BLOCKED_ON_EXIT EXCP_SKI_EXIT_WAITING) e (m_cpus m) /\
     m_log m' = EvExitResult (cpu_index c) (exit_results (cpu_ski c)) :: m_log m) /\
  (waiting = sc_nr_cpus (cpu_ski c) ->
   if o_forkall (m_opts m) && o_exit_after_hypercall (m_opts m)
   then exists m', hypercall_exit e m = Halt m' (HExit SKI_EXIT_AFTER_HYPERCALL)
   else if o_assert_trap (m_opts m) then exists m', hypercall_exit e m = Halt m' HTrap
   else exists m', hypercall_exit e m = Ret m' tt /\ tr_fd (m_trace m') = false /\
     m_cpus m' = deactivated <$>
       ((fun c => if in_state SKI_CPU_BLOCKED_ON_EXIT c then set_state SKI_CPU_NA c else c) <$>
          at_exit e (m_cpus m)) /\
     Forall (fun c => cpu_ski_active c = false /\ cpu_ski c = skicpu_zero) (m_cpus m')).
Proof.
  intros waiting. destruct (hypercall_exit_barrier e c m Hc Ha Ht) as (t&Ht'&->).
  assert (waiting < 2 ^ 31) as Hw.
  { unfold waiting, count_state, at_exit.
    pose proof (length_filter (fun c => in_state SKI_CPU_BLOCKED_ON_EXIT c = true)
      (alter (set_state SKI_CPU_BLOCKED_ON_EXIT) e (m_cpus m))) as Hl.
    rewrite length_alter in Hl. lia. }
  match goal with |- context [bind (ski_barrier _ _ _ _ _) _ ?s] =>
    pose proof (barrier_cases e (sc_nr_cpus (cpu_ski c)) SKI_CPU_BLOCKED_ON_EXIT SKI_CPU_NA
      EXCP_SKI_EXIT_WAITING s Hnr Hw) as HB end.
  cbn [m_cpus set_m_trace set_m_log set_m_cpus] in HB. fold waiting in HB.
  split; intros Hx.
  - rewrite (proj2 (Z.eqb_neq _ _)) in HB by congruence. erewrite bind_Jump by exact HB.
    eexists. split; [done|]. split; [|done]. cbn. unfold at_exit. by rewrite alter_alter.
  - rewrite (proj2 (Z.eqb_eq _ _)) in HB by congruence. erewrite bind_Ret by exact HB.
    erewrite bind_Ret by reflexivity. cbn [m_opts set_m_cpus set_m_trace set_m_log].
    destruct (o_forkall (m_opts m) && o_exit_after_hypercall (m_opts m)); [by eexists|].
    cbn [when]. erewrite bind_Ret by reflexivity.
    match goal with |- context [bind ski_last_in_test _ ?s] => exact (last_in_test_cases s Ht' Hb) end.
Qed.

(** Two CPUs of a test, the first already waiting to leave. *)
Definition sample_leaving : machine :=
  set_m_cpus (alter (set_state SKI_CPU_BLOCKED_ON_EXIT) 0%nat (m_cpus sample_outside)) sample_outside.

Lemma ski_hypercall_exit_cases_witness :
  exists m', hypercall_exit 1 sample_leaving = Ret m' tt /\ tr_fd (m_trace m') = false /\
     m_cpus m' = deactivated <$>
       ((fun c => if in_state SKI_CPU_BLOCKED_ON_EXIT c then set_state SKI_CPU_NA c else c) <$>
          at_exit 1 (m_cpus sample_leaving)) /\
     Forall (fun c => cpu_ski_active c = false /\ cpu_ski c = skicpu_zero) (m_cpus m').
Proof.
  refine (proj2 (ski_hypercall_exit_cases 1 (sample_cpu 1) sample_leaving _ _ _ _ _ _) _);
    [done|done|exact sample_trace_ok|done|done|done|done].
Defined.

(** ** Quitting on the guest's request *)

Definition quit_message (hio : hypercall_io) : Prop :=
  hio_type hio = HYPERCALL_IO_TYPE_DEBUG /\ gh_msg hio = SKI_HYPERCALL_QUIT_MESSAGE.

(** A sequence of hypercalls by the CPUs of the guest; it ends when one does not
    return. *)
Fixpoint hypercalls (h : host) (cs : list (nat * hypercall_io)) : SCH unit :=
  match cs with
  | [] => ret tt
  | (e, hio) :: cs' => ski_process_hypercall h e hio ;;; hypercalls h cs'
  end.

Lemma quit_step h e hio m :
  quit_message hio -> 0 < o_quit_hypercall_threshold (m_opts m) ->
  0 <= m_quit_counter m < 2 ^ 31 - 1 ->
  exists m', m_opts m' = m_opts m /\ m_quit_counter m' = m_quit_counter m + 1 /\
  ski_process_hypercall h e hio m =
    if m_quit_counter m + 1 =? o_quit_hypercall_threshold (m_opts m)
    then Halt m' (HExit SKI_EXIT_OK) else Ret m' tt.
Proof.
  intros [Ht Hm] Hth Hq. unfold ski_process_hypercall. erewrite bind_Ret by reflexivity.
  rewrite Ht. cbn [Z.eqb Pos.eqb HYPERCALL_IO_TYPE_DEBUG HYPERCALL_IO_TYPE_TEST_ENTER HYPERCALL_IO_TYPE_TEST_EXIT].
  change (3 =? 1) with false. change (3 =? 2) with false. change (3 =? 3) with true. cbn iota.
  unfold hypercall_debug. erewrite bind_Ret by reflexivity. erewrite bind_Ret by reflexivity.
  erewrite bind_Ret by reflexivity. rewrite Hm, bool_decide_true by done.
  cbn [m_opts set_m_log set_m_cpus]. unfold c_true. rewrite (proj2 (Z.eqb_neq _ _)) by lia. cbn [negb andb when].
  rewrite bind_assoc. erewrite bind_Ret by reflexivity. rewrite bind_assoc. erewrite bind_Ret by reflexivity.
  cbn [m_quit_counter set_m_quit_counter m_opts set_m_log set_m_cpus].
  rewrite wrap32_id by (unfold in_int; lia).
  destruct (m_quit_counter m + 1 =? o_quit_hypercall_threshold (m_opts m)); cbn [when].
  - eexists. split; [|split; [|by erewrite bind_Halt by reflexivity]]; done.
  - erewrite bind_Ret by reflexivity. rewrite bool_decide_false by by vm_compute.
    eexists. split; [|split; [|reflexivity]]; done.
Qed.

(** The quit threshold counts exactly.  With a positive threshold and no
    quit message so far, a sequence of quit messages shorter than the threshold
    returns each time, and the message that reaches it makes the process exit
    with [SKI_EXIT_OK], whatever would follow. *)
Theorem ski_quit_threshold_exact (h : host) (cs : list (nat * hypercall_io)) (m : machine)
    (Hq : Forall (fun c => quit_message (snd c)) cs) (H0 : m_quit_counter m = 0)
    (Hth : 0 < o_quit_hypercall_threshold (m_opts m) < 2 ^ 31) :
  (Z.of_nat (length cs) < o_quit_hypercall_threshold (m_opts m) ->
   exists m', hypercalls h cs m = Ret m' tt /\ m_quit_counter m' = Z.of_nat (length cs)) /\
  (o_quit_hypercall_threshold (m_opts m) <= Z.of_nat (length cs) ->
   exists m', hypercalls h cs m = Halt m' (HExit SKI_EXIT_OK) /\
     m_quit_counter m' = o_quit_hypercall_threshold (m_opts m)).
Proof.
  assert (forall k m, 0 <= k -> m_quit_counter m = k -> k < o_quit_hypercall_threshold (m_opts m) < 2 ^ 31 ->
    (k + Z.of_nat (length cs) < o_quit_hypercall_threshold (m_opts m) ->
     exists m', hypercalls h cs m = Ret m' tt /\ m_quit_counter m' = k + Z.of_nat (length cs)) /\
    (o_quit_hypercall_threshold (m_opts m) <= k + Z.of_nat (length cs) ->
     exists m', hypercalls h cs m = Halt m' (HExit SKI_EXIT_OK) /\
       m_quit_counter m' = o_quit_hypercall_threshold (m_opts m))) as Hk; [|apply (Hk 0); lia].
  clear H0 Hth m. induction Hq as [|[e hio] cs Hc Hq IH]; intros k m Hk0 Hk Hth; cbn [hypercalls length] in *.
  { split; intros; [exists m; split; [done|lia]|lia]. }
  destruct (quit_step h e hio m Hc) as (m1&Ho&Hq1&Hs); [lia|lia|].
  destruct (m_quit_counter m + 1 =? o_quit_hypercall_threshold (m_opts m)) eqn:E.
  - erewrite bind_Halt by exact Hs. split; intros; [lia|]. exists m1. split; [done|lia].
  - erewrite bind_Ret by exact Hs. rewrite <- Ho in *. destruct (IH (k + 1) m1) as [IH1 IH2]; [lia..|].
    rewrite Nat2Z.inj_succ. split; intros Hlen.
    + destruct IH1 as (m'&H1&H2); [lia|]. exists m'. split; [done|lia].
    + apply IH2. lia.
Qed.

Definition sample_host : host := mk_host true true (Some (Some (print_file sample_config))).

Definition sample_quit : machine :=
  mk_machine (m_cpus sample) (m_threads sample) 3 None 0 0 0 0 0 1 1 1 (-1) [] sample_trace [] 0
    (mk_opts 1 false (replicate 16 0) 7 2 false false true true false 2).

Lemma ski_quit_threshold_exact_witness :
  let quit := mk_hio 0 0 HYPERCALL_IO_TYPE_DEBUG 0 0 SKI_HYPERCALL_QUIT_MESSAGE 0 in
  exists m', hypercalls sample_host [(0%nat, quit); (1%nat, quit); (0%nat, quit)] sample_quit =
    Halt m' (HExit SKI_EXIT_OK) /\ m_quit_counter m' = 2.
Proof.
  intros quit.
  refine (proj2 (ski_quit_threshold_exact sample_host [(0%nat, quit); (1%nat, quit); (0%nat, quit)] sample_quit _ _ _) _);
    [by repeat constructor|done|done|done].
Defined.

(** ** Starting a test *)

(** An entry of the configuration that names a CPU of the machine and can be
    triggered. *)
Definition entry_ok (cpus : list CPUState) (p : ski_config_priorities_entry) : Prop :=
  (p_i p = -1 \/ 0 <= p_i p) /\ 0 < p_n p < 2 ^ 31 /\ p_cpu p ∈ cpu_index <$> cpus.

#[export] Instance entry_ok_dec cpus p : Decision (entry_ok cpus p).
Proof. unfold entry_ok. apply _. Defined.

(** The thread of an entry once the test has started. *)
Definition started_thread (k : nat) (p : ski_config_priorities_entry) (tc : thread_context) : Prop :=
  tc_id tc = Z.of_nat k /\ tc_priority tc = Z.of_nat k /\ tc_priority_adjust tc = 0 /\
  tc_cpu_no tc = p_cpu p /\ tc_int_no tc = p_i p /\ tc_count tc = p_n p /\
  tc_exists tc = (if p_i p >=? 0 then 0 else 1) /\
  tc_wait_for_rs tc = 0 /\ tc_wait_for_rs_on_pause tc = 0 /\ thread_ok tc.

Lemma find_cpu_known cpus n : n ∈ cpu_index <$> cpus -> exists c, find_cpu cpus n = Val c.
Proof.
  intros Hn. unfold find_cpu. destruct (list_find (fun c => cpu_index c = n) cpus) as [[i c]|] eqn:E; [by exists c|].
  apply list_find_None in E. apply list_elem_of_fmap in Hn as (c&->&Hc).
  rewrite Forall_forall in E. by destruct (E c Hc).
Qed.

Lemma dump_loop_Val cpus tcs : Forall (cpu_known cpus) tcs -> dump_loop cpus tcs = Val tt.
Proof.
  induction 1 as [|tc tcs [c Hc] _ IH]; [done|]. cbn [dump_loop]. rewrite Hc. by destruct (tc_exists tc =? 0).
Qed.

Lemma started_thread_intro k p old :
  (p_i p = -1 \/ 0 <= p_i p) -> 0 < p_n p < 2 ^ 31 ->
  started_thread k p (liveness_clear (thread_entry (Z.of_nat k) (p_cpu p) (p_i p) (p_n p) old)).
Proof.
  intros Hi Hn. unfold started_thread, liveness_clear, thread_entry, ski_tc_initialize, thread_ok. cbn.
  destruct Hi as [->|Hi]; [by repeat split; auto; left|].
  assert ((p_i p >=? 0) = true) as -> by lia. cbn.
  repeat split; auto with lia.
Qed.

(** The threads of the table after the liveness state is reset. *)
Lemma started_table plist ts0 ts (cpus : list CPUState) :
  fills 0 plist ts0 ts -> Forall (entry_ok cpus) plist ->
  Forall2 (fun kp tc => started_thread kp.1 kp.2 tc) (imap pair plist)
    (liveness_clear <$> take (length plist) ts).
Proof.
  intros (Hl&_&Hf) Hok. apply Forall2_same_length_lookup. split.
  - rewrite length_imap, length_fmap, length_take. enough (length plist <= length ts)%nat by lia.
    destruct (decide (length plist = 0%nat)) as [->|Hne]; [lia|].
    destruct (lookup_lt_is_Some_2 plist (length plist - 1)%nat ltac:(lia)) as [p Hp].
    destruct (Hf _ _ Hp) as (old&_&Hts). apply lookup_lt_Some in Hts. lia.
  - intros k [k' p] tc Hk Htc. rewrite list_lookup_imap in Hk.
    destruct (plist !! k) as [p'|] eqn:Hp; [|done]. injection Hk as <- <-.
    destruct (Hf _ _ Hp) as (old&_&Hts). rewrite list_lookup_fmap in Htc.
    rewrite lookup_take_lt in Htc by by eapply lookup_lt_Some. cbn in Hts. rewrite Hts in Htc. injection Htc as <-.
    destruct (Forall_lookup_1 _ _ _ _ Hok Hp) as (Hi&Hn&_). by apply started_thread_intro.
Qed.

Lemma started_known plist tcs cpus cpus' :
  Forall2 (fun kp tc => started_thread kp.1 kp.2 tc) (imap pair plist) tcs ->
  Forall (entry_ok cpus) plist -> cpu_index <$> cpus' = cpu_index <$> cpus -> Forall (cpu_known cpus') tcs.
Proof.
  intros Hs Hok Hc. apply Forall_lookup. intros k tc Hk.
  destruct (Forall2_lookup_r _ _ _ _ _ Hs Hk) as ([k' p]&Hkp&Htc).
  rewrite list_lookup_imap in Hkp. destruct (plist !! k) as [p'|] eqn:Ep; [|done]. injection Hkp as <- <-.
  destruct (Forall_lookup_1 _ _ _ _ Hok Ep) as (_&_&Hin). destruct Htc as (_&_&_&Hcpu&_).
  unfold cpu_known. rewrite Hcpu. apply find_cpu_known. by rewrite Hc.
Qed.

Lemma started_threads_ok kps tcs :
  Forall2 (fun kp tc => started_thread kp.1 kp.2 tc) kps tcs -> Forall thread_ok tcs.
Proof. induction 1 as [|kp tc kps tcs H _ IH]; constructor; [apply H|done]. Qed.

(** The CPUs once the test has started: no CPU waits for an interrupt, the ones
    outside the test are blocked, and [e] returns to the scheduler. *)
Definition started_cpus (e : nat) (cpus : list CPUState) : list CPUState :=
  alter (set_cpu_exception_index EXCP_SKI_SCHEDULER) e
    (blocked_cpu <$> ((fun c => set_cpu_ski (set_sc_wait_for_interrupt 0 (cpu_ski c)) c) <$> cpus)).

Lemma started_cpus_index e cpus : cpu_index <$> started_cpus e cpus = cpu_index <$> cpus.
Proof.
  unfold started_cpus. rewrite alter_fmap_same by done. rewrite <- !list_fmap_compose.
  apply list_fmap_ext. intros i c _. unfold compose, blocked_cpu. by destruct (cpu_ski_active _).
Qed.

Lemma started_cpus_stack e cpus :
  Forall (fun c => stack_ok (cpu_ski c)) cpus -> Forall (fun c => stack_ok (cpu_ski c)) (started_cpus e cpus).
Proof.
  intros H. unfold started_cpus. apply Forall_alter; [|done].
  apply Forall_fmap, Forall_fmap. eapply Forall_impl; [exact H|]. intros c Hc. unfold compose, blocked_cpu.
  by destruct (cpu_ski_active _).
Qed.

(** The prefix of [ski_start_test] that writes the header of the trace. *)
Lemma initial_comment_Ret h e m :
  h_names_fit h = true -> trace_ok (m_trace m) ->
  exists t, trace_ok t /\ ski_exec_trace_print_initial_comment h e m = Ret (set_m_trace t m) tt.
Proof.
  intros Hf Ht. unfold ski_exec_trace_print_initial_comment. erewrite bind_Ret by reflexivity.
  destruct (comment_Ret (CTestHeader (sc_nr_cpus (cpu_ski (m_cpus m !!! e)))
    (sc_nr_max_instr (cpu_ski (m_cpus m !!! e)))) m Ht) as (t1&E1&H1).
  destruct (comment_Ret CKernelHeader (set_m_trace t1 m) H1) as (t2&E2&H2).
  destruct (comment_Ret CDiskHeader (set_m_trace t2 (set_m_trace t1 m)) H2) as (t3&E3&H3).
  exists t3. split; [done|]. rewrite (bind_Ret _ _ _ _ _ E1), Hf. erewrite bind_Ret by reflexivity.
  rewrite (bind_Ret _ _ _ _ _ E2), E3. done.
Qed.

Lemma threads_dump_Ret m : threads_known m -> ski_threads_dump m = Ret m tt.
Proof. intros Hk. unfold ski_threads_dump. apply lift_Val. by apply dump_loop_Val. Qed.


(** Four CPUs, two of them in the test, and an empty thread table. *)
Definition start_machine : machine := set_m_cpus (m_cpus sample_outside) empty_table.

