(* ===== verification/RaceDetector.v ===== *)
(** * RaceDetector.v -- the data race detector

    Models [vmm/ski-race-detector.h] and [vmm/ski-race-detector.c]: every CPU's
    last memory access is kept, and each new access is compared with the last
    access of every other CPU.  Two accesses race when their byte ranges overlap
    and at least one of them writes.  The first 1024 races are stored, all are
    counted. *)

From S2P Require Import Prelude.

Definition SKI_RACE_DETECTOR_RACES_MAX : Z := 1024.
Definition SKI_RD_MAX_CPU : Z := 4.

Record ski_rd_memory_access := mk_access {
  a_cpu : Z;
  a_physical_memory_address : Z;
  a_ip_address : Z;
  a_length : Z;
  a_is_read : Z;
  a_instruction_count : Z
}.

#[export] Instance access_eq_dec : EqDecision ski_rd_memory_access.
Proof. solve_decision. Defined.
#[export] Instance access_inhabited : Inhabited ski_rd_memory_access := populate (mk_access 0 0 0 0 0 0).

(** [ski_rd_race]: the new access and the earlier one. *)
Record ski_rd_race := mk_race { r_m1 : ski_rd_memory_access; r_m2 : ski_rd_memory_access }.

(** [rd_races] holds the first [races_n] entries of the array. *)
Record ski_race_detector := mk_rd {
  rd_last_access_per_cpu : list ski_rd_memory_access;
  rd_races : list ski_rd_race;
  rd_total_races : Z
}.

Definition cpus : list nat := seq 0 (Z.to_nat SKI_RD_MAX_CPU).

Lemma elem_of_cpus i : i ∈ cpus <-> (i < 4)%nat.
Proof. unfold cpus. rewrite elem_of_seq. change (Z.to_nat SKI_RD_MAX_CPU) with 4%nat. lia. Qed.

Definition ski_race_detector_init : ski_race_detector :=
  mk_rd ((fun i => mk_access (Z.of_nat i) 0 0 0 0 0) <$> cpus) [] 0.

Definition ski_race_detector_save_race (rd : ski_race_detector) (m1 m2 : ski_rd_memory_access)
  : ski_race_detector :=
  let total := wrap32 (rd_total_races rd + 1) in
  if Z.of_nat (length (rd_races rd)) <? SKI_RACE_DETECTOR_RACES_MAX
  then mk_rd (rd_last_access_per_cpu rd) (rd_races rd ++ [mk_race m1 m2]) total
  else mk_rd (rd_last_access_per_cpu rd) (rd_races rd) total.

Definition ski_race_detector_is_race (m1 m2 : ski_rd_memory_access) : E Z :=
  _ <-? eassert (negb (a_cpu m1 =? a_cpu m2)) ;;
  Val (if c_true (a_is_read m1) && c_true (a_is_read m2) then 0
       else if (a_length m1 =? 0) || (a_length m2 =? 0) then 0
       else if (a_physical_memory_address m1 <=? a_physical_memory_address m2) &&
               (wrap32 (a_physical_memory_address m1 + a_length m1) >? a_physical_memory_address m2) then 1
       else if (a_physical_memory_address m2 <=? a_physical_memory_address m1) &&
               (wrap32 (a_physical_memory_address m2 + a_length m2) >? a_physical_memory_address m1) then 1
       else 0).

(** The loop over the other CPUs, [ma] being the new access. *)
Fixpoint compare_loop (cpu : Z) (ma : ski_rd_memory_access) (is_ : list nat) (rd : ski_race_detector)
  : E ski_race_detector :=
  match is_ with
  | [] => Val rd
  | i :: is' =>
      if negb (Z.of_nat i =? cpu) then
        let ma2 := rd_last_access_per_cpu rd !!! i in
        is_race <-? ski_race_detector_is_race ma ma2 ;;
        compare_loop cpu ma is' (if c_true is_race then ski_race_detector_save_race rd ma ma2 else rd)
      else compare_loop cpu ma is' rd
  end.

Definition ski_race_detector_new_access (rd : ski_race_detector)
    (cpu physical_memory_address ip_address length is_read instruction_count : Z) : E ski_race_detector :=
  _ <-? eassert ((cpu >=? 0) && (cpu <? SKI_RD_MAX_CPU)) ;;
  let k := Z.to_nat cpu in
  let ma := mk_access (a_cpu (rd_last_access_per_cpu rd !!! k)) physical_memory_address ip_address length
              is_read instruction_count in
  compare_loop cpu ma cpus (mk_rd (<[k := ma]> (rd_last_access_per_cpu rd)) (rd_races rd) (rd_total_races rd)).

(** The fields of a line of the race file. *)
Definition ski_race_detector_print (rd : ski_race_detector) : list (list Z) :=
  (fun r =>
     [a_ip_address (r_m1 r); a_ip_address (r_m2 r);
      a_physical_memory_address (r_m1 r); a_physical_memory_address (r_m2 r);
      a_cpu (r_m1 r); a_cpu (r_m2 r); a_is_read (r_m1 r); a_is_read (r_m2 r);
      a_length (r_m1 r); a_length (r_m2 r);
      a_instruction_count (r_m1 r); a_instruction_count (r_m2 r)]) <$> rd_races rd.

(** ** What a race is *)

(** An access that lies in the 32-bit address space; the detector also keeps the
    accesses of length 0 it starts with. *)
Definition access_wf (a : ski_rd_memory_access) : Prop :=
  in_int (a_physical_memory_address a) /\ 0 <= a_length a /\ a_physical_memory_address a + a_length a < 2 ^ 31.

#[export] Instance access_wf_dec a : Decision (access_wf a).
Proof. unfold access_wf. apply _. Defined.

(** The byte [b] is accessed. *)
Definition touches (a : ski_rd_memory_access) (b : Z) : Prop :=
  a_physical_memory_address a <= b < a_physical_memory_address a + a_length a.

Definition writes (a : ski_rd_memory_access) : Prop := a_is_read a = 0.

(** Two accesses conflict: they share a byte and one of them writes. *)
Definition conflict (a b : ski_rd_memory_access) : Prop :=
  (exists x, touches a x /\ touches b x) /\ (writes a \/ writes b).

(** The detector's test, without the assertion. *)
Definition is_race_b (m1 m2 : ski_rd_memory_access) : bool :=
  negb (c_true (a_is_read m1) && c_true (a_is_read m2)) &&
  negb ((a_length m1 =? 0) || (a_length m2 =? 0)) &&
  ((a_physical_memory_address m1 <=? a_physical_memory_address m2) &&
     (wrap32 (a_physical_memory_address m1 + a_length m1) >? a_physical_memory_address m2) ||
   (a_physical_memory_address m2 <=? a_physical_memory_address m1) &&
     (wrap32 (a_physical_memory_address m2 + a_length m2) >? a_physical_memory_address m1)).

Lemma is_race_eq m1 m2 :
  a_cpu m1 <> a_cpu m2 -> ski_race_detector_is_race m1 m2 = Val (b2z (is_race_b m1 m2)).
Proof.
  intros H. unfold ski_race_detector_is_race, is_race_b. rewrite (proj2 (Z.eqb_neq _ _) H). cbn [negb eassert ebind].
  destruct (c_true (a_is_read m1) && c_true (a_is_read m2)); [done|].
  destruct ((a_length m1 =? 0) || (a_length m2 =? 0)); [done|].
  destruct ((a_physical_memory_address m1 <=? a_physical_memory_address m2) && _); [done|].
  by destruct ((a_physical_memory_address m2 <=? a_physical_memory_address m1) && _).
Qed.

Lemma is_race_conflict m1 m2 :
  access_wf m1 -> access_wf m2 -> is_race_b m1 m2 = true <-> conflict m1 m2.
Proof.
  intros (H1&H1'&H1'') (H2&H2'&H2''). unfold is_race_b, conflict, touches, writes, in_int in *.
  rewrite !wrap32_id by (unfold in_int; lia).
  rewrite !andb_true_iff, !orb_true_iff, !negb_true_iff, !andb_true_iff, andb_false_iff, orb_false_iff.
  unfold c_true. rewrite !negb_false_iff, !Z.eqb_eq, !Z.eqb_neq, !Z.leb_le, !Z.gtb_lt. split.
  - intros [[Hw [Hl1 Hl2]] Hr]. split; [|done].
    destruct Hr; [exists (a_physical_memory_address m2)|exists (a_physical_memory_address m1)]; lia.
  - intros [[x [Hx1 Hx2]] Hw]. split; [split; [done|lia]|].
    destruct (decide (a_physical_memory_address m1 <= a_physical_memory_address m2)); [left|right]; lia.
Qed.

Lemma conflict_sym m1 m2 : conflict m1 m2 <-> conflict m2 m1.
Proof.
  unfold conflict. split; intros [[x [H1 H2]] Hw]; (split; [by exists x|]); tauto.
Qed.

(** the race test is exact.  For two accesses of different CPUs inside the
    address space, the detector reports a race if and only if some byte is
    touched by both and at least one of them is a write; and the test is
    symmetric. *)
Theorem ski_race_detector_is_race_exact (m1 m2 : ski_rd_memory_access)
    (Hcpu : a_cpu m1 <> a_cpu m2) (H1 : access_wf m1) (H2 : access_wf m2) :
  (ski_race_detector_is_race m1 m2 = Val 1 <-> conflict m1 m2) /\
  (ski_race_detector_is_race m1 m2 = Val 0 <-> ~ conflict m1 m2) /\
  ski_race_detector_is_race m1 m2 = ski_race_detector_is_race m2 m1.
Proof.
  rewrite !is_race_eq by congruence. pose proof (is_race_conflict m1 m2 H1 H2) as Hc.
  pose proof (is_race_conflict m2 m1 H2 H1) as Hc'.
  pose proof (conflict_sym m1 m2) as Hs.
  destruct (is_race_b m1 m2) eqn:E1, (is_race_b m2 m1) eqn:E2; cbn [b2z];
    intuition (congruence || discriminate).
Qed.

Lemma ski_race_detector_is_race_exact_witness :
  ski_race_detector_is_race (mk_access 0 4096 10 4 0 5) (mk_access 1 4099 20 1 1 7) = Val 1 <->
  conflict (mk_access 0 4096 10 4 0 5) (mk_access 1 4099 20 1 1 7).
Proof.
  refine (proj1 (ski_race_detector_is_race_exact (mk_access 0 4096 10 4 0 5) (mk_access 1 4099 20 1 1 7) _ _ _));
    [done|apply (bool_decide_unpack _); by vm_compute..].
Defined.

(** ** A run of the detector *)

(** The races of the access [ma] with the last accesses [last] of the CPUs [is_]. *)
Definition races_with (last : list ski_rd_memory_access) (ma : ski_rd_memory_access) (is_ : list nat)
  : list ski_rd_race :=
  is_ ≫= (fun i => if negb (Z.of_nat i =? a_cpu ma) && is_race_b ma (last !!! i)
                   then [mk_race ma (last !!! i)] else []).

(** The detector has seen the races [all]: it stores the first ones and counts
    them all. *)
Definition stores (all : list ski_rd_race) (rd : ski_race_detector) : Prop :=
  rd_races rd = take (Z.to_nat SKI_RACE_DETECTOR_RACES_MAX) all /\ rd_total_races rd = Z.of_nat (length all).

Lemma save_race_stores all rd m1 m2 :
  stores all rd -> Z.of_nat (length all) < 2 ^ 31 - 1 ->
  stores (all ++ [mk_race m1 m2]) (ski_race_detector_save_race rd m1 m2) /\
  rd_last_access_per_cpu (ski_race_detector_save_race rd m1 m2) = rd_last_access_per_cpu rd.
Proof.
  intros [Hr Ht] Hl. unfold ski_race_detector_save_race, stores. rewrite Hr, Ht, length_take, length_app.
  unfold SKI_RACE_DETECTOR_RACES_MAX. rewrite wrap32_id by (unfold in_int; lia).
  destruct (_ <? _) eqn:E; cbn [rd_races rd_total_races rd_last_access_per_cpu length].
  - apply Z.ltb_lt in E. assert (length all < 1024)%nat as Hall by lia. split; [|done].
    rewrite (take_ge all), (take_ge (all ++ _)) by (rewrite ?length_app; cbn [length]; lia). split; [done|lia].
  - apply Z.ltb_ge in E. assert (1024 <= length all)%nat as Hall by lia. split; [|done]. rewrite take_app_le by lia. split; [done|lia].
Qed.

Lemma compare_loop_stores ma is_ all rd :
  (forall i, i ∈ is_ -> a_cpu (rd_last_access_per_cpu rd !!! i) = Z.of_nat i) ->
  stores all rd -> Z.of_nat (length all + length is_) < 2 ^ 31 - 1 ->
  exists rd', compare_loop (a_cpu ma) ma is_ rd = Val rd' /\
    stores (all ++ races_with (rd_last_access_per_cpu rd) ma is_) rd' /\
    rd_last_access_per_cpu rd' = rd_last_access_per_cpu rd.
Proof.
  revert all rd. induction is_ as [|i is_ IH]; intros all rd Hcpu Hs Hl; cbn [compare_loop length] in *.
  { exists rd. unfold races_with. cbn. by rewrite app_nil_r. }
  unfold races_with. rewrite bind_cons. pose proof (Hcpu i (list_elem_of_here _ _)) as Hi.
  assert (forall j, j ∈ is_ -> a_cpu (rd_last_access_per_cpu rd !!! j) = Z.of_nat j) as Hcpu' by (intros; apply Hcpu; by right).
  destruct (Z.of_nat i =? a_cpu ma) eqn:Ei; cbn [negb andb].
  { apply (IH all rd Hcpu' Hs). lia. }
  rewrite is_race_eq by lia. cbn [ebind]. destruct (is_race_b ma (rd_last_access_per_cpu rd !!! i)); cbn [b2z c_true].
  - destruct (save_race_stores all rd ma (rd_last_access_per_cpu rd !!! i) Hs) as [Hs' Hlast]; [lia|].
    destruct (IH _ _ (ltac:(by rewrite Hlast)) Hs') as (rd'&H1&H2&H3); [rewrite length_app; cbn; lia|].
    exists rd'. rewrite Hlast in H2, H3. rewrite app_assoc. done.
  - change (c_true 0) with false. cbn iota. apply (IH all rd Hcpu' Hs). lia.
Qed.

Definition cpu_ok (a : ski_rd_memory_access) : Prop := 0 <= a_cpu a < SKI_RD_MAX_CPU.

#[export] Instance cpu_ok_dec a : Decision (cpu_ok a).
Proof. unfold cpu_ok. apply _. Defined.

(** The program: one access after the other. *)
Definition access_step (rd : ski_race_detector) (a : ski_rd_memory_access) : E ski_race_detector :=
  ski_race_detector_new_access rd (a_cpu a) (a_physical_memory_address a) (a_ip_address a) (a_length a)
    (a_is_read a) (a_instruction_count a).

Fixpoint access_run (rd : ski_race_detector) (accs : list ski_rd_memory_access) : E ski_race_detector :=
  match accs with
  | [] => Val rd
  | a :: accs' => rd' <-? access_step rd a ;; access_run rd' accs'
  end.

(** A CPU's last access in a history. *)
Definition last_of (cpu : Z) (h : list ski_rd_memory_access) : option ski_rd_memory_access :=
  last (filter (fun x => a_cpu x = cpu) h).

(** The detector's table for a history. *)
Definition table (h : list ski_rd_memory_access) : list ski_rd_memory_access :=
  (fun i => default (mk_access (Z.of_nat i) 0 0 0 0 0) (last_of (Z.of_nat i) h)) <$> cpus.

(** All races of a continuation [accs] of the history [h]. *)
Fixpoint all_races (h accs : list ski_rd_memory_access) : list ski_rd_race :=
  match accs with
  | [] => []
  | a :: accs' => races_with (table (h ++ [a])) a cpus ++ all_races (h ++ [a]) accs'
  end.

Lemma table_lookup h i : (i < 4)%nat ->
  table h !! i = Some (default (mk_access (Z.of_nat i) 0 0 0 0 0) (last_of (Z.of_nat i) h)).
Proof.
  intros Hi. by do 4 (destruct i as [|i]; [done|]); lia.
Qed.

Lemma last_of_cpu c h a : last_of c h = Some a -> a_cpu a = c /\ a ∈ h.
Proof.
  unfold last_of. intros H. apply last_Some_elem_of in H. by apply list_elem_of_filter in H.
Qed.

Lemma table_cpu h i : (i < 4)%nat -> a_cpu (table h !!! i) = Z.of_nat i.
Proof.
  intros Hi. rewrite (list_lookup_total_correct _ _ _ (table_lookup h i Hi)).
  destruct (last_of (Z.of_nat i) h) as [a|] eqn:E; [|done]. by apply last_of_cpu in E as [? _].
Qed.

Lemma last_of_snoc c h a : last_of c (h ++ [a]) = if decide (a_cpu a = c) then Some a else last_of c h.
Proof.
  unfold last_of. rewrite filter_app. destruct (decide (a_cpu a = c)) as [H|H].
  - by rewrite filter_cons_True, filter_nil, last_snoc by done.
  - by rewrite filter_cons_False, filter_nil, app_nil_r by done.
Qed.

Lemma table_snoc h a : cpu_ok a -> <[Z.to_nat (a_cpu a) := a]> (table h) = table (h ++ [a]).
Proof.
  unfold cpu_ok, SKI_RD_MAX_CPU. intros Ha. apply list_eq_same_length with (n := 4%nat); [done|by rewrite length_insert|].
  intros i x y Hi Hx Hy. rewrite table_lookup in Hy by done. injection Hy as <-. rewrite last_of_snoc.
  destruct (decide (i = Z.to_nat (a_cpu a))) as [->|Hne].
  - rewrite list_lookup_insert_eq in Hx by done. injection Hx as <-. by rewrite decide_True by lia.
  - rewrite list_lookup_insert_ne, table_lookup in Hx by done. injection Hx as <-. by rewrite decide_False by lia.
Qed.

Lemma access_step_stores h all rd a :
  cpu_ok a -> rd_last_access_per_cpu rd = table h -> stores all rd ->
  Z.of_nat (length all) + 4 < 2 ^ 31 - 1 ->
  exists rd', access_step rd a = Val rd' /\ rd_last_access_per_cpu rd' = table (h ++ [a]) /\
    stores (all ++ races_with (table (h ++ [a])) a cpus) rd'.
Proof.
  intros Ha Htab Hs Hl. unfold access_step, ski_race_detector_new_access. rewrite Htab.
  unfold cpu_ok, SKI_RD_MAX_CPU in *. zbool. cbn [eassert ebind].
  assert (a_cpu (table h !!! Z.to_nat (a_cpu a)) = a_cpu a) as -> by (rewrite table_cpu by lia; lia).
  assert (mk_access (a_cpu a) (a_physical_memory_address a) (a_ip_address a) (a_length a) (a_is_read a)
    (a_instruction_count a) = a) as -> by by destruct a. rewrite table_snoc by done.
  edestruct (compare_loop_stores a cpus all (mk_rd (table (h ++ [a])) (rd_races rd) (rd_total_races rd)))
    as (rd'&->&Hs'&Hl').
  - cbn [rd_last_access_per_cpu]. intros i Hi. by apply table_cpu, elem_of_cpus.
  - exact Hs.
  - change (length cpus) with 4%nat. lia.
  - by exists rd'.
Qed.

Lemma races_with_length last ma is_ : (length (races_with last ma is_) <= length is_)%nat.
Proof.
  unfold races_with. induction is_ as [|i is_ IH]; [done|]. rewrite bind_cons, length_app.
  destruct (_ && _); cbn in *; lia.
Qed.

Lemma access_run_stores accs h all rd :
  Forall cpu_ok accs -> rd_last_access_per_cpu rd = table h -> stores all rd ->
  Z.of_nat (length all + 4 * length accs) + 4 < 2 ^ 31 - 1 ->
  exists rd', access_run rd accs = Val rd' /\ stores (all ++ all_races h accs) rd'.
Proof.
  intros Hok. revert h all rd. induction Hok as [|a accs Ha Hok IH]; intros h all rd Ht Hs Hl; cbn [access_run all_races].
  { exists rd. by rewrite app_nil_r. }
  cbn [length] in Hl. destruct (access_step_stores h all rd a Ha Ht Hs) as (rd1&->&Ht1&Hs1); [lia|]. cbn [ebind].
  rewrite app_assoc. apply IH; [done|done|]. rewrite length_app.
  pose proof (races_with_length (table (h ++ [a])) a cpus) as Hr. change (length cpus) with 4%nat in Hr. lia.
Qed.

(** The races of one access. *)
Lemma elem_of_races_with h a a' b :
  cpu_ok a -> Forall access_wf h -> access_wf a ->
  mk_race a' b ∈ races_with (table (h ++ [a])) a cpus <->
  a' = a /\ (exists c, 0 <= c < SKI_RD_MAX_CPU /\ last_of c h = Some b) /\ a_cpu a <> a_cpu b /\ conflict a b.
Proof.
  intros Ha Hwf Hawf. unfold races_with. rewrite list_elem_of_bind.
  assert (forall i, (i < 4)%nat -> Z.of_nat i <> a_cpu a -> table (h ++ [a]) !!! i =
    default (mk_access (Z.of_nat i) 0 0 0 0 0) (last_of (Z.of_nat i) h)) as Htab.
  { intros i Hi Hne. rewrite (list_lookup_total_correct _ _ _ (table_lookup _ i Hi)), last_of_snoc.
    by rewrite decide_False by congruence. }
  split.
  - intros (i&Hin&Hi%elem_of_cpus).
    destruct (Z.of_nat i =? a_cpu a) eqn:Ei; cbn [negb andb] in Hin; [by apply not_elem_of_nil in Hin|].
    rewrite Htab in Hin by lia. destruct (is_race_b a _) eqn:E; [|by apply not_elem_of_nil in Hin].
    apply list_elem_of_singleton in Hin. injection Hin as -> ->.
    destruct (last_of (Z.of_nat i) h) as [x|] eqn:El; cbn [default] in *.
    + unfold id in *. destruct (last_of_cpu _ _ _ El) as [Hc Hx]. rewrite Forall_forall in Hwf.
      split; [done|]. split; [exists (Z.of_nat i); unfold SKI_RD_MAX_CPU; split; [lia|done]|].
      split; [lia|]. by apply is_race_conflict; [|apply Hwf|].
    + exfalso. revert E. unfold is_race_b. cbn [a_length]. rewrite orb_true_r. cbn [negb andb].
      by rewrite andb_false_r.
  - intros (->&(c&Hc&Hl)&Hne&Hcf). destruct (last_of_cpu _ _ _ Hl) as [Hbc Hb]. unfold SKI_RD_MAX_CPU in Hc.
    exists (Z.to_nat c). rewrite Htab by lia. rewrite Z2Nat.id, Hl by lia. cbn [default]. unfold id.
    rewrite Forall_forall in Hwf. rewrite (proj2 (is_race_conflict a b Hawf (Hwf b Hb)) Hcf), (proj2 (Z.eqb_neq _ _)) by lia.
    cbn [negb andb]. split; [apply list_elem_of_here|]. apply elem_of_cpus. lia.
Qed.

Lemma elem_of_all_races accs h a b :
  Forall cpu_ok accs -> Forall access_wf h -> Forall access_wf accs ->
  mk_race a b ∈ all_races h accs <->
  exists p t c, accs = p ++ a :: t /\ 0 <= c < SKI_RD_MAX_CPU /\ last_of c (h ++ p) = Some b /\
    a_cpu a <> a_cpu b /\ conflict a b.
Proof.
  intros Hok. revert h. induction Hok as [|x accs Hx Hok IH]; intros h Hh Hwf; cbn [all_races].
  { split; [by intros ?%not_elem_of_nil|]. intros (p&t&c&E&_). by destruct p. }
  apply Forall_cons in Hwf as [Hxw Hwf].
  rewrite elem_of_app, elem_of_races_with, IH by (done || apply Forall_app; by split; [|constructor]).
  split.
  - intros [(->&(c&Hc&Hl)&Hne&Hcf)|(p&t&c&->&Hc&Hl&H)].
    + exists [], accs, c. by rewrite app_nil_r.
    + exists (x :: p), t, c. by rewrite <- app_assoc in Hl.
  - intros ([|y p]&t&c&E&Hc&Hl&Hne&Hcf); injection E as -> ->.
    + left. rewrite app_nil_r in Hl. split; [done|]. split; [by exists c|done].
    + right. exists p, t, c. rewrite <- app_assoc. done.
Qed.



(** ** The detector never fails *)

(** The table has an entry per CPU, with the CPU's number. *)
Definition rd_ok (rd : ski_race_detector) : Prop :=
  length (rd_last_access_per_cpu rd) = 4%nat /\
  forall i, (i < 4)%nat -> a_cpu (rd_last_access_per_cpu rd !!! i) = Z.of_nat i.

Lemma compare_loop_Val ma is_ rd :
  (forall i, i ∈ is_ -> a_cpu (rd_last_access_per_cpu rd !!! i) = Z.of_nat i) ->
  exists rd', compare_loop (a_cpu ma) ma is_ rd = Val rd' /\
    rd_last_access_per_cpu rd' = rd_last_access_per_cpu rd.
Proof.
  revert rd. induction is_ as [|i is_ IH]; intros rd Hcpu; cbn [compare_loop]; [by exists rd|].
  pose proof (Hcpu i (list_elem_of_here _ _)) as Hi.
  destruct (Z.of_nat i =? a_cpu ma) eqn:Ei; cbn [negb].
  { apply IH. intros j Hj. apply Hcpu. by right. }
  rewrite is_race_eq by lia. cbn [ebind].
  assert (rd_last_access_per_cpu (if c_true (b2z (is_race_b ma (rd_last_access_per_cpu rd !!! i)))
            then ski_race_detector_save_race rd ma (rd_last_access_per_cpu rd !!! i) else rd) =
          rd_last_access_per_cpu rd) as Hl.
  { destruct (c_true _); [|done]. unfold ski_race_detector_save_race. by destruct (_ <? _). }
  edestruct IH as (rd'&E&H); [|exists rd'; split; [exact E|by rewrite H, Hl]].
  intros j Hj. rewrite Hl. apply Hcpu. by right.
Qed.

Lemma new_access_Val rd cpu pa ip len is_read n :
  rd_ok rd -> 0 <= cpu < SKI_RD_MAX_CPU ->
  exists rd', ski_race_detector_new_access rd cpu pa ip len is_read n = Val rd' /\ rd_ok rd'.
Proof.
  unfold SKI_RD_MAX_CPU. intros [Hlen Hc] Hcpu. unfold ski_race_detector_new_access, SKI_RD_MAX_CPU. zbool.
  cbn [eassert ebind]. rewrite (Hc (Z.to_nat cpu)) by lia. rewrite Z2Nat.id by lia.
  set (ma := mk_access cpu _ _ _ _ _). set (rd1 := mk_rd _ _ _).
  assert (rd_ok rd1) as [Hlen1 Hc1].
  { split; cbn; [by rewrite length_insert|]. intros i Hi. destruct (decide (i = Z.to_nat cpu)) as [->|Hne].
    - rewrite list_lookup_total_insert_eq by lia. cbn. lia.
    - rewrite list_lookup_total_insert_ne by done. by apply Hc. }
  destruct (compare_loop_Val ma cpus rd1) as (rd'&E&Hl).
  { intros i Hi. apply Hc1. by apply elem_of_cpus. }
  exists rd'. split; [exact E|]. split; rewrite Hl; done.
Qed.

Lemma init_rd_ok : rd_ok ski_race_detector_init.
Proof. split; [done|]. intros i Hi. do 4 (destruct i as [|i]; [done|]). lia. Qed.
