(* ===== verification/Stats.v ===== *)
(** * Stats.v -- coverage statistics and communication points

    Models the access statistics of [vmm/ski-stats.h] and [vmm/ski-stats.c]: the
    executed instructions, the accessed bytes with the CPUs and instructions
    that touched them, and the communication instructions computed from them
    at the end of a test, which become candidate preemption points of later
    tests.

    A uthash table over an array is the list of the array's used entries: a hash
    is iterated in the order of insertion, the array is filled in the same
    order, and keys are unique. *)

From S2P Require Import Prelude.

Definition SKI_STATS_MAX_CPU : Z := 4.
Definition SKI_STATS_MAX_INSTRUCTION_ADDRESSES : Z := 1 * 1000 * 1000.
Definition SKI_STATS_MAX_DATA_ADDRESSES : Z := 3 * 1000 * 1000.
Definition SKI_STATS_MAX_ACCESS_SIZE : Z := 9.
Definition SKI_STATS_MAX_DATA_INSTRUCTION_ADDRESSES : Z := 3 * 1000 * 1000.
Definition MAX_IPFILTER_HASH : Z := 256 * 1024.

Record ski_stats_instruction_accesses := mk_ia { ia_eip_address : Z; ia_total_accesses : Z }.

(** [da_instructions] is [data_instructions_hash]. *)
Record ski_stats_data_accesses := mk_da {
  da_data_address : Z;
  da_rw_cpu_size_flag : Z;
  da_total_accesses : Z;
  da_instructions : list Z
}.

(** The fields of [ski_stats] that these functions use; [ss_input_number] are the
    inputs of the test, and the last two results of the computation. *)
Record ski_stats := mk_stats {
  ss_input_number : Z * Z;
  ss_instructions : list ski_stats_instruction_accesses;
  ss_data : list ski_stats_data_accesses;
  ss_data_instructions_n : Z;
  ss_communication_instructions : list Z;
  ss_communication_eips : Z;
  ss_communication_data : Z;
  ss_preemption_points_executed : Z;
  ss_instructions_executed : Z
}.

Definition set_ss_data v s :=
  mk_stats (ss_input_number s) (ss_instructions s) v (ss_data_instructions_n s) (ss_communication_instructions s)
    (ss_communication_eips s) (ss_communication_data s) (ss_preemption_points_executed s) (ss_instructions_executed s).
Definition set_ss_data_instructions_n v s :=
  mk_stats (ss_input_number s) (ss_instructions s) (ss_data s) v (ss_communication_instructions s)
    (ss_communication_eips s) (ss_communication_data s) (ss_preemption_points_executed s) (ss_instructions_executed s).
Definition set_ss_instructions v s :=
  mk_stats (ss_input_number s) v (ss_data s) (ss_data_instructions_n s) (ss_communication_instructions s)
    (ss_communication_eips s) (ss_communication_data s) (ss_preemption_points_executed s) (ss_instructions_executed s).

(** [ski_stats_reset_slot], for these fields; the tables are emptied. *)
Definition ski_stats_reset_slot : ski_stats := mk_stats (0, 0) [] [] 0 [] 0 0 0 0.

Definition SKI_STATS_SET_W_CPU (cpu_no flag : Z) : Z := Z.lor flag (Z.shiftl 1 (cpu_no + 8)).
Definition SKI_STATS_SET_R_CPU (cpu_no flag : Z) : Z := Z.lor flag (Z.shiftl 1 cpu_no).
Definition SKI_STATS_SET_SIZE (size_bytes flag : Z) : Z := Z.lor flag (Z.shiftl 1 (size_bytes + 16)).
Definition SKI_STATS_GET_W_CPU (cpu_no flag : Z) : Z := Z.land flag (Z.shiftl 1 (cpu_no + 8)).
Definition SKI_STATS_GET_R_CPU (cpu_no flag : Z) : Z := Z.land flag (Z.shiftl 1 cpu_no).

Definition find_da (data_address : Z) (data : list ski_stats_data_accesses) : option nat :=
  fst <$> list_find (fun da => da_data_address da = data_address) data.

(** The access counted in an entry, and its instruction in the entry's hash. *)
Definition count_access (is_write : bool) (cpu_no : Z) (da : ski_stats_data_accesses) : ski_stats_data_accesses :=
  let flag := SKI_STATS_SET_SIZE 1 (da_rw_cpu_size_flag da) in
  let flag := if is_write then SKI_STATS_SET_W_CPU cpu_no flag else SKI_STATS_SET_R_CPU cpu_no flag in
  mk_da (da_data_address da) flag (da_total_accesses da + 1) (da_instructions da).

Definition add_instruction (eip_address : Z) (da : ski_stats_data_accesses) : ski_stats_data_accesses :=
  mk_da (da_data_address da) (da_rw_cpu_size_flag da) (da_total_accesses da) (da_instructions da ++ [eip_address]).

(** The part after the entry [i] of the byte has been found or made. *)
Definition record_access (eip_address : Z) (is_write : bool) (cpu_no : Z) (i : nat) (s : ski_stats) : ski_stats :=
  let s := set_ss_data (alter (count_access is_write cpu_no) i (ss_data s)) s in
  match ss_data s !! i with
  | None => s
  | Some da =>
      if bool_decide (eip_address ∈ da_instructions da) then s
      else if negb (ss_data_instructions_n s <? SKI_STATS_MAX_DATA_INSTRUCTION_ADDRESSES) then s
      else set_ss_data_instructions_n (ss_data_instructions_n s + 1)
             (set_ss_data (alter (add_instruction eip_address) i (ss_data s)) s)
  end.

Definition ski_stats_add_data_access_byte (data_address eip_address : Z) (is_write : bool) (cpu_no : Z)
    (s : ski_stats) : ski_stats :=
  match find_da data_address (ss_data s) with
  | Some i => record_access eip_address is_write cpu_no i s
  | None =>
      if negb (Z.of_nat (length (ss_data s)) <? SKI_STATS_MAX_DATA_ADDRESSES) then s
      else record_access eip_address is_write cpu_no (length (ss_data s))
             (set_ss_data (ss_data s ++ [mk_da data_address 0 0 []]) s)
  end.

(** [for(s=0;s<size_bytes;s++)]; the address is unsigned. *)
Definition ski_stats_add_data_access (data_address eip_address size_bytes : Z) (is_write : bool) (cpu_no : Z)
    (s : ski_stats) : E ski_stats :=
  _ <-? eassert (size_bytes <? SKI_STATS_MAX_ACCESS_SIZE) ;;
  _ <-? eassert (cpu_no <? SKI_STATS_MAX_CPU) ;;
  Val (foldl (fun st i => ski_stats_add_data_access_byte (u32 (data_address + i)) eip_address is_write cpu_no st)
         s (seqZ 0 size_bytes)).

(** The check uses the size of another array: the entries from
    [SKI_STATS_MAX_INSTRUCTION_ADDRESSES] on lie outside [instructions]. *)
Definition ski_stats_add_instruction_access (eip_address : Z) (s : ski_stats) : E ski_stats :=
  s' <-? (match list_find (fun ia => ia_eip_address ia = eip_address) (ss_instructions s) with
          | Some _ => Val s
          | None =>
              let n := Z.of_nat (length (ss_instructions s)) in
              _ <-? eassert (n <? SKI_STATS_MAX_DATA_ADDRESSES) ;;
              if n <? SKI_STATS_MAX_INSTRUCTION_ADDRESSES
              then Val (set_ss_instructions (ss_instructions s ++ [mk_ia eip_address 0]) s)
              else Fail HUndef
          end) ;;
  Val (set_ss_instructions
         ((fun ia => if ia_eip_address ia =? eip_address
                     then mk_ia (ia_eip_address ia) (ia_total_accesses ia + 1) else ia) <$> ss_instructions s') s').

(** *** Communication points *)

(** Returns the list of communication instructions and whether it grew. *)
Definition ski_stats_add_communication_instruction (eip : Z) (ci : list Z) : E (list Z * Z) :=
  if bool_decide (eip ∈ ci) then Val (ci, 0)
  else
    _ <-? eassert (Z.of_nat (length ci) <? MAX_IPFILTER_HASH) ;;
    Val (ci ++ [eip], 1).

Definition ski_stats_input_is_running (s : ski_stats) (input_number : Z * Z) : bool :=
  ((ss_input_number s).1 =? input_number.1) && ((ss_input_number s).2 =? input_number.2).

Definition cpu_numbers : list Z := seqZ 0 SKI_STATS_MAX_CPU.

(** A byte through which CPUs communicate: written, and accessed by several. *)
Definition is_communication (da : ski_stats_data_accesses) : bool :=
  let flag := da_rw_cpu_size_flag da in
  let write_exists := existsb (fun c => negb (SKI_STATS_GET_W_CPU c flag =? 0)) cpu_numbers in
  let n_cpus_accessing :=
    Z.of_nat (length (List.filter (fun c => negb (SKI_STATS_GET_W_CPU c flag =? 0) ||
                                            negb (SKI_STATS_GET_R_CPU c flag =? 0)) cpu_numbers)) in
  write_exists && (n_cpus_accessing >? 1).

(** The inner loop over the instructions of one byte; the counters are
    [added_eips] and [communication_eips]. *)
Fixpoint add_instructions (eips : list Z) (acc : list Z * Z * Z) : E (list Z * Z * Z) :=
  match eips with
  | [] => Val acc
  | eip :: eips' =>
      let '(ci, added, total) := acc in
      r <-? ski_stats_add_communication_instruction eip ci ;;
      add_instructions eips' (r.1, added + r.2, total + 1)
  end.

(** The loop over the bytes; the last counter is [communication_data]. *)
Fixpoint communication_loop (data : list ski_stats_data_accesses) (acc : list Z * Z * Z * Z)
  : E (list Z * Z * Z * Z) :=
  match data with
  | [] => Val acc
  | da :: data' =>
      let '(ci, added, eips, points) := acc in
      if is_communication da then
        r <-? add_instructions (da_instructions da) (ci, added, eips) ;;
        communication_loop data' (r, points + 1)
      else communication_loop data' acc
  end.

(** [input_number], [sched_total] and [exec_total] are the globals
    [ski_init_options_input_number], [ski_sched_instructions_total] and
    [ski_exec_instruction_counter_total].  Later calls hang in
    [ski_stats_once_only]; this is the first one. *)
Definition ski_stats_compute_communication_instructions (input_number : Z * Z) (sched_total exec_total : Z)
    (s : ski_stats) : E ski_stats :=
  r <-? (if ski_stats_input_is_running s input_number
         then communication_loop (ss_data s) (ss_communication_instructions s, 0, 0, 0)
         else Val (ss_communication_instructions s, 0, 0, 0)) ;;
  let '(ci, added_eips, communication_eips, communication_data) := r in
  Val (mk_stats (ss_input_number s) (ss_instructions s) (ss_data s) (ss_data_instructions_n s) ci
         communication_eips communication_data sched_total exec_total).

(** ** What the tables record *)

(** An access of one byte. *)
Record byte_access := mk_byte { x_addr : Z; x_eip : Z; x_write : bool; x_cpu : Z }.

Definition byte_step (s : ski_stats) (x : byte_access) : ski_stats :=
  ski_stats_add_data_access_byte (x_addr x) (x_eip x) (x_write x) (x_cpu x) s.

(** The flag's bits: CPU [c] wrote (bit [c + 8]) or read (bit [c]). *)
Definition flag_bit (write : bool) (c : Z) : Z := if write then c + 8 else c.

(** An entry describes the accesses of [log] to its byte. *)
Definition entry_inv (log : list byte_access) (da : ski_stats_data_accesses) : Prop :=
  (forall w c, 0 <= c < SKI_STATS_MAX_CPU ->
    Z.testbit (da_rw_cpu_size_flag da) (flag_bit w c) = true <->
    exists x, x ∈ log /\ x_addr x = da_data_address da /\ x_write x = w /\ x_cpu x = c) /\
  NoDup (da_instructions da) /\
  forall e, e ∈ da_instructions da <-> exists x, x ∈ log /\ x_addr x = da_data_address da /\ x_eip x = e.

Record stats_inv (log : list byte_access) (s : ski_stats) : Prop := {
  si_nodup : NoDup (da_data_address <$> ss_data s);
  si_addr : forall a, a ∈ da_data_address <$> ss_data s <-> exists x, x ∈ log /\ x_addr x = a;
  si_entry : Forall (entry_inv log) (ss_data s);
  si_len : (length (ss_data s) <= length log)%nat;
  si_n : ss_data_instructions_n s <= Z.of_nat (length log)
}.

Definition byte_ok (x : byte_access) : Prop := 0 <= x_cpu x < SKI_STATS_MAX_CPU.

(** *** Bits *)

Lemma testbit_set flag k n : 0 <= k -> 0 <= n ->
  Z.testbit (Z.lor flag (Z.shiftl 1 k)) n = Z.testbit flag n || (n =? k).
Proof.
  intros Hk Hn. rewrite Z.lor_spec. f_equal. rewrite Z.shiftl_1_l, Z.pow2_bits_eqb by done. apply Z.eqb_sym.
Qed.

Lemma land_bit flag k : 0 <= k -> negb (Z.land flag (Z.shiftl 1 k) =? 0) = Z.testbit flag k.
Proof.
  intros Hk. rewrite Z.shiftl_1_l. destruct (Z.testbit flag k) eqn:E.
  - apply negb_true_iff, Z.eqb_neq. intros H0.
    assert (Z.testbit (Z.land flag (2 ^ k)) k = true) as Hb by by rewrite Z.land_spec, E, Z.pow2_bits_true by done.
    by rewrite H0, Z.bits_0 in Hb.
  - apply negb_false_iff, Z.eqb_eq. apply Z.bits_inj'. intros n Hn.
    rewrite Z.land_spec, Z.bits_0, Z.pow2_bits_eqb by done.
    destruct (k =? n) eqn:Ek; [|apply andb_false_r]. apply Z.eqb_eq in Ek as <-. by rewrite E.
Qed.

Lemma flag_bit_inj w c w' c' : 0 <= c < 4 -> 0 <= c' < 4 -> flag_bit w c = flag_bit w' c' -> w = w' /\ c = c'.
Proof. unfold flag_bit. destruct w, w'; intros; split; (done || lia). Qed.

Lemma count_access_bit da w c w' c' : 0 <= c < 4 -> 0 <= c' < 4 ->
  Z.testbit (da_rw_cpu_size_flag (count_access w c da)) (flag_bit w' c') =
  Z.testbit (da_rw_cpu_size_flag da) (flag_bit w' c') || bool_decide (w = w' /\ c = c').
Proof.
  intros Hc Hc'. unfold count_access, SKI_STATS_SET_W_CPU, SKI_STATS_SET_R_CPU, SKI_STATS_SET_SIZE. cbn [da_rw_cpu_size_flag].
  assert (0 <= flag_bit w' c') as Hf by (unfold flag_bit; destruct w'; lia).
  transitivity (Z.testbit (Z.lor (Z.lor (da_rw_cpu_size_flag da) (Z.shiftl 1 (1 + 16))) (Z.shiftl 1 (flag_bit w c))) (flag_bit w' c')).
  { by destruct w. }
  rewrite testbit_set by first [exact Hf | unfold flag_bit; destruct w; lia]. rewrite testbit_set by lia.
  rewrite (proj2 (Z.eqb_neq (flag_bit w' c') (1 + 16))) by (unfold flag_bit; destruct w'; lia).
  rewrite orb_false_r. f_equal. case_bool_decide as H.
  - destruct H as [-> ->]. apply Z.eqb_refl.
  - apply Z.eqb_neq. intros E. apply H. by destruct (flag_bit_inj w' c' w c Hc' Hc E) as [-> ->].
Qed.

(** The entry after one more access to its byte. *)
Definition touched (x : byte_access) (da : ski_stats_data_accesses) : ski_stats_data_accesses :=
  let da := count_access (x_write x) (x_cpu x) da in
  if bool_decide (x_eip x ∈ da_instructions da) then da else add_instruction (x_eip x) da.

Lemma touched_addr x da : da_data_address (touched x da) = da_data_address da.
Proof. unfold touched. by case_bool_decide. Qed.

Lemma touched_inv log x da :
  byte_ok x -> x_addr x = da_data_address da -> entry_inv log da -> entry_inv (log ++ [x]) (touched x da).
Proof.
  intros Hx Ha (Hf&Hnd&Hi). unfold byte_ok, SKI_STATS_MAX_CPU in *. split; [|split].
  - intros w c Hc. rewrite touched_addr.
    assert (da_rw_cpu_size_flag (touched x da) = da_rw_cpu_size_flag (count_access (x_write x) (x_cpu x) da)) as ->
      by (unfold touched; by case_bool_decide).
    rewrite count_access_bit, orb_true_iff, Hf, bool_decide_eq_true by done. split.
    + intros [(y&Hy&H)|[H1 H2]]; [exists y|exists x]; rewrite elem_of_app; [tauto|set_solver].
    + intros (y&[Hy|Hy%list_elem_of_singleton]%elem_of_app&H1&H2&H3); [left; by exists y|right; by subst].
  - unfold touched. case_bool_decide as Hin; [done|]. cbn. apply NoDup_app. split; [done|].
    split; [|apply NoDup_singleton]. intros e He ->%list_elem_of_singleton. done.
  - intros e. rewrite touched_addr.
    assert (e ∈ da_instructions (touched x da) <-> e ∈ da_instructions da \/ e = x_eip x) as ->.
    { unfold touched. case_bool_decide as Hin; cbn in *; [set_solver|]. rewrite elem_of_app, list_elem_of_singleton. done. }
    rewrite Hi. split.
    + intros [(y&Hy&H)| ->]; [exists y|exists x]; rewrite elem_of_app; [tauto|set_solver].
    + intros (y&[Hy|Hy%list_elem_of_singleton]%elem_of_app&H1&H2); [left; by exists y|right; by subst].
Qed.

(** Accesses to other bytes leave an entry's description valid. *)
Lemma entry_inv_other log x da : x_addr x <> da_data_address da -> entry_inv log da -> entry_inv (log ++ [x]) da.
Proof.
  intros Hx (Hf&Hnd&Hi). split; [|split; [done|]].
  - intros w c Hc. rewrite Hf by done.
    split; intros (y&Hy&H1&H); exists y; rewrite elem_of_app, list_elem_of_singleton in *; [tauto|].
    destruct Hy as [Hy| ->]; [tauto|congruence].
  - intros e. rewrite Hi. split; intros (y&Hy&H1&H); exists y; rewrite elem_of_app, list_elem_of_singleton in *; [tauto|].
    destruct Hy as [Hy| ->]; [tauto|congruence].
Qed.

(** *** One access, within the capacity of the tables *)

Lemma record_access_data x i s :
  is_Some (ss_data s !! i) -> ss_data_instructions_n s < SKI_STATS_MAX_DATA_INSTRUCTION_ADDRESSES ->
  let r := record_access (x_eip x) (x_write x) (x_cpu x) i s in
  ss_input_number r = ss_input_number s /\
  ss_communication_instructions r = ss_communication_instructions s /\
  ss_data_instructions_n r <= ss_data_instructions_n s + 1 /\
  ss_data r = alter (touched x) i (ss_data s).
Proof.
  intros [da Hda] Hn r. unfold r, record_access. cbn [ss_data set_ss_data ss_data_instructions_n].
  rewrite list_lookup_alter_eq, Hda. cbn [fmap option_fmap option_map].
  destruct (bool_decide (x_eip x ∈ da_instructions (count_access (x_write x) (x_cpu x) da))) eqn:E.
  - repeat split; [cbn; lia|]. cbn. apply (alter_ext_at _ _ _ _ da Hda). unfold touched. by rewrite E.
  - rewrite (proj2 (Z.ltb_lt _ _)) by done. repeat split; [cbn; lia|]. cbn. rewrite alter_alter.
    apply (alter_ext_at _ _ _ _ da Hda). unfold touched, compose. by rewrite E.
Qed.

Lemma byte_step_data s x :
  Z.of_nat (length (ss_data s)) < SKI_STATS_MAX_DATA_ADDRESSES ->
  ss_data_instructions_n s < SKI_STATS_MAX_DATA_INSTRUCTION_ADDRESSES ->
  ss_input_number (byte_step s x) = ss_input_number s /\
  ss_communication_instructions (byte_step s x) = ss_communication_instructions s /\
  ss_data_instructions_n (byte_step s x) <= ss_data_instructions_n s + 1 /\
  ss_data (byte_step s x) =
    match find_da (x_addr x) (ss_data s) with
    | Some i => alter (touched x) i (ss_data s)
    | None => ss_data s ++ [touched x (mk_da (x_addr x) 0 0 [])]
    end.
Proof.
  intros Hd Hn. unfold byte_step, ski_stats_add_data_access_byte.
  destruct (find_da (x_addr x) (ss_data s)) as [i|] eqn:E.
  - apply record_access_data; [|done]. unfold find_da in E. destruct (list_find _ _) as [[j da]|] eqn:F; [|done].
    injection E as <-. apply list_find_Some in F as (F&_). by exists da.
  - rewrite (proj2 (Z.ltb_lt _ _)) by done. cbn [negb].
    rewrite <- (alter_middle (touched x) (ss_data s) [] (mk_da (x_addr x) 0 0 [])).
    apply (record_access_data x (length (ss_data s)) (set_ss_data (ss_data s ++ [mk_da (x_addr x) 0 0 []]) s)); [|done].
    cbn [ss_data set_ss_data]. rewrite lookup_app_r, Nat.sub_diag by done. by eexists.
Qed.

Lemma entry_inv_new log x :
  (forall y, y ∈ log -> x_addr y <> x_addr x) -> entry_inv log (mk_da (x_addr x) 0 0 []).
Proof.
  intros Hx. split; [|split; [apply NoDup_nil_2|]]; cbn.
  - intros w c Hc. rewrite Z.bits_0. split; [done|]. intros (y&Hy&H&_). by destruct (Hx y Hy).
  - intros e. split; [by intros ?%not_elem_of_nil|]. intros (y&Hy&H&_). by destruct (Hx y Hy).
Qed.

Lemma byte_step_inv log s x :
  byte_ok x -> stats_inv log s -> Z.of_nat (length log) < SKI_STATS_MAX_DATA_ADDRESSES ->
  stats_inv (log ++ [x]) (byte_step s x) /\
  ss_input_number (byte_step s x) = ss_input_number s /\
  ss_communication_instructions (byte_step s x) = ss_communication_instructions s.
Proof.
  intros Hx [Hnd Haddr Hent Hlen Hn] Hcap. unfold SKI_STATS_MAX_DATA_ADDRESSES in *.
  destruct (byte_step_data s x) as (H1&H2&H3&Hd);
    [unfold SKI_STATS_MAX_DATA_ADDRESSES; lia|unfold SKI_STATS_MAX_DATA_INSTRUCTION_ADDRESSES; lia|].
  split; [|done]. unfold find_da in Hd.
  destruct (list_find (fun da => da_data_address da = x_addr x) (ss_data s)) as [[i da]|] eqn:F; cbn [fmap option_fmap option_map fst] in Hd.
  - apply list_find_Some in F as (Hi&Ha&_). constructor; rewrite ?Hd.
    + by rewrite alter_fmap_same by apply touched_addr.
    + intros a. rewrite alter_fmap_same, Haddr by apply touched_addr.
      split; intros (y&Hy&Hya); [exists y; rewrite elem_of_app; tauto|].
      apply elem_of_app in Hy as [Hy|Hy%list_elem_of_singleton]; [by exists y|]. subst y.
      destruct (proj1 (Haddr (x_addr x))) as (z&Hz&Hza); [|exists z; split; [done|congruence]].
      rewrite <- Ha. by eapply list_elem_of_fmap_2, list_elem_of_lookup_2.
    + apply Forall_lookup. intros j d Hj. destruct (decide (j = i)) as [->|Hne].
      * rewrite list_lookup_alter_eq, Hi in Hj. injection Hj as <-.
        apply touched_inv; [done|done|]. by eapply (Forall_lookup_1 _ _ _ _ Hent).
      * rewrite list_lookup_alter_ne in Hj by done. apply entry_inv_other; [|by eapply (Forall_lookup_1 _ _ _ _ Hent)].
        rewrite <- Ha. intros E. apply Hne. eapply (NoDup_lookup _ _ _ _ Hnd); rewrite list_lookup_fmap; [by rewrite Hj|].
        rewrite Hi. cbn. congruence.
    + rewrite length_alter, length_app. lia.
    + rewrite length_app. cbn. lia.
  - apply list_find_None in F. rewrite Forall_forall in F. constructor; rewrite ?Hd.
    + rewrite fmap_app. apply NoDup_app. split; [done|]. split; [|apply NoDup_singleton].
      intros a Hin Ha%list_elem_of_singleton. apply list_elem_of_fmap in Hin as (d&->&Hin).
      rewrite touched_addr in Ha. by apply (F d Hin).
    + intros a. rewrite fmap_app, elem_of_app, Haddr. cbn [fmap list_fmap]. rewrite list_elem_of_singleton, touched_addr. cbn.
      split; [intros [(y&Hy&Hya)| ->]; [exists y|exists x]; rewrite elem_of_app, list_elem_of_singleton; tauto|].
      intros (y&[Hy|Hy%list_elem_of_singleton]%elem_of_app&Hya); [left; by exists y|right; by subst].
    + apply Forall_app. split; [|constructor; [|done]].
      * eapply Forall_impl; [apply Forall_and; split; [exact Hent|apply Forall_forall, F]|].
        intros d [Hd1 Hd2]. apply entry_inv_other; [congruence|done].
      * apply touched_inv; [done|done|]. apply entry_inv_new. intros y Hy Hya.
        assert (x_addr x ∈ da_data_address <$> ss_data s) as Hin by (apply Haddr; by exists y).
        apply list_elem_of_fmap in Hin as (d&Hd'&Hin). by apply (F d Hin).
    + rewrite !length_app. cbn. lia.
    + rewrite length_app. cbn. lia.
Qed.

(** ** Communication points *)

(** The byte [a] is shared: it is written, and accessed by two CPUs. *)
Definition shared (log : list byte_access) (a : Z) : Prop :=
  (exists x, x ∈ log /\ x_addr x = a /\ x_write x = true) /\
  (exists x y, x ∈ log /\ y ∈ log /\ x_addr x = a /\ x_addr y = a /\ x_cpu x <> x_cpu y).

(** CPU [c] accessed the entry's byte. *)
Definition accessed_by (da : ski_stats_data_accesses) (c : Z) : bool :=
  Z.testbit (da_rw_cpu_size_flag da) (c + 8) || Z.testbit (da_rw_cpu_size_flag da) c.

Lemma is_communication_bits da :
  is_communication da = true <->
  (exists c, 0 <= c < 4 /\ Z.testbit (da_rw_cpu_size_flag da) (c + 8) = true) /\
  (exists c c', 0 <= c < 4 /\ 0 <= c' < 4 /\ c <> c' /\ accessed_by da c = true /\ accessed_by da c' = true).
Proof.
  unfold is_communication, SKI_STATS_GET_W_CPU, SKI_STATS_GET_R_CPU. rewrite andb_true_iff.
  change cpu_numbers with [0; 1; 2; 3]. cbn [existsb List.filter].
  rewrite !land_bit by lia. fold (accessed_by da 0) (accessed_by da 1) (accessed_by da 2) (accessed_by da 3).
  assert (forall P : Z -> Prop, (exists c, 0 <= c < 4 /\ P c) <-> P 0 \/ P 1 \/ P 2 \/ P 3) as Hex.
  { intros P. split.
    - intros (c&Hc&Hp). assert (c = 0 \/ c = 1 \/ c = 2 \/ c = 3) as [-> |[-> |[-> | ->]]] by lia; tauto.
    - intros [H|[H|[H|H]]]; eexists; (split; [|exact H]); lia. }
  rewrite Hex, !orb_true_iff. apply and_iff_both; [clear; intuition congruence|]. clear Hex.
  split.
  - intros H. destruct (accessed_by da 0) eqn:E0, (accessed_by da 1) eqn:E1, (accessed_by da 2) eqn:E2,
      (accessed_by da 3) eqn:E3; cbn [length] in H; try (exfalso; revert H; by vm_compute);
      first [ exists 0, 1; by rewrite E0, E1 | exists 0, 2; by rewrite E0, E2 | exists 0, 3; by rewrite E0, E3
            | exists 1, 2; by rewrite E1, E2 | exists 1, 3; by rewrite E1, E3 | exists 2, 3; by rewrite E2, E3 ].
  - intros (c&c'&Hc&Hc'&Hne&H1&H2).
    assert (c = 0 \/ c = 1 \/ c = 2 \/ c = 3) as Hcc by lia. assert (c' = 0 \/ c' = 1 \/ c' = 2 \/ c' = 3) as Hcc' by lia.
    destruct Hcc as [-> |[-> |[-> | ->]]], Hcc' as [-> |[-> |[-> | ->]]]; try done; rewrite H1, H2;
      repeat match goal with |- context [accessed_by da ?k] => destruct (accessed_by da k) end; done.
Qed.

Lemma is_communication_shared log da :
  Forall byte_ok log -> entry_inv log da ->
  is_communication da = true <-> shared log (da_data_address da).
Proof.
  intros Hok (Hf&_&_). rewrite is_communication_bits. rewrite Forall_forall in Hok. unfold byte_ok, SKI_STATS_MAX_CPU in *.
  assert (forall c, 0 <= c < 4 -> accessed_by da c = true <->
    exists x, x ∈ log /\ x_addr x = da_data_address da /\ x_cpu x = c) as Hacc.
  { intros c Hc. unfold accessed_by. rewrite orb_true_iff, (Hf true c Hc), (Hf false c Hc). split.
    - intros [(x&H1&H2&H3&H4)|(x&H1&H2&H3&H4)]; by exists x.
    - intros (x&H1&H2&H3). destruct (x_write x) eqn:E; [left|right]; by exists x. }
  unfold shared. apply and_iff_both.
  - split.
    + intros (c&Hc&Hb). apply (Hf true c Hc) in Hb as (x&H1&H2&H3&H4). by exists x.
    + intros (x&H1&H2&H3). exists (x_cpu x). split; [by apply Hok|]. apply (Hf true _ (Hok x H1)). by exists x.
  - split.
    + intros (c&c'&Hc&Hc'&Hne&H1&H2). apply Hacc in H1 as (x&Hx1&Hx2&<-), H2 as (y&Hy1&Hy2&<-); [|done..].
      by exists x, y.
    + intros (x&y&Hx&Hy&Hxa&Hya&Hne). exists (x_cpu x), (x_cpu y).
      split; [by apply Hok|]. split; [by apply Hok|]. split; [done|].
      split; (apply Hacc; [by apply Hok|]); eauto.
Qed.

(** *** The computation *)

Section communication.
Context (U : list Z) (HU : Z.of_nat (length U) <= MAX_IPFILTER_HASH).

Definition known (ci : list Z) : Prop := NoDup ci /\ forall e, e ∈ ci -> e ∈ U.

Lemma add_communication_known eip ci :
  known ci -> eip ∈ U ->
  exists ci' n, ski_stats_add_communication_instruction eip ci = Val (ci', n) /\ known ci' /\
    forall e, e ∈ ci' <-> e ∈ ci \/ e = eip.
Proof.
  intros [Hnd Hsub] He. unfold ski_stats_add_communication_instruction. case_bool_decide as Hin.
  - exists ci, 0. split; [done|]. split; [done|]. intros e. split; [tauto|]. by intros [?| ->].
  - assert (NoDup (ci ++ [eip])) as Hnd'.
    { apply NoDup_app. split; [done|]. split; [|apply NoDup_singleton]. by intros x Hx ->%list_elem_of_singleton. }
    assert (forall e, e ∈ ci ++ [eip] -> e ∈ U) as Hsub'.
    { intros e [?| ->%list_elem_of_singleton]%elem_of_app; [by apply Hsub|done]. }
    assert (length (ci ++ [eip]) <= length U)%nat as Hlen.
    { apply submseteq_length, NoDup_submseteq; done. }
    rewrite length_app in Hlen. cbn in Hlen. rewrite (proj2 (Z.ltb_lt _ _)) by lia. cbn [eassert ebind].
    exists (ci ++ [eip]), 1. split; [done|]. split; [done|]. intros e. by rewrite elem_of_app, list_elem_of_singleton.
Qed.

Lemma add_instructions_known eips ci a n :
  known ci -> (forall e, e ∈ eips -> e ∈ U) ->
  exists ci' a', add_instructions eips (ci, a, n) = Val (ci', a', n + Z.of_nat (length eips)) /\ known ci' /\
    forall e, e ∈ ci' <-> e ∈ ci \/ e ∈ eips.
Proof.
  revert ci a n. induction eips as [|eip eips IH]; intros ci a n Hk Hsub; cbn [add_instructions].
  { exists ci, a. rewrite Z.add_0_r. split; [done|]. split; [done|]. intros e. rewrite elem_of_nil. tauto. }
  destruct (add_communication_known eip ci Hk) as (ci1&k&->&Hk1&He1); [apply Hsub; by left|]. cbn [ebind fst snd].
  destruct (IH ci1 (a + k) (n + 1) Hk1) as (ci2&a2&->&Hk2&He2); [intros; apply Hsub; by right|].
  exists ci2, a2. split; [do 2 f_equal; cbn [length]; lia|]. split; [done|].
  intros e. rewrite He2, He1, elem_of_cons. tauto.
Qed.

Lemma communication_loop_known data ci a n p :
  known ci -> (forall da e, da ∈ data -> e ∈ da_instructions da -> e ∈ U) ->
  exists ci' a' n', communication_loop data (ci, a, n, p) =
      Val (ci', a', n', p + Z.of_nat (length (filter (fun da => is_communication da = true) data))) /\ known ci' /\
    forall e, e ∈ ci' <-> e ∈ ci \/ exists da, da ∈ data /\ is_communication da = true /\ e ∈ da_instructions da.
Proof.
  revert ci a n p. induction data as [|da data IH]; intros ci a n p Hk Hsub; cbn [communication_loop].
  { exists ci, a, n. cbn. rewrite Z.add_0_r. split; [done|]. split; [done|]. intros e. split; [tauto|].
    intros [?|(da&Hda&_)]; [done|]. by apply not_elem_of_nil in Hda. }
  assert (forall d e, d ∈ data -> e ∈ da_instructions d -> e ∈ U) as Hsub' by (intros d e Hd; apply Hsub; by right).
  rewrite filter_cons. destruct (is_communication da) eqn:Ec.
  - destruct (add_instructions_known (da_instructions da) ci a n Hk) as (ci1&a1&->&Hk1&He1).
    { intros e. apply Hsub. by left. }
    cbn [ebind]. destruct (IH ci1 a1 (n + Z.of_nat (length (da_instructions da))) (p + 1) Hk1 Hsub')
      as (ci2&a2&n2&->&Hk2&He2).
    exists ci2, a2, n2. rewrite decide_True by done. rewrite length_cons. split; [do 2 f_equal; lia|]. split; [done|].
    intros e. rewrite He2, He1. split.
    + intros [[?|?]|(d&?&?)]; [tauto|right; exists da; split; [by left|done]|right; exists d; split; [by right|done]].
    + intros [?|(d&[ -> |Hd]%elem_of_cons&?&?)]; [tauto..|right; by exists d].
  - rewrite decide_False by done. destruct (IH ci a n p Hk Hsub') as (ci2&a2&n2&->&Hk2&He2).
    exists ci2, a2, n2. split; [done|]. split; [done|]. intros e. rewrite He2. split.
    + intros [?|(d&?&?)]; [tauto|right; exists d; split; [by right|done]].
    + intros [?|(d&[ -> |Hd]%elem_of_cons&Hc&?)]; [tauto|congruence|right; by exists d].
Qed.
End communication.

(** ** A whole test *)

(** A call of [ski_stats_add_data_access]. *)
Record access_call := mk_call { q_addr : Z; q_eip : Z; q_size : Z; q_write : bool; q_cpu : Z }.

Definition call_ok (q : access_call) : Prop :=
  0 <= q_size q < SKI_STATS_MAX_ACCESS_SIZE /\ 0 <= q_cpu q < SKI_STATS_MAX_CPU.

#[export] Instance call_ok_dec q : Decision (call_ok q).
Proof. unfold call_ok. apply _. Defined.

(** The bytes an access touches. *)
Definition bytes_of (q : access_call) : list byte_access :=
  (fun i => mk_byte (u32 (q_addr q + i)) (q_eip q) (q_write q) (q_cpu q)) <$> seqZ 0 (q_size q).

Fixpoint call_run (s : ski_stats) (qs : list access_call) : E ski_stats :=
  match qs with
  | [] => Val s
  | q :: qs' =>
      s' <-? ski_stats_add_data_access (q_addr q) (q_eip q) (q_size q) (q_write q) (q_cpu q) s ;;
      call_run s' qs'
  end.

Lemma bytes_of_ok q : call_ok q -> Forall byte_ok (bytes_of q).
Proof. intros [_ Hc]. apply Forall_fmap, Forall_true. intros i. exact Hc. Qed.

Lemma bytes_of_length q : call_ok q -> Z.of_nat (length (bytes_of q)) <= 8.
Proof.
  intros [Hs _]. unfold bytes_of. rewrite length_fmap, length_seqZ. unfold SKI_STATS_MAX_ACCESS_SIZE in *. lia.
Qed.

Lemma foldl_bytes q s :
  foldl (fun st i => ski_stats_add_data_access_byte (u32 (q_addr q + i)) (q_eip q) (q_write q) (q_cpu q) st) s
    (seqZ 0 (q_size q)) = foldl byte_step s (bytes_of q).
Proof.
  unfold bytes_of. generalize (seqZ 0 (q_size q)). intros l. revert s.
  induction l as [|i l IH]; intros s; [done|]. cbn. by rewrite IH.
Qed.

Lemma bytes_inv l log s :
  Forall byte_ok l -> stats_inv log s -> Z.of_nat (length log + length l) <= SKI_STATS_MAX_DATA_ADDRESSES ->
  stats_inv (log ++ l) (foldl byte_step s l) /\
  ss_input_number (foldl byte_step s l) = ss_input_number s /\
  ss_communication_instructions (foldl byte_step s l) = ss_communication_instructions s.
Proof.
  intros Hok. revert log s. induction Hok as [|x l Hx Hok IH]; intros log s Hi Hc; cbn [foldl length] in *.
  { by rewrite app_nil_r. }
  destruct (byte_step_inv log s x Hx Hi) as (Hi1&H1&H2); [lia|].
  destruct (IH (log ++ [x]) (byte_step s x) Hi1) as (Hi2&H3&H4); [rewrite length_app; cbn; lia|].
  rewrite <- app_assoc in Hi2. split; [done|]. split; congruence.
Qed.

Lemma call_run_inv qs log s :
  Forall call_ok qs -> stats_inv log s ->
  Z.of_nat (length log) + 8 * Z.of_nat (length qs) <= SKI_STATS_MAX_DATA_ADDRESSES ->
  exists s', call_run s qs = Val s' /\ stats_inv (log ++ (qs ≫= bytes_of)) s' /\
    ss_input_number s' = ss_input_number s /\ ss_communication_instructions s' = ss_communication_instructions s.
Proof.
  intros Hok. revert log s. induction Hok as [|q qs Hq Hok IH]; intros log s Hi Hc; cbn [call_run length] in *.
  { exists s. cbn. by rewrite app_nil_r. }
  pose proof (bytes_of_length q Hq) as Hl. unfold ski_stats_add_data_access.
  rewrite (proj2 (Z.ltb_lt _ _)), (proj2 (Z.ltb_lt _ _)) by apply Hq. cbn [eassert ebind]. rewrite foldl_bytes.
  destruct (bytes_inv (bytes_of q) log s (bytes_of_ok q Hq) Hi) as (Hi1&H1&H2); [lia|].
  destruct (IH (log ++ bytes_of q) _ Hi1) as (s'&Hr&Hi2&H3&H4); [rewrite length_app; lia|].
  exists s'. split; [done|]. rewrite bind_cons, app_assoc. split; [done|]. split; congruence.
Qed.

(** A slot at the start of a test with the given inputs. *)
Definition start_slot (inputs : Z * Z) : ski_stats := mk_stats inputs [] [] 0 [] 0 0 0 0.

Lemma start_inv inputs : stats_inv [] (start_slot inputs).
Proof.
  constructor; cbn; [apply NoDup_nil_2| |constructor|done|done].
  intros a. split; [by intros ?%not_elem_of_nil|]. intros (x&Hx&_). by apply not_elem_of_nil in Hx.
Qed.

Lemma bytes_of_calls_ok qs : Forall call_ok qs ->
  Forall byte_ok (qs ≫= bytes_of) /\ Z.of_nat (length (qs ≫= bytes_of)) <= 8 * Z.of_nat (length qs).
Proof.
  induction 1 as [|q qs Hq _ [IH1 IH2]]; [by cbn|]. rewrite bind_cons, length_app, length_cons.
  split; [apply Forall_app; split; [by apply bytes_of_ok|done]|]. pose proof (bytes_of_length q Hq). lia.
Qed.

(** The entries' communication instructions are those of the shared bytes. *)
Lemma shared_instructions log s e :
  Forall byte_ok log -> stats_inv log s ->
  (exists da, da ∈ ss_data s /\ is_communication da = true /\ e ∈ da_instructions da) <->
  exists x, x ∈ log /\ x_eip x = e /\ shared log (x_addr x).
Proof.
  intros Hok [_ Haddr Hent _ _]. rewrite Forall_forall in Hent. split.
  - intros (da&Hda&Hc&Hinst). destruct (Hent da Hda) as (_&_&Hinstr).
    apply (is_communication_shared log da Hok (Hent da Hda)) in Hc.
    apply Hinstr in Hinst as (x&Hx&Hxa&Hxe). exists x. by rewrite Hxa.
  - intros (x&Hx&Hxe&Hsh).
    assert (x_addr x ∈ da_data_address <$> ss_data s) as Hin by (apply Haddr; by exists x).
    apply list_elem_of_fmap in Hin as (da&Hda&Hin). exists da. split; [done|].
    split; [apply (is_communication_shared log da Hok (Hent da Hin)); congruence|].
    destruct (Hent da Hin) as (_&_&Hinstr). apply Hinstr. by exists x.
Qed.

Lemma shared_entries log s :
  Forall byte_ok log -> stats_inv log s ->
  let l := da_data_address <$> filter (fun da => is_communication da = true) (ss_data s) in
  NoDup l /\ forall a, a ∈ l <-> shared log a.
Proof.
  intros Hok [Hnd Haddr Hent _ _] l. rewrite Forall_forall in Hent. split.
  - eapply sublist_NoDup; [exact Hnd|]. apply fmap_sublist. apply sublist_filter.
  - intros b. unfold l. rewrite list_elem_of_fmap. split.
    + intros (da&->&[Hc Hda]%list_elem_of_filter). by apply (is_communication_shared log da Hok (Hent da Hda)).
    + intros Hsh. assert (b ∈ da_data_address <$> ss_data s) as Hin.
      { apply Haddr. destruct Hsh as [(x&Hx&Hxa&_) _]. by exists x. }
      apply list_elem_of_fmap in Hin as (da&->&Hda). exists da. split; [done|]. apply list_elem_of_filter.
      split; [|done]. by apply (is_communication_shared log da Hok (Hent da Hda)).
Qed.

(** C21: communication points are exact.  For a test whose accesses fit the
    tables, the communication instructions computed at its end, while its inputs
    are still being explored, are without duplicates exactly the instructions
    that accessed a shared byte (a byte that some CPU wrote and that two CPUs
    accessed), and the number of communication data is the number of shared
    bytes.  When the inputs have changed nothing is added. *)
Theorem ski_stats_communication_exact (qs : list access_call) (inputs now : Z * Z) (sched_total exec_total : Z)
    (Hok : Forall call_ok qs) (Hlen : 8 * Z.of_nat (length qs) <= MAX_IPFILTER_HASH) :
  let log := qs ≫= bytes_of in
  exists s s', call_run (start_slot inputs) qs = Val s /\
    ski_stats_compute_communication_instructions now sched_total exec_total s = Val s' /\
    if decide (inputs = now) then
      NoDup (ss_communication_instructions s') /\
      (forall e, e ∈ ss_communication_instructions s' <->
        exists x, x ∈ log /\ x_eip x = e /\ shared log (x_addr x)) /\
      exists shared_bytes, NoDup shared_bytes /\ (forall a, a ∈ shared_bytes <-> shared log a) /\
        ss_communication_data s' = Z.of_nat (length shared_bytes)
    else ss_communication_instructions s' = [] /\ ss_communication_data s' = 0.
Proof.
  intros log. destruct (bytes_of_calls_ok qs Hok) as [Hbok Hblen]. fold log in Hbok, Hblen.
  destruct (call_run_inv qs [] (start_slot inputs) Hok (start_inv inputs)) as (s&Hr&Hi&Hin&Hci);
    [unfold MAX_IPFILTER_HASH, SKI_STATS_MAX_DATA_ADDRESSES in *; cbn [length]; lia|].
  exists s. cbn [app] in Hi. fold log in Hi. cbn in Hin, Hci. unfold ski_stats_compute_communication_instructions.
  unfold ski_stats_input_is_running. rewrite Hin, Hci. destruct inputs as [i1 i2], now as [n1 n2]. cbn [fst snd].
  destruct (decide ((i1, i2) = (n1, n2))) as [Heq|Hne].
  2:{ assert ((i1 =? n1) && (i2 =? n2) = false) as ->
        by (apply not_true_iff_false; rewrite andb_true_iff, !Z.eqb_eq; intros [-> ->]; by apply Hne).
      cbn [ebind]. eexists. split; [done|]. by split. }
  injection Heq as -> ->. rewrite !Z.eqb_refl. cbn [andb].
  destruct (communication_loop_known (x_eip <$> log) ltac:(rewrite length_fmap; lia) (ss_data s) [] 0 0 0)
    as (ci&a&n&Hloop&Hk&He).
  { split; [apply NoDup_nil_2|]. by intros e ?%not_elem_of_nil. }
  { intros da e Hda Hinst. destruct Hi as [_ _ Hent _ _]. rewrite Forall_forall in Hent.
    destruct (Hent da Hda) as (_&_&Hinstr). apply Hinstr in Hinst as (x&Hx&_&<-). by apply list_elem_of_fmap_2. }
  rewrite Hloop. cbn [ebind]. eexists. split; [done|]. split; [done|]. cbn [ss_communication_instructions ss_communication_data].
  split; [apply Hk|]. split.
  - intros e. rewrite He, elem_of_nil, <- (shared_instructions log s e Hbok Hi). tauto.
  - eexists. split; [apply (shared_entries log s Hbok Hi)|]. split; [apply (shared_entries log s Hbok Hi)|].
    rewrite length_fmap. lia.
Qed.

(** Two CPUs, one shared byte. *)
Lemma ski_stats_communication_exact_witness :
  let qs := [mk_call 4096 100 4 true 0; mk_call 4099 200 1 false 1; mk_call 8192 300 4 true 1] in
  let log := qs ≫= bytes_of in
  exists s s', call_run (start_slot (1, 2)) qs = Val s /\
    ski_stats_compute_communication_instructions (1, 2) 10 20 s = Val s' /\
    NoDup (ss_communication_instructions s') /\
    (forall e, e ∈ ss_communication_instructions s' <->
      exists x, x ∈ log /\ x_eip x = e /\ shared log (x_addr x)) /\
    exists shared_bytes, NoDup shared_bytes /\ (forall a, a ∈ shared_bytes <-> shared log a) /\
      ss_communication_data s' = Z.of_nat (length shared_bytes).
Proof.
  intros qs log. apply (ski_stats_communication_exact qs (1, 2) (1, 2) 10 20);
    apply (bool_decide_unpack _); by vm_compute.
Defined.
