(* ===== verification/InstructionDetector.v ===== *)
(** * InstructionDetector.v -- watching a list of instructions

    Models [vmm/ski-instruction-detector.h] and [vmm/ski-instruction-detector.c]:
    a file lists instruction addresses, and every test reports which of them
    were executed.  The uthash table over the array [instructions] is the list of
    the array's used entries. *)

From Stdlib Require Import Strings.String.
From S2P Require Import Prelude CString Priorities.

Definition SKI_INSTRUCTION_DETECTOR_ENTRIES_MAX : Z := 128 * 1024.
Definition SKI_INSTRUCTION_DETECTOR_HITS_MAX : Z := 64 * 1024.

Record ski_instruction_detector_entry := mk_ide { ide_eip_address : Z; ide_count : Z }.

Record ski_instruction_detector := mk_id {
  id_instructions : list ski_instruction_detector_entry;
  id_total_instructions : Z;
  id_total_distinct_instructions : Z
}.

Definition ski_instruction_detector_init : ski_instruction_detector := mk_id [] 0 0.

Definition ski_instruction_detector_reset_count (id : ski_instruction_detector) : ski_instruction_detector :=
  mk_id ((fun e => mk_ide (ide_eip_address e) 0) <$> id_instructions id) 0 0.

Definition find_entry (eip : Z) (id : ski_instruction_detector) : option (nat * ski_instruction_detector_entry) :=
  list_find (fun e => ide_eip_address e = eip) (id_instructions id).

(** The address is an [unsigned int] stored in an [int]; the new entry keeps the
    zero count of the cleared array. *)
Definition ski_instruction_detector_add_entry (eip : Z) (id : ski_instruction_detector) : E ski_instruction_detector :=
  match find_entry (wrap32 eip) id with
  | None =>
      _ <-? eassert (Z.of_nat (length (id_instructions id)) <? SKI_INSTRUCTION_DETECTOR_ENTRIES_MAX) ;;
      Val (mk_id (id_instructions id ++ [mk_ide (wrap32 eip) 0]) (id_total_instructions id)
             (id_total_distinct_instructions id))
  | Some _ => Fail HAssert
  end.

(** The loop over the lines of the file. *)
Fixpoint load_loop (fuel : nat) (content : list Z) (id : ski_instruction_detector) : E ski_instruction_detector :=
  match fuel with
  | O => Val id
  | S fuel' =>
      match content with
      | [] => Val id
      | _ =>
          let '(buffer, rest) := fgets 510 content in
          match sscanf_x (strip_newline buffer) with
          | None => Val id
          | Some (eip_address, _) =>
              id' <-? ski_instruction_detector_add_entry eip_address id ;;
              load_loop fuel' rest id'
          end
      end
  end.

(** [filename] is [None] without the option, and [Some None] when the file
    cannot be opened. *)
Definition ski_instruction_detector_load (filename : option (option (list Z))) (id : ski_instruction_detector)
  : E ski_instruction_detector :=
  match filename with
  | None => Val id
  | Some None => Fail HAssert
  | Some (Some content) =>
      id' <-? load_loop (S (length content)) content (ski_instruction_detector_reset_count id) ;;
      _ <-? eassert (negb (Z.of_nat (length (id_instructions id')) =? 0)) ;;
      Val id'
  end.

(** [enabled]: the option is set and tests run in parallel processes. *)
Definition ski_instruction_detector_new_access (enabled : bool) (eip_address : Z) (id : ski_instruction_detector)
  : ski_instruction_detector :=
  if negb enabled then id
  else
    match find_entry eip_address id with
    | None => id
    | Some (i, entry) =>
        let distinct := if ide_count entry =? 0 then wrap32 (id_total_distinct_instructions id + 1)
                        else id_total_distinct_instructions id in
        mk_id (<[i := mk_ide (ide_eip_address entry) (wrap32 (ide_count entry + 1))]> (id_instructions id))
          (wrap32 (id_total_instructions id + 1)) distinct
    end.

(** *** The report *)

Fixpoint print_hex_digits (fuel : nat) (n : Z) (acc : list Z) : list Z :=
  match fuel with
  | O => acc
  | S fuel' =>
      let d := n mod 16 in
      let acc := (if d <? 10 then 48 + d else 87 + d) :: acc in
      if n / 16 =? 0 then acc else print_hex_digits fuel' (n / 16) acc
  end.

(** [printf("%x", z)] of an [int]. *)
Definition print_hex (z : Z) : list Z := print_hex_digits 8 (u32 z) [].

(** The hits, until twenty bytes of the buffer are left. *)
Fixpoint hits_loop (entries : list ski_instruction_detector_entry) (hits : list Z) : list Z :=
  match entries with
  | [] => hits
  | e :: entries' =>
      if c_true (ide_count e) then
        let hits := hits ++ print_hex (ide_eip_address e) ++ str " " in
        if Z.of_nat (length hits) + 20 >? SKI_INSTRUCTION_DETECTOR_HITS_MAX then hits
        else hits_loop entries' hits
      else hits_loop entries' hits
  end.

(** The totals and the hits of the line, [None] when nothing was executed. *)
Definition ski_instruction_detector_print (id : ski_instruction_detector) : option (Z * Z * list Z) :=
  if id_total_instructions id =? 0 then None
  else Some (id_total_instructions id, id_total_distinct_instructions id, hits_loop (id_instructions id) []).

(** ** Counting *)

Definition watched (id : ski_instruction_detector) : list Z := ide_eip_address <$> id_instructions id.

(** How often [e] is executed. *)
Definition executions (e : Z) (trace : list Z) : Z := Z.of_nat (length (filter (fun x => x = e) trace)).

(** The detector's state after [trace], starting from zero counts. *)
Definition counted (eips trace : list Z) : ski_instruction_detector :=
  mk_id ((fun e => mk_ide e (executions e trace)) <$> eips)
    (Z.of_nat (length (filter (fun x => x ∈ eips) trace)))
    (Z.of_nat (length (filter (fun e => e ∈ trace) eips))).

Lemma executions_snoc e trace x :
  executions e (trace ++ [x]) = executions e trace + (if decide (x = e) then 1 else 0).
Proof.
  unfold executions. rewrite filter_app, length_app, filter_cons, filter_nil. case_decide; cbn; lia.
Qed.

Lemma executions_pos e trace : executions e trace = 0 <-> e ∉ trace.
Proof.
  unfold executions. induction trace as [|x trace IH]; [split; [intros _; apply not_elem_of_nil|done]|].
  rewrite filter_cons, not_elem_of_cons, <- IH. case_decide as Hx; cbn [length].
  - split; [intros; lia|]. intros [Hne _]. congruence.
  - split; [|tauto]. intros H. split; [congruence|done].
Qed.

Lemma executions_le e trace : 0 <= executions e trace <= Z.of_nat (length trace).
Proof. unfold executions. pose proof (length_filter (fun x => x = e) trace). lia. Qed.

Lemma find_counted eips trace e :
  match find_entry e (counted eips trace) with
  | Some (i, entry) => eips !! i = Some e /\ entry = mk_ide e (executions e trace)
  | None => e ∉ eips
  end.
Proof.
  unfold find_entry, counted. cbn [id_instructions].
  destruct (list_find _ _) as [[i entry]|] eqn:F.
  - apply list_find_Some in F as (Hi&He&_). rewrite list_lookup_fmap in Hi.
    destruct (eips !! i) as [x|] eqn:Ex; [|done]. injection Hi as <-. cbn in He. by subst.
  - apply list_find_None in F. rewrite Forall_fmap, Forall_forall in F. intros Hin. by apply (F e Hin).
Qed.

Lemma filter_trace_snoc (eips trace : list Z) (e : Z) :
  e ∈ eips -> NoDup eips ->
  Z.of_nat (length (filter (fun x => x ∈ trace ++ [e]) eips)) =
  Z.of_nat (length (filter (fun x => x ∈ trace) eips)) + (if decide (e ∈ trace) then 0 else 1).
Proof.
  intros He Hnd. case_decide as Ht.
  - rewrite Z.add_0_r. do 2 f_equal. apply filter_ext_Forall, Forall_forall. intros x _.
    rewrite elem_of_app, list_elem_of_singleton.
    split; [|tauto]. by intros [?| ->].
  - induction Hnd as [|y eips Hy Hnd IH]; [by apply not_elem_of_nil in He|].
    rewrite !filter_cons. apply elem_of_cons in He as [<-|He].
    + rewrite decide_True by (rewrite elem_of_app, list_elem_of_singleton; tauto). rewrite decide_False by done.
      rewrite length_cons, Nat2Z.inj_succ, <- Z.add_1_r. do 3 f_equal.
      apply filter_ext_Forall, Forall_forall. intros x Hx. rewrite elem_of_app, list_elem_of_singleton. split; [|tauto].
      intros [?| ->]; done.
    + specialize (IH He). assert (y ∈ trace ++ [e] <-> y ∈ trace) as Hiff.
      { rewrite elem_of_app, list_elem_of_singleton. split; [|tauto]. by intros [?| ->]. }
      destruct (decide (y ∈ trace)); [rewrite decide_True by tauto|rewrite decide_False by tauto];
        rewrite ?length_cons; lia.
Qed.

Lemma counted_insert eips trace e i :
  NoDup eips -> eips !! i = Some e ->
  <[i := mk_ide e (executions e trace + 1)]> ((fun x => mk_ide x (executions x trace)) <$> eips) =
  (fun x => mk_ide x (executions x (trace ++ [e]))) <$> eips.
Proof.
  intros Hnd Hi. apply list_eq. intros j. destruct (decide (i = j)) as [<-|Hne].
  - rewrite list_lookup_insert_eq by (rewrite length_fmap; by eapply lookup_lt_Some).
    rewrite list_lookup_fmap, Hi. cbn. by rewrite executions_snoc, decide_True by done.
  - rewrite list_lookup_insert_ne, !list_lookup_fmap by done. destruct (eips !! j) as [x|] eqn:E; [|done]. cbn.
    rewrite executions_snoc, decide_False, Z.add_0_r; [done|]. intros <-. apply Hne. by eapply NoDup_lookup.
Qed.

Lemma counted_step eips trace e :
  NoDup eips -> Z.of_nat (length trace) < 2 ^ 31 - 1 -> Z.of_nat (length eips) < 2 ^ 31 ->
  ski_instruction_detector_new_access true e (counted eips trace) = counted eips (trace ++ [e]).
Proof.
  intros Hnd Hl Hle. unfold ski_instruction_detector_new_access. cbn [negb].
  pose proof (find_counted eips trace e) as Hf. pose proof (executions_le e trace) as Hx.
  pose proof (length_filter (fun x => x ∈ eips) trace) as Hft.
  destruct (find_entry e (counted eips trace)) as [[i entry]|].
  - destruct Hf as [Hi ->]. assert (e ∈ eips) as He by by eapply list_elem_of_lookup_2.
    cbn [ide_count ide_eip_address]. unfold counted. cbn [id_total_instructions id_total_distinct_instructions id_instructions].
    rewrite (wrap32_id (executions e trace + 1)), (wrap32_id (Z.of_nat _ + 1)) by (unfold in_int; lia).
    rewrite counted_insert by done. pose proof (filter_trace_snoc eips trace e He Hnd) as Hd.
    pose proof (length_filter (fun x => x ∈ trace ++ [e]) eips) as Hld. f_equal.
    + rewrite filter_app, length_app, filter_cons_True, filter_nil by done. cbn. lia.
    + rewrite Hd. case_decide as Ht.
      * rewrite (proj2 (Z.eqb_neq _ _)) by (rewrite executions_pos; tauto). lia.
      * rewrite (proj2 (Z.eqb_eq _ _)) by by rewrite executions_pos. apply wrap32_id. unfold in_int. lia.
  - unfold counted. f_equal.
    + apply list_fmap_ext. intros i x Hi. rewrite executions_snoc, decide_False, Z.add_0_r; [done|].
      intros <-. apply Hf. by eapply list_elem_of_lookup_2.
    + rewrite filter_app, filter_cons_False, filter_nil, app_nil_r by done. done.
    + do 2 f_equal. apply filter_ext_Forall, Forall_forall. intros x Hx'.
      rewrite elem_of_app, list_elem_of_singleton. split; [tauto|]. intros [?| ->]; done.
Qed.

(** The program: one instruction after the other. *)
Definition detector_run (enabled : bool) (trace : list Z) (id : ski_instruction_detector) : ski_instruction_detector :=
  foldl (fun id e => ski_instruction_detector_new_access enabled e id) id trace.

Lemma detector_run_counted eips done_ trace :
  NoDup eips -> Z.of_nat (length done_ + length trace) < 2 ^ 31 - 1 -> Z.of_nat (length eips) < 2 ^ 31 ->
  detector_run true trace (counted eips done_) = counted eips (done_ ++ trace).
Proof.
  intros Hnd. revert done_. induction trace as [|e trace IH]; intros done_ Hl Hle; cbn [length] in Hl.
  - by rewrite app_nil_r.
  - unfold detector_run in *. cbn [foldl]. rewrite counted_step by (done || lia).
    rewrite IH by (rewrite ?length_app; cbn; lia). by rewrite <- app_assoc.
Qed.

(** ** Loading the file *)

Lemma hex_digit_print d : 0 <= d < 16 -> hex_digit (if d <? 10 then 48 + d else 87 + d) = Some d.
Proof.
  intros Hd. unfold hex_digit, is_digit. destruct (d <? 10) eqn:E; zbool; f_equal; lia.
Qed.

Lemma print_hex_chars fuel n acc :
  Forall (fun c => is_Some (hex_digit c)) acc -> Forall (fun c => is_Some (hex_digit c)) (print_hex_digits fuel n acc).
Proof.
  revert n acc. induction fuel as [|fuel IH]; intros n acc Ha; [done|]. cbn [print_hex_digits].
  assert (Forall (fun c => is_Some (hex_digit c)) ((if n mod 16 <? 10 then 48 + n mod 16 else 87 + n mod 16) :: acc)) as H.
  { constructor; [|done]. rewrite hex_digit_print by (apply Z.mod_pos_bound; lia). done. }
  destruct (n / 16 =? 0); [done|]. by apply IH.
Qed.

Lemma scan_hex_print fuel n acc v :
  0 <= n < 16 ^ Z.of_nat fuel ->
  exists k, 0 <= k /\ scan_hex (print_hex_digits fuel n acc) v = scan_hex acc (v * 16 ^ k + n).
Proof.
  revert n acc. induction fuel as [|fuel IH]; intros n acc Hn; cbn [print_hex_digits].
  { exists 0. cbn in Hn. split; [done|]. f_equal. lia. }
  pose proof (Z.mod_pos_bound n 16 ltac:(lia)) as Hm. pose proof (Z.div_mod n 16 ltac:(lia)) as Hdm.
  assert (forall acc v, scan_hex ((if n mod 16 <? 10 then 48 + n mod 16 else 87 + n mod 16) :: acc) v =
    scan_hex acc (16 * v + n mod 16)) as Hstep.
  { intros a w. cbn [scan_hex]. by rewrite hex_digit_print. }
  destruct (n / 16 =? 0) eqn:E.
  - exists 1. split; [done|]. rewrite Hstep. f_equal. lia.
  - destruct (IH (n / 16) ((if n mod 16 <? 10 then 48 + n mod 16 else 87 + n mod 16) :: acc)) as (k&Hk0&Hk).
    { split; [apply Z.div_pos; lia|]. apply Z.div_lt_upper_bound; [lia|].
      rewrite <- Z.pow_succ_r by lia. rewrite <- Nat2Z.inj_succ. apply Hn. }
    exists (k + 1). split; [lia|]. rewrite Hk, Hstep. f_equal. rewrite Z.pow_add_r by lia. lia.
Qed.

Lemma print_hex_digits_nonempty fuel n acc : acc <> [] \/ fuel <> O -> print_hex_digits fuel n acc <> [].
Proof.
  revert n acc. induction fuel as [|fuel IH]; intros n acc; [by intros [?|?]|]. intros _. cbn [print_hex_digits].
  destruct (n / 16 =? 0); [done|]. apply IH. by left.
Qed.

Lemma print_hex_notin z c : hex_digit c = None -> c ∉ print_hex z.
Proof.
  intros Hc Hin. pose proof (print_hex_chars 8 (u32 z) [] (Forall_nil_2 _)) as Hf.
  rewrite Forall_forall in Hf. destruct (Hf c Hin) as [d Hd]. congruence.
Qed.

Lemma print_hex_digits_app fuel n acc rest : print_hex_digits fuel n acc ++ rest = print_hex_digits fuel n (acc ++ rest).
Proof.
  revert n acc. induction fuel as [|fuel IH]; intros n acc; [done|]. cbn [print_hex_digits].
  destruct (n / 16 =? 0); [done|]. apply IH.
Qed.

(** What may follow an address without being read as part of it. *)
Definition ends_hex (rest : list Z) : Prop :=
  forall c s, rest = c :: s -> hex_digit c = None /\ c <> 120 /\ c <> 88.

Lemma hex_digit_not_prefix c : is_Some (hex_digit c) -> is_space c = false /\ c <> 45 /\ c <> 43 /\ c <> 120 /\ c <> 88.
Proof.
  intros [d Hd]. unfold hex_digit, is_digit in Hd. unfold is_space. repeat case_match; simplify_eq; lia.
Qed.

Lemma no_hex_prefix c s :
  (forall x s', s = x :: s' -> x <> 120 /\ x <> 88) ->
  match c :: s with
  | 48 :: x :: c' :: r =>
      if ((x =? 120) || (x =? 88)) && bool_decide (is_Some (hex_digit c')) then c' :: r else c :: s
  | _ => c :: s
  end = c :: s.
Proof.
  intros H. destruct s as [|x [|c' r]]; repeat case_match; try done. exfalso.
  destruct (H x _ eq_refl) as [Hx1 Hx2].
  match goal with H : _ && _ = true |- _ => apply andb_true_iff in H as [H _]; apply orb_true_iff in H as [H|H];
    apply Z.eqb_eq in H; congruence end.
Qed.

(** Reading back a printed address. *)
Lemma sscanf_x_print z rest : ends_hex rest -> sscanf_x (print_hex z ++ rest) = Some (u32 z, rest).
Proof.
  intros Hrest. pose proof (u32_range z) as Hz. unfold sscanf_x.
  pose proof (print_hex_chars 8 (u32 z) [] (Forall_nil_2 _)) as Hf. fold (print_hex z) in Hf.
  assert (print_hex z <> []) as Hne by (apply print_hex_digits_nonempty; by right).
  assert (scan_hex (print_hex z ++ rest) 0 = (u32 z, rest)) as Hscan.
  { unfold print_hex. rewrite print_hex_digits_app. cbn [app].
    destruct (scan_hex_print 8 (u32 z) rest 0) as (k&_&Hk); [exact Hz|]. rewrite Hk.
    destruct rest as [|c s]; [done|]. cbn [scan_hex]. by rewrite (proj1 (Hrest c s eq_refl)). }
  destruct (print_hex z) as [|c s] eqn:E; [done|]. apply Forall_cons in Hf as [Hc Hs]. clear E Hne.
  destruct (hex_digit_not_prefix c Hc) as (Hsp&H1&H2&_).
  cbn [app skip_spaces] in *. rewrite Hsp. rewrite (proj2 (Z.eqb_neq _ _)), (proj2 (Z.eqb_neq _ _)) by done.
  assert (scan_hex_number (c :: s ++ rest) = Some (u32 z, rest)) as ->.
  2:{ cbn. by rewrite (u32_id (u32 z)). }
  unfold scan_hex_number. rewrite no_hex_prefix.
  { destruct Hc as [d ->]. by rewrite Hscan. }
  intros x s' Hx. destruct s as [|y s]; cbn [app] in Hx; [by destruct (Hrest x s' Hx) as (_&?&?)|].
  injection Hx as -> _. apply Forall_cons in Hs as [Hy _]. destruct (hex_digit_not_prefix x Hy) as (_&_&_&?). done.
Qed.

(** The text of an address file. *)
Definition print_addresses (eips : list Z) : list Z := eips ≫= (fun e => print_hex e ++ [10]).

Lemma print_hex_length z : (length (print_hex z) <= 8)%nat.
Proof.
  assert (forall fuel n acc, (length (print_hex_digits fuel n acc) <= fuel + length acc)%nat) as H.
  { induction fuel as [|fuel IH]; intros n acc; [done|]. cbn [print_hex_digits].
    destruct (n / 16 =? 0); [cbn; lia|]. etrans; [apply IH|]. cbn. lia. }
  unfold print_hex. specialize (H 8%nat (u32 z) []). cbn [length] in H. lia.
Qed.

Lemma add_entry_counted done_ e :
  wrap32 e ∉ done_ -> Z.of_nat (length done_) < SKI_INSTRUCTION_DETECTOR_ENTRIES_MAX ->
  ski_instruction_detector_add_entry e (counted done_ []) = Val (counted (done_ ++ [wrap32 e]) []).
Proof.
  intros He Hl. unfold ski_instruction_detector_add_entry. pose proof (find_counted done_ [] (wrap32 e)) as Hf.
  destruct (find_entry (wrap32 e) (counted done_ [])) as [[i entry]|].
  { destruct Hf as [Hi _]. exfalso. apply He. by eapply list_elem_of_lookup_2. }
  unfold counted at 1. cbn [id_instructions]. rewrite length_fmap, (proj2 (Z.ltb_lt _ _)) by done. cbn [eassert ebind].
  unfold counted. cbn [id_instructions id_total_instructions id_total_distinct_instructions].
  rewrite fmap_app, filter_nil. f_equal. f_equal. rewrite filter_app, length_app.
  rewrite filter_cons_False by apply not_elem_of_nil. cbn. lia.
Qed.

Lemma load_loop_print eips fuel done_ :
  NoDup (done_ ++ (wrap32 <$> eips)) -> Forall (fun e => 0 <= e < 2 ^ 32) eips -> (length eips <= fuel)%nat ->
  Z.of_nat (length done_ + length eips) <= SKI_INSTRUCTION_DETECTOR_ENTRIES_MAX ->
  load_loop fuel (print_addresses eips) (counted done_ []) = Val (counted (done_ ++ (wrap32 <$> eips)) []).
Proof.
  intros Hnd Hr. revert fuel done_ Hnd.
  induction Hr as [|e eips He Hr IH]; intros [|fuel] done_ Hnd Hf Hl; cbn [length] in *; try lia;
    [by rewrite app_nil_r..|].
  unfold print_addresses in *. rewrite bind_cons, <- app_assoc. cbn [app].
  assert (exists c s, print_hex e ++ 10 :: (eips ≫= (fun e => print_hex e ++ [10])) = c :: s) as (c&s&Es)
    by (destruct (print_hex e); by eexists _, _).
  cbn [load_loop]. rewrite Es, <- Es. pose proof (print_hex_length e) as Hlen.
  rewrite fgets_line by (lia || by apply print_hex_notin).
  unfold strip_newline. rewrite last_snoc, removelast_last, <- (app_nil_r (print_hex e)), sscanf_x_print, u32_id by done.
  rewrite fmap_cons in Hnd. rewrite add_entry_counted; [|by apply NoDup_app in Hnd as (_&Hnd&_); intros Hin; eapply Hnd; [|left]|lia].
  cbn [ebind]. rewrite IH; [by rewrite fmap_cons, <- app_assoc|by rewrite <- app_assoc|lia|].
  rewrite length_app. cbn. lia.
Qed.


