(* ===== verification/Instrument.v ===== *)
(** * Instrument.v -- the instrumentation of the translated code

    Models the helpers of [vmm/target-i386/op_helper.c] that the translator
    plants in the guest's code: every instruction, every memory access, every
    instruction listed in the IP filter (a possible preemption point), [pause]
    and [hlt], the begin and the end of interrupt handlers, and the reset of
    [vmm/piking.c].

    A helper works on the scheduler's [machine] and on the records of the
    current test: the address of the last instruction, the race detector, the
    instruction detector, the access statistics and the list of addresses to
    preempt at.  QEMU's page walk ([cpu_get_phys_page_debug]) is the parameter
    [phys_page] of the memory helpers: the page of a virtual address on a CPU,
    or -1. *)

From S2P Require Import Prelude CString Liveness LoopTrace Machine Sched Interrupts Priorities TestControl.
From S2P Require Import RaceDetector Stats InstructionDetector.
From Stdlib Require Import Sorted.

(** Options of the helpers. *)
Record ins_options := mk_ins_options {
  io_trace_memory : bool;
  io_race_detector : bool;
  io_instruction_detector : bool
}.

Record istate := mk_istate {
  i_machine : machine;
  i_last_eip : Z;
  i_by_eip : list Z;
  i_rd : ski_race_detector;
  i_id : ski_instruction_detector;
  i_stats : ski_stats
}.

Definition set_i_machine v s := mk_istate v (i_last_eip s) (i_by_eip s) (i_rd s) (i_id s) (i_stats s).
Definition set_i_last_eip v s := mk_istate (i_machine s) v (i_by_eip s) (i_rd s) (i_id s) (i_stats s).
Definition set_i_by_eip v s := mk_istate (i_machine s) (i_last_eip s) v (i_rd s) (i_id s) (i_stats s).
Definition set_i_rd v s := mk_istate (i_machine s) (i_last_eip s) (i_by_eip s) v (i_id s) (i_stats s).
Definition set_i_id v s := mk_istate (i_machine s) (i_last_eip s) (i_by_eip s) (i_rd s) v (i_stats s).
Definition set_i_stats v s := mk_istate (i_machine s) (i_last_eip s) (i_by_eip s) (i_rd s) (i_id s) v.

Definition INS (A : Type) : Type := M istate A.

(** An operation of the scheduler. *)
Definition on_machine {A} (op : SCH A) : INS A :=
  fun s => match op (i_machine s) with
           | Ret m a => Ret (set_i_machine m s) a
           | Jump m => Jump (set_i_machine m s)
           | Halt m h => Halt (set_i_machine m s) h
           end.

Definition the_cpu (e : nat) (s : istate) : CPUState := m_cpus (i_machine s) !!! e.
Definition active (e : nat) (s : istate) : bool := cpu_ski_active (the_cpu e s).

Definition lift_stats (f : ski_stats -> E ski_stats) : INS unit :=
  st <- lift (fun s => f (i_stats s)) ;; modify (set_i_stats st).

(** The trace file is open and below its limit. *)
Definition tracing (s : istate) : bool :=
  let t := m_trace (i_machine s) in tr_fd t && (tr_nr_entries t <? SKI_EXEC_TRACE_MAX_ENTRIES).

Definition set_eip (e : nat) (explicit_eip : Z) : SCH unit := mod_cpu e (set_cpu_eip (u32 explicit_eip)).

Section instrument.
Context (opts : ins_options) (phys_page : nat -> Z -> Z).

(** *** Memory accesses *)

Definition TARGET_PAGE_MASK : Z := Z.lnot 4095.

(** The physical address of a virtual one. *)
Definition physical (e : nat) (mem_address : Z) : Z :=
  let paddr := phys_page e mem_address in
  if paddr =? -1 then -1
  else Z.lor (Z.land paddr TARGET_PAGE_MASK) (Z.land mem_address (Z.lnot TARGET_PAGE_MASK)).

Definition access_mask (n_bits : Z) : E Z :=
  if n_bits =? 8 then Val 255
  else if n_bits =? 16 then Val 65535
  else if n_bits =? 32 then Val 4294967295
  else Fail HAssert.

Definition dump_memory_access (e : nat) (mem_address value mem_index n_bits : Z) (is_load : bool) : INS unit :=
  s <- get ;;
  when (tracing s)
    (mask <- lift (fun _ => access_mask n_bits) ;;
     when (io_trace_memory opts)
       (on_machine (comment_ (CMem (cpu_index (the_cpu e s)) (i_last_eip s) mem_address (Z.land value mask)
                                mem_index n_bits is_load (physical e mem_address)))) ;;;
     when (o_forkall (m_opts (i_machine s)))
       (lift_stats (ski_stats_add_data_access mem_address (u32 (i_last_eip s)) (n_bits / 8) (negb is_load)
                      (cpu_index (the_cpu e s))))).

Definition race_detector (e : nat) (mem_address n_bits is_read : Z) : INS unit :=
  when (io_race_detector opts)
    (s <- get ;;
     rd <- lift (fun s => ski_race_detector_new_access (i_rd s) (cpu_index (the_cpu e s))
                            (wrap32 (physical e mem_address)) (i_last_eip s) (n_bits / 8) is_read
                            (m_counter_total (i_machine s))) ;;
     modify (set_i_rd rd)).

(** An uninitialised read set returns no value; the code goes on with an
    undefined one. *)
Definition helper_ski_load_access (e : nat) (address value mem_index n_bits : Z) : INS unit :=
  s <- get ;;
  when (active e s)
    (dump_memory_access e address value mem_index n_bits true ;;;
     race_detector e address n_bits 1 ;;;
     r <- lift (fun s => ski_liveness_store (sc_cpu_rs (cpu_ski (the_cpu e s))) (i_last_eip s)
                           (wrap32 address) (wrap32 value)) ;;
     on_machine (mod_ski e (set_sc_cpu_rs (fst r))) ;;;
     match snd r with
     | None => stop HUndef
     | Some count =>
         when (count >? SKI_MAX_LIVENESS_MA_LOOP_THRESHOLD)
           (on_machine (ski_threads_self_wait_rs e false))
     end).

Definition helper_ski_store_access (e : nat) (address value mem_index n_bits : Z) : INS unit :=
  s <- get ;;
  when (active e s)
    (dump_memory_access e address value mem_index n_bits false ;;;
     race_detector e address n_bits 0 ;;;
     on_machine (ski_threads_all_wake_rs (wrap32 address)) ;;;
     ret tt).

(** *** Instructions *)

Definition ski_correct_thread (e : nat) (s : istate) : bool :=
  if negb (active e s) then false
  else negb (sc_state (cpu_ski (the_cpu e s)) =? SKI_CPU_NA).

(** [ski_syscall_exit] only writes debug output. *)
Definition ski_syscall_enter (e : nat) : INS unit :=
  s <- get ;;
  if negb (ski_correct_thread e s) then
    when (active e s)
      (on_machine (mod_ski e (fun k => set_sc_nr_syscalls_other (wrap32 (sc_nr_syscalls_other k + 1)) k)))
  else on_machine (mod_ski e (fun k => set_sc_nr_syscalls_self (wrap32 (sc_nr_syscalls_self k + 1)) k)).

(** The reset on request of the monitor, or when a test takes too long. *)
Definition ski_reset : SCH unit :=
  comment_ CUserReset ;;;
  ski_exec_trace_stop ;;;
  m <- get ;;
  mod_all_cpus (fun c =>
    set_cpu_ski_active false
      (if cpu_ski_active c || c_true (m_block_other_cpus m) then set_cpu_stop 0 (set_cpu_stopped 0 c) else c)) ;;;
  ski_reset_common.

(** Removes the first entry with the address, if there is one. *)
Fixpoint take_by_eip (eip : Z) (l : list Z) : option (list Z) :=
  match l with
  | [] => None
  | x :: l' => if x =? eip then Some l' else (x ::.) <$> take_by_eip eip l'
  end.

(** The preemption of the running thread. *)
Definition preempt (e : nat) (explicit_eip : Z) (by_eip : bool) : INS unit :=
  on_machine (set_eip e explicit_eip) ;;;
  on_machine (on_trace ski_loop_flush) ;;;
  on_machine (ski_threads_invert_priority e) ;;;
  when (negb by_eip)
    (s <- get ;;
     next <- on_machine (ski_preemption_get_and_clear_lowest (sc_nr_max_instr (cpu_ski (the_cpu e s)))) ;;
     on_machine (mod_all_cpus (fun c =>
       if cpu_ski_active c then set_cpu_ski (set_sc_nr_max_instr next (cpu_ski c)) c else c))) ;;;
  jump.

(** The branch for an instruction of the test's own threads. *)
Definition inversion_point_self (e : nat) (explicit_eip : Z) : INS unit :=
  on_machine (mod_ski e (fun k => set_sc_nr_instr_executed (wrap32 (sc_nr_instr_executed k + 1)) k)) ;;;
  on_machine (modify (fun m => set_m_instructions_total (wrap32 (m_instructions_total m + 1)) m)) ;;;
  s <- get ;;
  let m := i_machine s in
  if m_instructions_total m >=? SKI_SCHED_MAX_PREEMPTION_INSTRUCTIONS then
    on_machine (on_trace ski_loop_finish) ;;;
    on_machine (comment_ CMaxInstructions) ;;;
    on_machine (set_eip e explicit_eip) ;;;
    when (o_forkall (m_opts m)) (SKI_ASSERT_MSG false SKI_EXIT_MAX_PREEMPTION_INST) ;;;
    on_machine ski_reset ;;;
    jump
  else
    let by_count := negb (o_preemption_by_eip (m_opts m)) &&
                    (m_instructions_total m =? sc_nr_max_instr (cpu_ski (the_cpu e s))) in
    do_preemption <-
      (if o_preemption_by_eip (m_opts m) then
         match take_by_eip explicit_eip (i_by_eip s) with
         | Some l => modify (set_i_by_eip l) ;;; ret true
         | None => ret by_count
         end
       else ret by_count) ;;
    when do_preemption (preempt e explicit_eip (o_preemption_by_eip (m_opts m))).

Definition helper_ski_instrument_possible_inversion_point (e : nat) (explicit_eip : Z) : INS unit :=
  s <- get ;;
  when (active e s)
    (if negb (c_true (ski_preemption_mode_matches (i_machine s))) then ret tt
     else if negb (ski_correct_thread e s) then
       on_machine (mod_ski e (fun k => set_sc_nr_instr_executed_other (wrap32 (sc_nr_instr_executed_other k + 1)) k))
     else inversion_point_self e explicit_eip).

(** [ski_get_current_thread] asserts that there is one. *)
Definition helper_ski_instrument_pause (e : nat) : INS unit :=
  s <- get ;;
  when (active e s)
    (cur <- on_machine (current_thread HAssert) ;;
     let '(i, tc) := cur in
     let total := m_counter_total (i_machine s) in
     on_machine (mod_thread i (set_tc_last_pause total)) ;;;
     if wrap32 (tc_last_pause tc + SKI_MAX_LIVENESS_PAUSE_DISTANCE) >=? total then
       on_machine (on_trace ski_loop_flush) ;;;
       on_machine (ski_threads_self_wait_rs e true)
     else
       rs <- lift (fun s => ski_liveness_reset (sc_cpu_rs (cpu_ski (the_cpu e s)))) ;;
       on_machine (mod_ski e (set_sc_cpu_rs rs))).

Definition helper_ski_instrument_pause_pos (e : nat) (explicit_eip : Z) : INS unit :=
  s <- get ;;
  when (active e s)
    (on_machine (set_eip e (explicit_eip + 2)) ;;;
     on_machine (on_trace ski_loop_flush) ;;;
     jump).

Definition ski_do_hlt (e : nat) : INS unit :=
  s <- get ;;
  when (active e s)
    (on_machine (ski_threads_self_wait_hlt e) ;;;
     on_machine (on_trace ski_loop_flush)).

Definition helper_ski_instrument_all (e : nat) (explicit_eip : Z) : INS unit :=
  modify (set_i_last_eip explicit_eip) ;;;
  s <- get ;;
  when (active e s)
    (on_machine (modify (fun m => set_m_counter_total (wrap32 (m_counter_total m + 1)) m)) ;;;
     on_machine (modify (fun m => set_m_counter_per_cycle (wrap32 (m_counter_per_cycle m + 1)) m)) ;;;
     on_machine (modify (fun m => set_m_instructions_current (wrap32 (m_instructions_current m + 1)) m)) ;;;
     modify (fun s => set_i_id (ski_instruction_detector_new_access
       (io_instruction_detector opts && o_forkall (m_opts (i_machine s))) explicit_eip (i_id s)) s) ;;;
     adjusted <- on_machine (ski_threads_adjust_priority_current e) ;;
     when (c_true adjusted)
       (on_machine (set_eip e explicit_eip) ;;;
        on_machine (on_trace ski_loop_flush) ;;;
        on_machine (comment_ CAdjusted) ;;;
        jump) ;;;
     s <- get ;;
     when (tracing s)
       (when (o_forkall (m_opts (i_machine s))) (lift_stats (ski_stats_add_instruction_access explicit_eip)) ;;;
        on_machine (on_trace (trace_instruction (o_trace_instructions (m_opts (i_machine s)))
                                (cpu_index (the_cpu e s)) explicit_eip (cpu_regs_ (the_cpu e s)))))).

(** *** Interrupts *)

(** The hook at the start of [do_interrupt_protected]. *)
Definition interrupt_begin_hook (e : nat) (intno is_int error_code next_eip is_hw : Z) : INS unit :=
  s <- get ;;
  when (active e s)
    (on_machine (on_trace ski_loop_flush) ;;;
     on_machine (comment_ (CInterruptHandler intno is_int error_code next_eip is_hw)) ;;;
     on_machine (ski_handle_interrupt_begin e intno is_int is_hw)).

(** The hook at the end of [helper_iret_protected]. *)
Definition interrupt_end_hook (e : nat) : INS unit :=
  s <- get ;;
  when (active e s)
    (on_machine (on_trace ski_loop_flush) ;;;
     on_machine (comment_ CReturnInterrupt) ;;;
     on_machine (ski_handle_interrupt_end e) ;;;
     jump).
End instrument.

(** ** Running on the machine *)

Lemma on_machine_Ret {A} (op : SCH A) s m a :
  op (i_machine s) = Ret m a -> on_machine op s = Ret (set_i_machine m s) a.
Proof. unfold on_machine. by intros ->. Qed.

Lemma on_machine_Halt {A} (op : SCH A) s m h :
  op (i_machine s) = Halt m h -> on_machine op s = Halt (set_i_machine m s) h.
Proof. unfold on_machine. by intros ->. Qed.

Lemma cpu_known_index cpus tc : cpu_known cpus tc <-> tc_cpu_no tc ∈ cpu_index <$> cpus.
Proof.
  split; [|apply find_cpu_known]. intros [c Hc]. unfold find_cpu in Hc.
  destruct (list_find _ _) as [[j c']|] eqn:E; [|done]. apply list_find_Some in E as (Hj&<-&_).
  apply list_elem_of_fmap. exists c'. split; [done|]. by eapply list_elem_of_lookup_2.
Qed.

(** Threads stay on known CPUs when the CPUs keep their numbers. *)
Lemma threads_known_index m m' :
  threads_known m -> cpu_index <$> m_cpus m' = cpu_index <$> m_cpus m ->
  tc_cpu_no <$> live_threads m' = tc_cpu_no <$> live_threads m -> threads_known m'.
Proof.
  unfold threads_known. rewrite !Forall_forall. intros H Hc Ht tc Hin.
  apply cpu_known_index. rewrite Hc.
  assert (tc_cpu_no tc ∈ tc_cpu_no <$> live_threads m) as Hi.
  { rewrite <- Ht. by apply list_elem_of_fmap_2. }
  apply list_elem_of_fmap in Hi as (tc'&->&Hi'). by apply cpu_known_index, H.
Qed.

(** ** Preemption points *)

(** What [ski_preemption_get_and_clear_lowest] does to the points. *)
Definition take_lowest (min : Z) (ps : list Z) : Z * list Z :=
  match lowest_preemption min ps 0 None with
  | Some (i, v) => (v, <[i := -1]> ps)
  | None => (-1, ps)
  end.

Lemma get_lowest_eq min m :
  ski_preemption_get_and_clear_lowest min m =
  Ret (set_m_preemptions (take_lowest min (m_preemptions m)).2 m) (take_lowest min (m_preemptions m)).1.
Proof.
  unfold ski_preemption_get_and_clear_lowest, take_lowest, bind, get, modify, ret.
  destruct (lowest_preemption _ _ _ _) as [[i v]|]; [done|]. by destruct m.
Qed.

(** The CPUs of the test agree on the next preemption point [p]. *)
Definition waits_for_point (p : Z) (c : CPUState) : Prop :=
  cpu_ski_active c = true -> sc_state (cpu_ski c) <> SKI_CPU_NA /\ sc_nr_max_instr (cpu_ski c) = p.

#[export] Instance waits_for_point_dec p c : Decision (waits_for_point p c).
Proof. unfold waits_for_point. apply _. Defined.

Lemma waits_for_next p p' c :
  waits_for_point p c ->
  waits_for_point p' (if cpu_ski_active c then set_cpu_ski (set_sc_nr_max_instr p' (cpu_ski c)) c else c).
Proof.
  intros Hc. destruct (cpu_ski_active c) eqn:E.
  - intros _. by destruct (Hc E).
  - intros Ha. congruence.
Qed.

Record points_inv (p : Z) (m : machine) : Prop := {
  pi_known : threads_known m;
  pi_trace : trace_ok (m_trace m);
  pi_current : exists i tc, m_threads_current m = Some i /\ live_threads m !! i = Some tc;
  pi_mode : ski_preemption_mode_matches m = 1;
  pi_opt : o_preemption_by_eip (m_opts m) = false;
  pi_cpus : Forall (waits_for_point p) (m_cpus m)
}.

Definition active_cpu (m : machine) (e : nat) : Prop :=
  (cpu_ski_active <$> m_cpus m) !! e = Some true.

#[export] Instance active_cpu_dec m e : Decision (active_cpu m e).
Proof. unfold active_cpu. apply _. Defined.

(** The machine with the counters of [inversion_point_self] increased. *)
Definition counted_point (e : nat) (m : machine) : machine :=
  set_m_instructions_total (wrap32 (m_instructions_total m + 1))
    (set_m_cpus (alter (fun c => set_cpu_ski (set_sc_nr_instr_executed
        (wrap32 (sc_nr_instr_executed (cpu_ski c) + 1)) (cpu_ski c)) c) e (m_cpus m)) m).

(** The machine at the longjmp of a preemption. *)
Definition preempted (e i : nat) (eip prio p : Z) (ps : list Z) (t : trace_state) (m : machine) : machine :=
  let m := counted_point e m in
  set_m_cpus ((fun c => if cpu_ski_active c then set_cpu_ski (set_sc_nr_max_instr p (cpu_ski c)) c else c) <$>
              alter (set_cpu_eip (u32 eip)) e (m_cpus m))
    (set_m_preemptions ps (set_m_need_reevaluate 1
      (set_m_threads (alter (set_tc_priority prio) i (m_threads m)) (set_m_trace t m)))).

Lemma mode_matches_ext m m' :
  m_threads_current m' = m_threads_current m -> m_opts m' = m_opts m ->
  tc_int_no <$> m_threads m' = tc_int_no <$> m_threads m ->
  ski_preemption_mode_matches m' = ski_preemption_mode_matches m.
Proof.
  intros H1 H2 H3. unfold ski_preemption_mode_matches. rewrite H1, H2.
  destruct (m_threads_current m) as [i|]; [|done].
  replace (tc_int_no (m_threads m' !!! i)) with (tc_int_no (m_threads m !!! i)); [done|].
  rewrite !list_lookup_total_alt. apply (f_equal (.!! i)) in H3. rewrite !list_lookup_fmap in H3.
  by destruct (m_threads m' !! i), (m_threads m !! i); simplify_eq/=.
Qed.

Lemma counted_point_inv p e m : points_inv p m -> points_inv p (counted_point e m).
Proof.
  intros [H1 H2 H3 H4 H5 H6]. split; try done.
  - eapply threads_known_index; [exact H1| |done]. cbn. by rewrite alter_fmap_same.
  - cbn. apply Forall_alter; [done|]. intros c _ Hc. exact Hc.
Qed.

Lemma preempted_inv p e i eip prio p' ps t m :
  points_inv p m -> trace_ok t -> m_threads_current m = Some i ->
  points_inv p' (preempted e i eip prio p' ps t m).
Proof.
  intros H Ht Hi. apply (counted_point_inv p e) in H as [H1 _ (j&tc&Hj&Hl) H4 H5 H6].
  change (m_threads_current m = Some j) in Hj. assert (j = i) as -> by congruence.
  unfold preempted. set (m1 := counted_point e m) in *. split; try done.
  - eapply threads_known_index; [exact H1| |].
    + cbn -[m1]. rewrite <- list_fmap_compose, <- (alter_fmap_same (set_cpu_eip (u32 eip)) cpu_index e) by done.
      apply list_fmap_ext. intros ? c ?. cbn. by destruct (cpu_ski_active c).
    + unfold live_threads. cbn -[take m1]. rewrite take_alter_comm. by apply alter_fmap_same.
  - exists i, (set_tc_priority prio tc). split; [done|]. unfold live_threads. cbn -[take m1].
    rewrite take_alter_comm, list_lookup_alter_eq.
    change (take _ _) with (live_threads m1). by rewrite Hl.
  - rewrite (mode_matches_ext m1); [done|done|done|]. cbn -[m1]. by apply alter_fmap_same.
  - cbn -[m1]. apply Forall_fmap. apply Forall_alter; [|intros c _ Hc].
    + eapply Forall_impl; [exact H6|]. intros c. apply waits_for_next.
    + revert Hc. unfold compose, waits_for_point. cbn. destruct (cpu_ski_active c) eqn:E; cbn; [tauto|congruence].
Qed.

Lemma preempted_active e i eip prio p ps t m k :
  active_cpu m k -> active_cpu (preempted e i eip prio p ps t m) k.
Proof.
  unfold active_cpu. cbn. intros <-. f_equal. rewrite <- list_fmap_compose.
  rewrite (list_fmap_ext _ cpu_ski_active) by (intros _ c _; cbn; by destruct (cpu_ski_active c) eqn:E).
  by rewrite !alter_fmap_same.
Qed.

Lemma active_the_cpu e s : active_cpu (i_machine s) e -> active e s = true.
Proof.
  unfold active_cpu, active, the_cpu. rewrite list_lookup_fmap, list_lookup_total_alt.
  destruct (m_cpus _ !! e); [|done]. cbn. by intros [= H].
Qed.

Lemma waits_the_cpu p e m :
  active_cpu m e -> Forall (waits_for_point p) (m_cpus m) ->
  sc_state (cpu_ski (m_cpus m !!! e)) <> SKI_CPU_NA /\ sc_nr_max_instr (cpu_ski (m_cpus m !!! e)) = p.
Proof.
  unfold active_cpu. rewrite list_lookup_fmap. intros Ha H.
  destruct (m_cpus m !! e) as [c|] eqn:E; [|done]. injection Ha as Ha.
  rewrite (list_lookup_total_correct _ _ _ E). by apply (Forall_lookup_1 _ _ _ _ H E).
Qed.

Lemma lookup_total_alter_same {A B} `{Inhabited A} (g : A -> B) (f : A -> A) e k (l : list A) :
  (forall x, g (f x) = g x) -> g (alter f e l !!! k) = g (l !!! k).
Proof.
  intros Hg. rewrite !list_lookup_total_alt. destruct (decide (e = k)) as [<-|Hne].
  - rewrite list_lookup_alter_eq. destruct (l !! e); [apply Hg|done].
  - by rewrite list_lookup_alter_ne.
Qed.

(** A possible inversion point on a CPU of the test is counted, and preempts the
    thread when the count reaches the point the CPUs wait for. *)
Lemma inversion_point_eq p e eip s :
  points_inv p (i_machine s) -> active_cpu (i_machine s) e ->
  0 <= m_instructions_total (i_machine s) ->
  m_instructions_total (i_machine s) + 1 < SKI_SCHED_MAX_PREEMPTION_INSTRUCTIONS ->
  helper_ski_instrument_possible_inversion_point e eip s =
  when (m_instructions_total (i_machine s) + 1 =? p) (preempt e eip false)
    (set_i_machine (counted_point e (i_machine s)) s).
Proof.
  intros Hinv Ha H0 Hmax. unfold helper_ski_instrument_possible_inversion_point.
  erewrite bind_Ret by done. rewrite (active_the_cpu e s Ha). cbn [when].
  rewrite (pi_mode _ _ Hinv). cbn [c_true Z.eqb negb].
  destruct (waits_the_cpu p e _ Ha (pi_cpus _ _ Hinv)) as [Hst Hp].
  unfold ski_correct_thread. rewrite (active_the_cpu e s Ha). unfold the_cpu at 1.
  rewrite (proj2 (Z.eqb_neq _ _) Hst). cbn [negb].
  unfold inversion_point_self. erewrite bind_Ret by (by apply on_machine_Ret).
  erewrite bind_Ret by (by apply on_machine_Ret). erewrite bind_Ret by done.
  change (set_i_machine _ (set_i_machine _ s)) with (set_i_machine (counted_point e (i_machine s)) s).
  pose proof (counted_point_inv p e _ Hinv) as Hinv1.
  assert (active_cpu (counted_point e (i_machine s)) e) as Ha1.
  { unfold active_cpu. cbn. by rewrite alter_fmap_same. }
  assert (m_instructions_total (counted_point e (i_machine s)) = m_instructions_total (i_machine s) + 1) as Htot.
  { cbn. apply wrap32_id. unfold in_int. unfold SKI_SCHED_MAX_PREEMPTION_INSTRUCTIONS in Hmax. lia. }
  destruct (waits_the_cpu p e _ Ha1 (pi_cpus _ _ Hinv1)) as [_ Hp1].
  set (m1 := counted_point e (i_machine s)) in *.
  change (i_machine (set_i_machine m1 s)) with m1. rewrite Htot.
  replace (_ >=? SKI_SCHED_MAX_PREEMPTION_INSTRUCTIONS) with false by lia.
  rewrite (pi_opt _ _ Hinv1). cbn [negb andb]. unfold the_cpu. cbn [i_machine set_i_machine]. rewrite Hp1.
  by erewrite bind_Ret by done.
Qed.

Lemma preempt_Jump p e eip s :
  points_inv p (i_machine s) -> active_cpu (i_machine s) e ->
  let ps := m_preemptions (i_machine s) in
  exists i prio t, trace_ok t /\ m_threads_current (i_machine s) = Some i /\
    preempt e eip false (set_i_machine (counted_point e (i_machine s)) s) =
    Jump (set_i_machine (preempted e i eip prio (take_lowest p ps).1 (take_lowest p ps).2 t (i_machine s)) s).
Proof.
  intros Hinv Ha ps. apply (counted_point_inv p e) in Hinv as Hinv1.
  destruct (pi_current _ _ Hinv1) as (i&cur&Hi&Hl). unfold preempt.
  erewrite bind_Ret by (by apply on_machine_Ret).
  edestruct on_trace_flush as (t1&E1&Ht1); [|erewrite bind_Ret by (apply on_machine_Ret; exact E1)].
  { apply (pi_trace _ _ Hinv1). }
  edestruct (invert_priority_spec) as (r&t&Ht&_&_&_&E2);
    [| | | |erewrite bind_Ret by (apply on_machine_Ret; exact E2)]; [| |exact Hi|exact Hl|].
  - eapply threads_known_index; [apply (pi_known _ _ Hinv1)| |done]. cbn. by rewrite alter_fmap_same.
  - exact Ht1.
  - exists i, (wrap32 (r + 1)), t. split; [done|]. split; [done|]. cbn [negb when].
    erewrite bind_Ret; [reflexivity|]. erewrite bind_Ret by done.
    erewrite bind_Ret by (apply on_machine_Ret, get_lowest_eq).
    match goal with |- context [the_cpu e ?s'] =>
      assert (sc_nr_max_instr (cpu_ski (the_cpu e s')) = p) as -> end.
    { unfold the_cpu. cbn. rewrite (lookup_total_alter_same (fun c => sc_nr_max_instr (cpu_ski c))) by done. 
      apply (waits_the_cpu p e (counted_point e (i_machine s))); [|apply Hinv1].
      unfold active_cpu. cbn. by rewrite alter_fmap_same. }
    done.
Qed.

(** The lowest remaining point, and what is left of the points above. *)
Lemma take_lowest_spec min ps v ps' :
  0 <= min -> take_lowest min ps = (v, ps') ->
  v = -1 /\ ps' = ps /\ filter (fun p => min <= p) ps = [] \/
  min <= v /\ filter (fun p => min <= p) ps ≡ₚ v :: filter (fun p => v <= p) ps'.
Proof.
  intros H0. unfold take_lowest.
  pose proof (lowest_preemption_spec min ps [] None ltac:(by apply Forall_nil)) as Hs. cbn [app length] in Hs.
  destruct (lowest_preemption min ps 0 None) as [[i x]|]; cbn in Hs; intros [= <- <-].
  - right. destruct Hs as (Hi&Hv&Hm). split; [done|].
    rewrite (filter_clear min ps i x H0 Hi Hv). f_equiv.
    replace (filter (fun p => min <= p) (<[i:=-1]> ps)) with (filter (fun p => x <= p) (<[i:=-1]> ps)); [done|].
    apply filter_ext_Forall, Forall_insert; [|lia].
    eapply Forall_impl; [exact Hm|]. cbn. intros p Hpp. split; [lia|apply Hpp].
  - left. split; [done|]. split; [done|]. clear -Hs. induction Hs as [|p ps Hp _ IHs]; [done|].
    by rewrite filter_cons_False by lia.
Qed.

(** A sequence of possible inversion points (a CPU and an address each), and
    the counts at which a thread was preempted. *)
Fixpoint inversion_run (calls : list (nat * Z)) (s : istate) : option (istate * list Z) :=
  match calls with
  | [] => Some (s, [])
  | (e, eip) :: calls' =>
      match helper_ski_instrument_possible_inversion_point e eip s with
      | Ret s' _ => inversion_run calls' s'
      | Jump s' =>
          '(s'', l) ← inversion_run calls' s'; Some (s'', m_instructions_total (i_machine s') :: l)
      | Halt _ _ => None
      end
  end.

(** The same on the numbers alone. *)
Fixpoint points_run (n : nat) (total p : Z) (ps : list Z) : list Z :=
  match n with
  | O => []
  | S n' =>
      if total + 1 =? p
      then total + 1 :: points_run n' (total + 1) (take_lowest p ps).1 (take_lowest p ps).2
      else points_run n' (total + 1) p ps
  end.

Lemma inversion_run_points p calls s :
  points_inv p (i_machine s) -> Forall (active_cpu (i_machine s)) (fst <$> calls) ->
  0 <= m_instructions_total (i_machine s) ->
  m_instructions_total (i_machine s) + Z.of_nat (length calls) < SKI_SCHED_MAX_PREEMPTION_INSTRUCTIONS ->
  exists s', inversion_run calls s =
      Some (s', points_run (length calls) (m_instructions_total (i_machine s)) p (m_preemptions (i_machine s))) /\
    m_instructions_total (i_machine s') = m_instructions_total (i_machine s) + Z.of_nat (length calls).
Proof.
  revert p s. induction calls as [|[e eip] calls IH]; intros p s Hinv Ha H0 Hmax.
  { exists s. split; [done|]. cbn. lia. }
  cbn [length] in *. inversion_clear Ha as [|? ? Hae Har]. cbn [fst] in Hae.
  assert (m_instructions_total (counted_point e (i_machine s)) = m_instructions_total (i_machine s) + 1) as Ht.
  { cbn. apply wrap32_id. unfold in_int, SKI_SCHED_MAX_PREEMPTION_INSTRUCTIONS in *. lia. }
  cbn [inversion_run points_run]. rewrite (inversion_point_eq p) by (done || lia).
  destruct (_ =? p); cbn [when].
  - destruct (preempt_Jump p e eip s Hinv Hae) as (i&prio&t&Htr&Hi&->).
    set (q := take_lowest p (m_preemptions (i_machine s))).
    pose proof (preempted_inv p e i eip prio q.1 q.2 t _ Hinv Htr Hi) as Hinv'.
    set (m' := preempted _ _ _ _ _ _ _ _) in *. change (m_instructions_total m' = m_instructions_total (i_machine s) + 1) in Ht.
    destruct (IH q.1 (set_i_machine m' s)) as (s'&E&Hs'); cbn [i_machine set_i_machine] in *; rewrite ?Ht in *;
      [done| |lia|lia|].
    { eapply Forall_impl; [exact Har|]. intros k. apply preempted_active. }
    exists s'. rewrite E. split; [done|lia].
  - unfold ret. destruct (IH p (set_i_machine (counted_point e (i_machine s)) s)) as (s'&E&Hs');
      cbn [i_machine set_i_machine] in *; rewrite ?Ht in *; [by apply counted_point_inv| |lia|lia|].
    { eapply Forall_impl; [exact Har|]. intros k. unfold active_cpu. cbn. by rewrite alter_fmap_same. }
    exists s'. rewrite E. split; [done|lia].
Qed.

(** With distinct points all of those up to the final count are hit, in order. *)
Lemma points_run_none n total p ps : p <= total -> points_run n total p ps = [].
Proof.
  revert total. induction n as [|n IH]; intros total H; [done|]. cbn. zbool. apply IH. lia.
Qed.

Lemma points_run_exact n total p ps :
  0 <= total < p -> NoDup (p :: filter (fun x => p <= x) ps) ->
  StronglySorted Z.lt (points_run n total p ps) /\
  forall x, x ∈ points_run n total p ps <-> x ∈ p :: filter (fun x => p <= x) ps /\ x <= total + Z.of_nat n.
Proof.
  revert total p ps. induction n as [|n IH]; intros total p ps H0 Hnd; cbn [points_run].
  { split; [constructor|]. intros x. rewrite elem_of_nil, elem_of_cons, list_elem_of_filter. lia. }
  destruct (Z.eqb_spec (total + 1) p) as [<-|Hne].
  2:{ destruct (IH (total + 1) p ps) as [H1 H2]; [lia|done|]. split; [done|]. intros x. rewrite H2. by split; intros [? ?]; (split; [|lia]). }
  set (p := total + 1) in *. destruct (take_lowest p ps) as [v ps'] eqn:E. cbn [fst snd].
  apply take_lowest_spec in E as [(->&->&Hf)|(Hv&Hp)]; [| |lia].
  - rewrite points_run_none, Hf by lia. split; [by repeat constructor|].
    intros x. rewrite !elem_of_cons, elem_of_nil. lia.
  - rewrite Hp in Hnd. apply NoDup_cons in Hnd as [Hn1 Hn2].
    assert (p < v) as Hlt. { assert (p <> v) by (intros ->; apply Hn1; left). lia. }
    destruct (IH p v ps') as [H1 H2]; [lia|done|]. split.
    + constructor; [done|]. apply Forall_forall. intros x [Hx _]%H2.
      apply elem_of_cons in Hx as [->|[Hx _]%list_elem_of_filter]; lia.
    + intros x. rewrite elem_of_cons, H2, (elem_of_cons _ x p), Hp.
      assert (x ∈ v :: filter (fun x => v <= x) ps' -> x > p) as Hgt.
      { intros [->|[Hx _]%list_elem_of_filter]%elem_of_cons; lia. }
      split; [intros [->|[? ?]]|intros [[->|?] ?]]; [split; [by left|lia]|split; [by right|lia]|by left|].
      right. split; [done|lia].
Qed.


Definition zero_stats : ski_stats := ski_stats_reset_slot.

Definition sample_ins_machine : machine :=
  set_m_cpus ((fun c => set_cpu_ski (set_sc_nr_max_instr 5 (cpu_ski c)) c) <$> m_cpus sample)
    (set_m_preemptions [8; 6; -1] (set_m_threads_current (Some 0%nat) sample)).

Definition sample_ins : istate :=
  mk_istate sample_ins_machine 4096 [] ski_race_detector_init ski_instruction_detector_init zero_stats.

Definition sample_calls : list (nat * Z) := 
  [(0%nat, 10); (1%nat, 20); (0%nat, 30); (0%nat, 40); (1%nat, 50); (0%nat, 60); (0%nat, 70)].


(** ** Starvation *)

(** The instruction table of the statistics covers addresses of [U] only. *)
Definition stats_within (U : list Z) (st : ski_stats) : Prop :=
  NoDup (ia_eip_address <$> ss_instructions st) /\ (ia_eip_address <$> ss_instructions st) ⊆ U.

Lemma bump_addresses eip (l : list ski_stats_instruction_accesses) :
  ia_eip_address <$> ((fun ia => if ia_eip_address ia =? eip
                                 then mk_ia (ia_eip_address ia) (ia_total_accesses ia + 1) else ia) <$> l) =
  ia_eip_address <$> l.
Proof. rewrite <- list_fmap_compose. apply list_fmap_ext. intros _ ia _. cbn. by destruct (_ =? _). Qed.

Lemma add_instruction_access_within U eip st :
  stats_within U st -> eip ∈ U -> Z.of_nat (length U) <= SKI_STATS_MAX_INSTRUCTION_ADDRESSES ->
  exists st', ski_stats_add_instruction_access eip st = Val st' /\ stats_within U st'.
Proof.
  intros [Hnd Hsub] Hin HU. unfold ski_stats_add_instruction_access.
  destruct (list_find _ _) as [[k ia]|] eqn:E; cbn [ebind].
  { eexists. split; [done|]. split; cbn; by rewrite bump_addresses. }
  assert (eip ∉ ia_eip_address <$> ss_instructions st) as Hnew.
  { intros (ia&->&Hia)%list_elem_of_fmap. apply list_find_None in E.
    by apply (proj1 (Forall_forall _ _) E ia Hia). }
  assert (Z.of_nat (length (ss_instructions st)) < Z.of_nat (length U)) as Hlen.
  { assert (length (eip :: (ia_eip_address <$> ss_instructions st)) <= length U)%nat as H.
    { apply submseteq_length, NoDup_submseteq; [by constructor|]. set_solver. }
    cbn in H. rewrite length_fmap in H. lia. }
  unfold SKI_STATS_MAX_INSTRUCTION_ADDRESSES, SKI_STATS_MAX_DATA_ADDRESSES in *. zbool. cbn [eassert ebind].
  eexists. split; [done|]. split; cbn; rewrite bump_addresses, fmap_app; cbn.
  - apply NoDup_app. split; [done|]. split; [|repeat constructor; set_solver]. set_solver.
  - set_solver.
Qed.

Lemma on_trace_Ret {A} (t : M trace_state A) m t' a : t (m_trace m) = Ret t' a -> on_trace t m = Ret (set_m_trace t' m) a.
Proof. unfold on_trace. by intros ->. Qed.

(** Thread [i] runs on CPU [e] with starvation adjustment [a], after [c]
    instructions since it was switched to. *)
Record thread_runs (U : list Z) (e i : nat) (a c : Z) (s : istate) : Prop := {
  tr_active : active e s = true;
  tr_trace : trace_running (cpu_index (the_cpu e s)) c (m_trace (i_machine s));
  tr_traced : o_trace_instructions (m_opts (i_machine s)) = true;
  tr_heur : heuristics_ok (i_machine s);
  tr_current : m_threads_current (i_machine s) = Some i;
  tr_thread : exists tc, m_threads (i_machine s) !! i = Some tc /\ tc_priority_adjust tc = a;
  tr_count : m_instructions_current (i_machine s) = c;
  tr_stats : stats_within U (i_stats s)
}.

(** The state after the counters and the instruction detector. *)
Definition fetched (opts : ins_options) (eip : Z) (s : istate) : istate :=
  let m := i_machine s in
  set_i_id (ski_instruction_detector_new_access (io_instruction_detector opts && o_forkall (m_opts m)) eip (i_id s))
    (set_i_machine (set_m_instructions_current (wrap32 (m_instructions_current m + 1))
       (set_m_counter_per_cycle (wrap32 (m_counter_per_cycle m + 1))
          (set_m_counter_total (wrap32 (m_counter_total m + 1)) m))) (set_i_last_eip eip s)).

Definition instrument_rest (e : nat) (eip : Z) : INS unit :=
  adjusted <- on_machine (ski_threads_adjust_priority_current e) ;;
  when (c_true adjusted)
    (on_machine (set_eip e eip) ;;;
     on_machine (on_trace ski_loop_flush) ;;;
     on_machine (comment_ CAdjusted) ;;;
     jump) ;;;
  s <- get ;;
  when (tracing s)
    (when (o_forkall (m_opts (i_machine s))) (lift_stats (ski_stats_add_instruction_access eip)) ;;;
     on_machine (on_trace (trace_instruction (o_trace_instructions (m_opts (i_machine s)))
                             (cpu_index (the_cpu e s)) eip (cpu_regs_ (the_cpu e s))))).

Lemma instrument_all_eq opts e eip s :
  active e s = true -> helper_ski_instrument_all opts e eip s = instrument_rest e eip (fetched opts eip s).
Proof.
  intros Ha. unfold helper_ski_instrument_all. erewrite bind_Ret by done. erewrite bind_Ret by done.
  change (active e (set_i_last_eip eip s)) with (active e s). rewrite Ha. cbn [when].
  do 4 erewrite bind_Ret by done. done.
Qed.

Section starvation.
Context (opts : ins_options) (U : list Z) (e i : nat).
Context (HU : Z.of_nat (length U) <= SKI_STATS_MAX_INSTRUCTION_ADDRESSES).

Lemma fetched_runs a c eip s :
  thread_runs U e i a c s -> 0 <= c < 2 ^ 31 - 1 -> m_instructions_current (i_machine (fetched opts eip s)) = c + 1.
Proof. intros H Hc. cbn. rewrite (tr_count _ _ _ _ _ _ H). apply wrap32_id. unfold in_int. lia. Qed.

(** The instruction is traced. *)
Lemma rest_trace a c eip s :
  thread_runs U e i a c s -> 0 <= c < 2 ^ 31 - 1 -> eip ∈ U -> (c + 1) mod SKI_SCHED_ADJUST_MODULO <> 0 ->
  exists s', instrument_rest e eip (fetched opts eip s) = Ret s' tt /\ thread_runs U e i a (c + 1) s'.
Proof.
  intros H Hc Hin Hmod. pose proof (fetched_runs a c eip s H Hc) as Hcount. unfold instrument_rest.
  erewrite bind_Ret; [|apply on_machine_Ret, adjust_skip; right; rewrite Hcount].
  2:{ rewrite Z.rem_mod_nonneg; [done|lia|done]. }
  cbn [c_true Z.eqb negb when]. erewrite bind_Ret by done. erewrite bind_Ret by done.
  destruct (tracing _); cbn [when].
  2:{ eexists. split; [done|]. destruct H. split; try done. by apply running_mono. }
  assert (exists st', stats_within U st' /\
    when (o_forkall (m_opts (i_machine s))) (lift_stats (ski_stats_add_instruction_access eip))
      (fetched opts eip s) = Ret (set_i_stats st' (fetched opts eip s)) tt) as (st'&Hst&Est).
  { destruct (o_forkall _); cbn [when]; [|by exists (i_stats s); split; [apply H|]].
    destruct (add_instruction_access_within U eip (i_stats s) (tr_stats _ _ _ _ _ _ H) Hin HU) as (st'&E&Hst).
    exists st'. split; [done|]. unfold lift_stats. by erewrite bind_Ret by (by apply lift_Val). }
  erewrite bind_Ret by exact Est.
  destruct (running_step _ _ _ eip (cpu_regs_ (the_cpu e s)) (tr_trace _ _ _ _ _ _ H)) as (t'&Et&Ht'); [lia|].
  eexists. split.
  - apply on_machine_Ret, on_trace_Ret. cbn. rewrite (tr_traced _ _ _ _ _ _ H). exact Et.
  - destruct H. split; done.
Qed.

(** At every multiple of [SKI_SCHED_ADJUST_MODULO] the priority is adjusted, or
    the process exits. *)
Lemma rest_adjust a c eip s :
  thread_runs U e i a c s -> 0 <= c < 2 ^ 31 - 1 -> small a -> (c + 1) mod SKI_SCHED_ADJUST_MODULO = 0 ->
  exists s',
    if a + SKI_SCHED_ADJUST_INC <? SKI_DEBUG_MAX_ADJUST then
      instrument_rest e eip (fetched opts eip s) = Jump s' /\
      thread_runs U e i (a + SKI_SCHED_ADJUST_INC) (c + 1) s'
    else instrument_rest e eip (fetched opts eip s) = Halt s' (HExit SKI_EXIT_MAX_PRIORITY_ADJ).
Proof.
  intros H Hc Ha Hmod. pose proof (fetched_runs a c eip s H Hc) as Hcount.
  destruct (tr_thread _ _ _ _ _ _ H) as (tc&Hi&Htc).
  destruct (adjust_fires e (i_machine (fetched opts eip s)) i tc) as (cm&t&l&Ecm&Eadj);
    [apply H|lia| |apply H|done|by rewrite Htc|].
  { rewrite Hcount, Z.rem_mod_nonneg; [done|lia|done]. }
  rewrite Htc in Eadj. unfold instrument_rest.
  destruct (_ <? SKI_DEBUG_MAX_ADJUST).
  2:{ eexists. erewrite bind_Halt; [reflexivity|]. by apply on_machine_Halt. }
  destruct (running_comment cm _ _ _ (tr_trace _ _ _ _ _ _ H)) as (t'&Et&Ht).
  change (ski_exec_trace_print_comment cm (m_trace (i_machine s)) = Ret t tt) in Ecm.
  rewrite Et in Ecm. injection Ecm as ->. clear Et.
  erewrite bind_Ret by (by apply on_machine_Ret). cbn [c_true Z.eqb negb when].
  destruct (running_flush _ _ _ Ht) as (t1&Et1&Ht1).
  destruct (running_comment CAdjusted _ _ _ Ht1) as (t2&Et2&Ht2).
  eexists. split.
  - erewrite bind_Jump; [reflexivity|]. erewrite bind_Ret by (by apply on_machine_Ret).
    erewrite bind_Ret by (apply on_machine_Ret, on_trace_Ret; exact Et1).
    erewrite bind_Ret by (apply on_machine_Ret, on_trace_Ret; exact Et2). reflexivity.
  - split; cbn; try apply H; try done.
    + unfold active, the_cpu. cbn. rewrite lookup_total_alter_same by done. apply H.
    + unfold the_cpu. cbn. rewrite lookup_total_alter_same by done. by apply running_mono.
    + exists (set_tc_priority_adjust (a + SKI_SCHED_ADJUST_INC) tc). by rewrite list_lookup_alter_eq, Hi.
Qed.

(** A run of instructions on CPU [e]; after a longjmp the CPU goes on. *)
Fixpoint instruction_run (eips : list Z) (s : istate) : R istate unit :=
  match eips with
  | [] => Ret s tt
  | eip :: eips' =>
      match helper_ski_instrument_all opts e eip s with
      | Ret s' _ | Jump s' => instruction_run eips' s'
      | Halt s' h => Halt s' h
      end
  end.

(** How often the adjustment happens between two counts. *)
Definition adjustments (c n : Z) : Z := (c + n) / SKI_SCHED_ADJUST_MODULO - c / SKI_SCHED_ADJUST_MODULO.

Lemma adjustments_step c n :
  adjustments c (n + 1) =
  (if (c + 1) mod SKI_SCHED_ADJUST_MODULO =? 0 then 1 else 0) + adjustments (c + 1) n.
Proof.
  unfold adjustments, SKI_SCHED_ADJUST_MODULO. replace (c + 1 + n) with (c + (n + 1)) by lia.
  destruct (Z.eqb_spec ((c + 1) mod 500000) 0); Z.to_euclidean_division_equations; lia.
Qed.

Lemma starvation_run eips a c s :
  thread_runs U e i a c s -> 0 <= c -> c + Z.of_nat (length eips) < 2 ^ 31 -> 0 <= a < SKI_DEBUG_MAX_ADJUST ->
  eips ⊆ U ->
  let a' := a + SKI_SCHED_ADJUST_INC * adjustments c (Z.of_nat (length eips)) in
  exists s',
    if a' <? SKI_DEBUG_MAX_ADJUST then
      instruction_run eips s = Ret s' tt /\ thread_runs U e i a' (c + Z.of_nat (length eips)) s'
    else instruction_run eips s = Halt s' (HExit SKI_EXIT_MAX_PRIORITY_ADJ).
Proof.
  revert a c s. induction eips as [|eip eips IH]; intros a c s H Hc Hlen Ha Hsub.
  { cbn. exists s. unfold adjustments. rewrite Z.add_0_r, Z.sub_diag, Z.mul_0_r, Z.add_0_r. zbool. done. }
  cbn [length] in *. rewrite Nat2Z.inj_succ in *. unfold Z.succ. rewrite adjustments_step.
  cbn [instruction_run]. rewrite (instrument_all_eq opts e eip s) by apply H.
  assert (small a) as Hs. { unfold small, SKI_DEBUG_MAX_ADJUST in *. lia. }
  assert (0 <= adjustments (c + 1) (Z.of_nat (length eips))) as Hpos.
  { unfold adjustments, SKI_SCHED_ADJUST_MODULO. Z.to_euclidean_division_equations; lia. }
  replace (c + (Z.of_nat (length eips) + 1)) with (c + 1 + Z.of_nat (length eips)) by lia.
  set (k := adjustments (c + 1) _) in *.
  destruct (Z.eqb_spec ((c + 1) mod SKI_SCHED_ADJUST_MODULO) 0) as [Hm|Hm].
  - destruct (rest_adjust a c eip s H ltac:(lia) Hs Hm) as (s1&Hs1).
    destruct (Z.ltb_spec (a + SKI_SCHED_ADJUST_INC) SKI_DEBUG_MAX_ADJUST) as [Hlt|Hge].
    + destruct Hs1 as [-> H1]. replace (a + _ * _) with (a + SKI_SCHED_ADJUST_INC + SKI_SCHED_ADJUST_INC * k) by lia.
      apply IH; [done|lia|lia|unfold SKI_SCHED_ADJUST_INC in *; lia|set_solver].
    + rewrite Hs1. exists s1. unfold SKI_SCHED_ADJUST_INC in *.
      replace (_ <? SKI_DEBUG_MAX_ADJUST) with false; [done|]. symmetry. apply Z.ltb_ge. lia.
  - destruct (rest_trace a c eip s H ltac:(lia)) as (s1&->&H1); [set_solver|done|].
    rewrite Z.add_0_l. apply IH; [done|lia|lia|done|set_solver].
Qed.
End starvation.

(** C24: starvation is bounded.  A thread that keeps a CPU is adjusted by
    [SKI_SCHED_ADJUST_INC] at every [SKI_SCHED_ADJUST_MODULO]-th instruction
    since it was switched to, and the process exits with
    [SKI_EXIT_MAX_PRIORITY_ADJ] exactly when the adjustment would reach
    [SKI_DEBUG_MAX_ADJUST]: from adjustment 0 after 12 500 000 instructions.  Until
    then every instruction is counted and traced without error. *)
Theorem ski_starvation_exact (opts : ins_options) (U eips : list Z) (e i : nat) (a c : Z) (s : istate)
    (HU : Z.of_nat (length U) <= SKI_STATS_MAX_INSTRUCTION_ADDRESSES) (Hsub : eips ⊆ U)
    (Hruns : thread_runs U e i a c s) (Hc : 0 <= c) (Hlen : c + Z.of_nat (length eips) < 2 ^ 31)
    (Ha : 0 <= a < SKI_DEBUG_MAX_ADJUST) :
  let n := Z.of_nat (length eips) in
  let a' := a + SKI_SCHED_ADJUST_INC *
                ((c + n) / SKI_SCHED_ADJUST_MODULO - c / SKI_SCHED_ADJUST_MODULO) in
  exists s',
    (a' < SKI_DEBUG_MAX_ADJUST -> instruction_run opts e eips s = Ret s' tt /\
       m_instructions_current (i_machine s') = c + n /\
       exists tc, m_threads (i_machine s') !! i = Some tc /\ tc_priority_adjust tc = a') /\
    (SKI_DEBUG_MAX_ADJUST <= a' ->
       instruction_run opts e eips s = Halt s' (HExit SKI_EXIT_MAX_PRIORITY_ADJ)).
Proof.
  intros n a'. destruct (starvation_run opts U e i HU eips a c s) as (s'&H); try done. exists s'.
  fold (adjustments c n) in a'. change (a + _) with a' in H.
  destruct (Z.ltb_spec a' SKI_DEBUG_MAX_ADJUST) as [Hlt|Hge].
  - destruct H as [E H]. split; [|lia]. intros _. split; [done|]. by split; apply H.
  - split; [lia|done].
Qed.

Definition sample_starving : istate :=
  set_i_machine (set_m_instructions_current 499998 (i_machine sample_ins)) sample_ins.

Definition sample_ins_options : ins_options := mk_ins_options true true true.

Lemma sample_trace_running v N : trace_running v N sample_trace.
Proof. exists []. split; [by apply inv_empty|]. left. by apply (bool_decide_unpack _). Qed.

Lemma ski_starvation_exact_witness :
  exists s',
    (20 < SKI_DEBUG_MAX_ADJUST -> instruction_run sample_ins_options 0 [16; 32; 48] sample_starving = Ret s' tt /\
       m_instructions_current (i_machine s') = 500001 /\
       exists tc, m_threads (i_machine s') !! 0%nat = Some tc /\ tc_priority_adjust tc = 20) /\
    (SKI_DEBUG_MAX_ADJUST <= 20 ->
       instruction_run sample_ins_options 0 [16; 32; 48] sample_starving = Halt s' (HExit SKI_EXIT_MAX_PRIORITY_ADJ)).
Proof.
  apply (ski_starvation_exact sample_ins_options [16; 32; 48] [16; 32; 48] 0 0 0 499998 sample_starving).
  - by apply (bool_decide_unpack _); vm_compute.
  - done.
  - split; try done.
    + apply sample_trace_running.
    + by eexists.
    + split; [exact (NoDup_nil_2)|intros x Hx; by apply elem_of_nil in Hx].
  - done.
  - done.
  - done.
Defined.

(** ** Memory accesses *)

Section accesses.
Context (opts : ins_options) (phys_page : nat -> Z -> Z).

Definition access_size (n_bits : Z) : Prop := n_bits = 8 \/ n_bits = 16 \/ n_bits = 32.

(** What the records of the accesses of CPU [e] need. *)
Definition records_ok (e : nat) (s : istate) : Prop :=
  trace_ok (m_trace (i_machine s)) /\ rd_ok (i_rd s) /\ 0 <= cpu_index (the_cpu e s) < SKI_RD_MAX_CPU.

(** An access is recorded in the trace, the statistics and the race detector. *)
Definition recorded (t : trace_state) (st : ski_stats) (rd : ski_race_detector) (s : istate) : istate :=
  set_i_rd rd (set_i_stats st (set_i_machine (set_m_trace t (i_machine s)) s)).

Lemma add_data_access_Val a eip n w c st :
  n < SKI_STATS_MAX_ACCESS_SIZE -> c < SKI_STATS_MAX_CPU ->
  exists st', ski_stats_add_data_access a eip n w c st = Val st'.
Proof.
  intros H1 H2. unfold ski_stats_add_data_access. apply Z.ltb_lt in H1, H2. rewrite H1, H2. cbn. by eexists.
Qed.

Lemma dump_Ret e a v mi nb ld s :
  access_size nb -> records_ok e s ->
  exists t st, trace_ok t /\ dump_memory_access opts phys_page e a v mi nb ld s =
    Ret (set_i_stats st (set_i_machine (set_m_trace t (i_machine s)) s)) tt.
Proof.
  intros Hnb (Ht&_&Hcpu). unfold dump_memory_access. erewrite bind_Ret by done.
  destruct (tracing s); cbn [when].
  2:{ exists (m_trace (i_machine s)), (i_stats s). split; [done|]. unfold ret. by destruct s as [[] ? ? ? ? ?]. }
  assert (exists mask, access_mask nb = Val mask) as (mask&Hm).
  { by destruct Hnb as [->|[->| ->]]; eexists. }
  erewrite bind_Ret by (by apply lift_Val).
  set (c := CMem _ _ _ _ _ _ _ _).
  assert (exists t, trace_ok t /\ when (io_trace_memory opts) (on_machine (comment_ c)) s =
    Ret (set_i_machine (set_m_trace t (i_machine s)) s) tt) as (t&Ht'&E).
  { destruct (io_trace_memory opts); cbn [when].
    - destruct (comment_Ret c (i_machine s) Ht) as (t&E&Ht'). exists t. split; [done|]. by apply on_machine_Ret.
    - exists (m_trace (i_machine s)). split; [done|]. unfold ret. by destruct s as [[] ? ? ? ? ?]. }
  exists t. erewrite bind_Ret by exact E. destruct (o_forkall _); cbn [when].
  - destruct (add_data_access_Val a (u32 (i_last_eip s)) (nb / 8) (negb ld) (cpu_index (the_cpu e s)) (i_stats s))
      as (st&Est); [|apply Hcpu|].
    { by destruct Hnb as [->|[->| ->]]. }
    exists st. split; [done|]. unfold lift_stats. by erewrite bind_Ret by (apply lift_Val; exact Est).
  - by exists (i_stats s).
Qed.

Lemma race_Ret e a nb r s :
  records_ok e s -> exists rd, rd_ok rd /\ race_detector opts phys_page e a nb r s = Ret (set_i_rd rd s) tt.
Proof.
  intros (_&Hrd&Hcpu). unfold race_detector. destruct (io_race_detector opts); cbn [when].
  - erewrite bind_Ret by done.
    edestruct (new_access_Val (i_rd s)) as (rd&E&Hrd'); [done|exact Hcpu|].
    exists rd. split; [done|]. erewrite bind_Ret by (apply lift_Val; exact E). done.
  - exists (i_rd s). split; [done|]. unfold ret. by destruct s.
Qed.

Lemma record_Ret e a v mi nb ld r s :
  access_size nb -> records_ok e s ->
  exists t st rd, trace_ok t /\ rd_ok rd /\ forall A (k : INS A),
    (dump_memory_access opts phys_page e a v mi nb ld ;;; race_detector opts phys_page e a nb r ;;; k) s =
    k (recorded t st rd s).
Proof.
  intros Hnb H. destruct (dump_Ret e a v mi nb ld s Hnb H) as (t&st&Ht&E).
  set (s1 := set_i_stats _ _) in E.
  destruct (race_Ret e a nb r s1) as (rd&Hrd&E1).
  { split; [done|]. apply H. }
  exists t, st, rd. do 2 (split; [done|]). intros A k. erewrite bind_Ret by exact E. by erewrite bind_Ret by exact E1.
Qed.

(** The read set of CPU [e]. *)
Definition read_set (e : nat) (s : istate) : ski_ma := sc_cpu_rs (cpu_ski (the_cpu e s)).

(** The state after the load is stored in the read set. *)
Definition loaded (e : nat) (rs : ski_ma) (s : istate) : istate :=
  set_i_machine (set_m_cpus (alter (fun c => set_cpu_ski (set_sc_cpu_rs rs (cpu_ski c)) c) e
                               (m_cpus (i_machine s))) (i_machine s)) s.

Lemma load_access_spec e i a v mi nb s c :
  access_size nb -> records_ok e s -> m_cpus (i_machine s) !! e = Some c -> cpu_ski_active c = true ->
  heuristics_ok (i_machine s) -> m_threads_current (i_machine s) = Some i ->
  ma_wf (sc_cpu_rs (cpu_ski c)) ->
  let r := lru_store (ma_max_entries (sc_cpu_rs (cpu_ski c))) (i_last_eip s) (wrap32 a) (wrap32 v)
             (ma_view (sc_cpu_rs (cpu_ski c))) in
  exists rs s1, ma_wf rs /\ ma_view rs = r.1 /\
    helper_ski_load_access opts phys_page e a v mi nb s = Ret s1 tt /\
    m_cpus (i_machine s1) = m_cpus (i_machine (loaded e rs s)) /\
    m_threads_no (i_machine s1) = m_threads_no (i_machine s) /\
    m_threads_current (i_machine s1) = Some i /\ trace_ok (m_trace (i_machine s1)) /\ rd_ok (i_rd s1) /\
    exists rs', ma_wf rs' /\ ma_view rs' = count_one <$> r.1 /\
      m_threads (i_machine s1) =
      if r.2 >? SKI_MAX_LIVENESS_MA_LOOP_THRESHOLD
      then alter (asleep false rs') i (m_threads (i_machine s)) else m_threads (i_machine s).
Proof.
  intros Hnb Hrec Hc Hact Hh Hi Hwf r. unfold helper_ski_load_access. erewrite bind_Ret by done.
  assert (the_cpu e s = c) as Hcpu by (by apply list_lookup_total_correct).
  unfold active. rewrite Hcpu, Hact. cbn [when].
  destruct (record_Ret e a v mi nb true 1 s Hnb Hrec) as (t&st&rd&Ht&Hrd&Hk). rewrite Hk. clear Hk.
  destruct (store_refines _ (i_last_eip s) (wrap32 a) (wrap32 v) Hwf) as (rs&n&Es&Hwf'&Hm&Hv).
  fold r in Hv. set (s0 := recorded t st rd s).
  erewrite bind_Ret; [|apply lift_Val; change (the_cpu e s0) with (the_cpu e s); rewrite Hcpu; exact Es].
  erewrite bind_Ret by (by apply on_machine_Ret). cbn [fst snd].
  change (set_i_machine _ s0) with (loaded e rs s0).
  destruct (copy_view rs Hwf') as (rs'&Ecp&Hwf2&Hv2). rewrite Hv. cbn [fst snd].
  destruct (n >? SKI_MAX_LIVENESS_MA_LOOP_THRESHOLD) eqn:En; cbn [when].
  - destruct (self_wait_rs_spec (i_machine (loaded e rs s0)) e i false rs') as (t1&l&Ht1&E); [done|done|done| |].
    { cbn. rewrite list_lookup_total_alt, list_lookup_alter_eq, Hc. exact Ecp. }
    eexists rs, _. do 2 (split; [done|]). split; [by apply on_machine_Ret|]. do 5 (split; [done|]).
    by exists rs'.
  - eexists rs, _. do 2 (split; [done|]). split; [done|]. do 5 (split; [done|]). by exists rs'.
Qed.

Lemma store_access_spec e a v mi nb s :
  access_size nb -> records_ok e s -> active e s = true -> is_Some (m_threads_current (i_machine s)) ->
  0 <= m_threads_no (i_machine s) <= Z.of_nat (length (m_threads (i_machine s))) ->
  Forall (fun tc => woken (wrap32 a) tc = true -> ma_ready (tc_wait_rs tc)) (live_threads (i_machine s)) ->
  exists s1, helper_ski_store_access opts phys_page e a v mi nb s = Ret s1 tt /\
    live_threads (i_machine s1) = wake (wrap32 a) <$> live_threads (i_machine s).
Proof.
  intros Hnb Hrec Hact Hc Hn Hr. unfold helper_ski_store_access. erewrite bind_Ret by done. rewrite Hact. cbn [when].
  destruct (record_Ret e a v mi nb false 0 s Hnb Hrec) as (t&st&rd&Ht&Hrd&Hk). rewrite Hk. clear Hk.
  set (s0 := recorded t st rd s).
  destruct (all_wake_rs_spec (wrap32 a) (i_machine s0)) as (t1&Ht1&E); [done|done|done|done|]. cbn zeta in E.
  set (m1 := set_m_threads _ _) in E.
  assert (live_threads m1 = wake (wrap32 a) <$> live_threads (i_machine s)) as Hl.
  { unfold live_threads at 1. cbn. rewrite take_app_length'; [done|].
    unfold live_threads. cbn. rewrite length_fmap, length_take. lia. }
  destruct (existsb _ _); (erewrite bind_Ret by (apply on_machine_Ret; exact E)); by eexists.
Qed.
End accesses.

Lemma lru_store_last max eip a v l : a ∈ me_mem_address <$> (lru_store max eip a v l).1.
Proof.
  unfold lru_store. destruct (list_find _ l) as [[? ?]|]; cbn [fst]; rewrite fmap_app; apply elem_of_app; right; left.
Qed.

(** C25: a busy-waiting thread sleeps until the location is written.  A load by
    the running thread is recorded and counted in its CPU's read set as the
    least-recently-used list prescribes.  If the location was read with the same
    value more than [SKI_MAX_LIVENESS_MA_LOOP_THRESHOLD] times, the thread is put
    to sleep and the scheduler cannot pick it, otherwise it is unchanged; in both
    cases a later store to the location, from any CPU of the test, leaves it
    awake.  Neither access stops the process. *)
Theorem ski_spin_until_store (opts : ins_options) (phys_page : nat -> Z -> Z) (e e2 i : nat)
    (a v mi nb v2 mi2 nb2 : Z) (s : istate) (c : CPUState) (tc : thread_context)
    (Hnb : access_size nb) (Hnb2 : access_size nb2) (Hrec : records_ok e s) (Hrec2 : records_ok e2 s)
    (Hc : m_cpus (i_machine s) !! e = Some c) (Hact : cpu_ski_active c = true) (Hact2 : active e2 s = true)
    (Hh : heuristics_ok (i_machine s)) (Hi : m_threads_current (i_machine s) = Some i)
    (Htc : live_threads (i_machine s) !! i = Some tc) (Hex : tc_exists tc <> 0)
    (Hw : tc_wait_for_rs tc = 0 /\ tc_wait_for_rs_on_pause tc = 0)
    (Hn : 0 <= m_threads_no (i_machine s) <= Z.of_nat (length (m_threads (i_machine s))))
    (Hr : Forall (fun tc => woken (wrap32 a) tc = true -> ma_ready (tc_wait_rs tc)) (live_threads (i_machine s)))
    (Hwf : ma_wf (sc_cpu_rs (cpu_ski c))) :
  let r := lru_store (ma_max_entries (sc_cpu_rs (cpu_ski c))) (i_last_eip s) (wrap32 a) (wrap32 v)
             (ma_view (sc_cpu_rs (cpu_ski c))) in
  exists s1 s2 tc1 tc2,
    helper_ski_load_access opts phys_page e a v mi nb s = Ret s1 tt /\
    ma_view (read_set e s1) = r.1 /\
    live_threads (i_machine s1) !! i = Some tc1 /\
    (r.2 <= SKI_MAX_LIVENESS_MA_LOOP_THRESHOLD -> tc1 = tc) /\
    (r.2 > SKI_MAX_LIVENESS_MA_LOOP_THRESHOLD -> forall cpus, ~ runnable cpus tc1) /\
    helper_ski_store_access opts phys_page e2 a v2 mi2 nb2 s1 = Ret s2 tt /\
    live_threads (i_machine s2) !! i = Some tc2 /\
    tc_wait_for_rs tc2 = 0 /\ tc_wait_for_rs_on_pause tc2 = 0.
Proof.
  intros r. destruct (load_access_spec opts phys_page e i a v mi nb s c Hnb Hrec Hc Hact Hh Hi Hwf)
    as (rs&s1&Hwf1&Hv1&E1&Hcp&Hno&Hcur&Htr&Hrd&rs'&Hwf2&Hv2&Hth). fold r in Hv1, Hv2, Hth.
  assert (forall {B} (g : CPUState -> B), (forall x, g (set_cpu_ski (set_sc_cpu_rs rs (cpu_ski x)) x) = g x) ->
            forall k, g (the_cpu k s1) = g (the_cpu k s)) as Hsame.
  { intros B g Hg k. unfold the_cpu. rewrite Hcp. cbn. by apply lookup_total_alter_same. }
  set (tc1 := if r.2 >? SKI_MAX_LIVENESS_MA_LOOP_THRESHOLD then asleep false rs' tc else tc).
  assert (live_threads (i_machine s1) =
          alter (fun _ => tc1) i (live_threads (i_machine s))) as Hl1.
  { unfold live_threads in *. rewrite Hno, Hth. unfold tc1. destruct (_ >? _).
    - rewrite take_alter_comm. by eapply alter_ext_at.
    - rewrite (alter_ext_at _ id i _ tc) by done. by rewrite list_alter_id. }
  assert (live_threads (i_machine s1) !! i = Some tc1) as Hi1 by (by rewrite Hl1, list_lookup_alter_eq, Htc).
  destruct (store_access_spec opts phys_page e2 a v2 mi2 nb2 s1) as (s2&E2&Hl2); try done.
  { split; [done|]. split; [done|]. rewrite (Hsame _ cpu_index) by done. apply Hrec2. }
  { unfold active. rewrite (Hsame _ cpu_ski_active) by done. exact Hact2. }
  { rewrite Hno, Hth. destruct (_ >? _); by rewrite ?length_alter. }
  { rewrite Hl1. apply Forall_alter; [done|]. intros x Hx Hrx. rewrite Hx in Htc. injection Htc as ->.
    unfold tc1. destruct (_ >? _); [|done]. intros _. by apply wf_ready. }
  exists s1, s2, tc1, (wake (wrap32 a) tc1). split; [done|]. split.
  { unfold read_set, the_cpu. by rewrite Hcp, list_lookup_total_alt; cbn; rewrite list_lookup_alter_eq, Hc. }
  split; [done|]. split; [unfold tc1; intros; by replace (_ >? _) with false by lia|].
  split; [unfold tc1; intros; replace (_ >? _) with true by lia; apply asleep_not_runnable|].
  split; [done|]. split; [by rewrite Hl2, list_lookup_fmap, Hi1|].
  unfold wake. destruct (woken (wrap32 a) tc1) eqn:Ew; [done|]. revert Ew. unfold tc1.
  destruct (_ >? _); [|done]. intros Ew. exfalso. apply not_true_iff_false in Ew. apply Ew.
  apply asleep_woken; [done|done|]. rewrite Hv2, <- list_fmap_compose.
  change (me_mem_address ∘ count_one) with me_mem_address. apply lru_store_last.
Qed.

(** CPU 0 has read address 64 ten thousand times. *)
Definition sample_spin_rs : ski_ma :=
  mk_ski_ma 1 (<[0%nat := mk_ma_entry 10000 4096 64 1]> (ma_entries ski_ma_zero)) 1 20 [0%nat] [0%nat].

Lemma sample_spin_rs_wf : ma_wf sample_spin_rs.
Proof. split; try done. apply (bool_decide_unpack _). by vm_compute. Qed.

Definition sample_spinning : istate :=
  set_i_machine (set_m_cpus (alter (fun c => set_cpu_ski (set_sc_cpu_rs sample_spin_rs (cpu_ski c)) c) 0%nat
    (m_cpus sample_ins_machine)) sample_ins_machine) sample_ins.

Lemma ski_spin_until_store_witness :
  let tc := live_threads sample_ins_machine !!! 0%nat in
  let rs := sc_cpu_rs (cpu_ski (m_cpus (i_machine sample_spinning) !!! 0%nat)) in
  let r := lru_store (ma_max_entries rs) (i_last_eip sample_spinning) (wrap32 64) (wrap32 1) (ma_view rs) in
  r.2 = 10001 /\
  exists s1 s2 tc1 tc2,
    helper_ski_load_access sample_ins_options (fun _ _ => 4096) 0 64 1 0 32 sample_spinning = Ret s1 tt /\
    ma_view (read_set 0 s1) = r.1 /\
    live_threads (i_machine s1) !! 0%nat = Some tc1 /\
    (r.2 <= SKI_MAX_LIVENESS_MA_LOOP_THRESHOLD -> tc1 = tc) /\
    (r.2 > SKI_MAX_LIVENESS_MA_LOOP_THRESHOLD -> forall cpus, ~ runnable cpus tc1) /\
    helper_ski_store_access sample_ins_options (fun _ _ => 4096) 1 64 2 0 32 s1 = Ret s2 tt /\
    live_threads (i_machine s2) !! 0%nat = Some tc2 /\
    tc_wait_for_rs tc2 = 0 /\ tc_wait_for_rs_on_pause tc2 = 0.
Proof.
  assert (forall e, (e < 2)%nat -> records_ok e sample_spinning) as Hrec.
  { intros e He. split; [exact sample_trace_ok|]. split; [exact init_rd_ok|].
    destruct e as [|[|e]]; [done|done|lia]. }
  split; [by vm_compute|].
  apply (ski_spin_until_store sample_ins_options (fun _ _ => 4096) 0 1 0 64 1 0 32 2 0 32 sample_spinning
    (m_cpus (i_machine sample_spinning) !!! 0%nat) (live_threads sample_ins_machine !!! 0%nat));
    try reflexivity; try done.
  - by right; right.
  - by right; right.
  - apply Hrec. lia.
  - apply Hrec. lia.
  - apply (bool_decide_unpack _). by vm_compute.
  - exact sample_spin_rs_wf.
Defined.

(** ** Pauses *)

Lemma pause_far e i c tc s :
  m_cpus (i_machine s) !! e = Some c -> cpu_ski_active c = true ->
  m_threads_current (i_machine s) = Some i -> m_threads (i_machine s) !! i = Some tc ->
  ma_wf (sc_cpu_rs (cpu_ski c)) ->
  m_counter_total (i_machine s) > wrap32 (tc_last_pause tc + SKI_MAX_LIVENESS_PAUSE_DISTANCE) ->
  exists rs, ma_view rs = [] /\ ma_wf rs /\
    helper_ski_instrument_pause e s =
    Ret (loaded e rs (set_i_machine (set_m_threads
           (alter (set_tc_last_pause (m_counter_total (i_machine s))) i (m_threads (i_machine s)))
           (i_machine s)) s)) tt.
Proof.
  intros Hc Ha Hi Htc Hwf Hfar. unfold helper_ski_instrument_pause. erewrite bind_Ret by done.
  assert (the_cpu e s = c) as Hcpu by (by apply list_lookup_total_correct).
  unfold active. rewrite Hcpu, Ha. cbn [when].
  erewrite bind_Ret by (apply on_machine_Ret; unfold current_thread; by rewrite Hi). cbn beta iota.
  rewrite (list_lookup_total_correct _ _ _ Htc). erewrite bind_Ret by (by apply on_machine_Ret).
  replace (_ >=? _) with false by lia.
  destruct (reset_empty _ Hwf) as (rs&Hrs&Hwf'&Hv&_). exists rs. split; [done|]. split; [done|].
  erewrite bind_Ret by (apply lift_Val; unfold the_cpu; cbn; rewrite (list_lookup_total_correct _ _ _ Hc); exact Hrs).
  done.
Qed.

Lemma pause_near e i c tc s :
  m_cpus (i_machine s) !! e = Some c -> cpu_ski_active c = true ->
  m_threads_current (i_machine s) = Some i -> m_threads (i_machine s) !! i = Some tc ->
  ma_wf (sc_cpu_rs (cpu_ski c)) -> trace_ok (m_trace (i_machine s)) -> heuristics_ok (i_machine s) ->
  m_counter_total (i_machine s) <= wrap32 (tc_last_pause tc + SKI_MAX_LIVENESS_PAUSE_DISTANCE) ->
  exists rs s', ma_view rs = count_one <$> ma_view (sc_cpu_rs (cpu_ski c)) /\ ma_wf rs /\
    helper_ski_instrument_pause e s = Ret s' tt /\ m_cpus (i_machine s') = m_cpus (i_machine s) /\
    m_threads (i_machine s') = alter (asleep true rs) i (m_threads (i_machine s)).
Proof.
  intros Hc Ha Hi Htc Hwf Htr Hh Hnear. unfold helper_ski_instrument_pause. erewrite bind_Ret by done.
  assert (the_cpu e s = c) as Hcpu by (by apply list_lookup_total_correct).
  unfold active. rewrite Hcpu, Ha. cbn [when].
  erewrite bind_Ret by (apply on_machine_Ret; unfold current_thread; by rewrite Hi). cbn beta iota.
  rewrite (list_lookup_total_correct _ _ _ Htc). erewrite bind_Ret by (by apply on_machine_Ret).
  replace (_ >=? _) with true by lia.
  edestruct on_trace_flush as (t1&E1&Ht1); [|erewrite bind_Ret by (apply on_machine_Ret; exact E1)]; [exact Htr|].
  destruct (copy_view _ Hwf) as (rs&Ecp&Hwf2&Hv2).
  match goal with |- context [on_machine (ski_threads_self_wait_rs e true) ?s1] =>
    destruct (self_wait_rs_spec (i_machine s1) e i true rs) as (t2&l&Ht2&E2); [exact Ht1|exact Hh|exact Hi| |] end.
  { cbn. rewrite (list_lookup_total_correct _ _ _ Hc). exact Ecp. }
  eexists rs, _. split; [done|]. split; [done|]. split; [by apply on_machine_Ret|]. split; [done|].
  cbn. by rewrite alter_alter.
Qed.

(** Two [pause] instructions close together mean busy waiting.  When the last
    [pause] of the running thread is at most [SKI_MAX_LIVENESS_PAUSE_DISTANCE]
    instructions back, the thread sleeps until one of the addresses its CPU read
    since then is written (and its next [pause] is a first one again); otherwise
    the thread only notes the time and its CPU starts a new read set. *)
Theorem ski_pause_exact (e i : nat) (c : CPUState) (tc : thread_context) (s : istate)
    (Hc : m_cpus (i_machine s) !! e = Some c) (Ha : cpu_ski_active c = true)
    (Hi : m_threads_current (i_machine s) = Some i) (Htc : m_threads (i_machine s) !! i = Some tc)
    (Hwf : ma_wf (sc_cpu_rs (cpu_ski c))) (Htr : trace_ok (m_trace (i_machine s)))
    (Hh : heuristics_ok (i_machine s)) (Hlp : in_int (tc_last_pause tc + SKI_MAX_LIVENESS_PAUSE_DISTANCE)) :
  exists s' tc', helper_ski_instrument_pause e s = Ret s' tt /\ m_threads (i_machine s') !! i = Some tc' /\
    (m_counter_total (i_machine s) - tc_last_pause tc <= SKI_MAX_LIVENESS_PAUSE_DISTANCE ->
       (forall cpus, ~ runnable cpus tc') /\ tc_last_pause tc' = - SKI_MAX_LIVENESS_PAUSE_DISTANCE /\
       (forall a, ski_liveness_is_present (tc_wait_rs tc') a = ski_liveness_is_present (sc_cpu_rs (cpu_ski c)) a) /\
       m_cpus (i_machine s') = m_cpus (i_machine s)) /\
    (m_counter_total (i_machine s) - tc_last_pause tc > SKI_MAX_LIVENESS_PAUSE_DISTANCE ->
       tc' = set_tc_last_pause (m_counter_total (i_machine s)) tc /\ ma_view (read_set e s') = []).
Proof.
  destruct (Z_le_gt_dec (m_counter_total (i_machine s) - tc_last_pause tc) SKI_MAX_LIVENESS_PAUSE_DISTANCE) as [Hn|Hf].
  - destruct (pause_near e i c tc s) as (rs&s'&Hv&Hwf'&E&Hcp&Hth); try done; [rewrite wrap32_id by done; lia|].
    exists s', (asleep true rs tc). split; [done|]. rewrite Hth, list_lookup_alter_eq, Htc. split; [done|].
    split; [|lia]. intros _. split; [intros; apply asleep_not_runnable|]. split; [done|]. split; [|done].
    intros a. cbn. pose proof (is_present_view rs a Hwf') as H1. pose proof (is_present_view _ a Hwf) as H2.
    rewrite Hv, <- list_fmap_compose in H1. change (me_mem_address ∘ count_one) with me_mem_address in H1.
    unfold ski_liveness_is_present in *. destruct (HASH_FIND_INT _ _ a), (HASH_FIND_INT (ma_entries (sc_cpu_rs _)) _ a);
      intuition congruence.
  - destruct (pause_far e i c tc s) as (rs&Hv&Hwf'&E); try done; [rewrite wrap32_id by done; lia|].
    eexists _, _. split; [exact E|]. cbn. rewrite list_lookup_alter_eq, Htc. split; [done|]. split; [lia|].
    intros _. split; [done|]. unfold read_set, the_cpu. cbn.
    by rewrite list_lookup_total_alt, list_lookup_alter_eq, Hc.
Qed.

Lemma ski_pause_exact_witness :
  let c := m_cpus sample_ins_machine !!! 0%nat in
  let tc := m_threads sample_ins_machine !!! 0%nat in
  exists s' tc', helper_ski_instrument_pause 0 sample_ins = Ret s' tt /\ m_threads (i_machine s') !! 0%nat = Some tc' /\
    (m_counter_total sample_ins_machine - tc_last_pause tc <= SKI_MAX_LIVENESS_PAUSE_DISTANCE ->
       (forall cpus, ~ runnable cpus tc') /\ tc_last_pause tc' = - SKI_MAX_LIVENESS_PAUSE_DISTANCE /\
       (forall a, ski_liveness_is_present (tc_wait_rs tc') a = ski_liveness_is_present (sc_cpu_rs (cpu_ski c)) a) /\
       m_cpus (i_machine s') = m_cpus sample_ins_machine) /\
    (m_counter_total sample_ins_machine - tc_last_pause tc > SKI_MAX_LIVENESS_PAUSE_DISTANCE ->
       tc' = set_tc_last_pause (m_counter_total sample_ins_machine) tc /\ ma_view (read_set 0 s') = []).
Proof.
  intros c tc. apply (ski_pause_exact 0 0 c tc sample_ins); try reflexivity; try done.
  - exact sample_rs_wf.
  - exact sample_trace_ok.
Defined.
