(* ===== verification/Timers.v ===== *)
(** * Timers.v -- virtual time and QEMU's timers

    Models [vmm/qemu-timer.c] (the list of active timers of a clock, sorted by
    expiry, and the loop that runs the expired ones) and the offsets of
    [vmm/cpus.c] that make the virtual clock stop and continue with the machine.

    A timer is an identifier with its expiry in nanoseconds.  What the host's
    clocks return is an argument.  Counting instructions ([use_icount]) is off,
    and the host's alarm, which only wakes the main loop, is not modelled. *)

From Stdlib Require Import Sorting.Sorted.
From S2P Require Import Prelude.

(** ** The virtual clock *)

Record TimersState := mk_timers_state {
  ts_cpu_ticks_prev : Z;
  ts_cpu_ticks_offset : Z;
  ts_cpu_clock_offset : Z;
  ts_cpu_ticks_enabled : bool
}.

(** [ticks] is the host's cycle counter and [now] its monotonic clock. *)
Definition cpu_get_ticks (ticks : Z) (s : TimersState) : Z * TimersState :=
  if negb (ts_cpu_ticks_enabled s) then (ts_cpu_ticks_offset s, s)
  else
    let off := if ts_cpu_ticks_prev s >? ticks then wrap64 (ts_cpu_ticks_offset s + wrap64 (ts_cpu_ticks_prev s - ticks))
               else ts_cpu_ticks_offset s in
    (wrap64 (ticks + off), mk_timers_state ticks off (ts_cpu_clock_offset s) (ts_cpu_ticks_enabled s)).

Definition cpu_get_clock (now : Z) (s : TimersState) : Z :=
  if negb (ts_cpu_ticks_enabled s) then ts_cpu_clock_offset s else wrap64 (now + ts_cpu_clock_offset s).

Definition cpu_enable_ticks (ticks now : Z) (s : TimersState) : TimersState :=
  if negb (ts_cpu_ticks_enabled s) then
    mk_timers_state (ts_cpu_ticks_prev s) (wrap64 (ts_cpu_ticks_offset s - ticks)) (wrap64 (ts_cpu_clock_offset s - now)) true
  else s.

Definition cpu_disable_ticks (ticks now : Z) (s : TimersState) : TimersState :=
  if ts_cpu_ticks_enabled s then
    let '(t, s) := cpu_get_ticks ticks s in
    mk_timers_state (ts_cpu_ticks_prev s) t (cpu_get_clock now s) false
  else s.

(** ** Active timers *)

Section timers.
Context {I : Type} `{EqDecision I}.
Implicit Types l : list (I * Z).

Definition qemu_timer_expired_ns (timer_head : option (I * Z)) (current_time : Z) : bool :=
  match timer_head with Some t => t.2 <=? current_time | None => false end.

Fixpoint qemu_del_timer (ts : I) l : list (I * Z) :=
  match l with
  | [] => []
  | t :: l' => if decide (t.1 = ts) then l' else t :: qemu_del_timer ts l'
  end.

(** The search for the place of a timer that expires at [expire_time]. *)
Fixpoint timer_insert (ts : I) (expire_time : Z) l : list (I * Z) :=
  match l with
  | t :: l' =>
      if qemu_timer_expired_ns (Some t) expire_time then t :: timer_insert ts expire_time l'
      else (ts, expire_time) :: t :: l'
  | [] => [(ts, expire_time)]
  end.
Definition qemu_mod_timer_ns (ts : I) (expire_time : Z) l : list (I * Z) :=
  timer_insert ts expire_time (qemu_del_timer ts l).

Fixpoint timer_time (ts : I) l : option Z :=
  match l with
  | [] => None
  | t :: l' => if decide (t.1 = ts) then Some t.2 else timer_time ts l'
  end.
Definition qemu_timer_pending (ts : I) l : bool := bool_decide (is_Some (timer_time ts l)).
Definition qemu_timer_expire_time_ns (ts : I) l : Z :=
  match timer_time ts l with Some t => u64 t | None => u64 (-1) end.

Definition qemu_clock_has_timers l : bool := match l with [] => false | _ => true end.
Definition qemu_clock_expired (now : Z) l : bool :=
  match l with t :: _ => t.2 <? now | [] => false end.
Definition qemu_clock_deadline (now : Z) l : Z :=
  let delta := match l with t :: _ => wrap64 (t.2 - now) | [] => 2 ^ 31 - 1 end in
  if delta <? 0 then 0 else delta.

(** ** Running the expired timers *)

(** [timers_of] is the list of the clock in the emulator's state and [cb] the
    callback of a timer; [now] is read once, before the loop. *)
Context {X : Type} (timers_of : X -> list (I * Z)) (set_timers : list (I * Z) -> X -> X) (cb : I -> M X unit).

Fixpoint qemu_run_timers (fuel : nat) (current_time : Z) : M X unit :=
  match fuel with
  | O => stop HUndef
  | S fuel' =>
      s <- get ;;
      match timers_of s with
      | (ts, t) :: rest =>
          if t <=? current_time then
            put (set_timers rest s) ;;; cb ts ;;; qemu_run_timers fuel' current_time
          else ret tt
      | [] => ret tt
      end
  end.
End timers.

(** ** The clock continues where it stopped *)

(** However long the machine is stopped, the virtual clock shows the same time
    when it is started again, and then runs with the host's clock. *)
Lemma clock_stop_start ticks now ticks' now' later s :
  ts_cpu_ticks_enabled s = true -> in_int64 (now + ts_cpu_clock_offset s) ->
  let stopped := cpu_disable_ticks ticks now s in
  let started := cpu_enable_ticks ticks' now' stopped in
  cpu_get_clock now' stopped = cpu_get_clock now s /\
  (in_int64 (later - now' + cpu_get_clock now s) ->
   cpu_get_clock later started = later - now' + cpu_get_clock now s).
Proof.
  intros Hen Hr. unfold cpu_disable_ticks. rewrite Hen. unfold cpu_get_ticks. rewrite Hen.
  cbn [negb]. unfold cpu_enable_ticks, cpu_get_clock. cbn [ts_cpu_ticks_enabled ts_cpu_clock_offset negb].
  rewrite Hen. cbn [negb]. rewrite (wrap64_id _ Hr). split; [done|]. intros Hl.
  unfold wrap64 at 1 2. unfold in_int64 in Hl.
  replace (later + _ + 2 ^ 63) with ((now + ts_cpu_clock_offset s - now' + 2 ^ 63) mod 2 ^ 64 + later) by lia.
  rewrite Z.add_mod_idemp_l by lia. rewrite Z.mod_small by lia. lia.
Qed.

(** ** The list of timers is sorted *)

Section list.
Context {I : Type} `{EqDecision I}.
Implicit Types l : list (I * Z).

Definition sooner (t t' : I * Z) : Prop := t.2 <= t'.2.
Definition timers_ok l : Prop := StronglySorted sooner l /\ NoDup l.*1.

Lemma del_sublist ts l : sublist (qemu_del_timer ts l) l.
Proof. induction l as [|t l IH]; cbn; [done|]. destruct (decide _); by constructor. Qed.

Lemma del_sublist_ids ts l : sublist (qemu_del_timer ts l).*1 l.*1.
Proof. induction l as [|t l IH]; cbn; [done|]. destruct (decide _); by constructor. Qed.

Lemma del_Forall (P : I * Z -> Prop) ts l : Forall P l -> Forall P (qemu_del_timer ts l).
Proof. rewrite !Forall_forall. intros H t Ht. by apply H, (elem_of_sublist _ _ _ Ht), del_sublist. Qed.

Lemma del_ok ts l : timers_ok l -> timers_ok (qemu_del_timer ts l).
Proof.
  intros [Hs Hn]. split; [|eapply sublist_NoDup; [done|apply del_sublist_ids]].
  clear Hn. induction Hs as [|t l Hs IH Hf]; cbn; [constructor|]. destruct (decide _); [done|].
  constructor; [done|]. by apply del_Forall.
Qed.

Lemma del_notin ts l : NoDup l.*1 -> ts ∉ (qemu_del_timer ts l).*1.
Proof.
  induction l as [|t l IH]; cbn; [set_solver|]. intros [Ht Hn]%NoDup_cons. destruct (decide _) as [<-|Hne]; [done|].
  cbn. apply not_elem_of_cons. auto.
Qed.

Lemma insert_perm ts e l : timer_insert ts e l ≡ₚ (ts, e) :: l.
Proof.
  induction l as [|t l IH]; [done|]. cbn [timer_insert qemu_timer_expired_ns]. destruct (_ <=? _); [|done].
  rewrite IH. apply Permutation_swap.
Qed.

Lemma insert_sorted ts e l : StronglySorted sooner l -> StronglySorted sooner (timer_insert ts e l).
Proof.
  induction 1 as [|t l Hs IH Hf]; cbn [timer_insert qemu_timer_expired_ns]; [by repeat constructor|].
  destruct (Z.leb_spec t.2 e) as [Hle|Hlt].
  - constructor; [done|]. rewrite insert_perm. by constructor.
  - constructor; [by constructor|]. constructor; [unfold sooner; cbn; lia|].
    eapply Forall_impl; [exact Hf|]. unfold sooner. cbn. lia.
Qed.

Lemma mod_ok ts e l : timers_ok l -> timers_ok (qemu_mod_timer_ns ts e l).
Proof.
  intros Hl. destruct (del_ok ts l Hl) as [Hs Hn]. split; [by apply insert_sorted|].
  unfold qemu_mod_timer_ns. rewrite insert_perm. cbn. constructor; [|done]. apply del_notin, Hl.
Qed.

Lemma timer_time_elem ts t l : NoDup l.*1 -> timer_time ts l = Some t <-> (ts, t) ∈ l.
Proof.
  induction l as [|[ts' t'] l IH]; cbn; [set_solver|]. intros [Hnin Hn]%NoDup_cons. rewrite elem_of_cons.
  destruct (decide _) as [->|Hne]; cbn in *.
  - split; [intros [= ->]; by left|]. intros [[= ->]|Hin]; [done|]. destruct Hnin. by apply (list_elem_of_fmap_2 fst _ (ts, t)).
  - rewrite (IH Hn). split; [by right|]. intros [[= -> _]|]; done.
Qed.

Lemma elem_of_del ts ts' t l : NoDup l.*1 -> (ts', t) ∈ qemu_del_timer ts l <-> ts' <> ts /\ (ts', t) ∈ l.
Proof.
  induction l as [|[i ti] l IH]; cbn; [set_solver|]. intros [Hnin Hn]%NoDup_cons. cbn in Hnin.
  destruct (decide _) as [->|Hne]; cbn in *.
  - rewrite elem_of_cons. split; [|naive_solver]. intros Hin. split; [|by right].
    intros ->. destruct Hnin. by apply (list_elem_of_fmap_2 fst _ (ts, t)).
  - rewrite !elem_of_cons, (IH Hn). naive_solver.
Qed.

(** The list implements a map from timers to expiries. *)
Lemma timer_time_mod ts e ts' l :
  timers_ok l -> timer_time ts' (qemu_mod_timer_ns ts e l) = if decide (ts' = ts) then Some e else timer_time ts' l.
Proof.
  intros Hl. pose proof (mod_ok ts e l Hl) as [_ Hn]. pose proof Hl as [_ Hn0]. apply option_eq. intros t.
  rewrite (timer_time_elem _ _ _ Hn). unfold qemu_mod_timer_ns. rewrite insert_perm, elem_of_cons, (elem_of_del _ _ _ _ Hn0).
  destruct (decide _) as [->|Hne]; [naive_solver|]. rewrite (timer_time_elem _ _ _ Hn0). naive_solver.
Qed.

Lemma timer_time_del ts ts' l :
  timers_ok l -> timer_time ts' (qemu_del_timer ts l) = if decide (ts' = ts) then None else timer_time ts' l.
Proof.
  intros Hl. pose proof (del_ok ts l Hl) as [_ Hn]. pose proof Hl as [_ Hn0]. apply option_eq. intros t.
  rewrite (timer_time_elem _ _ _ Hn), (elem_of_del _ _ _ _ Hn0).
  destruct (decide _) as [->|Hne]; [naive_solver|]. rewrite (timer_time_elem _ _ _ Hn0). naive_solver.
Qed.

(** ** The loop over the expired timers ends *)

Context {X : Type} (timers_of : X -> list (I * Z)) (set_timers : list (I * Z) -> X -> X) (cb : I -> M X unit).
Context (Inv : X -> Prop) (now : Z).

(** A callback returns; if it arms a timer again, its own and for a later time. *)
Record callbacks_ok : Prop := {
  cb_sorted : forall s, Inv s -> timers_ok (timers_of s);
  cb_returns : forall s ts t rest, Inv s -> timers_of s = (ts, t) :: rest -> t <= now ->
    exists s', cb ts (set_timers rest s) = Ret s' tt /\ Inv s' /\
      (timers_of s' = rest \/ exists t', t < t' /\ timers_of s' = qemu_mod_timer_ns ts t' rest)
}.

(** How far the expired timers of a list are behind. *)
Definition behind l : nat := sum_list ((fun t => Z.to_nat (now + 1 - t.2)) <$> l).

Lemma behind_cons t l : behind (t :: l) = (Z.to_nat (now + 1 - t.2) + behind l)%nat.
Proof. done. Qed.
#[export] Instance behind_perm : Proper ((≡ₚ) ==> (=)) behind.
Proof. intros l l' Hp. unfold behind. by rewrite Hp. Qed.

(** The timers [tr] have fired one after another. *)
Inductive fired : X -> list (I * Z) -> X -> Prop :=
  | fired_nil s : fired s [] s
  | fired_cons s ts t rest s1 tr s' :
      timers_of s = (ts, t) :: rest -> t <= now -> cb ts (set_timers rest s) = Ret s1 tt ->
      fired s1 tr s' -> fired s ((ts, t) :: tr) s'.

Lemma del_absent ts l : ts ∉ l.*1 -> qemu_del_timer ts l = l.
Proof.
  induction l as [|t l IH]; cbn; [done|]. intros [Hne Hn]%not_elem_of_cons. rewrite decide_False by done. by rewrite IH.
Qed.

Lemma run_timers_drains s :
  callbacks_ok -> Inv s ->
  exists s' tr,
    (forall fuel, (behind (timers_of s) < fuel)%nat -> qemu_run_timers timers_of set_timers cb fuel now s = Ret s' tt) /\
    fired s tr s' /\ Inv s' /\ StronglySorted sooner tr /\ Forall (fun t => now < t.2) (timers_of s') /\
    (forall t, Forall (fun t' => t <= t'.2) (timers_of s) -> Forall (fun t' => t <= t'.2) tr).
Proof.
  intros Hcb. remember (behind (timers_of s)) as n eqn:Hn. revert s Hn. induction n as [n IH] using lt_wf_ind.
  intros s -> Hs. pose proof (cb_sorted Hcb s Hs) as [Hsort Hnd].
  destruct (timers_of s) as [|[ts t] rest] eqn:E.
  { exists s, []. split_and!; [|constructor|done|constructor|by rewrite E|by constructor].
    intros [|f] Hf; [cbn in Hf; lia|]. cbn. unfold bind, get. by rewrite E. }
  apply StronglySorted_inv in Hsort as [Hsort Hhead]. destruct (decide (t <= now)) as [Hle|Hgt].
  2:{ exists s, []. split_and!; [|constructor|done|constructor| |by constructor].
      - intros [|f] Hf; [lia|]. cbn. unfold bind, get. rewrite E. zbool. done.
      - rewrite E. constructor; [cbn; lia|]. eapply Forall_impl; [exact Hhead|]. unfold sooner. cbn. lia. }
  destruct (cb_returns Hcb s ts t rest Hs E Hle) as (s1 & Hrun & Hs1 & Hnext).
  assert (behind (timers_of s1) < behind ((ts, t) :: rest))%nat as Hlt.
  { cbn in Hnd. apply NoDup_cons in Hnd as [Hnin _]. rewrite behind_cons. cbn [snd]. destruct Hnext as [->|(t'&Ht'&->)]; [lia|].
    unfold qemu_mod_timer_ns. rewrite insert_perm, (del_absent _ _ Hnin), behind_cons. cbn [snd]. lia. }
  assert (Forall (fun t' => t <= t'.2) (timers_of s1)) as Hlow.
  { destruct Hnext as [->|(t'&Ht'&->)]; [exact Hhead|]. unfold qemu_mod_timer_ns. rewrite insert_perm.
    constructor; [cbn; lia|]. by apply del_Forall. }
  destruct (IH _ Hlt s1 eq_refl Hs1) as (s' & tr & Hf & Hfd & HI & Hst & Hdone & Hge).
  exists s', ((ts, t) :: tr). split_and!; [|by econstructor|done|by constructor; [|apply (Hge t)]|done|].
  - intros [|f] Hfu; [lia|]. cbn. unfold bind, get, put. rewrite E. zbool. rewrite Hrun. apply Hf. lia.
  - intros t0 Ht0. constructor; [by inversion Ht0|]. inversion Ht0 as [|? ? Hh]; subst. cbn in Hh.
    eapply Forall_impl; [exact (Hge t Hlow)|]. cbn. lia.
Qed.
End list.
