(* ===== verification/Pic.v ===== *)
(** * Pic.v -- the choice of a line by the 8259 interrupt controllers

    Models the registers of [hw/i8259.c] and what they decide: which of the eight
    lines of a controller is to interrupt, how a line changes the request
    register, and what an acknowledgement does.  The registers are bytes.  How the
    two controllers, the IO-APIC and the processors are wired together is in
    [Chips.v]. *)

From S2P Require Import Prelude.

(** ** State *)

Record PicState := mk_pic {
  p_last_irr : Z;
  p_irr : Z;
  p_imr : Z;
  p_isr : Z;
  p_priority_add : Z;
  p_irq_base : Z;
  p_read_reg_select : Z;
  p_poll : Z;
  p_special_mask : Z;
  p_init_state : Z;
  p_auto_eoi : Z;
  p_rotate_on_auto_eoi : Z;
  p_special_fully_nested_mode : Z;
  p_init4 : Z;
  p_single_mode : Z;
  p_elcr : Z;
  p_elcr_mask : Z;
  p_master : bool
}.
Definition set_p_last_irr (v : Z) (s : PicState) : PicState :=
  mk_pic v (p_irr s) (p_imr s) (p_isr s) (p_priority_add s) (p_irq_base s) (p_read_reg_select s) (p_poll s)
    (p_special_mask s) (p_init_state s) (p_auto_eoi s) (p_rotate_on_auto_eoi s) (p_special_fully_nested_mode s)
    (p_init4 s) (p_single_mode s) (p_elcr s) (p_elcr_mask s) (p_master s).
Definition set_p_irr (v : Z) (s : PicState) : PicState :=
  mk_pic (p_last_irr s) v (p_imr s) (p_isr s) (p_priority_add s) (p_irq_base s) (p_read_reg_select s) (p_poll s)
    (p_special_mask s) (p_init_state s) (p_auto_eoi s) (p_rotate_on_auto_eoi s) (p_special_fully_nested_mode s)
    (p_init4 s) (p_single_mode s) (p_elcr s) (p_elcr_mask s) (p_master s).
Definition set_p_imr (v : Z) (s : PicState) : PicState :=
  mk_pic (p_last_irr s) (p_irr s) v (p_isr s) (p_priority_add s) (p_irq_base s) (p_read_reg_select s) (p_poll s)
    (p_special_mask s) (p_init_state s) (p_auto_eoi s) (p_rotate_on_auto_eoi s) (p_special_fully_nested_mode s)
    (p_init4 s) (p_single_mode s) (p_elcr s) (p_elcr_mask s) (p_master s).
Definition set_p_isr (v : Z) (s : PicState) : PicState :=
  mk_pic (p_last_irr s) (p_irr s) (p_imr s) v (p_priority_add s) (p_irq_base s) (p_read_reg_select s) (p_poll s)
    (p_special_mask s) (p_init_state s) (p_auto_eoi s) (p_rotate_on_auto_eoi s) (p_special_fully_nested_mode s)
    (p_init4 s) (p_single_mode s) (p_elcr s) (p_elcr_mask s) (p_master s).
Definition set_p_priority_add (v : Z) (s : PicState) : PicState :=
  mk_pic (p_last_irr s) (p_irr s) (p_imr s) (p_isr s) v (p_irq_base s) (p_read_reg_select s) (p_poll s)
    (p_special_mask s) (p_init_state s) (p_auto_eoi s) (p_rotate_on_auto_eoi s) (p_special_fully_nested_mode s)
    (p_init4 s) (p_single_mode s) (p_elcr s) (p_elcr_mask s) (p_master s).
Definition set_p_irq_base (v : Z) (s : PicState) : PicState :=
  mk_pic (p_last_irr s) (p_irr s) (p_imr s) (p_isr s) (p_priority_add s) v (p_read_reg_select s) (p_poll s)
    (p_special_mask s) (p_init_state s) (p_auto_eoi s) (p_rotate_on_auto_eoi s) (p_special_fully_nested_mode s)
    (p_init4 s) (p_single_mode s) (p_elcr s) (p_elcr_mask s) (p_master s).
Definition set_p_read_reg_select (v : Z) (s : PicState) : PicState :=
  mk_pic (p_last_irr s) (p_irr s) (p_imr s) (p_isr s) (p_priority_add s) (p_irq_base s) v (p_poll s)
    (p_special_mask s) (p_init_state s) (p_auto_eoi s) (p_rotate_on_auto_eoi s) (p_special_fully_nested_mode s)
    (p_init4 s) (p_single_mode s) (p_elcr s) (p_elcr_mask s) (p_master s).
Definition set_p_poll (v : Z) (s : PicState) : PicState :=
  mk_pic (p_last_irr s) (p_irr s) (p_imr s) (p_isr s) (p_priority_add s) (p_irq_base s) (p_read_reg_select s) v
    (p_special_mask s) (p_init_state s) (p_auto_eoi s) (p_rotate_on_auto_eoi s) (p_special_fully_nested_mode s)
    (p_init4 s) (p_single_mode s) (p_elcr s) (p_elcr_mask s) (p_master s).
Definition set_p_special_mask (v : Z) (s : PicState) : PicState :=
  mk_pic (p_last_irr s) (p_irr s) (p_imr s) (p_isr s) (p_priority_add s) (p_irq_base s) (p_read_reg_select s)
    (p_poll s) v (p_init_state s) (p_auto_eoi s) (p_rotate_on_auto_eoi s) (p_special_fully_nested_mode s)
    (p_init4 s) (p_single_mode s) (p_elcr s) (p_elcr_mask s) (p_master s).
Definition set_p_init_state (v : Z) (s : PicState) : PicState :=
  mk_pic (p_last_irr s) (p_irr s) (p_imr s) (p_isr s) (p_priority_add s) (p_irq_base s) (p_read_reg_select s)
    (p_poll s) (p_special_mask s) v (p_auto_eoi s) (p_rotate_on_auto_eoi s) (p_special_fully_nested_mode s)
    (p_init4 s) (p_single_mode s) (p_elcr s) (p_elcr_mask s) (p_master s).
Definition set_p_auto_eoi (v : Z) (s : PicState) : PicState :=
  mk_pic (p_last_irr s) (p_irr s) (p_imr s) (p_isr s) (p_priority_add s) (p_irq_base s) (p_read_reg_select s)
    (p_poll s) (p_special_mask s) (p_init_state s) v (p_rotate_on_auto_eoi s) (p_special_fully_nested_mode s)
    (p_init4 s) (p_single_mode s) (p_elcr s) (p_elcr_mask s) (p_master s).
Definition set_p_rotate_on_auto_eoi (v : Z) (s : PicState) : PicState :=
  mk_pic (p_last_irr s) (p_irr s) (p_imr s) (p_isr s) (p_priority_add s) (p_irq_base s) (p_read_reg_select s)
    (p_poll s) (p_special_mask s) (p_init_state s) (p_auto_eoi s) v (p_special_fully_nested_mode s) (p_init4 s)
    (p_single_mode s) (p_elcr s) (p_elcr_mask s) (p_master s).
Definition set_p_special_fully_nested_mode (v : Z) (s : PicState) : PicState :=
  mk_pic (p_last_irr s) (p_irr s) (p_imr s) (p_isr s) (p_priority_add s) (p_irq_base s) (p_read_reg_select s)
    (p_poll s) (p_special_mask s) (p_init_state s) (p_auto_eoi s) (p_rotate_on_auto_eoi s) v (p_init4 s)
    (p_single_mode s) (p_elcr s) (p_elcr_mask s) (p_master s).
Definition set_p_init4 (v : Z) (s : PicState) : PicState :=
  mk_pic (p_last_irr s) (p_irr s) (p_imr s) (p_isr s) (p_priority_add s) (p_irq_base s) (p_read_reg_select s)
    (p_poll s) (p_special_mask s) (p_init_state s) (p_auto_eoi s) (p_rotate_on_auto_eoi s)
    (p_special_fully_nested_mode s) v (p_single_mode s) (p_elcr s) (p_elcr_mask s) (p_master s).
Definition set_p_single_mode (v : Z) (s : PicState) : PicState :=
  mk_pic (p_last_irr s) (p_irr s) (p_imr s) (p_isr s) (p_priority_add s) (p_irq_base s) (p_read_reg_select s)
    (p_poll s) (p_special_mask s) (p_init_state s) (p_auto_eoi s) (p_rotate_on_auto_eoi s)
    (p_special_fully_nested_mode s) (p_init4 s) v (p_elcr s) (p_elcr_mask s) (p_master s).
Definition set_p_elcr (v : Z) (s : PicState) : PicState :=
  mk_pic (p_last_irr s) (p_irr s) (p_imr s) (p_isr s) (p_priority_add s) (p_irq_base s) (p_read_reg_select s)
    (p_poll s) (p_special_mask s) (p_init_state s) (p_auto_eoi s) (p_rotate_on_auto_eoi s)
    (p_special_fully_nested_mode s) (p_init4 s) (p_single_mode s) v (p_elcr_mask s) (p_master s).

Definition bit (i : Z) : Z := Z.shiftl 1 i.

(** ** The choice of a line *)

(** The [while] loop, from [priority] on: a mask that is a byte other than 0 has a
    line among the eight. *)
Fixpoint priority_loop (fuel : nat) (add mask priority : Z) : Z :=
  match fuel with
  | O => priority
  | S fuel' =>
      if Z.land mask (bit (Z.land (priority + add) 7)) =? 0 then priority_loop fuel' add mask (priority + 1)
      else priority
  end.
Definition get_priority (s : PicState) (mask : Z) : Z :=
  if mask =? 0 then 8 else priority_loop 8 (p_priority_add s) mask 0.

Definition pic_get_irq (s : PicState) : Z :=
  let mask := Z.land (p_irr s) (Z.lnot (p_imr s)) in
  let priority := get_priority s mask in
  if priority =? 8 then -1
  else
    let mask := p_isr s in
    let mask := if c_true (p_special_mask s) then Z.land mask (Z.lnot (p_imr s)) else mask in
    let mask := if c_true (p_special_fully_nested_mode s) && p_master s then Z.land mask (Z.lnot (bit 2)) else mask in
    let cur_priority := get_priority s mask in
    if priority <? cur_priority then Z.land (priority + p_priority_add s) 7 else -1.

Definition pic_get_output (s : PicState) : bool := pic_get_irq s >=? 0.

(** ** Lines and acknowledgements *)

(** The registers after line [irq] has changed to [level], before the output is
    updated. *)
Definition line_set (irq : Z) (level : bool) (s : PicState) : PicState :=
  let mask := bit irq in
  if negb (Z.land (p_elcr s) mask =? 0) then
    if level then set_p_last_irr (Z.lor (p_last_irr s) mask) (set_p_irr (Z.lor (p_irr s) mask) s)
    else set_p_last_irr (Z.land (p_last_irr s) (Z.lnot mask)) (set_p_irr (Z.land (p_irr s) (Z.lnot mask)) s)
  else if level then
    let s' := if Z.land (p_last_irr s) mask =? 0 then set_p_irr (Z.lor (p_irr s) mask) s else s in
    set_p_last_irr (Z.lor (p_last_irr s') mask) s'
  else set_p_last_irr (Z.land (p_last_irr s) (Z.lnot mask)) s.

(** The registers after an acknowledgement. *)
Definition acknowledged (irq : Z) (s : PicState) : PicState :=
  let s := if c_true (p_auto_eoi s) then
             if c_true (p_rotate_on_auto_eoi s) then set_p_priority_add (Z.land (irq + 1) 7) s else s
           else set_p_isr (Z.lor (p_isr s) (bit irq)) s in
  if Z.land (p_elcr s) (bit irq) =? 0 then set_p_irr (Z.land (p_irr s) (Z.lnot (bit irq))) s else s.

(** [pic_init_reset] without the update of the output; the ELCR stays. *)
Definition registers_reset (s : PicState) : PicState :=
  mk_pic 0 0 0 0 0 0 0 0 0 0 0 0 0 0 0 (p_elcr s) (p_elcr_mask s) (p_master s).

(** ** Specification of the choice *)

(** The place of a line in the current order of priorities: 0 is the highest. *)
Definition rank (s : PicState) (i : Z) : Z := (i - p_priority_add s) mod 8.

Definition requested (s : PicState) (i : Z) : Prop := Z.testbit (p_irr s) i = true /\ Z.testbit (p_imr s) i = false.

(** A line in service holds back the lines below it, except the masked ones in
    the special mask mode, and on the master the slave's line in the special
    fully nested mode. *)
Definition holds (s : PicState) (i : Z) : Prop :=
  Z.testbit (p_isr s) i = true /\ (c_true (p_special_mask s) = true -> Z.testbit (p_imr s) i = false) /\
  (c_true (p_special_fully_nested_mode s) && p_master s = true -> i <> 2).

Definition wanted (s : PicState) (i : Z) : Prop :=
  0 <= i < 8 /\ requested s i /\ (forall j, 0 <= j < 8 -> requested s j -> rank s i <= rank s j) /\
  (forall j, 0 <= j < 8 -> holds s j -> rank s i < rank s j).

Definition byte (z : Z) : Prop := 0 <= z < 256.

Definition line_at (add priority : Z) : Z := Z.land (priority + add) 7.

Lemma line_at_mod add p : line_at add p = (p + add) mod 8.
Proof. unfold line_at. change 7 with (Z.ones 3). by rewrite Z.land_ones by lia. Qed.

Lemma line_at_range add p : 0 <= line_at add p < 8.
Proof. rewrite line_at_mod. apply Z.mod_pos_bound. lia. Qed.

Lemma line_at_rank s i : 0 <= i < 8 -> line_at (p_priority_add s) (rank s i) = i.
Proof.
  intros Hi. rewrite line_at_mod. unfold rank. rewrite Z.add_mod_idemp_l by lia.
  replace (_ - _ + _) with i by lia. by apply Z.mod_small.
Qed.

Lemma rank_line_at s p : 0 <= p < 8 -> rank s (line_at (p_priority_add s) p) = p.
Proof.
  intros Hp. rewrite line_at_mod. unfold rank. rewrite Zminus_mod_idemp_l.
  replace (_ + _ - _) with p by lia. by apply Z.mod_small.
Qed.

Lemma rank_range s i : 0 <= rank s i < 8.
Proof. apply Z.mod_pos_bound. lia. Qed.

Lemma land_bit_clear mask i : 0 <= i -> (Z.land mask (bit i) =? 0) = negb (Z.testbit mask i).
Proof.
  intros Hi. unfold bit. rewrite Z.shiftl_1_l. destruct (Z.testbit mask i) eqn:E; cbn [negb].
  - apply Z.eqb_neq. intros H. pose proof (Z.land_spec mask (2 ^ i) i) as Hs.
    rewrite H, Z.testbit_0_l, E, Z.pow2_bits_true in Hs by lia. done.
  - apply Z.eqb_eq, Z.bits_inj'. intros n Hn. rewrite Z.land_spec, Z.testbit_0_l, Z.pow2_bits_eqb by lia.
    destruct (Z.eqb_spec i n) as [<-|]; [by rewrite E|by rewrite andb_false_r].
Qed.

(** From priority [p] on, the loop finds the first line of the mask. *)
Lemma priority_loop_spec fuel add mask p :
  0 <= p ->
  let r := priority_loop fuel add mask p in
  p <= r <= p + Z.of_nat fuel /\ (forall q, p <= q < r -> Z.testbit mask (line_at add q) = false) /\
  (r < p + Z.of_nat fuel -> Z.testbit mask (line_at add r) = true).
Proof.
  revert p. induction fuel as [|fuel IH]; intros p Hp; cbn [priority_loop]; [split_and!; lia|].
  pose proof (line_at_range add p). fold (line_at add p). rewrite land_bit_clear by lia.
  destruct (Z.testbit mask (line_at add p)) eqn:E; cbn [negb]; [split_and!; [lia|lia|intros q Hq; lia|done]|].
  destruct (IH (p + 1) ltac:(lia)) as (H1&H2&H3). split_and!; [lia|lia| |intros; apply H3; lia].
  intros q Hq. destruct (decide (q = p)) as [->|]; [done|]. apply H2. lia.
Qed.

(** The highest priority of a mask; 8 if it has none of the eight lines. *)
Lemma get_priority_spec s mask :
  let r := get_priority s mask in
  0 <= r <= 8 /\ (forall i, 0 <= i < 8 -> Z.testbit mask i = true -> r <= rank s i) /\
  (r < 8 -> Z.testbit mask (line_at (p_priority_add s) r) = true).
Proof.
  unfold get_priority. destruct (Z.eqb_spec mask 0) as [->|_].
  { split_and!; [lia..|intros i _; by rewrite Z.testbit_0_l|lia]. }
  destruct (priority_loop_spec 8 (p_priority_add s) mask 0 ltac:(lia)) as (H1&H2&H3).
  split_and!; [lia..| |intros; apply H3; lia]. intros i Hi Hm.
  apply Z.le_ngt. intros Hlt. specialize (H2 (rank s i) ltac:(pose proof (rank_range s i); lia)).
  by rewrite line_at_rank, Hm in H2.
Qed.

Lemma requested_bit s i : 0 <= i -> Z.testbit (Z.land (p_irr s) (Z.lnot (p_imr s))) i = true <-> requested s i.
Proof. intros Hi. unfold requested. rewrite Z.land_spec, Z.lnot_spec by lia. rewrite andb_true_iff, negb_true_iff. done. Qed.

(** The lines in service that count. *)
Definition service_mask (s : PicState) : Z :=
  let mask := if c_true (p_special_mask s) then Z.land (p_isr s) (Z.lnot (p_imr s)) else p_isr s in
  if c_true (p_special_fully_nested_mode s) && p_master s then Z.land mask (Z.lnot (bit 2)) else mask.

Lemma holds_bit s i : 0 <= i -> Z.testbit (service_mask s) i = true <-> holds s i.
Proof.
  intros Hi. unfold service_mask, holds. destruct (c_true (p_special_mask s)), (_ && _); rewrite ?Z.land_spec, ?Z.lnot_spec by lia;
    change (bit 2) with (2 ^ 2); rewrite ?Z.pow2_bits_eqb by lia; rewrite ?andb_true_iff, ?negb_true_iff, ?Z.eqb_neq;
    intuition (congruence || lia || auto).
Qed.

Lemma pic_get_irq_eq s :
  pic_get_irq s =
  let priority := get_priority s (Z.land (p_irr s) (Z.lnot (p_imr s))) in
  if priority =? 8 then -1
  else if priority <? get_priority s (service_mask s) then line_at (p_priority_add s) priority else -1.
Proof. done. Qed.

(** The controller raises the line of highest priority that is requested and not
    masked, if no line of the same or higher priority is in service. *)
Lemma pic_get_irq_wanted s : let r := pic_get_irq s in wanted s r \/ r = -1 /\ forall i, ~ wanted s i.
Proof.
  rewrite pic_get_irq_eq. cbv zeta.
  destruct (get_priority_spec s (Z.land (p_irr s) (Z.lnot (p_imr s)))) as (Hr&Hmin&Hbit).
  destruct (get_priority_spec s (service_mask s)) as (Hr'&Hmin'&Hbit').
  set (p := get_priority s (Z.land _ _)) in *. set (q := get_priority s (service_mask s)) in *.
  destruct (Z.eqb_spec p 8) as [->|Hne].
  { right. split; [done|]. intros i (Hi&Hreq&_). apply requested_bit in Hreq; [|lia].
    pose proof (Hmin i Hi Hreq). pose proof (rank_range s i). lia. }
  pose proof (line_at_range (p_priority_add s) p) as Hl. destruct (Z.ltb_spec p q) as [Hlt|Hge].
  - left. split; [exact Hl|]. rewrite rank_line_at by lia. split_and!.
    + apply requested_bit; [lia|]. apply Hbit. lia.
    + intros j Hj Hreq. apply requested_bit in Hreq; [|lia]. by apply Hmin.
    + intros j Hj Hh. apply holds_bit in Hh; [|lia]. pose proof (Hmin' j Hj Hh). lia.
  - right. split; [done|]. intros i (Hi&Hreq&_&Hserv).
    apply requested_bit in Hreq; [|lia]. pose proof (Hmin i Hi Hreq).
    pose proof (line_at_range (p_priority_add s) q) as Hq.
    specialize (Hserv _ Hq ltac:(apply holds_bit; [lia|apply Hbit'; lia])). rewrite rank_line_at in Hserv by lia. lia.
Qed.

Lemma wanted_unique s i j : wanted s i -> wanted s j -> i = j.
Proof.
  intros (Hi&Hri&Hmi&_) (Hj&Hrj&Hmj&_). pose proof (Hmi j Hj Hrj). pose proof (Hmj i Hi Hri).
  rewrite <- (line_at_rank s i Hi), <- (line_at_rank s j Hj). f_equal. lia.
Qed.

(** C32: The 8259 controller offers exactly the line that is to interrupt: of the
    requested lines that are not masked the one of highest priority in the current
    rotation, provided no line of the same or a higher priority that counts is in
    service; if there is no such line, it offers none. *)
Theorem pic_get_irq_exact (s : PicState) :
  (forall i, 0 <= i -> pic_get_irq s = i <-> wanted s i) /\ (pic_get_irq s = -1 <-> forall i, ~ wanted s i).
Proof.
  destruct (pic_get_irq_wanted s) as [Hw|[-> Hn]].
  - split.
    + intros i Hi. split; [by intros <-|]. intros Hw'. by eapply wanted_unique.
    + split; [intros E; rewrite E in Hw; destruct Hw; lia|]. intros Hn. by destruct (Hn _ Hw).
  - split; [|done]. intros i Hi. split; [lia|]. intros Hw. by destruct (Hn i Hw).
Qed.

(** An acknowledged line holds back itself and every line below it until the end
    of the interrupt. *)
Lemma acknowledged_holds s i j :
  p_auto_eoi s = 0 -> p_special_mask s = 0 -> p_special_fully_nested_mode s = 0 ->
  wanted s i -> wanted (acknowledged i s) j -> rank s j < rank s i.
Proof.
  intros Ha Hm Hf Hi Hj. unfold acknowledged in Hj. rewrite Ha in Hj. cbn [c_true Z.eqb negb] in Hj.
  set (s1 := set_p_isr _ s) in Hj.
  assert (forall s2, p_isr s2 = p_isr s1 -> p_special_mask s2 = 0 -> p_special_fully_nested_mode s2 = 0 ->
    p_priority_add s2 = p_priority_add s -> wanted s2 j -> rank s j < rank s i) as H.
  { intros s2 E1 E2 E3 E4 (_&_&_&Hserv). destruct Hi as (Hir&_). specialize (Hserv i Hir). unfold rank in *. rewrite E4 in Hserv.
    apply Hserv. unfold holds. rewrite E1, E2, E3. cbn. split; [|split; [done|done]].
    unfold bit. rewrite Z.lor_spec, Z.shiftl_1_l, Z.pow2_bits_true by lia. apply orb_true_r. }
  destruct (_ =? 0) in Hj; by eapply H in Hj.
Qed.
