(* ===== verification/Board.v ===== *)
(** * Board.v -- the state of the emulated board

    The registers of the local APICs ([APICState] of [vmm/hw/apic.c]) and of the
    IO-APIC ([IOAPICState] of [vmm/hw/ioapic.c]), and the [board]: the scheduler's
    machine with the records of the instrumentation, a local APIC for every CPU,
    the other interrupt controllers with the timers of the virtual clock, and the
    flags of QEMU's CPU loop.

    The APIC number [e] belongs to CPU [e] ([idx] and [cpu_env] of the source): the
    APICs are created with their CPUs.  Its in-service register is the field
    [cpu_apic_isr] of the CPU, its timer is [ApicTimer e]. *)

From S2P Require Import Prelude Liveness LoopTrace Machine Sched Interrupts RaceDetector Stats InstructionDetector Instrument Timers Pic.

(** ** The controllers *)

Record APICState := mk_apic {
  a_apicbase : Z;
  a_id : Z;
  a_arb_id : Z;
  a_tpr : Z;
  a_spurious_vec : Z;
  a_log_dest : Z;
  a_dest_mode : Z;
  a_tmr : list Z;
  a_irr : list Z;
  a_lvt : list Z;
  a_esr : Z;
  a_icr : list Z;
  a_divide_conf : Z;
  a_count_shift : Z;
  a_initial_count : Z;
  a_initial_count_load_time : Z;
  a_next_time : Z;
  a_sipi_vector : Z;
  a_wait_for_sipi : bool
}.
Definition set_a_apicbase (v : Z) (s : APICState) : APICState :=
  mk_apic v (a_id s) (a_arb_id s) (a_tpr s) (a_spurious_vec s) (a_log_dest s) (a_dest_mode s) (a_tmr s) (a_irr s)
    (a_lvt s) (a_esr s) (a_icr s) (a_divide_conf s) (a_count_shift s) (a_initial_count s)
    (a_initial_count_load_time s) (a_next_time s) (a_sipi_vector s) (a_wait_for_sipi s).
Definition set_a_id (v : Z) (s : APICState) : APICState :=
  mk_apic (a_apicbase s) v (a_arb_id s) (a_tpr s) (a_spurious_vec s) (a_log_dest s) (a_dest_mode s) (a_tmr s)
    (a_irr s) (a_lvt s) (a_esr s) (a_icr s) (a_divide_conf s) (a_count_shift s) (a_initial_count s)
    (a_initial_count_load_time s) (a_next_time s) (a_sipi_vector s) (a_wait_for_sipi s).
Definition set_a_arb_id (v : Z) (s : APICState) : APICState :=
  mk_apic (a_apicbase s) (a_id s) v (a_tpr s) (a_spurious_vec s) (a_log_dest s) (a_dest_mode s) (a_tmr s) (a_irr s)
    (a_lvt s) (a_esr s) (a_icr s) (a_divide_conf s) (a_count_shift s) (a_initial_count s)
    (a_initial_count_load_time s) (a_next_time s) (a_sipi_vector s) (a_wait_for_sipi s).
Definition set_a_tpr (v : Z) (s : APICState) : APICState :=
  mk_apic (a_apicbase s) (a_id s) (a_arb_id s) v (a_spurious_vec s) (a_log_dest s) (a_dest_mode s) (a_tmr s)
    (a_irr s) (a_lvt s) (a_esr s) (a_icr s) (a_divide_conf s) (a_count_shift s) (a_initial_count s)
    (a_initial_count_load_time s) (a_next_time s) (a_sipi_vector s) (a_wait_for_sipi s).
Definition set_a_spurious_vec (v : Z) (s : APICState) : APICState :=
  mk_apic (a_apicbase s) (a_id s) (a_arb_id s) (a_tpr s) v (a_log_dest s) (a_dest_mode s) (a_tmr s) (a_irr s)
    (a_lvt s) (a_esr s) (a_icr s) (a_divide_conf s) (a_count_shift s) (a_initial_count s)
    (a_initial_count_load_time s) (a_next_time s) (a_sipi_vector s) (a_wait_for_sipi s).
Definition set_a_log_dest (v : Z) (s : APICState) : APICState :=
  mk_apic (a_apicbase s) (a_id s) (a_arb_id s) (a_tpr s) (a_spurious_vec s) v (a_dest_mode s) (a_tmr s) (a_irr s)
    (a_lvt s) (a_esr s) (a_icr s) (a_divide_conf s) (a_count_shift s) (a_initial_count s)
    (a_initial_count_load_time s) (a_next_time s) (a_sipi_vector s) (a_wait_for_sipi s).
Definition set_a_dest_mode (v : Z) (s : APICState) : APICState :=
  mk_apic (a_apicbase s) (a_id s) (a_arb_id s) (a_tpr s) (a_spurious_vec s) (a_log_dest s) v (a_tmr s) (a_irr s)
    (a_lvt s) (a_esr s) (a_icr s) (a_divide_conf s) (a_count_shift s) (a_initial_count s)
    (a_initial_count_load_time s) (a_next_time s) (a_sipi_vector s) (a_wait_for_sipi s).
Definition set_a_tmr (v : list Z) (s : APICState) : APICState :=
  mk_apic (a_apicbase s) (a_id s) (a_arb_id s) (a_tpr s) (a_spurious_vec s) (a_log_dest s) (a_dest_mode s) v
    (a_irr s) (a_lvt s) (a_esr s) (a_icr s) (a_divide_conf s) (a_count_shift s) (a_initial_count s)
    (a_initial_count_load_time s) (a_next_time s) (a_sipi_vector s) (a_wait_for_sipi s).
Definition set_a_irr (v : list Z) (s : APICState) : APICState :=
  mk_apic (a_apicbase s) (a_id s) (a_arb_id s) (a_tpr s) (a_spurious_vec s) (a_log_dest s) (a_dest_mode s) (a_tmr s)
    v (a_lvt s) (a_esr s) (a_icr s) (a_divide_conf s) (a_count_shift s) (a_initial_count s)
    (a_initial_count_load_time s) (a_next_time s) (a_sipi_vector s) (a_wait_for_sipi s).
Definition set_a_lvt (v : list Z) (s : APICState) : APICState :=
  mk_apic (a_apicbase s) (a_id s) (a_arb_id s) (a_tpr s) (a_spurious_vec s) (a_log_dest s) (a_dest_mode s) (a_tmr s)
    (a_irr s) v (a_esr s) (a_icr s) (a_divide_conf s) (a_count_shift s) (a_initial_count s)
    (a_initial_count_load_time s) (a_next_time s) (a_sipi_vector s) (a_wait_for_sipi s).
Definition set_a_esr (v : Z) (s : APICState) : APICState :=
  mk_apic (a_apicbase s) (a_id s) (a_arb_id s) (a_tpr s) (a_spurious_vec s) (a_log_dest s) (a_dest_mode s) (a_tmr s)
    (a_irr s) (a_lvt s) v (a_icr s) (a_divide_conf s) (a_count_shift s) (a_initial_count s)
    (a_initial_count_load_time s) (a_next_time s) (a_sipi_vector s) (a_wait_for_sipi s).
Definition set_a_icr (v : list Z) (s : APICState) : APICState :=
  mk_apic (a_apicbase s) (a_id s) (a_arb_id s) (a_tpr s) (a_spurious_vec s) (a_log_dest s) (a_dest_mode s) (a_tmr s)
    (a_irr s) (a_lvt s) (a_esr s) v (a_divide_conf s) (a_count_shift s) (a_initial_count s)
    (a_initial_count_load_time s) (a_next_time s) (a_sipi_vector s) (a_wait_for_sipi s).
Definition set_a_divide_conf (v : Z) (s : APICState) : APICState :=
  mk_apic (a_apicbase s) (a_id s) (a_arb_id s) (a_tpr s) (a_spurious_vec s) (a_log_dest s) (a_dest_mode s) (a_tmr s)
    (a_irr s) (a_lvt s) (a_esr s) (a_icr s) v (a_count_shift s) (a_initial_count s) (a_initial_count_load_time s)
    (a_next_time s) (a_sipi_vector s) (a_wait_for_sipi s).
Definition set_a_count_shift (v : Z) (s : APICState) : APICState :=
  mk_apic (a_apicbase s) (a_id s) (a_arb_id s) (a_tpr s) (a_spurious_vec s) (a_log_dest s) (a_dest_mode s) (a_tmr s)
    (a_irr s) (a_lvt s) (a_esr s) (a_icr s) (a_divide_conf s) v (a_initial_count s) (a_initial_count_load_time s)
    (a_next_time s) (a_sipi_vector s) (a_wait_for_sipi s).
Definition set_a_initial_count (v : Z) (s : APICState) : APICState :=
  mk_apic (a_apicbase s) (a_id s) (a_arb_id s) (a_tpr s) (a_spurious_vec s) (a_log_dest s) (a_dest_mode s) (a_tmr s)
    (a_irr s) (a_lvt s) (a_esr s) (a_icr s) (a_divide_conf s) (a_count_shift s) v (a_initial_count_load_time s)
    (a_next_time s) (a_sipi_vector s) (a_wait_for_sipi s).
Definition set_a_initial_count_load_time (v : Z) (s : APICState) : APICState :=
  mk_apic (a_apicbase s) (a_id s) (a_arb_id s) (a_tpr s) (a_spurious_vec s) (a_log_dest s) (a_dest_mode s) (a_tmr s)
    (a_irr s) (a_lvt s) (a_esr s) (a_icr s) (a_divide_conf s) (a_count_shift s) (a_initial_count s) v
    (a_next_time s) (a_sipi_vector s) (a_wait_for_sipi s).
Definition set_a_next_time (v : Z) (s : APICState) : APICState :=
  mk_apic (a_apicbase s) (a_id s) (a_arb_id s) (a_tpr s) (a_spurious_vec s) (a_log_dest s) (a_dest_mode s) (a_tmr s)
    (a_irr s) (a_lvt s) (a_esr s) (a_icr s) (a_divide_conf s) (a_count_shift s) (a_initial_count s)
    (a_initial_count_load_time s) v (a_sipi_vector s) (a_wait_for_sipi s).
Definition set_a_sipi_vector (v : Z) (s : APICState) : APICState :=
  mk_apic (a_apicbase s) (a_id s) (a_arb_id s) (a_tpr s) (a_spurious_vec s) (a_log_dest s) (a_dest_mode s) (a_tmr s)
    (a_irr s) (a_lvt s) (a_esr s) (a_icr s) (a_divide_conf s) (a_count_shift s) (a_initial_count s)
    (a_initial_count_load_time s) (a_next_time s) v (a_wait_for_sipi s).
Definition set_a_wait_for_sipi (v : bool) (s : APICState) : APICState :=
  mk_apic (a_apicbase s) (a_id s) (a_arb_id s) (a_tpr s) (a_spurious_vec s) (a_log_dest s) (a_dest_mode s) (a_tmr s)
    (a_irr s) (a_lvt s) (a_esr s) (a_icr s) (a_divide_conf s) (a_count_shift s) (a_initial_count s)
    (a_initial_count_load_time s) (a_next_time s) (a_sipi_vector s) v.

#[export] Instance APICState_inhabited : Inhabited APICState :=
  populate (mk_apic 0 0 0 0 0 0 0 (replicate 8 0) (replicate 8 0) (replicate 6 0) 0 (replicate 2 0) 0 0 0 0 0 0 false).

Record IOAPICState := mk_ioapic {
  io_id : Z;
  io_ioregsel : Z;
  io_irr : Z;
  io_ioredtbl : list Z
}.
Definition set_io_id (v : Z) (s : IOAPICState) : IOAPICState :=
  mk_ioapic v (io_ioregsel s) (io_irr s) (io_ioredtbl s).
Definition set_io_ioregsel (v : Z) (s : IOAPICState) : IOAPICState :=
  mk_ioapic (io_id s) v (io_irr s) (io_ioredtbl s).
Definition set_io_irr (v : Z) (s : IOAPICState) : IOAPICState :=
  mk_ioapic (io_id s) (io_ioregsel s) v (io_ioredtbl s).
Definition set_io_ioredtbl (v : list Z) (s : IOAPICState) : IOAPICState :=
  mk_ioapic (io_id s) (io_ioregsel s) (io_irr s) v.

Definition IOAPIC_NUM_PINS : nat := 24.

(** The timers of the virtual clock: one for every local APIC, and those of other
    devices. *)
Inductive timer_id := ApicTimer (e : nat) | DeviceTimer (n : nat).
#[export] Instance timer_id_eq_dec : EqDecision timer_id.
Proof. solve_decision. Defined.

(** [ch_master] and [ch_slave] are [isa_pic] and [slave_pic]; [ch_timers] is the
    list of active timers and [ch_now] what [qemu_get_clock_ns(vm_clock)] returns. *)
Record chips := mk_chips {
  ch_master : PicState;
  ch_slave : PicState;
  ch_ioapic : IOAPICState;
  ch_timers : list (timer_id * Z);
  ch_now : Z
}.
Definition set_ch_master (v : PicState) (s : chips) : chips :=
  mk_chips v (ch_slave s) (ch_ioapic s) (ch_timers s) (ch_now s).
Definition set_ch_slave (v : PicState) (s : chips) : chips :=
  mk_chips (ch_master s) v (ch_ioapic s) (ch_timers s) (ch_now s).
Definition set_ch_ioapic (v : IOAPICState) (s : chips) : chips :=
  mk_chips (ch_master s) (ch_slave s) v (ch_timers s) (ch_now s).
Definition set_ch_timers (v : list (timer_id * Z)) (s : chips) : chips :=
  mk_chips (ch_master s) (ch_slave s) (ch_ioapic s) v (ch_now s).
Definition set_ch_now (v : Z) (s : chips) : chips :=
  mk_chips (ch_master s) (ch_slave s) (ch_ioapic s) (ch_timers s) v.

(** ** The board *)

(** [bd_halted] and [bd_exit] are the fields [halted] and [exit_request] of the
    CPUs; [bd_exit_request], [bd_restoring] and [bd_next] the globals
    [exit_request], [ski_snapshot_restoring] and [next_cpu].  [bd_blocks] records
    every block of guest code that is executed: its CPU and the machine before
    it. *)
Record board := mk_board {
  bd_ins : istate;
  bd_apics : list APICState;
  bd_irq_delivered : Z;
  bd_halted : list bool;
  bd_exit : list bool;
  bd_exit_request : bool;
  bd_restoring : bool;
  bd_next : option nat;
  bd_blocks : list (nat * machine);
  bd_chips : chips
}.
Definition set_bd_ins (v : istate) (s : board) : board :=
  mk_board v (bd_apics s) (bd_irq_delivered s) (bd_halted s) (bd_exit s) (bd_exit_request s) (bd_restoring s)
    (bd_next s) (bd_blocks s) (bd_chips s).
Definition set_bd_apics (v : list APICState) (s : board) : board :=
  mk_board (bd_ins s) v (bd_irq_delivered s) (bd_halted s) (bd_exit s) (bd_exit_request s) (bd_restoring s)
    (bd_next s) (bd_blocks s) (bd_chips s).
Definition set_bd_irq_delivered (v : Z) (s : board) : board :=
  mk_board (bd_ins s) (bd_apics s) v (bd_halted s) (bd_exit s) (bd_exit_request s) (bd_restoring s) (bd_next s)
    (bd_blocks s) (bd_chips s).
Definition set_bd_halted (v : list bool) (s : board) : board :=
  mk_board (bd_ins s) (bd_apics s) (bd_irq_delivered s) v (bd_exit s) (bd_exit_request s) (bd_restoring s)
    (bd_next s) (bd_blocks s) (bd_chips s).
Definition set_bd_exit (v : list bool) (s : board) : board :=
  mk_board (bd_ins s) (bd_apics s) (bd_irq_delivered s) (bd_halted s) v (bd_exit_request s) (bd_restoring s)
    (bd_next s) (bd_blocks s) (bd_chips s).
Definition set_bd_exit_request (v : bool) (s : board) : board :=
  mk_board (bd_ins s) (bd_apics s) (bd_irq_delivered s) (bd_halted s) (bd_exit s) v (bd_restoring s) (bd_next s)
    (bd_blocks s) (bd_chips s).
Definition set_bd_restoring (v : bool) (s : board) : board :=
  mk_board (bd_ins s) (bd_apics s) (bd_irq_delivered s) (bd_halted s) (bd_exit s) (bd_exit_request s) v (bd_next s)
    (bd_blocks s) (bd_chips s).
Definition set_bd_next (v : option nat) (s : board) : board :=
  mk_board (bd_ins s) (bd_apics s) (bd_irq_delivered s) (bd_halted s) (bd_exit s) (bd_exit_request s)
    (bd_restoring s) v (bd_blocks s) (bd_chips s).
Definition set_bd_blocks (v : list (nat * machine)) (s : board) : board :=
  mk_board (bd_ins s) (bd_apics s) (bd_irq_delivered s) (bd_halted s) (bd_exit s) (bd_exit_request s)
    (bd_restoring s) (bd_next s) v (bd_chips s).
Definition set_bd_chips (v : chips) (s : board) : board :=
  mk_board (bd_ins s) (bd_apics s) (bd_irq_delivered s) (bd_halted s) (bd_exit s) (bd_exit_request s)
    (bd_restoring s) (bd_next s) (bd_blocks s) v.

Definition LOOP := M board.
Definition bd_machine (b : board) : machine := i_machine (bd_ins b).
Definition set_bd_machine (m : machine) (b : board) : board := set_bd_ins (set_i_machine m (bd_ins b)) b.
Definition bd_cpu (e : nat) (b : board) : CPUState := m_cpus (bd_machine b) !!! e.
Definition bd_apic (e : nat) (b : board) : APICState := bd_apics b !!! e.

(** Operations of the instrumentation and of the scheduler. *)
Definition on_ins {A} (op : INS A) : LOOP A :=
  fun b => match op (bd_ins b) with
           | Ret s a => Ret (set_bd_ins s b) a
           | Jump s => Jump (set_bd_ins s b)
           | Halt s h => Halt (set_bd_ins s b) h
           end.
Definition on_sch {A} (op : SCH A) : LOOP A := on_ins (on_machine op).

Definition set_cpu_interrupt_request (v : Z) (s : CPUState) : CPUState :=
  mk_cpu (cpu_index s) (cpu_ski_active s) (cpu_ski s) (cpu_stop s) (cpu_stopped s) (cpu_old_stop s) (cpu_old_stopped s)
    (cpu_exception_index s) (cpu_eip s) v (cpu_hflags s) (cpu_hflags2 s) (cpu_eflags s) (cpu_regs_ s) (cpu_ds_base s) (cpu_apic_isr s).
Definition set_cpu_hflags2 (v : Z) (s : CPUState) : CPUState :=
  mk_cpu (cpu_index s) (cpu_ski_active s) (cpu_ski s) (cpu_stop s) (cpu_stopped s) (cpu_old_stop s) (cpu_old_stopped s)
    (cpu_exception_index s) (cpu_eip s) (cpu_interrupt_request s) (cpu_hflags s) v (cpu_eflags s) (cpu_regs_ s) (cpu_ds_base s) (cpu_apic_isr s).
Definition set_cpu_apic_isr (v : list Z) (s : CPUState) : CPUState :=
  mk_cpu (cpu_index s) (cpu_ski_active s) (cpu_ski s) (cpu_stop s) (cpu_stopped s) (cpu_old_stop s) (cpu_old_stopped s)
    (cpu_exception_index s) (cpu_eip s) (cpu_interrupt_request s) (cpu_hflags s) (cpu_hflags2 s) (cpu_eflags s) (cpu_regs_ s) (cpu_ds_base s) v.

Definition mod_apic (e : nat) (f : APICState -> APICState) : LOOP unit :=
  modify (fun b => set_bd_apics (alter f e (bd_apics b)) b).


Definition mod_chips (f : chips -> chips) : LOOP unit := modify (fun b => set_bd_chips (f (bd_chips b)) b).
Definition mod_ioapic (f : IOAPICState -> IOAPICState) : LOOP unit :=
  mod_chips (fun c => set_ch_ioapic (f (ch_ioapic c)) c).
Definition bd_now (b : board) : Z := ch_now (bd_chips b).

Lemma on_sch_run {A} (op : SCH A) b :
  on_sch op b = match op (bd_machine b) with
                | Ret m a => Ret (set_bd_machine m b) a
                | Jump m => Jump (set_bd_machine m b)
                | Halt m x => Halt (set_bd_machine m b) x
                end.
Proof. unfold on_sch, on_ins, on_machine, bd_machine. by destruct (op (i_machine (bd_ins b))). Qed.

Lemma on_sch_Ret {A} (op : SCH A) b m a : op (bd_machine b) = Ret m a -> on_sch op b = Ret (set_bd_machine m b) a.
Proof. rewrite on_sch_run. by intros ->. Qed.

Lemma set_bd_machine_id b : set_bd_machine (bd_machine b) b = b.
Proof. by destruct b as [[] ?]. Qed.
