(* ===== verification/Apic.v ===== *)
(** * Apic.v -- the local APICs and SKI's choice of vectors

    Models [vmm/hw/apic.c]: the request, in-service and trigger-mode registers of
    the local APIC (eight words of 32 bits each), the original choice of the
    highest vector and SKI's replacement, which asks the scheduler, the delivery
    of local interrupts and of messages on the bus between the APICs, and the
    timer.  Registers that the guest accesses, the end of an interrupt and the
    other controllers are in [Chips.v]. *)

From S2P Require Import Prelude Liveness LoopTrace Machine Sched Interrupts RaceDetector Stats InstructionDetector Instrument Timers Pic Board.

Definition APIC_SV_DIRECTED_IO : Z := 4096.
Definition APIC_SV_ENABLE : Z := 256.
Definition APIC_LVT_TIMER : nat := 0.
Definition APIC_LVT_LINT0 : nat := 3.
Definition APIC_LVT_LINT1 : nat := 4.
Definition APIC_LVT_NB : nat := 6.
Definition APIC_DM_FIXED : Z := 0.
Definition APIC_DM_LOWPRI : Z := 1.
Definition APIC_DM_SMI : Z := 2.
Definition APIC_DM_NMI : Z := 4.
Definition APIC_DM_INIT : Z := 5.
Definition APIC_DM_SIPI : Z := 6.
Definition APIC_DM_EXTINT : Z := 7.
Definition APIC_LVT_TIMER_PERIODIC : Z := 131072.
Definition APIC_LVT_MASKED : Z := 65536.
Definition APIC_LVT_LEVEL_TRIGGER : Z := 32768.
Definition ESR_ILLEGAL_ADDRESS : Z := 128.
Definition MAX_APICS : nat := 255.
Definition MAX_APIC_WORDS : nat := 8.
Definition MSR_IA32_APICBASE_BSP : Z := 256.
Definition MSR_IA32_APICBASE_ENABLE : Z := 2048.
Definition CPU_INTERRUPT_SMI : Z := 64.
Definition CPU_INTERRUPT_NMI : Z := 512.
Definition CPU_INTERRUPT_INIT : Z := 1024.
Definition CPU_INTERRUPT_SIPI : Z := 2048.

(** ** Registers of 256 bits *)

Definition set_bit : list Z -> Z -> list Z := ski_set_bit.
Definition reset_bit (tab : list Z) (index : Z) : list Z :=
  alter (fun w => Z.land w (Z.lnot (Z.shiftl 1 (Z.land index 31)))) (Z.to_nat (Z.shiftr index 5)) tab.

(** 31 minus the number of leading zeros. *)
Definition fls_bit (value : Z) : Z := Z.log2 value.

(** The words [i - 1] down to 0. *)
Fixpoint highest_loop (tab : list Z) (i : nat) : Z :=
  match i with
  | O => -1
  | S i' => if tab !!! i' =? 0 then highest_loop tab i' else Z.of_nat i' * 32 + fls_bit (tab !!! i')
  end.
(** Trailing zeros: the lowest bit of a word other than 0. *)
Fixpoint ctz_loop (n : nat) (value : Z) : Z :=
  match n with
  | O => 0
  | S n' => if Z.odd value then 0 else 1 + ctz_loop n' (Z.shiftr value 1)
  end.
Definition ffs_bit (value : Z) : Z := ctz_loop 32 value.

Definition get_highest_priority_int (tab : list Z) : Z := highest_loop tab 8.

(** ** Requests to a CPU *)

Definition cpu_interrupt (e : nat) (mask : Z) : LOOP unit :=
  on_sch (mod_cpu e (fun c => set_cpu_interrupt_request (Z.lor (cpu_interrupt_request c) mask) c)).
Definition cpu_reset_interrupt (e : nat) (mask : Z) : LOOP unit :=
  on_sch (mod_cpu e (fun c => set_cpu_interrupt_request (Z.land (cpu_interrupt_request c) (Z.lnot mask)) c)).

(** ** Pending vectors *)

Definition ski_apic_process_incoming_interrupts (env : CPUState) : bool :=
  cpu_ski_active env &&
  ((sc_state (cpu_ski env) =? SKI_CPU_RUNNING_TEST) || (sc_state (cpu_ski env) =? SKI_CPU_BLOCKED_ON_EXIT)).

(** During a test the scheduler's thread decides, whatever is pending. *)
Definition ski_apic_get_highest_priority_int (tab : board -> list Z) (e : nat) : LOOP Z :=
  b <- get ;;
  if ski_apic_process_incoming_interrupts (bd_cpu e b) then
    let highest_int := ski_threads_find_next_runnable_int e (bd_machine b) in
    if highest_int >=? 0 then
      when (get_bit (tab b) highest_int =? 0) (on_sch (SKI_ASSERT false)) ;;;
      ret highest_int
    else ret (-1)
  else ret (get_highest_priority_int (tab b)).

Definition irr_of (e : nat) (b : board) : list Z := a_irr (bd_apic e b).
Definition isr_of (e : nat) (b : board) : list Z := cpu_apic_isr (bd_cpu e b).

Definition apic_get_ppr (e : nat) (b : board) : Z :=
  let tpr := Z.shiftr (a_tpr (bd_apic e b)) 4 in
  let isrv := get_highest_priority_int (isr_of e b) in
  let isrv := Z.shiftr (if isrv <? 0 then 0 else isrv) 4 in
  if tpr >=? isrv then a_tpr (bd_apic e b) else Z.shiftl isrv 4.

(** [ppr && (irrv & 0xf0) <= (ppr & 0xf0)]. *)
Definition masked (irrv ppr : Z) : bool := c_true ppr && (Z.land irrv 240 <=? Z.land ppr 240).

Definition ski_apic_irq_pending (e : nat) : LOOP Z :=
  irrv <- ski_apic_get_highest_priority_int (irr_of e) e ;;
  if irrv <? 0 then ret 0
  else
    b <- get ;;
    ret (if masked irrv (apic_get_ppr e b) then -1 else irrv).

Definition apic_irq_pending (e : nat) (b : board) : Z :=
  let irrv := get_highest_priority_int (irr_of e b) in
  if irrv <? 0 then 0 else if masked irrv (apic_get_ppr e b) then -1 else irrv.

(** ** Interrupts of one APIC *)

Definition apic_accept_pic_intr (e : nat) (b : board) : bool :=
  let lvt0 := a_lvt (bd_apic e b) !!! APIC_LVT_LINT0 in
  (Z.land (a_apicbase (bd_apic e b)) MSR_IA32_APICBASE_ENABLE =? 0) || (Z.land lvt0 APIC_LVT_MASKED =? 0).

(** [apic_update_irq], [apic_deliver_pic_intr], [apic_local_deliver] and
    [apic_set_irq] call each other; [update] stands for the first in the others. *)
Section update.
Context (update : nat -> LOOP unit).

(** The counter [apic_irq_delivered] is an [int]. *)
Definition set_irq_with (e : nat) (vector_num : Z) (trigger_mode : bool) : LOOP unit :=
  modify (fun b => set_bd_irq_delivered (wrap32 (bd_irq_delivered b + (1 - get_bit (irr_of e b) vector_num))) b) ;;;
  mod_apic e (fun a => set_a_irr (set_bit (a_irr a) vector_num) a) ;;;
  mod_apic e (fun a => set_a_tmr (if trigger_mode then set_bit (a_tmr a) vector_num
                                  else reset_bit (a_tmr a) vector_num) a) ;;;
  update e ;;;
  on_sch (ski_handle_new_irq_set e vector_num).

Definition local_deliver_with (e : nat) (vector : nat) : LOOP unit :=
  b <- get ;;
  let lvt := a_lvt (bd_apic e b) !!! vector in
  if negb (Z.land lvt APIC_LVT_MASKED =? 0) then ret tt
  else
    let mode := Z.land (Z.shiftr lvt 8) 7 in
    if mode =? APIC_DM_SMI then cpu_interrupt e CPU_INTERRUPT_SMI
    else if mode =? APIC_DM_NMI then cpu_interrupt e CPU_INTERRUPT_NMI
    else if mode =? APIC_DM_EXTINT then cpu_interrupt e CPU_INTERRUPT_HARD
    else if mode =? APIC_DM_FIXED then
      set_irq_with e (Z.land lvt 255)
        (((vector =? APIC_LVT_LINT0)%nat || (vector =? APIC_LVT_LINT1)%nat) &&
         negb (Z.land lvt APIC_LVT_LEVEL_TRIGGER =? 0))
    else ret tt.
End update.

(** The recursion is bounded by [depth]; without a bound it would not end when the
    PIC's output is delivered as a fixed vector that stays below the processor's
    priority ([update_irq_endless] of [Delivery.v]). *)
Fixpoint update_irq_at (depth : nat) (e : nat) : LOOP unit :=
  match depth with
  | O => stop HUndef
  | S depth' =>
      b <- get ;;
      if negb (has_flag (a_spurious_vec (bd_apic e b)) APIC_SV_ENABLE) then ret tt
      else if apic_irq_pending e b >? 0 then cpu_interrupt e CPU_INTERRUPT_HARD
      else when (apic_accept_pic_intr e b && pic_get_output (ch_master (bd_chips b)))
        (local_deliver_with (update_irq_at depth') e APIC_LVT_LINT0)
  end.

Definition apic_update_irq : nat -> LOOP unit := update_irq_at 2.
Definition apic_set_irq : nat -> Z -> bool -> LOOP unit := set_irq_with apic_update_irq.
Definition apic_local_deliver : nat -> nat -> LOOP unit := local_deliver_with apic_update_irq.

Definition apic_deliver_pic_intr (e : nat) (level : bool) : LOOP unit :=
  if level then apic_local_deliver e APIC_LVT_LINT0
  else
    b <- get ;;
    let lvt := a_lvt (bd_apic e b) !!! APIC_LVT_LINT0 in
    let mode := Z.land (Z.shiftr lvt 8) 7 in
    if mode =? APIC_DM_FIXED then
      when (negb (Z.land lvt APIC_LVT_LEVEL_TRIGGER =? 0))
        (mod_apic e (fun a => set_a_irr (reset_bit (a_irr a) (Z.land lvt 255)) a) ;;;
         cpu_reset_interrupt e CPU_INTERRUPT_HARD)
    else when (mode =? APIC_DM_EXTINT) (cpu_reset_interrupt e CPU_INTERRUPT_HARD).

(** The common end of both [get_interrupt]s: the vector goes into service. *)
Definition accept_interrupt (e : nat) (intno : Z) : LOOP Z :=
  if intno =? 0 then ret (-1)
  else if intno <? 0 then b <- get ;; ret (Z.land (a_spurious_vec (bd_apic e b)) 255)
  else
    mod_apic e (fun a => set_a_irr (reset_bit (a_irr a) intno) a) ;;;
    on_sch (mod_cpu e (fun c => set_cpu_apic_isr (set_bit (cpu_apic_isr c) intno) c)) ;;;
    apic_update_irq e ;;;
    ret intno.

Definition original_apic_get_interrupt (e : nat) : LOOP Z :=
  b <- get ;;
  if negb (has_flag (a_spurious_vec (bd_apic e b)) APIC_SV_ENABLE) then ret (-1)
  else accept_interrupt e (apic_irq_pending e b).

Definition ski_apic_get_interrupt (e : nat) : LOOP Z :=
  b <- get ;;
  if negb (has_flag (a_spurious_vec (bd_apic e b)) APIC_SV_ENABLE) then ret (-1)
  else intno <- ski_apic_irq_pending e ;; accept_interrupt e intno.

Definition ski_apic_check_interrupt_set (int_no : Z) (e : nat) (b : board) : Z := get_bit (isr_of e b) int_no.

(** ** Messages between the APICs *)

(** The bits of the words in order; a bit without an APIC is skipped. *)
Definition foreach_apic (deliver_bitmask : list Z) (code : nat -> LOOP unit) : LOOP unit :=
  for_each (seq 0 MAX_APIC_WORDS) (fun i =>
    let mask := deliver_bitmask !!! i in
    when (c_true mask)
      (for_each (seq 0 32) (fun j =>
         when (Z.testbit mask (Z.of_nat j))
           (b <- get ;;
            when (i * 32 + j <? length (bd_apics b))%nat (code (i * 32 + j)%nat))))).

(** The loop of the lowest-priority delivery: the lowest bit of the mask. *)
Fixpoint lowest_loop (words : list Z) (i : nat) : Z :=
  match words with
  | [] => -1
  | w :: words' => if c_true w then Z.of_nat i * 32 + ffs_bit w else lowest_loop words' (S i)
  end.

Definition apic_bus_deliver (deliver_bitmask : list Z) (delivery_mode vector_num : Z) (trigger_mode : bool) : LOOP unit :=
  if delivery_mode =? APIC_DM_LOWPRI then
    let d := lowest_loop deliver_bitmask 0 in
    when (d >=? 0)
      (b <- get ;;
       when (Z.to_nat d <? length (bd_apics b))%nat (apic_set_irq (Z.to_nat d) vector_num trigger_mode))
  else if delivery_mode =? APIC_DM_SMI then foreach_apic deliver_bitmask (fun e => cpu_interrupt e CPU_INTERRUPT_SMI)
  else if delivery_mode =? APIC_DM_NMI then foreach_apic deliver_bitmask (fun e => cpu_interrupt e CPU_INTERRUPT_NMI)
  else if delivery_mode =? APIC_DM_INIT then foreach_apic deliver_bitmask (fun e => cpu_interrupt e CPU_INTERRUPT_INIT)
  else when ((delivery_mode =? APIC_DM_FIXED) || (delivery_mode =? APIC_DM_EXTINT))
    (foreach_apic deliver_bitmask (fun e => apic_set_irq e vector_num trigger_mode)).

Definition no_apics : list Z := replicate MAX_APIC_WORDS 0.
Definition all_apics : list Z := replicate MAX_APIC_WORDS (2 ^ 32 - 1).

(** The shortcut, then the search over the APICs in order. *)
Fixpoint find_dest_loop (apics : list APICState) (dest : Z) (i : nat) : Z :=
  match apics with
  | [] => -1
  | a :: apics' => if a_id a =? dest then Z.of_nat i else find_dest_loop apics' dest (S i)
  end.
Definition apic_find_dest (dest : Z) (b : board) : Z :=
  match bd_apics b !! Z.to_nat dest with
  | Some a => if a_id a =? dest then dest else find_dest_loop (take MAX_APICS (bd_apics b)) dest 0
  | None => find_dest_loop (take MAX_APICS (bd_apics b)) dest 0
  end.

(** An APIC in logical destination mode: flat or cluster. *)
Definition in_logical_dest (dest : Z) (a : APICState) : bool :=
  if a_dest_mode a =? 15 then c_true (Z.land dest (a_log_dest a))
  else if a_dest_mode a =? 0 then
    (Z.land dest 240 =? Z.land (a_log_dest a) 240) && c_true (Z.land (Z.land dest (a_log_dest a)) 15)
  else false.
Fixpoint logical_loop (apics : list APICState) (dest : Z) (i : nat) (bitmask : list Z) : list Z :=
  match apics with
  | [] => bitmask
  | a :: apics' =>
      logical_loop apics' dest (S i) (if in_logical_dest dest a then set_bit bitmask (Z.of_nat i) else bitmask)
  end.

Definition apic_get_delivery_bitmask (dest dest_mode : Z) (b : board) : list Z :=
  if dest_mode =? 0 then
    if dest =? 255 then all_apics
    else
      let idx := apic_find_dest dest b in
      if idx >=? 0 then set_bit no_apics idx else no_apics
  else logical_loop (take MAX_APICS (bd_apics b)) dest 0 no_apics.

Definition apic_deliver_irq (dest dest_mode delivery_mode vector_num : Z) (trigger_mode : bool) : LOOP unit :=
  b <- get ;;
  apic_bus_deliver (apic_get_delivery_bitmask dest dest_mode b) delivery_mode vector_num trigger_mode.

Definition apic_startup (e : nat) (vector_num : Z) : LOOP unit :=
  mod_apic e (set_a_sipi_vector vector_num) ;;; cpu_interrupt e CPU_INTERRUPT_SIPI.

(** An interprocessor interrupt of APIC [e]. *)
Definition apic_deliver (e : nat) (dest dest_mode delivery_mode vector_num : Z) (trigger_mode : bool) : LOOP unit :=
  b <- get ;;
  let icr0 := a_icr (bd_apic e b) !!! 0%nat in
  let dest_shorthand := Z.land (Z.shiftr icr0 18) 3 in
  let deliver_bitmask :=
    if dest_shorthand =? 0 then apic_get_delivery_bitmask dest dest_mode b
    else if dest_shorthand =? 1 then set_bit no_apics (Z.of_nat e)
    else if dest_shorthand =? 2 then all_apics
    else reset_bit all_apics (Z.of_nat e) in
  let trig_mode := Z.land (Z.shiftr icr0 15) 1 in
  let level := Z.land (Z.shiftr icr0 14) 1 in
  if (delivery_mode =? APIC_DM_INIT) && (level =? 0) && (trig_mode =? 1) then
    foreach_apic deliver_bitmask (fun i => mod_apic i (fun a => set_a_arb_id (a_id a) a))
  else if delivery_mode =? APIC_DM_SIPI then foreach_apic deliver_bitmask (fun i => apic_startup i vector_num)
  else apic_bus_deliver deliver_bitmask delivery_mode vector_num trigger_mode.

(** ** Base, task priority and reset *)

(** The feature bit of CPUID, which only the guest reads, is left out. *)
Definition cpu_set_apic_base (e : nat) (val : Z) : LOOP unit :=
  mod_apic e (fun a =>
    let a := set_a_apicbase (Z.lor (Z.land val 4294963200)
               (Z.land (a_apicbase a) (Z.lor MSR_IA32_APICBASE_BSP MSR_IA32_APICBASE_ENABLE))) a in
    if Z.land val MSR_IA32_APICBASE_ENABLE =? 0 then
      set_a_spurious_vec (Z.land (a_spurious_vec a) (Z.lnot APIC_SV_ENABLE))
        (set_a_apicbase (Z.land (a_apicbase a) (Z.lnot MSR_IA32_APICBASE_ENABLE)) a)
    else a).
Definition cpu_get_apic_base (e : nat) (b : board) : Z := a_apicbase (bd_apic e b).

Definition cpu_set_apic_tpr (e : nat) (val : Z) : LOOP unit :=
  mod_apic e (set_a_tpr (Z.shiftl (Z.land val 15) 4)) ;;; apic_update_irq e.
Definition cpu_get_apic_tpr (e : nat) (b : board) : Z := Z.shiftr (a_tpr (bd_apic e b)) 4.

(** [apic_init_reset] leaves the base, the identifiers and the start-up vector. *)
Definition init_reset (a : APICState) : APICState :=
  mk_apic (a_apicbase a) (a_id a) (a_arb_id a) 0 255 0 15 (replicate 8 0) (replicate 8 0)
    (replicate APIC_LVT_NB (2 ^ 16)) 0 (replicate 2 0) 0 0 0 0 0 (a_sipi_vector a) true.
Definition apic_init_reset (e : nat) : LOOP unit :=
  mod_apic e init_reset ;;; on_sch (mod_cpu e (set_cpu_apic_isr (replicate 8 0))).

Definition cpu_is_bsp (env : CPUState) : bool := cpu_index env =? 0.

Definition apic_reset (e : nat) : LOOP unit :=
  b <- get ;;
  let bsp := cpu_is_bsp (bd_cpu e b) in
  mod_apic e (set_a_apicbase (Z.lor (Z.lor 4276092928 (if bsp then MSR_IA32_APICBASE_BSP else 0)) MSR_IA32_APICBASE_ENABLE)) ;;;
  apic_init_reset e ;;;
  when bsp (mod_apic e (fun a => set_a_lvt (<[APIC_LVT_LINT0 := 1792]> (a_lvt a)) a)).

(** ** The timer *)

(** [int64_t] arithmetic; the division by the period is one of [uint64_t]. *)
Definition timer_ticks (a : APICState) (time : Z) : Z :=
  Z.shiftr (wrap64 (time - a_initial_count_load_time a)) (a_count_shift a).

Definition apic_get_current_count (now : Z) (a : APICState) : Z :=
  let d := timer_ticks a now in
  if has_flag (a_lvt a !!! APIC_LVT_TIMER) APIC_LVT_TIMER_PERIODIC then
    u32 (a_initial_count a - u64 d mod (a_initial_count a + 1))
  else if d >=? a_initial_count a then 0 else u32 (a_initial_count a - d).

(** When the timer expires next, if it is to. *)
Definition next_expiry (a : APICState) (current_time : Z) : option Z :=
  let d := timer_ticks a current_time in
  let expiry d := Some (wrap64 (a_initial_count_load_time a + wrap64 (Z.shiftl d (a_count_shift a)))) in
  if has_flag (a_lvt a !!! APIC_LVT_TIMER) APIC_LVT_MASKED then None
  else if has_flag (a_lvt a !!! APIC_LVT_TIMER) APIC_LVT_TIMER_PERIODIC then
    if a_initial_count a =? 0 then None
    else expiry (wrap64 (u64 (u64 (u64 d / (a_initial_count a + 1) + 1) * (a_initial_count a + 1))))
  else if d >=? a_initial_count a then None
  else expiry (a_initial_count a + 1).

Definition apic_timer_update (e : nat) (current_time : Z) : LOOP unit :=
  b <- get ;;
  match next_expiry (bd_apic e b) current_time with
  | Some next_time =>
      mod_chips (fun c => set_ch_timers (qemu_mod_timer_ns (ApicTimer e) next_time (ch_timers c)) c) ;;;
      mod_apic e (set_a_next_time next_time)
  | None => mod_chips (fun c => set_ch_timers (qemu_del_timer (ApicTimer e) (ch_timers c)) c)
  end.

Definition apic_timer (e : nat) : LOOP unit :=
  apic_local_deliver e APIC_LVT_TIMER ;;;
  b <- get ;;
  apic_timer_update e (a_next_time (bd_apic e b)).

(** ** Vectors and bits *)

Definition vector (v : Z) : Prop := 0 <= v < 256.

Lemma vector_word v : vector v -> (Z.to_nat (Z.shiftr v 5) < 8)%nat /\ 0 <= Z.land v 31 < 32 /\ v = 32 * Z.shiftr v 5 + Z.land v 31.
Proof.
  intros [H0 H1]. rewrite Z.shiftr_div_pow2 by lia. change 31 with (Z.ones 5). rewrite Z.land_ones by lia.
  change (2 ^ 5) with 32. pose proof (Z.mod_pos_bound v 32 ltac:(lia)). pose proof (Z.div_mod v 32 ltac:(lia)).
  assert (0 <= v / 32) by (apply Z.div_pos; lia). assert (v / 32 < 8) by (apply Z.div_lt_upper_bound; lia). lia.
Qed.

(** The word of a vector after a change of the word of another. *)
Lemma word_alter (tab : list Z) (f : Z -> Z) v v' :
  length tab = 8%nat -> vector v -> vector v' ->
  alter f (Z.to_nat (Z.shiftr v 5)) tab !!! Z.to_nat (Z.shiftr v' 5) =
  if decide (Z.shiftr v' 5 = Z.shiftr v 5) then f (tab !!! Z.to_nat (Z.shiftr v' 5)) else tab !!! Z.to_nat (Z.shiftr v' 5).
Proof.
  intros Hl Hv Hv'. destruct (vector_word v Hv) as (Hw&_). rewrite list_lookup_total_alter.
  destruct Hv, Hv'. assert (0 <= Z.shiftr v 5) by (by apply Z.shiftr_nonneg). assert (0 <= Z.shiftr v' 5) by (by apply Z.shiftr_nonneg).
  destruct (decide (Z.shiftr v' 5 = Z.shiftr v 5)) as [->|Hne]; [rewrite decide_True by (split; [done|lia]); done|].
  rewrite decide_False by (intros [? _]; lia). done.
Qed.

Lemma get_bit_set tab v v' :
  length tab = 8%nat -> vector v -> vector v' ->
  get_bit (set_bit tab v) v' = if decide (v' = v) then 1 else get_bit tab v'.
Proof.
  intros Hl Hv Hv'. unfold get_bit, set_bit, ski_set_bit. rewrite (word_alter tab _ v v') by done.
  destruct (vector_word v Hv) as (_&Hb&E). destruct (vector_word v' Hv') as (_&Hb'&E').
  destruct (decide (Z.shiftr v' 5 = Z.shiftr v 5)) as [Ew|Hw]; [|rewrite decide_False; [done|intros ->; done]].
  rewrite Z.lor_spec, Z.shiftl_1_l, Z.pow2_bits_eqb by lia. destruct (decide (v' = v)) as [->|Hne].
  - by rewrite Z.eqb_refl, orb_true_r.
  - rewrite (proj2 (Z.eqb_neq _ _)) by lia. by rewrite orb_false_r.
Qed.

Lemma get_bit_reset tab v v' :
  length tab = 8%nat -> vector v -> vector v' ->
  get_bit (reset_bit tab v) v' = if decide (v' = v) then 0 else get_bit tab v'.
Proof.
  intros Hl Hv Hv'. unfold get_bit, reset_bit. rewrite (word_alter tab _ v v') by done.
  destruct (vector_word v Hv) as (_&Hb&E). destruct (vector_word v' Hv') as (_&Hb'&E').
  destruct (decide (Z.shiftr v' 5 = Z.shiftr v 5)) as [Ew|Hw]; [|rewrite decide_False; [done|intros ->; done]].
  rewrite Z.land_spec, Z.lnot_spec, Z.shiftl_1_l, Z.pow2_bits_eqb by lia. destruct (decide (v' = v)) as [->|Hne].
  - by rewrite Z.eqb_refl, andb_false_r.
  - rewrite (proj2 (Z.eqb_neq _ _)) by lia. by rewrite andb_true_r.
Qed.

(** *** The highest vector *)

Definition reg_ok (tab : list Z) : Prop := length tab = 8%nat /\ Forall (fun w => 0 <= w < 2 ^ 32) tab.

Lemma get_bit_word (tab : list Z) (i : nat) (k : Z) :
  0 <= k < 32 -> get_bit tab (Z.of_nat i * 32 + k) = b2z (Z.testbit (tab !!! i) k).
Proof.
  intros Hk. unfold get_bit. rewrite Z.shiftr_div_pow2 by lia. change 31 with (Z.ones 5). rewrite Z.land_ones by lia.
  change (2 ^ 5) with 32. rewrite Z.div_add_l, Z.div_small, Z.add_0_r, Nat2Z.id by lia.
  rewrite Z.add_comm, Z.mod_add, Z.mod_small by lia. done.
Qed.

(** [r] is the highest vector below [n] in the register, -1 if there is none. *)
Definition is_highest (tab : list Z) (n r : Z) : Prop :=
  -1 <= r < n /\ (0 <= r -> get_bit tab r = 1) /\ (forall v, r < v < n -> 0 <= v -> get_bit tab v = 0).

Lemma highest_loop_spec tab i :
  reg_ok tab -> (i <= 8)%nat -> is_highest tab (32 * Z.of_nat i) (highest_loop tab i).
Proof.
  intros [Hl Hw]. induction i as [|i IH]; intros Hi; cbn [highest_loop]; [split_and!; lia|].
  specialize (IH ltac:(lia)). destruct (lookup_lt_is_Some_2 tab i ltac:(lia)) as [w Hwi].
  rewrite (list_lookup_total_correct _ _ _ Hwi). pose proof (Forall_lookup_1 _ _ _ _ Hw Hwi) as Hr. cbv beta in Hr.
  destruct (Z.eqb_spec w 0) as [->|Hne].
  - destruct IH as (H1&H2&H3). split_and!; [lia|lia|done|]. intros v Hv Hv0.
    destruct (decide (v < 32 * Z.of_nat i)) as [|Hge]; [apply H3; lia|].
    replace v with (Z.of_nat i * 32 + (v - 32 * Z.of_nat i)) by lia. rewrite get_bit_word by lia.
    rewrite (list_lookup_total_correct _ _ _ Hwi). by rewrite Z.testbit_0_l.
  - unfold fls_bit. assert (0 <= Z.log2 w < 32) as Hlog.
    { split; [apply Z.log2_nonneg|]. apply (proj1 (Z.log2_lt_pow2 w 32 ltac:(lia))). lia. }
    split_and!; [lia|lia| |].
    + intros _. rewrite get_bit_word by lia. rewrite (list_lookup_total_correct _ _ _ Hwi), Z.bit_log2 by lia. done.
    + intros v Hv Hv0. replace v with (Z.of_nat i * 32 + (v - 32 * Z.of_nat i)) by lia. rewrite get_bit_word by lia.
      rewrite (list_lookup_total_correct _ _ _ Hwi), Z.bits_above_log2 by lia. done.
Qed.

(** Outside a test the vector is the highest that is set. *)
Lemma get_highest_priority_int_spec tab : reg_ok tab -> is_highest tab 256 (get_highest_priority_int tab).
Proof. intros H. apply (highest_loop_spec tab 8 H). lia. Qed.

(** ** The scheduler chooses the vector *)

Section chosen.
Context (b : board) (e i : nat) (c : CPUState) (tc : thread_context) (v : Z).

(** The current thread is the interrupt thread of vector [v] on CPU [e], which is
    in the test. *)
Record int_thread_current : Prop := {
  it_cpu : m_cpus (bd_machine b) !! e = Some c;
  it_test : ski_apic_process_incoming_interrupts c = true;
  it_current : m_threads_current (bd_machine b) = Some i;
  it_thread : m_threads (bd_machine b) !! i = Some tc;
  it_is_int : tc_is_int tc = 1;
  it_cpu_no : tc_cpu_no tc = cpu_index c;
  it_vector : tc_int_no tc = v
}.
Context (H : int_thread_current) (Hv : 0 < v < 256).

Lemma it_cpu_at : bd_cpu e b = c.
Proof. unfold bd_cpu. apply list_lookup_total_correct, H. Qed.

Lemma next_int : ski_threads_find_next_runnable_int e (bd_machine b) = v.
Proof.
  unfold ski_threads_find_next_runnable_int. rewrite (it_current H), (list_lookup_total_correct _ _ _ (it_thread H)).
  rewrite (it_is_int H), (it_cpu_no H), (list_lookup_total_correct _ _ _ (it_cpu H)), Z.eqb_refl. apply H.
Qed.

(** Its vector is pending, whatever else is requested, unless the processor's
    priority masks it. *)
Lemma irq_pending_chosen :
  get_bit (irr_of e b) v = 1 ->
  ski_apic_irq_pending e b = Ret b (if masked v (apic_get_ppr e b) then -1 else v).
Proof.
  intros Hirr. unfold ski_apic_irq_pending, ski_apic_get_highest_priority_int.
  erewrite bind_Ret; [|erewrite bind_Ret by reflexivity; rewrite it_cpu_at, (it_test H), next_int;
    rewrite (proj2 (Z.geb_le _ _)) by lia; rewrite Hirr; reflexivity].
  rewrite (proj2 (Z.ltb_ge _ _)) by lia. done.
Qed.

(** Vector [v] has gone into service. *)
Definition in_service : board :=
  set_bd_machine (set_m_cpus (alter (fun c => set_cpu_apic_isr (set_bit (cpu_apic_isr c) v) c) e (m_cpus (bd_machine b))) (bd_machine b))
    (set_bd_apics (alter (fun a => set_a_irr (reset_bit (a_irr a) v) a) e (bd_apics b)) b).

Definition or_request (mask : Z) (b : board) : board :=
  set_bd_machine (set_m_cpus (alter (fun c => set_cpu_interrupt_request (Z.lor (cpu_interrupt_request c) mask) c) e
    (m_cpus (bd_machine b))) (bd_machine b)) b.

(** The PIC asks for nothing, or for an interrupt that [cpu_get_pic_interrupt] is
    to read from it. *)
Definition pic_plain (b : board) : Prop :=
  pic_get_output (ch_master (bd_chips b)) = false \/
  Z.land (Z.shiftr (a_lvt (bd_apic e b) !!! APIC_LVT_LINT0) 8) 7 = APIC_DM_EXTINT.

Lemma update_irq_cases b' :
  pic_plain b' -> apic_update_irq e b' = Ret b' tt \/ apic_update_irq e b' = Ret (or_request CPU_INTERRUPT_HARD b') tt.
Proof.
  intros Hp. unfold apic_update_irq. cbn [update_irq_at]. erewrite bind_Ret by reflexivity.
  destruct (has_flag _ _); cbn [negb]; [|by left]. destruct (_ >? 0); [by right|].
  destruct (apic_accept_pic_intr e b' && pic_get_output (ch_master (bd_chips b'))) eqn:Ea; cbn [when]; [|by left].
  apply andb_prop in Ea as [_ Ho]. destruct Hp as [Hp|Hp]; [congruence|].
  unfold local_deliver_with. erewrite bind_Ret by reflexivity. rewrite Hp.
  destruct (negb _); [by left|]. by right.
Qed.

Lemma in_service_lvt : a_lvt (bd_apic e in_service) = a_lvt (bd_apic e b).
Proof. unfold bd_apic. cbn -[alter]. rewrite list_lookup_total_alter. by case_decide. Qed.

Lemma in_service_plain : pic_plain b -> pic_plain in_service.
Proof. unfold pic_plain. by rewrite in_service_lvt. Qed.

Lemma get_interrupt_chosen :
  pic_plain b -> get_bit (irr_of e b) v = 1 -> masked v (apic_get_ppr e b) = false ->
  has_flag (a_spurious_vec (bd_apic e b)) APIC_SV_ENABLE = true ->
  ski_apic_get_interrupt e b = Ret in_service v \/
  ski_apic_get_interrupt e b = Ret (or_request CPU_INTERRUPT_HARD in_service) v.
Proof.
  intros Hp Hirr Hm Hen. unfold ski_apic_get_interrupt. erewrite bind_Ret by reflexivity. rewrite Hen. cbn [negb].
  erewrite bind_Ret by (by apply irq_pending_chosen). rewrite Hm. unfold accept_interrupt.
  rewrite (proj2 (Z.eqb_neq v 0)), (proj2 (Z.ltb_ge v 0)) by lia. erewrite bind_Ret by reflexivity.
  erewrite bind_Ret by reflexivity. change (set_bd_ins _ _) with in_service.
  destruct (update_irq_cases in_service (in_service_plain Hp)) as [E|E]; [left|right]; by rewrite (bind_Ret _ _ _ _ _ E).
Qed.
End chosen.
