(* ===== verification/Chips.v ===== *)
(** * Chips.v -- the interrupt controllers together

    Models how the controllers of the board are connected and what the guest
    does with their registers: the two 8259 controllers of [vmm/hw/i8259.c] (the
    slave's output is line 2 of the master, the master's output goes to the local
    APICs through [pic_irq_request] of [vmm/hw/pc.c]), the IO-APIC of
    [vmm/hw/ioapic.c] (its entries become messages to the local APICs), the
    registers of the local APICs ([vmm/hw/apic.c]), and the ends of both:
    [gsi_handler], where a device raises a line, and [cpu_get_pic_interrupt], where
    a CPU asks for the vector to take.

    Every CPU has a local APIC ([env->apic_state] is never null), and a guest's
    access to its registers is made by a CPU ([cpu_single_env] is set). *)

From S2P Require Import Prelude Liveness LoopTrace Machine Sched Interrupts RaceDetector Stats InstructionDetector Instrument Timers Pic Board Apic.

Definition IOAPIC_LVT_MASKED : Z := 65536.
Definition IOAPIC_LVT_REMOTE_IRR : Z := 16384.
Definition IOAPIC_LVT_POLARITY : Z := 8192.
Definition IOAPIC_DM_EXTINT : Z := 7.
Definition IOAPIC_IOREGSEL : Z := 0.
Definition IOAPIC_IOWIN : Z := 16.
Definition IOAPIC_REG_ID : Z := 0.
Definition IOAPIC_REG_VER : Z := 1.
Definition IOAPIC_REG_ARB : Z := 2.
Definition IOAPIC_REG_REDTBL_BASE : Z := 16.
Definition IOAPIC_VERSION : Z := 17.
Definition ISA_NUM_IRQS : Z := 16.

(** ** The 8259 controllers *)

Inductive which_pic := Master | Slave.
Definition pic_of (w : which_pic) (b : board) : PicState :=
  match w with Master => ch_master (bd_chips b) | Slave => ch_slave (bd_chips b) end.
Definition mod_pic (w : which_pic) (f : PicState -> PicState) : LOOP unit :=
  mod_chips (fun c => match w with Master => set_ch_master (f (ch_master c)) c | Slave => set_ch_slave (f (ch_slave c)) c end).

(** The master's output, at every CPU. *)
Definition pic_irq_request (level : bool) : LOOP unit :=
  b <- get ;;
  for_each (seq 0 (length (m_cpus (bd_machine b)))) (fun e =>
    b <- get ;; when (apic_accept_pic_intr e b) (apic_deliver_pic_intr e level)).

(** [pic_update_irq] of the master, and [pic_set_irq] of its lines. *)
Definition update_master : LOOP unit := b <- get ;; pic_irq_request (pic_get_irq (pic_of Master b) >=? 0).
Definition set_irq_master (irq : Z) (level : bool) : LOOP unit := mod_pic Master (line_set irq level) ;;; update_master.

Definition pic_update_irq (w : which_pic) : LOOP unit :=
  match w with
  | Master => update_master
  | Slave => b <- get ;; set_irq_master 2 (pic_get_irq (pic_of Slave b) >=? 0)
  end.
Definition pic_set_irq (w : which_pic) (irq : Z) (level : bool) : LOOP unit :=
  mod_pic w (line_set irq level) ;;; pic_update_irq w.
Definition pic_intack (w : which_pic) (irq : Z) : LOOP unit := mod_pic w (acknowledged irq) ;;; pic_update_irq w.

(** On the master; the slave answers for line 2. *)
Definition pic_read_irq : LOOP Z :=
  b <- get ;;
  let irq := pic_get_irq (pic_of Master b) in
  if irq >=? 0 then
    intno <- (if irq =? 2 then
                let irq2 := pic_get_irq (pic_of Slave b) in
                irq2 <- (if irq2 >=? 0 then pic_intack Slave irq2 ;;; ret irq2 else ret 7) ;;
                b <- get ;;
                ret (p_irq_base (pic_of Slave b) + irq2)
              else ret (p_irq_base (pic_of Master b) + irq)) ;;
    pic_intack Master irq ;;;
    ret intno
  else ret (p_irq_base (pic_of Master b) + 7).

Definition pic_init_reset (w : which_pic) : LOOP unit := mod_pic w registers_reset ;;; pic_update_irq w.
Definition pic_reset (w : which_pic) : LOOP unit := pic_init_reset w ;;; mod_pic w (set_p_elcr 0).

(** The commands of port 0. *)
Definition pic_command (w : which_pic) (val : Z) : LOOP unit :=
  let cmd := Z.shiftr val 5 in
  if (cmd =? 0) || (cmd =? 4) then mod_pic w (set_p_rotate_on_auto_eoi (Z.shiftr cmd 2))
  else if (cmd =? 1) || (cmd =? 5) then
    b <- get ;;
    let s := pic_of w b in
    let priority := get_priority s (p_isr s) in
    when (negb (priority =? 8))
      (let irq := Z.land (priority + p_priority_add s) 7 in
       mod_pic w (fun s => set_p_isr (Z.land (p_isr s) (Z.lnot (bit irq))) s) ;;;
       when (cmd =? 5) (mod_pic w (set_p_priority_add (Z.land (irq + 1) 7))) ;;;
       pic_update_irq w)
  else if cmd =? 3 then
    mod_pic w (fun s => set_p_isr (Z.land (p_isr s) (Z.lnot (bit (Z.land val 7)))) s) ;;; pic_update_irq w
  else if cmd =? 6 then mod_pic w (set_p_priority_add (Z.land (val + 1) 7)) ;;; pic_update_irq w
  else if cmd =? 7 then
    mod_pic w (fun s => set_p_priority_add (Z.land (Z.land val 7 + 1) 7)
                          (set_p_isr (Z.land (p_isr s) (Z.lnot (bit (Z.land val 7)))) s)) ;;;
    pic_update_irq w
  else ret tt.

(** Port 1 in the states of the initialisation. *)
Definition init_command (val : Z) (s : PicState) : PicState :=
  if p_init_state s =? 1 then
    set_p_init_state (if c_true (p_single_mode s) then if c_true (p_init4 s) then 3 else 0 else 2)
      (set_p_irq_base (Z.land val 248) s)
  else if p_init_state s =? 2 then set_p_init_state (if c_true (p_init4 s) then 3 else 0) s
  else if p_init_state s =? 3 then
    set_p_init_state 0 (set_p_auto_eoi (Z.land (Z.shiftr val 1) 1)
      (set_p_special_fully_nested_mode (Z.land (Z.shiftr val 4) 1) s))
  else s.

(** [hw_error] aborts the process. *)
Definition pic_ioport_write (w : which_pic) (addr val : Z) : LOOP unit :=
  if addr =? 0 then
    if has_flag val 16 then
      pic_init_reset w ;;;
      mod_pic w (fun s => set_p_single_mode (Z.land val 2) (set_p_init4 (Z.land val 1) (set_p_init_state 1 s))) ;;;
      when (has_flag val 8) (stop HAssert)
    else if has_flag val 8 then
      when (has_flag val 4) (mod_pic w (set_p_poll 1)) ;;;
      when (has_flag val 2) (mod_pic w (set_p_read_reg_select (Z.land val 1))) ;;;
      when (has_flag val 64) (mod_pic w (set_p_special_mask (Z.land (Z.shiftr val 5) 1)))
    else pic_command w val
  else
    b <- get ;;
    if p_init_state (pic_of w b) =? 0 then mod_pic w (set_p_imr (Z.land val 255)) ;;; pic_update_irq w
    else mod_pic w (init_command val).

Definition pic_ioport_read (w : which_pic) (addr : Z) : LOOP Z :=
  b <- get ;;
  let s := pic_of w b in
  if c_true (p_poll s) then
    let irq := pic_get_irq s in
    v <- (if irq >=? 0 then pic_intack w irq ;;; ret (Z.lor irq 128) else ret 0) ;;
    mod_pic w (set_p_poll 0) ;;;
    ret v
  else
    ret (if addr =? 0 then if c_true (p_read_reg_select s) then p_isr s else p_irr s else p_imr s).

Definition elcr_ioport_write (w : which_pic) (val : Z) : LOOP unit :=
  mod_pic w (fun s => set_p_elcr (Z.land val (p_elcr_mask s)) s).
Definition elcr_ioport_read (w : which_pic) (b : board) : Z := p_elcr (pic_of w b).

(** ** The IO-APIC *)

Definition ioapic_of (b : board) : IOAPICState := ch_ioapic (bd_chips b).

(** The body of the loop of [ioapic_service], for pin [i]. *)
Definition service_pin (i : nat) : LOOP unit :=
  b <- get ;;
  let mask := bit (Z.of_nat i) in
  if Z.land (io_irr (ioapic_of b)) mask =? 0 then ret tt
  else
    let entry := io_ioredtbl (ioapic_of b) !!! i in
    if negb (Z.land entry IOAPIC_LVT_MASKED =? 0) then ret tt
    else
      let trig_mode := Z.land (Z.shiftr entry 15) 1 in
      let dest := Z.land (Z.shiftr entry 56) 255 in
      let dest_mode := Z.land (Z.shiftr entry 11) 1 in
      let delivery_mode := Z.land (Z.shiftr entry 8) 7 in
      mod_ioapic (fun s =>
        if trig_mode =? 0 then set_io_irr (Z.land (io_irr s) (Z.lnot mask)) s
        else set_io_ioredtbl (alter (fun e => Z.lor e IOAPIC_LVT_REMOTE_IRR) i (io_ioredtbl s)) s) ;;;
      vector <- (if delivery_mode =? IOAPIC_DM_EXTINT then v <- pic_read_irq ;; ret (Z.land v 255)
                 else ret (Z.land entry 255)) ;;
      apic_deliver_irq dest dest_mode delivery_mode vector (c_true trig_mode).
Definition ioapic_service : LOOP unit := for_each (seq 0 IOAPIC_NUM_PINS) service_pin.

Definition ioapic_set_irq (vector : Z) (level : bool) : LOOP unit :=
  let vector := if vector =? 0 then 2 else vector in
  when ((vector >=? 0) && (vector <? Z.of_nat IOAPIC_NUM_PINS))
    (b <- get ;;
     let mask := bit vector in
     let entry := io_ioredtbl (ioapic_of b) !!! Z.to_nat vector in
     let level := if negb (Z.land entry IOAPIC_LVT_POLARITY =? 0) then negb level else level in
     if Z.land (Z.shiftr entry 15) 1 =? 1 then
       if level then mod_ioapic (fun s => set_io_irr (Z.lor (io_irr s) mask) s) ;;; ioapic_service
       else mod_ioapic (fun s => set_io_irr (Z.land (io_irr s) (Z.lnot mask)) s)
     else
       when (level && (Z.land entry IOAPIC_LVT_MASKED =? 0))
         (mod_ioapic (fun s => set_io_irr (Z.lor (io_irr s) mask) s) ;;; ioapic_service)).

Definition ioapic_eoi_broadcast (vector : Z) : LOOP unit :=
  for_each (seq 0 IOAPIC_NUM_PINS) (fun n =>
    b <- get ;;
    let entry := io_ioredtbl (ioapic_of b) !!! n in
    when (negb (Z.land entry IOAPIC_LVT_REMOTE_IRR =? 0) && (Z.land entry 255 =? vector))
      (mod_ioapic (fun s => set_io_ioredtbl (<[n := Z.land entry (Z.lnot IOAPIC_LVT_REMOTE_IRR)]> (io_ioredtbl s)) s) ;;;
       when ((Z.land entry IOAPIC_LVT_MASKED =? 0) && negb (Z.land (io_irr (ioapic_of b)) (bit (Z.of_nat n)) =? 0))
         ioapic_service)).

(** The entry of the table that the selected register is a half of. *)
Definition redtbl_index (s : IOAPICState) : option nat :=
  let index := Z.shiftr (io_ioregsel s - IOAPIC_REG_REDTBL_BASE) 1 in
  if (index >=? 0) && (index <? Z.of_nat IOAPIC_NUM_PINS) then Some (Z.to_nat index) else None.

Definition ioapic_mem_readl (addr : Z) (s : IOAPICState) : Z :=
  if Z.land addr 255 =? IOAPIC_IOREGSEL then io_ioregsel s
  else if Z.land addr 255 =? IOAPIC_IOWIN then
    if io_ioregsel s =? IOAPIC_REG_ID then u32 (Z.shiftl (io_id s) 24)
    else if io_ioregsel s =? IOAPIC_REG_VER then Z.lor IOAPIC_VERSION (Z.shiftl (Z.of_nat IOAPIC_NUM_PINS - 1) 16)
    else if io_ioregsel s =? IOAPIC_REG_ARB then 0
    else match redtbl_index s with
         | Some i => if has_flag (io_ioregsel s) 1 then u32 (Z.shiftr (io_ioredtbl s !!! i) 32)
                     else Z.land (io_ioredtbl s !!! i) (2 ^ 32 - 1)
         | None => 0
         end
  else 0.

Definition write_half (high : bool) (val entry : Z) : Z :=
  if high then Z.lor (Z.land entry (2 ^ 32 - 1)) (Z.shiftl val 32)
  else Z.lor (Z.land entry (u64 (Z.lnot (2 ^ 32 - 1)))) val.

Definition ioapic_mem_writel (addr val : Z) : LOOP unit :=
  b <- get ;;
  let s := ioapic_of b in
  if Z.land addr 255 =? IOAPIC_IOREGSEL then mod_ioapic (set_io_ioregsel (Z.land val 255))
  else when (Z.land addr 255 =? IOAPIC_IOWIN)
    (if io_ioregsel s =? IOAPIC_REG_ID then mod_ioapic (set_io_id (Z.land (Z.shiftr val 24) 15))
     else if (io_ioregsel s =? IOAPIC_REG_VER) || (io_ioregsel s =? IOAPIC_REG_ARB) then ret tt
     else match redtbl_index s with
          | Some i =>
              mod_ioapic (fun s => set_io_ioredtbl
                (alter (write_half (has_flag (io_ioregsel s) 1) val) i (io_ioredtbl s)) s) ;;;
              ioapic_service
          | None => ret tt
          end).

Definition ioapic_reset : LOOP unit := mod_ioapic (fun _ => mk_ioapic 0 0 0 (replicate IOAPIC_NUM_PINS (2 ^ 16))).

(** ** A device raises or lowers a line *)

Definition gsi_handler (n : Z) (level : bool) : LOOP unit :=
  when (n <? ISA_NUM_IRQS) (if n <? 8 then pic_set_irq Master n level else pic_set_irq Slave (n - 8) level) ;;;
  ioapic_set_irq n level.

(** ** The registers of the local APIC *)

Definition apic_eoi (e : nat) : LOOP unit :=
  isrv <- ski_apic_get_highest_priority_int (isr_of e) e ;;
  if isrv <? 0 then ret tt
  else
    on_sch (mod_cpu e (fun c => set_cpu_apic_isr (reset_bit (cpu_apic_isr c) isrv) c)) ;;;
    b <- get ;;
    when (negb (has_flag (a_spurious_vec (bd_apic e b)) APIC_SV_DIRECTED_IO) &&
          c_true (get_bit (a_tmr (bd_apic e b)) isrv)) (ioapic_eoi_broadcast isrv) ;;;
    apic_update_irq e.

Definition within (index first last : Z) : bool := (first <=? index) && (index <=? last).

(** The value of a register; [None] is an illegal one. *)
Definition apic_register (e : nat) (index : Z) (b : board) : option Z :=
  let s := bd_apic e b in
  let word l := Some (l !!! Z.to_nat (Z.land index 7)) in
  if index =? 2 then Some (u32 (Z.shiftl (a_id s) 24))
  else if index =? 3 then Some (Z.lor 17 (Z.shiftl (Z.of_nat APIC_LVT_NB - 1) 16))
  else if index =? 8 then Some (a_tpr s)
  else if index =? 9 then Some 0
  else if index =? 10 then Some (u32 (apic_get_ppr e b))
  else if index =? 11 then Some 0
  else if index =? 13 then Some (u32 (Z.shiftl (a_log_dest s) 24))
  else if index =? 14 then Some (u32 (Z.shiftl (a_dest_mode s) 28))
  else if index =? 15 then Some (a_spurious_vec s)
  else if within index 16 23 then word (isr_of e b)
  else if within index 24 31 then word (a_tmr s)
  else if within index 32 39 then word (a_irr s)
  else if index =? 40 then Some (a_esr s)
  else if within index 48 49 then Some (a_icr s !!! Z.to_nat (Z.land index 1))
  else if within index 50 55 then Some (a_lvt s !!! Z.to_nat (index - 50))
  else if index =? 56 then Some (a_initial_count s)
  else if index =? 57 then Some (apic_get_current_count (bd_now b) s)
  else if index =? 62 then Some (a_divide_conf s)
  else None.

Definition illegal_address (e : nat) : LOOP unit :=
  mod_apic e (fun a => set_a_esr (Z.lor (a_esr a) ESR_ILLEGAL_ADDRESS) a).

Definition apic_mem_readl (e : nat) (addr : Z) : LOOP Z :=
  b <- get ;;
  match apic_register e (Z.land (Z.shiftr addr 4) 255) b with
  | Some val => ret val
  | None => illegal_address e ;;; ret 0
  end.

Definition apic_send_msi (addr data : Z) : LOOP unit :=
  let dest := Z.land (Z.shiftr (Z.land addr 1048560) 12) 255 in
  let vector := Z.land data 255 in
  let dest_mode := Z.land (Z.shiftr addr 2) 1 in
  let trigger_mode := Z.land (Z.shiftr data 15) 1 in
  let delivery := Z.land (Z.shiftr data 8) 7 in
  apic_deliver_irq dest dest_mode delivery vector (c_true trigger_mode).

Definition write_lvt (n : nat) (val : Z) (a : APICState) : APICState := set_a_lvt (<[n := val]> (a_lvt a)) a.
Definition write_icr (n : nat) (val : Z) (a : APICState) : APICState := set_a_icr (<[n := val]> (a_icr a)) a.
Definition write_divide_conf (val : Z) (a : APICState) : APICState :=
  let divide_conf := Z.land val 11 in
  let v := Z.lor (Z.land divide_conf 3) (Z.land (Z.shiftr divide_conf 1) 4) in
  set_a_count_shift (Z.land (v + 1) 7) (set_a_divide_conf divide_conf a).

(** The write of the command register sends the interrupt. *)
Definition write_command (e : nat) (val : Z) : LOOP unit :=
  mod_apic e (write_icr 0 val) ;;;
  b <- get ;;
  let icr1 := a_icr (bd_apic e b) !!! 1%nat in
  apic_deliver e (Z.land (Z.shiftr icr1 24) 255) (Z.land (Z.shiftr val 11) 1) (Z.land (Z.shiftr val 8) 7)
    (Z.land val 255) (c_true (Z.land (Z.shiftr val 15) 1)).

Definition apic_mem_writel (e : nat) (addr val : Z) : LOOP unit :=
  let index := Z.land (Z.shiftr addr 4) 255 in
  if (addr >? 4095) || (index =? 0) then apic_send_msi addr val
  else
    b <- get ;;
    let now := bd_now b in
    if index =? 2 then mod_apic e (set_a_id (Z.shiftr val 24))
    else if index =? 3 then ret tt
    else if index =? 8 then mod_apic e (set_a_tpr (Z.land val 255)) ;;; apic_update_irq e
    else if within index 9 10 then ret tt
    else if index =? 11 then apic_eoi e
    else if index =? 13 then mod_apic e (set_a_log_dest (Z.shiftr val 24))
    else if index =? 14 then mod_apic e (set_a_dest_mode (Z.shiftr val 28))
    else if index =? 15 then mod_apic e (set_a_spurious_vec (Z.land val 511)) ;;; apic_update_irq e
    else if within index 16 40 then ret tt
    else if index =? 48 then write_command e val
    else if index =? 49 then mod_apic e (write_icr 1 val)
    else if within index 50 55 then
      mod_apic e (write_lvt (Z.to_nat (index - 50)) val) ;;;
      when (index =? 50) (apic_timer_update e now)
    else if index =? 56 then
      mod_apic e (fun a => set_a_initial_count_load_time now (set_a_initial_count val a)) ;;;
      apic_timer_update e now
    else if index =? 57 then ret tt
    else if index =? 62 then mod_apic e (write_divide_conf val)
    else illegal_address e.

(** ** The vector a CPU takes *)

Definition cpu_get_pic_interrupt (e : nat) : LOOP Z :=
  b <- get ;;
  intno <- (if cpu_ski_active (bd_cpu e b) then ski_apic_get_interrupt e else original_apic_get_interrupt e) ;;
  if intno >=? 0 then ret intno
  else
    b <- get ;;
    if negb (apic_accept_pic_intr e b) then ret (-1) else pic_read_irq.

(** ** Start of the processors, and expired timers *)

Section cpu.
(** Resetting the registers of a CPU ([cpu_reset]), loading its code segment for a
    start-up interrupt, and the timers of other devices. *)
Context (cpu_reset : nat -> LOOP unit) (load_seg_cache_sipi : nat -> Z -> LOOP unit) (device_timer : nat -> LOOP unit).

Definition set_halted (e : nat) (v : bool) : LOOP unit := modify (fun b => set_bd_halted (<[e := v]> (bd_halted b)) b).

Definition do_cpu_init (e : nat) : LOOP unit :=
  b <- get ;;
  let sipi := Z.land (cpu_interrupt_request (bd_cpu e b)) CPU_INTERRUPT_SIPI in
  cpu_reset e ;;;
  on_sch (mod_cpu e (set_cpu_interrupt_request sipi)) ;;;
  apic_init_reset e ;;;
  b <- get ;;
  set_halted e (negb (cpu_is_bsp (bd_cpu e b))).

Definition do_cpu_sipi (e : nat) : LOOP unit :=
  cpu_reset_interrupt e CPU_INTERRUPT_SIPI ;;;
  b <- get ;;
  when (a_wait_for_sipi (bd_apic e b))
    (on_sch (mod_cpu e (set_cpu_eip 0)) ;;;
     load_seg_cache_sipi e (a_sipi_vector (bd_apic e b)) ;;;
     set_halted e false ;;;
     mod_apic e (set_a_wait_for_sipi false)).

Definition timer_callback (t : timer_id) : LOOP unit :=
  match t with ApicTimer e => apic_timer e | DeviceTimer n => device_timer n end.
Definition bd_timers (b : board) : list (timer_id * Z) := ch_timers (bd_chips b).
Definition set_bd_timers (l : list (timer_id * Z)) (b : board) : board := set_bd_chips (set_ch_timers l (bd_chips b)) b.

(** [qemu_run_timers(vm_clock)]. *)
Definition run_vm_timers (fuel : nat) : LOOP unit :=
  b <- get ;; qemu_run_timers bd_timers set_bd_timers timer_callback fuel (bd_now b).
End cpu.
