(* ===== verification/Delivery.v ===== *)
(** * Delivery.v -- an interrupt message reaches its CPUs and their threads

    Follows a message on the bus between the APICs ([apic_deliver_irq] of
    [vmm/hw/apic.c], the way of every device interrupt and interprocessor
    interrupt) to its end: the vector is requested at the APICs it is addressed
    to, their CPUs are told, and the scheduler spawns the interrupt threads that
    wait for the vector on these CPUs. *)

From S2P Require Import Prelude Preserving Liveness LoopTrace Machine Sched Interrupts RaceDetector Stats InstructionDetector Instrument Timers Pic Board Apic Chips.

(** ** The bus *)

Definition apic_regs (a : APICState) : Prop := reg_ok (a_irr a) /\ length (a_tmr a) = 8%nat.

(** The thread table is well-formed, every CPU has its APIC and a number of its
    own, and the PIC needs no vector of the APICs. *)
Record bus_ok (b : board) : Prop := {
  bus_table : table_ok (bd_machine b);
  bus_length : length (bd_apics b) = length (m_cpus (bd_machine b));
  bus_max : (length (bd_apics b) <= MAX_APICS)%nat;
  bus_numbers : NoDup (cpu_index <$> m_cpus (bd_machine b));
  bus_regs : Forall apic_regs (bd_apics b);
  bus_pic e : pic_plain e b
}.

(** The APIC after a request. *)
Definition with_request (v : Z) (trig : bool) (a : APICState) : APICState :=
  set_a_tmr (if trig then set_bit (a_tmr a) v else reset_bit (a_tmr a) v) (set_a_irr (set_bit (a_irr a) v) a).

(** A CPU whose requests have grown. *)
Definition asked (c c' : CPUState) : Prop :=
  exists r, c' = set_cpu_interrupt_request r c /\
    (has_flag (cpu_interrupt_request c) CPU_INTERRUPT_HARD = true -> has_flag r CPU_INTERRUPT_HARD = true).

#[export] Instance asked_preorder : PreOrder asked.
Proof.
  split.
  - intros c. exists (cpu_interrupt_request c). by destruct c.
  - intros c1 c2 c3 (r&->&H1) (r'&->&H2). exists r'. split; [done|]. auto.
Qed.

(** Vector [v] is above the priority of the processor, and its APIC is enabled. *)
Definition takes_vector (e : nat) (v : Z) (b : board) : Prop :=
  0 < v /\ has_flag (a_spurious_vec (bd_apic e b)) APIC_SV_ENABLE = true /\ masked v (apic_get_ppr e b) = false.

#[export] Instance takes_vector_dec e v b : Decision (takes_vector e v b).
Proof. unfold takes_vector. apply _. Defined.

(** Thread [i] waits for [v] on one of the CPUs and is the one to be spawned there. *)
Definition picked (b : board) (ts : list nat) (v : Z) (i : nat) (tc : thread_context) : Prop :=
  exists e c, e ∈ ts /\ m_cpus (bd_machine b) !! e = Some c /\ cpu_ski_active c = true /\
    selected (idle (cpu_index c) v) int_priority (live_threads (bd_machine b)) i tc.

Record delivered (b b' : board) (ts : list nat) (v : Z) (trig : bool) : Prop := {
  dv_ok : bus_ok b';
  dv_apics e : bd_apics b' !! e = (if decide (e ∈ ts) then with_request v trig else id) <$> (bd_apics b !! e);
  dv_chips : bd_chips b' = bd_chips b;
  dv_cpus : Forall2 asked (m_cpus (bd_machine b)) (m_cpus (bd_machine b'));
  dv_hard e : e ∈ ts -> (e < length (bd_apics b))%nat -> takes_vector e v b ->
    has_flag (cpu_interrupt_request (bd_cpu e b')) CPU_INTERRUPT_HARD = true;
  dv_length : length (live_threads (bd_machine b')) = length (live_threads (bd_machine b));
  dv_threads i tc : live_threads (bd_machine b) !! i = Some tc ->
    picked b ts v i tc /\ live_threads (bd_machine b') !! i = Some (spawn tc) \/
    ~ picked b ts v i tc /\ live_threads (bd_machine b') !! i = Some tc
}.

(** ** Bits of the registers *)

Lemma reg_ok_alter tab f i :
  reg_ok tab -> (forall w, 0 <= w < 2 ^ 32 -> 0 <= f w < 2 ^ 32) -> reg_ok (alter f i tab).
Proof. intros [Hl Hw] Hf. split; [by rewrite length_alter|]. apply Forall_alter; [done|]. auto. Qed.

Lemma lor_range n a b : 0 <= n -> 0 <= a < 2 ^ n -> 0 <= b < 2 ^ n -> 0 <= Z.lor a b < 2 ^ n.
Proof.
  intros Hn Ha Hb. split; [apply Z.lor_nonneg; lia|]. destruct (decide (Z.lor a b = 0)) as [->|Hne]; [lia|].
  apply Z.log2_lt_pow2; [pose proof (proj2 (Z.lor_nonneg a b) ltac:(lia)); lia|]. rewrite Z.log2_lor by lia.
  apply Z.max_lub_lt.
  - destruct (decide (a = 0)) as [->|]; [|apply Z.log2_lt_pow2; lia]. cbn.
    destruct (decide (n = 0)) as [->|]; [|lia]. exfalso. apply Hne. assert (b = 0) as -> by lia. done.
  - destruct (decide (b = 0)) as [->|]; [|apply Z.log2_lt_pow2; lia]. cbn.
    destruct (decide (n = 0)) as [->|]; [|lia]. exfalso. apply Hne. assert (a = 0) as -> by lia. done.
Qed.

Lemma land_range a b n : 0 <= a < n -> 0 <= Z.land a b < n.
Proof.
  intros Ha. assert (Z.ldiff (Z.land a b) a = 0) as E; [|pose proof (Z.ldiff_le (Z.land a b) a ltac:(lia) E); lia].
  apply Z.bits_inj'. intros i Hi. rewrite Z.ldiff_spec, Z.land_spec, Z.testbit_0_l.
  by destruct (Z.testbit a i), (Z.testbit b i).
Qed.

Lemma bit_word v : 0 <= Z.shiftl 1 (Z.land v 31) < 2 ^ 32.
Proof.
  rewrite Z.shiftl_1_l. change 31 with (Z.ones 5). rewrite Z.land_ones by lia.
  pose proof (Z.mod_pos_bound v (2 ^ 5) ltac:(lia)). split; [apply Z.pow_nonneg; lia|apply Z.pow_lt_mono_r; lia].
Qed.

Lemma reg_ok_set tab v : reg_ok tab -> reg_ok (set_bit tab v).
Proof. intros H. apply reg_ok_alter; [done|]. intros w Hw. apply lor_range; [lia|done|apply bit_word]. Qed.

Lemma reg_ok_reset tab v : reg_ok tab -> reg_ok (reset_bit tab v).
Proof. intros H. apply reg_ok_alter; [done|]. intros w Hw. by apply land_range. Qed.

Lemma with_request_regs v trig a : apic_regs a -> apic_regs (with_request v trig a).
Proof.
  intros [Hi Ht]. split; [by apply reg_ok_set|]. cbn. destruct trig; unfold set_bit, ski_set_bit, reset_bit; by rewrite length_alter.
Qed.

(** ** One request *)

Lemma high_bits : Forall (fun x => Z.land x 240 = 16 * (x / 16)) (seqZ 0 256).
Proof. apply (bool_decide_unpack _). by vm_compute. Qed.

Lemma land_high x : 0 <= x < 256 -> Z.land x 240 = 16 * (x / 16).
Proof. intros Hx. apply (proj1 (Forall_forall _ _) high_bits x), elem_of_seqZ. lia. Qed.

Lemma masked_mono v w p : 0 <= v <= w -> w < 256 -> masked v p = false -> masked w p = false.
Proof.
  intros Hv Hw. unfold masked. destruct (c_true p); [cbn [andb]|done]. rewrite !Z.leb_gt, (land_high v), (land_high w) by lia.
  pose proof (Z.div_le_mono v w 16 ltac:(lia) ltac:(lia)). lia.
Qed.

Section request.
Context (e : nat) (v : Z) (trig : bool).

(** The board after the registers have changed. *)
Definition with_irr (b : board) : board :=
  set_bd_apics (alter (with_request v trig) e (bd_apics b))
    (set_bd_irq_delivered (wrap32 (bd_irq_delivered b + (1 - get_bit (irr_of e b) v))) b).

Lemma set_irq_eq u b : set_irq_with u e v trig b = (u e ;;; on_sch (ski_handle_new_irq_set e v)) (with_irr b).
Proof.
  unfold set_irq_with. do 3 erewrite bind_Ret by reflexivity. f_equal.
  unfold with_irr. cbn -[alter]. by rewrite alter_alter.
Qed.

Lemma with_irr_apic b e' :
  bd_apics (with_irr b) !! e' = (if decide (e' ∈ [e]) then with_request v trig else id) <$> (bd_apics b !! e').
Proof.
  cbn -[alter]. destruct (decide (e' ∈ [e])) as [->%list_elem_of_singleton|Hn]; [by rewrite list_lookup_alter_eq|].
  rewrite list_lookup_alter_ne by set_solver. by destruct (bd_apics b !! e').
Qed.

Lemma with_irr_lvt b e' : a_lvt (bd_apic e' (with_irr b)) = a_lvt (bd_apic e' b).
Proof.
  unfold bd_apic. rewrite !list_lookup_total_alt, with_irr_apic. destruct (bd_apics b !! e'); [|done]. cbn.
  by destruct (decide _).
Qed.

Lemma with_irr_pending b a :
  vector v -> bus_ok b -> bd_apics b !! e = Some a -> takes_vector e v b -> (apic_irq_pending e (with_irr b) >? 0) = true.
Proof.
  intros Hv Hok Ha (Hpos&_&Hm). pose proof (Forall_lookup_1 _ _ _ _ (bus_regs _ Hok) Ha) as [Hr _].
  assert (irr_of e (with_irr b) = set_bit (a_irr a) v) as Ei.
  { unfold irr_of, bd_apic. rewrite list_lookup_total_alt, with_irr_apic, Ha, decide_True by set_solver. done. }
  assert (apic_get_ppr e (with_irr b) = apic_get_ppr e b) as Ep.
  { unfold apic_get_ppr, bd_apic. rewrite !list_lookup_total_alt, with_irr_apic, Ha, decide_True by set_solver. done. }
  unfold apic_irq_pending. rewrite Ei, Ep. destruct Hv as [Hv0 Hv1].
  destruct (get_highest_priority_int_spec (set_bit (a_irr a) v)) as (Hrange&_&Habove); [by apply reg_ok_set|].
  set (h := get_highest_priority_int _) in *. assert (v <= h) as Hle.
  { apply Z.le_ngt. intros Hlt. specialize (Habove v ltac:(lia) Hv0). rewrite get_bit_set in Habove by (done || apply Hr). by rewrite decide_True in Habove. }
  rewrite (masked_mono v h) by (done || lia). zbool. lia.
Qed.

Lemma has_hard r : has_flag (Z.lor r CPU_INTERRUPT_HARD) CPU_INTERRUPT_HARD = true.
Proof.
  unfold has_flag, c_true. apply negb_true_iff, Z.eqb_neq.
  rewrite Z.land_lor_distr_l. change (Z.land CPU_INTERRUPT_HARD CPU_INTERRUPT_HARD) with 2.
  intros [_ ?]%Z.lor_eq_0_iff. done.
Qed.

Lemma request_asked c : asked c (set_cpu_interrupt_request (Z.lor (cpu_interrupt_request c) CPU_INTERRUPT_HARD) c).
Proof. eexists. split; [done|]. intros _. apply has_hard. Qed.

Lemma asked_numbers l l' : Forall2 asked l l' -> cpu_index <$> l' = cpu_index <$> l.
Proof. induction 1 as [|c c' l l' (r&->&_) _ IH]; [done|]. cbn. by rewrite IH. Qed.
Lemma asked_stacks l l' :
  Forall2 asked l l' -> Forall (fun c => stack_ok (cpu_ski c)) l -> Forall (fun c => stack_ok (cpu_ski c)) l'.
Proof. induction 1 as [|c c' l l' (r&->&_) _ IH]; [done|]. intros [? ?]%Forall_cons. constructor; auto. Qed.

(** What the first part of a request leaves and what it changes. *)
Record asking (b b2 : board) : Prop := {
  ak_apics : bd_apics b2 = bd_apics (with_irr b);
  ak_chips : bd_chips b2 = bd_chips b;
  ak_threads : m_threads (bd_machine b2) = m_threads (bd_machine b);
  ak_no : m_threads_no (bd_machine b2) = m_threads_no (bd_machine b);
  ak_cpus : Forall2 asked (m_cpus (bd_machine b)) (m_cpus (bd_machine b2));
  ak_hard : takes_vector e v b -> has_flag (cpu_interrupt_request (bd_cpu e b2)) CPU_INTERRUPT_HARD = true
}.

Lemma or_request_asking b : (e < length (m_cpus (bd_machine b)))%nat -> asking b (or_request e CPU_INTERRUPT_HARD (with_irr b)).
Proof.
  intros He. split; try done.
  - cbn -[alter]. apply Forall2_same_length_lookup. rewrite length_alter. split; [done|]. intros j c c' Hc Hc'.
    rewrite list_lookup_alter in Hc'. change (m_cpus (bd_machine b) !! j = Some c) in Hc.
    change (bd_machine (with_irr b)) with (bd_machine b) in Hc'. destruct (decide (e = j)) as [->|].
    + rewrite Hc in Hc'. injection Hc' as <-. apply request_asked.
    + rewrite Hc in Hc'. injection Hc' as <-. reflexivity.
  - intros _. unfold bd_cpu. cbn -[alter]. rewrite list_lookup_total_alter, decide_True by done. cbn. apply has_hard.
Qed.

Lemma update_asking b :
  vector v -> bus_ok b -> (e < length (bd_apics b))%nat -> exists b2, apic_update_irq e (with_irr b) = Ret b2 tt /\ asking b b2.
Proof.
  intros Hv Hok He. destruct (lookup_lt_is_Some_2 _ _ He) as [a Ha]. pose proof (bus_length _ Hok) as Hlen.
  destruct (decide (takes_vector e v b)) as [Ht|Hn].
  - exists (or_request e CPU_INTERRUPT_HARD (with_irr b)). split; [|apply or_request_asking; lia].
    unfold apic_update_irq. cbn [update_irq_at]. erewrite bind_Ret by reflexivity.
    rewrite (with_irr_pending b a Hv Hok Ha Ht).
    assert (a_spurious_vec (bd_apic e (with_irr b)) = a_spurious_vec (bd_apic e b)) as ->.
    { unfold bd_apic. rewrite !list_lookup_total_alt, with_irr_apic, Ha, decide_True by set_solver. done. }
    destruct Ht as (_&->&_). done.
  - assert (pic_plain e (with_irr b)) as Hp.
    { unfold pic_plain. rewrite with_irr_lvt. apply (bus_pic _ Hok e). }
    destruct (update_irq_cases e _ Hp) as [E|E]; eexists; (split; [exact E|]); [|apply or_request_asking; lia].
    by split.
Qed.
End request.

Lemma live_threads_eq m m' :
  m_threads m' = m_threads m -> m_threads_no m' = m_threads_no m -> live_threads m' = live_threads m.
Proof. unfold live_threads. by intros -> ->. Qed.

Lemma asking_table e v trig b b2 : asking e v trig b b2 -> table_ok (bd_machine b) -> table_ok (bd_machine b2).
Proof.
  intros [] (H1&H2&H3). split; [by rewrite ak_no0, ak_threads0|]. split; [by rewrite (live_threads_eq _ _ ak_threads0 ak_no0)|].
  by eapply asked_stacks.
Qed.

(** A board with the same connections. *)
Lemma bus_ok_step e v trig b b' :
  bus_ok b -> table_ok (bd_machine b') -> bd_apics b' = bd_apics (with_irr e v trig b) -> bd_chips b' = bd_chips b ->
  Forall2 asked (m_cpus (bd_machine b)) (m_cpus (bd_machine b')) -> bus_ok b'.
Proof.
  intros [] Ht Ha Hch Hc. split; [done|..].
  - rewrite Ha. cbn -[alter]. rewrite length_alter, bus_length0. by eapply Forall2_length.
  - rewrite Ha. cbn -[alter]. by rewrite length_alter.
  - by rewrite (asked_numbers _ _ Hc).
  - rewrite Ha. cbn -[alter]. apply Forall_alter; [done|]. intros a _ Hr. by apply with_request_regs.
  - intros e'. pose proof (bus_pic0 e') as Hp. unfold pic_plain in *. rewrite Hch.
    replace (a_lvt (bd_apic e' b')) with (a_lvt (bd_apic e' b)); [done|].
    rewrite <- (with_irr_lvt e v trig b e'). unfold bd_apic. by rewrite Ha.
Qed.

Lemma picked_one b e c v i tc :
  m_cpus (bd_machine b) !! e = Some c ->
  picked b [e] v i tc <->
  cpu_ski_active c = true /\ selected (idle (cpu_index c) v) int_priority (live_threads (bd_machine b)) i tc.
Proof.
  intros Hc. split.
  - intros (e'&c'&->%list_elem_of_singleton&Hc'&Ha&Hs). rewrite Hc in Hc'. by injection Hc' as <-.
  - intros []. exists e, c. split; [set_solver|done].
Qed.

(** The new thread table and what it is: one thread is spawned, or none. *)
Lemma irq_set_picked b b2 e v trig :
  bus_ok b -> (e < length (bd_apics b))%nat -> asking e v trig b b2 ->
  exists m', ski_handle_new_irq_set e v (bd_machine b2) = Ret m' tt /\ table_ok m' /\ m_cpus m' = m_cpus (bd_machine b2) /\
    length (live_threads m') = length (live_threads (bd_machine b)) /\
    forall i tc, live_threads (bd_machine b) !! i = Some tc ->
      picked b [e] v i tc /\ live_threads m' !! i = Some (spawn tc) \/ ~ picked b [e] v i tc /\ live_threads m' !! i = Some tc.
Proof.
  intros Hok He Hak. rewrite (bus_length _ Hok) in He. destruct (lookup_lt_is_Some_2 _ _ He) as [c Hc].
  pose proof (ak_cpus _ _ _ _ _ Hak) as Hall. destruct (Forall2_lookup_l _ _ _ _ _ Hall Hc) as (c'&Hc2&r&->&_).
  set (c2 := set_cpu_interrupt_request r c) in *. pose proof (asking_table _ _ _ _ _ Hak (bus_table _ Hok)) as Ht.
  destruct (irq_set_ok _ e c2 v Ht Hc2) as (m'&E&Ht'&_&Hcp&_). exists m'. split; [done|]. split; [done|]. split; [done|].
  assert (live_threads (bd_machine b2) = live_threads (bd_machine b)) as El by (apply live_threads_eq; apply Hak).
  assert (forall i tc, picked b [e] v i tc <-> cpu_ski_active c2 = true /\
    selected (idle (cpu_index c2) v) int_priority (live_threads (bd_machine b2)) i tc) as Hp.
  { intros i tc. rewrite El. exact (picked_one b e c v i tc Hc). }
  destruct (cpu_ski_active c2) eqn:Ha.
  2:{ assert (m' = bd_machine b2) as ->.
      { unfold ski_handle_new_irq_set in E. erewrite bind_Ret in E by (by apply get_cpu_Ret). rewrite Ha in E. by injection E as <-. }
      rewrite El. split; [done|]. right. split; [intros [? _]%Hp; done|done]. }
  destruct (irq_set_spec _ e c2 v Ht Hc2 Ha) as [[E' Hnone]|(j&tcj&Hs&E')]; rewrite E' in E; injection E as <-.
  - rewrite El. split; [done|]. intros i tc Hi. right. split; [|done]. intros [_ (Hj&Hid&_)]%Hp.
    destruct (Hnone tc); [by eapply list_elem_of_lookup_2|done].
  - assert (live_threads (set_m_threads (alter spawn j (m_threads (bd_machine b2))) (bd_machine b2)) =
      alter spawn j (live_threads (bd_machine b2))) as -> by apply take_alter_comm.
    rewrite length_alter, El. split; [done|]. rewrite El in Hp, Hs. intros i tc Hi. destruct (decide (i = j)) as [->|Hne].
    + left. rewrite list_lookup_alter_eq, Hi. split; [|done]. apply Hp.
      destruct Hs as (Hj&Hs). rewrite Hi in Hj. by injection Hj as <-.
    + right. rewrite list_lookup_alter_ne by done. split; [|done]. intros [_ Hs']%Hp.
      by destruct (selected_unique _ _ _ _ _ _ _ Hs Hs').
Qed.

Lemma set_irq_delivered e v trig b :
  vector v -> bus_ok b -> (e < length (bd_apics b))%nat ->
  exists b', apic_set_irq e v trig b = Ret b' tt /\ delivered b b' [e] v trig.
Proof.
  intros Hv Hok He. destruct (update_asking e v trig b Hv Hok He) as (b2&E2&Hak).
  destruct (irq_set_picked b b2 e v trig Hok He Hak) as (m'&Em&Ht&Hcp&Hlen&Hth).
  exists (set_bd_machine m' b2). split.
  { unfold apic_set_irq. rewrite set_irq_eq, (bind_Ret _ _ _ _ _ E2). by apply on_sch_Ret. }
  assert (Forall2 asked (m_cpus (bd_machine b)) (m_cpus m')) as Hc by (rewrite Hcp; apply Hak).
  split.
  - eapply (bus_ok_step e v trig b); [done|exact Ht|apply Hak|apply Hak|done].
  - intros e'. change (bd_apics (set_bd_machine m' b2)) with (bd_apics b2). rewrite (ak_apics _ _ _ _ _ Hak). apply with_irr_apic.
  - apply Hak.
  - done.
  - intros e' ->%list_elem_of_singleton _ Htv. pose proof (ak_hard _ _ _ _ _ Hak Htv) as Hh. unfold bd_cpu in *.
    change (bd_machine (set_bd_machine m' b2)) with m'. by rewrite Hcp.
  - done.
  - done.
Qed.

(** ** Several requests *)

Lemma selected_transfer elig prio l l' i tc :
  (forall j t, elig t -> l !! j = Some t <-> l' !! j = Some t) -> selected elig prio l i tc -> selected elig prio l' i tc.
Proof.
  intros H (Hi&He&Hm). split; [by apply H|]. split; [done|]. intros j t Hj Ht. apply Hm; [by apply H|done].
Qed.

Lemma asked_lookup l l' e c : Forall2 asked l l' -> l' !! e = Some c ->
  exists c0, l !! e = Some c0 /\ asked c0 c.
Proof. intros H Hc. by apply (Forall2_lookup_r _ _ _ _ _ H Hc). Qed.

Section more.
Context (b b1 : board) (e : nat) (ts : list nat) (v : Z) (trig : bool).
Context (Hok : bus_ok b) (He : e ∉ ts) (H1 : delivered b b1 [e] v trig).

(** The idle threads of another CPU are the same. *)
Lemma idle_other e' c' j t :
  e' <> e -> m_cpus (bd_machine b) !! e' = Some c' -> idle (cpu_index c') v t ->
  live_threads (bd_machine b) !! j = Some t <-> live_threads (bd_machine b1) !! j = Some t.
Proof.
  intros Hne Hc' Hid. pose proof (dv_length _ _ _ _ _ H1) as Hlen.
  assert (forall u, picked b [e] v j u -> live_threads (bd_machine b) !! j = Some u -> ~ idle (cpu_index c') v u) as Hn.
  { intros u (e0&c0&->%list_elem_of_singleton&Hc&_&(_&(_&_&_&Hcpu&_)&_)) _ (_&_&_&Hcpu'&_). apply Hne.
    eapply (NoDup_lookup (cpu_index <$> m_cpus (bd_machine b))); [apply Hok|..]; rewrite list_lookup_fmap, ?Hc, ?Hc'; cbn; [done|].
    congruence. }
  split; intros Hj.
  - destruct (dv_threads _ _ _ _ _ H1 j t Hj) as [[Hp _]|[_ ?]]; [by destruct (Hn t Hp Hj)|done].
  - destruct (lookup_lt_is_Some_2 (live_threads (bd_machine b)) j) as [u Hu]; [rewrite <- Hlen; by eapply lookup_lt_Some|].
    destruct (dv_threads _ _ _ _ _ H1 j u Hu) as [[_ Hs]|[_ Hs]]; rewrite Hj in Hs; injection Hs as ->; [|done].
    by destruct Hid.
Qed.

Lemma picked_later i tc : picked b ts v i tc <-> picked b1 ts v i tc.
Proof.
  split; intros (e'&c'&Hin&Hc'&Ha&Hs).
  - destruct (Forall2_lookup_l _ _ _ _ _ (dv_cpus _ _ _ _ _ H1) Hc') as (c''&Hc''&r&->&_).
    exists e'. eexists. split; [done|]. split; [exact Hc''|]. split; [done|]. eapply selected_transfer; [|exact Hs].
    intros j t. eapply (idle_other e' c'); [by intros ->|done].
  - destruct (asked_lookup _ _ _ _ (dv_cpus _ _ _ _ _ H1) Hc') as (c&Hc&r&->&_).
    exists e', c. split; [done|]. split; [done|]. split; [done|]. eapply selected_transfer; [|exact Hs].
    intros j t Hid. symmetry. eapply (idle_other e' c); [by intros ->|done|done].
Qed.

Lemma takes_vector_later e' : e' ∈ ts -> takes_vector e' v b -> takes_vector e' v b1.
Proof.
  intros Hin. assert (bd_apic e' b1 = bd_apic e' b) as Ea.
  { unfold bd_apic. rewrite !list_lookup_total_alt, (dv_apics _ _ _ _ _ H1 e'), decide_False by (intros ->%list_elem_of_singleton; done).
    by destruct (bd_apics b !! e'). }
  assert (isr_of e' b1 = isr_of e' b) as Ei.
  { unfold isr_of, bd_cpu. rewrite !list_lookup_total_alt. pose proof (dv_cpus _ _ _ _ _ H1) as Hc.
    destruct (m_cpus (bd_machine b) !! e') as [c|] eqn:E.
    - destruct (Forall2_lookup_l _ _ _ _ _ Hc E) as (c'&->&r&->&_). done.
    - rewrite lookup_ge_None_2; [done|]. rewrite <- (Forall2_length _ _ _ Hc). by apply lookup_ge_None. }
  unfold takes_vector, apic_get_ppr. by rewrite Ea, Ei.
Qed.

Lemma delivered_cons b2 : delivered b1 b2 ts v trig -> delivered b b2 (e :: ts) v trig.
Proof.
  intros H2. split; [apply H2|..].
  - intros e'. rewrite (dv_apics _ _ _ _ _ H2 e'), (dv_apics _ _ _ _ _ H1 e'), <- option_fmap_compose.
    destruct (decide (e' = e)) as [->|Hne].
    + rewrite (decide_False (P := e ∈ ts)), !decide_True by set_solver. by destruct (bd_apics b !! e).
    + rewrite (decide_False (P := e' ∈ [e])) by set_solver.
      destruct (decide (e' ∈ ts)); [rewrite decide_True by set_solver|rewrite decide_False by set_solver]; by destruct (bd_apics b !! e').
  - by rewrite (dv_chips _ _ _ _ _ H2), (dv_chips _ _ _ _ _ H1).
  - etrans; [apply H1|apply H2].
  - intros e' [->|Hin]%elem_of_cons Hl Ht.
    + pose proof (dv_hard _ _ _ _ _ H1 e ltac:(set_solver) Hl Ht) as Hh. unfold bd_cpu in *.
      pose proof (bus_length _ Hok) as Hbl. pose proof (dv_cpus _ _ _ _ _ H1) as Hc1.
      destruct (lookup_lt_is_Some_2 (m_cpus (bd_machine b1)) e) as [c Hc]; [rewrite <- (Forall2_length _ _ _ Hc1); lia|].
      destruct (Forall2_lookup_l _ _ _ _ _ (dv_cpus _ _ _ _ _ H2) Hc) as (c'&Hc'&r&->&Hr).
      rewrite (list_lookup_total_correct _ _ _ Hc) in Hh. rewrite (list_lookup_total_correct _ _ _ Hc'). by apply Hr.
    + apply (dv_hard _ _ _ _ _ H2); [done| |by apply takes_vector_later].
      pose proof (dv_apics _ _ _ _ _ H1 e') as Ea. apply lookup_lt_is_Some_1. rewrite Ea. by apply fmap_is_Some, lookup_lt_is_Some_2.
  - by rewrite (dv_length _ _ _ _ _ H2), (dv_length _ _ _ _ _ H1).
  - intros i tc Hi. assert (picked b (e :: ts) v i tc <-> picked b [e] v i tc \/ picked b1 ts v i tc) as Hp.
    { rewrite <- picked_later. unfold picked. setoid_rewrite elem_of_cons at 1. setoid_rewrite list_elem_of_singleton. naive_solver. }
    destruct (dv_threads _ _ _ _ _ H1 i tc Hi) as [[Hp1 Hi1]|[Hp1 Hi1]].
    + destruct (dv_threads _ _ _ _ _ H2 i _ Hi1) as [[(e'&c'&_&_&_&_&(Hx&_)&_) _]|[_ Hi2]]; [done|]. left. tauto.
    + destruct (dv_threads _ _ _ _ _ H2 i _ Hi1) as [[Hp2 Hi2]|[Hp2 Hi2]]; [left|right]; tauto.
Qed.
End more.

Lemma delivered_nil b v trig : bus_ok b -> delivered b b [] v trig.
Proof.
  intros Hok. split; [done|..].
  - intros e. rewrite decide_False by set_solver. by destruct (bd_apics b !! e).
  - done.
  - reflexivity.
  - intros e Hin. set_solver.
  - done.
  - intros i tc Hi. right. split; [|done]. intros (e&c&Hin&_). set_solver.
Qed.

Lemma delivered_apics_length b b' ts v trig : delivered b b' ts v trig -> length (bd_apics b') = length (bd_apics b).
Proof.
  intros H. apply Nat.le_antisymm; apply Nat.nlt_ge; intros Hlt%lookup_lt_is_Some_2;
    pose proof (dv_apics _ _ _ _ _ H) as Ha.
  - rewrite Ha, fmap_is_Some in Hlt. apply lookup_lt_is_Some_1 in Hlt. lia.
  - rewrite <- (fmap_is_Some (if decide (length (bd_apics b') ∈ ts) then with_request v trig else id)), <- Ha in Hlt.
    apply lookup_lt_is_Some_1 in Hlt. lia.
Qed.

Lemma for_each_delivered ts b v trig :
  vector v -> bus_ok b -> NoDup ts -> Forall (fun e => (e < length (bd_apics b))%nat) ts ->
  exists b', for_each ts (fun e => apic_set_irq e v trig) b = Ret b' tt /\ delivered b b' ts v trig.
Proof.
  intros Hv. revert b. induction ts as [|e ts IH]; intros b Hok Hnd Hl.
  { exists b. split; [done|by apply delivered_nil]. }
  apply NoDup_cons in Hnd as [Hnin Hnd]. apply Forall_cons in Hl as [He Hl].
  destruct (set_irq_delivered e v trig b Hv Hok He) as (b1&E1&H1).
  destruct (IH b1 (dv_ok _ _ _ _ _ H1) Hnd) as (b2&E2&H2).
  { by rewrite (delivered_apics_length _ _ _ _ _ H1). }
  exists b2. split; [|by eapply delivered_cons]. cbn [for_each]. by rewrite (bind_Ret _ _ _ _ _ E1).
Qed.

(** ** The bits of a mask *)

Definition targets (mask : list Z) (n : nat) : list nat :=
  filter (fun e => get_bit mask (Z.of_nat e) = 1 /\ (e < n)%nat) (seq 0 256).

Lemma elem_of_targets mask n e : e ∈ targets mask n <-> (e < 256)%nat /\ (e < n)%nat /\ get_bit mask (Z.of_nat e) = 1.
Proof. unfold targets. rewrite list_elem_of_filter, elem_of_seq. intuition lia. Qed.

Lemma targets_NoDup mask n : NoDup (targets mask n).
Proof. apply NoDup_filter, NoDup_seq. Qed.

(** The loop over the words and bits visits the APICs of the mask in order. *)
Section foreach.
Context (mask : list Z) (n : nat) (code : nat -> LOOP unit).
Context (Hcode : forall e b b' u, length (bd_apics b) = n -> code e b = Ret b' u -> length (bd_apics b') = n).

Lemma foreach_word i l b :
  length (bd_apics b) = n -> Forall (fun j => (j < 32)%nat) l ->
  for_each l (fun j => when (Z.testbit (mask !!! i) (Z.of_nat j))
      (b <- get ;; when (i * 32 + j <? length (bd_apics b))%nat (code (i * 32 + j)%nat))) b =
  for_each (filter (fun e => get_bit mask (Z.of_nat e) = 1 /\ (e < n)%nat) (map (fun j => i * 32 + j)%nat l)) code b.
Proof.
  intros Hb Hl. revert b Hb. induction Hl as [|j l Hj _ IH]; intros b Hb; [done|]. cbn [for_each map].
  assert (get_bit mask (Z.of_nat (i * 32 + j)) = b2z (Z.testbit (mask !!! i) (Z.of_nat j))) as Eb.
  { rewrite Nat2Z.inj_add, Nat2Z.inj_mul. apply get_bit_word. lia. }
  unfold bind at 1. destruct (Z.testbit (mask !!! i) (Z.of_nat j)); cbn [when b2z] in *.
  - erewrite bind_Ret by reflexivity. rewrite Hb. destruct (Nat.ltb_spec (i * 32 + j) n) as [Hlt|Hge]; cbn [when].
    + rewrite filter_cons_True by done. cbn [for_each]. unfold bind.
      destruct (code (i * 32 + j)%nat b) as [b' []|b'|b' x] eqn:E; [|done..]. apply IH. by eapply Hcode.
    + rewrite filter_cons_False by (intros [_ ?]; lia). by apply IH.
  - rewrite filter_cons_False by (rewrite Eb; intros [? _]; done). by apply IH.
Qed.

Lemma foreach_targets b :
  length (bd_apics b) = n -> foreach_apic mask code b = for_each (targets mask n) code b.
Proof.
  intros Hb. assert (targets mask n = concat ((fun i => filter (fun e => get_bit mask (Z.of_nat e) = 1 /\ (e < n)%nat)
    (map (fun j => i * 32 + j)%nat (seq 0 32))) <$> seq 0 MAX_APIC_WORDS)) as ->.
  { unfold targets. change MAX_APIC_WORDS with 8%nat. change (seq 0 256) with (concat ((fun i => map (fun j => i * 32 + j)%nat (seq 0 32)) <$> seq 0 8)).
    generalize (seq 0 8) as l. intros l. induction l as [|i l IH]; [done|]. cbn [fmap list_fmap concat]. by rewrite filter_app, IH. }
  rewrite <- for_each_concat. unfold foreach_apic. revert b Hb. generalize (seq 0 MAX_APIC_WORDS) as l. intros l.
  induction l as [|i l IH]; intros b Hb; [done|]. cbn [for_each fmap list_fmap].
  set (op := for_each (filter _ _) code).
  assert (when (c_true (mask !!! i)) (for_each (seq 0 32) (fun j => when (Z.testbit (mask !!! i) (Z.of_nat j))
      (b <- get ;; when (i * 32 + j <? length (bd_apics b))%nat (code (i * 32 + j)%nat)))) b = op b) as E.
  { unfold op. rewrite <- foreach_word by (done || by apply (bool_decide_unpack _); vm_compute).
    destruct (Z.eqb_spec (mask !!! i) 0) as [E0|Hne].
    - rewrite E0. cbn [c_true Z.eqb negb when]. generalize (seq 0 32) as js. intros js. induction js as [|j js IHj]; [done|].
      cbn [for_each]. rewrite Z.testbit_0_l. exact IHj.
    - unfold c_true. by rewrite (proj2 (Z.eqb_neq _ _) Hne). }
  destruct (op b) as [b' []|b'|b' x] eqn:Eo;
    [|by rewrite (bind_Jump _ _ _ _ E), (bind_Jump _ _ _ _ Eo)|by rewrite (bind_Halt _ _ _ _ _ E), (bind_Halt _ _ _ _ _ Eo)].
  rewrite (bind_Ret _ _ _ _ _ E), (bind_Ret _ _ _ _ _ Eo). apply IH.
  clear E. revert b b' Hb Eo. unfold op. generalize (filter (fun e => get_bit mask (Z.of_nat e) = 1 /\ (e < n)%nat)
    (map (fun j => i * 32 + j)%nat (seq 0 32))) as ts. intros ts. induction ts as [|e ts IHt]; intros b b' Hb; cbn [for_each].
  - by intros [= <-].
  - unfold bind. destruct (code e b) as [b1 []|b1|b1 x] eqn:Ec; try done. apply IHt. by eapply Hcode.
Qed.
End foreach.

(** ** The addressed APICs *)

(** Physically, to all or by the identifier; logically, by the APIC's own mode. *)
Definition addressed (dest dest_mode : Z) (b : board) (e : nat) : bool :=
  match bd_apics b !! e with
  | Some a => if dest_mode =? 0 then (dest =? 255) || (a_id a =? dest) else in_logical_dest dest a
  | None => false
  end.

Lemma all_apics_bit e : (e < 256)%nat -> get_bit all_apics (Z.of_nat e) = 1.
Proof.
  intros He. assert (Forall (fun e => get_bit all_apics (Z.of_nat e) = 1) (seq 0 256)) as H
    by (apply (bool_decide_unpack _); by vm_compute).
  rewrite Forall_forall in H. apply H, elem_of_seq. lia.
Qed.
Lemma no_apics_bit v : vector v -> get_bit no_apics v = 0.
Proof.
  intros Hv. assert (Forall (fun v => get_bit no_apics v = 0) (seqZ 0 256)) as H
    by (apply (bool_decide_unpack _); by vm_compute).
  rewrite Forall_forall in H. apply H, elem_of_seqZ. unfold vector in Hv. lia.
Qed.

Lemma find_dest_loop_spec apics dest i :
  match find_dest_loop apics dest i with
  | Zneg _ => Forall (fun a => a_id a <> dest) apics
  | r => (i <= Z.to_nat r)%nat /\ exists a, apics !! (Z.to_nat r - i)%nat = Some a /\ a_id a = dest
  end.
Proof.
  revert i. induction apics as [|a apics IH]; intros i; cbn [find_dest_loop]; [done|].
  destruct (Z.eqb_spec (a_id a) dest) as [Hd|Hd].
  - assert (match Z.of_nat i with Zneg _ => False | r => r = Z.of_nat i end) as Hi by (by destruct i).
    destruct (Z.of_nat i) eqn:E; try done; rewrite <- E, Nat2Z.id, Nat.sub_diag; (split; [done|]); by exists a.
  - specialize (IH (S i)). destruct (find_dest_loop apics dest (S i)) as [|p|p]; [| |by constructor].
    + destruct IH as [? _]. cbn in *. lia.
    + destruct IH as (Hle&a'&Ha'&Hd'). split; [lia|]. exists a'. split; [|done].
      replace (Z.to_nat (Z.pos p) - i)%nat with (S (Z.to_nat (Z.pos p) - S i))%nat by lia. done.
Qed.

Section mask.
Context (b : board) (dest dest_mode : Z).
Context (Hmax : (length (bd_apics b) <= MAX_APICS)%nat) (Hids : NoDup (a_id <$> bd_apics b)) (Hdest : 0 <= dest < 256).

Lemma id_unique i j a a' : bd_apics b !! i = Some a -> bd_apics b !! j = Some a' -> a_id a = a_id a' -> i = j.
Proof.
  intros Hi Hj E. eapply (NoDup_lookup _ _ _ (a_id a) Hids); rewrite list_lookup_fmap, ?Hi, ?Hj; cbn; congruence.
Qed.

(** The search finds the APIC with the identifier. *)
Lemma find_dest_iff e a :
  bd_apics b !! e = Some a -> a_id a = dest <-> apic_find_dest dest b = Z.of_nat e.
Proof.
  intros Ha. unfold apic_find_dest. rewrite take_ge by done.
  assert (a_id a = dest <-> find_dest_loop (bd_apics b) dest 0 = Z.of_nat e) as Hloop.
  { pose proof (find_dest_loop_spec (bd_apics b) dest 0) as H. split.
    - intros Hd. destruct (find_dest_loop _ _ _) as [|p|p]; cbn -[Z.of_nat Pos.to_nat] in *.
      + destruct H as (_&a'&Ha'&Hd'). rewrite <- (id_unique 0 e a' a); [done|done|done|congruence].
      + destruct H as (_&a'&Ha'&Hd'). rewrite Nat.sub_0_r in Ha'.
        rewrite <- (id_unique (Pos.to_nat p) e a' a); [lia|done|done|congruence].
      + rewrite Forall_forall in H. destruct (H a); [by eapply list_elem_of_lookup_2|done].
    - intros E. rewrite E in H. assert (Z.to_nat (Z.of_nat e) = e) as En by apply Nat2Z.id.
      destruct (Z.of_nat e) eqn:Ee; [| |lia]; destruct H as (_&a'&Ha'&Hd'); rewrite En, Nat.sub_0_r, Ha in Ha';
        by injection Ha' as <-. }
  destruct (bd_apics b !! Z.to_nat dest) as [ad|] eqn:Ed; [|done].
  destruct (Z.eqb_spec (a_id ad) dest) as [Hd|]; [|done]. split.
  - intros Ha'. rewrite <- (id_unique (Z.to_nat dest) e ad a); [lia|done|done|congruence].
  - intros E. rewrite E, Nat2Z.id, Ha in Ed. by injection Ed as <-.
Qed.

Lemma find_dest_range : -1 <= apic_find_dest dest b < 256.
Proof.
  unfold apic_find_dest. rewrite take_ge by done.
  assert (-1 <= find_dest_loop (bd_apics b) dest 0 < 256) as Hl.
  { assert (forall l i, -1 <= find_dest_loop l dest i < Z.of_nat (i + length l) \/ find_dest_loop l dest i = -1) as H.
    { induction l as [|a l IH]; intros i; cbn [find_dest_loop]; [by right|]. destruct (_ =? _); [left; cbn; lia|].
      destruct (IH (S i)) as [?|?]; [left; cbn in *; lia|by right]. }
    unfold MAX_APICS in Hmax. destruct (H (bd_apics b) 0%nat); lia. }
  destruct (bd_apics b !! Z.to_nat dest); [|done]. destruct (_ =? _); [lia|done].
Qed.

Lemma logical_loop_bit l i bm e :
  length bm = 8%nat -> (i + length l <= 256)%nat -> (e < 256)%nat ->
  get_bit (logical_loop l dest i bm) (Z.of_nat e) =
  if (i <=? e)%nat && from_option (in_logical_dest dest) false (l !! (e - i)%nat) then 1 else get_bit bm (Z.of_nat e).
Proof.
  revert i bm. induction l as [|a l IH]; intros i bm Hbm Hi He; cbn [logical_loop]; [by rewrite andb_false_r|].
  cbn [length] in Hi. rewrite IH; [|destruct (in_logical_dest dest a); [unfold set_bit, ski_set_bit; by rewrite length_alter|done]|lia|done].
  assert (vector (Z.of_nat e) /\ vector (Z.of_nat i)) as [Hv1 Hv2] by (unfold vector; lia).
  destruct (Nat.lt_trichotomy e i) as [Hlt|[->|Hgt]].
  - rewrite !(proj2 (Nat.leb_gt _ _)) by lia. cbn [andb]. destruct (in_logical_dest dest a); [|done].
    rewrite get_bit_set by done. by rewrite decide_False by lia.
  - rewrite (proj2 (Nat.leb_gt _ _)), Nat.sub_diag, Nat.leb_refl by lia. cbn. destruct (in_logical_dest dest a); [|done].
    rewrite get_bit_set by done. by rewrite decide_True.
  - rewrite !(proj2 (Nat.leb_le _ _)) by lia. replace (e - i)%nat with (S (e - S i)) by lia. cbn [andb lookup list_lookup].
    destruct (from_option _ _ _); [done|]. destruct (in_logical_dest dest a); [|done].
    rewrite get_bit_set by done. by rewrite decide_False by lia.
Qed.

Lemma bitmask_addressed e :
  (e < length (bd_apics b))%nat ->
  get_bit (apic_get_delivery_bitmask dest dest_mode b) (Z.of_nat e) = 1 <-> addressed dest dest_mode b e = true.
Proof.
  intros He. unfold MAX_APICS in *. destruct (lookup_lt_is_Some_2 _ _ He) as [a Ha].
  assert (vector (Z.of_nat e)) as Hv by (unfold vector; lia).
  unfold apic_get_delivery_bitmask, addressed. rewrite Ha. destruct (dest_mode =? 0).
  - destruct (Z.eqb_spec dest 255) as [->|Hne]; [split; [done|]; intros _; apply all_apics_bit; lia|].
    pose proof find_dest_range as Hr. cbn [orb]. rewrite Z.eqb_eq, (find_dest_iff e a Ha).
    destruct (Z.geb_spec (apic_find_dest dest b) 0) as [Hge|Hlt].
    + rewrite get_bit_set, no_apics_bit by (done || (unfold vector; lia)). case_decide; split; (done || lia || congruence).
    + rewrite no_apics_bit by done. split; [done|lia].
  - rewrite take_ge by (unfold MAX_APICS; lia). rewrite logical_loop_bit by (done || cbn; lia). rewrite no_apics_bit by done.
    rewrite Nat.sub_0_r, Ha. cbn. by destruct (in_logical_dest dest a).
Qed.
End mask.

(** ** The number of APICs *)

Definition same_apics (b b' : board) : Prop := length (bd_apics b') = length (bd_apics b).
Definition counts {A} (op : LOOP A) : Prop := preserving same_apics same_apics same_apics op.
#[export] Instance keeping_apics : Keeping same_apics same_apics same_apics.
Proof. unfold same_apics. split; [split; [by intros b|congruence]|congruence|congruence|done]. Qed.

Lemma counts_on_sch {A} (op : SCH A) : counts (on_sch op).
Proof. intros b. rewrite on_sch_run. by destruct (op (bd_machine b)). Qed.
Lemma counts_mod_apic e f : counts (mod_apic e f).
Proof. intros b. apply length_alter. Qed.

Ltac counts_step :=
  match goal with
  | |- preserving same_apics _ _ ?op => change (counts op)
  | |- counts (on_sch _) => apply counts_on_sch
  | |- counts (mod_apic _ _) => apply counts_mod_apic
  | |- counts (cpu_interrupt _ _) => apply counts_on_sch
  | |- counts (modify _) => by intros ?
  | |- _ => preserving_step
  | |- _ => solve [auto]
  end.

Lemma counts_set_irq_with u e v t : (forall i, counts (u i)) -> counts (set_irq_with u e v t).
Proof. intros Hu. unfold set_irq_with. repeat counts_step. Qed.
Lemma counts_update_at d e : counts (update_irq_at d e).
Proof.
  revert e. induction d as [|d IH]; intros e; cbn [update_irq_at]; unfold local_deliver_with; pose proof counts_set_irq_with;
    repeat counts_step.
Qed.
Lemma counts_set_irq e v t : counts (apic_set_irq e v t).
Proof. apply counts_set_irq_with. intros. apply counts_update_at. Qed.

(** ** A message *)

Lemma bus_deliver_delivered mask b v trig :
  vector v -> bus_ok b ->
  exists b', apic_bus_deliver mask APIC_DM_FIXED v trig b = Ret b' tt /\ delivered b b' (targets mask (length (bd_apics b))) v trig.
Proof.
  intros Hv Hok. destruct (for_each_delivered (targets mask (length (bd_apics b))) b v trig Hv Hok) as (b'&E&H).
  - apply targets_NoDup.
  - apply Forall_forall. intros e (_&?&_)%elem_of_targets. done.
  - exists b'. split; [|done]. rewrite <- E. apply foreach_targets; [|done].
    intros e b1 b2 u Hl E1. pose proof (counts_set_irq e v trig b1) as Hc. rewrite E1 in Hc. cbn in Hc. unfold same_apics in Hc. lia.
Qed.

(** C33: A fixed interrupt that a device or a CPU sends reaches exactly the APICs it
    is addressed to, by identifier, by logical destination or all of them: there
    its vector is requested and the registers of vectors and APICs that are not
    concerned are unchanged, the CPUs whose priority is lower are told, and on
    each addressed CPU of the test the scheduler spawns exactly the idle thread
    that waits for the vector, leaving every other thread as it is. *)
Theorem apic_deliver_irq_reaches (b : board) (dest dest_mode v : Z) (trig : bool) :
  bus_ok b -> NoDup (a_id <$> bd_apics b) -> 0 <= dest < 256 -> vector v ->
  exists b', apic_deliver_irq dest dest_mode APIC_DM_FIXED v trig b = Ret b' tt /\ bus_ok b' /\
    (forall e v', (e < length (bd_apics b))%nat -> vector v' ->
       get_bit (irr_of e b') v' = if addressed dest dest_mode b e && (v' =? v) then 1 else get_bit (irr_of e b) v') /\
    (forall e, addressed dest dest_mode b e = true -> takes_vector e v b ->
       has_flag (cpu_interrupt_request (bd_cpu e b')) CPU_INTERRUPT_HARD = true) /\
    (forall i tc, live_threads (bd_machine b) !! i = Some tc ->
       let to_spawn := exists e c, addressed dest dest_mode b e = true /\ m_cpus (bd_machine b) !! e = Some c /\
         cpu_ski_active c = true /\ selected (idle (cpu_index c) v) int_priority (live_threads (bd_machine b)) i tc in
       to_spawn /\ live_threads (bd_machine b') !! i = Some (spawn tc) \/
       ~ to_spawn /\ live_threads (bd_machine b') !! i = Some tc).
Proof.
  intros Hok Hids Hd Hv. pose proof (bus_max _ Hok) as Hmax. set (mask := apic_get_delivery_bitmask dest dest_mode b).
  destruct (bus_deliver_delivered mask b v trig Hv Hok) as (b'&E&H). set (ts := targets mask _) in H.
  assert (forall e, e ∈ ts <-> addressed dest dest_mode b e = true) as Hts.
  { intros e. unfold ts. rewrite elem_of_targets. destruct (decide (e < length (bd_apics b))%nat) as [Hlt|Hge].
    - rewrite <- (bitmask_addressed b dest dest_mode) by done. unfold MAX_APICS in Hmax. intuition lia.
    - split; [intros (_&?&_); lia|]. unfold addressed. by rewrite lookup_ge_None_2 by lia. }
  exists b'. split; [exact E|]. split; [apply H|]. split_and!.
  - intros e v' He Hv'. unfold irr_of, bd_apic. rewrite !list_lookup_total_alt, (dv_apics _ _ _ _ _ H e).
    destruct (lookup_lt_is_Some_2 _ _ He) as [a Ha]. rewrite Ha. pose proof (Forall_lookup_1 _ _ _ _ (bus_regs _ Hok) Ha) as [[Hl _] _].
    destruct (addressed dest dest_mode b e) eqn:Ea.
    + rewrite decide_True by (by apply Hts). cbn. rewrite get_bit_set by done. cbn. destruct (Z.eqb_spec v' v); by case_decide.
    + rewrite decide_False by (intros ?%Hts; congruence). done.
  - intros e He Ht. apply (dv_hard _ _ _ _ _ H); [by apply Hts| |done].
    apply Hts in He. by apply elem_of_targets in He as (_&?&_).
  - intros i tc Hi. pose proof (dv_threads _ _ _ _ _ H i tc Hi) as Hth. unfold picked in Hth. by setoid_rewrite Hts in Hth.
Qed.

(** ** A recursion that does not end *)

(** The PIC asks for an interrupt that the local APIC takes as a fixed vector, and
    the task priority is the highest. *)
Record wired (e : nat) (b : board) : Prop := {
  wi_apic : (e < length (bd_apics b))%nat;
  wi_enabled : has_flag (a_spurious_vec (bd_apic e b)) APIC_SV_ENABLE = true;
  wi_output : pic_get_output (ch_master (bd_chips b)) = true;
  wi_lint0 : Z.land (a_lvt (bd_apic e b) !!! APIC_LVT_LINT0) APIC_LVT_MASKED = 0;
  wi_fixed : Z.land (Z.shiftr (a_lvt (bd_apic e b) !!! APIC_LVT_LINT0) 8) 7 = APIC_DM_FIXED;
  wi_irr : reg_ok (a_irr (bd_apic e b));
  wi_isr : reg_ok (isr_of e b);
  wi_tpr : 240 <= a_tpr (bd_apic e b) < 256
}.

Lemma high_nibble_full : Forall (fun x => Z.land x 240 <= 240) (seqZ 0 256) /\ Forall (fun x => Z.land x 240 = 240 /\ Z.shiftr x 4 = 15) (seqZ 240 16).
Proof. split; apply (bool_decide_unpack _); by vm_compute. Qed.

Lemma wired_pending e b : wired e b -> apic_irq_pending e b <= 0.
Proof.
  intros []. destruct high_nibble_full as [H1 H2]. rewrite Forall_forall in H1, H2.
  destruct (H2 (a_tpr (bd_apic e b))) as [Ht1 Ht2]; [apply elem_of_seqZ; lia|].
  destruct (get_highest_priority_int_spec _ wi_irr0) as (Hr&_). destruct (get_highest_priority_int_spec _ wi_isr0) as (Hr'&_).
  unfold apic_irq_pending, irr_of. set (h := get_highest_priority_int (a_irr _)) in *. destruct (Z.ltb_spec h 0); [lia|].
  assert (apic_get_ppr e b = a_tpr (bd_apic e b)) as ->.
  { unfold apic_get_ppr. rewrite Ht2. set (i := get_highest_priority_int (isr_of e b)) in *.
    assert (Z.shiftr (if i <? 0 then 0 else i) 4 <= 15) as Hi.
    { rewrite Z.shiftr_div_pow2 by lia. apply Z.lt_succ_r, Z.div_lt_upper_bound; [lia|]. destruct (i <? 0); lia. }
    by rewrite (proj2 (Z.geb_le _ _)) by lia. }
  unfold masked, c_true. rewrite Ht1. rewrite (proj2 (Z.eqb_neq (a_tpr (bd_apic e b)) 0)) by lia. cbn [negb andb].
  rewrite (proj2 (Z.leb_le _ _)); [lia|]. apply H1, elem_of_seqZ. lia.
Qed.

Lemma update_irq_endless e b depth : wired e b -> exists b', update_irq_at depth e b = Halt b' HUndef.
Proof.
  revert b. induction depth as [|depth IH]; intros b Hw; [by exists b|]. pose proof (wired_pending e b Hw) as Hp.
  destruct Hw as [He Hen Hout Hl Hf Hirr Hisr Htpr].
  cbn [update_irq_at]. erewrite bind_Ret by reflexivity. rewrite Hen. cbn [negb].
  rewrite Z.gtb_ltb, (proj2 (Z.ltb_ge _ _)) by lia.
  assert (apic_accept_pic_intr e b = true) as -> by (unfold apic_accept_pic_intr; rewrite Hl; apply orb_true_r).
  rewrite Hout. cbn [andb when]. unfold local_deliver_with. erewrite bind_Ret by reflexivity. rewrite Hl, Hf.
  cbn [Z.eqb negb APIC_DM_FIXED APIC_DM_SMI APIC_DM_NMI APIC_DM_EXTINT]. rewrite set_irq_eq. unfold bind.
  match goal with |- context [with_irr e ?v ?trig b] => set (b1 := with_irr e v trig b);
    assert (bd_apic e b1 = with_request v trig (bd_apic e b)) as Eb end.
  { unfold bd_apic. cbn -[alter]. by rewrite list_lookup_total_alter, decide_True. }
  destruct (IH b1) as (b'&->); [|by exists b']. split; rewrite ?Eb; try done; [by cbn -[alter]; rewrite length_alter|].
  by apply reg_ok_set.
Qed.

(** When the update returns, a deeper recursion gives the same result. *)
Lemma local_with_mono f g e n b b' u :
  (forall b b' u, f e b = Ret b' u -> g e b = Ret b' u) ->
  local_deliver_with f e n b = Ret b' u -> local_deliver_with g e n b = Ret b' u.
Proof.
  intros H. unfold local_deliver_with. do 2 erewrite bind_Ret by reflexivity. destruct (negb _); [done|].
  do 4 (destruct (_ =? _); [first [done | rewrite !set_irq_eq]|]); [|done].
  unfold bind. destruct (f e _) as [b1 []|b1|b1 x] eqn:E; [|done..]. by rewrite (H _ _ _ E).
Qed.

Lemma update_irq_deeper e b b' u depth :
  apic_update_irq e b = Ret b' u -> update_irq_at (2 + depth) e b = Ret b' u.
Proof.
  assert (forall d b b' u, update_irq_at d e b = Ret b' u -> update_irq_at (S d) e b = Ret b' u) as H.
  { induction d as [|d IH]; intros b0 b0' u0; [done|]. cbn [update_irq_at]. do 2 erewrite bind_Ret by reflexivity.
    destruct (negb _); [done|]. destruct (_ >? 0); [done|]. destruct (_ && _); cbn [when]; [|done].
    by apply local_with_mono. }
  intros E. induction depth as [|depth IH]; [done|]. by apply H.
Qed.

(** ** Witness *)

(** Both CPUs of the scheduler's sample, with APICs 0 and 1 that are enabled. *)
Definition sample_pic (master : bool) : PicState := mk_pic 0 0 0 0 0 0 0 0 0 0 0 0 0 0 0 0 0 master.
Definition sample_chips : chips :=
  mk_chips (sample_pic true) (sample_pic false) (mk_ioapic 0 0 0 (replicate IOAPIC_NUM_PINS (2 ^ 16))) [] 0.
Definition sample_apic (id : Z) : APICState := set_a_id id (set_a_spurious_vec (APIC_SV_ENABLE + 255) inhabitant).
Definition sample_bus : board :=
  mk_board sample_ins [sample_apic 0; sample_apic 1] 0 [false; false] [false; false] false false None [] sample_chips.

Lemma sample_bus_ok : bus_ok sample_bus.
Proof.
  split.
  - split; [vm_compute; split; discriminate|]. split; apply (bool_decide_unpack _); by vm_compute.
  - done.
  - cbn. unfold MAX_APICS. lia.
  - apply (bool_decide_unpack _); by vm_compute.
  - repeat constructor; by vm_compute.
  - intros e. left. by vm_compute.
Qed.

(** Vector 49 for APIC 0: its thread, number 2, is spawned, those of the CPUs stay. *)
Lemma apic_deliver_irq_reaches_witness :
  exists b', apic_deliver_irq 0 0 APIC_DM_FIXED 49 false sample_bus = Ret b' tt /\
    get_bit (irr_of 0 b') 49 = 1 /\ get_bit (irr_of 1 b') 49 = 0 /\
    tc_state <$> live_threads (bd_machine b') !! 2%nat = Some SKI_TC_STATE_NEEDS_TRIGGER.
Proof.
  destruct (apic_deliver_irq_reaches sample_bus 0 0 49 false) as (b'&E&_&Hr&_&Ht).
  - exact sample_bus_ok.
  - apply (bool_decide_unpack _); by vm_compute.
  - lia.
  - unfold vector. lia.
  - exists b'. split; [exact E|]. split_and!.
    + etrans; [apply (Hr 0%nat 49); [cbn; lia|unfold vector; lia]|by vm_compute].
    + etrans; [apply (Hr 1%nat 49); [cbn; lia|unfold vector; lia]|by vm_compute].
    + destruct (Ht 2%nat _ ltac:(vm_compute; reflexivity)) as [[_ ->]|[Hn _]]; [done|]. destruct Hn.
      exists 0%nat. eexists. split; [by vm_compute|]. split; [by vm_compute|]. split; [by vm_compute|].
      apply selected_only; [by vm_compute|by apply (bool_decide_unpack _); vm_compute|].
      intros j tc Hj (_&_&Hi&_). destruct j as [|[|[|j]]]; [vm_compute in Hj; injection Hj as <-; done..|done|].
      vm_compute in Hj. done.
Defined.

(** ** Two situations in which the controllers disagree with the hardware *)

(** Vector 49 is pending at APIC 0, whose LINT0 passes the PIC's interrupts on.
    The change of a line that the PIC masks lowers the PIC's output again, which
    takes back the request of the APIC as well. *)
Definition sample_pending : board :=
  set_bd_chips (set_ch_master (set_p_imr 255 (sample_pic true)) sample_chips)
    (set_bd_apics [set_a_lvt (<[APIC_LVT_LINT0 := 1792]> (replicate 6 (2 ^ 16))) (sample_apic 0); sample_apic 1] sample_bus).

Lemma masked_line_drops_request :
  match (apic_set_irq 0 49 false ;;; gsi_handler 1 true) sample_pending with
  | Ret b _ => apic_irq_pending 0 b = 49 /\ has_flag (cpu_interrupt_request (bd_cpu 0 b)) CPU_INTERRUPT_HARD = false
  | _ => False
  end.
Proof. by vm_compute. Qed.

(** Pin 20 is level-triggered for vector 49, pin 21 edge-triggered for vector 50.
    The vector of pin 20 is in service when pin 21 is raised: it is requested again
    although its end has not been signalled. *)
Definition sample_pins : board :=
  set_bd_chips (set_ch_ioapic (mk_ioapic 0 0 0 (<[20%nat := 32768 + 49]> (<[21%nat := 50]> (replicate IOAPIC_NUM_PINS (2 ^ 16))))) sample_chips)
    sample_bus.

Lemma level_pin_requested_twice :
  match (gsi_handler 20 true ;;; mod_apic 0 (fun a => set_a_irr (reset_bit (a_irr a) 49) a) ;;; gsi_handler 21 true) sample_pins with
  | Ret b _ => get_bit (irr_of 0 b) 49 = 1 /\ has_flag (io_ioredtbl (ioapic_of b) !!! 20%nat) IOAPIC_LVT_REMOTE_IRR = true
  | _ => False
  end.
Proof. by vm_compute. Qed.
