(* ===== verification/ApicTimer.v ===== *)
(** * ApicTimer.v -- the timers of the local APICs

    The expiry that [apic_timer_update] of [vmm/hw/apic.c] computes agrees with the
    count the guest reads, and a round of the loop over the expired timers
    ([qemu_run_timers] of [vmm/qemu-timer.c]) ends: a periodic timer that is far
    behind fires once for every period it has missed. *)

From Stdlib Require Import Sorting.Sorted.
From S2P Require Import Prelude Preserving Liveness LoopTrace Machine Sched Interrupts RaceDetector Stats InstructionDetector Instrument Timers Pic Board Apic Chips Delivery.

(** ** The next expiry *)

(** The timer's registers, and times that do not overflow. *)
Record timer_ok (a : APICState) (t : Z) : Prop := {
  to_count : 0 <= a_initial_count a < 2 ^ 32;
  to_shift : 0 <= a_count_shift a < 8;
  to_load : 0 <= a_initial_count_load_time a <= t;
  to_far : t < 2 ^ 62
}.

Definition periodic (a : APICState) : bool := has_flag (a_lvt a !!! APIC_LVT_TIMER) APIC_LVT_TIMER_PERIODIC.
Definition timer_masked (a : APICState) : bool := has_flag (a_lvt a !!! APIC_LVT_TIMER) APIC_LVT_MASKED.
Definition period (a : APICState) : Z := (a_initial_count a + 1) * 2 ^ a_count_shift a.

(** Nothing is left to expire: the timer is masked, has no period, or has run down. *)
Definition run_down (a : APICState) (t : Z) : bool :=
  timer_masked a || (if periodic a then a_initial_count a =? 0 else timer_ticks a t >=? a_initial_count a).

Section expiry.
Context (a : APICState) (t : Z) (Hok : timer_ok a t).

Lemma unit_range : 1 <= 2 ^ a_count_shift a <= 2 ^ 7.
Proof.
  pose proof (to_shift _ _ Hok). split; [apply (Z.pow_le_mono_r 2 0); lia|apply Z.pow_le_mono_r; lia].
Qed.

Lemma period_range : 1 <= period a <= 2 ^ 39.
Proof.
  pose proof unit_range. pose proof (to_count _ _ Hok). unfold period.
  change (2 ^ 39) with (2 ^ 32 * 2 ^ 7). nia.
Qed.

Lemma ticks_div : timer_ticks a t = (t - a_initial_count_load_time a) / 2 ^ a_count_shift a.
Proof.
  destruct Hok. unfold timer_ticks. rewrite wrap64_id by (unfold in_int64; lia). apply Z.shiftr_div_pow2. lia.
Qed.

Lemma ticks_range :
  0 <= timer_ticks a t < 2 ^ 62 /\
  timer_ticks a t * 2 ^ a_count_shift a <= t - a_initial_count_load_time a < (timer_ticks a t + 1) * 2 ^ a_count_shift a.
Proof.
  rewrite ticks_div. pose proof unit_range. destruct Hok. set (w := 2 ^ a_count_shift a) in *.
  set (x := t - a_initial_count_load_time a) in *. assert (0 <= x < 2 ^ 62) as Hx by lia.
  pose proof (Z.mod_pos_bound x w ltac:(lia)). pose proof (Z.div_mod x w ltac:(lia)).
  pose proof (Z.div_pos x w ltac:(lia) ltac:(lia)). pose proof (Z.div_le_upper_bound x w x ltac:(lia) ltac:(nia)). split; [lia|nia].
Qed.

(** The whole periods that have passed. *)
Definition periods : Z := timer_ticks a t / (a_initial_count a + 1).

Lemma periods_ticks : periods * (a_initial_count a + 1) <= timer_ticks a t < (periods + 1) * (a_initial_count a + 1).
Proof.
  unfold periods. pose proof (to_count _ _ Hok). set (n := a_initial_count a + 1) in *. assert (0 < n) as Hn by lia.
  pose proof (Z.mod_pos_bound (timer_ticks a t) n Hn). pose proof (Z.div_mod (timer_ticks a t) n ltac:(lia)). lia.
Qed.

Lemma expiry_wrap d :
  0 <= d -> d * 2 ^ a_count_shift a < 2 ^ 62 + 2 ^ 40 -> 0 <= a_initial_count_load_time a + d * 2 ^ a_count_shift a < 2 ^ 63 ->
  wrap64 (a_initial_count_load_time a + wrap64 (Z.shiftl d (a_count_shift a))) = a_initial_count_load_time a + d * 2 ^ a_count_shift a.
Proof.
  intros Hd H1 H2. destruct Hok. rewrite Z.shiftl_mul_pow2 by lia. pose proof unit_range.
  rewrite (wrap64_id (d * _)) by (unfold in_int64; nia). by rewrite wrap64_id by (unfold in_int64; lia).
Qed.

Lemma next_expiry_periodic :
  timer_masked a = false -> periodic a = true -> a_initial_count a <> 0 ->
  next_expiry a t = Some (a_initial_count_load_time a + (periods + 1) * period a).
Proof.
  intros Hm Hp Hc. unfold next_expiry. fold (timer_masked a) (periodic a). rewrite Hm, Hp, (proj2 (Z.eqb_neq _ _) Hc).
  pose proof ticks_range as [Hr1 Hr2]. pose proof periods_ticks as Hpt. pose proof unit_range as Hu. destruct Hok.
  rewrite (u64_id (timer_ticks a t)) by lia. fold periods.
  assert (0 <= periods <= timer_ticks a t) as Hp0 by (unfold periods; split; [apply Z.div_pos; lia|apply Z.div_le_upper_bound; nia]).
  set (n := a_initial_count a + 1) in *. assert (1 <= n <= 2 ^ 32) as Hn by lia.
  assert ((periods + 1) * n <= timer_ticks a t + 2 ^ 32) as Hle by nia.
  rewrite (u64_id (periods + 1)), (u64_id ((periods + 1) * n)), (wrap64_id ((periods + 1) * n)) by (unfold in_int64; nia).
  unfold period. fold n. rewrite expiry_wrap by nia. f_equal. lia.
Qed.

Lemma next_expiry_once :
  timer_masked a = false -> periodic a = false -> timer_ticks a t < a_initial_count a ->
  next_expiry a t = Some (a_initial_count_load_time a + period a).
Proof.
  intros Hm Hp Hc. unfold next_expiry. fold (timer_masked a) (periodic a). rewrite Hm, Hp.
  zdecide (timer_ticks a t >=? a_initial_count a). pose proof (period_range) as Hr. unfold period in *. destruct Hok.
  rewrite expiry_wrap by lia. done.
Qed.

Lemma next_expiry_none : next_expiry a t = None <-> run_down a t = true.
Proof.
  unfold next_expiry, run_down. fold (timer_masked a) (periodic a).
  destruct (timer_masked a), (periodic a); [done..| |]; cbn [orb].
  - by destruct (a_initial_count a =? 0).
  - by destruct (_ >=? _).
Qed.

Lemma current_count_periodic :
  periodic a = true -> apic_get_current_count t a = a_initial_count a - timer_ticks a t mod (a_initial_count a + 1).
Proof.
  intros Hp. unfold apic_get_current_count. fold (periodic a). rewrite Hp. pose proof ticks_range as [Hr _]. destruct Hok.
  rewrite (u64_id (timer_ticks a t)) by lia. pose proof (Z.mod_pos_bound (timer_ticks a t) (a_initial_count a + 1) ltac:(lia)).
  apply u32_id. lia.
Qed.

(** The count that the guest reads tells when the timer expires. *)
Lemma next_expiry_count n :
  next_expiry a t = Some n ->
  n = a_initial_count_load_time a + (timer_ticks a t + apic_get_current_count t a + 1) * 2 ^ a_count_shift a /\
  t < n <= t + period a.
Proof.
  intros Hn. assert (run_down a t = false) as Hrd.
  { apply not_true_is_false. intros Hr. apply next_expiry_none in Hr. congruence. }
  pose proof ticks_range as [Hr1 Hr2]. pose proof unit_range as Hu.
  unfold run_down in Hrd. apply orb_false_iff in Hrd as [Hm Hrd]. destruct (periodic a) eqn:Hp.
  - rewrite next_expiry_periodic in Hn by (done || by apply Z.eqb_neq). injection Hn as <-. rewrite current_count_periodic by done.
    pose proof (periods_ticks) as Hpt. unfold periods, period in *. destruct Hok.
    pose proof (Z.div_mod (timer_ticks a t) (a_initial_count a + 1) ltac:(lia)) as Hdm.
    set (q := timer_ticks a t / (a_initial_count a + 1)) in *. set (r := timer_ticks a t mod (a_initial_count a + 1)) in *.
    assert ((q + 1) * (a_initial_count a + 1) = timer_ticks a t + (a_initial_count a - r) + 1) as E by lia.
    rewrite Z.mul_assoc, E. split; [done|]. nia.
  - rewrite Z.geb_leb, Z.leb_gt in Hrd. rewrite next_expiry_once in Hn by done. injection Hn as <-.
    unfold apic_get_current_count. fold (periodic a). rewrite Hp. zdecide (timer_ticks a t >=? a_initial_count a). destruct Hok.
    rewrite u32_id by lia. unfold period. split; [f_equal; f_equal; lia|]. nia.
Qed.
End expiry.

(** ** The loop over the expired timers *)

(** The entry of the table delivers a fixed vector. *)
Definition fixed_timer (a : APICState) : Prop :=
  timer_masked a = true \/ Z.land (Z.shiftr (a_lvt a !!! APIC_LVT_TIMER) 8) 7 = APIC_DM_FIXED.

(** The active timers are those of APICs that know their expiry. *)
Record timers_inv (b : board) : Prop := {
  ti_bus : bus_ok b;
  ti_sorted : timers_ok (bd_timers b);
  ti_apic ts t : (ts, t) ∈ bd_timers b ->
    exists e a, ts = ApicTimer e /\ bd_apics b !! e = Some a /\ a_next_time a = t /\ timer_ok a t /\ fixed_timer a
}.

(** Registers that the bus does not depend on. *)
Lemma bus_ok_same b b' :
  bus_ok b -> bd_machine b' = bd_machine b -> ch_master (bd_chips b') = ch_master (bd_chips b) ->
  Forall2 (fun a a' => a_irr a' = a_irr a /\ a_tmr a' = a_tmr a /\ a_lvt a' = a_lvt a) (bd_apics b) (bd_apics b') -> bus_ok b'.
Proof.
  intros [Ht Hln Hmax Hno Hregs Hpic] Em Ec Ha. pose proof (Forall2_length _ _ _ Ha) as Hl. split; rewrite ?Em; [done|lia|lia|done|..].
  - clear -Hregs Ha. induction Ha as [|a a' l l' (E1&E2&_) _ IH]; [done|]. apply Forall_cons in Hregs as [[? ?] ?].
    constructor; [|by apply IH]. unfold apic_regs. by rewrite E1, E2.
  - intros e. pose proof (Hpic e) as Hp. unfold pic_plain in *. rewrite Ec.
    replace (a_lvt (bd_apic e b')) with (a_lvt (bd_apic e b)); [done|]. unfold bd_apic. rewrite !list_lookup_total_alt.
    destruct (bd_apics b !! e) as [a|] eqn:E.
    + by destruct (Forall2_lookup_l _ _ _ _ _ Ha E) as (a'&->&_&_&El).
    + by rewrite (lookup_ge_None_2 (bd_apics b')) by (rewrite <- Hl; by apply lookup_ge_None).
Qed.

Lemma set_timers_bus l b : bus_ok b -> bus_ok (set_bd_timers l b).
Proof.
  intros H. eapply bus_ok_same; [exact H|done|done|]. apply Forall2_same_length_lookup. split; [done|].
  intros i a a' Ha Ha'. cbn in Ha'. rewrite Ha in Ha'. by injection Ha' as <-.
Qed.

Lemma next_time_bus e n b : bus_ok b -> bus_ok (set_bd_apics (alter (set_a_next_time n) e (bd_apics b)) b).
Proof.
  intros H. eapply bus_ok_same; [exact H|done|done|]. cbn -[alter]. apply Forall2_same_length_lookup. rewrite length_alter.
  split; [done|]. intros i a a' Ha Ha'. rewrite list_lookup_alter in Ha'. case_decide; [subst i|]; rewrite Ha in Ha'; by injection Ha' as <-.
Qed.

(** The delivery of the timer's vector changes the request registers of its APIC
    and no timer. *)
Lemma local_deliver_timer b e a :
  bus_ok b -> bd_apics b !! e = Some a -> fixed_timer a ->
  exists b1 a1, apic_local_deliver e APIC_LVT_TIMER b = Ret b1 tt /\ bus_ok b1 /\ bd_timers b1 = bd_timers b /\
    bd_apics b1 !! e = Some a1 /\ (a1 = a \/ exists v, a1 = with_request v false a) /\
    (forall e', e' <> e -> bd_apics b1 !! e' = bd_apics b !! e').
Proof.
  intros Hok Ha Hf. unfold apic_local_deliver, local_deliver_with.
  assert (bd_apic e b = a) as Eb by (by apply list_lookup_total_correct).
  destruct (negb (Z.land (a_lvt a !!! APIC_LVT_TIMER) APIC_LVT_MASKED =? 0)) eqn:Em.
  { exists b, a. erewrite bind_Ret by reflexivity. rewrite Eb, Em. split_and!; auto. }
  destruct Hf as [Hf|Hf]; [unfold timer_masked, has_flag, c_true in Hf; congruence|].
  set (v := Z.land (a_lvt a !!! APIC_LVT_TIMER) 255). assert (vector v) as Hv.
  { unfold v, vector. change 255 with (Z.ones 8). rewrite Z.land_ones by lia. apply Z.mod_pos_bound. lia. }
  destruct (set_irq_delivered e v false b Hv Hok) as (b1&E1&H); [by eapply lookup_lt_Some|].
  pose proof (dv_apics _ _ _ _ _ H) as Hap. exists b1, (with_request v false a). split.
  { erewrite bind_Ret by reflexivity. rewrite Eb, Em, Hf. exact E1. }
  split; [apply H|]. split; [unfold bd_timers; by rewrite (dv_chips _ _ _ _ _ H)|]. split_and!.
  - rewrite Hap, Ha, decide_True by set_solver. done.
  - right. by exists v.
  - intros e' He'. rewrite Hap, decide_False by set_solver. by destruct (bd_apics b !! e').
Qed.

Lemma timer_ok_next a t n : timer_ok a t -> t < n < 2 ^ 62 -> timer_ok (set_a_next_time n a) n.
Proof. intros [] Hn. split; cbn; lia. Qed.

(** A callback returns, and arms its timer, if at all, for a later time. *)
Lemma apic_timer_callback dev now b e t rest :
  now < 2 ^ 61 -> timers_inv b -> bd_timers b = (ApicTimer e, t) :: rest -> t <= now ->
  exists b', timer_callback dev (ApicTimer e) (set_bd_timers rest b) = Ret b' tt /\ timers_inv b' /\
    (bd_timers b' = rest \/ exists t', t < t' /\ bd_timers b' = qemu_mod_timer_ns (ApicTimer e) t' rest).
Proof.
  intros Hnow [Hbus Hsort Hap] Et Ht. rewrite Et in Hsort, Hap.
  destruct (Hap (ApicTimer e) t (list_elem_of_here _ _)) as (e0&a&[= <-]&Ha&Hnt&Htok&Hfix).
  destruct (local_deliver_timer (set_bd_timers rest b) e a) as (b1&a1&E1&Hb1&Et1&Ha1&Hsame&Hoth);
    [by apply set_timers_bus|done|done|]. change (bd_timers (set_bd_timers rest b)) with rest in Et1.
  assert (next_expiry a1 (a_next_time a1) = next_expiry a t) as En by (destruct Hsame as [->|[v ->]]; by rewrite <- Hnt).
  assert (timer_ok a1 t /\ fixed_timer a1) as [Htok1 Hfix1].
  { destruct Hsame as [->|[v ->]]; [done|]. split; [by destruct Htok|exact Hfix]. }
  destruct Hsort as [Hsort Hnd]. apply StronglySorted_inv in Hsort as [Hsort _]. cbn in Hnd. apply NoDup_cons in Hnd as [Hnin Hnd].
  assert (timers_ok rest) as Hrest by done.
  assert (forall ts t0, (ts, t0) ∈ rest -> exists e' a', ts = ApicTimer e' /\ e' <> e /\ bd_apics b1 !! e' = Some a' /\
    a_next_time a' = t0 /\ timer_ok a' t0 /\ fixed_timer a') as Hothers.
  { intros ts t0 Hin. destruct (Hap ts t0) as (e'&a'&->&Ha'&?); [by right|]. exists e', a'. split; [done|].
    assert (e' <> e) as Hne by (intros ->; destruct Hnin; by apply (list_elem_of_fmap_2 fst _ (ApicTimer e, t0))).
    split; [done|]. by rewrite (Hoth e' Hne). }
  cbn [timer_callback]. unfold apic_timer. rewrite (bind_Ret _ _ _ _ _ E1). erewrite bind_Ret by reflexivity.
  assert (bd_apic e b1 = a1) as Eb by (by apply list_lookup_total_correct).
  unfold apic_timer_update. erewrite bind_Ret by reflexivity. rewrite Eb, En. destruct (next_expiry a t) as [n|] eqn:Enx.
  - destruct (next_expiry_count a t Htok n Enx) as [_ Hn]. pose proof (period_range a t Htok) as Hp.
    erewrite bind_Ret by reflexivity. eexists. split; [reflexivity|].
    set (b2 := set_bd_chips _ b1). assert (bd_timers b2 = qemu_mod_timer_ns (ApicTimer e) n rest) as Et2.
    { unfold b2. cbn. by rewrite <- Et1. }
    split; [|right; exists n; split; [lia|exact Et2]]. split.
    + apply next_time_bus. unfold b2. by apply (set_timers_bus (qemu_mod_timer_ns (ApicTimer e) n (ch_timers (bd_chips b1)))).
    + change (timers_ok (bd_timers b2)). rewrite Et2. by apply mod_ok.
    + change (bd_timers (set_bd_apics _ b2)) with (bd_timers b2). rewrite Et2. intros ts t0 Hin.
      unfold qemu_mod_timer_ns in Hin. rewrite insert_perm, elem_of_cons, del_absent in Hin by done.
      destruct Hin as [[= -> ->]|Hin].
      * exists e, (set_a_next_time n a1). cbn -[alter]. rewrite list_lookup_alter_eq, Ha1. split_and!; try done.
        apply (timer_ok_next a1 t); [done|lia].
      * destruct (Hothers ts t0 Hin) as (e'&a'&->&Hne&Ha'&?). exists e', a'. cbn -[alter]. by rewrite list_lookup_alter_ne.
  - eexists. split; [reflexivity|]. set (b2 := set_bd_chips _ b1). assert (bd_timers b2 = rest) as Et2.
    { unfold b2. cbn. change (ch_timers (bd_chips b1)) with (bd_timers b1). rewrite Et1. by apply del_absent. }
    split; [|by left]. split.
    + unfold b2. by apply (set_timers_bus (qemu_del_timer (ApicTimer e) (ch_timers (bd_chips b1)))).
    + by rewrite Et2.
    + rewrite Et2. intros ts t0 Hin. destruct (Hothers ts t0 Hin) as (e'&a'&->&_&?). by exists e', a'.
Qed.

Lemma apic_callbacks_ok dev now :
  now < 2 ^ 61 -> callbacks_ok bd_timers set_bd_timers (timer_callback dev) timers_inv now.
Proof.
  intros Hnow. split; [by intros b []|]. intros b ts t rest Hb Et Ht.
  destruct (ti_apic _ Hb ts t) as (e&_&->&_); [rewrite Et; by left|]. by apply (apic_timer_callback dev now).
Qed.



(** ** Witnesses *)

(** A periodic timer of 4 ticks of 2 ns, loaded at 100. *)
Definition sample_timer : APICState :=
  set_a_next_time 108 (set_a_lvt (<[APIC_LVT_TIMER := APIC_LVT_TIMER_PERIODIC + 49]> (replicate 6 (2 ^ 16)))
    (set_a_initial_count 3 (set_a_initial_count_load_time 100 (set_a_count_shift 1 (sample_apic 0))))).


(** At 125 the timer has missed the expiries at 108, 116 and 124. *)
Definition sample_late : board :=
  set_bd_chips (set_ch_now 125 (set_ch_timers [(ApicTimer 0, 108)] sample_chips))
    (set_bd_apics [sample_timer; sample_apic 1] sample_bus).

