(* ===== verification/ChipsTypes.v ===== *)
(** * ChipsTypes.v -- the registers of the interrupt controllers stay in range

    The registers of the local APICs, the 8259 controllers and the IO-APIC are
    [uint8_t], [uint32_t] and [uint64_t] fields and arrays of fixed length in the
    source, and mathematical integers and lists in the model.  This file shows that
    they keep their widths and lengths under everything the guest, the devices and
    the timers do, so that nothing is lost by leaving the truncations out, and that
    a register reads back what was written to it. *)

From S2P Require Import Prelude Preserving Liveness LoopTrace Machine Sched Interrupts RaceDetector Stats InstructionDetector Instrument Timers Pic Board Apic Chips Delivery.

(** ** Types *)

Definition uint8 (z : Z) : Prop := 0 <= z < 2 ^ 8.
Definition uint32 (z : Z) : Prop := 0 <= z < 2 ^ 32.
Definition uint64 (z : Z) : Prop := 0 <= z < 2 ^ 64.
Definition array (n : nat) (P : Z -> Prop) (l : list Z) : Prop := length l = n /\ Forall P l.

Record apic_typed (a : APICState) : Prop := {
  at_apicbase : uint32 (a_apicbase a); at_id : uint8 (a_id a); at_arb_id : uint8 (a_arb_id a); at_tpr : uint8 (a_tpr a);
  at_spurious_vec : uint32 (a_spurious_vec a); at_log_dest : uint8 (a_log_dest a); at_dest_mode : uint8 (a_dest_mode a);
  at_tmr : array 8 uint32 (a_tmr a); at_irr : array 8 uint32 (a_irr a); at_lvt : array APIC_LVT_NB uint32 (a_lvt a);
  at_esr : uint32 (a_esr a); at_icr : array 2 uint32 (a_icr a); at_divide_conf : uint32 (a_divide_conf a);
  at_count_shift : 0 <= a_count_shift a < 8; at_initial_count : uint32 (a_initial_count a);
  at_load_time : in_int64 (a_initial_count_load_time a); at_next_time : in_int64 (a_next_time a); at_sipi : uint8 (a_sipi_vector a)
}.

Record pic_typed (s : PicState) : Prop := {
  pt_last_irr : uint8 (p_last_irr s); pt_irr : uint8 (p_irr s); pt_imr : uint8 (p_imr s); pt_isr : uint8 (p_isr s);
  pt_priority_add : 0 <= p_priority_add s < 8; pt_irq_base : uint8 (p_irq_base s);
  pt_read_reg_select : uint8 (p_read_reg_select s); pt_poll : uint8 (p_poll s); pt_special_mask : uint8 (p_special_mask s);
  pt_init_state : 0 <= p_init_state s < 4; pt_auto_eoi : uint8 (p_auto_eoi s); pt_rotate : uint8 (p_rotate_on_auto_eoi s);
  pt_nested : uint8 (p_special_fully_nested_mode s); pt_init4 : uint8 (p_init4 s); pt_single_mode : uint8 (p_single_mode s);
  pt_elcr : uint8 (p_elcr s); pt_elcr_mask : uint8 (p_elcr_mask s)
}.

(** Only the bits of the pins can be set in the request register. *)
Record ioapic_typed (s : IOAPICState) : Prop := {
  it_id : uint8 (io_id s); it_ioregsel : uint8 (io_ioregsel s); it_irr : 0 <= io_irr s < 2 ^ Z.of_nat IOAPIC_NUM_PINS;
  it_redtbl : array IOAPIC_NUM_PINS uint64 (io_ioredtbl s)
}.

Record chips_typed (b : board) : Prop := {
  ct_apics : Forall apic_typed (bd_apics b);
  ct_isr : Forall (fun c => array 8 uint32 (cpu_apic_isr c)) (m_cpus (bd_machine b));
  ct_master : pic_typed (ch_master (bd_chips b));
  ct_slave : pic_typed (ch_slave (bd_chips b));
  ct_ioapic : ioapic_typed (ch_ioapic (bd_chips b));
  ct_now : in_int64 (bd_now b);
  ct_irq_delivered : in_int (bd_irq_delivered b)
}.

(** Operations that keep the types, however they end. *)
Definition keeps_typed (b b' : board) : Prop := chips_typed b -> chips_typed b'.
Definition typing {A} (op : LOOP A) : Prop := preserving keeps_typed keeps_typed keeps_typed op.
#[export] Instance keeping_typed : Keeping keeps_typed keeps_typed keeps_typed.
Proof. unfold keeps_typed. split; [split; [by intros b|intros b1 b2 b3; auto]|auto..]. Qed.

(** ** Ranges *)

Lemma land_const a c : 0 <= c -> 0 <= Z.land a c <= c.
Proof. intros Hc. rewrite Z.land_comm. pose proof (land_range c a (c + 1) ltac:(lia)). lia. Qed.

Lemma shiftr_range a k n : 0 <= k -> 0 <= a < 2 ^ (n + k) -> 0 <= n -> 0 <= Z.shiftr a k < 2 ^ n.
Proof.
  intros Hk Ha Hn. rewrite Z.shiftr_div_pow2 by done. rewrite Z.pow_add_r in Ha by done.
  pose proof (Z.pow_pos_nonneg 2 k ltac:(lia) Hk). split; [apply Z.div_pos; lia|apply Z.div_lt_upper_bound; nia].
Qed.

Lemma bit_range i n : 0 <= i < n -> 0 <= bit i < 2 ^ n.
Proof. intros Hi. unfold bit. rewrite Z.shiftl_1_l. split; [apply Z.pow_nonneg; lia|apply Z.pow_lt_mono_r; lia]. Qed.

Lemma array_insert n P l i x : array n P l -> P x -> array n P (<[i := x]> l).
Proof. intros [Hl Hf] Hx. split; [by rewrite length_insert|]. by apply Forall_insert. Qed.
Lemma array_alter n P l i f : array n P l -> (forall x, P x -> P (f x)) -> array n P (alter f i l).
Proof. intros [Hl Hf] H. split; [by rewrite length_alter|]. apply Forall_alter; [done|]. auto. Qed.
Lemma array_lookup n (P : Z -> Prop) l i : array n P l -> (i < n)%nat -> P (l !!! i).
Proof.
  intros [Hl Hf] Hi. destruct (lookup_lt_is_Some_2 l i) as [x Hx]; [lia|].
  rewrite (list_lookup_total_correct _ _ _ Hx). by eapply Forall_lookup_1 in Hf.
Qed.

Lemma array_set tab v : array 8 uint32 tab -> array 8 uint32 (set_bit tab v).
Proof. intros H. apply array_alter; [done|]. intros w Hw. by apply lor_range; [lia| |apply bit_word]. Qed.
Lemma array_reset tab v : array 8 uint32 tab -> array 8 uint32 (reset_bit tab v).
Proof. intros H. apply array_alter; [done|]. intros w Hw. by apply land_range. Qed.

Create HintDb typed.
#[export] Hint Resolve at_apicbase at_id at_arb_id at_tpr at_spurious_vec at_log_dest at_dest_mode at_tmr at_irr at_lvt at_esr at_icr
  at_divide_conf at_count_shift at_initial_count at_load_time at_next_time at_sipi : typed.
#[export] Hint Resolve pt_last_irr pt_irr pt_imr pt_isr pt_priority_add pt_irq_base pt_read_reg_select pt_poll pt_special_mask
  pt_init_state pt_auto_eoi pt_rotate pt_nested pt_init4 pt_single_mode pt_elcr pt_elcr_mask : typed.
#[export] Hint Resolve it_id it_ioregsel it_irr it_redtbl : typed.
#[export] Hint Resolve array_insert array_set array_reset : typed.

(** ** Changes of one controller *)

Lemma typing_mod_apic e f : (forall a, apic_typed a -> apic_typed (f a)) -> typing (mod_apic e f).
Proof.
  intros Hf b []. split; try done. cbn -[alter]. apply Forall_alter; [done|]. auto.
Qed.
Lemma typing_mod_pic w f : (forall s, pic_typed s -> pic_typed (f s)) -> typing (mod_pic w f).
Proof. intros Hf b []. destruct w; split; cbn; auto. Qed.
Lemma typing_mod_ioapic f : (forall s, ioapic_typed s -> ioapic_typed (f s)) -> typing (mod_ioapic f).
Proof. intros Hf b []. split; cbn; auto. Qed.
Lemma typing_mod_timers f : typing (mod_chips (fun c => set_ch_timers (f c) c)).
Proof. intros b []. by split. Qed.

(** Operations of the scheduler that leave the in-service registers alone. *)
Definition same_isrs (m m' : machine) : Prop := cpu_apic_isr <$> m_cpus m' = cpu_apic_isr <$> m_cpus m.
Definition isr_free {A} (op : SCH A) : Prop := preserving same_isrs same_isrs same_isrs op.
#[export] Instance keeping_isrs : Keeping same_isrs same_isrs same_isrs.
Proof. unfold same_isrs. split; [split; [by intros m|congruence]|congruence|congruence|done]. Qed.

Lemma typing_on_sch {A} (op : SCH A) : isr_free op -> typing (on_sch op).
Proof.
  intros Ho b. rewrite on_sch_run. specialize (Ho (bd_machine b)). unfold same_isrs in Ho.
  assert (forall m, cpu_apic_isr <$> m_cpus m = cpu_apic_isr <$> m_cpus (bd_machine b) -> keeps_typed b (set_bd_machine m b)) as H.
  { intros m E [Ha Hi]. split; try done. change (bd_machine (set_bd_machine m b)) with m.
    apply (Forall_fmap cpu_apic_isr (array 8 uint32)). rewrite E. by apply Forall_fmap. }
  destruct (op (bd_machine b)); by apply H.
Qed.

Ltac isr_step :=
  match goal with
  | |- preserving same_isrs _ _ ?op => change (isr_free op)
  | |- isr_free (mod_cpu _ _) => intros ?; apply alter_fmap_same; reflexivity
  | |- isr_free (mod_thread _ _) => by intros ?
  | |- isr_free (get_cpu _) => by intros ?
  | |- _ => preserving_step
  end.

Lemma isr_free_new_irq e v : isr_free (ski_handle_new_irq_set e v).
Proof. unfold ski_handle_new_irq_set. repeat isr_step. Qed.

Lemma typing_cpu_interrupt e mask : typing (cpu_interrupt e mask).
Proof. apply typing_on_sch. isr_step. Qed.
Lemma typing_reset_interrupt e mask : typing (cpu_reset_interrupt e mask).
Proof. apply typing_on_sch. isr_step. Qed.
Lemma typing_new_irq e v : typing (on_sch (ski_handle_new_irq_set e v)).
Proof. apply typing_on_sch, isr_free_new_irq. Qed.
Lemma typing_mod_isr e f :
  (forall l, array 8 uint32 l -> array 8 uint32 (f l)) ->
  typing (on_sch (mod_cpu e (fun c => set_cpu_apic_isr (f (cpu_apic_isr c)) c))).
Proof. intros Hf b []. split; try done. cbn -[alter]. apply Forall_alter; [done|]. intros c _ Hc. by apply Hf. Qed.
#[export] Hint Resolve typing_cpu_interrupt typing_reset_interrupt typing_new_irq typing_mod_timers : typed.

(** What is read from a well-typed board is well-typed. *)
Lemma typing_get {A} (k : board -> LOOP A) : (forall b, chips_typed b -> typing (k b)) -> typing (b <- get ;; k b).
Proof.
  intros Hk b. erewrite bind_Ret by reflexivity. unfold keeps_typed.
  destruct (k b b) eqn:E; cbn; intros Hb; specialize (Hk b Hb b); rewrite E in Hk; by apply Hk.
Qed.

(** Takes an operation apart; [typed_fields] shows the fields of a changed record. *)
Ltac typed_fields := intros; split; cbn; eauto with typed.
Ltac typing_step :=
  match goal with
  | |- preserving keeps_typed _ _ ?op => change (typing op)
  | |- typing (bind get _) => apply typing_get; intros
  | |- typing _ => solve [eauto 4 with typed]
  | |- typing (mod_apic _ _) => apply typing_mod_apic; typed_fields
  | |- typing (mod_pic _ _) => apply typing_mod_pic; typed_fields
  | |- typing (mod_ioapic _) => apply typing_mod_ioapic; typed_fields
  | |- _ => preserving_step
  end.
Ltac solve_typing := repeat typing_step.

Ltac small := unfold uint8, uint32, uint64 in *; lia.
Ltac masked_value :=
  match goal with
  | |- context [Z.land ?x ?c] => pose proof (land_const x c ltac:(lia)); small
  end.
#[export] Hint Extern 1 (uint8 _) => first [small | masked_value] : typed.
#[export] Hint Extern 1 (uint32 _) => first [small | masked_value] : typed.
#[export] Hint Extern 1 (_ <= _ < _) => first [lia | masked_value] : typed.

Lemma wrap_in_int z : in_int (wrap32 z).
Proof. apply wrap32_range. Qed.

(** ** The local APICs *)

Lemma typing_set_irq_with u e v t : (forall i, typing (u i)) -> typing (set_irq_with u e v t).
Proof.
  intros Hu. unfold set_irq_with. solve_typing; [|eauto with typed..].
  intros b []. split; try done. apply wrap32_range.
Qed.
Lemma typing_local_with u e n : (forall i, typing (u i)) -> typing (local_deliver_with u e n).
Proof.
  intros Hu. unfold local_deliver_with. solve_typing. by apply typing_set_irq_with.
Qed.
Lemma typing_update_at d e : typing (update_irq_at d e).
Proof.
  revert e. induction d as [|d IH]; intros e; cbn [update_irq_at]; solve_typing. by apply typing_local_with.
Qed.
Lemma typing_update_irq e : typing (apic_update_irq e).
Proof. apply typing_update_at. Qed.
Lemma typing_set_irq e v t : typing (apic_set_irq e v t).
Proof. apply typing_set_irq_with. intros. apply typing_update_at. Qed.
Lemma typing_local_deliver e n : typing (apic_local_deliver e n).
Proof. apply typing_local_with. intros. apply typing_update_at. Qed.
#[export] Hint Resolve typing_update_irq typing_set_irq typing_local_deliver : typed.

Lemma typing_deliver_pic e l : typing (apic_deliver_pic_intr e l).
Proof. unfold apic_deliver_pic_intr. solve_typing. Qed.
Lemma typing_foreach_apic l f : (forall i, typing (f i)) -> typing (foreach_apic l f).
Proof. intros Hf. unfold foreach_apic. solve_typing. Qed.
Lemma typing_bus_deliver l dm v t : typing (apic_bus_deliver l dm v t).
Proof. unfold apic_bus_deliver. solve_typing; apply typing_foreach_apic; intros; solve_typing. Qed.
#[export] Hint Resolve typing_deliver_pic typing_foreach_apic typing_bus_deliver : typed.
Lemma typing_deliver_irq d dmo dm v t : typing (apic_deliver_irq d dmo dm v t).
Proof. unfold apic_deliver_irq. solve_typing. Qed.
Lemma typing_deliver e d dmo dm v t : uint8 v -> typing (apic_deliver e d dmo dm v t).
Proof.
  intros Hv. unfold apic_deliver, apic_startup. solve_typing; apply typing_foreach_apic; intros; solve_typing.
Qed.
Lemma next_expiry_int64 a t n : next_expiry a t = Some n -> in_int64 n.
Proof. unfold next_expiry. repeat (case_match; try done); intros [= <-]; apply wrap64_range. Qed.
Lemma typing_timer_update e t : typing (apic_timer_update e t).
Proof.
  unfold apic_timer_update. apply typing_get. intros b Hb. destruct (next_expiry (bd_apic e b) t) as [n|] eqn:E.
  - apply next_expiry_int64 in E. solve_typing.
  - solve_typing.
Qed.
#[export] Hint Resolve typing_deliver_irq typing_deliver typing_timer_update : typed.
Lemma typing_timer e : typing (apic_timer e).
Proof. unfold apic_timer. solve_typing. Qed.
Lemma typing_assert e : typing (on_sch (SKI_ASSERT e)).
Proof. apply typing_on_sch. unfold SKI_ASSERT. repeat isr_step. Qed.
#[export] Hint Resolve typing_timer typing_assert : typed.
Lemma typing_highest tab e : typing (ski_apic_get_highest_priority_int tab e).
Proof. unfold ski_apic_get_highest_priority_int. solve_typing. Qed.
#[export] Hint Resolve typing_highest : typed.
Lemma typing_accept e intno : typing (accept_interrupt e intno).
Proof.
  unfold accept_interrupt. destruct (_ =? 0); [solve_typing|]. destruct (intno <? 0); solve_typing.
  apply (typing_mod_isr e (fun l => set_bit l intno)). eauto with typed.
Qed.
#[export] Hint Resolve typing_accept : typed.

(** ** The 8259 controllers *)

Lemma pic_get_irq_range s : -1 <= pic_get_irq s < 8.
Proof. destruct (pic_get_irq_wanted s) as [(?&_)|[-> _]]; lia. Qed.

Lemma uint8_bit i : 0 <= i < 8 -> uint8 (bit i).
Proof. intros Hi. apply bit_range. lia. Qed.
Lemma uint8_lor a b : uint8 a -> uint8 b -> uint8 (Z.lor a b).
Proof. intros. by apply lor_range. Qed.
Lemma uint8_land a b : uint8 a -> uint8 (Z.land a b).
Proof. apply land_range. Qed.
#[export] Hint Resolve uint8_bit uint8_lor uint8_land : typed.

Lemma typing_irq_request l : typing (pic_irq_request l).
Proof. unfold pic_irq_request. solve_typing. Qed.
#[export] Hint Resolve typing_irq_request : typed.
Lemma line_set_typed irq l s : 0 <= irq < 8 -> pic_typed s -> pic_typed (line_set irq l s).
Proof. intros Hi Hs. pose proof (uint8_bit irq Hi). unfold line_set. repeat case_match; split; cbn; eauto with typed. Qed.
Lemma acknowledged_typed irq s : 0 <= irq < 8 -> pic_typed s -> pic_typed (acknowledged irq s).
Proof. intros Hi Hs. pose proof (uint8_bit irq Hi). unfold acknowledged. repeat case_match; split; cbn; eauto with typed. Qed.

Lemma typing_line_set w irq l : 0 <= irq < 8 -> typing (mod_pic w (line_set irq l)).
Proof. intros Hi. apply typing_mod_pic. intros s. by apply line_set_typed. Qed.
#[export] Hint Resolve typing_line_set : typed.
Lemma typing_pic_update w : typing (pic_update_irq w).
Proof.
  unfold pic_update_irq, set_irq_master, update_master. destruct w; solve_typing.
Qed.
#[export] Hint Resolve typing_pic_update : typed.
Lemma typing_pic_set_irq w irq l : 0 <= irq < 8 -> typing (pic_set_irq w irq l).
Proof. intros Hi. unfold pic_set_irq. apply preserving_bind; [apply _|by apply typing_line_set|intros; apply typing_pic_update]. Qed.
Lemma typing_intack w irq : 0 <= irq < 8 -> typing (pic_intack w irq).
Proof.
  intros Hi. unfold pic_intack. apply preserving_bind; [apply _| |intros; apply typing_pic_update].
  apply typing_mod_pic. intros s. by apply acknowledged_typed.
Qed.
#[export] Hint Resolve typing_pic_set_irq typing_intack : typed.

Lemma typing_read_irq : typing pic_read_irq.
Proof.
  unfold pic_read_irq. apply typing_get. intros b Hb. pose proof (pic_get_irq_range (pic_of Master b)).
  pose proof (pic_get_irq_range (pic_of Slave b)). destruct (Z.geb_spec (pic_get_irq (pic_of Master b)) 0); [|solve_typing].
  destruct (Z.geb_spec (pic_get_irq (pic_of Slave b)) 0); solve_typing; apply typing_intack; lia.
Qed.
Lemma typing_pic_init w : typing (pic_init_reset w).
Proof. unfold pic_init_reset. solve_typing. Qed.
#[export] Hint Resolve typing_read_irq typing_pic_init : typed.

Lemma rotate_range cmd : cmd = 0 \/ cmd = 4 -> uint8 (Z.shiftr cmd 2).
Proof. by intros [->| ->]. Qed.

Lemma typing_pic_command w val : uint8 val -> typing (pic_command w val).
Proof.
  intros Hv. unfold pic_command. destruct ((_ =? 0) || _) eqn:E0.
  { apply orb_true_iff in E0. rewrite !Z.eqb_eq in E0. apply rotate_range in E0. solve_typing. }
  clear E0. solve_typing.
Qed.

Lemma init_command_typed val s : pic_typed s -> pic_typed (init_command val s).
Proof. intros Hs. unfold init_command. repeat case_match; split; cbn; eauto with typed. Qed.

Lemma typing_pic_write w addr val : uint8 val -> typing (pic_ioport_write w addr val).
Proof.
  intros Hv. unfold pic_ioport_write. pose proof (typing_pic_command w val Hv).
  pose proof (typing_mod_pic w (init_command val) (init_command_typed val)). solve_typing.
Qed.
Lemma typing_pic_read w addr : typing (pic_ioport_read w addr).
Proof.
  unfold pic_ioport_read. apply typing_get. intros b Hb. pose proof (pic_get_irq_range (pic_of w b)).
  destruct (c_true _); [|solve_typing]. destruct (Z.geb_spec (pic_get_irq (pic_of w b)) 0); solve_typing; apply typing_intack; lia.
Qed.
Lemma typing_elcr w val : typing (elcr_ioport_write w val).
Proof.
  apply typing_mod_pic. intros s Hs. pose proof (pt_elcr_mask _ Hs) as Hm.
  split; cbn; eauto with typed. rewrite Z.land_comm. by apply uint8_land.
Qed.
#[export] Hint Resolve typing_pic_write typing_pic_read typing_elcr : typed.

(** ** The IO-APIC *)

Lemma pins_bit i : 0 <= i < Z.of_nat IOAPIC_NUM_PINS -> 0 <= bit i < 2 ^ Z.of_nat IOAPIC_NUM_PINS.
Proof. apply bit_range. Qed.
Lemma pins_clear a b : 0 <= a < 2 ^ Z.of_nat IOAPIC_NUM_PINS -> 0 <= Z.land a b < 2 ^ Z.of_nat IOAPIC_NUM_PINS.
Proof. apply land_range. Qed.
Lemma pins_set a b :
  0 <= a < 2 ^ Z.of_nat IOAPIC_NUM_PINS -> 0 <= b < 2 ^ Z.of_nat IOAPIC_NUM_PINS -> 0 <= Z.lor a b < 2 ^ Z.of_nat IOAPIC_NUM_PINS.
Proof. apply lor_range. lia. Qed.
Lemma uint64_remote x : uint64 x -> uint64 (Z.lor x IOAPIC_LVT_REMOTE_IRR).
Proof. intros Hx. by apply lor_range. Qed.
#[export] Hint Resolve pins_clear pins_set uint64_remote : typed.

Lemma typing_service_pin i : typing (service_pin i).
Proof.
  unfold service_pin. apply typing_get. intros b Hb. destruct (_ =? 0); [solve_typing|]. destruct (negb _); [solve_typing|].
  apply preserving_bind; [apply _| |intros; solve_typing].
  apply typing_mod_ioapic. intros s Hs. destruct (_ =? 0); split; cbn -[alter]; eauto with typed.
  apply array_alter; eauto with typed.
Qed.
#[export] Hint Resolve typing_service_pin : typed.
Lemma typing_ioapic_service : typing ioapic_service.
Proof. unfold ioapic_service. solve_typing. Qed.
#[export] Hint Resolve typing_ioapic_service : typed.

Lemma typing_pin_raise v : 0 <= v < Z.of_nat IOAPIC_NUM_PINS -> typing (mod_ioapic (fun s => set_io_irr (Z.lor (io_irr s) (bit v)) s)).
Proof. intros Hv. pose proof (pins_bit v Hv). apply typing_mod_ioapic. typed_fields. Qed.
Lemma typing_pin_lower v : typing (mod_ioapic (fun s => set_io_irr (Z.land (io_irr s) (Z.lnot (bit v))) s)).
Proof. apply typing_mod_ioapic. typed_fields. Qed.

Lemma typing_ioapic_set_irq v l : typing (ioapic_set_irq v l).
Proof.
  unfold ioapic_set_irq. set (v' := if v =? 0 then 2 else v). destruct (_ && _) eqn:E; cbn [when]; [|solve_typing].
  apply andb_true_iff in E as [E1 E2]. apply Z.geb_le in E1. apply Z.ltb_lt in E2.
  pose proof (typing_pin_raise v' ltac:(lia)). pose proof (typing_pin_lower v'). solve_typing.
Qed.

Lemma typing_eoi_broadcast v : typing (ioapic_eoi_broadcast v).
Proof.
  unfold ioapic_eoi_broadcast. apply preserving_for_each; [apply _|]. intros n. apply typing_get. intros b Hb.
  set (entry := io_ioredtbl _ !!! n). destruct (_ && _); cbn [when]; [|solve_typing].
  destruct (decide (n < IOAPIC_NUM_PINS)%nat) as [Hn|Hn].
  - assert (uint64 entry) as He by (apply (array_lookup IOAPIC_NUM_PINS); [apply it_redtbl, Hb|done]).
    assert (uint64 (Z.land entry (Z.lnot IOAPIC_LVT_REMOTE_IRR))) by (by apply land_range). solve_typing.
  - apply preserving_bind; [apply _| |intros; solve_typing]. apply typing_mod_ioapic. intros s Hs.
    pose proof (it_redtbl _ Hs) as [Hl Hf]. rewrite list_insert_ge by lia. by destruct s.
Qed.

Lemma write_half_range high val x : uint32 val -> uint64 x -> uint64 (write_half high val x).
Proof.
  intros Hv Hx. unfold write_half, uint64, uint32 in *. destruct high; apply lor_range; try lia.
  - pose proof (land_const x (2 ^ 32 - 1) ltac:(lia)). lia.
  - rewrite Z.shiftl_mul_pow2 by lia. lia.
  - by apply land_range.
Qed.
Lemma typing_ioapic_write addr val : uint32 val -> typing (ioapic_mem_writel addr val).
Proof.
  intros Hv. unfold ioapic_mem_writel. solve_typing. apply array_alter; [eauto with typed|]. intros x. by apply write_half_range.
Qed.
Lemma typing_ioapic_reset : typing ioapic_reset.
Proof. apply typing_mod_ioapic. intros s _. split; cbn; [small|small|lia|]. by split; [|repeat constructor]. Qed.
#[export] Hint Resolve typing_ioapic_set_irq typing_eoi_broadcast typing_ioapic_write : typed.

Lemma typing_gsi n l : 0 <= n -> typing (gsi_handler n l).
Proof.
  intros Hn. unfold gsi_handler, ISA_NUM_IRQS. apply preserving_bind; [apply _| |intros; solve_typing].
  destruct (Z.ltb_spec n 16); cbn [when]; [|solve_typing]. destruct (Z.ltb_spec n 8); apply typing_pic_set_irq; lia.
Qed.
#[export] Hint Resolve typing_gsi : typed.

(** ** The guest's accesses *)

Lemma typing_clear_isr e v : typing (on_sch (mod_cpu e (fun c => set_cpu_apic_isr (reset_bit (cpu_apic_isr c) v) c))).
Proof. apply (typing_mod_isr e (fun l => reset_bit l v)). eauto with typed. Qed.
#[export] Hint Resolve typing_clear_isr : typed.
Lemma typing_eoi e : typing (apic_eoi e).
Proof. unfold apic_eoi. solve_typing. Qed.

Lemma esr_range x : uint32 x -> uint32 (Z.lor x ESR_ILLEGAL_ADDRESS).
Proof. intros Hx. by apply lor_range. Qed.
#[export] Hint Resolve typing_eoi esr_range : typed.
Lemma typing_illegal e : typing (illegal_address e).
Proof. unfold illegal_address. solve_typing. Qed.
#[export] Hint Resolve typing_illegal : typed.
Lemma typing_apic_read e addr : typing (apic_mem_readl e addr).
Proof. unfold apic_mem_readl. solve_typing. Qed.

Lemma typing_command e val : uint32 val -> typing (write_command e val).
Proof. intros Hv. unfold write_command. solve_typing. Qed.
Lemma typing_divide e val : typing (mod_apic e (write_divide_conf val)).
Proof. apply typing_mod_apic. typed_fields. Qed.
Lemma typing_lvt e n val : uint32 val -> typing (mod_apic e (write_lvt n val)).
Proof. intros Hv. apply typing_mod_apic. typed_fields. Qed.
Lemma typing_icr e n val : uint32 val -> typing (mod_apic e (write_icr n val)).
Proof. intros Hv. apply typing_mod_apic. typed_fields. Qed.
#[export] Hint Resolve typing_command typing_divide typing_lvt typing_icr : typed.

Lemma high_byte val : uint32 val -> uint8 (Z.shiftr val 24).
Proof. intros Hv. apply shiftr_range; [lia|exact Hv|lia]. Qed.
Lemma high_nibble val : uint32 val -> uint8 (Z.shiftr val 28).
Proof.
  intros Hv. pose proof (shiftr_range val 28 4 ltac:(lia) Hv ltac:(lia)). small.
Qed.
#[export] Hint Resolve high_byte high_nibble : typed.

Lemma typing_apic_write e addr val : uint32 val -> typing (apic_mem_writel e addr val).
Proof.
  intros Hv. unfold apic_mem_writel, apic_send_msi. destruct (_ || _); [solve_typing|]. apply typing_get. intros b Hb.
  pose proof (ct_now _ Hb) as Hnow. solve_typing.
Qed.
Lemma typing_get_pic e : typing (cpu_get_pic_interrupt e).
Proof.
  unfold cpu_get_pic_interrupt, ski_apic_get_interrupt, original_apic_get_interrupt, ski_apic_irq_pending. solve_typing.
Qed.
Lemma typing_set_base e val : uint32 val -> typing (cpu_set_apic_base e val).
Proof.
  intros Hv. unfold cpu_set_apic_base. apply typing_mod_apic. intros a Ha.
  assert (uint32 (Z.lor (Z.land val 4294963200) (Z.land (a_apicbase a) (Z.lor MSR_IA32_APICBASE_BSP MSR_IA32_APICBASE_ENABLE)))).
  { change (Z.lor MSR_IA32_APICBASE_BSP MSR_IA32_APICBASE_ENABLE) with 2304. apply lor_range; [lia|..]; masked_value. }
  pose proof (at_spurious_vec _ Ha). destruct (_ =? 0); split; cbn; eauto with typed; by apply land_range.
Qed.
Lemma typing_set_tpr e val : typing (cpu_set_apic_tpr e val).
Proof.
  unfold cpu_set_apic_tpr. apply preserving_bind; [apply _| |intros; solve_typing]. apply typing_mod_apic. intros a Ha.
  split; cbn; eauto with typed. pose proof (land_const val 15 ltac:(lia)). rewrite Z.shiftl_mul_pow2 by lia. small.
Qed.
#[export] Hint Resolve typing_apic_read typing_apic_write typing_get_pic typing_set_base typing_set_tpr : typed.

(** Everything that reaches the controllers: accesses of a CPU, lines of devices,
    expired timers, and CPUs that ask for a vector. *)
Inductive chip_event :=
  | EApicRead (e : nat) (addr : Z)
  | EApicWrite (e : nat) (addr val : Z)
  | EApicBase (e : nat) (val : Z)
  | EApicTpr (e : nat) (val : Z)
  | EIoapicWrite (addr val : Z)
  | EPicRead (w : which_pic) (addr : Z)
  | EPicWrite (w : which_pic) (addr val : Z)
  | EElcrWrite (w : which_pic) (val : Z)
  | ELine (n : Z) (level : bool)
  | ETimer (e : nat)
  | EGetInterrupt (e : nat).

Definition run_event (ev : chip_event) : LOOP unit :=
  match ev with
  | EApicRead e addr => apic_mem_readl e addr ;;; ret tt
  | EApicWrite e addr val => apic_mem_writel e addr val
  | EApicBase e val => cpu_set_apic_base e val
  | EApicTpr e val => cpu_set_apic_tpr e val
  | EIoapicWrite addr val => ioapic_mem_writel addr val
  | EPicRead w addr => pic_ioport_read w addr ;;; ret tt
  | EPicWrite w addr val => pic_ioport_write w addr val
  | EElcrWrite w val => elcr_ioport_write w val
  | ELine n level => gsi_handler n level
  | ETimer e => apic_timer e
  | EGetInterrupt e => cpu_get_pic_interrupt e ;;; ret tt
  end.

(** Values have the width of the access. *)
Definition event_typed (ev : chip_event) : Prop :=
  match ev with
  | EApicWrite _ _ val | EApicBase _ val | EIoapicWrite _ val => uint32 val
  | EPicWrite _ _ val => uint8 val
  | ELine n _ => 0 <= n
  | _ => True
  end.

Lemma typing_event ev : event_typed ev -> typing (run_event ev).
Proof. destruct ev; cbn [run_event event_typed]; intros; solve_typing. Qed.

Lemma typing_events evs : Forall event_typed evs -> typing (for_each evs run_event).
Proof.
  induction 1 as [|ev evs Hev _ IH]; cbn [for_each]; [solve_typing|].
  apply preserving_bind; [apply _|by apply typing_event|done].
Qed.


Definition sample_events : list chip_event :=
  [EApicWrite 0 784 (2 ^ 32 - 1); EApicWrite 0 768 49; ELine 1 true; EPicWrite Master 1 255].

