(* ===== verification/Keeps.v ===== *)
(** * Keeps.v -- what the emulator's operations leave alone

    The scheduler's choice is the current thread, the CPUs of the threads and a
    CPU's part in the test ([same_choice]).  An operation [keeps] it if it leaves
    it alone however it ends, and executes no block of guest code.  This file has
    a tactic for composed operations, and shows that
    SKI's helpers in translated code and the guest's accesses to the interrupt
    controllers keep the choice: guest code can ask for interrupts and change the
    threads, but what runs next is decided by the CPU loop alone ([CpuLoop.v]). *)

From S2P Require Import Prelude Preserving CString Liveness LoopTrace Machine Sched Interrupts Priorities TestControl RaceDetector Stats InstructionDetector Instrument Timers Pic Board Apic Chips.

(** ** What an operation leaves alone *)

(** CPU [e] takes part in a running test. *)
Definition in_test (e : nat) (m : machine) : bool := ski_apic_process_incoming_interrupts (m_cpus m !!! e).

(** The scheduler's choice and CPU [e]'s part in it. *)
Record same_choice (e : nat) (m m' : machine) : Prop := {
  sc_current : m_threads_current m' = m_threads_current m;
  sc_cpu_nos : tc_cpu_no <$> m_threads m' = tc_cpu_no <$> m_threads m;
  sc_length : length (m_cpus m') = length (m_cpus m);
  sc_index : cpu_index (m_cpus m' !!! e) = cpu_index (m_cpus m !!! e);
  sc_in_test : in_test e m' = true -> in_test e m = true
}.

#[export] Instance same_choice_preorder e : PreOrder (same_choice e).
Proof.
  split.
  - intros m. by split.
  - intros m1 m2 m3 [] []. split; [congruence..|]. auto.
Qed.

(** The scheduler's machine, the records of the instrumentation, the board. *)
Definition mkeeps (e : nat) {A} (op : SCH A) : Prop := preserving (same_choice e) (same_choice e) (fun _ _ => True) op.
Definition same_ins (e : nat) (s s' : istate) : Prop := same_choice e (i_machine s) (i_machine s').
Definition ikeeps (e : nat) {A} (op : INS A) : Prop :=
  preserving (same_ins e) (same_ins e) (fun _ _ => True) op.
Definition kept (e : nat) (b b' : board) : Prop :=
  same_choice e (bd_machine b) (bd_machine b') /\ bd_blocks b' = bd_blocks b.
Definition same_blocks (b b' : board) : Prop := bd_blocks b' = bd_blocks b.
Definition keeps (e : nat) {A} (op : LOOP A) : Prop := preserving (kept e) (kept e) same_blocks op.

#[export] Instance keeping_machine e : Keeping (same_choice e) (same_choice e) (fun _ _ => True).
Proof. split; [apply _| |done|done]. intros m1 m2 m3 ? ?. by etrans. Qed.
#[export] Instance keeping_ins e : Keeping (same_ins e) (same_ins e) (fun _ _ => True).
Proof.
  unfold same_ins. split; [|intros s1 s2 s3 ? ?; by etrans|done|done].
  split; [intros s; reflexivity|intros s1 s2 s3 ? ?; by etrans].
Qed.
#[export] Instance keeping_board e : Keeping (kept e) (kept e) same_blocks.
Proof.
  assert (PreOrder (kept e)) as Hpre.
  { split; [intros b; split; [reflexivity|done]|]. intros b1 b2 b3 [] []. split; [by etrans|congruence]. }
  split; [done|intros b1 b2 b3 ? ?; by etrans| |done]. unfold same_blocks. intros b1 b2 b3 [_ ?] ?. congruence.
Qed.

Lemma keeps_on_machine e {A} (op : SCH A) : mkeeps e op -> ikeeps e (on_machine op).
Proof. intros H s. specialize (H (i_machine s)). unfold on_machine. by destruct (op (i_machine s)). Qed.

Lemma keeps_on_ins e {A} (op : INS A) : ikeeps e op -> keeps e (on_ins op).
Proof. intros H b. specialize (H (bd_ins b)). unfold on_ins. by destruct (op (bd_ins b)). Qed.

Lemma keeps_on_sch e {A} (op : SCH A) : mkeeps e op -> keeps e (on_sch op).
Proof. intros H. by apply keeps_on_ins, keeps_on_machine. Qed.

Lemma keeps_on_trace e {A} (t : M trace_state A) : mkeeps e (on_trace t).
Proof. intros m. unfold on_trace. destruct (t (m_trace m)); cbn; [by split|by split|done]. Qed.

(** Changes of a CPU that concern neither its number nor its state. *)
Lemma keeps_mod_cpu e e' f :
  (forall c, cpu_index (f c) = cpu_index c /\ cpu_ski_active (f c) = cpu_ski_active c /\
             sc_state (cpu_ski (f c)) = sc_state (cpu_ski c)) ->
  mkeeps e (mod_cpu e' f).
Proof.
  intros Hf m. cbn.
  assert (forall c, m_cpus (set_m_cpus (alter f e' (m_cpus m)) m) !!! e = c -> c = m_cpus m !!! e \/ c = f (m_cpus m !!! e)) as Hc.
  { intros c <-. cbn. rewrite list_lookup_total_alter. destruct (decide _) as [[-> _]|_]; [by right|by left]. }
  split; cbn; try done; [apply length_alter|..]; unfold in_test; cbn [m_cpus set_m_cpus];
    destruct (Hc _ eq_refl) as [E|E]; cbn in E; rewrite E; try done.
  - apply Hf.
  - unfold ski_apic_process_incoming_interrupts. destruct (Hf (m_cpus m !!! e)) as (_&->&->). done.
Qed.

Lemma keeps_mod_ski e e' f : (forall s, sc_state (f s) = sc_state s) -> mkeeps e (mod_ski e' f).
Proof. intros Hf. apply keeps_mod_cpu. intros c. cbn. by rewrite Hf. Qed.

Lemma keeps_mod_thread e i f : (forall tc, tc_cpu_no (f tc) = tc_cpu_no tc) -> mkeeps e (mod_thread i f).
Proof. intros Hf m. split; cbn; try done. by apply alter_fmap_same. Qed.

Lemma keeps_current e x : mkeeps e (current_thread x).
Proof. intros m. unfold current_thread. destruct (m_threads_current m); cbn; [reflexivity|done]. Qed.

Lemma keeps_get_cpu e e' : mkeeps e (get_cpu e').
Proof. intros m. cbn. reflexivity. Qed.

Create HintDb keeps.
#[export] Hint Resolve keeps_on_trace keeps_current keeps_get_cpu : keeps.

(** Takes an operation apart and closes the parts that are known. *)
Ltac keeps_step :=
  match goal with
  | |- preserving (same_choice ?e) _ _ ?op => change (mkeeps e op)
  | |- preserving (same_ins ?e) _ _ ?op => change (ikeeps e op)
  | |- preserving (kept ?e) _ _ ?op => change (keeps e op)
  | |- keeps _ (on_sch _) => apply keeps_on_sch
  | |- keeps _ (on_ins _) => apply keeps_on_ins
  | |- ikeeps _ (on_machine _) => apply keeps_on_machine
  | |- mkeeps _ (mod_ski _ _) => apply keeps_mod_ski; intros; reflexivity
  | |- mkeeps _ (mod_cpu _ _) => apply keeps_mod_cpu; intros; split_and!; reflexivity
  | |- mkeeps _ (mod_thread _ _) => apply keeps_mod_thread; intros; reflexivity
  | |- _ jump => apply preserving_jump; apply _
  | |- _ (modify _) => apply preserving_modify; intros; first [split; reflexivity | split; done]
  | |- _ => preserving_step
  | |- _ => progress eauto with keeps
  end.
Ltac solve_keeps := repeat keeps_step.

Lemma keeps_assert e c : mkeeps e (SKI_ASSERT c).
Proof. unfold SKI_ASSERT. solve_keeps. Qed.
#[export] Hint Resolve keeps_assert : keeps.

Lemma keeps_assert_msg e c x : mkeeps e (SKI_ASSERT_MSG c x).
Proof. unfold SKI_ASSERT_MSG. solve_keeps. Qed.
Lemma keeps_comment e c : mkeeps e (comment_ c).
Proof. apply keeps_on_trace. Qed.
Lemma keeps_need_reevaluate e : mkeeps e need_reevaluate.
Proof. unfold need_reevaluate. solve_keeps. Qed.
#[export] Hint Resolve keeps_assert_msg keeps_comment keeps_need_reevaluate : keeps.

Lemma keeps_interrupt_begin e int_no ii hw : mkeeps e (ski_handle_interrupt_begin e int_no ii hw).
Proof. unfold ski_handle_interrupt_begin. solve_keeps. Qed.
Lemma keeps_cpu_begin e : mkeeps e (ski_handle_cpu_begin e).
Proof. unfold ski_handle_cpu_begin. solve_keeps. Qed.
#[export] Hint Resolve keeps_interrupt_begin keeps_cpu_begin : keeps.

Lemma keeps_begin_hook e intno is_int error_code next_eip is_hw :
  ikeeps e (interrupt_begin_hook e intno is_int error_code next_eip is_hw).
Proof. unfold interrupt_begin_hook. solve_keeps. Qed.
#[export] Hint Resolve keeps_begin_hook : keeps.

(** *** SKI's helpers *)

Lemma keeps_mod_all_cpus e f :
  (forall c, cpu_index (f c) = cpu_index c /\
             (ski_apic_process_incoming_interrupts (f c) = true -> ski_apic_process_incoming_interrupts c = true)) ->
  mkeeps e (mod_all_cpus f).
Proof.
  intros Hf m. cbn.
  split; cbn; try done; [apply length_fmap|..]; unfold in_test; cbn [m_cpus set_m_cpus];
    rewrite !list_lookup_total_alt, !list_lookup_fmap; destruct (m_cpus m !! e) as [c|]; cbn; try done; apply Hf.
Qed.

Lemma keeps_heuristics e k eip cpu_no n : mkeeps e (ski_heuristics_statistics_print k eip cpu_no n).
Proof. unfold ski_heuristics_statistics_print, log_event. solve_keeps. Qed.
#[export] Hint Resolve keeps_heuristics : keeps.

Lemma keeps_adjust e : mkeeps e (ski_threads_adjust_priority_current e).
Proof. unfold ski_threads_adjust_priority_current. solve_keeps. Qed.
Lemma keeps_wake_loop e a idx found : mkeeps e (wake_loop a idx found).
Proof. revert found. induction idx as [|i idx IH]; intros found; cbn [wake_loop]; solve_keeps. Qed.
#[export] Hint Resolve keeps_adjust keeps_wake_loop : keeps.
Lemma keeps_wake_rs e a : mkeeps e (ski_threads_all_wake_rs a).
Proof. unfold ski_threads_all_wake_rs. solve_keeps. Qed.
Lemma keeps_wait_rs e is_pause : mkeeps e (ski_threads_self_wait_rs e is_pause).
Proof. unfold ski_threads_self_wait_rs. destruct is_pause; solve_keeps. Qed.
Lemma keeps_wait_hlt e : mkeeps e (ski_threads_self_wait_hlt e).
Proof. unfold ski_threads_self_wait_hlt. solve_keeps. Qed.
Lemma keeps_invert e : mkeeps e (ski_threads_invert_priority e).
Proof. unfold ski_threads_invert_priority. solve_keeps. Qed.
Lemma keeps_lowest e n : mkeeps e (ski_preemption_get_and_clear_lowest n).
Proof. unfold ski_preemption_get_and_clear_lowest. solve_keeps. Qed.
Lemma keeps_set_eip e eip : mkeeps e (set_eip e eip).
Proof. unfold set_eip. solve_keeps. Qed.
Lemma keeps_reset e : mkeeps e ski_reset.
Proof.
  unfold ski_reset, ski_exec_trace_stop, ski_reset_common. solve_keeps.
  apply keeps_mod_all_cpus. intros c. split; [by destruct (_ || _)|]. by unfold ski_apic_process_incoming_interrupts.
Qed.
Lemma keeps_interrupt_end e : mkeeps e (ski_handle_interrupt_end e).
Proof. unfold ski_handle_interrupt_end, retire_thread. solve_keeps. Qed.
#[export] Hint Resolve keeps_wake_rs keeps_wait_rs keeps_wait_hlt keeps_invert keeps_lowest keeps_set_eip keeps_reset keeps_interrupt_end : keeps.

(** A call of a helper in translated code. *)
Inductive helper_call :=
  | CInstruction (eip : Z)
  | CLoad (address value mem_index n_bits : Z)
  | CStore (address value mem_index n_bits : Z)
  | CInversionPoint (eip : Z)
  | CPause (eip : Z)
  | CHlt
  | CIret.

Section helpers.
Context (opts : ins_options) (phys_page : nat -> Z -> Z).

Definition run_helper (e : nat) (c : helper_call) : INS unit :=
  match c with
  | CInstruction eip => helper_ski_instrument_all opts e eip
  | CLoad address value mem_index n_bits => helper_ski_load_access opts phys_page e address value mem_index n_bits
  | CStore address value mem_index n_bits => helper_ski_store_access opts phys_page e address value mem_index n_bits
  | CInversionPoint eip => helper_ski_instrument_possible_inversion_point e eip
  | CPause eip => helper_ski_instrument_pause e ;;; helper_ski_instrument_pause_pos e eip
  | CHlt => ski_do_hlt e
  | CIret => interrupt_end_hook e
  end.

(** The helpers a block calls, in order. *)
Fixpoint run_helpers (e : nat) (l : list helper_call) : INS unit :=
  match l with [] => ret tt | c :: l' => run_helper e c ;;; run_helpers e l' end.

Lemma keeps_lift_stats e f : ikeeps e (lift_stats f).
Proof. unfold lift_stats. solve_keeps. Qed.
#[local] Hint Resolve keeps_lift_stats : keeps.

Lemma keeps_helper e c : ikeeps e (run_helper e c).
Proof.
  destruct c; cbn [run_helper].
  - unfold helper_ski_instrument_all. solve_keeps.
  - unfold helper_ski_load_access, dump_memory_access, race_detector. solve_keeps.
  - unfold helper_ski_store_access, dump_memory_access, race_detector. solve_keeps.
  - unfold helper_ski_instrument_possible_inversion_point, inversion_point_self, preempt, SKI_ASSERT_MSG. solve_keeps.
    apply keeps_mod_all_cpus. intros c. by destruct (cpu_ski_active c).
  - unfold helper_ski_instrument_pause, helper_ski_instrument_pause_pos. solve_keeps.
  - unfold ski_do_hlt. solve_keeps.
  - unfold interrupt_end_hook. solve_keeps.
Qed.

(** Guest code calls the helpers and leaves the scheduler's choice to the loop. *)
Lemma keeps_helpers e l : ikeeps e (run_helpers e l).
Proof. induction l as [|c l IH]; cbn [run_helpers]; [solve_keeps|]. pose proof (keeps_helper e c). solve_keeps. Qed.
End helpers.

(** *** The interrupt controllers *)

Section chips.
Context (e : nat).

Lemma keeps_cpu_interrupt e' mask : keeps e (cpu_interrupt e' mask).
Proof. unfold cpu_interrupt. solve_keeps. Qed.
Lemma keeps_reset_interrupt e' mask : keeps e (cpu_reset_interrupt e' mask).
Proof. unfold cpu_reset_interrupt. solve_keeps. Qed.
Lemma keeps_mod_apic e' f : keeps e (mod_apic e' f).
Proof. unfold mod_apic. solve_keeps. Qed.
Lemma keeps_mod_chips f : keeps e (mod_chips f).
Proof. unfold mod_chips. solve_keeps. Qed.
Lemma keeps_mod_ioapic f : keeps e (mod_ioapic f).
Proof. apply keeps_mod_chips. Qed.
Lemma keeps_mod_pic w f : keeps e (mod_pic w f).
Proof. apply keeps_mod_chips. Qed.
Lemma keeps_new_irq e' v : mkeeps e (ski_handle_new_irq_set e' v).
Proof. unfold ski_handle_new_irq_set. solve_keeps. Qed.
#[local] Hint Resolve keeps_cpu_interrupt keeps_reset_interrupt keeps_mod_apic keeps_mod_chips keeps_mod_ioapic keeps_mod_pic
  keeps_new_irq : keeps.

Lemma keeps_set_irq_with u e' v t : (forall i, keeps e (u i)) -> keeps e (set_irq_with u e' v t).
Proof. intros Hu. unfold set_irq_with. solve_keeps. Qed.
Lemma keeps_local_with u e' n : (forall i, keeps e (u i)) -> keeps e (local_deliver_with u e' n).
Proof. intros Hu. unfold local_deliver_with. pose proof keeps_set_irq_with. solve_keeps. Qed.
Lemma keeps_update_at d e' : keeps e (update_irq_at d e').
Proof.
  revert e'. induction d as [|d IH]; intros e'; cbn [update_irq_at]; [solve_keeps|].
  pose proof (keeps_local_with _ e' APIC_LVT_LINT0 IH). solve_keeps.
Qed.
#[local] Hint Resolve keeps_set_irq_with keeps_local_with keeps_update_at : keeps.

Lemma keeps_update_irq e' : keeps e (apic_update_irq e').
Proof. apply keeps_update_at. Qed.
Lemma keeps_set_irq e' v t : keeps e (apic_set_irq e' v t).
Proof. apply keeps_set_irq_with. intros. apply keeps_update_at. Qed.
Lemma keeps_local_deliver e' n : keeps e (apic_local_deliver e' n).
Proof. apply keeps_local_with. intros. apply keeps_update_at. Qed.
#[local] Hint Resolve keeps_update_irq keeps_set_irq keeps_local_deliver : keeps.

Lemma keeps_deliver_pic e' l : keeps e (apic_deliver_pic_intr e' l).
Proof. unfold apic_deliver_pic_intr. solve_keeps. Qed.
Lemma keeps_highest tab e' : keeps e (ski_apic_get_highest_priority_int tab e').
Proof. unfold ski_apic_get_highest_priority_int. solve_keeps. Qed.
#[local] Hint Resolve keeps_deliver_pic keeps_highest : keeps.

Lemma keeps_irq_pending e' : keeps e (ski_apic_irq_pending e').
Proof. unfold ski_apic_irq_pending. solve_keeps. Qed.
Lemma keeps_accept e' intno : keeps e (accept_interrupt e' intno).
Proof. unfold accept_interrupt. solve_keeps. Qed.
Lemma keeps_foreach_apic l f : (forall i, keeps e (f i)) -> keeps e (foreach_apic l f).
Proof. intros Hf. unfold foreach_apic. solve_keeps. Qed.
#[local] Hint Resolve keeps_irq_pending keeps_accept keeps_foreach_apic : keeps.

Lemma keeps_bus_deliver l dm v t : keeps e (apic_bus_deliver l dm v t).
Proof. unfold apic_bus_deliver. solve_keeps. Qed.
#[local] Hint Resolve keeps_bus_deliver : keeps.
Lemma keeps_deliver_irq d dmo dm v t : keeps e (apic_deliver_irq d dmo dm v t).
Proof. unfold apic_deliver_irq. solve_keeps. Qed.
Lemma keeps_deliver e' d dmo dm v t : keeps e (apic_deliver e' d dmo dm v t).
Proof.
  unfold apic_deliver, apic_startup. solve_keeps.
  all: apply keeps_foreach_apic; intros; solve_keeps.
Qed.
Lemma keeps_timer_update e' t : keeps e (apic_timer_update e' t).
Proof. unfold apic_timer_update. solve_keeps. Qed.
#[local] Hint Resolve keeps_deliver_irq keeps_deliver keeps_timer_update : keeps.
Lemma keeps_timer e' : keeps e (apic_timer e').
Proof. unfold apic_timer. solve_keeps. Qed.

Lemma keeps_irq_request l : keeps e (pic_irq_request l).
Proof. unfold pic_irq_request. solve_keeps. Qed.
#[local] Hint Resolve keeps_timer keeps_irq_request : keeps.
Lemma keeps_pic_update w : keeps e (pic_update_irq w).
Proof. unfold pic_update_irq, set_irq_master, update_master. solve_keeps. Qed.
#[local] Hint Resolve keeps_pic_update : keeps.
Lemma keeps_pic_set_irq w irq l : keeps e (pic_set_irq w irq l).
Proof. unfold pic_set_irq. solve_keeps. Qed.
Lemma keeps_intack w irq : keeps e (pic_intack w irq).
Proof. unfold pic_intack. solve_keeps. Qed.
#[local] Hint Resolve keeps_pic_set_irq keeps_intack : keeps.
Lemma keeps_read_irq : keeps e pic_read_irq.
Proof. unfold pic_read_irq. solve_keeps. Qed.
Lemma keeps_pic_write w addr val : keeps e (pic_ioport_write w addr val).
Proof. unfold pic_ioport_write, pic_command, pic_init_reset. solve_keeps. Qed.
Lemma keeps_pic_read w addr : keeps e (pic_ioport_read w addr).
Proof. unfold pic_ioport_read. solve_keeps. Qed.
#[local] Hint Resolve keeps_read_irq : keeps.

Lemma keeps_service_pin i : keeps e (service_pin i).
Proof. unfold service_pin. solve_keeps. Qed.
#[local] Hint Resolve keeps_service_pin : keeps.
Lemma keeps_ioapic_service : keeps e ioapic_service.
Proof. unfold ioapic_service. solve_keeps. Qed.
#[local] Hint Resolve keeps_ioapic_service : keeps.
Lemma keeps_ioapic_set_irq v l : keeps e (ioapic_set_irq v l).
Proof. unfold ioapic_set_irq. solve_keeps. Qed.
Lemma keeps_eoi_broadcast v : keeps e (ioapic_eoi_broadcast v).
Proof. unfold ioapic_eoi_broadcast. solve_keeps. Qed.
Lemma keeps_ioapic_write addr val : keeps e (ioapic_mem_writel addr val).
Proof. unfold ioapic_mem_writel. solve_keeps. Qed.
#[local] Hint Resolve keeps_ioapic_set_irq keeps_eoi_broadcast : keeps.
Lemma keeps_gsi n l : keeps e (gsi_handler n l).
Proof. unfold gsi_handler. solve_keeps. Qed.

Lemma keeps_eoi e' : keeps e (apic_eoi e').
Proof. unfold apic_eoi. solve_keeps. Qed.
#[local] Hint Resolve keeps_eoi : keeps.
Lemma keeps_apic_read e' addr : keeps e (apic_mem_readl e' addr).
Proof. unfold apic_mem_readl, illegal_address. solve_keeps. Qed.
Lemma keeps_apic_write e' addr val : keeps e (apic_mem_writel e' addr val).
Proof. unfold apic_mem_writel, apic_send_msi, write_command, illegal_address. solve_keeps. Qed.

Lemma keeps_get_pic e' : keeps e (cpu_get_pic_interrupt e').
Proof. unfold cpu_get_pic_interrupt, ski_apic_get_interrupt, original_apic_get_interrupt. solve_keeps. Qed.

Section parameters.
Context (cpu_reset : nat -> LOOP unit) (segments : nat -> Z -> LOOP unit).
Lemma keeps_cpu_init e' : keeps e (cpu_reset e') -> keeps e (do_cpu_init cpu_reset e').
Proof. intros H. unfold do_cpu_init, apic_init_reset, set_halted. solve_keeps. Qed.
Lemma keeps_cpu_sipi e' : (forall v, keeps e (segments e' v)) -> keeps e (do_cpu_sipi segments e').
Proof. intros H. unfold do_cpu_sipi, set_halted. solve_keeps. Qed.
End parameters.
End chips.
#[export] Hint Resolve keeps_irq_pending keeps_get_pic keeps_cpu_init keeps_cpu_sipi keeps_apic_read keeps_apic_write
  keeps_ioapic_write keeps_pic_write keeps_pic_read keeps_gsi keeps_timer : keeps.

(** What guest code does: it calls helpers, and accesses the controllers. *)
Inductive guest_action :=
  | GHelper (c : helper_call)
  | GApicRead (addr : Z)
  | GApicWrite (addr val : Z)
  | GIoapicWrite (addr val : Z)
  | GPicRead (w : which_pic) (addr : Z)
  | GPicWrite (w : which_pic) (addr val : Z).

Section guest.
Context (opts : ins_options) (phys_page : nat -> Z -> Z).
Definition run_action (e : nat) (a : guest_action) : LOOP unit :=
  match a with
  | GHelper c => on_ins (run_helper opts phys_page e c)
  | GApicRead addr => apic_mem_readl e addr ;;; ret tt
  | GApicWrite addr val => apic_mem_writel e addr val
  | GIoapicWrite addr val => ioapic_mem_writel addr val
  | GPicRead w addr => pic_ioport_read w addr ;;; ret tt
  | GPicWrite w addr val => pic_ioport_write w addr val
  end.
Definition run_actions (e : nat) (l : list guest_action) : LOOP unit := for_each l (run_action e).

Lemma keeps_actions e l : keeps e (run_actions e l).
Proof.
  apply preserving_for_each; [apply _|]. intros []; cbn [run_action]; [apply keeps_on_ins, keeps_helper|..];
    change (keeps e) with (@keeps e unit); solve_keeps.
Qed.
End guest.

