(* ===== verification/CpuLoop.v ===== *)
(** * CpuLoop.v -- the execution loop of the virtual CPUs

    Models [cpu_exec] of [vmm/cpu-exec.c] and [tcg_exec_all] of [vmm/cpus.c] for the
    target i386: the round over the CPUs that asks the scheduler which CPU may
    run, the resumption of a snapshot, the handling of hypercalls and
    exceptions, the delivery of interrupts, and the execution of blocks of
    translated code until the scheduler has to be asked again.  A [longjmp] to
    the loop is a [Jump].

    What QEMU does by itself is the record [qemu]: executing a block of guest code
    (with the calls of SKI's helpers and the accesses to the interrupt controllers
    in it), building the guest's interrupt frame, the reset of a CPU's registers,
    system management mode and virtual interrupts.  The theorems hold for
    any such code that leaves SKI's choice alone ([guest_ok]).  The guest runs
    without SVM and hardware breakpoints, is not single-stepped and its
    instructions are not counted by QEMU ([use_icount]); its condition codes are
    kept in [eflags] throughout.  The number of rounds of [cpu_exec]
    is unbounded, as in the source; its model takes fuel, and a loop that runs
    out of it still runs ([None], [StillRuns]). *)

From Stdlib Require Import Strings.String.
From S2P Require Import Prelude Preserving CString Liveness LoopTrace Machine Sched Interrupts Priorities TestControl RaceDetector Stats InstructionDetector Instrument Timers Pic Board Apic Chips Delivery Keeps.

Definition HYPERCALL_INT : Z := 4.
Definition HYPERCALL_EAX_MAGIC : Z := 16909060.
Definition CPU_INTERRUPT_EXITTB : Z := 4.
Definition CPU_INTERRUPT_DEBUG : Z := 128.
Definition CPU_INTERRUPT_VIRQ : Z := 256.
Definition CPU_INTERRUPT_MCE : Z := 4096.
Definition HF_SMM_MASK : Z := 524288.
Definition HF2_GIF_MASK : Z := 1.
Definition HF2_NMI_MASK : Z := 4.
Definition EXCP02_NMI : Z := 2.
Definition EXCP12_MCHK : Z := 18.

(** ** QEMU's side *)

Record qemu := mk_qemu {
  (* a block of translated code *)
  q_exec_tb : nat -> LOOP unit;
  (* the interrupt frame: CPU, vector, is_int, error code, next eip, is_hw *)
  q_deliver : nat -> Z -> Z -> Z -> Z -> Z -> LOOP unit;
  q_protected_mode : nat -> board -> bool;
  (* [exception_is_int], [error_code] and [exception_next_eip] *)
  q_exception : nat -> board -> Z * Z * Z;
  (* [cpu_reset], and the code segment of a start-up interrupt *)
  q_cpu_reset : nat -> LOOP unit;
  q_sipi_segments : nat -> Z -> LOOP unit;
  q_smm_enter : nat -> LOOP unit;
  q_virq : nat -> LOOP unit;
  (* the structure a hypercall passes in guest memory *)
  q_hypercall_io : nat -> board -> hypercall_io;
  q_runstate_is_running : board -> bool;
  q_guest_debug : nat -> LOOP unit;
  (* the value of an uninitialised [ret] *)
  q_ret : Z
}.

Section loop.
Context (Q : qemu) (h : host).

Definition mod_env (e : nat) (f : CPUState -> CPUState) : LOOP unit := on_sch (mod_cpu e f).
Definition clear_request (e : nat) (mask : Z) : LOOP unit :=
  mod_env e (fun c => set_cpu_interrupt_request (Z.land (cpu_interrupt_request c) (Z.lnot mask)) c).

(** [ski_threads_need_reevaluate] on a CPU of the test. *)
Definition must_reevaluate (e : nat) (b : board) : bool :=
  cpu_ski_active (bd_cpu e b) && c_true (m_need_reevaluate (bd_machine b)).

(** [do_interrupt_all]; the hook is at the begin of [do_interrupt_protected]. *)
Definition do_interrupt_all (e : nat) (intno is_int error_code next_eip is_hw : Z) : LOOP unit :=
  b <- get ;;
  when (q_protected_mode Q e b) (on_ins (interrupt_begin_hook e intno is_int error_code next_eip is_hw)) ;;;
  q_deliver Q e intno is_int error_code next_eip is_hw.

Definition do_interrupt (e : nat) : LOOP unit :=
  b <- get ;;
  let '(is_int, error_code, next_eip) := q_exception Q e b in
  do_interrupt_all e (cpu_exception_index (bd_cpu e b)) is_int error_code next_eip 0.

Definition do_interrupt_x86_hardirq (e : nat) (intno is_hw : Z) : LOOP unit := do_interrupt_all e intno 0 0 0 is_hw.

(** ** Interrupts of a CPU *)

(** The branch of [CPU_INTERRUPT_HARD]. *)
Definition hard_interrupt (e : nat) : LOOP unit :=
  b <- get ;;
  pending <- (if cpu_ski_active (bd_cpu e b) then ski_apic_irq_pending e else ret 1) ;;
  assert_ (pending >? 0) ;;;
  intno <- cpu_get_pic_interrupt e ;;
  on_sch (SKI_ASSERT (intno >=? 0)) ;;;
  clear_request e (Z.lor CPU_INTERRUPT_HARD CPU_INTERRUPT_VIRQ) ;;;
  do_interrupt_x86_hardirq e intno 1.

(** The branches under [HF2_GIF_MASK]; [c] is the CPU and [req] its requests when
    the loop looked at them. *)
Definition gif_interrupts (e : nat) (c : CPUState) (req : Z) : LOOP unit :=
  if has_flag req CPU_INTERRUPT_SMI && negb (has_flag (cpu_hflags c) HF_SMM_MASK) then
    clear_request e CPU_INTERRUPT_SMI ;;; q_smm_enter Q e
  else if has_flag req CPU_INTERRUPT_NMI && negb (has_flag (cpu_hflags2 c) HF2_NMI_MASK) then
    clear_request e CPU_INTERRUPT_NMI ;;;
    mod_env e (fun c => set_cpu_hflags2 (Z.lor (cpu_hflags2 c) HF2_NMI_MASK) c) ;;;
    do_interrupt_x86_hardirq e EXCP02_NMI 1
  else if has_flag req CPU_INTERRUPT_MCE then
    clear_request e CPU_INTERRUPT_MCE ;;; do_interrupt_x86_hardirq e EXCP12_MCHK 0
  else if c_true (ski_cpu_can_start_interrupts c) &&
          (negb (cpu_ski_active c) || ski_apic_process_incoming_interrupts c) then
    hard_interrupt e
  else if has_flag req CPU_INTERRUPT_VIRQ && has_flag (cpu_eflags c) IF_MASK &&
          negb (has_flag (cpu_hflags c) HF_INHIBIT_IRQ_MASK) then
    q_virq Q e
  else ret tt.

(** The condition under which [cpu_exec] looks at pending interrupts: outside a
    test always, during a test only for the interrupt thread that the scheduler
    has selected and that has not begun. *)
Definition takes_interrupts (e : nat) : LOOP bool :=
  b <- get ;;
  if cpu_interrupt_request (bd_cpu e b) =? 0 then ret false
  else if negb (cpu_ski_active (bd_cpu e b)) then ret true
  else
    cur <- on_sch (current_thread HUndef) ;;
    ret (c_true (tc_is_int (snd cur)) && (tc_state (snd cur) =? SKI_TC_STATE_NEEDS_TRIGGER)).

Definition service_interrupts (e : nat) : LOOP unit :=
  takes <- takes_interrupts e ;;
  when takes
    (b <- get ;;
     let c := bd_cpu e b in
     let req := cpu_interrupt_request c in
     when (has_flag req CPU_INTERRUPT_DEBUG)
       (clear_request e CPU_INTERRUPT_DEBUG ;;; mod_env e (set_cpu_exception_index EXCP_DEBUG) ;;; jump) ;;;
     (if has_flag req CPU_INTERRUPT_INIT then
        do_cpu_init (q_cpu_reset Q) e ;;; mod_env e (set_cpu_exception_index EXCP_HALTED) ;;; jump
      else if has_flag req CPU_INTERRUPT_SIPI then do_cpu_sipi (q_sipi_segments Q) e
      else if has_flag (cpu_hflags2 c) HF2_GIF_MASK then gif_interrupts e c req
      else ret tt) ;;;
     clear_request e CPU_INTERRUPT_EXITTB).

(** ** One CPU *)

(** A round of the inner loop of [cpu_exec]. *)
Definition cpu_round (e : nat) : LOOP unit :=
  b <- get ;;
  when (must_reevaluate e b) jump ;;;
  service_interrupts e ;;;
  b <- get ;;
  when (bd_exit b !!! e)
    (modify (fun b => set_bd_exit (<[e := false]> (bd_exit b)) b) ;;;
     mod_env e (set_cpu_exception_index EXCP_INTERRUPT) ;;; jump) ;;;
  when (cpu_ski_active (bd_cpu e b)) (on_sch (ski_handle_cpu_begin e)) ;;;
  modify (fun b => set_bd_blocks (bd_blocks b ++ [(e, bd_machine b)]) b) ;;;
  q_exec_tb Q e.

(** From [setjmp] to the inner loop: [Some r] leaves the loop. *)
Definition exec_entry (e : nat) : LOOP (option Z) :=
  b <- get ;;
  if bd_restoring b && negb (sc_last_enter_cpu (cpu_ski (bd_cpu e b))) then ret (Some (q_ret Q))
  else
    when (bd_restoring b)
      (modify (set_bd_restoring false) ;;; on_sch (ski_start_test h e)) ;;;
    b <- get ;;
    if must_reevaluate e b then ret (Some (q_ret Q))
    else
      let exc := cpu_exception_index (bd_cpu e b) in
      if exc >=? EXCP_INTERRUPT then ret (Some exc)
      else
        when (exc >=? 0)
          (if (exc =? HYPERCALL_INT) && (r_eax (cpu_regs_ (bd_cpu e b)) =? HYPERCALL_EAX_MAGIC)
           then on_sch (ski_process_hypercall h e (q_hypercall_io Q e b))
           else do_interrupt e ;;; mod_env e (set_cpu_exception_index (-1))) ;;;
        ret None.

(** Both loops: [inside] is the inner one.  A jump goes back to [setjmp]. *)
Fixpoint exec_loop (fuel : nat) (inside : bool) (e : nat) : LOOP (option Z) := fun b =>
  match fuel with
  | O => Ret b None
  | S fuel' =>
      match (if inside then (cpu_round e ;;; ret None) b else exec_entry e b) with
      | Ret b' (Some r) => Ret b' (Some r)
      | Ret b' None => exec_loop fuel' true e b'
      | Jump b' => exec_loop fuel' false e b'
      | Halt b' x => Halt b' x
      end
  end.

Definition cpu_has_work (env : CPUState) : bool :=
  (has_flag (cpu_interrupt_request env) CPU_INTERRUPT_HARD && has_flag (cpu_eflags env) IF_MASK) ||
  has_flag (cpu_interrupt_request env)
    (Z.lor CPU_INTERRUPT_NMI (Z.lor CPU_INTERRUPT_INIT (Z.lor CPU_INTERRUPT_SIPI CPU_INTERRUPT_MCE))).

Definition cpu_exec (fuel : nat) (e : nat) : LOOP (option Z) :=
  b <- get ;;
  if (bd_halted b !!! e) && negb (cpu_has_work (bd_cpu e b)) then ret (Some EXCP_HALTED)
  else
    modify (fun b => set_bd_halted (<[e := false]> (bd_halted b)) b) ;;;
    modify (fun b => if bd_exit_request b then set_bd_exit (<[e := true]> (bd_exit b)) b else b) ;;;
    mod_env e (set_cpu_exception_index (-1)) ;;;
    on_sch (modify (set_m_counter_per_cycle 0)) ;;;
    exec_loop fuel false e.

(** ** All CPUs *)

Definition cpu_can_run (e : nat) (b : board) : bool :=
  negb (c_true (cpu_stop (bd_cpu e b))) && negb (c_true (cpu_stopped (bd_cpu e b))) && q_runstate_is_running Q b.

(** [ski_snapshot_reinitialize_cpu] on the active ones of the given CPUs. *)
Fixpoint reinitialize_cpus (es : list nat) : SCH unit :=
  match es with
  | [] => ret tt
  | e :: es' =>
      env <- get_cpu e ;;
      when (cpu_ski_active env) (ski_snapshot_reinitialize_cpu e) ;;;
      reinitialize_cpus es'
  end.

Definition snapshot_restored : SCH unit :=
  ski_snapshot_reinitialize h ;;;
  m <- get ;;
  reinitialize_cpus (seq 0 (length (m_cpus m))).

(** How a CPU's turn ends. *)
Inductive turn := Continue | Break | StillRuns.

Definition exec_one (fuel : nat) (e : nat) : LOOP turn :=
  b <- get ;;
  if bd_restoring b && negb (sc_last_enter_cpu (cpu_ski (bd_cpu e b))) then ret Continue
  else
    run <- (if bd_restoring b then ret 1
            else if cpu_can_run e b then on_sch (ski_cpu_can_run e) else ret 0) ;;
    if c_true run then
      when (bd_restoring b) (on_sch snapshot_restored) ;;;
      r <- cpu_exec fuel e ;;
      match r with
      | None => ret StillRuns
      | Some r => if r =? EXCP_DEBUG then q_guest_debug Q e ;;; ret Break else ret Continue
      end
    else ret Continue.

(** The loop over the [n] CPUs from [next_cpu] = [e]; [false] when it still runs. *)
Fixpoint exec_all_loop (fuel : nat) (n e : nat) : LOOP bool :=
  match n with
  | O => modify (set_bd_next None) ;;; ret true
  | S n' =>
      modify (set_bd_next (Some e)) ;;;
      b <- get ;;
      if bd_exit_request b then ret true
      else
        t <- exec_one fuel e ;;
        match t with
        | Continue => exec_all_loop fuel n' (S e)
        | Break => ret true
        | StillRuns => ret false
        end
  end.

Definition tcg_exec_all (fuel : nat) : LOOP bool :=
  b <- get ;;
  let first := default 0%nat (bd_next b) in
  finished <- exec_all_loop fuel (length (m_cpus (bd_machine b)) - first) first ;;
  when finished (modify (set_bd_exit_request false)) ;;;
  ret finished.
End loop.

Section keeps.
Context (Q : qemu) (h : host) (e : nat).

(** QEMU's code on CPU [e] changes neither the scheduler's choice nor the CPU's
    part in the test. *)
Record guest_ok : Prop := {
  g_exec_tb : keeps e (q_exec_tb Q e);
  g_deliver intno is_int error_code next_eip is_hw : keeps e (q_deliver Q e intno is_int error_code next_eip is_hw);
  g_cpu_reset : keeps e (q_cpu_reset Q e);
  g_sipi_segments v : keeps e (q_sipi_segments Q e v);
  g_smm_enter : keeps e (q_smm_enter Q e);
  g_virq : keeps e (q_virq Q e);
  g_guest_debug : keeps e (q_guest_debug Q e)
}.
Context (HQ : guest_ok).
#[local] Hint Resolve g_exec_tb g_deliver g_cpu_reset g_sipi_segments g_smm_enter g_virq g_guest_debug : keeps.

(** *** The loop's own parts *)

Lemma keeps_mod_env f :
  (forall c, cpu_index (f c) = cpu_index c /\ cpu_ski_active (f c) = cpu_ski_active c /\
             sc_state (cpu_ski (f c)) = sc_state (cpu_ski c)) -> keeps e (mod_env e f).
Proof. intros Hf. unfold mod_env. apply keeps_on_sch. by apply keeps_mod_cpu. Qed.
Lemma keeps_clear mask : keeps e (clear_request e mask).
Proof. by apply keeps_mod_env. Qed.
Lemma keeps_exception x : keeps e (mod_env e (set_cpu_exception_index x)).
Proof. by apply keeps_mod_env. Qed.
#[local] Hint Resolve keeps_clear keeps_exception : keeps.

Lemma keeps_interrupt_all intno is_int error_code next_eip is_hw :
  keeps e (do_interrupt_all Q e intno is_int error_code next_eip is_hw).
Proof. unfold do_interrupt_all. solve_keeps. Qed.
#[local] Hint Resolve keeps_interrupt_all : keeps.

Lemma keeps_do_interrupt : keeps e (do_interrupt Q e).
Proof.
  unfold do_interrupt. keeps_step; [solve_keeps|]. destruct (q_exception Q e a) as [[? ?] ?]. solve_keeps.
Qed.
Lemma keeps_hard : keeps e (hard_interrupt Q e).
Proof. unfold hard_interrupt, do_interrupt_x86_hardirq. solve_keeps. Qed.
#[local] Hint Resolve keeps_do_interrupt keeps_hard : keeps.

Lemma keeps_gif c req : keeps e (gif_interrupts Q e c req).
Proof. unfold gif_interrupts, do_interrupt_x86_hardirq. solve_keeps. by apply keeps_mod_env. Qed.
#[local] Hint Resolve keeps_gif : keeps.

Lemma keeps_service : keeps e (service_interrupts Q e).
Proof. unfold service_interrupts, takes_interrupts. solve_keeps. Qed.
End keeps.

(** *** Hypercalls leave the loop when the CPU has to wait *)

(** Operations of the trace never jump. *)
Definition straight {A} (t : M trace_state A) : Prop := preserving (fun _ _ => True) (fun _ _ => False) (fun _ _ => True) t.
#[export] Instance keeping_trace : Keeping (S := trace_state) (fun _ _ => True) (fun _ _ => False) (fun _ _ => True).
Proof. by split. Qed.

(** A jump leaves CPU [e] with an exception that ends [cpu_exec]. *)
Definition same_cpus (m m' : machine) : Prop := length (m_cpus m') = length (m_cpus m).
Definition parked (e : nat) (m m' : machine) : Prop :=
  same_cpus m m' /\ ((e < length (m_cpus m'))%nat -> EXCP_INTERRUPT <= cpu_exception_index (m_cpus m' !!! e)).
Definition parks (e : nat) {A} (op : SCH A) : Prop := preserving same_cpus (parked e) (fun _ _ => True) op.
#[export] Instance keeping_parked e : Keeping same_cpus (parked e) (fun _ _ => True).
Proof.
  unfold parked, same_cpus. split; [|intros m1 m2 m3 ? []; split; [congruence|done]|done|done].
  split; [by intros m|intros m1 m2 m3; congruence].
Qed.

Ltac parks_step :=
  match goal with
  | |- preserving same_cpus (parked ?e) _ ?op => change (parks e op)
  | |- preserving (fun _ : trace_state => _) _ _ ?op => change (straight op)
  | |- parks _ (mod_cpu _ _) => intros ?; apply length_alter
  | |- parks _ (mod_ski _ _) => intros ?; apply length_alter
  | |- parks _ (mod_all_cpus _) => intros ?; apply length_fmap
  | |- parks _ (mod_thread _ _) => by intros ?
  | |- parks _ (get_cpu _) => by intros ?
  | |- parks _ (log_event _) => by intros ?
  | |- _ (put _) => by intros ?
  | |- _ (modify _) => by intros ?
  | |- _ => preserving_step
  | |- _ => progress eauto with parks
  end.
Ltac solve_parks := repeat parks_step.
Create HintDb parks.

Lemma straight_comment c : straight (ski_exec_trace_print_comment c).
Proof. unfold ski_exec_trace_print_comment. solve_parks. Qed.
#[export] Hint Resolve straight_comment : parks.

Lemma straight_print_entries keep es : straight (print_entries keep es).
Proof.
  induction es as [|c es IH]; cbn [print_entries]; [solve_parks|].
  unfold ski_loop_print_entry, ski_loop_debug_print_entry, fprintf_entry. solve_parks.
Qed.
#[export] Hint Resolve straight_print_entries : parks.

Lemma straight_print_reset_all : straight ski_loop_print_reset_all.
Proof. unfold ski_loop_print_reset_all, reset_log. solve_parks. Qed.
#[export] Hint Resolve straight_print_reset_all : parks.

Section parks.
Context (h : host) (e : nat).

Lemma parks_on_trace {A} (t : M trace_state A) : straight t -> parks e (on_trace t).
Proof. intros Ht m. unfold on_trace. specialize (Ht (m_trace m)). by destruct (t (m_trace m)). Qed.
Lemma parks_comment c : parks e (comment_ c).
Proof. apply parks_on_trace. solve_parks. Qed.
Lemma parks_assert c : parks e (SKI_ASSERT c).
Proof. unfold SKI_ASSERT. solve_parks. Qed.
Lemma parks_assert_msg c x : parks e (SKI_ASSERT_MSG c x).
Proof. unfold SKI_ASSERT_MSG. solve_parks. Qed.
Lemma parks_trace_start : parks e (ski_exec_trace_start h).
Proof. unfold ski_exec_trace_start, ski_loop_init. solve_parks. apply parks_on_trace. solve_parks. Qed.
Lemma parks_trace_stop : parks e ski_exec_trace_stop.
Proof. unfold ski_exec_trace_stop, ski_loop_finish, ski_loop_flush. apply parks_on_trace. solve_parks. Qed.
#[local] Hint Resolve parks_comment parks_assert parks_assert_msg parks_trace_start parks_trace_stop : parks.

Lemma parks_exception x : EXCP_INTERRUPT <= x -> parks e (mod_cpu e (set_cpu_exception_index x) ;;; jump : SCH unit).
Proof.
  intros Hx m. cbn. split; [apply length_alter|]. cbn. rewrite length_alter. intros He.
  rewrite list_lookup_total_alter, decide_True by done. done.
Qed.

Lemma parks_barrier n old new x : EXCP_INTERRUPT <= x -> parks e (ski_barrier e n old new x).
Proof.
  intros Hx. unfold ski_barrier. parks_step; [solve_parks|]. destruct (_ =? 0); [solve_parks|].
  intros m. by apply (parks_exception x Hx m).
Qed.

Lemma parks_insert_all l : parks e (insert_all l).
Proof. induction l as [|q l IH]; cbn [insert_all]; unfold ski_threads_insert; solve_parks. Qed.
#[local] Hint Resolve parks_insert_all : parks.

Lemma parks_start_test : parks e (ski_start_test h e).
Proof.
  unfold ski_start_test, ski_exec_trace_print_initial_comment, ski_threads_initialize, ski_config_priorities_parse_file,
    ski_threads_reset, ski_liveness_initialize, ski_threads_dump, ski_nontesting_cpus_block.
  do 4 (apply preserving_bind; [apply _|solve_parks|intros _]). by apply parks_exception.
Qed.

Lemma parks_irq_set_loop l : parks e (irq_set_loop e l).
Proof. induction l as [|v l IH]; cbn [irq_set_loop]; unfold ski_handle_new_irq_set; solve_parks. Qed.
#[local] Hint Resolve parks_start_test parks_irq_set_loop : parks.

Lemma parks_enter hio : parks e (hypercall_enter h e hio).
Proof.
  unfold hypercall_enter, ski_first_in_test, ski_initialize_interrupts, ski_liveness_init_cpu. solve_parks.
  by apply parks_barrier.
Qed.

Lemma parks_exit : parks e (hypercall_exit e).
Proof.
  unfold hypercall_exit, ski_last_in_test, ski_deactivate_all_cpu, ski_nontesting_cpus_unblock. solve_parks.
  by apply parks_barrier.
Qed.

Lemma parks_hypercall hio : parks e (ski_process_hypercall h e hio).
Proof.
  unfold ski_process_hypercall, hypercall_debug. pose proof (parks_enter hio). pose proof parks_exit. solve_parks.
Qed.

(** What holds when an operation returns. *)
Definition returns {A} (op : SCH A) (P : machine -> Prop) : Prop := forall m m' a, op m = Ret m' a -> P m'.

Lemma returns_bind {A B} (op : SCH A) (k : A -> SCH B) P : (forall a, returns (k a) P) -> returns (bind op k) P.
Proof.
  intros Hk m m' a. unfold bind. destruct (op m) as [m1 a1|m1|m1 x]; try done. apply Hk.
Qed.

Lemma enter_never_returns hio : returns (hypercall_enter h e hio) (fun _ => False).
Proof.
  unfold hypercall_enter, ski_start_test. repeat (apply returns_bind; intros ?). by intros ? ? ?.
Qed.

Lemma exit_returns m m' : hypercall_exit e m = Ret m' tt -> m' = m \/ in_test e m' = false.
Proof.
  unfold hypercall_exit. erewrite bind_Ret by reflexivity. destruct (cpu_ski_active _); cbn [when]; [|intros [= ->]; by left].
  intros Hr. right. revert m m' Hr.
  assert (forall (op : SCH unit), returns op (fun m => in_test e m = false) -> forall m m', op m = Ret m' tt -> in_test e m' = false)
    as Hop by (intros op Ho m m'; apply Ho).
  apply Hop. unfold ski_deactivate_all_cpu. repeat (apply returns_bind; intros ?). intros m m' x [= <-].
  unfold in_test, ski_apic_process_incoming_interrupts. cbn. rewrite list_lookup_total_alt, list_lookup_fmap.
  by destruct (m_cpus m !! e).
Qed.

Lemma hypercall_returns hio m m' :
  ski_process_hypercall h e hio m = Ret m' tt -> same_choice e m m' \/ in_test e m' = false.
Proof.
  unfold ski_process_hypercall. erewrite bind_Ret by reflexivity. set (m1 := set_m_cpus _ m).
  assert (same_choice e m m1) as H1.
  { apply (keeps_mod_cpu e e (fun c => set_cpu_exception_index (-1) (set_cpu_eip (u32 (cpu_eip c + 2)) c))). done. }
  assert (forall op : SCH unit, mkeeps e op -> op m1 = Ret m' tt -> same_choice e m m') as Hk.
  { intros op Ho E. specialize (Ho m1). rewrite E in Ho. by etrans. }
  destruct (_ =? _); [intros E; by apply enter_never_returns in E|].
  destruct (_ =? _); [intros [->|?]%exit_returns; [by left|by right]|].
  intros E. left. revert E. apply Hk. unfold hypercall_debug, ski_exec_trace_start, ski_exec_trace_stop, log_event. solve_keeps.
Qed.
End parks.

(** ** Guest code runs only for the selected thread *)

(** The machine's current thread is one of CPU [e], if the CPU is in the test. *)
Definition chosen (e : nat) (m : machine) : Prop :=
  in_test e m = true ->
  exists i, m_threads_current m = Some i /\ tc_cpu_no (m_threads m !!! i) = cpu_index (m_cpus m !!! e).
Definition blocks_ok (b : board) : Prop := Forall (fun blk => chosen (fst blk) (snd blk)) (bd_blocks b).

Lemma lookup_total_cpu_no (l j : list thread_context) (i : nat) :
  tc_cpu_no <$> l = tc_cpu_no <$> j -> tc_cpu_no (l !!! i) = tc_cpu_no (j !!! i).
Proof.
  intros E. pose proof (f_equal (.!! i) E) as Ei. cbn in Ei. rewrite !list_lookup_fmap in Ei.
  rewrite !list_lookup_total_alt. destruct (l !! i), (j !! i); cbn in *; congruence.
Qed.

Lemma chosen_kept e m m' : same_choice e m m' -> chosen e m -> chosen e m'.
Proof.
  intros [Hcur Hnos _ Hidx Hin] Hc Ht. destruct (Hc (Hin Ht)) as (i&Hi&Hn). exists i. split; [congruence|].
  rewrite Hidx, <- Hn. by apply lookup_total_cpu_no.
Qed.

(** [select] returns a thread of the table with its index. *)
Lemma select_lookup elig prio tcs (all : list thread_context) i0 res i tc :
  (forall j t, tcs !! j = Some t -> all !! (i0 + j)%nat = Some t) ->
  (forall j t, res = Some (j, t) -> all !! j = Some t) ->
  select elig prio tcs i0 res = Val (Some (i, tc)) -> all !! i = Some tc.
Proof.
  revert i0 res. induction tcs as [|t tcs IH]; intros i0 res Htcs Hres; cbn [select]; [intros [= ->]; by apply Hres|].
  destruct (elig t) as [[]|]; cbn [ebind]; try done.
  - pose proof (Htcs 0%nat t eq_refl) as Ht. rewrite Nat.add_0_r in Ht.
    assert (forall j u, tcs !! j = Some u -> all !! (S i0 + j)%nat = Some u) as Htl.
    { intros j u Hj. replace (S i0 + j)%nat with (i0 + S j)%nat by lia. by apply Htcs. }
    destruct res as [[j r]|]; [|cbn [ebind]; apply IH; [done|by intros ? ? [= <- <-]]].
    destruct (prio r) as [p1|]; cbn [ebind]; [|done]. destruct (prio t) as [p2|]; cbn [ebind]; [|done].
    apply IH; [done|]. intros j' u. destruct (p1 <? p2); [apply Hres|by intros [= <- <-]].
  - apply IH; [|done]. intros j u Hj. replace (S i0 + j)%nat with (i0 + S j)%nat by lia. by apply Htcs.
Qed.

Lemma next_runnable_lookup m i tc :
  ski_threads_find_next_runnable m = Val (i, tc) -> m_threads m !! i = Some tc.
Proof.
  unfold ski_threads_find_next_runnable. destruct (select _ _ _ _ _) as [[[j t]|]|] eqn:E; cbn [ebind]; try done.
  destruct (ski_threads_calculate_priority _ _) as [p|]; cbn [ebind]; [|done]. destruct (_ >? _); [done|]. intros [= <- <-].
  assert (live_threads m !! j = Some t) as Hl by (eapply select_lookup; [..|exact E]; done).
  unfold live_threads in Hl. by apply lookup_take_Some in Hl as [? _].
Qed.

(** Switching threads changes the current thread and nothing else of the choice. *)
Definition sets_current (e i : nat) (op : SCH unit) : Prop :=
  forall m m1, op m = Ret m1 tt -> exists m0, same_choice e m m0 /\ m1 = set_m_threads_current (Some i) m0.

Lemma sets_current_bind e i {A} (op : SCH A) k :
  mkeeps e op -> (forall a, sets_current e i (k a)) -> sets_current e i (bind op k).
Proof.
  intros Ho Hk m m1. unfold bind. specialize (Ho m). destruct (op m) as [m2 a|m2|m2 x]; try done. cbn in Ho.
  intros (m0&Hm0&->)%Hk. exists m0. split; [by etrans|done].
Qed.

Lemma switch_to_current e i tc : sets_current e i (switch_to e i tc).
Proof.
  unfold switch_to. repeat (apply sets_current_bind; [solve_keeps|intros ?]). intros m m1 [= <-]. by exists m.
Qed.

(** A CPU that is admitted belongs to the current thread. *)
Lemma can_run_chosen e m m' r : ski_cpu_can_run e m = Ret m' r -> r <> 0 -> chosen e m'.
Proof.
  unfold ski_cpu_can_run. erewrite bind_Ret by reflexivity. set (c := m_cpus m !!! e).
  change (cpu_ski_active c && ((sc_state (cpu_ski c) =? SKI_CPU_RUNNING_TEST) ||
    (sc_state (cpu_ski c) =? SKI_CPU_BLOCKED_ON_EXIT))) with (in_test e m).
  destruct (in_test e m) eqn:Et; [|intros [= <- _] _; intros Ht; by rewrite Et in Ht].
  unfold bind at 1, lift. destruct (ski_threads_find_next_runnable m) as [[i tc]|x] eqn:En; [|done].
  apply next_runnable_lookup in En. destruct (Z.eqb_spec (tc_cpu_no tc) (cpu_index c)) as [Ec|]; [|by intros [= _ <-]].
  unfold bind, get, when. destruct (bool_decide_reflect (m_threads_current m = Some i)) as [Hcur|]; cbn [negb].
  - intros [= <- _] _ _. exists i. cbn. split; [done|]. by rewrite (list_lookup_total_correct _ _ _ En).
  - destruct (switch_to e i tc m) as [m1 []|m1|m1 x] eqn:Es; try done. intros [= <- _] _ _.
    apply switch_to_current in Es as (m0&[_ Hnos _ Hidx _]&->). exists i. cbn. split; [done|].
    rewrite Hidx, (lookup_total_cpu_no _ _ i Hnos), (list_lookup_total_correct _ _ _ En). done.
Qed.

Section safe.
Context (Q : qemu) (h : host).

(** The inner loop runs for the current thread. *)
Definition round_ok (e : nat) (b : board) : Prop := chosen e (bd_machine b) /\ blocks_ok b.
Definition runs (e : nat) {A} (op : LOOP A) : Prop :=
  preserving (fun b b' => round_ok e b -> round_ok e b') (fun b b' => round_ok e b -> round_ok e b')
    (fun b b' => round_ok e b -> blocks_ok b') op.
#[local] Instance keeping_round e :
  Keeping (fun b b' => round_ok e b -> round_ok e b') (fun b b' => round_ok e b -> round_ok e b')
    (fun b b' => round_ok e b -> blocks_ok b').
Proof. split; [|auto|auto|by intros b []]. split; [by intros b|intros b1 b2 b3; auto]. Qed.

Lemma keeps_runs e {A} (op : LOOP A) : keeps e op -> runs e op.
Proof.
  intros Ho b. specialize (Ho b). unfold round_ok, blocks_ok. destruct (op b) as [b' a|b'|b' x]; cbn in *.
  - destruct Ho as [Hs ->]. intros []. split; [by eapply chosen_kept|done].
  - destruct Ho as [Hs ->]. intros []. split; [by eapply chosen_kept|done].
  - rewrite Ho. by intros [].
Qed.

Lemma cpu_round_runs e : guest_ok Q e -> runs e (cpu_round Q e).
Proof.
  intros HQ. unfold cpu_round. apply preserving_bind; [apply _|apply keeps_runs; solve_keeps|intros b0].
  apply preserving_bind; [apply _|apply keeps_runs; solve_keeps|intros _].
  apply preserving_bind; [apply _|by apply keeps_runs, keeps_service|intros _].
  apply preserving_bind; [apply _|apply keeps_runs; solve_keeps|intros b1].
  apply preserving_bind; [apply _|apply keeps_runs; solve_keeps; by apply keeps_mod_env|intros _].
  apply preserving_bind; [apply _|apply keeps_runs; solve_keeps|intros _].
  apply preserving_bind; [apply _| |intros _; apply keeps_runs, HQ].
  apply preserving_modify. intros b [Hc Hb]. split; [done|]. unfold blocks_ok. cbn. apply Forall_app_2; [done|].
  by constructor.
Qed.

(** At [setjmp] the CPU may also be one that leaves the loop at once. *)
Definition entry_ok (e : nat) (b : board) : Prop :=
  blocks_ok b /\ (chosen e (bd_machine b) \/ EXCP_INTERRUPT <= cpu_exception_index (bd_cpu e b) \/ bd_restoring b = true).

Lemma parked_entry e b m :
  blocks_ok b -> parked e (bd_machine b) m -> entry_ok e (set_bd_machine m b).
Proof.
  intros Hb [_ He]. split; [done|]. destruct (decide (e < length (m_cpus m))%nat) as [Hlt|Hge]; [by right; left; apply He|].
  left. unfold chosen, in_test, bd_machine. cbn. rewrite list_lookup_total_alt, lookup_ge_None_2 by lia. done.
Qed.

Lemma start_test_never_returns e : returns (ski_start_test h e) (fun _ => False).
Proof. unfold ski_start_test. repeat (apply returns_bind; intros ?). by intros ? ? ?. Qed.

Lemma exec_entry_ok e b :
  guest_ok Q e -> entry_ok e b ->
  match exec_entry Q h e b with
  | Ret b' None => round_ok e b'
  | Ret b' (Some _) | Halt b' _ => blocks_ok b'
  | Jump b' => entry_ok e b'
  end.
Proof.
  intros HQ [Hb He]. unfold exec_entry. erewrite bind_Ret by reflexivity.
  destruct (bd_restoring b) eqn:Er; cbn [andb when].
  - destruct (sc_last_enter_cpu _); cbn [negb]; [|done]. rewrite bind_assoc. erewrite bind_Ret by reflexivity.
    unfold bind. rewrite on_sch_run. set (b1 := set_bd_restoring false b).
    pose proof (parks_start_test h e (bd_machine b1)) as Hp. pose proof (start_test_never_returns e (bd_machine b1)) as Hn.
    destruct (ski_start_test h e (bd_machine b1)) as [m u|m|m x]; [by destruct (Hn m u)|by apply parked_entry|done].
  - unfold bind at 1, ret at 1. erewrite bind_Ret by reflexivity. destruct (must_reevaluate e b); [done|].
    destruct (Z.geb_spec (cpu_exception_index (bd_cpu e b)) EXCP_INTERRUPT) as [|Hlt]; [done|].
    destruct He as [Hc|[?|?]]; [|lia|done].
    destruct (_ >=? 0); cbn [when]; [|done]. destruct (_ && _).
    + unfold bind. rewrite on_sch_run. pose proof (parks_hypercall h e (q_hypercall_io Q e b) (bd_machine b)) as Hp.
      destruct (ski_process_hypercall _ _ _ (bd_machine b)) as [m []|m|m x] eqn:Eh; [|by apply parked_entry|done].
      split; [|done]. change (chosen e m). apply hypercall_returns in Eh as [Hs|Hs]; [by eapply chosen_kept|].
      intros Ht. by rewrite Hs in Ht.
    + assert (runs e (do_interrupt Q e ;;; mod_env e (set_cpu_exception_index (-1)))) as Hr.
      { apply keeps_runs. pose proof (keeps_do_interrupt Q e HQ). solve_keeps. by apply keeps_mod_env. }
      specialize (Hr b). revert Hr. generalize (do_interrupt Q e ;;; mod_env e (set_cpu_exception_index (-1))) as op. intros op Hr.
      unfold bind. destruct (op b) as [b' []|b'|b' x]; cbn in *.
      * by apply Hr.
      * destruct Hr as [? ?]; [done|]. split; [done|by left].
      * by apply Hr.
Qed.

Lemma exec_loop_ok fuel e (inside : bool) b :
  guest_ok Q e -> (if inside then round_ok e b else entry_ok e b) ->
  outcome blocks_ok blocks_ok blocks_ok (exec_loop Q h fuel inside e b).
Proof.
  intros HQ. revert inside b. induction fuel as [|fuel IH]; intros inside b Hi; cbn [exec_loop].
  { destruct inside; apply Hi. }
  destruct inside.
  - pose proof (cpu_round_runs e HQ b) as Hr. unfold bind. destruct (cpu_round Q e b) as [b' []|b'|b' x]; cbn in *.
    + apply IH. by apply Hr.
    + apply IH. destruct (Hr Hi). split; [done|by left].
    + by apply Hr.
  - pose proof (exec_entry_ok e b HQ Hi) as He. destruct (exec_entry Q h e b) as [b' [r|]|b'|b' x]; [done|by apply IH|by apply IH|done].
Qed.

(** Any operation of the scheduler leaves the record of blocks alone. *)
Lemma on_sch_blocks {A} (op : SCH A) b :
  blocks_ok b -> outcome blocks_ok blocks_ok blocks_ok (on_sch op b).
Proof. rewrite on_sch_run. by destruct (op (bd_machine b)). Qed.

Lemma cpu_exec_ok fuel e b :
  guest_ok Q e -> blocks_ok b -> chosen e (bd_machine b) \/ bd_restoring b = true ->
  outcome blocks_ok blocks_ok blocks_ok (cpu_exec Q h fuel e b).
Proof.
  intros HQ Hb He. unfold cpu_exec. erewrite bind_Ret by reflexivity. destruct (_ && _); [done|].
  do 4 erewrite bind_Ret by reflexivity. apply exec_loop_ok; [done|].
  set (b1 := set_bd_halted _ b). set (b2 := if bd_exit_request b1 then _ else b1).
  assert (bd_machine b2 = bd_machine b /\ bd_blocks b2 = bd_blocks b /\ bd_restoring b2 = bd_restoring b) as (E1&E2&E3).
  { unfold b2. by destruct (bd_exit_request b1). }
  split; [unfold blocks_ok; cbn; by rewrite E2|]. destruct He as [He|He]; [left|by right; right; cbn; rewrite E3].
  eapply chosen_kept; [|exact He]. rewrite <- E1. etrans.
  - apply (keeps_mod_cpu e e (set_cpu_exception_index (-1))). done.
  - split; done.
Qed.

Lemma exec_one_ok fuel e b :
  guest_ok Q e -> blocks_ok b -> outcome blocks_ok blocks_ok blocks_ok (exec_one Q h fuel e b).
Proof.
  intros HQ Hb. unfold exec_one. erewrite bind_Ret by reflexivity. destruct (_ && _); [done|].
  assert (forall b1 : board, blocks_ok b1 -> chosen e (bd_machine b1) \/ bd_restoring b1 = true ->
    outcome blocks_ok blocks_ok blocks_ok
      ((r <- cpu_exec Q h fuel e ;;
        match r with
        | None => ret StillRuns
        | Some r => if r =? EXCP_DEBUG then q_guest_debug Q e ;;; ret Break else ret Continue
        end) b1)) as Hx.
  { intros b1 Hb1 He1. unfold bind at 1. pose proof (cpu_exec_ok fuel e b1 HQ Hb1 He1) as Hc.
    destruct (cpu_exec Q h fuel e b1) as [b2 [r|]|b2|b2 x]; try done. destruct (r =? EXCP_DEBUG); [|done].
    pose proof (g_guest_debug Q e HQ b2) as Hd. unfold bind. unfold blocks_ok in *.
    destruct (q_guest_debug Q e b2); cbn in *; [by destruct Hd as [_ ->]|by destruct Hd as [_ ->]|by rewrite Hd]. }
  destruct (bd_restoring b) eqn:Er; cbn [when].
  - erewrite bind_Ret by reflexivity. cbn [c_true Z.eqb negb]. unfold bind at 1.
    rewrite on_sch_run. destruct (snapshot_restored h (bd_machine b)); try done. apply Hx; [done|by right].
  - destruct (cpu_can_run Q e b); [|done]. unfold bind at 1. rewrite on_sch_run.
    destruct (ski_cpu_can_run e (bd_machine b)) as [m r|m|m x] eqn:Er1; try done.
    destruct (c_true r) eqn:Ec; [|done]. erewrite bind_Ret by reflexivity. apply Hx; [done|]. left.
    apply can_run_chosen in Er1; [done|]. unfold c_true in Ec. apply negb_true_iff, Z.eqb_neq in Ec. done.
Qed.

Lemma exec_all_ok fuel n e b :
  (forall e', guest_ok Q e') -> blocks_ok b -> outcome blocks_ok blocks_ok blocks_ok (exec_all_loop Q h fuel n e b).
Proof.
  intros HQ. revert e b. induction n as [|n IH]; intros e b Hb; cbn [exec_all_loop]; [done|].
  do 2 erewrite bind_Ret by reflexivity. destruct (bd_exit_request _); [done|]. unfold bind.
  pose proof (exec_one_ok fuel e (set_bd_next (Some e) b) (HQ e) Hb) as He.
  destruct (exec_one Q h fuel e _) as [b1 []|b1|b1 x]; try done. by apply IH.
Qed.
End safe.

(** C1: Whatever the guest does, in a round of the CPU loop a block of guest code
    is executed for a CPU of the test only while the scheduler's current thread is
    one of that CPU. *)
Theorem tcg_exec_all_runs_current (Q : qemu) (h : host) (fuel : nat) (b : board) :
  (forall e, guest_ok Q e) -> blocks_ok b ->
  match tcg_exec_all Q h fuel b with
  | Ret b' _ | Jump b' | Halt b' _ => blocks_ok b'
  end.
Proof.
  intros HQ Hb. unfold tcg_exec_all. erewrite bind_Ret by reflexivity. unfold bind.
  pose proof (exec_all_ok Q h fuel (length (m_cpus (bd_machine b)) - default 0%nat (bd_next b)) (default 0%nat (bd_next b)) b HQ Hb) as H.
  destruct (exec_all_loop _ _ _ _ _ _) as [b1 []|b1|b1 x]; done.
Qed.

(** ** The scheduler's interrupt is delivered *)

(** Vector [v] is in service and the request lines of hardware interrupts are
    cleared. *)
Definition served_cpu (v : Z) (c : CPUState) : CPUState :=
  set_cpu_interrupt_request
    (Z.land (cpu_interrupt_request c) (Z.lnot (Z.lor CPU_INTERRUPT_HARD CPU_INTERRUPT_VIRQ)))
    (set_cpu_apic_isr (set_bit (cpu_apic_isr c) v) c).

Definition served (e : nat) (v : Z) (b : board) : board :=
  set_bd_machine
    (set_m_cpus (alter (served_cpu v) e (m_cpus (bd_machine b))) (bd_machine b))
    (set_bd_apics (alter (fun a => set_a_irr (reset_bit (a_irr a) v) a) e (bd_apics b)) b).

Lemma served_request r :
  Z.land (Z.lor r CPU_INTERRUPT_HARD) (Z.lnot (Z.lor CPU_INTERRUPT_HARD CPU_INTERRUPT_VIRQ)) =
  Z.land r (Z.lnot (Z.lor CPU_INTERRUPT_HARD CPU_INTERRUPT_VIRQ)).
Proof. rewrite Z.land_lor_distr_l. change (Z.land CPU_INTERRUPT_HARD _) with 0. apply Z.lor_0_r. Qed.

Lemma clear_served e v b b' :
  b' = in_service b e v \/ b' = or_request e CPU_INTERRUPT_HARD (in_service b e v) ->
  clear_request e (Z.lor CPU_INTERRUPT_HARD CPU_INTERRUPT_VIRQ) b' = Ret (served e v b) tt.
Proof.
  intros Hb. unfold clear_request, mod_env. rewrite on_sch_run. cbn -[alter].
  destruct Hb as [->| ->]; unfold in_service, or_request, served, set_bd_machine, bd_machine; cbn -[alter]; rewrite !alter_alter; [done|].
  rewrite (list_alter_ext _ (served_cpu v) (m_cpus (i_machine (bd_ins b))) (m_cpus (i_machine (bd_ins b))) e); [reflexivity| |done].
  intros c _. unfold served_cpu. cbn. by rewrite served_request.
Qed.

Lemma served_cpu_at e v b c : m_cpus (bd_machine b) !! e = Some c -> m_cpus (bd_machine (served e v b)) !! e = Some (served_cpu v c).
Proof. intros Hc. cbn -[alter]. by rewrite list_lookup_alter_eq, Hc. Qed.

Lemma served_table e v b : table_ok (bd_machine b) -> table_ok (bd_machine (served e v b)).
Proof.
  intros (H1&H2&H3). split; [done|]. split; [done|]. cbn -[alter].
  rewrite Forall_forall in H3 |- *. intros c' [j Hj]%list_elem_of_lookup.
  rewrite list_lookup_alter in Hj. destruct (decide (e = j)).
  - apply fmap_Some in Hj as (c&Ej&->). apply (H3 c). by eapply list_elem_of_lookup_2.
  - apply H3. by eapply list_elem_of_lookup_2.
Qed.

Lemma on_ins_Ret {A} (op : INS A) b s a : op (bd_ins b) = Ret s a -> on_ins op b = Ret (set_bd_ins s b) a.
Proof. unfold on_ins. by intros ->. Qed.

(** The hook of an interrupt that was handed to its thread. *)
Lemma begin_hook_hw (b : board) (e i : nat) (c : CPUState) (tc : thread_context) (v : Z) :
  table_ok (bd_machine b) -> trace_ok (m_trace (bd_machine b)) -> m_cpus (bd_machine b) !! e = Some c ->
  cpu_ski_active c = true -> sc_interrupts_stack_no (cpu_ski c) < 20 ->
  selected (spawned (cpu_index c) v SKI_TC_STATE_NEEDS_TRIGGER) int_priority (live_threads (bd_machine b)) i tc ->
  m_threads_current (bd_machine b) = Some i ->
  exists t, trace_ok t /\
    on_ins (interrupt_begin_hook e v 0 0 0 1) b =
    Ret (set_bd_machine (set_m_need_reevaluate 1 (set_m_trace t (set_m_threads
           (alter (set_tc_state SKI_TC_STATE_RUNNABLE) i (m_threads (bd_machine b)))
           (mod_ski_at e (pushed (mk_si 1 v 0 1)) (bd_machine b))))) b) tt.
Proof.
  intros Hok Ht Hc Ha Hroom Hs Hcur. set (m := bd_machine b) in *.
  destruct (on_trace_flush m Ht) as (t1&E1&Ht1).
  destruct (comment_Ret (CInterruptHandler v 0 0 0 1) (set_m_trace t1 m) Ht1) as (t2&E2&Ht2).
  pose proof Hs as (Hj&_). unfold live_threads in Hj. apply lookup_take_Some in Hj as [Hj _].
  destruct (begin_hw (set_m_trace t2 (set_m_trace t1 m)) e c v i tc i) as (t3&Ht3&E3); try done.
  { by eapply lookup_lt_Some. } { cbn. by rewrite (list_lookup_total_correct _ _ _ Hj). }
  exists t3. split; [done|]. erewrite on_ins_Ret; [reflexivity|].
  unfold interrupt_begin_hook. erewrite bind_Ret by reflexivity. unfold active, the_cpu.
  change (i_machine (bd_ins b)) with m. rewrite (list_lookup_total_correct _ _ _ Hc), Ha. cbn [when].
  erewrite bind_Ret by (apply on_machine_Ret; exact E1). erewrite bind_Ret by (apply on_machine_Ret; exact E2).
  by erewrite on_machine_Ret by exact E3.
Qed.

(** The scheduler has selected the spawned interrupt thread [i] of vector [v] on
    CPU [e], and the CPU can take the interrupt: interrupts are enabled, nothing
    of higher rank is requested, the vector is requested at the APIC and not
    masked by the processor's priority, and SKI's stack has room. *)
Record deliverable (Q : qemu) (b : board) (e i : nat) (c : CPUState) (tc : thread_context) (v : Z) : Prop := {
  dl_table : table_ok (bd_machine b);
  dl_trace : trace_ok (m_trace (bd_machine b));
  dl_current : int_thread_current b e i c tc v;
  dl_selected : selected (spawned (cpu_index c) v SKI_TC_STATE_NEEDS_TRIGGER) int_priority (live_threads (bd_machine b)) i tc;
  dl_vector : 0 < v < 256;
  dl_start : ski_cpu_can_start_interrupts c = 1;
  dl_gif : has_flag (cpu_hflags2 c) HF2_GIF_MASK = true;
  dl_others : Forall (fun f => has_flag (cpu_interrupt_request c) f = false)
    [CPU_INTERRUPT_DEBUG; CPU_INTERRUPT_INIT; CPU_INTERRUPT_SIPI; CPU_INTERRUPT_SMI; CPU_INTERRUPT_NMI; CPU_INTERRUPT_MCE];
  dl_room : sc_interrupts_stack_no (cpu_ski c) < 20;
  dl_enabled : has_flag (a_spurious_vec (bd_apic e b)) APIC_SV_ENABLE = true;
  dl_requested : get_bit (irr_of e b) v = 1;
  dl_priority : masked v (apic_get_ppr e b) = false;
  dl_registers : (e < length (bd_apics b))%nat /\ length (irr_of e b) = 8%nat /\ length (isr_of e b) = 8%nat;
  dl_protected b' : q_protected_mode Q e b' = true;
  dl_pic : pic_plain e b
}.

(** The branch of hardware interrupts, up to the guest's frame. *)
Lemma hard_interrupt_delivers Q b e i c tc v :
  deliverable Q b e i c tc v ->
  exists t, trace_ok t /\
    hard_interrupt Q e b = q_deliver Q e v 0 0 0 1
      (set_bd_machine (set_m_need_reevaluate 1 (set_m_trace t (set_m_threads
           (alter (set_tc_state SKI_TC_STATE_RUNNABLE) i (m_threads (bd_machine b)))
           (mod_ski_at e (pushed (mk_si 1 v 0 1)) (bd_machine (served e v b)))))) (served e v b)).
Proof.
  intros H. pose proof (dl_current _ _ _ _ _ _ _ H) as Hit. pose proof (it_cpu_at b e i c tc v Hit) as Hcpu.
  assert (cpu_ski_active c = true) as Ha by (by destruct (andb_prop _ _ (it_test _ _ _ _ _ _ Hit))).
  destruct (begin_hook_hw (served e v b) e i (served_cpu v c) tc v) as (t&Ht&Eh);
    [by apply served_table, H|apply H|by apply served_cpu_at, (it_cpu _ _ _ _ _ _ Hit)|done|apply H|apply H|apply Hit|].
  exists t. split; [done|]. unfold hard_interrupt. erewrite bind_Ret by reflexivity. rewrite Hcpu, Ha.
  pose proof (irq_pending_chosen b e i c tc v Hit (dl_vector _ _ _ _ _ _ _ H) (dl_requested _ _ _ _ _ _ _ H)) as Ep.
  rewrite (dl_priority _ _ _ _ _ _ _ H) in Ep. rewrite (bind_Ret _ _ _ _ _ Ep).
  pose proof (dl_vector _ _ _ _ _ _ _ H). rewrite (proj2 (Z.gtb_lt v 0)) by lia. erewrite bind_Ret by reflexivity.
  assert (exists b', cpu_get_pic_interrupt e b = Ret b' v /\
    (b' = in_service b e v \/ b' = or_request e CPU_INTERRUPT_HARD (in_service b e v))) as (b'&Eg&Hb').
  { unfold cpu_get_pic_interrupt. setoid_rewrite bind_Ret; [|reflexivity..]. rewrite Hcpu, Ha.
    destruct (get_interrupt_chosen b e i c tc v Hit) as [E|E]; try apply H;
      (eexists; split; [rewrite (bind_Ret _ _ _ _ _ E), (proj2 (Z.geb_le v 0)) by lia; reflexivity|auto]). }
  rewrite (bind_Ret _ _ _ _ _ Eg), (proj2 (Z.geb_le v 0)) by lia. erewrite bind_Ret by reflexivity.
  assert (set_bd_ins (set_i_machine (i_machine (bd_ins b')) (bd_ins b')) b' = b') as -> by (by destruct b' as [[] ?]).
  rewrite (bind_Ret _ _ _ _ _ (clear_served e v b b' Hb')). unfold do_interrupt_x86_hardirq, do_interrupt_all.
  erewrite bind_Ret by reflexivity. rewrite (dl_protected _ _ _ _ _ _ _ H). cbn [when].
  by rewrite (bind_Ret _ _ _ _ _ Eh).
Qed.

Lemma takes_selected Q b e i c tc v : deliverable Q b e i c tc v -> takes_interrupts e b = Ret b true.
Proof.
  intros H. pose proof (dl_current _ _ _ _ _ _ _ H) as Hit. pose proof (it_cpu_at b e i c tc v Hit) as Hcpu.
  unfold takes_interrupts. erewrite bind_Ret by reflexivity. rewrite Hcpu.
  destruct (Z.eqb_spec (cpu_interrupt_request c) 0) as [E0|_].
  { pose proof (dl_start _ _ _ _ _ _ _ H) as Hs. unfold ski_cpu_can_start_interrupts in Hs. by rewrite E0 in Hs. }
  destruct (andb_prop _ _ (it_test _ _ _ _ _ _ Hit)) as [-> _]. cbn [negb].
  pose proof (it_thread _ _ _ _ _ _ Hit) as Hth. pose proof (dl_selected _ _ _ _ _ _ _ H) as (_&(_&Hst&_)&_).
  unfold bind at 1, current_thread. rewrite on_sch_run, (it_current _ _ _ _ _ _ Hit). cbn [snd].
  rewrite (list_lookup_total_correct _ _ _ Hth), (it_is_int _ _ _ _ _ _ Hit), Hst. cbn. by destruct b as [[] ?].
Qed.


(** A selected interrupt whose vector is masked by the processor's priority stops
    the emulator: the scheduler does not look at the priority, the loop asserts
    that the interrupt is pending. *)
Lemma hard_interrupt_masked Q b e i c tc v :
  int_thread_current b e i c tc v -> 0 < v < 256 -> get_bit (irr_of e b) v = 1 -> masked v (apic_get_ppr e b) = true ->
  hard_interrupt Q e b = Halt b HAssert.
Proof.
  intros Hit Hv Hr Hm. unfold hard_interrupt. erewrite bind_Ret by reflexivity.
  rewrite (it_cpu_at b e i c tc v Hit). destruct (andb_prop _ _ (it_test _ _ _ _ _ _ Hit)) as [-> _].
  pose proof (irq_pending_chosen b e i c tc v Hit Hv Hr) as Ep. rewrite Hm in Ep. by rewrite (bind_Ret _ _ _ _ _ Ep).
Qed.

(** ** Nothing can run *)

Section stuck.
Context (Q : qemu) (h : host) (fuel : nat).
Context (Hrunning : forall b, q_runstate_is_running Q b = true).

(** No thread is left to the scheduler, and only CPUs of the test may run. *)
Record stuck (first : nat) (b : board) : Prop := {
  st_known : threads_known (bd_machine b);
  st_none i tc : ~ next_thread (bd_machine b) i tc;
  st_restoring : bd_restoring b = false;
  st_exit : bd_exit_request b = false;
  st_cpus e : (first <= e < length (m_cpus (bd_machine b)))%nat -> cpu_can_run Q e b = true -> in_test e (bd_machine b) = true
}.

Lemma stuck_next first k b : stuck first b -> stuck first (set_bd_next k b).
Proof.
  intros []. split; try done. intros e He Hc. apply st_cpus0; [done|]. unfold cpu_can_run in *. by rewrite Hrunning in *.
Qed.

Lemma stuck_cpu first b e :
  stuck first b -> (first <= e < length (m_cpus (bd_machine b)))%nat ->
  exec_one Q h fuel e b = if cpu_can_run Q e b then Halt b (HExit SKI_EXIT_NO_RUNNABLE) else Ret b Continue.
Proof.
  intros [] He. unfold exec_one. erewrite bind_Ret by reflexivity. rewrite st_restoring0. cbn [andb].
  destruct (cpu_can_run Q e b) eqn:Ec; [|done]. unfold bind at 1. rewrite on_sch_run.
  unfold ski_cpu_can_run. erewrite bind_Ret by reflexivity.
  set (c := m_cpus (bd_machine b) !!! e).
  change (cpu_ski_active c && ((sc_state (cpu_ski c) =? SKI_CPU_RUNNING_TEST) ||
    (sc_state (cpu_ski c) =? SKI_CPU_BLOCKED_ON_EXIT))) with (in_test e (bd_machine b)). rewrite st_cpus0 by done.
  destruct (find_next_runnable_total _ st_known0) as [(i&tc&Hn&_)|[_ Hf]]; [by destruct (st_none0 i tc)|].
  unfold bind, lift. rewrite Hf. cbn. by destruct b as [[] ?].
Qed.

Lemma stuck_loop first b e n :
  stuck first b -> (first <= e)%nat -> (e + n <= length (m_cpus (bd_machine b)))%nat -> (exists e', (e <= e' < e + n)%nat /\ cpu_can_run Q e' b = true) ->
  exists k, exec_all_loop Q h fuel n e b = Halt (set_bd_next k b) (HExit SKI_EXIT_NO_RUNNABLE).
Proof.
  revert e b. induction n as [|n IH]; intros e b Hs He Hn (e'&He'&Hc); [lia|]. cbn [exec_all_loop].
  do 2 erewrite bind_Ret by reflexivity. pose proof (stuck_next first (Some e) b Hs) as Hs1.
  rewrite (st_exit _ _ Hs1). unfold bind.
  assert (length (m_cpus (bd_machine (set_bd_next (Some e) b))) = length (m_cpus (bd_machine b))) as Hl by done.
  rewrite (stuck_cpu first _ e Hs1) by lia.
  destruct (cpu_can_run Q e (set_bd_next (Some e) b)) eqn:Ec; [by exists (Some e)|].
  assert (cpu_can_run Q e' (set_bd_next (Some e) b) = true) as Hc1 by (unfold cpu_can_run in *; by rewrite Hrunning in *).
  destruct (IH (S e) _ Hs1 ltac:(lia) ltac:(lia)) as (k&Ek); [|by exists k].
  exists e'. split; [|done]. destruct (decide (e' = e)) as [->|]; [congruence|lia].
Qed.
End stuck.

(** C37: When the scheduler has no thread left to run, the round of the CPU loop
    ends the process with the exit code for that, before the CPUs of the test
    have executed another block of guest code, and leaves the machine as it is.
    (During a test the CPUs that take no part in it are stopped.) *)
Theorem tcg_exec_all_no_runnable (Q : qemu) (h : host) (fuel : nat) (b : board) :
  (forall b', q_runstate_is_running Q b' = true) ->
  stuck Q (default 0%nat (bd_next b)) b ->
  (exists e, (default 0 (bd_next b) <= e < length (m_cpus (bd_machine b)))%nat /\ cpu_can_run Q e b = true) ->
  exists b', tcg_exec_all Q h fuel b = Halt b' (HExit SKI_EXIT_NO_RUNNABLE) /\
    bd_blocks b' = bd_blocks b /\ bd_machine b' = bd_machine b.
Proof.
  intros Hq Hs (e&He&Hc). destruct (stuck_loop Q h fuel Hq _ b (default 0%nat (bd_next b))
    (length (m_cpus (bd_machine b)) - default 0%nat (bd_next b)) Hs) as (k&Ek); [lia|lia|exists e; split; [lia|done]|].
  exists (set_bd_next k b). split; [|done]. unfold tcg_exec_all. erewrite bind_Ret by reflexivity. unfold bind. by rewrite Ek.
Qed.

(** ** Witnesses *)

(** A guest whose blocks are one instruction that writes the task priority register
    and a possible inversion point. *)
Definition sample_block (e : nat) : LOOP unit :=
  run_actions sample_ins_options (fun _ _ => 4096) e
    [GHelper (CInstruction 4096); GApicWrite 128 0; GHelper (CInversionPoint 4096)].
Definition sample_qemu : qemu :=
  mk_qemu sample_block (fun _ _ _ _ _ _ => ret tt) (fun _ _ => true) (fun _ _ => (0, 0, 0)) (fun _ => ret tt) (fun _ _ => ret tt)
    (fun _ => ret tt) (fun _ => ret tt) (fun _ _ => mk_hio 0 0 0 0 0 [] 0) (fun _ => true)
    (fun _ => ret tt) 0.

Lemma sample_guest_ok e : guest_ok sample_qemu e.
Proof. split; [apply keeps_actions|..]; intros; cbn; solve_keeps. Qed.

Definition sample_board : board :=
  mk_board sample_ins (replicate 2 inhabitant) 0 [false; false] [false; false] false false None [] sample_chips.
Definition board_of {A} (r : R board A) : board := match r with Ret b _ | Jump b | Halt b _ => b end.

(** CPU 0 runs until the preemption point of instruction 5, then CPU 1 until that
    of instruction 6. *)
Lemma tcg_exec_all_runs_current_witness :
  let b' := board_of (tcg_exec_all sample_qemu sample_host 30 sample_board) in
  fst <$> bd_blocks b' = [0; 0; 0; 0; 0; 1]%nat /\ blocks_ok b'.
Proof.
  cbv zeta. split; [by vm_compute|].
  pose proof (tcg_exec_all_runs_current sample_qemu sample_host 30 sample_board sample_guest_ok (List.Forall_nil _)) as H.
  destruct (tcg_exec_all _ _ _ _); exact H.
Defined.

(** Vectors 49, which has a thread, and 200, which has none, were requested on
    CPU 0, and the thread was selected. *)
Definition sample_irqs : board :=
  board_of ((apic_set_irq 0 49 false ;;; apic_set_irq 0 200 false ;;;
    on_sch (modify (set_m_threads_current (Some 2%nat))))
   (set_bd_ins (set_i_machine (set_m_cpus (set_cpu_hflags2 HF2_GIF_MASK <$> m_cpus sample) sample) sample_ins)
    (set_bd_apics (replicate 2 (set_a_spurious_vec (APIC_SV_ENABLE + 255) inhabitant)) sample_board))).

Lemma sample_irqs_selected :
  selected (spawned 0 49 SKI_TC_STATE_NEEDS_TRIGGER) int_priority (live_threads (bd_machine sample_irqs)) 2
    (m_threads (bd_machine sample_irqs) !!! 2%nat).
Proof.
  apply selected_only; [by vm_compute|by apply (bool_decide_unpack _); vm_compute|].
  intros j tc Hj (_&_&Hi&_). destruct j as [|[|[|j]]]; [vm_compute in Hj; injection Hj as <-; done..|done|].
  vm_compute in Hj. done.
Qed.


(** Both CPUs execute [hlt] and wait for an interrupt. *)
Definition sample_halted : board :=
  board_of (on_ins (run_helpers sample_ins_options (fun _ _ => 4096) 1 [CHlt])
    (board_of (on_ins (run_helpers sample_ins_options (fun _ _ => 4096) 0 [CHlt]) sample_board))).

Lemma tcg_exec_all_no_runnable_witness :
  exists b', tcg_exec_all sample_qemu sample_host 30 sample_halted = Halt b' (HExit SKI_EXIT_NO_RUNNABLE) /\
    bd_blocks b' = [] /\ bd_machine b' = bd_machine sample_halted.
Proof.
  apply (tcg_exec_all_no_runnable sample_qemu sample_host 30 sample_halted).
  - done.
  - assert (threads_known (bd_machine sample_halted)) as Hk by (apply (bool_decide_unpack _); by vm_compute).
    split; [exact Hk| |by vm_compute|by vm_compute|].
    + intros i tc Hn%find_next_runnable_iff; [|exact Hk]. by vm_compute in Hn.
    + intros e [_ He]. destruct e as [|[|e]]; [by vm_compute|by vm_compute|]. vm_compute in He. lia.
  - exists 0%nat. split; [vm_compute; lia|by vm_compute].
Defined.
