(* ===== verification/Input.v ===== *)
(** * Input.v -- the space of inputs and interleavings

    Models [vmm/ski-input.c]: the ranges of the environment variables
    [SKI_INPUT1_RANGE], [SKI_INPUT2_RANGE] and [SKI_INTERLEAVING_RANGE], the
    files that translate input numbers, and [ski_input_fork_init], which sets
    up the next test of the exploration: for each first input, for each second
    input, for each interleaving. *)

From Stdlib Require Import Strings.String.
From S2P Require Import Prelude CString Priorities.

Definition MAX_SKI_INTPUT_INT_RANGE : Z := 256 * 1024.
Definition SKI_INPUT_FILE_MAX : Z := 256 * 1024.
Definition SKI_INPUT_PAIRS_FILE_MAX : Z := 5 * 1024 * 1024.

(** [rg_range] holds the first [range_n] entries of [range]. *)
Record ski_input_int_range := mk_range {
  rg_range : list Z;
  rg_iterator : Z;
  rg_relative : bool;
  rg_from_file_single : bool;
  rg_from_file_pairs : bool
}.

Definition range_zero : ski_input_int_range := mk_range [] 0 false false false.
Definition range_n (r : ski_input_int_range) : Z := Z.of_nat (length (rg_range r)).
Definition set_rg_range v r :=
  mk_range v (rg_iterator r) (rg_relative r) (rg_from_file_single r) (rg_from_file_pairs r).
Definition set_rg_iterator v r :=
  mk_range (rg_range r) v (rg_relative r) (rg_from_file_single r) (rg_from_file_pairs r).

(** *** Environment variables *)

(** [strtoll(s, &next, 10)]: the value and [next], [None] when [next] is [s]. *)
Definition strtoll (s : list Z) : option (Z * list Z) :=
  (fun r => (Z.max (- 2 ^ 63) (Z.min (2 ^ 63 - 1) r.1), r.2)) <$> sscanf_d s.

Definition strtoll_ (s : list Z) : E (Z * list Z) :=
  match strtoll s with Some r => Val r | None => Fail HAssert end.

(** One field, [<d1>] or [<d1>-<d2>], appended to the [n] entries of [range];
    the rest of the string.  The test of an interval's size can overflow; the
    loop then writes behind the array. *)
Definition range_field (s : list Z) (range : list Z) : E (list Z * list Z) :=
  let n := Z.of_nat (length range) in
  r <-? strtoll_ s ;;
  let '(d1, s) := r in
  match s with
  | 45 :: s =>
      r <-? strtoll_ s ;;
      let '(d2, s) := r in
      _ <-? eassert (d2 >=? d1) ;;
      _ <-? eassert (wrap64 (n + wrap64 (wrap64 (d2 - d1) + 1)) <? MAX_SKI_INTPUT_INT_RANGE) ;;
      if n + (wrap64 (d2 - d1) + 1) <=? MAX_SKI_INTPUT_INT_RANGE
      then Val (range ++ seqZ d1 (wrap64 (d2 - d1) + 1), s) else Fail HUndef
  | [] | 44 :: _ =>
      _ <-? eassert (n <? MAX_SKI_INTPUT_INT_RANGE) ;;
      Val (range ++ [d1], s)
  | _ => Fail HAssert
  end.

(** The loop over the fields; every field takes at least one character. *)
Fixpoint range_loop (fuel : nat) (s : list Z) (range : list Z) : E (list Z) :=
  match fuel with
  | O => Fail HUndef
  | S fuel' =>
      r <-? range_field s range ;;
      let '(range, s) := r in
      match s with
      | [] => Val range
      | 44 :: s => range_loop fuel' s range
      | _ => Fail HAssert
      end
  end.

(** The prefixes [@], [@@] and [+]. *)
Definition range_prefix (s : list Z) : (bool * bool) * list Z :=
  match s with
  | 64 :: 64 :: s => ((false, true), s)
  | 64 :: s => ((true, false), s)
  | _ => ((false, false), s)
  end.

Definition relative_prefix (s : list Z) : bool * list Z :=
  match s with
  | 43 :: s => (true, s)
  | _ => (false, s)
  end.

(** [memset] with the size of the pointer clears the first entry of the array
    only. *)
Definition clear_first (v : ski_input_int_range) : ski_input_int_range :=
  match rg_range v with
  | [] => v
  | _ :: l => set_rg_range (0 :: l) v
  end.

Definition ski_input_env_load_int_range (env_str : option (list Z)) (variable : ski_input_int_range)
  : E ski_input_int_range :=
  let v := clear_first variable in
  match env_str with
  | None | Some [] => Fail HAssert
  | Some s =>
      let '((single, pairs), s) := range_prefix s in
      let '(relative, s) := relative_prefix s in
      range <-? range_loop (S (length s)) s (rg_range v) ;;
      Val (mk_range range (rg_iterator v) (relative || rg_relative v) (single || rg_from_file_single v)
             (pairs || rg_from_file_pairs v))
  end.

Definition ski_input_env_load_int (env_str : option (list Z)) : E Z :=
  match env_str with
  | None | Some [] => Val 0
  | Some s => match sscanf_d s with Some (v, _) => Val (wrap32 v) | None => Fail HAssert end
  end.

Definition ski_input_env_load_str (env_str : option (list Z)) : E (list Z) :=
  match env_str with
  | None | Some [] => Val []
  | Some s => _ <-? eassert (Z.of_nat (length s) <? 512) ;; Val s
  end.

(** *** Input files *)

(** The loop of [ski_input_load_input_file] over the lines. *)
Fixpoint input_file_loop (fuel : nat) (content : list Z) (file : list Z) : E (list Z) :=
  match fuel with
  | O => Val file
  | S fuel' =>
      match content with
      | [] => Val file
      | _ =>
          let '(buffer, rest) := fgets 510 content in
          match sscanf_d (strip_newline buffer) with
          | None => Val file
          | Some (input_number, _) =>
              let file := file ++ [wrap32 input_number] in
              _ <-? eassert (Z.of_nat (length file) <? SKI_INPUT_FILE_MAX) ;;
              input_file_loop fuel' rest file
          end
      end
  end.

(** [file] is the content of the named file, [None] when it cannot be opened. *)
Definition ski_input_load_input_file (filename : list Z) (file : option (list Z)) : E (list Z) :=
  match filename, file with
  | [], _ => Val []
  | _, None => Fail HAssert
  | _, Some content =>
      l <-? input_file_loop (S (length content)) content [] ;;
      _ <-? eassert (negb (Z.of_nat (length l) =? 0)) ;;
      Val l
  end.

(** [sscanf(buffer, "%d %d", ...)] *)
Definition sscanf_dd (s : list Z) : option (Z * Z) :=
  r1 ← sscanf_d s; r2 ← sscanf_d r1.2; Some (r1.1, r2.1).

Fixpoint pairs_file_loop (fuel : nat) (content : list Z) (file : list (Z * Z)) : E (list (Z * Z)) :=
  match fuel with
  | O => Val file
  | S fuel' =>
      match content with
      | [] => Val file
      | _ =>
          let '(buffer, rest) := fgets 510 content in
          match sscanf_dd (strip_newline buffer) with
          | None => Val file
          | Some (n1, n2) =>
              let file := file ++ [(wrap32 n1, wrap32 n2)] in
              _ <-? eassert (Z.of_nat (length file) <? SKI_INPUT_PAIRS_FILE_MAX) ;;
              pairs_file_loop fuel' rest file
          end
      end
  end.

Definition ski_input_load_input_pairs_file (filename : list Z) (file : option (list Z)) : E (list (Z * Z)) :=
  match filename, file with
  | [], _ => Val []
  | _, None => Fail HAssert
  | _, Some content =>
      l <-? pairs_file_loop (S (length content)) content [] ;;
      _ <-? eassert (negb (Z.of_nat (length l) =? 0)) ;;
      Val l
  end.

(** *** The exploration *)

(** The variables of the exploration; [x_input_number] are the first two
    entries of [ski_init_options_input_number], [x_output_dir] the environment
    variable [SKI_OUTPUT_DIR]. *)
Record exploration := mk_exploration {
  x_input1 : ski_input_int_range;
  x_input2 : ski_input_int_range;
  x_interleaving : ski_input_int_range;
  x_input_file : list Z;
  x_pairs_file : list (Z * Z);
  x_input_number : Z * Z;
  x_seed : Z;
  x_destination_dir : list Z;
  x_output_dir : option (list Z);
  x_dir_per_input : bool;
  x_only_aggregate : bool
}.

Definition set_x_ranges r1 r2 r3 s :=
  mk_exploration r1 r2 r3 (x_input_file s) (x_pairs_file s) (x_input_number s) (x_seed s) (x_destination_dir s)
    (x_output_dir s) (x_dir_per_input s) (x_only_aggregate s).
Definition set_x_test numbers seed s :=
  mk_exploration (x_input1 s) (x_input2 s) (x_interleaving s) (x_input_file s) (x_pairs_file s) numbers seed
    (x_destination_dir s) (x_output_dir s) (x_dir_per_input s) (x_only_aggregate s).
Definition set_x_destination_dir v s :=
  mk_exploration (x_input1 s) (x_input2 s) (x_interleaving s) (x_input_file s) (x_pairs_file s)
    (x_input_number s) (x_seed s) v (x_output_dir s) (x_dir_per_input s) (x_only_aggregate s).

(** An array access, undefined outside the entries. *)
Definition at_ {A} (l : list A) (i : Z) : E A :=
  if i <? 0 then Fail HUndef
  else match l !! Z.to_nat i with Some x => Val x | None => Fail HUndef end.

Definition current (r : ski_input_int_range) : E Z := at_ (rg_range r) (rg_iterator r).

Definition ski_input_get_current (file : list Z) (pairs : list (Z * Z)) (r : ski_input_int_range) (second : bool)
  : E Z :=
  range_value <-? current r ;;
  if rg_from_file_single r then
    let n := Z.of_nat (length file) in
    _ <-? eassert (n >? 0) ;;
    at_ file (if range_value >=? n then n - 1 else range_value)
  else if rg_from_file_pairs r then
    let n := Z.of_nat (length pairs) in
    _ <-? eassert (n >? 0) ;;
    p <-? at_ pairs (if range_value >=? n then n - 1 else range_value) ;;
    Val (if second then p.2 else p.1)
  else Val range_value.

Definition ski_input_get_current_relative (file : list Z) (range1 range2 : ski_input_int_range) : E Z :=
  _ <-? eassert (rg_relative range2) ;;
  _ <-? eassert (negb (rg_relative range1)) ;;
  v1 <-? current range1 ;;
  v2 <-? current range2 ;;
  if rg_from_file_single range1 then
    let n := Z.of_nat (length file) in
    _ <-? eassert (n >? 0) ;;
    if negb (rg_from_file_single range2) then
      f <-? at_ file (Z.rem v1 n) ;;
      Val (wrap64 (f + v2))
    else at_ file (Z.rem (wrap64 (v1 + v2)) n)
  else Val (wrap64 (v1 + v2)).

(** The inputs of the next test. *)
Definition next_inputs (s : exploration) : E (Z * Z) :=
  i1 <-? ski_input_get_current (x_input_file s) (x_pairs_file s) (x_input1 s) false ;;
  i2 <-? (if negb (rg_relative (x_input2 s)) then
            if rg_from_file_pairs (x_input1 s)
            then ski_input_get_current (x_input_file s) (x_pairs_file s) (x_input1 s) true
            else ski_input_get_current (x_input_file s) (x_pairs_file s) (x_input2 s) true
          else ski_input_get_current_relative (x_input_file s) (x_input1 s) (x_input2 s)) ;;
  Val (wrap32 i1, wrap32 i2).

(** Advancing the three iterators. *)
Definition advance (s : exploration) : exploration :=
  let bump r := set_rg_iterator (wrap32 (rg_iterator r + 1)) r in
  let fold r := set_rg_iterator (Z.rem (rg_iterator r) (range_n r)) r in
  let il := bump (x_interleaving s) in
  if rg_iterator il >=? range_n il then
    let i2 := bump (x_input2 s) in
    if (rg_iterator i2 >=? range_n i2) || rg_from_file_pairs (x_input1 s)
    then set_x_ranges (bump (x_input1 s)) (fold i2) (fold il) s
    else set_x_ranges (x_input1 s) i2 (fold il) s
  else set_x_ranges (x_input1 s) (x_input2 s) il s.

(** The output directory of a new input; making it is left to the host. *)
Definition new_output_dir : M exploration unit :=
  s <- get ;;
  when (x_dir_per_input s && negb (x_only_aggregate s))
    (dir <- lift (fun s => ski_input_env_load_str (x_output_dir s)) ;;
     let '(n1, n2) := x_input_number s in
     modify (set_x_destination_dir (dir ++ str "/" ++ print_dec n1 ++ str "_" ++ print_dec n2 ++ str "/"))).

(** [ski_input_fork_init]; the result is [*out_new_input].  The time stamp it
    takes at the end is not modelled. *)
Definition ski_input_fork_init : M exploration Z :=
  s <- get ;;
  if rg_iterator (x_input1 s) >=? range_n (x_input1 s) then ret 0
  else
    numbers <- lift next_inputs ;;
    seed <- lift (fun s => current (x_interleaving s)) ;;
    modify (set_x_test numbers (wrap32 seed)) ;;;
    let new_input := rg_iterator (x_interleaving s) =? 0 in
    when new_input new_output_dir ;;;
    modify advance ;;;
    ret (b2z new_input).

(** *** Initialisation *)

Record init_options := mk_init_options {
  n_total_tests : Z;
  n_watchdog_seconds : Z;
  n_race_detector : Z;
  n_instructions_detector_filename : list Z;
  n_selective_trace_filename : list Z;
  n_heuristics_statistics : Z;
  n_debug_child_wait_start_seconds : Z;
  n_debug_parent_executes : Z;
  n_debug_exit_after_hypercall : Z;
  n_ipfilter_filename : list Z;
  n_priorities_filename : list Z;
  n_forkall_enabled : Z;
  n_forkall_concurrency : Z;
  n_forkall_preemption_points : Z;
  n_forkall_k_initial : Z;
  n_quit_hypercall_threshold : Z;
  n_debug_assert_trap : Z;
  n_trace_instructions : Z;
  n_trace_memory_accesses : Z
}.

(** The three ranges and the number of tests, an [int] product. *)
Definition load_ranges (getenv : list Z -> option (list Z)) (s : exploration) : E (exploration * Z) :=
  r1 <-? ski_input_env_load_int_range (getenv (str "SKI_INPUT1_RANGE")) (x_input1 s) ;;
  r2 <-? ski_input_env_load_int_range (getenv (str "SKI_INPUT2_RANGE")) (x_input2 s) ;;
  r3 <-? ski_input_env_load_int_range (getenv (str "SKI_INTERLEAVING_RANGE")) (x_interleaving s) ;;
  _ <-? eassert (range_n r1 >? 0) ;;
  _ <-? eassert (range_n r2 >? 0) ;;
  _ <-? eassert (range_n r3 >? 0) ;;
  _ <-? eassert (negb (rg_relative r1)) ;;
  _ <-? eassert (negb (rg_relative r3)) ;;
  _ <-? eassert (rg_from_file_single r1 || negb (rg_from_file_single r2)) ;;
  _ <-? eassert (eqb (rg_from_file_pairs r1) (rg_from_file_pairs r2)) ;;
  _ <-? eassert (negb (rg_from_file_single r3)) ;;
  _ <-? eassert (negb (rg_from_file_pairs r3)) ;;
  Val (set_x_ranges r1 r2 r3 s, wrap32 (wrap32 (range_n r1 * range_n r2) * range_n r3)).

(** [getenv] reads the environment, [fopen] the content of a file. *)
Definition ski_input_init (getenv : list Z -> option (list Z)) (fopen : list Z -> option (list Z))
    (s : exploration) : E (exploration * init_options) :=
  rt <-? load_ranges getenv s ;;
  let '(s, total_tests) := rt in
  let int n := ski_input_env_load_int (getenv n) in
  let string n := ski_input_env_load_str (getenv n) in
  dest <-? string (str "SKI_OUTPUT_DIR") ;;
  _ <-? eassert (Z.of_nat (length dest) >? 0) ;;
  dir_per_input <-? int (str "SKI_OUTPUT_DIR_PER_INPUT_ENABLED") ;;
  _ <-? eassert (dir_per_input >=? 0) ;;
  watchdog <-? int (str "SKI_WATCHDOG_SECONDS") ;;
  _ <-? eassert (watchdog >=? 0) ;;
  race <-? int (str "SKI_RACE_DETECTOR_ENABLED") ;;
  _ <-? eassert (race >=? 0) ;;
  id_file <-? string (str "SKI_INSTRUCTIONS_DETECTOR_FILENAME") ;;
  st_file <-? string (str "SKI_SELECTIVE_TRACE_FILENAME") ;;
  heur <-? int (str "SKI_HEURISTICS_STATISTICS_ENABLED") ;;
  input_file <-? string (str "SKI_INPUT_FILENAME") ;;
  _ <-? eassert (negb (rg_from_file_single (x_input1 s)) || (Z.of_nat (length input_file) >? 0)) ;;
  file <-? ski_input_load_input_file input_file (fopen input_file) ;;
  pairs_file <-? string (str "SKI_INPUT_PAIRS_FILENAME") ;;
  _ <-? eassert (negb (rg_from_file_pairs (x_input1 s)) || (Z.of_nat (length pairs_file) >? 0)) ;;
  _ <-? eassert ((Z.of_nat (length input_file) =? 0) || (Z.of_nat (length pairs_file) =? 0)) ;;
  pairs <-? ski_input_load_input_pairs_file pairs_file (fopen pairs_file) ;;
  only_aggregate <-? int (str "SKI_DEBUG_ONLY_AGGREGATE_OUTPUT_ENABLED") ;;
  wait <-? int (str "SKI_DEBUG_CHILD_WAIT_START_SECONDS") ;;
  _ <-? eassert (wait >=? 0) ;;
  parent <-? int (str "SKI_DEBUG_PARENT_EXECUTES_ENABLED") ;;
  _ <-? eassert ((parent =? 0) || (parent =? 1)) ;;
  exit_hc <-? int (str "SKI_DEBUG_EXIT_AFTER_HYPERCALL_ENABLED") ;;
  _ <-? eassert ((exit_hc =? 0) || (exit_hc =? 1)) ;;
  ipfilter <-? string (str "SKI_IPFILTER_FILENAME") ;;
  priorities <-? string (str "SKI_PRIORITIES_FILENAME") ;;
  forkall <-? int (str "SKI_FORKALL_ENABLED") ;;
  concurrency <-? int (str "SKI_FORKALL_CONCURRENCY") ;;
  _ <-? eassert (concurrency >? 0) ;;
  _ <-? eassert (concurrency <? 50) ;;
  points <-? int (str "SKI_RESCHEDULE_POINTS") ;;
  k <-? int (str "SKI_RESCHEDULE_K") ;;
  quit <-? int (str "SKI_QUIT_HYPERCALL_THRESHOLD") ;;
  trap <-? int (str "SKI_DEBUG_ASSERT_TRAP_ENABLED") ;;
  tr_ins <-? int (str "SKI_TRACE_INSTRUCTIONS_ENABLED") ;;
  tr_mem <-? int (str "SKI_TRACE_MEMORY_ACCESSES_ENABLED") ;;
  Val (mk_exploration (x_input1 s) (x_input2 s) (x_interleaving s) file pairs (x_input_number s) (x_seed s) dest
         (getenv (str "SKI_OUTPUT_DIR")) (c_true dir_per_input) (c_true only_aggregate),
       mk_init_options total_tests watchdog race id_file st_file heur wait parent exit_hc ipfilter priorities forkall
         concurrency points k quit trap tr_ins tr_mem).

(** ** Ranges round-trip *)

Inductive field := FSingle (d : Z) | FRange (d1 d2 : Z).

Definition print_field (f : field) : list Z :=
  match f with
  | FSingle d => print_dec d
  | FRange d1 d2 => print_dec d1 ++ 45 :: print_dec d2
  end.

Definition field_values (f : field) : list Z :=
  match f with
  | FSingle d => [d]
  | FRange d1 d2 => seqZ d1 (d2 - d1 + 1)
  end.

Definition field_ok (f : field) : Prop :=
  match f with
  | FSingle d => in_int64 d
  | FRange d1 d2 => in_int64 d1 /\ in_int64 d2 /\ d1 <= d2
  end.

(** Where the numbers of a range come from. *)
Inductive source := Plain | FromFile | FromPairs.

Definition print_range (src : source) (relative : bool) (fs : list field) : list Z :=
  match src with Plain => [] | FromFile => str "@" | FromPairs => str "@@" end ++
  (if relative then str "+" else []) ++ sep_by 44 (print_field <$> fs).

Definition not_digit_first (s : list Z) : Prop := forall c s', s = c :: s' -> is_digit c = false.

Lemma strtoll_print z rest :
  in_int64 z -> not_digit_first rest -> strtoll_ (print_dec z ++ rest) = Val (z, rest).
Proof.
  unfold in_int64. intros Hz Hr. unfold strtoll_, strtoll. rewrite sscanf_print_wide by (done || lia).
  cbn -[Z.pow]. do 2 f_equal. lia.
Qed.

Definition field_end (s : list Z) : Prop := s = [] \/ exists s', s = 44 :: s'.

Lemma field_end_not_digit s : field_end s -> not_digit_first s.
Proof. by intros [->|[s' ->]] c s'' [= <- <-]. Qed.

Lemma range_field_print f range rest :
  field_ok f -> field_end rest ->
  Z.of_nat (length range + length (field_values f)) < MAX_SKI_INTPUT_INT_RANGE ->
  range_field (print_field f ++ rest) range = Val (range ++ field_values f, rest).
Proof.
  intros Hf Hr Hn. pose proof (field_end_not_digit _ Hr) as Hnd. unfold range_field.
  destruct f as [d|d1 d2]; cbn [print_field field_values length] in *.
  - rewrite strtoll_print by done. cbn [ebind]. 
    destruct Hr as [->|[s' ->]]; by rewrite (proj2 (Z.ltb_lt _ _)) by lia.
  - destruct Hf as (H1&H2&Hle). rewrite <- app_assoc. cbn [app].
    rewrite strtoll_print by (done || by intros ? ? [= <- <-]). cbn [ebind].
    rewrite strtoll_print by done. cbn [ebind].
    rewrite length_seqZ in Hn. unfold in_int64, MAX_SKI_INTPUT_INT_RANGE in *.
    rewrite Z.geb_leb, (proj2 (Z.leb_le _ _)) by done. cbn [eassert ebind].
    rewrite (wrap64_id (d2 - d1)), (wrap64_id (d2 - d1 + 1)), wrap64_id by (unfold in_int64; lia).
    rewrite (proj2 (Z.ltb_lt _ _)) by (unfold MAX_SKI_INTPUT_INT_RANGE; lia). cbn [eassert ebind].
    by rewrite (proj2 (Z.leb_le _ _)) by (unfold MAX_SKI_INTPUT_INT_RANGE; lia).
Qed.

Lemma range_loop_print fs fuel range :
  Forall field_ok fs -> fs <> [] -> (length fs <= fuel)%nat ->
  Z.of_nat (length range + length (fs ≫= field_values)) < MAX_SKI_INTPUT_INT_RANGE ->
  range_loop fuel (sep_by 44 (print_field <$> fs)) range = Val (range ++ (fs ≫= field_values)).
Proof.
  revert fuel range. induction fs as [|f fs IH]; intros [|fuel] range Hok Hne Hf Hn; cbn [length] in *; try done; try lia.
  apply Forall_cons in Hok as [Hf1 Hfs]. rewrite bind_cons, length_app in Hn.
  cbn [range_loop]. destruct fs as [|f' fs].
  - rewrite fmap_cons. cbn [fmap list_fmap sep_by]. rewrite <- (app_nil_r (print_field f)).
    rewrite range_field_print by (done || (by left) || (cbn in Hn; lia)). cbn [ebind].
    cbn. by rewrite app_nil_r.
  - rewrite !fmap_cons, sep_by_cons.
    rewrite range_field_print; [|done|right; by eexists|lia]. cbn [ebind].
    rewrite <- fmap_cons, IH; [|done|done|lia|rewrite length_app; lia].
    by rewrite (bind_cons field_values f), app_assoc.
Qed.

Lemma print_field_first f : exists c s, print_field f = c :: s /\ c <> 64 /\ c <> 43.
Proof.
  assert (forall z, exists c s, print_dec z = c :: s /\ c <> 64 /\ c <> 43) as H.
  { intros z. pose proof (print_dec_nonempty z) as Hne.
    pose proof (print_dec_notin z 64 eq_refl ltac:(lia)) as H1.
    pose proof (print_dec_notin z 43 eq_refl ltac:(lia)) as H2.
    destruct (print_dec z) as [|c s]; [done|]. exists c, s. split; [done|].
    apply not_elem_of_cons in H1 as [? _], H2 as [? _]. by split; congruence. }
  destruct f as [d|d1 d2]; cbn [print_field]; [apply H|].
  destruct (H d1) as (c&s&->&Hc). eexists _, _. split; [reflexivity|done].
Qed.

Lemma range_prefix_other c s : c <> 64 -> range_prefix (c :: s) = ((false, false), c :: s).
Proof. intros H. unfold range_prefix. repeat case_match; congruence. Qed.

Lemma range_prefix_single c s : c <> 64 -> range_prefix (64 :: c :: s) = ((true, false), c :: s).
Proof. intros H. unfold range_prefix. repeat case_match; congruence. Qed.

Lemma relative_prefix_other c s : c <> 43 -> relative_prefix (c :: s) = (false, c :: s).
Proof. intros H. unfold relative_prefix. repeat case_match; congruence. Qed.

Lemma load_prefixes src relative fs v :
  fs <> [] -> rg_range v = [] ->
  ski_input_env_load_int_range (Some (print_range src relative fs)) v =
  (range <-? range_loop (S (length (sep_by 44 (print_field <$> fs)))) (sep_by 44 (print_field <$> fs)) [] ;;
   Val (mk_range range (rg_iterator v) (relative || rg_relative v)
          (match src with FromFile => true | _ => false end || rg_from_file_single v)
          (match src with FromPairs => true | _ => false end || rg_from_file_pairs v))).
Proof.
  intros Hne Hv. unfold ski_input_env_load_int_range, clear_first. rewrite Hv.
  assert (exists c s, sep_by 44 (print_field <$> fs) = c :: s /\ c <> 64 /\ c <> 43) as (c&s&Hs&H1&H2).
  { destruct fs as [|f fs]; [done|]. destruct (print_field_first f) as (c&s&Hf&Hc). rewrite fmap_cons, Hf.
    destruct (print_field <$> fs); by eexists _, _. }
  unfold print_range. rewrite Hs.
  destruct src, relative; cbn [app str fmap list_fmap]; rewrite ?Hv;
    try change (str "@") with [64]; try change (str "@@") with [64; 64]; try change (str "+") with [43]; cbn [app];
    rewrite ?range_prefix_single, ?range_prefix_other by done; cbn [range_prefix];
    rewrite ?relative_prefix_other by done; cbn [relative_prefix]; rewrite ?Hv; done.
Qed.

(** C27: a range is parsed to exactly its values.  For any list of numbers and
    intervals with fewer than [MAX_SKI_INTPUT_INT_RANGE] values in all, written
    with or without the prefixes for a file of inputs, a file of pairs and a
    relative second input, [ski_input_env_load_int_range] succeeds on a cleared
    variable and stores the values in order, with the flags of the prefixes. *)
Theorem ski_input_range_roundtrip (src : source) (relative : bool) (fs : list field)
    (Hok : Forall field_ok fs) (Hne : fs <> [])
    (Hn : Z.of_nat (length (fs ≫= field_values)) < MAX_SKI_INTPUT_INT_RANGE) :
  ski_input_env_load_int_range (Some (print_range src relative fs)) range_zero =
  Val (mk_range (fs ≫= field_values) 0 relative (match src with FromFile => true | _ => false end)
         (match src with FromPairs => true | _ => false end)).
Proof.
  rewrite load_prefixes by done. rewrite range_loop_print; [|done|done| |done].
  - cbn [ebind app rg_iterator range_zero rg_relative rg_from_file_single rg_from_file_pairs].
    by rewrite !orb_false_r.
  - apply le_S. clear. induction fs as [|f fs IH]; [done|]. destruct (print_field_first f) as (c&s&Hf&_).
    rewrite fmap_cons. destruct fs as [|f' fs]; [rewrite Hf; cbn; lia|].
    rewrite fmap_cons in *. rewrite sep_by_cons, length_app, Hf. cbn [length] in *. lia.
Qed.

Lemma ski_input_range_roundtrip_witness :
  print_range FromFile true [FSingle 2; FRange 4 6; FSingle (-1)] = str "@+2,4-6,-1" /\
  ski_input_env_load_int_range (Some (print_range FromFile true [FSingle 2; FRange 4 6; FSingle (-1)])) range_zero =
  Val (mk_range [2; 4; 5; 6; -1] 0 true true false).
Proof.
  split; [by vm_compute|]. apply (ski_input_range_roundtrip FromFile true [FSingle 2; FRange 4 6; FSingle (-1)]).
  - repeat constructor; by vm_compute.
  - done.
  - by vm_compute.
Defined.

(** ** The exploration visits every test once *)

(** The state with the three iterators at given positions. *)
Definition at_position (s : exploration) (i1 i2 i3 : Z) : exploration :=
  set_x_ranges (set_rg_iterator i1 (x_input1 s)) (set_rg_iterator i2 (x_input2 s))
    (set_rg_iterator i3 (x_interleaving s)) s.

Lemma div_mod_succ k n :
  0 < n -> 0 <= k ->
  if decide (k mod n + 1 = n) then (k + 1) / n = k / n + 1 /\ (k + 1) mod n = 0
  else (k + 1) / n = k / n /\ (k + 1) mod n = k mod n + 1 /\ k mod n + 1 < n.
Proof.
  intros Hn Hk. pose proof (Z.div_mod k n ltac:(lia)) as Hdm. pose proof (Z.mod_pos_bound k n Hn) as Hm.
  destruct (decide _) as [He|He].
  - split; symmetry; [apply (Z.div_unique _ _ _ 0)|apply (Z.mod_unique _ _ (k / n + 1))]; lia.
  - assert (k mod n + 1 < n) by lia.
    split; [|split; [|done]]; symmetry;
      [apply (Z.div_unique _ _ _ (k mod n + 1))|apply (Z.mod_unique _ _ (k / n))]; lia.
Qed.

Section enumeration.
Context (s : exploration).
Let n1 := range_n (x_input1 s).
Let n2 := range_n (x_input2 s).
Let n3 := range_n (x_interleaving s).
Let pairs := rg_from_file_pairs (x_input1 s).
Context (H1 : 0 < n1 <= MAX_SKI_INTPUT_INT_RANGE) (H2 : 0 < n2 <= MAX_SKI_INTPUT_INT_RANGE)
        (H3 : 0 < n3 <= MAX_SKI_INTPUT_INT_RANGE).

(** The positions of test number [k], and the number of tests. *)
Definition first_of (k : Z) : Z := if pairs then k / n3 else k / n3 / n2.
Definition second_of (k : Z) : Z := (k / n3) mod n2.
Definition interleaving_of (k : Z) : Z := k mod n3.
Definition tests : Z := if pairs then n1 * n3 else n1 * n2 * n3.

Definition at_test (k : Z) : exploration := at_position s (first_of k) (second_of k) (interleaving_of k).

Lemma first_of_bound k : 0 <= k -> (first_of k < n1 <-> k < tests) /\ 0 <= first_of k.
Proof.
  intros Hk. unfold first_of, tests. destruct pairs.
  - pose proof (Z.div_mod k n3 ltac:(lia)) as Hd. pose proof (Z.mod_pos_bound k n3 ltac:(lia)).
    split; [nia|]. apply Z.div_pos; lia.
  - rewrite Z.div_div by lia. pose proof (Z.div_mod k (n3 * n2) ltac:(nia)) as Hd.
    pose proof (Z.mod_pos_bound k (n3 * n2) ltac:(nia)). split; [nia|]. apply Z.div_pos; nia.
Qed.

Lemma range_n_iterator v r : range_n (set_rg_iterator v r) = range_n r.
Proof. done. Qed.

Lemma advance_test k : 0 <= k < tests -> advance (at_test k) = at_test (k + 1).
Proof.
  intros Hk. pose proof (first_of_bound k ltac:(lia)) as [Hf Hf0].
  pose proof (div_mod_succ k n3 ltac:(lia) ltac:(lia)) as Hs3.
  pose proof (Z.mod_pos_bound k n3 ltac:(lia)) as Hm3.
  pose proof (Z.mod_pos_bound (k / n3) n2 ltac:(lia)) as Hm2.
  assert (0 <= k / n3) as Hq by (apply Z.div_pos; lia).
  pose proof (div_mod_succ (k / n3) n2 ltac:(lia) Hq) as Hs2.
  assert (advance (at_test k) =
    if k mod n3 + 1 >=? n3 then
      if ((k / n3) mod n2 + 1 >=? n2) || pairs
      then at_position s (first_of k + 1) (Z.rem ((k / n3) mod n2 + 1) n2) (Z.rem (k mod n3 + 1) n3)
      else at_position s (first_of k) ((k / n3) mod n2 + 1) (Z.rem (k mod n3 + 1) n3)
    else at_position s (first_of k) ((k / n3) mod n2) (k mod n3 + 1)) as ->.
  { unfold advance, at_test, at_position, interleaving_of, second_of. unfold MAX_SKI_INTPUT_INT_RANGE in *.
    cbn [x_input1 x_input2 x_interleaving set_x_ranges rg_iterator set_rg_iterator].
    rewrite (wrap32_id (k mod n3 + 1)), (wrap32_id ((k / n3) mod n2 + 1)), (wrap32_id (first_of k + 1))
      by (unfold in_int; lia). done. }
  unfold at_test, interleaving_of, second_of, first_of in *.
  destruct (decide (k mod n3 + 1 = n3)) as [E3|E3].
  - destruct Hs3 as [-> ->]. replace (_ >=? n3) with true by lia. rewrite E3, Z.rem_same by lia.
    destruct (decide ((k / n3) mod n2 + 1 = n2)) as [E2|E2].
    + destruct Hs2 as [-> ->]. replace (_ >=? n2) with true by lia. rewrite E2, Z.rem_same by lia. cbn [orb].
      by destruct pairs.
    + destruct Hs2 as (->&->&Hlt). replace (_ >=? n2) with false by lia. cbn [orb].
      rewrite Z.rem_small by lia. by destruct pairs.
  - destruct Hs3 as (->&->&Hlt). by replace (_ >=? n3) with false by lia.
Qed.

Context (f : Z -> Z -> Z * Z) (dir : list Z).
Context (Hf : forall i1 i2, 0 <= i1 < n1 -> 0 <= i2 < n2 -> next_inputs (at_position s i1 i2 0) = Val (f i1 i2)).
Context (Hdir : ski_input_env_load_str (x_output_dir s) = Val dir).

(** The seed at a position of the interleavings. *)
Definition seed_at (i : Z) : Z := wrap32 (rg_range (x_interleaving s) !!! Z.to_nat i).

(** What test number [k] runs: its inputs, its seed, and whether the inputs
    are new. *)
Definition test_of (k : Z) : (Z * Z) * Z * Z :=
  (f (first_of k) (second_of k), seed_at (interleaving_of k), b2z (interleaving_of k =? 0)).

(** The state before test number [k], whatever the previous test was. *)
Definition before_test (k : Z) (t : exploration) : Prop :=
  exists numbers seed d, t = set_x_destination_dir d (set_x_test numbers seed (at_test k)).

Lemma new_output_dir_Ret t k :
  before_test k t -> exists d, new_output_dir t = Ret (set_x_destination_dir d t) tt.
Proof.
  intros (ns&sd&d&->). unfold new_output_dir. erewrite bind_Ret by done. destruct (_ && _); cbn [when].
  - erewrite bind_Ret by (apply lift_Val; exact Hdir). cbn [x_input_number]. destruct ns as [a b]. by eexists.
  - by exists d.
Qed.

Lemma fork_init_test k t :
  before_test k t -> 0 <= k < tests ->
  exists t', ski_input_fork_init t = Ret t' (test_of k).2 /\ before_test (k + 1) t' /\
    x_input_number t' = (test_of k).1.1 /\ x_seed t' = (test_of k).1.2.
Proof.
  intros Hb Hk. pose proof Hb as (ns&sd&d&Et). pose proof (first_of_bound k ltac:(lia)) as [Hfk Hf0].
  assert (0 <= second_of k < n2) as Hs2 by (apply Z.mod_pos_bound; lia).
  assert (0 <= interleaving_of k < n3) as Hs3 by (apply Z.mod_pos_bound; lia).
  unfold ski_input_fork_init. erewrite bind_Ret by done.
  assert ((rg_iterator (x_input1 t) >=? range_n (x_input1 t)) = false) as ->.
  { subst t. change ((first_of k >=? n1) = false). lia. }
  erewrite bind_Ret.
  2:{ apply lift_Val. subst t. exact (Hf (first_of k) (second_of k) ltac:(lia) Hs2). }
  assert (exists v, rg_range (x_interleaving s) !! Z.to_nat (interleaving_of k) = Some v) as (v&Hv).
  { apply lookup_lt_is_Some_2. unfold n3, range_n in Hs3. lia. }
  erewrite bind_Ret.
  2:{ apply (lift_Val _ _ v). subst t. change (at_ (rg_range (x_interleaving s)) (interleaving_of k) = Val v).
      unfold at_. rewrite (proj2 (Z.ltb_ge _ _)) by lia. by rewrite Hv. }
  erewrite bind_Ret by done.
  assert (rg_iterator (x_interleaving t) = interleaving_of k) as -> by (by subst t).
  set (t1 := set_x_test (f (first_of k) (second_of k)) (wrap32 v) t).
  assert (before_test k t1) as Hb1 by (subst t; by eexists _, _, _).
  assert (exists d', when (interleaving_of k =? 0) new_output_dir t1 = Ret (set_x_destination_dir d' t1) tt) as (d'&E).
  { destruct (_ =? 0); cbn [when]; [by apply (new_output_dir_Ret t1 k)|]. by exists (x_destination_dir t1). }
  erewrite bind_Ret by exact E. erewrite bind_Ret by done. eexists. split; [done|]. split.
  - exists (f (first_of k) (second_of k)), (wrap32 v), d'. rewrite <- (advance_test k Hk). subst t.
    unfold t1, advance. cbn [x_input1 x_input2 x_interleaving set_x_destination_dir set_x_test].
    repeat case_match; done.
  - unfold advance. cbn [test_of fst snd]. unfold seed_at.
    rewrite (list_lookup_total_correct _ _ _ Hv). repeat case_match; done.
Qed.

(** [n] calls in a row, with the tests they set up. *)
Fixpoint explore (n : nat) : M exploration (list ((Z * Z) * Z * Z)) :=
  match n with
  | O => ret []
  | S n' =>
      new_input <- ski_input_fork_init ;;
      t <- get ;;
      l <- explore n' ;;
      ret ((x_input_number t, x_seed t, new_input) :: l)
  end.

Lemma explore_tests n k t :
  before_test k t -> 0 <= k -> k + Z.of_nat n <= tests ->
  exists t', explore n t = Ret t' (test_of <$> seqZ k (Z.of_nat n)) /\ before_test (k + Z.of_nat n) t'.
Proof.
  revert k t. induction n as [|n IH]; intros k t Hb Hk Hn.
  { exists t. split; [done|]. by rewrite Z.add_0_r. }
  destruct (fork_init_test k t Hb ltac:(lia)) as (t1&E&Hb1&En&Es).
  destruct (IH (k + 1) t1 Hb1 ltac:(lia) ltac:(lia)) as (t2&E2&Hb2).
  exists t2. cbn [explore]. erewrite bind_Ret by exact E. erewrite bind_Ret by done.
  erewrite bind_Ret by exact E2. rewrite (seqZ_cons k) by lia. rewrite fmap_cons, En, Es. split.
  - unfold ret. do 2 f_equal. by rewrite Nat2Z.inj_succ, Z.pred_succ.
  - by replace (k + Z.of_nat (S n)) with (k + 1 + Z.of_nat n) by lia.
Qed.

Lemma fork_init_done t : before_test tests t -> ski_input_fork_init t = Ret t 0.
Proof.
  intros (ns&sd&d&Et). unfold ski_input_fork_init. erewrite bind_Ret by done.
  assert ((rg_iterator (x_input1 t) >=? range_n (x_input1 t)) = true) as ->; [|done].
  assert (0 <= tests) as H0 by (unfold tests; destruct pairs; nia).
  pose proof (first_of_bound tests H0) as [Hf' _].
  subst t. change ((first_of tests >=? n1) = true). lia.
Qed.
End enumeration.

(** C26: the exploration runs every test exactly once.  Let the two inputs and the
    interleavings have [n1], [n2] and [n3] values (the pairs of a pairs file count
    once).  From the start, the [k]-th call of [ski_input_fork_init] sets up the
    test whose positions are the digits of [k] in the mixed radix [n1], [n2], [n3]:
    the interleavings of a pair of inputs one after the other, the pairs in order,
    announcing a new input at the first interleaving.  After the last test further
    calls change nothing and announce none. *)
Theorem ski_input_enumerates (s : exploration) (f : Z -> Z -> Z * Z) (dir : list Z)
    (H1 : 0 < range_n (x_input1 s) <= MAX_SKI_INTPUT_INT_RANGE)
    (H2 : 0 < range_n (x_input2 s) <= MAX_SKI_INTPUT_INT_RANGE)
    (H3 : 0 < range_n (x_interleaving s) <= MAX_SKI_INTPUT_INT_RANGE)
    (Hf : forall i1 i2, 0 <= i1 < range_n (x_input1 s) -> 0 <= i2 < range_n (x_input2 s) ->
            next_inputs (at_position s i1 i2 0) = Val (f i1 i2))
    (Hdir : ski_input_env_load_str (x_output_dir s) = Val dir) :
  let n2 := range_n (x_input2 s) in
  let n3 := range_n (x_interleaving s) in
  let pairs := rg_from_file_pairs (x_input1 s) in
  let total := range_n (x_input1 s) * (if pairs then 1 else n2) * n3 in
  exists t, explore (Z.to_nat total) (at_position s 0 0 0) =
      Ret t ((fun k => (f (if pairs then k / n3 else k / n3 / n2) ((k / n3) mod n2),
                        wrap32 (rg_range (x_interleaving s) !!! Z.to_nat (k mod n3)),
                        b2z (k mod n3 =? 0))) <$> seqZ 0 total) /\
    ski_input_fork_init t = Ret t 0.
Proof.
  intros n2 n3 pairs total. assert (tests s = total) as Ht.
  { unfold tests, total, pairs. destruct (rg_from_file_pairs _); fold n2 n3; lia. }
  assert (0 <= total) as H0. { rewrite <- Ht. unfold tests. destruct (rg_from_file_pairs _); nia. }
  destruct (explore_tests s H1 H2 H3 f dir Hf Hdir (Z.to_nat total) 0 (at_position s 0 0 0)) as (t&E&Hb).
  - exists (x_input_number s), (x_seed s), (x_destination_dir s). unfold at_test, first_of, second_of, interleaving_of.
    rewrite !Z.div_0_l, !Z.mod_0_l by lia. destruct (rg_from_file_pairs _); [done|]. done.
  - done.
  - rewrite Ht. lia.
  - rewrite Z2Nat.id in E, Hb by done. exists t. split; [exact E|].
    apply (fork_init_done s H1 H2 H3). by rewrite Ht.
Qed.

(** Two first inputs, a second input relative to the first, three interleavings. *)
Definition sample_exploration : exploration :=
  mk_exploration (mk_range [10; 20] 0 false false false) (mk_range [1; 5] 0 true false false)
    (mk_range [7; 8; 9] 0 false false false) [] [] (0, 0) 0 [] (Some (str "/tmp/out")) true false.

Definition sample_inputs (i1 i2 : Z) : Z * Z :=
  (if i1 =? 0 then 10 else 20, (if i1 =? 0 then 10 else 20) + (if i2 =? 0 then 1 else 5)).

Lemma ski_input_enumerates_witness :
  let s := sample_exploration in
  let n2 := range_n (x_input2 s) in
  let n3 := range_n (x_interleaving s) in
  let pairs := rg_from_file_pairs (x_input1 s) in
  let total := range_n (x_input1 s) * (if pairs then 1 else n2) * n3 in
  match explore 12 (at_position s 0 0 0) with
  | Ret _ l => take 4 l = [((10, 11), 7, 1); ((10, 11), 8, 0); ((10, 11), 9, 0); ((10, 15), 7, 1)] /\ total = 12
  | _ => False
  end /\
  exists t, explore (Z.to_nat total) (at_position s 0 0 0) =
      Ret t ((fun k => (sample_inputs (if pairs then k / n3 else k / n3 / n2) ((k / n3) mod n2),
                        wrap32 (rg_range (x_interleaving s) !!! Z.to_nat (k mod n3)),
                        b2z (k mod n3 =? 0))) <$> seqZ 0 total) /\
    ski_input_fork_init t = Ret t 0.
Proof.
  intros s n2 n3 pairs total. split; [by vm_compute|].
  refine (ski_input_enumerates sample_exploration sample_inputs (str "/tmp/out") _ _ _ _ _);
    [apply (bool_decide_unpack _); by vm_compute..| |by vm_compute].
  intros i1 i2 Hi1 Hi2. change (0 <= i1 < 2) in Hi1. change (0 <= i2 < 2) in Hi2.
  assert (i1 = 0 \/ i1 = 1) as [-> | ->] by lia; assert (i2 = 0 \/ i2 = 1) as [-> | ->] by lia; by vm_compute.
Defined.
