(* ===== verification/InputSafety.v ===== *)
(** * InputSafety.v -- reading the configuration is safe

    The parser of ranges terminates on every text and stays in its array
    ([ski_input_range_total]); what [ski_input_init] accepts is well formed
    ([ski_input_init_typed]) and can be explored to the end
    ([ski_input_init_explores]). *)

From Stdlib Require Import Strings.String.
From S2P Require Import Prelude CString Priorities Input.

(** ** Numbers of bounded length *)

(** The digits at the front of [s]. *)
Fixpoint digits_run (s : list Z) : nat :=
  match s with
  | c :: s' => if is_digit c then S (digits_run s') else 0
  | [] => 0
  end.

(** No number has more than 18 digits. *)
Fixpoint short_numbers (s : list Z) : bool :=
  match s with
  | [] => true
  | _ :: s' => (digits_run s <=? 18)%nat && short_numbers s'
  end.

Lemma short_suffix s t : t `suffix_of` s -> short_numbers s = true -> short_numbers t = true.
Proof.
  intros [k ->]. induction k as [|c k IH]; [done|]. cbn [app short_numbers]. intros [_ H]%andb_true_iff. by apply IH.
Qed.

Lemma short_run s : short_numbers s = true -> (digits_run s <= 18)%nat.
Proof. destruct s as [|c s]; [cbn; lia|]. intros [H _]%andb_true_iff. by apply Nat.leb_le. Qed.

Lemma scan_digits_bound s v :
  0 <= v ->
  (scan_digits s v).2 `suffix_of` s /\ 0 <= (scan_digits s v).1 < (v + 1) * 10 ^ Z.of_nat (digits_run s).
Proof.
  revert v. induction s as [|c s IH]; intros v Hv; cbn [scan_digits digits_run].
  { cbn. split; [done|lia]. }
  destruct (is_digit c) eqn:Ec; [|cbn; split; [done|lia]].
  unfold is_digit in Ec. destruct (IH (10 * v + (c - 48)) ltac:(lia)) as [Hs Hb]. split.
  - by apply suffix_cons_r.
  - rewrite Nat2Z.inj_succ, Z.pow_succ_r by lia. nia.
Qed.

(** What a conversion leaves is shorter, and a short number is small. *)
Definition scanned (s : list Z) (v : Z) (r : list Z) : Prop :=
  r `suffix_of` s /\ (length r < length s)%nat /\ (short_numbers s = true -> - 10 ^ 18 < v < 10 ^ 18).

Lemma scan_number_scanned s v r : scan_number s = Some (v, r) -> scanned s v r.
Proof.
  destruct s as [|c s]; [done|]. unfold scan_number. destruct (is_digit c) eqn:Ec; [|done]. intros [= Hs].
  pose proof (scan_digits_bound (c :: s) 0 ltac:(lia)) as [_ Hb].
  cbn [scan_digits] in Hs. rewrite Ec in Hs. unfold is_digit in Ec.
  pose proof (scan_digits_bound s (10 * 0 + (c - 48)) ltac:(lia)) as [Hs' _].
  cbn [scan_digits] in Hb. unfold is_digit at 1 2 in Hb. rewrite Ec in Hb. rewrite Hs in Hb, Hs'. cbn [fst snd] in *.
  split; [by apply suffix_cons_r|]. split; [apply suffix_length in Hs'; cbn; lia|].
  intros Hsh%short_run. assert (10 ^ Z.of_nat (digits_run (c :: s)) <= 10 ^ 18) by (apply Z.pow_le_mono_r; lia). lia.
Qed.

Lemma scanned_suffix s t v r : t `suffix_of` s -> scanned t v r -> scanned s v r.
Proof.
  intros Hts (H1&H2&H3). split; [by etrans|]. split; [apply suffix_length in Hts; lia|].
  intros Hsh. apply H3. by eapply short_suffix.
Qed.

Lemma skip_spaces_suffix s : skip_spaces s `suffix_of` s.
Proof. induction s as [|c s IH]; [done|]. cbn. destruct (is_space c); [by apply suffix_cons_r|done]. Qed.

Lemma sscanf_d_scanned s v r : sscanf_d s = Some (v, r) -> scanned s v r.
Proof.
  unfold sscanf_d. intros H. pose proof (skip_spaces_suffix s) as Hs. destruct (skip_spaces s) as [|c t]; [done|].
  assert (t `suffix_of` s) as Ht by (etrans; [|exact Hs]; by apply suffix_cons_r).
  destruct (c =? 45).
  - apply fmap_Some in H as ([w r']&H%scan_number_scanned&[= -> ->]). destruct (scanned_suffix s t _ _ Ht H) as (H1&H2&H3).
    split; [done|]. split; [done|]. intros Hsh%H3. lia.
  - destruct (c =? 43); apply scan_number_scanned in H; [exact (scanned_suffix s t v r Ht H)|exact (scanned_suffix s _ v r Hs H)].
Qed.

Lemma strtoll_scanned s v r : strtoll_ s = Val (v, r) -> scanned s v r /\ in_int64 v.
Proof.
  unfold strtoll_, strtoll. destruct (sscanf_d s) as [[w r']|] eqn:E; [|done]. cbn -[Z.pow]. intros [= <- <-].
  apply sscanf_d_scanned in E as (H1&H2&H3). split; [|unfold in_int64; lia].
  split; [done|]. split; [done|]. intros Hsh%H3. lia.
Qed.

Lemma strtoll_Fail s h : strtoll_ s = Fail h -> h = HAssert.
Proof. unfold strtoll_. destruct (strtoll s); congruence. Qed.

(** ** Parsing a range *)

Definition entries_ok (range : list Z) : Prop :=
  Z.of_nat (length range) <= MAX_SKI_INTPUT_INT_RANGE /\ Forall in_int64 range.

Lemma interval_ok d1 d2 : in_int64 d1 -> in_int64 d2 -> d1 <= d2 -> Forall in_int64 (seqZ d1 (wrap64 (d2 - d1) + 1)).
Proof.
  unfold in_int64. intros H1 H2 Hle. apply Forall_forall. intros x Hx%elem_of_seqZ. unfold wrap64 in Hx.
  destruct (decide (d2 - d1 < 2 ^ 63)).
  - rewrite Z.mod_small in Hx by lia. lia.
  - assert ((d2 - d1 + 2 ^ 63) mod 2 ^ 64 = d2 - d1 + 2 ^ 63 - 2 ^ 64) as E.
    { symmetry. apply (Z.mod_unique _ _ 1); lia. }
    rewrite E in Hx. lia.
Qed.

Lemma range_field_cases s range :
  entries_ok range ->
  match range_field s range with
  | Val (range', r) => r `suffix_of` s /\ (length r < length s)%nat /\ entries_ok range'
  | Fail h => short_numbers s = true -> h = HAssert
  end.
Proof.
  intros [Hl Hr]. unfold range_field. destruct (strtoll_ s) as [[d1 s1]|h] eqn:E1; cbn [ebind].
  2:{ intros _. by eapply strtoll_Fail. }
  apply strtoll_scanned in E1 as [(Hs1&Hl1&Hb1) Hd1].
  assert (Hsingle : match (_ <-? eassert (Z.of_nat (length range) <? MAX_SKI_INTPUT_INT_RANGE) ;; Val (range ++ [d1], s1)) with
    | Val (range', r) => r `suffix_of` s /\ (length r < length s)%nat /\ entries_ok range'
    | Fail h => short_numbers s = true -> h = HAssert end).
  { destruct (Z.ltb_spec (Z.of_nat (length range)) MAX_SKI_INTPUT_INT_RANGE); cbn [eassert ebind]; [|done].
    split; [done|]. split; [done|]. split; [rewrite length_app; cbn; lia|]. apply Forall_app. by split; [|constructor]. }
  destruct s1 as [|c s1']; [done|]. destruct (decide (c = 44)) as [->|Hc44]; [done|].
  destruct (decide (c = 45)) as [->|Hc45].
  2:{ repeat case_match; (done || congruence). }
  destruct (strtoll_ s1') as [[d2 s2]|h] eqn:E2; cbn [ebind].
  2:{ intros _. by eapply strtoll_Fail. }
  apply strtoll_scanned in E2 as [(Hs2&Hl2&Hb2) Hd2].
  assert (s1' `suffix_of` s) as Hs1' by (etrans; [|exact Hs1]; by apply suffix_cons_r).
  destruct (Z.geb_spec d2 d1) as [Hge|]; cbn [eassert ebind]; [|done].
  destruct (Z.ltb_spec (wrap64 (Z.of_nat (length range) + wrap64 (wrap64 (d2 - d1) + 1))) MAX_SKI_INTPUT_INT_RANGE) as [Hlt|]; cbn [eassert ebind]; [|done].
  destruct (Z.leb_spec (Z.of_nat (length range) + (wrap64 (d2 - d1) + 1)) MAX_SKI_INTPUT_INT_RANGE) as [Hle|Hgt].
  - split; [by etrans|]. split; [cbn in Hl1; lia|]. split; [|apply Forall_app; split; [done|by apply interval_ok]].
    rewrite length_app, length_seqZ. lia.
  - intros Hsh. exfalso. specialize (Hb1 Hsh). specialize (Hb2 (short_suffix _ _ Hs1' Hsh)).
    unfold MAX_SKI_INTPUT_INT_RANGE in *. rewrite (wrap64_id (d2 - d1)) in Hlt, Hgt by (unfold in_int64; lia).
    rewrite (wrap64_id (d2 - d1 + 1)), wrap64_id in Hlt by (unfold in_int64; lia). lia.
Qed.

Lemma range_loop_cases fuel s range :
  (length s < fuel)%nat -> entries_ok range ->
  match range_loop fuel s range with
  | Val range' => entries_ok range'
  | Fail h => short_numbers s = true -> h = HAssert
  end.
Proof.
  revert s range. induction fuel as [|fuel IH]; intros s range Hf Hok; [lia|]. cbn [range_loop].
  pose proof (range_field_cases s range Hok) as Hc. destruct (range_field s range) as [[range1 r]|h]; cbn [ebind]; [|done].
  destruct Hc as (Hs&Hl&Hok1). destruct r as [|c r]; [done|].
  destruct (decide (c = 44)) as [->|Hc]; [|repeat case_match; (done || congruence)].
  specialize (IH r range1). cbn [length] in Hl. destruct (range_loop fuel r range1).
  - apply IH; [lia|done].
  - intros Hsh. apply IH; [lia|done|]. eapply short_suffix; [|exact Hsh]. etrans; [|exact Hs]. by apply suffix_cons_r.
Qed.

(** The result does not depend on the fuel. *)
Lemma range_loop_fuel f1 f2 s range :
  entries_ok range -> (length s < f1)%nat -> (length s < f2)%nat -> range_loop f1 s range = range_loop f2 s range.
Proof.
  revert f2 s range. induction f1 as [|f1 IH]; intros [|f2] s range Hok H1 H2; try lia. cbn [range_loop].
  pose proof (range_field_cases s range Hok) as Hc. destruct (range_field s range) as [[range1 r]|h]; cbn [ebind]; [|done].
  destruct Hc as (_&Hl&Hok1). destruct r as [|c r]; [done|]. cbn [length] in Hl.
  destruct (decide (c = 44)) as [->|Hc]; [apply IH; (done || lia)|]. repeat case_match; (done || congruence).
Qed.

Lemma prefixes_suffix s : (relative_prefix (range_prefix s).2).2 `suffix_of` s.
Proof.
  assert ((range_prefix s).2 `suffix_of` s) as H1.
  { unfold range_prefix. repeat case_match; simplify_eq; cbn; repeat (done || apply suffix_cons_r). }
  etrans; [|exact H1]. unfold relative_prefix. repeat case_match; simplify_eq; cbn; repeat (done || apply suffix_cons_r).
Qed.

Lemma load_int_range_cases s :
  match ski_input_env_load_int_range (Some s) range_zero with
  | Val r => entries_ok (rg_range r) /\ rg_iterator r = 0
  | Fail h => short_numbers s = true -> h = HAssert
  end.
Proof.
  unfold ski_input_env_load_int_range. cbn [clear_first rg_range range_zero]. destruct s as [|c s]; [done|].
  pose proof (prefixes_suffix (c :: s)) as Hs. destruct (range_prefix (c :: s)) as [[single pairs] t1].
  cbn [snd] in Hs. destruct (relative_prefix t1) as [rel t]. cbn [snd] in Hs.
  pose proof (range_loop_cases (S (length t)) t []) as Hr.
  assert (entries_ok []) as H0 by (split; [done|constructor]).
  destruct (range_loop (S (length t)) t []) as [l|h]; cbn [ebind].
  - split; [|done]. apply Hr; [lia|done].
  - intros Hsh. apply Hr; [lia|done|]. by eapply short_suffix.
Qed.

(** Parsing a range terminates on every text and stays in the array.  The
    loop over the fields returns for any text, with any fuel above its length
    giving the same result; a text that is accepted gives at most
    [MAX_SKI_INTPUT_INT_RANGE] values in the range of [long long]; a text that is
    not stops at an assertion, provided no number has more than 18 digits. *)
Theorem ski_input_range_total (s : list Z) :
  (forall fuel, (length s < fuel)%nat -> range_loop fuel s [] = range_loop (S (length s)) s []) /\
  match ski_input_env_load_int_range (Some s) range_zero with
  | Val r => range_n r <= MAX_SKI_INTPUT_INT_RANGE /\ Forall in_int64 (rg_range r) /\ rg_iterator r = 0
  | Fail h => short_numbers s = true -> h = HAssert
  end.
Proof.
  split.
  - intros fuel Hf. apply range_loop_fuel; [split; [done|constructor]|done|lia].
  - pose proof (load_int_range_cases s) as H.
    destruct (ski_input_env_load_int_range (Some s) range_zero); [|done]. by destruct H as [[? ?] ?].
Qed.

(** The bound on the digits is needed: the size of the interval overflows and
    its values are written behind the array. *)
Lemma range_size_overflows :
  ski_input_env_load_int_range (Some (str "0-9223372036854775807")) range_zero = Fail HUndef.
Proof. by vm_compute. Qed.

(** ** A successful initialisation *)

Definition range_ok (r : ski_input_int_range) : Prop :=
  0 < range_n r <= MAX_SKI_INTPUT_INT_RANGE /\ Forall in_int64 (rg_range r) /\ rg_iterator r = 0.

(** The state before initialisation. *)
Definition exploration_start : exploration :=
  mk_exploration range_zero range_zero range_zero [] [] (0, 0) 0 [] None false false.

Record exploration_ok (x : exploration) : Prop := {
  e_input1 : range_ok (x_input1 x);
  e_input2 : range_ok (x_input2 x);
  e_interleaving : range_ok (x_interleaving x);
  e_relative : rg_relative (x_input1 x) = false /\ rg_relative (x_interleaving x) = false;
  e_single : rg_from_file_single (x_input1 x) = false -> rg_from_file_single (x_input2 x) = false;
  e_pairs : rg_from_file_pairs (x_input1 x) = rg_from_file_pairs (x_input2 x);
  e_plain : rg_from_file_single (x_interleaving x) = false /\ rg_from_file_pairs (x_interleaving x) = false;
  e_file : (rg_from_file_single (x_input1 x) = true -> x_input_file x <> []) /\ Forall in_int (x_input_file x);
  e_pairs_file : (rg_from_file_pairs (x_input1 x) = true -> x_pairs_file x <> []) /\
    Forall (fun p => in_int p.1 /\ in_int p.2) (x_pairs_file x);
  e_dir : exists dir, ski_input_env_load_str (x_output_dir x) = Val dir /\ dir <> []
}.

Record options_ok (x : exploration) (o : init_options) : Prop := {
  op_tests : n_total_tests o = wrap32 (wrap32 (range_n (x_input1 x) * range_n (x_input2 x)) * range_n (x_interleaving x));
  op_concurrency : 0 < n_forkall_concurrency o < 50;
  op_watchdog : 0 <= n_watchdog_seconds o /\ 0 <= n_debug_child_wait_start_seconds o;
  op_parent : n_debug_parent_executes o = 0 \/ n_debug_parent_executes o = 1;
  op_exit : n_debug_exit_after_hypercall o = 0 \/ n_debug_exit_after_hypercall o = 1;
  op_race : 0 <= n_race_detector o
}.

Lemma eassert_true b u : eassert b = Val u -> b = true.
Proof. by destruct b. Qed.

(** Splits the first step off a sequence of partial computations. *)
Ltac estep H :=
  match type of H with
  | ebind (eassert _) _ = Val _ =>
      let E := fresh "A" in
      destruct (eassert _) eqn:E in H; cbn [ebind] in H; [apply eassert_true in E|discriminate]
  | ebind ?e _ = Val _ =>
      let E := fresh "E" in destruct e eqn:E in H; cbn [ebind] in H; [|discriminate]
  end.

Lemma load_range_ok env r : ski_input_env_load_int_range env range_zero = Val r -> range_n r > 0 -> range_ok r.
Proof.
  intros H Hn. destruct env as [s|]; [|done]. pose proof (load_int_range_cases s) as Hc. rewrite H in Hc.
  destruct Hc as [[Hl Hf] Hi]. split; [|done]. unfold range_n in *. lia.
Qed.

Lemma load_ranges_ok getenv x t :
  load_ranges getenv exploration_start = Val (x, t) ->
  range_ok (x_input1 x) /\ range_ok (x_input2 x) /\ range_ok (x_interleaving x) /\
  (rg_relative (x_input1 x) = false /\ rg_relative (x_interleaving x) = false) /\
  (rg_from_file_single (x_input1 x) = false -> rg_from_file_single (x_input2 x) = false) /\
  rg_from_file_pairs (x_input1 x) = rg_from_file_pairs (x_input2 x) /\
  (rg_from_file_single (x_interleaving x) = false /\ rg_from_file_pairs (x_interleaving x) = false) /\
  t = wrap32 (wrap32 (range_n (x_input1 x) * range_n (x_input2 x)) * range_n (x_interleaving x)).
Proof.
  unfold load_ranges. cbn [x_input1 x_input2 x_interleaving exploration_start]. intros H. do 12 estep H.
  injection H as <- <-. cbn [x_input1 x_input2 x_interleaving set_x_ranges].
  apply eqb_prop in A5. rewrite ?negb_true_iff, ?orb_true_iff in *.
  split; [by eapply load_range_ok; [eassumption|lia]|]. split; [by eapply load_range_ok; [eassumption|lia]|].
  split; [by eapply load_range_ok; [eassumption|lia]|]. split; [done|]. split; [|done].
  intros Hs. destruct A4 as [Hs'|Hs']; [congruence|by apply negb_true_iff].
Qed.

Lemma input_file_loop_ok fuel c l l' :
  input_file_loop fuel c l = Val l' -> Forall in_int l -> Forall in_int l'.
Proof.
  revert c l. induction fuel as [|fuel IH]; intros c l H Hl; cbn [input_file_loop] in H; [by injection H as <-|].
  destruct c as [|b c]; [by injection H as <-|]. destruct (fgets 510 (b :: c)) as [buffer rest].
  destruct (sscanf_d _) as [[n r]|]; [|by injection H as <-]. estep H.
  apply IH in H; [done|]. apply Forall_app. split; [done|]. constructor; [apply wrap32_range|constructor].
Qed.

Lemma pairs_file_loop_ok fuel c l l' :
  pairs_file_loop fuel c l = Val l' -> Forall (fun p => in_int p.1 /\ in_int p.2) l ->
  Forall (fun p => in_int p.1 /\ in_int p.2) l'.
Proof.
  revert c l. induction fuel as [|fuel IH]; intros c l H Hl; cbn [pairs_file_loop] in H; [by injection H as <-|].
  destruct c as [|b c]; [by injection H as <-|]. destruct (fgets 510 (b :: c)) as [buffer rest].
  destruct (sscanf_dd _) as [[n1 n2]|]; [|by injection H as <-]. estep H.
  apply IH in H; [done|]. apply Forall_app. split; [done|]. constructor; [split; apply wrap32_range|constructor].
Qed.

Lemma load_input_file_ok name file l :
  ski_input_load_input_file name file = Val l -> (name <> [] -> l <> []) /\ Forall in_int l.
Proof.
  unfold ski_input_load_input_file. destruct name as [|c name]; [intros [= <-]; split; [done|constructor]|].
  destruct file as [content|]; [|done]. intros H. do 2 estep H. injection H as <-.
  split; [|by eapply input_file_loop_ok; [eassumption|constructor]]. intros _ Hl. rewrite Hl in A. by cbn in A.
Qed.

Lemma load_pairs_file_ok name file l :
  ski_input_load_input_pairs_file name file = Val l ->
  (name <> [] -> l <> []) /\ Forall (fun p => in_int p.1 /\ in_int p.2) l.
Proof.
  unfold ski_input_load_input_pairs_file. destruct name as [|c name]; [intros [= <-]; split; [done|constructor]|].
  destruct file as [content|]; [|done]. intros H. do 2 estep H. injection H as <-.
  split; [|by eapply pairs_file_loop_ok; [eassumption|constructor]]. intros _ Hl. rewrite Hl in A. by cbn in A.
Qed.

Lemma nonempty_length {A} (l : list A) : (Z.of_nat (length l) >? 0) = true -> l <> [].
Proof. by destruct l. Qed.

(** A referenced file has entries. *)
Lemma referenced_file {A} (b : bool) (name : list Z) (l : list A) :
  b = false \/ (Z.of_nat (length name) >? 0) = true -> (name <> [] -> l <> []) -> b = true -> l <> [].
Proof. intros [->|Hn%nonempty_length] Hl; [done|]. intros _. by apply Hl. Qed.

Lemma init_ok getenv fopen x o :
  ski_input_init getenv fopen exploration_start = Val (x, o) -> exploration_ok x /\ options_ok x o.
Proof.
  unfold ski_input_init. intros H. estep H. destruct a as [x0 total].
  apply load_ranges_ok in E as (R1&R2&R3&Hrel&Hs&Hp&Hpl&Ht).
  cbv zeta in H. repeat estep H. injection H as <- <-.
  repeat match goal with E : ski_input_load_input_file _ _ = Val _ |- _ => apply load_input_file_ok in E as [? ?]
                       | E : ski_input_load_input_pairs_file _ _ = Val _ |- _ => apply load_pairs_file_ok in E as [? ?] end.
  rewrite ?orb_true_iff, ?negb_true_iff in *.
  split; split; cbn [x_input1 x_input2 x_interleaving x_input_file x_pairs_file x_output_dir n_total_tests n_forkall_concurrency
    n_watchdog_seconds n_debug_child_wait_start_seconds n_debug_parent_executes n_debug_exit_after_hypercall n_race_detector];
    try done; try lia.
  - split; [by eapply referenced_file|done].
  - split; [by eapply referenced_file|done].
  - eexists. split; [eassumption|]. by apply nonempty_length.
Qed.

(** What initialisation accepts is well formed.  When [ski_input_init]
    returns, every range has between one and [MAX_SKI_INTPUT_INT_RANGE] values of
    its type and starts at the first, only the second input is relative, files
    the ranges refer to have entries, of type [int], there is an output
    directory, and the options are in the ranges their users expect. *)
Theorem ski_input_init_typed (getenv fopen : list Z -> option (list Z)) (x : exploration) (o : init_options)
    (H : ski_input_init getenv fopen exploration_start = Val (x, o)) :
  exploration_ok x /\ options_ok x o.
Proof. by eapply init_ok. Qed.

(** An environment with two inputs from a file, the second relative to the
    first, and four interleavings. *)
Definition sample_env (name : list Z) : option (list Z) :=
  if bool_decide (name = str "SKI_INPUT1_RANGE") then Some (str "@0-1")
  else if bool_decide (name = str "SKI_INPUT2_RANGE") then Some (str "@+1")
  else if bool_decide (name = str "SKI_INTERLEAVING_RANGE") then Some (str "1-4")
  else if bool_decide (name = str "SKI_OUTPUT_DIR") then Some (str "/tmp/out")
  else if bool_decide (name = str "SKI_INPUT_FILENAME") then Some (str "inputs")
  else if bool_decide (name = str "SKI_FORKALL_CONCURRENCY") then Some (str "2")
  else None.
Definition sample_file (name : list Z) : option (list Z) :=
  if bool_decide (name = str "inputs") then Some (str "31" ++ [10] ++ str "7" ++ [10] ++ str "12" ++ [10]) else None.
Definition sample_init : exploration * init_options :=
  match ski_input_init sample_env sample_file exploration_start with
  | Val r => r
  | Fail _ => (exploration_start, mk_init_options 0 0 0 [] [] 0 0 0 0 [] [] 0 0 0 0 0 0 0 0)
  end.

Lemma ski_input_init_typed_witness :
  (exploration_ok sample_init.1 /\ options_ok sample_init.1 sample_init.2) /\
  x_input_file sample_init.1 = [31; 7; 12] /\ n_total_tests sample_init.2 = 8.
Proof.
  split; [|by vm_compute]. refine (ski_input_init_typed sample_env sample_file sample_init.1 sample_init.2 _). by vm_compute.
Defined.

(** ** A successful initialisation can be explored *)

(** The positions in the input files are not negative (nor beyond [2^62]). *)
Definition indices_ok (x : exploration) : Prop :=
  Forall (fun v => 0 <= v < 2 ^ 62) (rg_range (x_input1 x)) /\ Forall (fun v => 0 <= v < 2 ^ 62) (rg_range (x_input2 x)).

Lemma at_Val {A} (l : list A) i : 0 <= i < Z.of_nat (length l) -> exists v, at_ l i = Val v /\ v ∈ l.
Proof.
  intros Hi. unfold at_. rewrite (proj2 (Z.ltb_ge _ _)) by lia.
  destruct (lookup_lt_is_Some_2 l (Z.to_nat i) ltac:(lia)) as [v Hv]. rewrite Hv. exists v. split; [done|].
  by eapply list_elem_of_lookup_2.
Qed.

Lemma current_Val r i :
  range_ok r -> 0 <= i < range_n r -> Forall (fun v => 0 <= v < 2 ^ 62) (rg_range r) ->
  exists v, current (set_rg_iterator i r) = Val v /\ 0 <= v < 2 ^ 62.
Proof.
  intros _ Hi Hf. destruct (at_Val (rg_range r) i Hi) as (v&E&Hin). exists v. split; [exact E|].
  rewrite Forall_forall in Hf. by apply Hf.
Qed.

Lemma get_current_Val file pairs r i second :
  range_ok r -> 0 <= i < range_n r -> Forall (fun v => 0 <= v < 2 ^ 62) (rg_range r) ->
  (rg_from_file_single r = true -> file <> []) -> (rg_from_file_pairs r = true -> pairs <> []) ->
  exists v, ski_input_get_current file pairs (set_rg_iterator i r) second = Val v.
Proof.
  intros Hr Hi Hf Hs Hp. unfold ski_input_get_current. destruct (current_Val r i Hr Hi Hf) as (v&->&Hv).
  cbn [ebind rg_from_file_single rg_from_file_pairs set_rg_iterator].
  destruct (rg_from_file_single r) eqn:Es; [|destruct (rg_from_file_pairs r) eqn:Ep; [|by eexists]].
  - assert (0 < Z.of_nat (length file)) by (destruct file; [by specialize (Hs eq_refl)|cbn; lia]).
    rewrite Z.gtb_ltb, (proj2 (Z.ltb_lt _ _)) by done. cbn [eassert ebind].
    destruct (at_Val file (if v >=? Z.of_nat (length file) then Z.of_nat (length file) - 1 else v)) as (w&->&_);
      [|by eexists]. destruct (Z.geb_spec v (Z.of_nat (length file))); lia.
  - assert (0 < Z.of_nat (length pairs)) by (destruct pairs; [by specialize (Hp eq_refl)|cbn; lia]).
    rewrite Z.gtb_ltb, (proj2 (Z.ltb_lt _ _)) by done. cbn [eassert ebind].
    destruct (at_Val pairs (if v >=? Z.of_nat (length pairs) then Z.of_nat (length pairs) - 1 else v)) as (w&->&_);
      [|by eexists]. destruct (Z.geb_spec v (Z.of_nat (length pairs))); lia.
Qed.

Lemma get_relative_Val file r1 r2 i1 i2 :
  range_ok r1 -> range_ok r2 -> 0 <= i1 < range_n r1 -> 0 <= i2 < range_n r2 ->
  Forall (fun v => 0 <= v < 2 ^ 62) (rg_range r1) -> Forall (fun v => 0 <= v < 2 ^ 62) (rg_range r2) ->
  rg_relative r1 = false -> rg_relative r2 = true -> (rg_from_file_single r1 = true -> file <> []) ->
  exists v, ski_input_get_current_relative file (set_rg_iterator i1 r1) (set_rg_iterator i2 r2) = Val v.
Proof.
  intros Hr1 Hr2 Hi1 Hi2 Hf1 Hf2 Hl1 Hl2 Hs. unfold ski_input_get_current_relative.
  destruct (current_Val r1 i1 Hr1 Hi1 Hf1) as (v1&->&Hv1), (current_Val r2 i2 Hr2 Hi2 Hf2) as (v2&->&Hv2).
  cbn [rg_relative set_rg_iterator rg_from_file_single]. rewrite Hl1, Hl2. cbn [negb eassert ebind].
  destruct (rg_from_file_single r1); [|by eexists]. specialize (Hs eq_refl).
  assert (0 < Z.of_nat (length file)) as Hn by (destruct file; [done|cbn; lia]).
  rewrite Z.gtb_ltb, (proj2 (Z.ltb_lt _ _)) by done. cbn [eassert ebind].
  assert (forall v, 0 <= v -> exists w, at_ file (Z.rem v (Z.of_nat (length file))) = Val w) as Hat.
  { intros v Hv. destruct (at_Val file (Z.rem v (Z.of_nat (length file)))) as (w&E&_); [|by exists w].
    by apply Z.rem_bound_pos. }
  destruct (negb _).
  - destruct (Hat v1 ltac:(lia)) as (w&->). by eexists.
  - rewrite wrap64_id by (unfold in_int64; lia). apply Hat. lia.
Qed.

Lemma next_inputs_Val x i1 i2 :
  exploration_ok x -> indices_ok x -> 0 <= i1 < range_n (x_input1 x) -> 0 <= i2 < range_n (x_input2 x) ->
  exists v, next_inputs (at_position x i1 i2 0) = Val v.
Proof.
  intros Hx [Hf1 Hf2] Hi1 Hi2. destruct Hx as [R1 R2 _ [Hr1 _] Hs Hp _ [Hfile _] [Hpairs _] _].
  unfold next_inputs, at_position. cbn [x_input_file x_pairs_file x_input1 x_input2 set_x_ranges].
  destruct (get_current_Val (x_input_file x) (x_pairs_file x) (x_input1 x) i1 false R1 Hi1 Hf1 Hfile Hpairs) as (v1&->).
  cbn [ebind rg_relative rg_from_file_pairs set_rg_iterator].
  destruct (rg_relative (x_input2 x)) eqn:Er; cbn [negb].
  - destruct (get_relative_Val (x_input_file x) (x_input1 x) (x_input2 x) i1 i2 R1 R2 Hi1 Hi2 Hf1 Hf2 Hr1 Er Hfile) as (v2&->).
    by eexists.
  - destruct (get_current_Val (x_input_file x) (x_pairs_file x) (x_input1 x) i1 true R1 Hi1 Hf1 Hfile Hpairs) as (v2&->).
    destruct (get_current_Val (x_input_file x) (x_pairs_file x) (x_input2 x) i2 true R2 Hi2 Hf2) as (v3&->).
    + intros H2. apply Hfile. destruct (rg_from_file_single (x_input1 x)); [done|]. by rewrite Hs in H2.
    + by rewrite <- Hp.
    + destruct (rg_from_file_pairs (x_input1 x)); by eexists.
Qed.

(** The inputs at two positions. *)
Definition inputs_at (x : exploration) (i1 i2 : Z) : Z * Z :=
  match next_inputs (at_position x i1 i2 0) with Val v => v | Fail _ => (0, 0) end.

Lemma at_position_start x : exploration_ok x -> at_position x 0 0 0 = x.
Proof.
  intros [(_&_&H1) (_&_&H2) (_&_&H3) _ _ _ _ _ _ _]. destruct x as [[] [] [] ? ? ? ? ? ? ? ?]. cbn in *. by subst.
Qed.

(** C31: a configuration that is accepted can be explored to its end.  When
    [ski_input_init] returns and no position in an input file is negative, every
    test of the exploration can be set up: as many calls of
    [ski_input_fork_init] as there are tests succeed, one after the other, and
    set up the tests in order. *)
Theorem ski_input_init_explores (getenv fopen : list Z -> option (list Z)) (x : exploration) (o : init_options)
    (H : ski_input_init getenv fopen exploration_start = Val (x, o)) (Hidx : indices_ok x) :
  exists t, explore (Z.to_nat (tests x)) x = Ret t (test_of x (inputs_at x) <$> seqZ 0 (tests x)).
Proof.
  destruct (init_ok getenv fopen x o H) as [Hx _]. pose proof Hx as [[R1 _] [R2 _] [R3 _] _ _ _ _ _ _ (dir&Hdir&_)].
  assert (0 <= tests x) as H0 by (unfold tests; destruct (rg_from_file_pairs _); nia).
  destruct (explore_tests x R1 R2 R3 (inputs_at x) dir) with (n := Z.to_nat (tests x)) (k := 0) (t := x) as (t&E&_).
  - intros i1 i2 Hi1 Hi2. unfold inputs_at. by destruct (next_inputs_Val x i1 i2 Hx Hidx Hi1 Hi2) as (v&->).
  - done.
  - exists (x_input_number x), (x_seed x), (x_destination_dir x). unfold at_test, first_of, second_of, interleaving_of.
    rewrite !Z.div_0_l, !Z.mod_0_l by lia. destruct (rg_from_file_pairs _); rewrite at_position_start by done; by destruct x.
  - done.
  - lia.
  - rewrite Z2Nat.id in E by done. by exists t.
Qed.

Lemma ski_input_init_explores_witness :
  let x := sample_init.1 in
  (exists t, explore (Z.to_nat (tests x)) x = Ret t (test_of x (inputs_at x) <$> seqZ 0 (tests x))) /\
  test_of x (inputs_at x) <$> seqZ 0 (tests x) =
    [((31, 7), 1, 1); ((31, 7), 2, 0); ((31, 7), 3, 0); ((31, 7), 4, 0);
     ((7, 12), 1, 1); ((7, 12), 2, 0); ((7, 12), 3, 0); ((7, 12), 4, 0)].
Proof.
  intros x. split; [|by vm_compute].
  refine (ski_input_init_explores sample_env sample_file x sample_init.2 _ _); [by vm_compute|].
  split; apply (bool_decide_unpack _); by vm_compute.
Defined.

(** A negative position reads before the input file. *)
Lemma negative_position_undefined :
  match ski_input_env_load_int_range (Some (str "@-5")) range_zero with
  | Val r => ski_input_get_current [31; 7; 12] [] r false = Fail HUndef
  | Fail _ => False
  end.
Proof. by vm_compute. Qed.
