(* ===== verification/Sha1.v ===== *)
(** * Sha1.v -- the hash that identifies a kernel and a disk image

    Models [ski-sha1.c] and [ski_sha_file] of [vl.c], which hashes (the begin of) a
    file in pieces and writes the digest as text.  The reference is SHA-1 as FIPS
    180-1 states it: the message is padded and cut into blocks of 64 bytes, each
    block is expanded to 80 words and mixed into five words.  The code works in
    place on 16 words and five variables whose roles rotate, on a little-endian
    host, and keeps the bytes that do not fill a block in its context.

    A word is a [Z] below [2 ^ 32], a byte one below 256.  Reading or writing
    outside an array is [HUndef]. *)

From Stdlib Require Import Btauto.
From S2P Require Import Prelude.

Definition SKI_HASH_BUFFER_SIZE : Z := 20 * 1024 * 1024.
Definition SKI_HASH_READ_MAX : Z := 50 * 1000 * 1000.

(** ** A block *)

Definition rol (value bits : Z) : Z := Z.lor (u32 (Z.shiftl value bits)) (Z.shiftr value (32 - bits)).

(** Four bytes in memory as a word of a little-endian host. *)
Definition le4 (c0 c1 c2 c3 : Z) : Z := Z.lor c0 (Z.lor (Z.shiftl c1 8) (Z.lor (Z.shiftl c2 16) (Z.shiftl c3 24))).

(** The union of 64 characters and 16 words. *)
Definition load_word (buffer : list Z) (i : nat) : Z :=
  let c k := buffer !!! (4 * i + k)%nat in
  le4 (c 0%nat) (c 1%nat) (c 2%nat) (c 3%nat).
Definition load_block (buffer : list Z) : list Z := load_word buffer <$> seq 0 16.

Definition blk0 (i : nat) (block : list Z) : Z * list Z :=
  let l := block !!! i in
  let x := Z.lor (Z.land (rol l 24) 4278255360) (Z.land (rol l 8) 16711935) in
  (x, <[i := x]> block).
Definition blk (i : nat) (block : list Z) : Z * list Z :=
  let l k := block !!! Nat.land k 15 in
  let x := rol (Z.lxor (Z.lxor (Z.lxor (l (i + 13)%nat) (l (i + 8)%nat)) (l (i + 2)%nat)) (l i)) 1 in
  (x, <[Nat.land i 15 := x]> block).

(** The macros [R0] to [R4]; [v], [w], [x], [y] and [z] are variables, numbered
    from [a] = 0 to [e] = 4. *)
Definition round (f : Z -> Z -> Z -> Z) (K : Z) (expand : nat -> list Z -> Z * list Z) (v w x y z i : nat)
    (s : list Z * list Z) : list Z * list Z :=
  let '(vars, block) := s in
  let '(b, block) := expand i block in
  let vars := <[z := u32 (vars !!! z + (f (vars !!! w) (vars !!! x) (vars !!! y) + b + K + rol (vars !!! v) 5))]> vars in
  (<[w := rol (vars !!! w) 30]> vars, block).

Definition R0 := round (fun w x y => Z.lxor (Z.land w (Z.lxor x y)) y) 1518500249 blk0.
Definition R1 := round (fun w x y => Z.lxor (Z.land w (Z.lxor x y)) y) 1518500249 blk.
Definition R2 := round (fun w x y => Z.lxor (Z.lxor w x) y) 1859775393 blk.
Definition R3 := round (fun w x y => Z.lor (Z.land (Z.lor w x) y) (Z.land w x)) 2400959708 blk.
Definition R4 := round (fun w x y => Z.lxor (Z.lxor w x) y) 3395469782 blk.

(** The macro of call [i]. *)
Definition R_at (i : nat) : nat -> nat -> nat -> nat -> nat -> nat -> list Z * list Z -> list Z * list Z :=
  if (i <? 16)%nat then R0 else if (i <? 20)%nat then R1 else if (i <? 40)%nat then R2
  else if (i <? 60)%nat then R3 else R4.

(** Five calls in a row. *)
Definition five (s : list Z * list Z) (i : nat) : list Z * list Z :=
  let '(a, b, c, d, e) := (0, 1, 2, 3, 4)%nat in
  let s := R_at i a b c d e i s in
  let s := R_at (i + 1) e a b c d (i + 1)%nat s in
  let s := R_at (i + 2) d e a b c (i + 2)%nat s in
  let s := R_at (i + 3) c d e a b (i + 3)%nat s in
  R_at (i + 4) b c d e a (i + 4)%nat s.

Definition SHA1Transform (state buffer : list Z) : list Z :=
  let '(vars, _) := foldl five (state, load_block buffer) ((fun g => 5 * g)%nat <$> seq 0 16) in
  zip_with (fun x y => u32 (x + y)) state vars.

(** ** Messages *)

Record SHA1_CTX := mk_ctx {
  state : list Z;
  count0 : Z;
  count1 : Z;
  buffer : list Z
}.

Definition H0 : list Z := [1732584193; 4023233417; 2562383102; 271733878; 3285377520].

(** The buffer is not initialised. *)
Definition SHA1Init (buffer : list Z) : SHA1_CTX := mk_ctx H0 0 0 buffer.

(** The [n] bytes of an array from index [i] on, and a [memcpy] of [d] to it. *)
Definition bytes_at (data : list Z) (i n : Z) : E (list Z) :=
  if (0 <=? i) && (0 <=? n) && (i + n <=? Z.of_nat (length data)) then Val (take (Z.to_nat n) (drop (Z.to_nat i) data))
  else Fail HUndef.
Definition memcpy_to (j : Z) (d buf : list Z) : E (list Z) :=
  if (0 <=? j) && (j + Z.of_nat (length d) <=? Z.of_nat (length buf))
  then Val (take (Z.to_nat j) buf ++ d ++ drop (Z.to_nat j + length d) buf)
  else Fail HUndef.

Fixpoint update_loop (fuel : nat) (state data : list Z) (len i : Z) : E (list Z * Z) :=
  match fuel with
  | O => Fail HUndef
  | S fuel' =>
      if u32 (i + 63) <? len then
        d <-? bytes_at data i 64 ;;
        update_loop fuel' (SHA1Transform state d) data len (u32 (i + 64))
      else Val (state, i)
  end.

Definition SHA1Update (context : SHA1_CTX) (data : list Z) (len : Z) : E SHA1_CTX :=
  let j := count0 context in
  let c0 := u32 (j + u32 (Z.shiftl len 3)) in
  let c1 := if c0 <? j then u32 (count1 context + 1) else count1 context in
  let c1 := u32 (c1 + Z.shiftr len 29) in
  let j := Z.land (Z.shiftr j 3) 63 in
  r <-? (if u32 (j + len) >? 63 then
           let i := 64 - j in
           d <-? bytes_at data 0 i ;;
           buf <-? memcpy_to j d (buffer context) ;;
           r <-? update_loop (S (length data)) (SHA1Transform (state context) buf) data len i ;;
           Val (fst r, buf, snd r, 0)
         else Val (state context, buffer context, 0, j)) ;;
  let '(st, buf, i, j) := r in
  d <-? bytes_at data i (u32 (len - i)) ;;
  buf <-? memcpy_to j d buf ;;
  Val (mk_ctx st c0 c1 buf).

(** Zeroes up to the last eight bytes of a block. *)
Fixpoint pad_loop (fuel : nat) (context : SHA1_CTX) : E SHA1_CTX :=
  match fuel with
  | O => Fail HUndef
  | S fuel' =>
      if negb (Z.land (count0 context) 504 =? 448) then
        context <-? SHA1Update context [0] 1 ;;
        pad_loop fuel' context
      else Val context
  end.

(** Byte [i] of a word, the highest first. *)
Definition byte_of (w : Z) (i : nat) : Z := Z.land (Z.shiftr w ((3 - Z.of_nat (Nat.land i 3)) * 8)) 255.
Definition finalcount (context : SHA1_CTX) : list Z :=
  (fun i => byte_of (if (4 <=? i)%nat then count0 context else count1 context) i) <$> seq 0 8.

Definition SHA1Final (context : SHA1_CTX) : E (list Z) :=
  let fc := finalcount context in
  context <-? SHA1Update context [128] 1 ;;
  context <-? pad_loop 64 context ;;
  context <-? SHA1Update context fc 8 ;;
  Val ((fun i => byte_of (state context !!! (Nat.shiftr i 2)) i) <$> seq 0 20).

(** ** Files *)

(** [sprintf] of a byte with the format [%02x]. *)
Definition hex_char (d : Z) : Z := if d <? 10 then 48 + d else 87 + d.
Definition hex_byte (b : Z) : list Z := [hex_char (b / 16); hex_char (b mod 16)].

(** The rest of the file is what [fread] has not read yet. *)
Fixpoint hash_loop (fuel : nat) (rest : list Z) (total_bytes : Z) (ctx : SHA1_CTX) : E (Z * SHA1_CTX) :=
  match fuel with
  | O => Fail HUndef
  | S fuel' =>
      let res := Z.min (Z.min SKI_HASH_BUFFER_SIZE (SKI_HASH_READ_MAX - total_bytes)) (Z.of_nat (length rest)) in
      if res <=? 0 then Val (total_bytes, ctx)
      else
        ctx <-? SHA1Update ctx (take (Z.to_nat res) rest) res ;;
        hash_loop fuel' (drop (Z.to_nat res) rest) (total_bytes + res) ctx
  end.

(** The number of bytes and the text of the digest; [None] is a file that does not
    open (or no name). *)
Definition ski_sha_file (uninit : list Z) (file : option (list Z)) : E (Z * list Z) :=
  match file with
  | None => Val (0, [])
  | Some content =>
      r <-? hash_loop (S (length content)) content 0 (SHA1Init uninit) ;;
      hash <-? SHA1Final (snd r) ;;
      Val (fst r, hash ≫= hex_byte)
  end.

(** Name, digest and size of the kernel, and of the disk, as the globals hold them
    afterwards; [files] opens a file. *)
Definition ski_hash_kernel (files : list Z -> option (list Z)) (uninit : list Z) (kernel_filename : option (list Z)) :
    E (list Z * list Z * Z) :=
  match kernel_filename with
  | None => Val ([], [], -1)
  | Some name =>
      if Z.of_nat (length name) <? 1024 then
        r <-? ski_sha_file uninit (files name) ;; Val (name, snd r, fst r)
      else Fail HUndef
  end.
Definition ski_hash_disk := ski_hash_kernel.

(** ** The reference *)

(** Words of a block, the first byte the highest. *)
Definition be_word (b : list Z) (i : nat) : Z :=
  let c k := b !!! (4 * i + k)%nat in
  Z.lor (Z.shiftl (c 0%nat) 24) (Z.lor (Z.shiftl (c 1%nat) 16) (Z.lor (Z.shiftl (c 2%nat) 8) (c 3%nat))).

Definition extend (W : list Z) : list Z :=
  let n := length W in
  W ++ [rol (Z.lxor (Z.lxor (Z.lxor (W !!! (n - 3)%nat) (W !!! (n - 8)%nat)) (W !!! (n - 14)%nat)) (W !!! (n - 16)%nat)) 1].
Definition schedule (b : list Z) : list Z := Nat.iter 64 extend (be_word b <$> seq 0 16).

Definition fips_f (t : nat) (B C D : Z) : Z :=
  if (t <? 20)%nat then Z.lor (Z.land B C) (Z.ldiff D B)
  else if (t <? 40)%nat then Z.lxor (Z.lxor B C) D
  else if (t <? 60)%nat then Z.lor (Z.lor (Z.land B C) (Z.land B D)) (Z.land C D)
  else Z.lxor (Z.lxor B C) D.
Definition fips_K (t : nat) : Z :=
  if (t <? 20)%nat then 1518500249 else if (t <? 40)%nat then 1859775393
  else if (t <? 60)%nat then 2400959708 else 3395469782.

Definition fips_step (W : list Z) (h : Z * Z * Z * Z * Z) (t : nat) : Z * Z * Z * Z * Z :=
  let '(A, B, C, D, E) := h in
  (u32 (rol A 5 + fips_f t B C D + E + W !!! t + fips_K t), A, rol B 30, C, D).
Definition five_words (h : Z * Z * Z * Z * Z) : list Z := let '(A, B, C, D, E) := h in [A; B; C; D; E].

(** One block. *)
Definition compress (H b : list Z) : list Z :=
  zip_with (fun x y => u32 (x + y)) H
    (five_words (foldl (fips_step (schedule b)) (H !!! 0%nat, H !!! 1%nat, H !!! 2%nat, H !!! 3%nat, H !!! 4%nat) (seq 0 80))).

(** The first [n] blocks of a message. *)
Fixpoint absorb (n : nat) (H m : list Z) : list Z :=
  match n with
  | O => H
  | S n' => absorb n' (compress H (take 64 m)) (drop 64 m)
  end.

(** Numbers, the highest byte first. *)
Fixpoint be_bytes (n : nat) (v : Z) : list Z :=
  match n with O => [] | S n' => be_bytes n' (v / 256) ++ [v mod 256] end.

Definition pad (m : list Z) : list Z :=
  m ++ [128] ++ replicate (Z.to_nat ((55 - Z.of_nat (length m)) mod 64)) 0 ++ be_bytes 8 (8 * Z.of_nat (length m)).
Definition sha1 (m : list Z) : list Z := absorb (length (pad m) / 64) H0 (pad m) ≫= be_bytes 4.

(** The test vectors of the standard. *)
Example sha1_abc : be_bytes 20 0xA9993E364706816ABA3E25717850C26C9CD0D89D = sha1 [97; 98; 99].
Proof. vm_compute. reflexivity. Qed.
Example sha1_two_blocks :
  be_bytes 20 0x84983E441C3BD26EBAAE4AA1F95129E5E54670F1 = sha1 (concat ((fun x => seqZ x 4) <$> seqZ 97 14)).
Proof. vm_compute. reflexivity. Qed.

(** ** A block is compressed as in the standard *)

Definition is_byte (x : Z) : Prop := 0 <= x < 256.
#[export] Instance is_byte_dec x : Decision (is_byte x).
Proof. unfold is_byte. apply _. Defined.

Lemma testbit_small x k n : 0 <= x < 2 ^ k -> k <= n -> 0 <= k -> Z.testbit x n = false.
Proof.
  intros Hx Hn Hk. destruct (decide (x = 0)) as [->|]; [apply Z.testbit_0_l|].
  apply Z.bits_above_log2; [lia|]. apply Z.lt_le_trans with k; [|lia]. apply Z.log2_lt_pow2; lia.
Qed.

Lemma u32_testbit x n : 0 <= n -> Z.testbit (u32 x) n = (n <? 32) && Z.testbit x n.
Proof.
  intros Hn. unfold u32. destruct (Z.ltb_spec n 32).
  - by rewrite Z.mod_pow2_bits_low.
  - by rewrite Z.mod_pow2_bits_high by lia.
Qed.

Lemma rol_testbit x k n :
  0 <= x < 2 ^ 32 -> 0 < k < 32 -> 0 <= n < 32 ->
  Z.testbit (rol x k) n = Z.testbit x (if n <? k then n + (32 - k) else n - k).
Proof.
  intros Hx Hk Hn. unfold rol. rewrite Z.lor_spec, u32_testbit, Z.shiftl_spec, Z.shiftr_spec by lia.
  rewrite (proj2 (Z.ltb_lt n 32)) by lia. cbn [andb]. destruct (Z.ltb_spec n k).
  - by rewrite (Z.testbit_neg_r x (n - k)) by lia.
  - rewrite (testbit_small x 32 (n + (32 - k))) by lia. by rewrite orb_false_r.
Qed.

Lemma le4_testbit c0 c1 c2 c3 n :
  is_byte c0 -> is_byte c1 -> is_byte c2 -> is_byte c3 -> 0 <= n ->
  Z.testbit (le4 c0 c1 c2 c3) n =
  if n <? 8 then Z.testbit c0 n else if n <? 16 then Z.testbit c1 (n - 8)
  else if n <? 24 then Z.testbit c2 (n - 16) else if n <? 32 then Z.testbit c3 (n - 24) else false.
Proof.
  intros B0 B1 B2 B3 Hn. unfold le4, is_byte in *. rewrite !Z.lor_spec, !Z.shiftl_spec by lia.
  assert (forall c k, 0 <= c < 256 -> n < k \/ k + 8 <= n -> Z.testbit c (n - k) = false) as Hout.
  { intros c k Hc [?|?]; [by apply Z.testbit_neg_r; lia|]. apply (testbit_small c 8); lia. }
  assert (8 <= n -> Z.testbit c0 n = false) as H0' by (intros ?; apply (testbit_small c0 8); lia).
  destruct (Z.ltb_spec n 8); [|rewrite H0' by lia; destruct (Z.ltb_spec n 16); [|destruct (Z.ltb_spec n 24); [|destruct (Z.ltb_spec n 32)]]];
    rewrite ?(Hout c1 8), ?(Hout c2 16), ?(Hout c3 24) by lia; by rewrite ?orb_false_r.
Qed.

Lemma le4_range c0 c1 c2 c3 : is_byte c0 -> is_byte c1 -> is_byte c2 -> is_byte c3 -> 0 <= le4 c0 c1 c2 c3 < 2 ^ 32.
Proof.
  intros B0 B1 B2 B3. replace (le4 c0 c1 c2 c3) with (u32 (le4 c0 c1 c2 c3)); [apply Z.mod_pos_bound; lia|].
  apply Z.bits_inj'. intros n Hn. rewrite u32_testbit, le4_testbit by done.
  destruct (Z.ltb_spec n 32); [done|]. cbn [andb].
  by rewrite (proj2 (Z.ltb_ge n 8)), (proj2 (Z.ltb_ge n 16)), (proj2 (Z.ltb_ge n 24)) by lia.
Qed.

(** The exchange of bytes of [blk0]. *)
Lemma swap_bytes c0 c1 c2 c3 :
  is_byte c0 -> is_byte c1 -> is_byte c2 -> is_byte c3 ->
  let l := le4 c0 c1 c2 c3 in
  Z.lor (Z.land (rol l 24) 4278255360) (Z.land (rol l 8) 16711935) = le4 c3 c2 c1 c0.
Proof.
  intros B0 B1 B2 B3 l. pose proof (le4_range c0 c1 c2 c3 B0 B1 B2 B3) as Hl. apply Z.bits_inj'. intros n Hn.
  rewrite le4_testbit by done. rewrite Z.lor_spec, !Z.land_spec. destruct (decide (n < 32)) as [Hlt|].
  - rewrite !rol_testbit by (done || lia).
    assert (forall P : Z -> Prop, Forall P (seqZ 0 32) -> P n) as Hall.
    { intros P HP. eapply Forall_forall in HP; [exact HP|]. apply elem_of_seqZ. lia. }
    pattern n. apply Hall. clear n Hn Hlt Hall.
    vm_compute seqZ. repeat (apply Forall_cons; split; [unfold l; rewrite !le4_testbit by (done || (cbn; lia)); cbn; by rewrite ?andb_true_r, ?andb_false_r, ?orb_false_r|]).
    done.
  - rewrite (testbit_small 4278255360 32), (testbit_small 16711935 32) by lia. rewrite !andb_false_r.
    by rewrite (proj2 (Z.ltb_ge n 8)), (proj2 (Z.ltb_ge n 16)), (proj2 (Z.ltb_ge n 24)), (proj2 (Z.ltb_ge n 32)) by lia.
Qed.

(** *** The expansion *)

Lemma iter_S {A} n (f : A -> A) x : Nat.iter (S n) f x = f (Nat.iter n f x).
Proof. done. Qed.

Lemma iter_extend_length n l : length (Nat.iter n extend l) = (n + length l)%nat.
Proof. induction n as [|n IH]; [done|]. rewrite iter_S. unfold extend at 1. rewrite length_app, IH. cbn. lia. Qed.

Lemma iter_extend_stable n k l t :
  (t < k + length l)%nat -> (k <= n)%nat -> Nat.iter n extend l !!! t = Nat.iter k extend l !!! t.
Proof.
  intros Ht Hkn. induction n as [|n IH]; [by assert (k = 0)%nat as -> by lia|].
  destruct (decide (k = S n)) as [->|]; [done|]. rewrite iter_S. unfold extend at 1.
  rewrite lookup_total_app_l by (rewrite iter_extend_length; lia). apply IH. lia.
Qed.

Lemma schedule_low b t : (t < 16)%nat -> schedule b !!! t = be_word b t.
Proof.
  intros Ht. unfold schedule. rewrite (iter_extend_stable 64 0) by (rewrite ?length_fmap, ?length_seq; lia). cbn [Nat.iter nat_rect].
  apply list_lookup_total_correct. by rewrite list_lookup_fmap, lookup_seq_lt by lia.
Qed.

Lemma schedule_high b t :
  (16 <= t < 80)%nat ->
  schedule b !!! t = rol (Z.lxor (Z.lxor (Z.lxor (schedule b !!! (t - 3)%nat) (schedule b !!! (t - 8)%nat))
    (schedule b !!! (t - 14)%nat)) (schedule b !!! (t - 16)%nat)) 1.
Proof.
  intros Ht. unfold schedule. set (l := be_word b <$> seq 0 16).
  assert (length l = 16%nat) as Hl by (unfold l; by rewrite length_fmap, length_seq).
  rewrite (iter_extend_stable 64 (S (t - 16)) l t) by lia. rewrite iter_S. unfold extend at 1.
  assert (length (Nat.iter (t - 16) extend l) = t) as Hlen by (rewrite iter_extend_length; lia).
  rewrite lookup_total_app_r, Hlen, Nat.sub_diag by lia.
  rewrite !(iter_extend_stable 64 (t - 16) l) by lia. by generalize (Nat.iter (t - 16) extend l).
Qed.

(** Before call [i] the 16 words are the last 16 of the schedule, or still those of
    the block. *)
Record block_ok (b : list Z) (i : nat) (block : list Z) : Prop := {
  bo_length : length block = 16%nat;
  bo_done t : (t < i <= t + 16)%nat -> block !!! (t mod 16)%nat = schedule b !!! t;
  bo_raw t : (i <= t < 16)%nat -> block !!! t = load_word b t
}.

Lemma block_ok_next b i block :
  block_ok b i block -> block_ok b (S i) (<[(i mod 16)%nat := schedule b !!! i]> block).
Proof.
  intros [Hl Hd Hr]. pose proof (Nat.mod_upper_bound i 16). split; [by rewrite length_insert| |].
  - intros t Ht. destruct (decide (t = i)) as [->|]; [by rewrite list_lookup_total_insert_eq by lia|].
    rewrite list_lookup_total_insert_ne; [apply Hd; lia|]. intros E.
    pose proof (Nat.div_mod t 16 ltac:(lia)). pose proof (Nat.div_mod i 16 ltac:(lia)). lia.
  - intros t Ht. rewrite list_lookup_total_insert_ne; [apply Hr; lia|]. rewrite Nat.mod_small; lia.
Qed.

Lemma land_15 i : Nat.land i 15 = (i mod 16)%nat.
Proof. change 15%nat with (Nat.ones 4). by rewrite Nat.land_ones. Qed.

Definition bytes64 (b : list Z) : Prop := length b = 64%nat /\ Forall is_byte b.

Lemma byte_lookup b k : bytes64 b -> (k < 64)%nat -> is_byte (b !!! k).
Proof. intros [Hl Hb] Hk. apply (Forall_lookup_total_1 _ _ _ Hb). lia. Qed.

Lemma blk0_ok b i block : bytes64 b -> block_ok b i block -> (i < 16)%nat ->
  blk0 i block = (schedule b !!! i, <[(i mod 16)%nat := schedule b !!! i]> block).
Proof.
  intros Hb Hok Hi. unfold blk0. rewrite (bo_raw _ _ _ Hok) by lia. unfold load_word.
  rewrite swap_bytes by (apply byte_lookup; [done|lia]). rewrite Nat.mod_small by lia.
  assert (le4 (b !!! (4 * i + 3)%nat) (b !!! (4 * i + 2)%nat) (b !!! (4 * i + 1)%nat) (b !!! (4 * i + 0)%nat) = schedule b !!! i) as ->; [|done].
  rewrite schedule_low by lia. unfold be_word, le4. apply Z.bits_inj'. intros n Hn. rewrite !Z.lor_spec. btauto.
Qed.

Lemma blk_ok b i block : block_ok b i block -> (16 <= i < 80)%nat ->
  blk i block = (schedule b !!! i, <[(i mod 16)%nat := schedule b !!! i]> block).
Proof.
  intros Hok Hi. unfold blk. rewrite !land_15.
  assert (forall k, (k <= 13)%nat -> block !!! ((i + k) mod 16)%nat = schedule b !!! (i + k - 16)%nat) as Hk.
  { intros k Hk. rewrite <- (bo_done _ _ _ Hok (i + k - 16)%nat) by lia.
    f_equal. replace (i + k)%nat with (i + k - 16 + 1 * 16)%nat at 1 by lia. by rewrite Nat.Div0.mod_add. }
  pose proof (Hk 0%nat ltac:(lia)) as H0'. rewrite Nat.add_0_r in H0'. rewrite !Hk, H0' by lia.
  replace (i + 13 - 16)%nat with (i - 3)%nat by lia. replace (i + 8 - 16)%nat with (i - 8)%nat by lia.
  replace (i + 2 - 16)%nat with (i - 14)%nat by lia. rewrite <- schedule_high by lia. done.
Qed.

(** *** The rounds *)

Lemma choose_eq w x y : Z.lxor (Z.land w (Z.lxor x y)) y = Z.lor (Z.land w x) (Z.ldiff y w).
Proof.
  apply Z.bits_inj'. intros n Hn. rewrite Z.lxor_spec, Z.land_spec, Z.lxor_spec, Z.lor_spec, Z.land_spec, Z.ldiff_spec. btauto.
Qed.

Lemma majority_eq w x y : Z.lor (Z.land (Z.lor w x) y) (Z.land w x) = Z.lor (Z.lor (Z.land w x) (Z.land w y)) (Z.land x y).
Proof. apply Z.bits_inj'. intros n Hn. repeat rewrite ?Z.lor_spec, ?Z.land_spec. btauto. Qed.

(** What a call does to the variables. *)
Definition mixed (b : list Z) (i : nat) (v w x y z : Z) : Z :=
  u32 (z + (fips_f i w x y + schedule b !!! i + fips_K i + rol v 5)).
Definition round_vars (b : list Z) (i v w x y z : nat) (vars : list Z) : list Z :=
  let vars := <[z := mixed b i (vars !!! v) (vars !!! w) (vars !!! x) (vars !!! y) (vars !!! z)]> vars in
  <[w := rol (vars !!! w) 30]> vars.

Lemma fips_step_eq b i A B C D E : fips_step (schedule b) (A, B, C, D, E) i = (mixed b i A B C D E, A, rol B 30, C, D).
Proof. unfold fips_step, mixed. do 4 f_equal. f_equal. lia. Qed.

Lemma round_ok b i block v w x y z vars :
  bytes64 b -> block_ok b i block -> (i < 80)%nat ->
  R_at i v w x y z i (vars, block) = (round_vars b i v w x y z vars, <[(i mod 16)%nat := schedule b !!! i]> block).
Proof.
  intros Hb Hok Hi. unfold R_at, round_vars, mixed, fips_f, fips_K.
  destruct (Nat.ltb_spec i 16).
  { rewrite (proj2 (Nat.ltb_lt i 20)) by lia. unfold R0, round. rewrite (blk0_ok b) by done. by rewrite choose_eq. }
  destruct (Nat.ltb_spec i 20); [unfold R1, round; rewrite (blk_ok b) by done; by rewrite choose_eq|].
  destruct (Nat.ltb_spec i 40); [unfold R2, round; by rewrite (blk_ok b) by done|].
  destruct (Nat.ltb_spec i 60); [unfold R3, round; rewrite (blk_ok b) by done; by rewrite majority_eq|].
  unfold R4, round. by rewrite (blk_ok b) by done.
Qed.

(** Five calls are five steps of the standard; the variables are back in their
    roles. *)
Lemma five_ok b i block h :
  bytes64 b -> block_ok b i block -> (i + 5 <= 80)%nat ->
  exists block', block_ok b (i + 5) block' /\
    five (five_words h, block) i = (five_words (foldl (fips_step (schedule b)) h (seq i 5)), block').
Proof.
  intros Hb H1 Hi. destruct h as [[[[A B] C] D] E].
  pose proof (block_ok_next _ _ _ H1) as H2. pose proof (block_ok_next _ _ _ H2) as H3.
  pose proof (block_ok_next _ _ _ H3) as H4. pose proof (block_ok_next _ _ _ H4) as H5.
  pose proof (block_ok_next _ _ _ H5) as H6.
  eexists. split; [replace (i + 5)%nat with (S (S (S (S (S i))))) by lia; exact H6|].
  unfold five. replace (i + 1)%nat with (S i) by lia. replace (i + 2)%nat with (S (S i)) by lia.
  replace (i + 3)%nat with (S (S (S i))) by lia. replace (i + 4)%nat with (S (S (S (S i)))) by lia.
  rewrite (round_ok b i) by (done || lia). rewrite (round_ok b (S i)) by (done || lia).
  rewrite (round_ok b (S (S i))) by (done || lia). rewrite (round_ok b (S (S (S i)))) by (done || lia).
  rewrite (round_ok b (S (S (S (S i))))) by (done || lia). f_equal.
  cbn [seq foldl]. rewrite !fips_step_eq. by unfold five_words.
Qed.

Lemma seq_five g : seq 0 (5 * S g) = seq 0 (5 * g) ++ seq (5 * g) 5.
Proof. rewrite <- seq_app. f_equal. lia. Qed.

Lemma transform_loop b h n :
  bytes64 b -> (n <= 16)%nat ->
  exists block, block_ok b (5 * n) block /\
    foldl five (five_words h, load_block b) ((fun g => 5 * g)%nat <$> seq 0 n) =
    (five_words (foldl (fips_step (schedule b)) h (seq 0 (5 * n))), block).
Proof.
  intros Hb. induction n as [|n IH]; intros Hn.
  - exists (load_block b). split; [|done]. split; [done|lia|]. intros t Ht. apply list_lookup_total_correct.
    unfold load_block. by rewrite list_lookup_fmap, lookup_seq_lt by lia.
  - destruct IH as (block&Hok&E); [lia|].
    destruct (five_ok b (5 * n) block (foldl (fips_step (schedule b)) h (seq 0 (5 * n))) Hb Hok) as (block'&Hok'&E'); [lia|].
    exists block'. split; [by replace (5 * S n)%nat with (5 * n + 5)%nat by lia|].
    rewrite seq_S, fmap_app, foldl_app, E, seq_five, foldl_app. exact E'.
Qed.

Lemma transform_eq h b : bytes64 b -> SHA1Transform (five_words h) b = compress (five_words h) b.
Proof.
  intros Hb. destruct (transform_loop b h 16 Hb) as (block&_&E); [lia|]. unfold SHA1Transform. rewrite E.
  unfold compress. change (5 * 16)%nat with 80%nat.
  assert ((five_words h !!! 0%nat, five_words h !!! 1%nat, five_words h !!! 2%nat, five_words h !!! 3%nat, five_words h !!! 4%nat) = h)
    as -> by (by destruct h as [[[[A B] C] D] F]).
  reflexivity.
Qed.

Lemma transform_state H b :
  length H = 5%nat -> bytes64 b -> SHA1Transform H b = compress H b /\ length (compress H b) = 5%nat.
Proof.
  intros HH Hb. destruct H as [|A [|B [|C [|D [|F [|? ?]]]]]]; try done.
  split; [exact (transform_eq (A, B, C, D, F) b Hb)|]. unfold compress. rewrite length_zip_with.
  by destruct (foldl _ _ _) as [[[[? ?] ?] ?] ?].
Qed.

(** ** Pieces of a message *)

Lemma absorb_add n1 n2 H m : absorb (n1 + n2) H m = absorb n2 (absorb n1 H m) (drop (64 * n1) m).
Proof.
  revert H m. induction n1 as [|n1 IH]; intros H m; [done|]. cbn [absorb Nat.add]. rewrite IH, drop_drop.
  do 2 f_equal. lia.
Qed.

Lemma absorb_S n H m : absorb (S n) H m = compress (absorb n H m) (take 64 (drop (64 * n) m)).
Proof. replace (S n) with (n + 1)%nat by lia. by rewrite absorb_add. Qed.

Lemma absorb_app n H m x : (64 * n <= length m)%nat -> absorb n H (m ++ x) = absorb n H m.
Proof.
  revert H m. induction n as [|n IH]; intros H m Hn; [done|]. cbn [absorb].
  rewrite take_app_le, drop_app_le by lia. apply IH. rewrite length_drop. lia.
Qed.

Definition bytes (m : list Z) : Prop := Forall is_byte m.

Lemma full_block n m : bytes m -> (64 * n + 64 <= length m)%nat -> bytes64 (take 64 (drop (64 * n) m)).
Proof. intros Hm Hn. split; [rewrite length_take, length_drop; lia|]. by apply Forall_take, Forall_drop. Qed.

Lemma absorb_length n H m : length H = 5%nat -> bytes m -> (64 * n <= length m)%nat -> length (absorb n H m) = 5%nat.
Proof.
  intros HH Hm. induction n as [|n IH]; intros Hn; [done|]. rewrite absorb_S.
  apply transform_state; [apply IH; lia|apply full_block; [done|lia]].
Qed.

(** The next full block. *)
Lemma transform_absorb n m :
  bytes m -> (64 * n + 64 <= length m)%nat ->
  SHA1Transform (absorb n H0 m) (take 64 (drop (64 * n) m)) = absorb (S n) H0 m.
Proof.
  intros Hm Hn. rewrite absorb_S. apply transform_state; [by apply absorb_length; [| |lia]|by apply full_block].
Qed.

Lemma bytes_at_Val data (i n : nat) :
  (i + n <= length data)%nat -> bytes_at data (Z.of_nat i) (Z.of_nat n) = Val (take n (drop i data)).
Proof.
  intros H. unfold bytes_at. rewrite (proj2 (Z.leb_le 0 (Z.of_nat i))), (proj2 (Z.leb_le 0 (Z.of_nat n))) by lia.
  rewrite (proj2 (Z.leb_le (Z.of_nat i + Z.of_nat n) _)) by lia. by rewrite !Nat2Z.id.
Qed.

Lemma memcpy_to_Val (j : nat) d buf :
  (j + length d <= length buf)%nat -> memcpy_to (Z.of_nat j) d buf = Val (take j buf ++ d ++ drop (j + length d) buf).
Proof.
  intros H. unfold memcpy_to. rewrite (proj2 (Z.leb_le 0 (Z.of_nat j))), (proj2 (Z.leb_le (Z.of_nat j + _) _)) by lia.
  by rewrite Nat2Z.id.
Qed.

(** The loop over the full blocks of the data, in the message [m ++ data]. *)
Lemma update_loop_ok m data fuel k i :
  bytes (m ++ data) -> (length m + i = 64 * k)%nat -> (i <= length data)%nat -> Z.of_nat (length data) < 2 ^ 31 ->
  (length data - i < fuel)%nat ->
  exists i' k', update_loop fuel (absorb k H0 (m ++ data)) data (Z.of_nat (length data)) (Z.of_nat i) =
      Val (absorb k' H0 (m ++ data), Z.of_nat i') /\
    (length m + i' = 64 * k')%nat /\ (i' <= length data < i' + 64)%nat.
Proof.
  intros Hb. revert k i. induction fuel as [|fuel IH]; intros k i Hk Hi Hlen Hf; [lia|]. cbn [update_loop].
  unfold u32. rewrite !Z.mod_small by lia. destruct (Z.ltb_spec (Z.of_nat i + 63) (Z.of_nat (length data))) as [Hlt|Hge].
  - change 64 with (Z.of_nat 64) at 1. rewrite bytes_at_Val by lia. cbn [ebind].
    replace (take 64 (drop i data)) with (take 64 (drop (64 * k) (m ++ data))).
    2:{ rewrite <- Hk. by rewrite drop_app_add'. }
    rewrite transform_absorb by (done || (rewrite length_app; lia)).
    replace (Z.of_nat i + 64) with (Z.of_nat (i + 64)) by lia. apply IH; lia.
  - exists i, k. split; [done|]. lia.
Qed.

(** The context after the message [m]. *)
Record ctx_ok (m : list Z) (c : SHA1_CTX) : Prop := {
  co_bytes : bytes m;
  co_length : Z.of_nat (length m) < 2 ^ 60;
  co_state : state c = absorb (length m / 64) H0 m;
  co_room : length (buffer c) = 64%nat;
  co_buffer : take (length m mod 64) (buffer c) = drop (64 * (length m / 64)) m;
  co_count0 : count0 c = (8 * Z.of_nat (length m)) mod 2 ^ 32;
  co_count1 : count1 c = 8 * Z.of_nat (length m) / 2 ^ 32
}.

Lemma ctx_init_ok buf : length buf = 64%nat -> ctx_ok [] (SHA1Init buf).
Proof. intros H. split; try done. constructor. Qed.

(** The number of bits, in two words. *)
Lemma count_add n len :
  0 <= n -> 0 <= len < 2 ^ 32 -> n + len < 2 ^ 60 ->
  let j := (8 * n) mod 2 ^ 32 in
  let c0 := u32 (j + u32 (Z.shiftl len 3)) in
  c0 = (8 * (n + len)) mod 2 ^ 32 /\
  u32 ((if c0 <? j then u32 (8 * n / 2 ^ 32 + 1) else 8 * n / 2 ^ 32) + Z.shiftr len 29) = 8 * (n + len) / 2 ^ 32.
Proof.
  intros Hn Hlen Hs j c0. assert (c0 = (8 * (n + len)) mod 2 ^ 32) as E0.
  { unfold c0, j, u32. rewrite Z.shiftl_mul_pow2 by lia. rewrite <- Z.add_mod by lia. f_equal. lia. }
  split; [exact E0|]. rewrite Z.shiftr_div_pow2 by lia.
  pose proof (Z.div_mod (8 * n) (2 ^ 32) ltac:(lia)) as Dn. pose proof (Z.mod_pos_bound (8 * n) (2 ^ 32) ltac:(lia)) as Mn.
  pose proof (Z.div_mod (8 * (n + len)) (2 ^ 32) ltac:(lia)) as Ds. pose proof (Z.mod_pos_bound (8 * (n + len)) (2 ^ 32) ltac:(lia)) as Ms.
  pose proof (Z.div_mod len (2 ^ 29) ltac:(lia)) as Dl. pose proof (Z.mod_pos_bound len (2 ^ 29) ltac:(lia)) as Ml.
  fold j in Dn, Mn. rewrite <- E0 in Ds, Ms.
  set (qn := 8 * n / 2 ^ 32) in *. set (qs := 8 * (n + len) / 2 ^ 32) in *. set (ql := len / 2 ^ 29) in *.
  assert (0 <= qn < 2 ^ 31) by lia. assert (0 <= ql < 8) by lia.
  unfold u32. destruct (Z.ltb_spec c0 j); rewrite ?(Z.mod_small (qn + 1)) by lia; rewrite Z.mod_small by lia; nia.
Qed.

Lemma offset_eq n : Z.land (Z.shiftr ((8 * Z.of_nat n) mod 2 ^ 32) 3) 63 = Z.of_nat (n mod 64).
Proof.
  change 63 with (Z.ones 6). rewrite Z.land_ones, Z.shiftr_div_pow2 by lia.
  pose proof (Nat2Z.inj_mod n 64) as ->. change (Z.of_nat 64) with 64. change (2 ^ 6) with 64. change (2 ^ 3) with 8.
  rewrite (Z.mul_comm 8). change (2 ^ 32) with (536870912 * 8). rewrite Z.mul_mod_distr_r, Z.div_mul by lia.
  change 536870912 with (64 * 8388608). rewrite Z.rem_mul_r by lia.
  rewrite Z.mul_comm, Z.mod_add by lia. by rewrite Z.mod_mod by lia.
Qed.

(** Data that does not fill the block. *)
Lemma update_small m data c :
  ctx_ok m c -> (length m mod 64 + length data < 64)%nat ->
  exists buf, memcpy_to (Z.of_nat (length m mod 64)) data (buffer c) = Val buf /\ length buf = 64%nat /\
    absorb (length m / 64) H0 m = absorb (length (m ++ data) / 64) H0 (m ++ data) /\
    take (length (m ++ data) mod 64) buf = drop (64 * (length (m ++ data) / 64)) (m ++ data).
Proof.
  intros [] Hr. set (r := (length m mod 64)%nat) in *. set (q := (length m / 64)%nat) in *.
  pose proof (Nat.div_mod (length m) 64 ltac:(lia)) as Hm. fold r q in Hm.
  assert (length (m ++ data) / 64 = q /\ length (m ++ data) mod 64 = r + length data)%nat as [-> ->].
  { rewrite length_app. split; [symmetry; apply (Nat.div_unique _ _ _ (r + length data)); lia|].
    symmetry. apply (Nat.mod_unique _ _ q); lia. }
  rewrite memcpy_to_Val by lia. eexists. split; [done|].
  split; [rewrite !length_app, length_take, length_drop; lia|]. split; [by rewrite absorb_app by lia|].
  rewrite drop_app_le, <- co_buffer0, app_assoc by lia. apply take_app_length'. rewrite length_app, length_take. lia.
Qed.

(** Data that fills it. *)
Lemma update_big m data c :
  ctx_ok m c -> bytes data -> Z.of_nat (length data) < 2 ^ 31 -> (64 <= length m mod 64 + length data)%nat ->
  exists buf i,
    memcpy_to (Z.of_nat (length m mod 64)) (take (64 - length m mod 64) data) (buffer c) = Val buf /\
    update_loop (S (length data)) (SHA1Transform (state c) buf) data (Z.of_nat (length data)) (Z.of_nat (64 - length m mod 64)) =
      Val (absorb (length (m ++ data) / 64) H0 (m ++ data), Z.of_nat i) /\
    length buf = 64%nat /\ (i <= length data)%nat /\ (length data - i = length (m ++ data) mod 64)%nat /\
    drop i data = drop (64 * (length (m ++ data) / 64)) (m ++ data).
Proof.
  intros [] Hd Hlen Hr. set (r := (length m mod 64)%nat) in *. set (q := (length m / 64)%nat) in *.
  pose proof (Nat.div_mod (length m) 64 ltac:(lia)) as Hm. pose proof (Nat.mod_upper_bound (length m) 64 ltac:(lia)) as Hr64.
  fold r q in Hm, Hr64. assert (bytes (m ++ data)) as Hb by (by apply Forall_app).
  assert (length (take (64 - r) data) = 64 - r)%nat as Ht by (rewrite length_take; lia).
  rewrite memcpy_to_Val by lia. rewrite Ht. rewrite (drop_ge (buffer c)), app_nil_r by lia. rewrite co_buffer0.
  set (buf := drop (64 * q) m ++ take (64 - r) data).
  assert (buf = take 64 (drop (64 * q) (m ++ data))) as Hbuf.
  { rewrite drop_app_le by lia. rewrite take_app_ge by (rewrite length_drop; lia). unfold buf. do 2 f_equal. rewrite length_drop. lia. }
  assert (SHA1Transform (state c) buf = absorb (S q) H0 (m ++ data)) as Htr.
  { rewrite Hbuf, co_state0, <- (absorb_app q H0 m data) by lia. apply transform_absorb; [done|]. rewrite length_app. lia. }
  destruct (update_loop_ok m data (S (length data)) (S q) (64 - r) Hb) as (i&k&E&Hi&Hi'); [lia..|].
  assert (length (m ++ data) / 64 = k /\ length (m ++ data) mod 64 = length data - i)%nat as [-> ->].
  { rewrite length_app. split; [symmetry; apply (Nat.div_unique _ _ _ (length data - i)); lia|].
    symmetry. apply (Nat.mod_unique _ _ k); lia. }
  exists buf, i. split; [done|]. rewrite Htr. split; [exact E|]. split; [rewrite Hbuf, length_take, length_drop, length_app; lia|].
  split; [lia|]. split; [done|]. by rewrite <- Hi, drop_app_add'.
Qed.

Lemma update_ok m data c :
  ctx_ok m c -> bytes data -> Z.of_nat (length data) < 2 ^ 31 -> Z.of_nat (length m + length data) < 2 ^ 60 ->
  exists c', SHA1Update c data (Z.of_nat (length data)) = Val c' /\ ctx_ok (m ++ data) c'.
Proof.
  intros Hc Hd Hlen Hs. unfold SHA1Update. rewrite (co_count0 _ _ Hc), (co_count1 _ _ Hc).
  destruct (count_add (Z.of_nat (length m)) (Z.of_nat (length data))) as [E0 E1]; [lia..|]. rewrite E1, E0. clear E0 E1.
  rewrite offset_eq. pose proof (Nat.mod_upper_bound (length m) 64 ltac:(lia)).
  unfold u32 at 1. rewrite Z.mod_small by lia. rewrite Z.gtb_ltb.
  assert (forall st buf, st = absorb (length (m ++ data) / 64) H0 (m ++ data) -> length buf = 64%nat ->
    take (length (m ++ data) mod 64) buf = drop (64 * (length (m ++ data) / 64)) (m ++ data) ->
    ctx_ok (m ++ data) (mk_ctx st ((8 * (Z.of_nat (length m) + Z.of_nat (length data))) mod 2 ^ 32)
      (8 * (Z.of_nat (length m) + Z.of_nat (length data)) / 2 ^ 32) buf)) as Hok.
  { intros st buf Hst Hbuf Ht. assert (Z.of_nat (length (m ++ data)) = Z.of_nat (length m) + Z.of_nat (length data)) as Hl by (rewrite length_app; lia).
    split; cbn; rewrite ?Hl; try done; [apply Forall_app; split; [apply Hc|done]|lia]. }
  destruct (Z.ltb_spec 63 (Z.of_nat (length m mod 64) + Z.of_nat (length data))) as [Hbig|Hsmall].
  - destruct (update_big m data c Hc Hd Hlen) as (buf&i&E1&E2&Hl&Hi&Hrest&Hdrop); [lia|].
    change 0 with (Z.of_nat 0) at 1. replace (64 - Z.of_nat (length m mod 64)) with (Z.of_nat (64 - length m mod 64)) by lia.
    rewrite bytes_at_Val by lia. cbn [ebind]. rewrite drop_0, E1. cbn [ebind]. rewrite E2. cbn [ebind fst snd].
    unfold u32. rewrite Z.mod_small by lia. replace (Z.of_nat (length data) - Z.of_nat i) with (Z.of_nat (length data - i)) by lia.
    rewrite bytes_at_Val by lia. cbn [ebind]. rewrite take_ge by (rewrite length_drop; lia).
    change 0 with (Z.of_nat 0). pose proof (Nat.mod_upper_bound (length (m ++ data)) 64 ltac:(lia)).
    rewrite memcpy_to_Val by (rewrite length_drop; lia). cbn [ebind]. rewrite take_0. eexists. split; [done|].
    apply Hok; [done|rewrite !length_app, !length_drop; cbn; lia|]. rewrite <- Hdrop. cbn [take app]. apply take_app_length'. rewrite length_drop. lia.
  - destruct (update_small m data c Hc) as (buf&E&Hl&Ha&Ht); [lia|]. cbn [ebind]. rewrite Z.sub_0_r.
    unfold u32. rewrite Z.mod_small by lia. change 0 with (Z.of_nat 0) at 1. rewrite bytes_at_Val by lia. cbn [ebind].
    rewrite drop_0, take_ge by lia. rewrite E. cbn [ebind]. eexists. split; [done|].
    apply Hok; [by rewrite (co_state _ _ Hc)|done|done].
Qed.

(** *** Padding *)

Lemma count_offset n : Z.land ((8 * Z.of_nat n) mod 2 ^ 32) 504 = 8 * Z.of_nat (n mod 64).
Proof.
  rewrite <- offset_eq. set (x := (8 * Z.of_nat n) mod 2 ^ 32).
  replace (8 * Z.land (Z.shiftr x 3) 63) with (Z.shiftl (Z.land (Z.shiftr x 3) 63) 3) by (rewrite Z.shiftl_mul_pow2; lia).
  change 504 with (Z.shiftl 63 3). apply Z.bits_inj'. intros k Hk. rewrite Z.land_spec, !Z.shiftl_spec by lia.
  destruct (decide (k < 3)); [by rewrite (Z.testbit_neg_r 63), (Z.testbit_neg_r (Z.land _ _)), andb_false_r by lia|].
  rewrite Z.land_spec, Z.shiftr_spec by lia. by replace (k - 3 + 3) with k by lia.
Qed.

Lemma pad_loop_ok fuel m c z :
  ctx_ok m c -> Z.of_nat z = (56 - Z.of_nat (length m)) mod 64 -> (z < fuel)%nat -> Z.of_nat (length m + z) < 2 ^ 60 ->
  exists c', pad_loop fuel c = Val c' /\ ctx_ok (m ++ replicate z 0) c'.
Proof.
  revert m c z. induction fuel as [|fuel IH]; intros m c z Hc Hz Hf Hs; [lia|]. cbn [pad_loop].
  rewrite (co_count0 _ _ Hc), count_offset, Nat2Z.inj_mod. change (Z.of_nat 64) with 64.
  pose proof (Z.div_mod (Z.of_nat (length m)) 64 ltac:(lia)) as Dm. pose proof (Z.mod_pos_bound (Z.of_nat (length m)) 64 ltac:(lia)) as Mm.
  pose proof (Z.div_mod (56 - Z.of_nat (length m)) 64 ltac:(lia)) as Dz. pose proof (Z.mod_pos_bound (56 - Z.of_nat (length m)) 64 ltac:(lia)) as Mz.
  rewrite <- Hz in Dz, Mz. destruct (Z.eqb_spec (8 * (Z.of_nat (length m) mod 64)) 448) as [E|Hne]; cbn [negb].
  - assert (z = 0%nat) as -> by lia. exists c. split; [done|]. by rewrite app_nil_r.
  - assert (0 < z)%nat as Hz0 by lia. destruct z as [|z]; [lia|].
    destruct (update_ok m [0] c Hc) as (c1&E1&Hc1); [by repeat constructor|cbn; lia|cbn [length]; lia|].
    change (Z.of_nat (length [0])) with 1 in E1. rewrite E1. cbn [ebind].
    destruct (IH (m ++ [0]) c1 z Hc1) as (c'&E'&Hc'); [|lia|rewrite length_app; cbn [length]; lia|].
    + rewrite length_app. cbn [length]. apply (Z.mod_unique _ _ ((56 - Z.of_nat (length m)) / 64)); lia.
    + exists c'. split; [done|]. by rewrite <- app_assoc in Hc'.
Qed.

(** *** The digest *)

Lemma be_bytes_app n k v : be_bytes (n + k) v = be_bytes n (v / 256 ^ Z.of_nat k) ++ be_bytes k v.
Proof.
  revert v. induction k as [|k IH]; intros v; [by rewrite Nat.add_0_r, Z.div_1_r, app_nil_r|].
  rewrite Nat.add_succ_r. cbn [be_bytes]. rewrite IH, app_assoc. do 3 f_equal.
  rewrite Nat2Z.inj_succ, Z.pow_succ_r by lia. by rewrite Z.div_div by lia.
Qed.

Lemma be_bytes_mod k v : be_bytes k (v mod 256 ^ Z.of_nat k) = be_bytes k v.
Proof.
  revert v. induction k as [|k IH]; intros v; [done|]. cbn [be_bytes]. rewrite Nat2Z.inj_succ, Z.pow_succ_r by lia.
  rewrite Z.rem_mul_r by lia. f_equal.
  - rewrite Z.mul_comm, Z.div_add, Z.div_small, Z.add_0_l by (lia || by apply Z.mod_pos_bound). apply IH.
  - f_equal. rewrite Z.mul_comm, Z.mod_add by lia. by apply Z.mod_mod.
Qed.

Lemma be_bytes_word w : be_bytes 4 w = byte_of w <$> seq 0 4.
Proof.
  unfold byte_of. cbn -[Z.land Z.shiftr Z.div Z.modulo]. change 255 with (Z.ones 8).
  rewrite !Z.land_ones, !Z.shiftr_div_pow2 by lia. rewrite !Z.div_div by lia. by rewrite Z.div_1_r.
Qed.

Lemma finalcount_eq m c : ctx_ok m c -> finalcount c = be_bytes 8 (8 * Z.of_nat (length m)).
Proof.
  intros Hc. rewrite (be_bytes_app 4 4), <- (be_bytes_mod 4 (8 * _)). change (256 ^ Z.of_nat 4) with (2 ^ 32).
  unfold finalcount. rewrite (co_count0 _ _ Hc), (co_count1 _ _ Hc), !be_bytes_word. done.
Qed.

Lemma digest_eq H : length H = 5%nat ->
  (fun i => byte_of (H !!! (Nat.shiftr i 2)) i) <$> seq 0 20 = H ≫= be_bytes 4.
Proof.
  intros HH. destruct H as [|A [|B [|C [|D [|F [|? ?]]]]]]; try done. cbn [mbind list_bind]. by rewrite !be_bytes_word.
Qed.

Lemma be_bytes_bytes n v : bytes (be_bytes n v) /\ length (be_bytes n v) = n.
Proof.
  revert v. induction n as [|n IH]; intros v; [by split; [constructor|]|]. cbn [be_bytes]. destruct (IH (v / 256)).
  split; [|rewrite length_app; cbn; lia]. apply Forall_app. split; [done|]. repeat constructor; by apply Z.mod_pos_bound.
Qed.

Lemma final_ok m c :
  ctx_ok m c -> Z.of_nat (length m) < 2 ^ 59 -> SHA1Final c = Val (sha1 m).
Proof.
  intros Hc Hs. unfold SHA1Final. rewrite (finalcount_eq m c Hc).
  destruct (update_ok m [128] c Hc) as (c1&E1&Hc1); [by repeat constructor|cbn; lia|cbn [length]; lia|].
  change (Z.of_nat (length [128])) with 1 in E1. rewrite E1. cbn [ebind].
  pose proof (Z.mod_pos_bound (55 - Z.of_nat (length m)) 64 ltac:(lia)) as Mz.
  destruct (pad_loop_ok 64 (m ++ [128]) c1 (Z.to_nat ((55 - Z.of_nat (length m)) mod 64)) Hc1) as (c2&E2&Hc2);
    [rewrite length_app; cbn [length]; rewrite Z2Nat.id by lia; f_equal; lia|lia|rewrite length_app; cbn [length]; lia|].
  rewrite E2. cbn [ebind]. destruct (be_bytes_bytes 8 (8 * Z.of_nat (length m))) as [Hb Hl].
  destruct (update_ok _ _ c2 Hc2 Hb) as (c3&E3&Hc3); [lia|rewrite !length_app, length_replicate; cbn [length]; lia|].
  rewrite Hl in E3. change (Z.of_nat 8) with 8 in E3. rewrite E3. cbn [ebind]. rewrite <- !app_assoc in Hc3.
  change (m ++ [128] ++ _) with (pad m) in Hc3. rewrite (co_state _ _ Hc3). f_equal. unfold sha1. apply digest_eq.
  apply absorb_length; [done|apply Hc3|]. pose proof (Nat.div_mod (length (pad m)) 64 ltac:(lia)). lia.
Qed.

(** ** Files are hashed in pieces *)

Lemma hash_loop_ok fuel m rest c :
  ctx_ok m c -> bytes rest -> Z.of_nat (length m) <= SKI_HASH_READ_MAX -> (length rest < fuel)%nat ->
  let n := Z.to_nat (Z.min (SKI_HASH_READ_MAX - Z.of_nat (length m)) (Z.of_nat (length rest))) in
  exists c', hash_loop fuel rest (Z.of_nat (length m)) c = Val (Z.of_nat (length m + n), c') /\ ctx_ok (m ++ take n rest) c'.
Proof.
  revert m rest c. induction fuel as [|fuel IH]; intros m rest c Hc Hb Hm Hf; [lia|]. cbv zeta. cbn [hash_loop].
  set (n := Z.to_nat (Z.min (SKI_HASH_READ_MAX - _) _)).
  set (res := Z.min (Z.min SKI_HASH_BUFFER_SIZE _) _).
  assert (0 < SKI_HASH_BUFFER_SIZE < 2 ^ 31) as HB by (unfold SKI_HASH_BUFFER_SIZE; lia).
  assert (0 < SKI_HASH_READ_MAX < 2 ^ 31) as HR by (unfold SKI_HASH_READ_MAX; lia).
  destruct (Z.leb_spec res 0) as [H0'|Hpos].
  - assert (n = 0%nat) as -> by lia. exists c. split; [by rewrite Nat.add_0_r|]. by rewrite take_0, app_nil_r.
  - set (k := Z.to_nat res). assert (length (take k rest) = k) as Hk by (rewrite length_take; lia).
    destruct (update_ok m (take k rest) c Hc) as (c1&E1&Hc1); [by apply Forall_take|lia|lia|].
    rewrite Hk in E1. replace (Z.of_nat k) with res in E1 by lia. rewrite E1. cbn [ebind].
    assert (length (m ++ take k rest) = length m + k)%nat as Hl by (rewrite length_app; lia).
    destruct (IH (m ++ take k rest) (drop k rest) c1 Hc1) as (c'&E'&Hc');
      [by apply Forall_drop|lia|rewrite length_drop; lia|].
    rewrite Hl, length_drop in E', Hc'. set (n' := Z.to_nat _) in E', Hc'. assert (n = k + n')%nat as -> by lia.
    exists c'. split; [|by rewrite <- app_assoc, take_take_drop in Hc'].
    replace (Z.of_nat (length m) + res) with (Z.of_nat (length m + k)) by lia. rewrite E'. do 3 f_equal. lia.
Qed.

(** C38: [ski_sha_file] computes SHA-1.  Whatever the length of the file, it returns
    the number of bytes it hashed (the whole file up to the limit) and the
    hexadecimal text of the SHA-1 digest of these bytes, as the standard defines
    it; no access is outside an array, whatever the buffer of the context holds
    before. *)
Theorem ski_sha_file_exact (uninit content : list Z) :
  length uninit = 64%nat -> bytes content ->
  let hashed := take (Z.to_nat (Z.min SKI_HASH_READ_MAX (Z.of_nat (length content)))) content in
  ski_sha_file uninit (Some content) = Val (Z.of_nat (length hashed), sha1 hashed ≫= hex_byte).
Proof.
  intros Hu Hb hashed. assert (0 < SKI_HASH_READ_MAX < 2 ^ 31) as HR by (unfold SKI_HASH_READ_MAX; lia).
  destruct (hash_loop_ok (S (length content)) [] content (SHA1Init uninit)) as (c&E&Hc); [by apply ctx_init_ok|done|cbn; lia|lia|].
  cbn [length] in E, Hc. change (Z.of_nat 0) with 0 in E, Hc. rewrite Z.sub_0_r in E, Hc. cbn [app Nat.add] in E, Hc.
  fold hashed in Hc. assert (length hashed = Z.to_nat (Z.min SKI_HASH_READ_MAX (Z.of_nat (length content)))) as Hl.
  { unfold hashed. rewrite length_take. lia. }
  unfold ski_sha_file. rewrite E. cbn [ebind fst snd]. rewrite (final_ok hashed c Hc) by lia. cbn [ebind]. by rewrite Hl.
Qed.

(** The file of the standard's second test vector. *)
Definition sample_message : list Z := concat ((fun x => seqZ x 4) <$> seqZ 97 14).

Lemma ski_sha_file_exact_witness :
  let hashed := take (Z.to_nat (Z.min SKI_HASH_READ_MAX (Z.of_nat (length sample_message)))) sample_message in
  ski_sha_file (replicate 64 7) (Some sample_message) = Val (Z.of_nat (length hashed), sha1 hashed ≫= hex_byte) /\
  length hashed = 56%nat /\ sha1 hashed = be_bytes 20 0x84983E441C3BD26EBAAE4AA1F95129E5E54670F1.
Proof.
  split; [|split; vm_compute; reflexivity]. apply (ski_sha_file_exact (replicate 64 7) sample_message); [done|].
  apply (bool_decide_unpack (Forall is_byte sample_message)). by vm_compute.
Defined.
