(* ===== verification/Driver.v ===== *)
(** * Driver.v -- the parent process of the exploration

    Models the parts of [vmm/vl.c] that run the exploration: the IP filter (the
    instructions at which a thread may be preempted), loaded from a file,
    extended with the communication instructions of finished tests and restored
    for a new input; the main loop, which forks a child process per test; and
    [ski_forkall_parent_wait], which bounds the number of children, collects the
    finished ones and reuses their statistics slots.

    The operating system's answers are inputs: the process ids [fork] returns
    and the children [wait] returns, each with the statistics it left in its
    slot of the shared memory. *)

From S2P Require Import Prelude CString Stats InstructionDetector Input.

(** ** The IP filter *)

(** [f_entries] are the used entries of [ski_ipfilter_hash_values], all of them
    in the hash table; [f_backup] those of [ski_ipfilter_hash_values_backup]. *)
Record ipfilter := mk_filter { f_entries : list Z; f_backup : list Z }.

(** The text before a comment. *)
Fixpoint cut_comment (s : list Z) : list Z :=
  match s with
  | [] => []
  | c :: s' => if c =? 35 then [] else c :: cut_comment s'
  end.

Fixpoint loadfile_loop (fuel : nat) (content : list Z) (f : ipfilter) : E ipfilter :=
  match fuel with
  | O => Val f
  | S fuel' =>
      match content with
      | [] => Val f
      | _ =>
          let '(buffer, rest) := fgets 126 content in
          let res := sscanf_x (cut_comment buffer) in
          _ <-? eassert (Z.of_nat (length (f_entries f)) <? MAX_IPFILTER_HASH) ;;
          match res with
          | Some (eip, _) =>
              loadfile_loop fuel' rest (mk_filter (f_entries f ++ [wrap32 eip]) (f_backup f ++ [wrap32 eip]))
          | None => Fail HAssert
          end
      end
  end.

(** [content] is [None] when there is no such file. *)
Definition ski_ipfilter_loadfile_hash (content : option (list Z)) (f : ipfilter) : E ipfilter :=
  match content with
  | None => Fail HAssert
  | Some content => loadfile_loop (S (length content)) content f
  end.

Definition ski_ipfilter_restore (f : ipfilter) : ipfilter := mk_filter (f_backup f) (f_backup f).

Definition ski_eipfilter_count_entries (f : ipfilter) : Z := Z.of_nat (length (f_entries f)).

Definition ski_ipfilter_check (f : ipfilter) (eip : Z) : Z :=
  if ski_eipfilter_count_entries f =? 0 then 1
  else if bool_decide (eip ∈ f_entries f) then 1 else 0.

Fixpoint ski_eipfilter_add_stats (communication_instructions : list Z) (f : ipfilter) : E ipfilter :=
  match communication_instructions with
  | [] => Val f
  | eip :: l =>
      if bool_decide (wrap32 eip ∈ f_entries f) then ski_eipfilter_add_stats l f
      else
        _ <-? eassert (Z.of_nat (length (f_entries f)) <? MAX_IPFILTER_HASH) ;;
        ski_eipfilter_add_stats l (mk_filter (f_entries f ++ [wrap32 eip]) (f_backup f))
  end.

(** ** The parent process *)

Definition SKI_EXIT_OTHER : Z := -1.

(** A slot of [ski_stats_all]. *)
Record slot := mk_slot { sl_pid : Z; sl_slot : Z; sl_preemption_list_size : Z; sl_stats : ski_stats }.

(** A finished child: [wait]'s status, and its statistics. *)
Inductive status := Exited (code : Z) | Signaled (sig : Z).
Record finished := mk_finished { fi_pid : Z; fi_status : status; fi_stats : ski_stats }.

(** [d_self] is [ski_stats_self] as an index in [ski_stats_all]; [d_available],
    [d_next_slot] are the variables of the main loop, [d_forks] and [d_waits] the
    answers of the operating system to come, [d_forked] and [d_collected] what
    was started (with inputs and seed) and reported, in order. *)
Record driver := mk_driver {
  d_slots : list slot;
  d_self : option nat;
  d_available : Z;
  d_next_slot : Z;
  d_round : Z;
  d_rounds : Z;
  d_concurrency : Z;
  d_k : Z;
  d_k_initial : Z;
  d_filter : ipfilter;
  d_exploration : exploration;
  d_forks : list Z;
  d_waits : list finished;
  d_forked : list (Z * ((Z * Z) * Z));
  d_collected : list Z
}.
Definition set_d_slots v d :=
  mk_driver v (d_self d) (d_available d) (d_next_slot d) (d_round d) (d_rounds d) (d_concurrency d) (d_k d)
    (d_k_initial d) (d_filter d) (d_exploration d) (d_forks d) (d_waits d) (d_forked d) (d_collected d).
Definition set_d_self v d :=
  mk_driver (d_slots d) v (d_available d) (d_next_slot d) (d_round d) (d_rounds d) (d_concurrency d) (d_k d)
    (d_k_initial d) (d_filter d) (d_exploration d) (d_forks d) (d_waits d) (d_forked d) (d_collected d).
Definition set_d_available v d :=
  mk_driver (d_slots d) (d_self d) v (d_next_slot d) (d_round d) (d_rounds d) (d_concurrency d) (d_k d)
    (d_k_initial d) (d_filter d) (d_exploration d) (d_forks d) (d_waits d) (d_forked d) (d_collected d).
Definition set_d_next_slot v d :=
  mk_driver (d_slots d) (d_self d) (d_available d) v (d_round d) (d_rounds d) (d_concurrency d) (d_k d)
    (d_k_initial d) (d_filter d) (d_exploration d) (d_forks d) (d_waits d) (d_forked d) (d_collected d).
Definition set_d_round v d :=
  mk_driver (d_slots d) (d_self d) (d_available d) (d_next_slot d) v (d_rounds d) (d_concurrency d) (d_k d)
    (d_k_initial d) (d_filter d) (d_exploration d) (d_forks d) (d_waits d) (d_forked d) (d_collected d).
Definition set_d_k v d :=
  mk_driver (d_slots d) (d_self d) (d_available d) (d_next_slot d) (d_round d) (d_rounds d) (d_concurrency d)
    v (d_k_initial d) (d_filter d) (d_exploration d) (d_forks d) (d_waits d) (d_forked d) (d_collected d).
Definition set_d_filter v d :=
  mk_driver (d_slots d) (d_self d) (d_available d) (d_next_slot d) (d_round d) (d_rounds d) (d_concurrency d)
    (d_k d) (d_k_initial d) v (d_exploration d) (d_forks d) (d_waits d) (d_forked d) (d_collected d).
Definition set_d_exploration v d :=
  mk_driver (d_slots d) (d_self d) (d_available d) (d_next_slot d) (d_round d) (d_rounds d) (d_concurrency d)
    (d_k d) (d_k_initial d) (d_filter d) v (d_forks d) (d_waits d) (d_forked d) (d_collected d).
Definition set_d_forks v d :=
  mk_driver (d_slots d) (d_self d) (d_available d) (d_next_slot d) (d_round d) (d_rounds d) (d_concurrency d)
    (d_k d) (d_k_initial d) (d_filter d) (d_exploration d) v (d_waits d) (d_forked d) (d_collected d).
Definition set_d_waits v d :=
  mk_driver (d_slots d) (d_self d) (d_available d) (d_next_slot d) (d_round d) (d_rounds d) (d_concurrency d)
    (d_k d) (d_k_initial d) (d_filter d) (d_exploration d) (d_forks d) v (d_forked d) (d_collected d).
Definition set_d_forked v d :=
  mk_driver (d_slots d) (d_self d) (d_available d) (d_next_slot d) (d_round d) (d_rounds d) (d_concurrency d)
    (d_k d) (d_k_initial d) (d_filter d) (d_exploration d) (d_forks d) (d_waits d) v (d_collected d).
Definition set_d_collected v d :=
  mk_driver (d_slots d) (d_self d) (d_available d) (d_next_slot d) (d_round d) (d_rounds d) (d_concurrency d)
    (d_k d) (d_k_initial d) (d_filter d) (d_exploration d) (d_forks d) (d_waits d) (d_forked d) v.

#[export] Instance slot_inhabited : Inhabited slot := populate (mk_slot 0 0 0 ski_stats_reset_slot).

Definition DRV := M driver.

Definition mod_slot (i : nat) (f : slot -> slot) : DRV unit :=
  modify (fun d => set_d_slots (alter f i (d_slots d)) d).

(** *** Statistics slots *)

Definition ski_stats_init_all (n_slots : Z) : list slot :=
  (fun i => mk_slot 0 i 0 ski_stats_reset_slot) <$> seqZ 0 n_slots.

Definition ski_stats_set_self_slot (n : Z) : DRV unit :=
  d <- get ;;
  assert_ (n <? Z.of_nat (length (d_slots d))) ;;;
  match (if n <? 0 then None else d_slots d !! Z.to_nat n) with
  | None => stop HUndef
  | Some s =>
      modify (set_d_self (Some (Z.to_nat n))) ;;;
      assert_ (sl_slot s =? n)
  end.

(** [ski_stats_self], which its users assert or dereference. *)
Definition self : DRV nat :=
  d <- get ;; match d_self d with Some i => ret i | None => stop HAssert end.

Definition ski_stats_get_from_pid (pid : Z) : DRV (nat * slot) :=
  d <- get ;;
  match list_find (fun s => sl_pid s = pid) (d_slots d) with
  | Some r => ret r
  | None => stop HAssert
  end.

Definition reset_slot (s : slot) : slot := mk_slot 0 (sl_slot s) 0 ski_stats_reset_slot.

(** The inputs of the next test are noted in the slot; the time is not
    modelled. *)
Definition ski_stats_start : DRV unit :=
  i <- self ;;
  d <- get ;;
  let n := x_input_number (d_exploration d) in
  mod_slot i (fun s => let st := sl_stats s in
    mk_slot (sl_pid s) (sl_slot s) (sl_preemption_list_size s)
      (mk_stats n (ss_instructions st) (ss_data st) (ss_data_instructions_n st) (ss_communication_instructions st)
         (ss_communication_eips st) (ss_communication_data st) (ss_preemption_points_executed st)
         (ss_instructions_executed st))).

Definition ski_stats_add_preemption_list_size (size : Z) : DRV unit :=
  i <- self ;;
  mod_slot i (fun s => mk_slot (sl_pid s) (sl_slot s) size (sl_stats s)).

(** *** Collecting children *)

(** [wait]: a finished child, whose slot holds what it wrote. *)
Definition wait_ : DRV finished :=
  d <- get ;;
  match d_waits d with
  | [] => stop HUndef
  | c :: waits =>
      modify (set_d_waits waits) ;;;
      modify (fun d => set_d_slots
        ((fun s => if sl_pid s =? fi_pid c
                   then mk_slot (sl_pid s) (sl_slot s) (sl_preemption_list_size s) (fi_stats c) else s) <$> d_slots d) d) ;;;
      ret c
  end.

(** The statistics of the finished child in slot [last] are added and reported. *)
Definition collect (last : slot) : DRV unit :=
  modify (set_d_next_slot (sl_slot last)) ;;;
  ski_stats_set_self_slot (sl_slot last) ;;;
  f <- lift (fun d => ski_eipfilter_add_stats (ss_communication_instructions (sl_stats last)) (d_filter d)) ;;
  modify (set_d_filter f) ;;;
  modify (fun d => set_d_collected (d_collected d ++ [sl_pid last]) d).

(** The branch with no free slot: wait for a child and reuse its slot.  The
    learned [k] is [points * 1.1], truncated. *)
Definition wait_for_slot : DRV unit :=
  c <- wait_ ;;
  match fi_status c with
  | Signaled _ => stop (HExit 0)
  | Exited code =>
      r <- ski_stats_get_from_pid (fi_pid c) ;;
      let '(i, last) := r in
      modify (set_d_next_slot (sl_slot last)) ;;;
      when (code =? 0) (stop (HExit SKI_EXIT_OTHER)) ;;;
      collect last ;;;
      let points := ss_preemption_points_executed (sl_stats last) in
      when (points >? 0) (modify (set_d_k (wrap32 (Z.quot (11 * points) 10)))) ;;;
      mod_slot i reset_slot
  end.

(** The loop at the end of the exploration. *)
Fixpoint drain_children (in_use : nat) : DRV unit :=
  match in_use with
  | O => ret tt
  | S in_use' =>
      c <- wait_ ;;
      r <- ski_stats_get_from_pid (fi_pid c) ;;
      collect (snd r) ;;;
      drain_children in_use'
  end.

Definition ski_forkall_parent_wait (child_pid : Z) : DRV unit :=
  i <- self ;;
  mod_slot i (fun s => mk_slot child_pid (sl_slot s) (sl_preemption_list_size s) (sl_stats s)) ;;;
  modify (fun d => if d_available d >? 0 then set_d_available (d_available d - 1) d else d) ;;;
  d <- get ;;
  (if d_available d =? 0 then wait_for_slot
   else
     modify (fun d => set_d_next_slot (wrap32 (d_next_slot d + 1)) d) ;;;
     d <- get ;; ski_stats_set_self_slot (d_next_slot d)) ;;;
  modify (fun d => set_d_round (wrap32 (d_round d + 1)) d) ;;;
  d <- get ;;
  when (d_round d >=? d_rounds d)
    (drain_children (Z.to_nat (d_concurrency d - d_available d - 1)) ;;;
     stop (HExit 0)).

(** *** The main loop *)

(** [fork], seen from the parent. *)
Definition fork_ : DRV Z :=
  d <- get ;;
  match d_forks d with
  | [] => stop HUndef
  | pid :: forks =>
      modify (set_d_forks forks) ;;;
      modify (fun d => set_d_forked
        (d_forked d ++ [(pid, (x_input_number (d_exploration d), x_seed (d_exploration d)))]) d) ;;;
      ret pid
  end.

Definition on_exploration {A} (op : M exploration A) : DRV A :=
  fun d => match op (d_exploration d) with
           | Ret x a => Ret (set_d_exploration x d) a
           | Jump x => Jump (set_d_exploration x d)
           | Halt x h => Halt (set_d_exploration x d) h
           end.

(** From [forkall_do_fork] to the [goto]. *)
Definition forkall_do_fork : DRV unit :=
  d <- get ;;
  ski_stats_set_self_slot (d_next_slot d) ;;;
  new_input <- on_exploration ski_input_fork_init ;;
  when (c_true new_input)
    (modify (fun d => set_d_k (d_k_initial d) (set_d_filter (ski_ipfilter_restore (d_filter d)) d))) ;;;
  ski_stats_start ;;;
  d <- get ;;
  ski_stats_add_preemption_list_size (ski_eipfilter_count_entries (d_filter d)) ;;;
  child_pid <- fork_ ;;
  ski_forkall_parent_wait child_pid.

(** The loop leaves the process with [exit] after the last round. *)
Fixpoint forkall_loop (fuel : nat) : DRV unit :=
  match fuel with
  | O => ret tt
  | S fuel' => forkall_do_fork ;;; forkall_loop fuel'
  end.

(** *** The preemption points of a child *)

Definition SKI_MAX_PREEMPTION_POINTS : Z := 16.

(** [n] points; each takes three values of [random], which are [long]s. *)
Fixpoint preemption_points (n : nat) (k : Z) (randoms : list Z) : E (list Z) :=
  match n with
  | O => Val []
  | S n' =>
      match randoms with
      | r1 :: r2 :: r3 :: randoms =>
          let r := Z.lxor (Z.lxor (r1 * 1000) r2 * 1000) r3 in
          if k =? 0 then Fail HUndef
          else
            let point := wrap32 (Z.rem r k + 1) in
            _ <-? eassert (point >? 0) ;;
            l <-? preemption_points n' k randoms ;;
            Val (point :: l)
      | _ => Fail HUndef
      end
  end.

Definition ski_forkall_init_preemptionlist (len k : Z) (randoms : list Z) : E (list Z) :=
  _ <-? eassert (len <? SKI_MAX_PREEMPTION_POINTS) ;;
  preemption_points (Z.to_nat len) k randoms.

(** With a positive [k] the points are drawn from the first [k] instructions; the
    assertion never fails.  ([random] returns less than [2 ^ 31].) *)
Lemma preemption_points_range n k randoms :
  0 < k < 2 ^ 31 -> Forall (fun r => 0 <= r < 2 ^ 31) randoms -> (3 * n <= length randoms)%nat ->
  exists l, preemption_points n k randoms = Val l /\ length l = n /\ Forall (fun p => 1 <= p <= k) l.
Proof.
  intros Hk. revert randoms. induction n as [|n IH]; intros randoms Hr Hn; [by exists []|].
  destruct randoms as [|r1 [|r2 [|r3 randoms]]]; cbn [length] in Hn; try lia. cbn [preemption_points].
  rewrite !Forall_cons in Hr. destruct Hr as (H1&H2&H3&Hr). rewrite (proj2 (Z.eqb_neq k 0)) by lia.
  assert (0 <= Z.lxor (Z.lxor (r1 * 1000) r2 * 1000) r3) as H0.
  { apply Z.lxor_nonneg. split; [lia|]. intros _. apply Z.mul_nonneg_nonneg; [|lia]. apply Z.lxor_nonneg. lia. }
  pose proof (Z.rem_bound_pos _ k H0 ltac:(lia)) as Hrem.
  rewrite wrap32_id by (unfold in_int; lia). rewrite (proj2 (Z.gtb_lt _ 0)) by lia. cbn [eassert ebind].
  destruct (IH randoms Hr ltac:(lia)) as (l&->&Hl&HF). eexists. split; [done|]. split; [cbn; lia|].
  constructor; [lia|done].
Qed.

(** ** Slots *)

Definition pids_of (d : driver) : list Z := sl_pid <$> d_slots d.

(** The slots are numbered. *)
Definition numbered (d : driver) : Prop := sl_slot <$> d_slots d = seqZ 0 (Z.of_nat (length (d_slots d))).

Lemma numbered_lookup d i s : numbered d -> d_slots d !! i = Some s -> sl_slot s = Z.of_nat i.
Proof.
  unfold numbered. intros H Hi. pose proof (f_equal (.!! i) H) as Hl. rewrite list_lookup_fmap, Hi in Hl. cbn in Hl.
  symmetry in Hl. apply lookup_seqZ in Hl as [-> _]. lia.
Qed.

Lemma set_self_slot_Ret d i :
  numbered d -> (i < length (d_slots d))%nat ->
  ski_stats_set_self_slot (Z.of_nat i) d = Ret (set_d_self (Some i) d) tt.
Proof.
  intros Hn Hi. unfold ski_stats_set_self_slot. erewrite bind_Ret by done.
  rewrite (proj2 (Z.ltb_lt _ _)) by lia. erewrite bind_Ret by done.
  rewrite (proj2 (Z.ltb_ge _ _)) by lia. rewrite Nat2Z.id.
  destruct (lookup_lt_is_Some_2 (d_slots d) i Hi) as [s Hs]. rewrite Hs.
  erewrite bind_Ret by done. rewrite (numbered_lookup d i s Hn Hs), Z.eqb_refl. done.
Qed.

Lemma get_from_pid_Ret d p :
  p ∈ pids_of d ->
  exists i s, ski_stats_get_from_pid p d = Ret d (i, s) /\ d_slots d !! i = Some s /\ sl_pid s = p.
Proof.
  intros (s0&->&Hin)%list_elem_of_fmap. unfold ski_stats_get_from_pid. erewrite bind_Ret by done.
  destruct (list_find _ _) as [[i s]|] eqn:E.
  - apply list_find_Some in E as (Hi&Hp&_). exists i, s. by rewrite Hp.
  - exfalso. apply list_find_None in E. by apply (proj1 (Forall_forall _ _) E s0 Hin).
Qed.

(** *** Room in the IP filter *)

Definition communication (waits : list finished) : list Z :=
  waits ≫= (fun c => ss_communication_instructions (fi_stats c)).

Definition filter_fits (f : ipfilter) (waits : list finished) : Prop :=
  Z.of_nat (length (f_entries f) + length (communication waits)) <= MAX_IPFILTER_HASH /\
  Z.of_nat (length (f_backup f) + length (communication waits)) <= MAX_IPFILTER_HASH.

Lemma add_stats_Val ci f :
  Z.of_nat (length (f_entries f) + length ci) <= MAX_IPFILTER_HASH ->
  exists f', ski_eipfilter_add_stats ci f = Val f' /\ f_backup f' = f_backup f /\
    (length (f_entries f') <= length (f_entries f) + length ci)%nat /\
    forall e, e ∈ f_entries f' <-> e ∈ f_entries f \/ e ∈ wrap32 <$> ci.
Proof.
  revert f. induction ci as [|e ci IH]; intros f Hn; cbn [ski_eipfilter_add_stats length] in *.
  { exists f. split; [done|]. split; [done|]. split; [lia|]. intros e. rewrite fmap_nil, elem_of_nil. tauto. }
  case_bool_decide as He.
  - destruct (IH f) as (f'&E&Hb&Hl&Hm); [lia|]. exists f'. split; [done|]. split; [done|]. split; [lia|].
    intros x. rewrite Hm, fmap_cons, elem_of_cons. naive_solver.
  - rewrite (proj2 (Z.ltb_lt _ _)) by lia. cbn [eassert ebind].
    destruct (IH (mk_filter (f_entries f ++ [wrap32 e]) (f_backup f))) as (f'&E&Hb&Hl&Hm).
    { cbn. rewrite length_app. cbn. lia. }
    cbn in Hb, Hl. rewrite length_app in Hl. cbn in Hl. exists f'. split; [done|]. split; [done|]. split; [lia|].
    intros x. rewrite Hm. cbn [f_entries]. rewrite elem_of_app, list_elem_of_singleton, fmap_cons, elem_of_cons. tauto.
Qed.

Lemma fits_collect f c waits :
  filter_fits f (c :: waits) ->
  exists f', ski_eipfilter_add_stats (ss_communication_instructions (fi_stats c)) f = Val f' /\ filter_fits f' waits.
Proof.
  unfold filter_fits, communication. rewrite bind_cons, length_app. intros [He Hb].
  destruct (add_stats_Val (ss_communication_instructions (fi_stats c)) f) as (f'&E&Hb'&Hl&_); [lia|].
  exists f'. split; [done|]. rewrite Hb'. lia.
Qed.

Lemma fits_restore f waits : filter_fits f waits -> filter_fits (ski_ipfilter_restore f) waits.
Proof. by intros [_ H]. Qed.

(** *** Collecting one child *)

(** The slots after [wait] returned [c]. *)
Definition filled (c : finished) (l : list slot) : list slot :=
  (fun s => if sl_pid s =? fi_pid c
            then mk_slot (sl_pid s) (sl_slot s) (sl_preemption_list_size s) (fi_stats c) else s) <$> l.

Lemma filled_pids c l : sl_pid <$> filled c l = sl_pid <$> l.
Proof. unfold filled. rewrite <- list_fmap_compose. apply list_fmap_ext. intros _ s _. cbn. by destruct (_ =? _). Qed.

Lemma filled_slots c l : sl_slot <$> filled c l = sl_slot <$> l.
Proof. unfold filled. rewrite <- list_fmap_compose. apply list_fmap_ext. intros _ s _. cbn. by destruct (_ =? _). Qed.

Lemma filled_stats c l i s : filled c l !! i = Some s -> sl_pid s = fi_pid c -> sl_stats s = fi_stats c.
Proof.
  unfold filled. rewrite list_lookup_fmap. destruct (l !! i) as [s'|]; [|done]. cbn. intros [= <-].
  destruct (sl_pid s' =? fi_pid c) eqn:E; [done|]. intros Hp. apply Z.eqb_neq in E. congruence.
Qed.

(** [wait] and the lookup of the child's slot. *)
Lemma wait_slot_Ret d c ws :
  numbered d -> d_waits d = c :: ws -> fi_pid c ∈ pids_of d ->
  exists i last, let d1 := set_d_slots (filled c (d_slots d)) (set_d_waits ws d) in
    wait_ d = Ret d1 c /\ ski_stats_get_from_pid (fi_pid c) d1 = Ret d1 (i, last) /\ numbered d1 /\
    d_slots d1 !! i = Some last /\ sl_slot last = Z.of_nat i /\ sl_pid last = fi_pid c /\ sl_stats last = fi_stats c.
Proof.
  intros Hn Hw Hp. set (d1 := set_d_slots (filled c (d_slots d)) (set_d_waits ws d)).
  assert (numbered d1) as Hn1.
  { unfold numbered. cbn. rewrite filled_slots. unfold filled. rewrite length_fmap. exact Hn. }
  destruct (get_from_pid_Ret d1 (fi_pid c)) as (i&last&E&Hi&Hl).
  { unfold pids_of. cbn. by rewrite filled_pids. }
  exists i, last. cbn zeta. fold d1. split.
  { unfold wait_. erewrite bind_Ret by done. by rewrite Hw. }
  split; [done|]. split; [done|]. split; [done|]. split; [by apply (numbered_lookup d1)|]. split; [done|].
  exact (filled_stats c (d_slots d) i last Hi Hl).
Qed.

Definition collected_state (i : nat) (last : slot) (f : ipfilter) (d : driver) : driver :=
  set_d_collected (d_collected d ++ [sl_pid last])
    (set_d_filter f (set_d_self (Some i) (set_d_next_slot (Z.of_nat i) d))).

Lemma collect_Ret d i last f :
  numbered d -> d_slots d !! i = Some last -> sl_slot last = Z.of_nat i ->
  ski_eipfilter_add_stats (ss_communication_instructions (sl_stats last)) (d_filter d) = Val f ->
  collect last d = Ret (collected_state i last f d) tt.
Proof.
  intros Hn Hi Hs Hf. unfold collect. erewrite bind_Ret by done. rewrite Hs.
  erewrite bind_Ret by (apply set_self_slot_Ret; [exact Hn|by eapply lookup_lt_Some]).
  erewrite bind_Ret by (apply lift_Val; exact Hf). done.
Qed.

Lemma alter_reset_pid (i : nat) (l : list slot) : sl_pid <$> alter reset_slot i l = <[i := 0]> (sl_pid <$> l).
Proof. revert i. induction l as [|s l IH]; intros [|i]; cbn; [done..|]. f_equal. apply IH. Qed.

(** A slot is freed for the next child. *)
Lemma wait_for_slot_Ret d c ws code :
  numbered d -> d_waits d = c :: ws -> fi_pid c ∈ pids_of d -> fi_status c = Exited code -> code <> 0 ->
  filter_fits (d_filter d) (c :: ws) ->
  exists d' i, wait_for_slot d = Ret d' tt /\ numbered d' /\ filter_fits (d_filter d') ws /\
    (i < length (d_slots d))%nat /\ pids_of d !! i = Some (fi_pid c) /\
    pids_of d' = <[i := 0]> (pids_of d) /\ length (d_slots d') = length (d_slots d) /\
    d_next_slot d' = Z.of_nat i /\ d_waits d' = ws /\
    d_collected d' = d_collected d ++ [fi_pid c] /\ d_forked d' = d_forked d /\ d_forks d' = d_forks d /\
    d_exploration d' = d_exploration d /\ d_round d' = d_round d /\ d_rounds d' = d_rounds d /\
    d_concurrency d' = d_concurrency d /\ d_available d' = d_available d.
Proof.
  intros Hn Hw Hp Hst Hcode Hfit.
  destruct (wait_slot_Ret d c ws Hn Hw Hp) as (i&last&E1&E2&Hn1&Hi&Hs&Hpid&Hsts).
  destruct (fits_collect _ _ _ Hfit) as (f&Ef&Hfit').
  set (d1 := set_d_slots _ _) in *. unfold wait_for_slot. erewrite bind_Ret by exact E1. rewrite Hst.
  erewrite bind_Ret by exact E2. cbn beta iota. erewrite bind_Ret by done.
  rewrite (proj2 (Z.eqb_neq _ _) Hcode). cbn [when]. erewrite bind_Ret by done.
  erewrite bind_Ret by (apply (collect_Ret _ i last f); [exact Hn1|exact Hi|exact Hs|by rewrite Hsts]).
  set (d2 := collected_state i last f _).
  assert (exists k, when (ss_preemption_points_executed (sl_stats last) >? 0)
    (modify (set_d_k (wrap32 (Z.quot (11 * ss_preemption_points_executed (sl_stats last)) 10)))) d2 =
    Ret (set_d_k k d2) tt) as (k&Ek).
  { destruct (_ >? 0); [by eexists|]. by exists (d_k d2). }
  erewrite bind_Ret by exact Ek.
  assert (length (filled c (d_slots d)) = length (d_slots d)) as Hlen by (unfold filled; by rewrite length_fmap).
  eexists _, i. split; [done|]. split.
  { unfold numbered. cbn. rewrite length_alter, alter_fmap_same by done. exact Hn1. }
  split; [exact Hfit'|]. split; [rewrite <- Hlen; by eapply lookup_lt_Some|]. split.
  { unfold pids_of. rewrite <- (filled_pids c), list_lookup_fmap. cbn in Hi. by rewrite Hi; cbn; rewrite Hpid. }
  split; [unfold pids_of; cbn; rewrite <- (filled_pids c (d_slots d)); by apply alter_reset_pid|].
  split; [cbn; by rewrite length_alter|]. cbn. by rewrite Hpid.
Qed.

(** ** The exploration runs and collects every test *)

Section rounds.
Context (s : exploration) (f : Z -> Z -> Z * Z) (dir : list Z).
Context (H1 : 0 < range_n (x_input1 s) <= MAX_SKI_INTPUT_INT_RANGE)
        (H2 : 0 < range_n (x_input2 s) <= MAX_SKI_INTPUT_INT_RANGE)
        (H3 : 0 < range_n (x_interleaving s) <= MAX_SKI_INTPUT_INT_RANGE).
Context (Hf : forall i1 i2, 0 <= i1 < range_n (x_input1 s) -> 0 <= i2 < range_n (x_input2 s) ->
                next_inputs (at_position s i1 i2 0) = Val (f i1 i2)).
Context (Hdir : ski_input_env_load_str (x_output_dir s) = Val dir).

(** [C] processes at a time, [R] tests; the operating system's answers. *)
Context (C R : nat) (pids : list Z) (waits : list finished).
Context (HC : (0 < C <= R)%nat) (HR : Z.of_nat R <= tests s) (HR31 : Z.of_nat R < 2 ^ 31).
Context (Hpids : length pids = R) (Hnd : NoDup pids) (Hnz : 0 ∉ pids).

(** [wait] returns running children: its [j]-th answer is one of the children
    forked by then, and every child is returned once. *)
Definition schedule_ok : Prop :=
  (fi_pid <$> waits) ≡ₚ pids /\
  (forall j c, waits !! j = Some c -> fi_pid c ∈ take (C + j) pids /\ exists code, fi_status c = Exited code /\ code <> 0).
Context (Hs : schedule_ok).

(** The tests of the first [n] children. *)
Definition started (n : nat) : list (Z * ((Z * Z) * Z)) :=
  (fun i => (pids !!! i, (test_of s f (Z.of_nat i)).1)) <$> seq 0 n.

(** Children collected after [n] rounds. *)
Definition waited (n : nat) : nat := S n - C.

(** [n] children were forked and [j] of them collected; the others have their
    slots. *)
Record rounds_inv (n j : nat) (d : driver) : Prop := {
  ri_numbered : numbered d;
  ri_len : length (d_slots d) = C;
  ri_forks : d_forks d = drop n pids;
  ri_waits : d_waits d = drop j waits;
  ri_forked : d_forked d = started n;
  ri_collected : d_collected d = fi_pid <$> take j waits;
  ri_known : forall p, p ∈ pids_of d -> p = 0 \/ p ∈ take n pids;
  ri_running : forall p, p ∈ take n pids -> p ∉ fi_pid <$> take j waits -> p ∈ pids_of d;
  ri_exploration : before_test s (Z.of_nat n) (d_exploration d);
  ri_filter : filter_fits (d_filter d) (drop j waits);
  ri_rounds : d_rounds d = Z.of_nat R;
  ri_concurrency : d_concurrency d = Z.of_nat C
}.

(** At the start of round [n] the next slot is free. *)
Record round_start (n : nat) (d : driver) : Prop := {
  rs_inv : rounds_inv n (waited n) d;
  rs_round : d_round d = Z.of_nat n;
  rs_available : d_available d = Z.of_nat (C - n);
  rs_next : exists i, d_next_slot d = Z.of_nat i /\ pids_of d !! i = Some 0 /\ ((n < C)%nat -> i = n);
  rs_fresh : (n < C)%nat -> forall i, (n <= i < C)%nat -> pids_of d !! i = Some 0
}.

Lemma waits_length : length waits = R.
Proof. destruct Hs as [Hp _]. apply Permutation_length in Hp. rewrite length_fmap in Hp. congruence. Qed.

Lemma wait_answer j : (j < R)%nat -> exists c, waits !! j = Some c /\ drop j waits = c :: drop (S j) waits /\
  take (S j) waits = take j waits ++ [c] /\ fi_pid c ∉ fi_pid <$> take j waits.
Proof.
  intros Hj. destruct (lookup_lt_is_Some_2 waits j) as [c Hc]; [rewrite waits_length; lia|].
  exists c. split; [done|]. split; [by apply drop_S|]. split; [by apply take_S_r|].
  intros Hin. assert (NoDup (fi_pid <$> waits)) as Hw by (destruct Hs as [Hp _]; by rewrite Hp).
  rewrite <- (take_drop_middle waits j c Hc), fmap_app, fmap_cons in Hw.
  apply NoDup_app in Hw as (_&Hw&_). apply (Hw _ Hin). left.
Qed.

Lemma started_S n : started (S n) = started n ++ [(pids !!! n, (test_of s f (Z.of_nat n)).1)].
Proof. unfold started. by rewrite seq_S, fmap_app. Qed.

(** A new child takes the free slot [i]. *)
Lemma fork_pids (n j i : nat) (P : list Z) :
  (n < R)%nat -> P !! i = Some 0 ->
  (forall p, p ∈ P -> p = 0 \/ p ∈ take n pids) ->
  (forall p, p ∈ take n pids -> p ∉ fi_pid <$> take j waits -> p ∈ P) ->
  (forall p, p ∈ <[i := pids !!! n]> P -> p = 0 \/ p ∈ take (S n) pids) /\
  (forall p, p ∈ take (S n) pids -> p ∉ fi_pid <$> take j waits -> p ∈ <[i := pids !!! n]> P).
Proof.
  intros Hn Hi Hk Hr. destruct (lookup_lt_is_Some_2 pids n) as [p Hp]; [lia|].
  rewrite (list_lookup_total_correct _ _ _ Hp), (take_S_r _ _ _ Hp). split.
  - intros q (k&Hq)%list_elem_of_lookup. apply list_lookup_insert_Some in Hq as [(_&<-&_)|(_&Hq)].
    + right. apply elem_of_app. right. by apply list_elem_of_singleton.
    + destruct (Hk q) as [->|Hin]; [by eapply list_elem_of_lookup_2|by left|right]. apply elem_of_app. by left.
  - intros q [Hq|Hq]%elem_of_app Hc.
    + pose proof (Hr q Hq Hc) as (k&Hk')%list_elem_of_lookup. apply list_elem_of_lookup. exists k.
      rewrite list_lookup_insert_ne; [done|]. intros ->. rewrite Hk' in Hi. injection Hi as ->.
      apply Hnz. apply elem_of_take in Hq as (k'&Hk''&_). by eapply list_elem_of_lookup_2.
    + apply list_elem_of_singleton in Hq as ->. apply list_elem_of_lookup. exists i.
      apply list_lookup_insert_eq. by eapply lookup_lt_Some.
Qed.

(** The rest of [ski_forkall_parent_wait] once the child has its slot. *)
Definition after_fork : DRV unit :=
  d <- get ;;
  (if d_available d =? 0 then wait_for_slot
   else
     modify (fun d => set_d_next_slot (wrap32 (d_next_slot d + 1)) d) ;;;
     d <- get ;; ski_stats_set_self_slot (d_next_slot d)) ;;;
  modify (fun d => set_d_round (wrap32 (d_round d + 1)) d) ;;;
  d <- get ;;
  when (d_round d >=? d_rounds d)
    (drain_children (Z.to_nat (d_concurrency d - d_available d - 1)) ;;;
     stop (HExit 0)).

Lemma self_Ret d i : d_self d = Some i -> self d = Ret d i.
Proof. intros H. unfold self. erewrite bind_Ret by done. by rewrite H. Qed.

Definition with_inputs (n : Z * Z) (st : ski_stats) : ski_stats :=
  mk_stats n (ss_instructions st) (ss_data st) (ss_data_instructions_n st) (ss_communication_instructions st)
    (ss_communication_eips st) (ss_communication_data st) (ss_preemption_points_executed st)
    (ss_instructions_executed st).

Lemma stats_start_Ret d i :
  d_self d = Some i ->
  ski_stats_start d = Ret (set_d_slots (alter (fun s =>
    mk_slot (sl_pid s) (sl_slot s) (sl_preemption_list_size s)
      (with_inputs (x_input_number (d_exploration d)) (sl_stats s))) i (d_slots d)) d) tt.
Proof. intros H. unfold ski_stats_start. by erewrite bind_Ret by (by apply self_Ret). Qed.

Lemma list_size_Ret d i n :
  d_self d = Some i ->
  ski_stats_add_preemption_list_size n d =
  Ret (set_d_slots (alter (fun s => mk_slot (sl_pid s) (sl_slot s) n (sl_stats s)) i (d_slots d)) d) tt.
Proof. intros H. unfold ski_stats_add_preemption_list_size. by erewrite bind_Ret by (by apply self_Ret). Qed.

Lemma fork_Ret d p forks :
  d_forks d = p :: forks ->
  fork_ d = Ret (set_d_forked (d_forked d ++ [(p, (x_input_number (d_exploration d), x_seed (d_exploration d)))])
                   (set_d_forks forks d)) p.
Proof. intros H. unfold fork_. erewrite bind_Ret by done. by rewrite H. Qed.

Lemma available_Ret m d :
  d_available d = Z.of_nat m ->
  modify (fun d => if d_available d >? 0 then set_d_available (d_available d - 1) d else d) d =
  Ret (set_d_available (Z.of_nat (m - 1)) d) tt.
Proof.
  intros H. unfold modify. rewrite H. destruct (Z.of_nat m >? 0) eqn:E; do 2 f_equal; [lia|].
  assert (m = 0%nat) as -> by lia. destruct d. cbn in *. by rewrite H.
Qed.

Lemma alter_new_pid (p : Z) (i : nat) (l : list slot) :
  sl_pid <$> alter (fun s => mk_slot p (sl_slot s) (sl_preemption_list_size s) (sl_stats s)) i l =
  <[i := p]> (sl_pid <$> l).
Proof. revert i. induction l as [|x l IH]; intros [|i]; cbn; [done..|]. f_equal. apply IH. Qed.

Lemma do_fork_eq n d :
  round_start n d -> (n < R)%nat ->
  exists d', forkall_do_fork d = after_fork d' /\ rounds_inv (S n) (waited n) d' /\
    d_round d' = Z.of_nat n /\ d_available d' = Z.of_nat (C - S n) /\ d_next_slot d' = d_next_slot d /\
    ((S n < C)%nat -> forall i, (S n <= i < C)%nat -> pids_of d' !! i = Some 0).
Proof.
  intros [Hinv Hround Hav (i&Hnext&Hfree&Hin) Hfresh] Hn. pose proof (ri_numbered _ _ _ Hinv) as Hnum.
  assert (i < length (d_slots d))%nat as Hi.
  { apply lookup_lt_Some in Hfree. unfold pids_of in Hfree. by rewrite length_fmap in Hfree. }
  unfold forkall_do_fork. erewrite bind_Ret by done. rewrite Hnext.
  erewrite bind_Ret by (by apply set_self_slot_Ret).
  destruct (fork_init_test s H1 H2 H3 f dir Hf Hdir (Z.of_nat n) (d_exploration d)) as (x&Ex&Hx&Hxn&Hxs);
    [apply Hinv|lia|].
  erewrite bind_Ret; [|unfold on_exploration; cbn [d_exploration set_d_self]; rewrite Ex; reflexivity].
  set (d1 := set_d_exploration x _).
  assert (exists k fl, filter_fits fl (drop (waited n) waits) /\
    when (c_true (test_of s f (Z.of_nat n)).2)
      (modify (fun d => set_d_k (d_k_initial d) (set_d_filter (ski_ipfilter_restore (d_filter d)) d))) d1 =
    Ret (set_d_k k (set_d_filter fl d1)) tt) as (k&fl&Hfl&Ek).
  { pose proof (ri_filter _ _ _ Hinv) as Hfit. destruct (c_true _); [|by exists (d_k d), (d_filter d)].
    eexists _, _. split; [by apply fits_restore|done]. }
  erewrite bind_Ret by exact Ek. erewrite bind_Ret by (by apply stats_start_Ret). erewrite bind_Ret by done.
  erewrite bind_Ret by (by apply list_size_Ret).
  pose proof (ri_forks _ _ _ Hinv) as Hforks.
  destruct (lookup_lt_is_Some_2 pids n) as [p Hp]; [lia|]. rewrite (drop_S _ _ _ Hp) in Hforks.
  erewrite bind_Ret by (apply fork_Ret; exact Hforks). unfold ski_forkall_parent_wait.
  erewrite bind_Ret by (by apply self_Ret). erewrite bind_Ret by done.
  erewrite bind_Ret by (apply available_Ret; exact Hav).
  match goal with |- exists d', _ ?x = _ /\ _ => set (d2 := x) end.
  assert (pids_of d2 = <[i := pids !!! n]> (pids_of d)) as Hpd.
  { unfold pids_of, d2. cbn. rewrite (list_lookup_total_correct _ _ _ Hp), alter_new_pid, !alter_fmap_same by done. done. }
  destruct (fork_pids n (waited n) i (pids_of d) Hn Hfree (ri_known _ _ _ Hinv) (ri_running _ _ _ Hinv)) as [Hk' Hr'].
  exists d2. split; [done|]. split; [split|].
  - unfold numbered, d2. cbn. rewrite !length_alter, !alter_fmap_same by done. exact Hnum.
  - unfold d2. cbn. rewrite !length_alter. apply Hinv.
  - done.
  - apply Hinv.
  - rewrite started_S, <- (ri_forked _ _ _ Hinv), (list_lookup_total_correct _ _ _ Hp). unfold d2. cbn.
    cbn in Hxn, Hxs. by rewrite Hxn, Hxs.
  - apply Hinv.
  - by rewrite Hpd.
  - by rewrite Hpd.
  - unfold d2. cbn. by replace (Z.of_nat n + 1) with (Z.of_nat (S n)) in Hx by lia.
  - exact Hfl.
  - apply Hinv.
  - apply Hinv.
  - split; [done|]. split; [unfold d2; cbn; f_equal; lia|]. split; [done|].
    intros Hlt i' Hi'. rewrite Hpd, list_lookup_insert_ne; [|rewrite Hin; lia]. apply Hfresh; lia.
Qed.

(** [after_fork] once the slot is chosen. *)
Definition round_end : DRV unit :=
  modify (fun d => set_d_round (wrap32 (d_round d + 1)) d) ;;;
  d <- get ;;
  when (d_round d >=? d_rounds d)
    (drain_children (Z.to_nat (d_concurrency d - d_available d - 1)) ;;;
     stop (HExit 0)).

(** There is a free slot. *)
Lemma after_fork_free n d i :
  rounds_inv (S n) (waited n) d -> (S n < C)%nat -> d_available d = Z.of_nat (C - S n) ->
  d_next_slot d = Z.of_nat n -> d_round d = Z.of_nat n -> i = S n ->
  (forall i, (S n <= i < C)%nat -> pids_of d !! i = Some 0) ->
  exists d', after_fork d = round_end d' /\ rounds_inv (S n) (waited (S n)) d' /\ d_round d' = Z.of_nat n /\
    d_available d' = Z.of_nat (C - S n) /\ d_next_slot d' = Z.of_nat (S n) /\ pids_of d' = pids_of d.
Proof.
  intros Hinv Hlt Hav Hnx Hrd -> Hfresh. unfold after_fork. erewrite bind_Ret by done. rewrite Hav.
  rewrite (proj2 (Z.eqb_neq _ _)) by lia.
  rewrite bind_assoc. erewrite bind_Ret by done. rewrite bind_assoc. erewrite bind_Ret by done.
  cbn [d_next_slot set_d_next_slot]. rewrite Hnx, wrap32_id by (unfold in_int; lia).
  replace (Z.of_nat n + 1) with (Z.of_nat (S n)) by lia.
  erewrite bind_Ret.
  2:{ apply set_self_slot_Ret; [exact (ri_numbered _ _ _ Hinv)|]. cbn [d_slots set_d_next_slot].
      rewrite (ri_len _ _ _ Hinv). lia. }
  eexists. split; [reflexivity|]. split; [|done].
  assert (waited (S n) = waited n) as -> by (unfold waited; lia). destruct Hinv. split; done.
Qed.

(** No slot is free: a child is collected. *)
Lemma after_fork_wait n d :
  rounds_inv (S n) (waited n) d -> (C <= S n <= R)%nat -> d_available d = 0 -> d_round d = Z.of_nat n ->
  exists d' i, after_fork d = round_end d' /\ rounds_inv (S n) (waited (S n)) d' /\ d_round d' = Z.of_nat n /\
    d_available d' = 0 /\ d_next_slot d' = Z.of_nat i /\ pids_of d' !! i = Some 0.
Proof.
  intros Hinv HCn Hav Hrd. unfold after_fork. erewrite bind_Ret by done. rewrite Hav. cbn [Z.eqb].
  assert (waited n < R)%nat as Hj by (unfold waited; lia).
  destruct (wait_answer (waited n) Hj) as (c&Hc&Hdrop&Htake&Hnew).
  destruct (proj2 Hs _ _ Hc) as [Hin (code&Hst&Hcode)].
  replace (C + waited n)%nat with (S n) in Hin by (unfold waited; lia).
  pose proof (ri_waits _ _ _ Hinv) as Hw. rewrite Hdrop in Hw.
  pose proof (ri_filter _ _ _ Hinv) as Hfit. rewrite Hdrop in Hfit.
  destruct (wait_for_slot_Ret d c (drop (S (waited n)) waits) code) as
    (d'&i&E&Hnum&Hfit'&Hi&Hpi&Hpd&Hlen&Hnx&Hw'&Hcol&Hfk&Hfs&Hex&Hrd'&Hrs&Hcc&Hav'); try done.
  { apply Hinv. }
  { by apply (ri_running _ _ _ Hinv). }
  erewrite bind_Ret by exact E. exists d', i. split; [done|].
  assert (waited (S n) = S (waited n)) as -> by (unfold waited; lia).
  assert (i < length (pids_of d))%nat as Hil by (by eapply lookup_lt_Some).
  split; [split|]; try congruence.
  - rewrite Hlen. apply Hinv.
  - rewrite Hfs. apply Hinv.
  - rewrite Hfk. apply Hinv.
  - rewrite Hcol, Htake, fmap_app, (ri_collected _ _ _ Hinv). done.
  - rewrite Hpd. intros p (k&Hk)%list_elem_of_lookup. apply list_lookup_insert_Some in Hk as [(_&<-&_)|(_&Hk)]; [by left|].
    apply (ri_known _ _ _ Hinv). by eapply list_elem_of_lookup_2.
  - rewrite Htake, fmap_app, Hpd. intros p Hp [Hnc Hne]%not_elem_of_app.
    pose proof (ri_running _ _ _ Hinv p Hp Hnc) as (k&Hk)%list_elem_of_lookup.
    apply list_elem_of_lookup. exists k. rewrite list_lookup_insert_ne; [done|]. intros ->.
    rewrite Hk in Hpi. injection Hpi as ->. apply Hne. apply list_elem_of_singleton. done.
  - rewrite Hex. apply Hinv.
  - rewrite Hrs. apply Hinv.
  - rewrite Hcc. apply Hinv.
  - split; [congruence|]. split; [congruence|]. split; [done|]. rewrite Hpd. by apply list_lookup_insert_eq.
Qed.

(** The last children are collected. *)
Lemma drain_all m j d :
  rounds_inv R j d -> (j + m = R)%nat ->
  exists d', drain_children m d = Ret d' tt /\ d_collected d' = fi_pid <$> waits /\ d_forked d' = d_forked d.
Proof.
  revert j d. induction m as [|m IH]; intros j d Hinv Hm.
  { exists d. split; [done|]. split; [|done]. rewrite (ri_collected _ _ _ Hinv), take_ge; [done|].
    rewrite waits_length. lia. }
  destruct (wait_answer j) as (c&Hc&Hdrop&Htake&Hnew); [lia|].
  pose proof (ri_waits _ _ _ Hinv) as Hw. rewrite Hdrop in Hw.
  pose proof (ri_filter _ _ _ Hinv) as Hfit. rewrite Hdrop in Hfit.
  assert (fi_pid c ∈ pids_of d) as Hin.
  { apply (ri_running _ _ _ Hinv); [|done]. rewrite take_ge by lia. destruct Hs as [Hp _].
    rewrite <- Hp. apply list_elem_of_fmap. exists c. split; [done|]. by eapply list_elem_of_lookup_2. }
  destruct (wait_slot_Ret d c _ (ri_numbered _ _ _ Hinv) Hw Hin) as (i&last&E1&E2&Hn1&Hi&Hsl&Hpid&Hsts).
  destruct (fits_collect _ _ _ Hfit) as (fl&Ef&Hfit'). cbn [drain_children].
  erewrite bind_Ret by exact E1. erewrite bind_Ret by exact E2. cbn [snd].
  erewrite bind_Ret by (apply (collect_Ret _ i last fl); [exact Hn1|exact Hi|exact Hsl|by rewrite Hsts]).
  match goal with |- context [drain_children m ?d1] => destruct (IH (S j) d1) as (d'&E&Hcol&Hfk) end; [|lia|].
  { destruct Hinv. unfold collected_state. split; try done; cbn -[take drop].
    - unfold filled. by rewrite length_fmap.
    - by rewrite Htake, fmap_app, ri_collected0, Hpid.
    - unfold pids_of. cbn -[take]. rewrite filled_pids. done.
    - unfold pids_of. cbn -[take]. rewrite filled_pids, Htake, fmap_app. intros p Hp [Hnc _]%not_elem_of_app.
      by apply ri_running0. }
  exists d'. split; [done|]. split; [done|]. by rewrite Hfk.
Qed.

Lemma round_end_next n d i :
  rounds_inv (S n) (waited (S n)) d -> (S n < R)%nat -> d_round d = Z.of_nat n -> d_available d = Z.of_nat (C - S n) ->
  d_next_slot d = Z.of_nat i -> pids_of d !! i = Some 0 -> ((S n < C)%nat -> i = S n) ->
  ((S n < C)%nat -> forall i, (S n <= i < C)%nat -> pids_of d !! i = Some 0) ->
  exists d', round_end d = Ret d' tt /\ round_start (S n) d'.
Proof.
  intros Hinv Hlt Hrd Hav Hnx Hfree Hi Hfresh. unfold round_end. erewrite bind_Ret by done. erewrite bind_Ret by done.
  cbn [d_round d_rounds set_d_round]. rewrite Hrd, (ri_rounds _ _ _ Hinv), wrap32_id by (unfold in_int; lia).
  replace (_ >=? _) with false by lia. eexists. split; [done|].
  assert (Z.of_nat n + 1 = Z.of_nat (S n)) as Hz by lia.
  split; [destruct Hinv; by split|exact Hz|exact Hav|by exists i|exact Hfresh].
Qed.

Lemma round_end_exit n d :
  rounds_inv (S n) (waited (S n)) d -> S n = R -> d_round d = Z.of_nat n -> d_available d = 0 ->
  exists d', round_end d = Halt d' (HExit 0) /\ d_collected d' = fi_pid <$> waits /\ d_forked d' = started R.
Proof.
  intros Hinv HnR Hrd Hav. unfold round_end. erewrite bind_Ret by done. erewrite bind_Ret by done.
  cbn [d_round d_rounds d_available d_concurrency set_d_round].
  rewrite Hrd, Hav, (ri_rounds _ _ _ Hinv), (ri_concurrency _ _ _ Hinv), wrap32_id by (unfold in_int; lia).
  replace (_ >=? _) with true by lia. cbn [when]. rewrite HnR in Hinv.
  replace (Z.to_nat (Z.of_nat C - 0 - 1)) with (C - 1)%nat by lia.
  match goal with |- context [bind _ _ ?d1] => destruct (drain_all (C - 1) (waited R) d1) as (d'&E&Hcol&Hfk) end.
  { destruct Hinv. by split. }
  { unfold waited. lia. }
  exists d'. erewrite bind_Ret by exact E. split; [done|]. split; [done|]. rewrite Hfk. apply Hinv.
Qed.

(** The remaining rounds. *)
Lemma forkall_rounds m n d :
  round_start n d -> (n + m = R)%nat -> (0 < m)%nat ->
  exists d', forkall_loop m d = Halt d' (HExit 0) /\ d_collected d' = fi_pid <$> waits /\ d_forked d' = started R.
Proof.
  revert n d. induction m as [|m IH]; intros n d Hst Hm Hpos; [lia|]. cbn [forkall_loop].
  destruct (do_fork_eq n d Hst ltac:(lia)) as (d1&E1&Hinv1&Hrd1&Hav1&Hnx1&Hfr1).
  destruct (rs_next _ _ Hst) as (i&Hi&_&Hin). rewrite Hi in Hnx1.
  destruct (decide (S n < C)%nat) as [HltC|HgeC].
  - rewrite Hin in Hnx1 by lia.
    destruct (after_fork_free n d1 (S n) Hinv1 HltC Hav1 Hnx1 Hrd1 eq_refl (Hfr1 HltC))
      as (d2&E2&Hinv2&Hrd2&Hav2&Hnx2&Hpd2).
    destruct (round_end_next n d2 (S n)) as (d3&E3&Hst3); try done; [lia| |by rewrite Hpd2|].
    { rewrite Hpd2. apply Hfr1; lia. }
    erewrite bind_Ret by (rewrite E1, E2; exact E3). apply (IH (S n)); [done|lia|lia].
  - replace (C - S n)%nat with 0%nat in Hav1 by lia.
    destruct (after_fork_wait n d1 Hinv1 ltac:(lia) Hav1 Hrd1) as (d2&i2&E2&Hinv2&Hrd2&Hav2&Hnx2&Hfree2).
    destruct (decide (S n = R)) as [HnR|HnR].
    + destruct (round_end_exit n d2 Hinv2 HnR Hrd2 Hav2) as (d3&E3&Hcol&Hfk).
      exists d3. erewrite bind_Halt by (rewrite E1, E2; exact E3). done.
    + assert (d_available d2 = Z.of_nat (C - S n)) as Hav3 by (rewrite Hav2; lia).
      destruct (round_end_next n d2 i2) as (d3&E3&Hst3); try done; try lia.
      erewrite bind_Ret by (rewrite E1, E2; exact E3). apply (IH (S n)); [done|lia|lia].
Qed.
End rounds.

(** The driver when the exploration begins. *)
Definition driver_start (C R : nat) (s : exploration) (k : Z) (fl : ipfilter) (pids : list Z) (waits : list finished)
  : driver :=
  mk_driver (ski_stats_init_all (Z.of_nat C)) None (Z.of_nat C) 0 0 (Z.of_nat R) (Z.of_nat C) k k fl
    (at_position s 0 0 0) pids waits [] [].

Lemma init_all_pids C : sl_pid <$> ski_stats_init_all (Z.of_nat C) = replicate C 0.
Proof.
  unfold ski_stats_init_all. rewrite <- list_fmap_compose. 
  replace C with (length (seqZ 0 (Z.of_nat C))) at 2 by (rewrite length_seqZ; lia).
  induction (seqZ 0 (Z.of_nat C)) as [|x l IH]; [done|]. cbn. by f_equal.
Qed.

Lemma start_round s C R k fl pids waits f :
  (0 < C)%nat -> 0 < range_n (x_input2 s) -> 0 < range_n (x_interleaving s) -> filter_fits fl waits ->
  round_start s f C R pids waits 0 (driver_start C R s k fl pids waits).
Proof.
  intros HC H2 H3 Hfl. assert (waited C 0 = 0%nat) as Hw by (unfold waited; lia).
  assert (length (ski_stats_init_all (Z.of_nat C)) = C) as Hlen.
  { unfold ski_stats_init_all. rewrite length_fmap, length_seqZ. lia. }
  assert (forall i, (i < C)%nat -> pids_of (driver_start C R s k fl pids waits) !! i = Some 0) as Hz.
  { intros i Hi. unfold pids_of. cbn. rewrite init_all_pids. by apply lookup_replicate_2. }
  split; try done.
  - rewrite Hw. split; try done.
    + unfold numbered. cbn. rewrite Hlen. unfold ski_stats_init_all. rewrite <- list_fmap_compose. apply list_fmap_id.
    + intros p. unfold pids_of. cbn. rewrite init_all_pids. intros ?%elem_of_replicate_inv. by left.
    + exists (x_input_number s), (x_seed s), (x_destination_dir s).
      unfold at_test, first_of, second_of, interleaving_of. cbn [Z.of_nat].
      rewrite !Z.div_0_l, !Z.mod_0_l by lia. by destruct (rg_from_file_pairs _).
  - cbn. f_equal. lia.
  - exists 0%nat. split; [done|]. split; [by apply Hz|done].
  - intros _ i Hi. apply Hz. lia.
Qed.

(** C28: the parent runs every test and collects every child.  Let the ranges
    give at least [R] tests, [C <= R] processes run at a time, and [wait] answer
    with running children that exited with a code other than 0.  Then the main
    loop forks exactly [R] children, the [k]-th for test [k] of the exploration;
    it never fails an assertion: the slot of the next child is free and the slot
    of every finished child is found; and it leaves with [exit(0)] after
    collecting all of them, in the order in which they finish. *)
Theorem ski_forkall_collects_all (s : exploration) (f : Z -> Z -> Z * Z) (dir : list Z) (C R : nat)
    (k : Z) (fl : ipfilter) (pids : list Z) (waits : list finished)
    (H1 : 0 < range_n (x_input1 s) <= MAX_SKI_INTPUT_INT_RANGE)
    (H2 : 0 < range_n (x_input2 s) <= MAX_SKI_INTPUT_INT_RANGE)
    (H3 : 0 < range_n (x_interleaving s) <= MAX_SKI_INTPUT_INT_RANGE)
    (Hf : forall i1 i2, 0 <= i1 < range_n (x_input1 s) -> 0 <= i2 < range_n (x_input2 s) ->
            next_inputs (at_position s i1 i2 0) = Val (f i1 i2))
    (Hdir : ski_input_env_load_str (x_output_dir s) = Val dir)
    (HC : (0 < C <= R)%nat) (HR : Z.of_nat R <= tests s) (HR31 : Z.of_nat R < 2 ^ 31)
    (Hpids : length pids = R) (Hnd : NoDup pids) (Hnz : 0 ∉ pids) (Hs : schedule_ok C pids waits)
    (Hfl : filter_fits fl waits) :
  exists d, forkall_loop R (driver_start C R s k fl pids waits) = Halt d (HExit 0) /\
    d_forked d = (fun i => (pids !!! i, (test_of s f (Z.of_nat i)).1)) <$> seq 0 R /\
    d_collected d = fi_pid <$> waits.
Proof.
  destruct (forkall_rounds s f dir H1 H2 H3 Hf Hdir C R pids waits HC HR HR31 Hpids Hnd Hnz Hs R 0
    (driver_start C R s k fl pids waits)) as (d&E&Hc&Hfk); [|done|lia|by exists d].
  apply start_round; [lia|lia|lia|done].
Qed.

(** Four tests, two processes at a time. *)
Definition sample_tests : exploration :=
  mk_exploration (mk_range [10; 20] 0 false false false) (mk_range [1] 0 false false false)
    (mk_range [7; 8] 0 false false false) [] [] (0, 0) 0 [] None false false.

Definition sample_finished (pid : Z) (ci : list Z) : finished :=
  mk_finished pid (Exited 4) (mk_stats (0, 0) [] [] 0 ci 0 0 100 5000).

Definition sample_waits : list finished :=
  [sample_finished 102 [4096]; sample_finished 101 [4096; 4100]; sample_finished 103 []; sample_finished 104 [64]].

Lemma ski_forkall_collects_all_witness :
  exists d, forkall_loop 4 (driver_start 2 4 sample_tests 500 (mk_filter [32] [32]) [101; 102; 103; 104] sample_waits) =
      Halt d (HExit 0) /\
    d_forked d = (fun i => ([101; 102; 103; 104] !!! i,
                            (test_of sample_tests (fun i1 _ => (if i1 =? 0 then 10 else 20, 1)) (Z.of_nat i)).1)) <$> seq 0 4 /\
    d_collected d = fi_pid <$> sample_waits.
Proof.
  apply (ski_forkall_collects_all sample_tests (fun i1 _ => (if i1 =? 0 then 10 else 20, 1)) []);
    try (apply (bool_decide_unpack _); by vm_compute).
  - intros i1 i2 Hi1 Hi2. change (0 <= i1 < 2) in Hi1. change (0 <= i2 < 1) in Hi2.
    assert (i2 = 0) as -> by lia. assert (i1 = 0 \/ i1 = 1) as [-> | ->] by lia; by vm_compute.
  - done.
  - split; [apply (bool_decide_unpack _); by vm_compute|].
    intros j c Hj. do 4 (destruct j as [|j]; [injection Hj as <-; split; [apply (bool_decide_unpack _); by vm_compute|]; by exists 4|]).
    done.
Defined.

(** With fewer tests than processes, the last child is not waited for: one test
    and two processes leave with [exit(0)] before the child is collected. *)
Lemma forkall_few_tests_uncollected :
  match forkall_loop 1 (driver_start 2 1 sample_tests 500 (mk_filter [32] [32]) [101] [sample_finished 101 []]) with
  | Halt d h => h = HExit 0 /\ fst <$> d_forked d = [101] /\ d_collected d = []
  | _ => False
  end.
Proof. by vm_compute. Qed.

(** ** The IP filter *)

Lemma cut_comment_id l : 35 ∉ l -> cut_comment l = l.
Proof.
  induction l as [|c l IH]; [done|]. intros [Hc Hl]%not_elem_of_cons. cbn.
  rewrite (proj2 (Z.eqb_neq _ _)) by congruence. by rewrite IH.
Qed.

Lemma cut_comment_hit l rest : 35 ∉ l -> cut_comment (l ++ 35 :: rest) = l.
Proof.
  induction l as [|c l IH]; [done|]. intros [Hc Hl]%not_elem_of_cons. cbn [app cut_comment].
  rewrite (proj2 (Z.eqb_neq _ _)) by congruence. by rewrite IH.
Qed.

(** A line of the file: an address and, possibly, a comment. *)
Definition filter_line (entry : Z * option (list Z)) : list Z :=
  match entry with
  | (eip, None) => print_hex eip ++ [10]
  | (eip, Some comment) => print_hex eip ++ [32; 35] ++ comment ++ [10]
  end.

Definition line_ok (entry : Z * option (list Z)) : Prop :=
  0 <= entry.1 < 2 ^ 32 /\
  match entry.2 with None => True | Some comment => (10 ∉ comment) /\ (length comment < 116)%nat end.

Lemma filter_line_read entry rest :
  line_ok entry ->
  exists buffer r, fgets 126 (filter_line entry ++ rest) = (buffer, rest) /\
    sscanf_x (cut_comment buffer) = Some (entry.1, r).
Proof.
  destruct entry as [eip comment]. intros [Hr Hc]. cbn [fst snd filter_line] in *.
  pose proof (print_hex_length eip) as Hl.
  assert ((10 ∉ print_hex eip) /\ (35 ∉ print_hex eip)) as [H10 H35] by (split; by apply print_hex_notin).
  destruct comment as [comment|].
  - destruct Hc as [Hnl Hlen]. exists ((print_hex eip ++ [32; 35] ++ comment) ++ [10]), [32]. split.
    + rewrite <- fgets_line with (n := 126%nat).
      * f_equal. rewrite <- !app_assoc. done.
      * rewrite !length_app. cbn [length]. lia.
      * rewrite !not_elem_of_app. split; [done|]. split; [|done]. apply (bool_decide_unpack _). by vm_compute.
    + rewrite <- !app_assoc. cbn [app]. change (print_hex eip ++ 32 :: 35 :: comment ++ [10]) with
        (print_hex eip ++ [32] ++ 35 :: comment ++ [10]). rewrite app_assoc, cut_comment_hit.
      * rewrite sscanf_x_print, u32_id by (done || by intros c s [= <- <-]). done.
      * rewrite not_elem_of_app. split; [done|]. apply (bool_decide_unpack _). by vm_compute.
  - exists (print_hex eip ++ [10]), [10]. split.
    + rewrite <- app_assoc. apply fgets_line; [lia|done].
    + rewrite cut_comment_id.
      * rewrite sscanf_x_print, u32_id by (done || by intros c s [= <- <-]). done.
      * rewrite not_elem_of_app. split; [done|]. apply (bool_decide_unpack _). by vm_compute.
Qed.

Lemma filter_line_cons entry rest : exists c s, filter_line entry ++ rest = c :: s.
Proof. destruct entry as [eip [comment|]]; cbn [filter_line]; destruct (print_hex eip); cbn; by eexists _, _. Qed.

Lemma loadfile_print entries fuel f :
  Forall line_ok entries -> (length entries <= fuel)%nat ->
  Z.of_nat (length (f_entries f) + length entries) <= MAX_IPFILTER_HASH ->
  loadfile_loop fuel (entries ≫= filter_line) f =
    Val (mk_filter (f_entries f ++ (wrap32 <$> entries.*1)) (f_backup f ++ (wrap32 <$> entries.*1))).
Proof.
  intros Hok. revert fuel f. induction Hok as [|entry entries He Hok IH]; intros fuel [en bk] Hf Hl; cbn [length] in *.
  { rewrite !app_nil_r. by destruct fuel. }
  destruct fuel as [|fuel]; [lia|]. rewrite bind_cons. cbn [loadfile_loop f_entries f_backup] in *.
  destruct (filter_line_cons entry (entries ≫= filter_line)) as (c&s&Es). rewrite Es, <- Es.
  destruct (filter_line_read entry (entries ≫= filter_line) He) as (buffer&r&-> & ->).
  rewrite (proj2 (Z.ltb_lt _ _)) by lia. cbn [eassert ebind].
  rewrite IH by (cbn [f_entries]; rewrite ?length_app; cbn [length]; lia).
  cbn [f_entries f_backup]. by rewrite !fmap_cons, <- !app_assoc.
Qed.

Lemma filter_lines_length entries : (length entries <= length (entries ≫= filter_line))%nat.
Proof.
  induction entries as [|entry entries IH]; [done|]. rewrite bind_cons.
  destruct (filter_line_cons entry []) as (c&s&Es). rewrite app_nil_r in Es. rewrite Es. cbn. rewrite length_app. lia.
Qed.

(** The statistics of several finished tests, one after the other. *)
Fixpoint learn (cis : list (list Z)) (f : ipfilter) : E ipfilter :=
  match cis with
  | [] => Val f
  | ci :: cis => f' <-? ski_eipfilter_add_stats ci f ;; learn cis f'
  end.

Lemma learn_Val cis f :
  Z.of_nat (length (f_entries f) + length (concat cis)) <= MAX_IPFILTER_HASH ->
  exists f', learn cis f = Val f' /\ f_backup f' = f_backup f /\
    forall e, e ∈ f_entries f' <-> e ∈ f_entries f \/ e ∈ wrap32 <$> concat cis.
Proof.
  revert f. induction cis as [|ci cis IH]; intros f Hn; cbn [concat learn] in *.
  { exists f. split; [done|]. split; [done|]. intros e. rewrite fmap_nil, elem_of_nil. tauto. }
  rewrite length_app in Hn.
  destruct (add_stats_Val ci f) as (f1&E1&Hb1&Hl1&Hm1); [lia|]. rewrite E1. cbn [ebind].
  destruct (IH f1) as (f2&E2&Hb2&Hm2); [lia|]. exists f2. split; [done|]. split; [congruence|].
  intros e. rewrite Hm2, Hm1, fmap_app, elem_of_app. tauto.
Qed.

(** C29: the IP filter holds what it was given.  A file of addresses, with or
    without comments, loads; the communication instructions of any finished tests
    are then added to the loaded addresses, and an instruction passes the filter
    exactly when it is one of these or the filter is empty; going to a new input
    restores exactly the loaded filter. *)
Theorem ski_ipfilter_learns_and_restores (entries : list (Z * option (list Z))) (cis : list (list Z))
    (Hok : Forall line_ok entries)
    (Hn : Z.of_nat (length entries + length (concat cis)) <= MAX_IPFILTER_HASH) :
  exists f0 f,
    ski_ipfilter_loadfile_hash (Some (entries ≫= filter_line)) (mk_filter [] []) = Val f0 /\
    learn cis f0 = Val f /\
    (forall e, ski_ipfilter_check f e = 1 <->
       (entries = [] /\ concat cis = []) \/ e ∈ wrap32 <$> entries.*1 \/ e ∈ wrap32 <$> concat cis) /\
    ski_eipfilter_count_entries f0 = Z.of_nat (length entries) /\
    ski_ipfilter_restore f = f0.
Proof.
  set (f0 := mk_filter (wrap32 <$> entries.*1) (wrap32 <$> entries.*1)).
  destruct (learn_Val cis f0) as (f&E&Hb&Hm); [cbn; rewrite !length_fmap; lia|].
  exists f0, f. split; [|split; [done|split; [|split]]].
  - cbn [ski_ipfilter_loadfile_hash]. rewrite loadfile_print; [done|done| |cbn; lia].
    pose proof (filter_lines_length entries). lia.
  - intros e. cbn [f_entries f0] in Hm. unfold ski_ipfilter_check, ski_eipfilter_count_entries.
    destruct (Z.eqb_spec (Z.of_nat (length (f_entries f))) 0) as [H0|H0].
    + split; [intros _; left|done]. destruct (f_entries f) as [|x l]; [|done].
      destruct entries as [|en entries]; [|exfalso; destruct (Hm (wrap32 en.1)) as [_ H]; apply (not_elem_of_nil (wrap32 en.1)), H; do 2 left].
      destruct (concat cis) as [|x l]; [done|]. exfalso. destruct (Hm (wrap32 x)) as [_ H].
      apply (not_elem_of_nil (wrap32 x)), H. right. left.
    + case_bool_decide as He; [split; [intros _; right; by apply Hm|done]|].
      split; [done|]. intros [[-> Hc]|H]; [|by apply Hm in H]. exfalso. apply H0. rewrite Hc in Hm.
      destruct (f_entries f) as [|x l]; [done|]. destruct (Hm x) as [H _].
      destruct H as [H|H]; [left| |]; by apply not_elem_of_nil in H.
  - unfold ski_eipfilter_count_entries. cbn. by rewrite !length_fmap.
  - unfold ski_ipfilter_restore. by rewrite Hb.
Qed.

Lemma ski_ipfilter_learns_and_restores_witness :
  let entries := [(3222274049, None); (64, Some [105; 100; 108; 101])] in
  let cis := [[4096; 64]; [-5]] in
  exists f0 f,
    ski_ipfilter_loadfile_hash (Some (entries ≫= filter_line)) (mk_filter [] []) = Val f0 /\
    learn cis f0 = Val f /\
    (forall e, ski_ipfilter_check f e = 1 <->
       (entries = [] /\ concat cis = []) \/ e ∈ wrap32 <$> entries.*1 \/ e ∈ wrap32 <$> concat cis) /\
    ski_eipfilter_count_entries f0 = Z.of_nat (length entries) /\
    ski_ipfilter_restore f = f0.
Proof.
  intros entries cis. refine (ski_ipfilter_learns_and_restores entries cis _ _).
  - repeat constructor; cbn; try lia. apply (bool_decide_unpack _). by vm_compute.
  - apply (bool_decide_unpack _). by vm_compute.
Defined.

(** Blank lines and lines with a comment only stop the process, although
    comments are cut off. *)
Lemma ipfilter_comment_line_asserts :
  ski_ipfilter_loadfile_hash (Some [35; 120; 10]) (mk_filter [] []) = Fail HAssert /\
  ski_ipfilter_loadfile_hash (Some [10]) (mk_filter [] []) = Fail HAssert.
Proof. by vm_compute. Qed.
