(* ===== verification/Forkall.v ===== *)
(** * Forkall.v -- forking a process with all its threads

    Models [vmm/forkall-coop.c].  A fork copies only the calling thread; SKI's
    children need the emulator's other threads as well.  Every thread runs on a
    stack at a known address; when the master asks for a fork, each thread saves
    its stack and registers and hangs, and the child recreates the threads from
    what they saved.

    The threads run concurrently.  A [proc] is the state of a process: the
    variables of the file, the stacks in memory, the threads of the operating
    system and the position of the master.  An [action] is one atomic part of
    the code of one thread (the part between two accesses to shared variables
    that another thread may interleave with, or a section under
    [forkall_mutex]); a run is any sequence of actions.  An action that is not
    enabled leaves the process as it is.

    The answers of the operating system (thread identifiers) and what a thread
    computes outside this file are arguments of the actions.  The contents of a
    stack and of a [jmp_buf] are the types [stk] and [regs]; [stk0] is a fresh
    mapping. *)

From stdpp Require Import gmap.
From S2P Require Import Prelude.

Definition FORKALL_THREAD_STACK_BEGIN : Z := 0x5f06a0000000.
Definition FORKALL_THREAD_STACK_SIZE : Z := 0x20000.
Definition FORKALL_THREAD_STACK_DISTANCE : Z := 0x20000 + 0x1000.
Definition FORKALL_MAX_THREADS : Z := 10.

Section forkall.
Context {stk regs : Type} (stk0 : stk).

(** ** State *)

Record forkall_thread := mk_ft {
  ft_tid_original : Z;
  ft_tid_restore : Z;
  ft_thread_original : Z;
  ft_thread_restore : Z;
  ft_env : option regs;
  ft_stack : stk;
  ft_seq : Z;
  ft_stack_min : Z;
  ft_stack_max : Z
}.

(** An entry cleared by [memset]; a [jmp_buf] that [setjmp] has not filled is
    [None]. *)
Definition ft_zero : forkall_thread := mk_ft 0 0 0 0 None stk0 0 0 0.

(** What a thread executes next: its start routine, code outside this file, a
    part of [ski_forkall_slave], or a part of [ski_forkall_thread_restore] with
    its entry. *)
Inductive pc :=
  | Created
  | Running
  | SlaveSave
  | SlaveSetjmp (t : nat)
  | SlaveReport
  | Hanging
  | RestoreStart (t : nat)
  | RestoreCopy (t : nat)
  | RestoreJump (t : nat).

(** A thread of the operating system; [h_regs] are its registers as seen by the
    caller of a function of this file. *)
Record host := mk_host {
  h_tid : Z;
  h_base : Z;
  h_regs : regs;
  h_pc : pc
}.

(** The thread of an entry of the table: its number is reserved, its entry is
    filled, it runs; or it does not exist since the fork.  The creator is [None]
    for the master. *)
Inductive slot :=
  | Reserved (creator : option nat)
  | Filled (creator : option nat)
  | Live (h : host)
  | Gone.

Inductive master_pc :=
  | MRunning
  | MWait
  | MFork
  | MRestore (i : nat).

(** A return of [ski_forkall_slave] with [did_fork] set, and what its caller
    finds: its stack and its registers. *)
Record slave_return := mk_return {
  sr_thread : nat;
  sr_is_child : Z;
  sr_stack : option stk;
  sr_regs : regs
}.

Record proc := mk_proc {
  forkall_threads : list forkall_thread;
  thread_count : Z;
  forkall_forking : Z;
  forkall_threads_done : Z;
  ski_forkall_is_child : Z;
  ski_forkall_parent_simulate_child : Z;
  p_memory : gmap Z stk;
  p_slots : list slot;
  p_master : master_pc;
  p_returns : list slave_return
}.

Definition set_threads f (p : proc) :=
  mk_proc (f (forkall_threads p)) (thread_count p) (forkall_forking p) (forkall_threads_done p) (ski_forkall_is_child p)
    (ski_forkall_parent_simulate_child p) (p_memory p) (p_slots p) (p_master p) (p_returns p).
Definition set_count z (p : proc) :=
  mk_proc (forkall_threads p) z (forkall_forking p) (forkall_threads_done p) (ski_forkall_is_child p)
    (ski_forkall_parent_simulate_child p) (p_memory p) (p_slots p) (p_master p) (p_returns p).
Definition set_forking z (p : proc) :=
  mk_proc (forkall_threads p) (thread_count p) z (forkall_threads_done p) (ski_forkall_is_child p)
    (ski_forkall_parent_simulate_child p) (p_memory p) (p_slots p) (p_master p) (p_returns p).
Definition set_done z (p : proc) :=
  mk_proc (forkall_threads p) (thread_count p) (forkall_forking p) z (ski_forkall_is_child p)
    (ski_forkall_parent_simulate_child p) (p_memory p) (p_slots p) (p_master p) (p_returns p).
Definition set_memory f (p : proc) :=
  mk_proc (forkall_threads p) (thread_count p) (forkall_forking p) (forkall_threads_done p) (ski_forkall_is_child p)
    (ski_forkall_parent_simulate_child p) (f (p_memory p)) (p_slots p) (p_master p) (p_returns p).
Definition set_slots f (p : proc) :=
  mk_proc (forkall_threads p) (thread_count p) (forkall_forking p) (forkall_threads_done p) (ski_forkall_is_child p)
    (ski_forkall_parent_simulate_child p) (p_memory p) (f (p_slots p)) (p_master p) (p_returns p).
Definition set_master z (p : proc) :=
  mk_proc (forkall_threads p) (thread_count p) (forkall_forking p) (forkall_threads_done p) (ski_forkall_is_child p)
    (ski_forkall_parent_simulate_child p) (p_memory p) (p_slots p) z (p_returns p).
Definition add_return r (p : proc) :=
  mk_proc (forkall_threads p) (thread_count p) (forkall_forking p) (forkall_threads_done p) (ski_forkall_is_child p)
    (ski_forkall_parent_simulate_child p) (p_memory p) (p_slots p) (p_master p) (p_returns p ++ [r]).

Definition set_pc c (h : host) : host := mk_host (h_tid h) (h_base h) (h_regs h) c.
Definition set_regs r (h : host) : host := mk_host (h_tid h) (h_base h) r (h_pc h).
Definition set_tid_original z (t : forkall_thread) : forkall_thread :=
  mk_ft z (ft_tid_restore t) (ft_thread_original t) (ft_thread_restore t) (ft_env t) (ft_stack t) (ft_seq t) (ft_stack_min t) (ft_stack_max t).
Definition set_tid_restore z (t : forkall_thread) : forkall_thread :=
  mk_ft (ft_tid_original t) z (ft_thread_original t) (ft_thread_restore t) (ft_env t) (ft_stack t) (ft_seq t) (ft_stack_min t) (ft_stack_max t).
Definition set_thread_original z (t : forkall_thread) : forkall_thread :=
  mk_ft (ft_tid_original t) (ft_tid_restore t) z (ft_thread_restore t) (ft_env t) (ft_stack t) (ft_seq t) (ft_stack_min t) (ft_stack_max t).
Definition set_thread_restore z (t : forkall_thread) : forkall_thread :=
  mk_ft (ft_tid_original t) (ft_tid_restore t) (ft_thread_original t) z (ft_env t) (ft_stack t) (ft_seq t) (ft_stack_min t) (ft_stack_max t).
Definition set_env r (t : forkall_thread) : forkall_thread :=
  mk_ft (ft_tid_original t) (ft_tid_restore t) (ft_thread_original t) (ft_thread_restore t) (Some r) (ft_stack t) (ft_seq t) (ft_stack_min t) (ft_stack_max t).
Definition set_stack s (t : forkall_thread) : forkall_thread :=
  mk_ft (ft_tid_original t) (ft_tid_restore t) (ft_thread_original t) (ft_thread_restore t) (ft_env t) s (ft_seq t) (ft_stack_min t) (ft_stack_max t).

(** Continue slot [i] as the thread [h]. *)
Definition set_host (i : nat) (h : host) : proc -> proc := set_slots <[i := Live h]>.

(** ** The table of threads *)

(** The entries in use. *)
Definition used (p : proc) : list forkall_thread := take (Z.to_nat (thread_count p)) (forkall_threads p).

Definition ski_thread_find (tid : Z) (p : proc) : option nat :=
  fst <$> list_find (fun t => ft_tid_original t = tid) (used p).

(** The section of [ski_forkall_thread_new] under the mutex. *)
Definition thread_new_reserve (creator : option nat) : M proc unit := fun p =>
  let p := set_count (thread_count p + 1) p in
  if thread_count p <? FORKALL_MAX_THREADS then Ret (set_slots (fun l => l ++ [Reserved creator]) p) tt
  else Halt p HAssert.

(** Where the stack of a thread begins. *)
Definition stack_base (seq : Z) : Z := FORKALL_THREAD_STACK_BEGIN + seq * FORKALL_THREAD_STACK_DISTANCE.

(** The rest of [ski_forkall_thread_new]: the entry [seq] is cleared and its
    basic fields are set. *)
Definition ski_forkall_thread_new (seq : Z) : forkall_thread :=
  mk_ft (-1) (-1) 0 0 None stk0 seq (stack_base seq) (stack_base seq + FORKALL_THREAD_STACK_SIZE).

(** [ski_create_thread_custom_stack]: a fresh mapping at the stack's address and
    a thread on it.  The operating system has room for both. *)
Definition ski_create_thread_custom_stack (i : nat) (t : forkall_thread) (tid : Z) (r : regs) (start : pc) (p : proc) : proc :=
  let base := stack_base (ft_seq t) in
  set_host i (mk_host tid base r start) (set_memory <[base := stk0]> p).

(** [ski_forkall_pthread_create] with the entry [j] from [ski_forkall_thread_new]. *)
Definition ski_forkall_pthread_create (j : nat) (t : forkall_thread) (tid pthread : Z) (r : regs) (p : proc) : proc :=
  ski_create_thread_custom_stack j t tid r Created (set_threads (alter (set_thread_original pthread) j) p).

(** The thread finds its entry by the address of a local variable. *)
Definition ski_forkall_thread_add_self_tid (i : nat) (h : host) (addr : Z) : M proc unit := fun p =>
  match list_find (fun t => ft_stack_min t < addr < ft_stack_max t) (used p) with
  | Some (k, _) => Ret (set_host i (set_pc Running h) (set_threads (alter (set_tid_original (h_tid h)) k) p)) tt
  | None => Halt p HAssert
  end.

(** ** The slaves *)

(** The caller of [ski_forkall_slave] continues with [did_fork] = 1. *)
Definition return_forked (i : nat) (h : host) (is_child : Z) (p : proc) : proc :=
  add_return (mk_return i is_child (p_memory p !! h_base h) (h_regs h)) (set_host i (set_pc Running h) p).

(** The call of [ski_forkall_slave]; without a request [did_fork] is 0. *)
Definition ski_forkall_slave (i : nat) (h : host) : M proc unit := fun p =>
  if (forkall_forking p =? 0) || negb (ski_forkall_parent_simulate_child p =? 0) then Ret p tt
  else Ret (set_host i (set_pc SlaveSave h) p) tt.

(** Find the own entry and copy the stack. *)
Definition slave_save (i : nat) (h : host) : M proc unit := fun p =>
  match ski_thread_find (h_tid h) p with
  | None => Halt p HAssert
  | Some k =>
      match forkall_threads p !! k with
      | None => Halt p HUndef
      | Some t =>
          match p_memory p !! ft_stack_min t with
          | None => Halt p HUndef
          | Some s => Ret (set_host i (set_pc (SlaveSetjmp k) h) (set_threads (alter (set_stack s) k) p)) tt
          end
      end
  end.

(** [setjmp] and the test behind it. *)
Definition slave_setjmp (i k : nat) (h : host) : M proc unit := fun p =>
  let p := set_threads (alter (set_env (h_regs h)) k) p in
  if forkall_forking p =? 0 then Ret (return_forked i h 1 p) tt
  else Ret (set_host i (set_pc SlaveReport h) p) tt.

Definition slave_report (i : nat) (h : host) : M proc unit := fun p =>
  Ret (set_host i (set_pc Hanging h) (set_done (wrap32 (forkall_threads_done p + 1)) p)) tt.

(** The endless loop. *)
Definition slave_hang (i : nat) (h : host) : M proc unit := fun p =>
  if ski_forkall_parent_simulate_child p =? 0 then Ret p tt else Ret (return_forked i h 1 p) tt.

(** ** Restoring a thread in the child *)

Definition restore_start (i k : nat) (h : host) : M proc unit := fun p =>
  Ret (set_host i (set_pc (RestoreCopy k) h) (set_threads (alter (set_tid_restore (h_tid h)) k) p)) tt.

(** The copy of the saved stack over the current one, on a temporary stack. *)
Definition restore_copy (i k : nat) (h : host) : M proc unit := fun p =>
  match forkall_threads p !! k with
  | Some t => Ret (set_host i (set_pc (RestoreJump k) h) (set_memory <[ft_stack_min t := ft_stack t]> p)) tt
  | None => Halt p HUndef
  end.

(** [ski_forkall_thread_restore_registers]: the [longjmp] continues behind
    [setjmp] in [ski_forkall_slave] with [restoring] = 1. *)
Definition ski_forkall_thread_restore_registers (i k : nat) (h : host) : M proc unit := fun p =>
  match forkall_threads p !! k with
  | Some t =>
      match ft_env t with
      | Some r => Ret (return_forked i (set_regs r h) 1 p) tt
      | None => Halt p HUndef
      end
  | None => Halt p HUndef
  end.

(** The next part of what thread [i] executes in this file. *)
Definition thread_step (i : nat) (h : host) : M proc unit :=
  match h_pc h with
  | Created | Running => ret tt
  | SlaveSave => slave_save i h
  | SlaveSetjmp k => slave_setjmp i k h
  | SlaveReport => slave_report i h
  | Hanging => slave_hang i h
  | RestoreStart k => restore_start i k h
  | RestoreCopy k => restore_copy i k h
  | RestoreJump k => ski_forkall_thread_restore_registers i k h
  end.

(** ** The master *)

(** The begin of [ski_forkall_master]. *)
Definition ski_forkall_master (p : proc) : proc := set_master MWait (set_forking 1 p).

(** One round of the waiting loop. *)
Definition master_wait (p : proc) : proc :=
  if forkall_threads_done p =? thread_count p then set_master MFork p else p.

(** The child right after [fork]: the memory of the parent, but none of its other
    threads. *)
Definition fork_child (p : proc) : proc :=
  mk_proc (forkall_threads p) (thread_count p) 0 (forkall_threads_done p) 1 (ski_forkall_parent_simulate_child p)
    (p_memory p) ((fun _ => Gone) <$> p_slots p) (MRestore 0) [].

(** One round of the child's loop. *)
Definition master_restore (k : nat) (tid pthread : Z) (r : regs) : M proc unit := fun p =>
  if Z.of_nat k <? thread_count p then
    match forkall_threads p !! k with
    | Some t =>
        Ret (set_master (MRestore (S k))
               (ski_create_thread_custom_stack k t tid r (RestoreStart k)
                  (set_threads (alter (set_thread_restore pthread) k) p))) tt
    | None => Halt p HUndef
    end
  else Ret (set_master MRunning p) tt.

(** Who receives the signal of [ski_forkall_pthread_kill]. *)
Inductive kill :=
  | PthreadKill (thread : Z)
  | TidKill (tid : Z).

Definition ski_forkall_pthread_kill (thread : Z) (p : proc) : E kill :=
  if ski_forkall_is_child p =? 0 then Val (PthreadKill thread)
  else match list_find (fun t => ft_thread_original t = thread) (used p) with
       | Some (_, t) => if ft_tid_restore t =? 0 then Fail HAssert else Val (TidKill (ft_tid_restore t))
       | None => Fail HAssert
       end.

(** ** Runs *)

Inductive action :=
  | AWork (i : nat) (s : stk) (r : regs)
  | ANew (creator : option nat)
  | AFill (j : nat)
  | ASpawn (j : nat) (tid pthread : Z) (r : regs)
  | ASelf (i : nat) (addr : Z)
  | ASlave (i : nat)
  | AStep (i : nat)
  | AMaster
  | AWait
  | AFork
  | ARestore (tid pthread : Z) (r : regs).

(** A new identifier of the operating system. *)
Definition fresh_tid (tid : Z) (p : proc) : bool :=
  (0 <? tid) && forallb (fun sl => match sl with Live h => negb (h_tid h =? tid) | _ => true end) (p_slots p).
Definition fresh_pthread (pthread : Z) (p : proc) : bool :=
  (0 <? pthread) && forallb (fun t => negb (ft_thread_original t =? pthread)) (used p).

Definition is_running (h : host) : bool := match h_pc h with Running => true | _ => false end.

(** The thread (or the master) executes code outside this file and is not inside
    the creation of another thread. *)
Definition is_creator (w : option nat) (sl : slot) : bool :=
  match sl with Reserved c | Filled c => bool_decide (c = w) | _ => false end.
Definition is_free (w : option nat) (p : proc) : bool :=
  match w with
  | None => match p_master p with MRunning => true | _ => false end
  | Some i => match p_slots p !! i with Some (Live h) => is_running h | _ => false end
  end && forallb (fun sl => negb (is_creator w sl)) (p_slots p).

(** Run [k] on thread [i], if it exists. *)
Definition on_host (i : nat) (k : host -> M proc unit) : M proc unit := fun p =>
  match p_slots p !! i with Some (Live h) => k h p | _ => Ret p tt end.

Definition run_action (a : action) : M proc unit := fun p =>
  match a with
  | AWork i s r =>
      if is_free (Some i) p
      then on_host i (fun h => modify (fun p => set_host i (set_regs r h) (set_memory <[h_base h := s]> p))) p
      else Ret p tt
  | ANew w => if is_free w p then thread_new_reserve w p else Ret p tt
  | AFill j =>
      match p_slots p !! j with
      | Some (Reserved w) =>
          Ret (set_slots <[j := Filled w]> (set_threads <[j := ski_forkall_thread_new (Z.of_nat j)]> p)) tt
      | _ => Ret p tt
      end
  | ASpawn j tid pthread r =>
      match p_slots p !! j, forkall_threads p !! j with
      | Some (Filled _), Some t =>
          if fresh_tid tid p && fresh_pthread pthread p
          then Ret (ski_forkall_pthread_create j t tid pthread r p) tt
          else Ret p tt
      | _, _ => Ret p tt
      end
  | ASelf i addr =>
      on_host i (fun h => match h_pc h with
                          | Created =>
                              if (h_base h <? addr) && (addr <? h_base h + FORKALL_THREAD_STACK_SIZE)
                              then ski_forkall_thread_add_self_tid i h addr else ret tt
                          | _ => ret tt
                          end) p
  | ASlave i => if is_free (Some i) p then on_host i (ski_forkall_slave i) p else Ret p tt
  | AStep i => on_host i (thread_step i) p
  | AMaster => if is_free None p && (ski_forkall_is_child p =? 0) then Ret (ski_forkall_master p) tt else Ret p tt
  | AWait => match p_master p with MWait => Ret (master_wait p) tt | _ => Ret p tt end
  | AFork => match p_master p with MFork => Ret (set_master MRunning p) tt | _ => Ret p tt end
  | ARestore tid pthread r =>
      match p_master p with
      | MRestore k => if fresh_tid tid p then master_restore k tid pthread r p else Ret p tt
      | _ => Ret p tt
      end
  end.

Fixpoint run (l : list action) : M proc unit :=
  match l with [] => ret tt | a :: l => run_action a ;;; run l end.

(** [ski_forkall_initialize], before any thread is created. *)
Definition ski_forkall_initialize : proc :=
  mk_proc (replicate (Z.to_nat FORKALL_MAX_THREADS) ft_zero) 0 0 0 0 0 ∅ [] MRunning [].

(** ** The parent *)

Definition is_hanging (sl : slot) : Prop :=
  match sl with Live h => h_pc h = Hanging | _ => False end.
#[local] Instance pc_eq_dec : EqDecision pc.
Proof. solve_decision. Defined.
#[local] Instance is_hanging_dec sl : Decision (is_hanging sl).
Proof. destruct sl; cbn; apply _. Defined.

(** The thread is between its first test of [forkall_forking] and its return. *)
Definition in_slave (c : pc) : bool :=
  match c with SlaveSave | SlaveSetjmp _ | SlaveReport | Hanging => true | _ => false end.

(** What a thread of the parent has saved so far. *)
Definition saved (i : nat) (mem : gmap Z stk) (h : host) (t : forkall_thread) : Prop :=
  match h_pc h with
  | Created | Running | SlaveSave => True
  | SlaveSetjmp k => k = i /\ mem !! h_base h = Some (ft_stack t)
  | SlaveReport | Hanging => mem !! h_base h = Some (ft_stack t) /\ ft_env t = Some (h_regs h)
  | RestoreStart _ | RestoreCopy _ | RestoreJump _ => False
  end.

(** An entry of the table and its thread. *)
Record thread_ok (i : nat) (mem : gmap Z stk) (h : host) (t : forkall_thread) : Prop := {
  ok_seq : ft_seq t = Z.of_nat i;
  ok_min : ft_stack_min t = stack_base (Z.of_nat i);
  ok_max : ft_stack_max t = stack_base (Z.of_nat i) + FORKALL_THREAD_STACK_SIZE;
  ok_base : h_base h = stack_base (Z.of_nat i);
  ok_tid : 0 < h_tid h;
  ok_pthread : 0 < ft_thread_original t;
  ok_tid_original : ft_tid_original t = match h_pc h with Created => -1 | _ => h_tid h end;
  ok_mapped : is_Some (mem !! h_base h);
  ok_saved : saved i mem h t
}.

Definition slot_ok (i : nat) (mem : gmap Z stk) (sl : slot) (t : forkall_thread) : Prop :=
  match sl with
  | Reserved _ => t = ft_zero
  | Filled _ => t = ski_forkall_thread_new (Z.of_nat i)
  | Live h => thread_ok i mem h t
  | Gone => False
  end.

(** The threads of two slots have different identifiers. *)
Definition distinct_ids (sl sl' : slot) (t t' : forkall_thread) : Prop :=
  match sl, sl' with
  | Live h, Live h' => h_tid h <> h_tid h' /\ ft_thread_original t <> ft_thread_original t'
  | _, _ => True
  end.

Record parent_inv (p : proc) : Prop := {
  pi_child : ski_forkall_is_child p = 0;
  pi_simulate : ski_forkall_parent_simulate_child p = 0;
  pi_forking : forkall_forking p = 0 \/ forkall_forking p = 1;
  pi_length : length (forkall_threads p) = Z.to_nat FORKALL_MAX_THREADS;
  pi_count : thread_count p = Z.of_nat (length (p_slots p));
  pi_limit : thread_count p < FORKALL_MAX_THREADS;
  pi_slots : forall i sl, p_slots p !! i = Some sl ->
    exists t, forkall_threads p !! i = Some t /\ slot_ok i (p_memory p) sl t;
  pi_unused : forall i t, (length (p_slots p) <= i)%nat -> forkall_threads p !! i = Some t -> t = ft_zero;
  pi_distinct : forall i j sl sl' t t', i <> j -> p_slots p !! i = Some sl -> p_slots p !! j = Some sl' ->
    forkall_threads p !! i = Some t -> forkall_threads p !! j = Some t' -> distinct_ids sl sl' t t';
  pi_done : forkall_threads_done p = Z.of_nat (length (filter is_hanging (p_slots p)));
  pi_slave : forall i h, p_slots p !! i = Some (Live h) -> in_slave (h_pc h) = true -> forkall_forking p = 1;
  pi_master : match p_master p with
              | MRunning => True
              | MWait => forkall_forking p = 1
              | MFork => forkall_forking p = 1 /\ forkall_threads_done p = thread_count p
              | MRestore _ => False
              end
}.

(** *** Stacks and identifiers *)

Lemma stack_base_inj i j : stack_base i = stack_base j -> i = j.
Proof. unfold stack_base, FORKALL_THREAD_STACK_DISTANCE. lia. Qed.

(** Stacks do not overlap: an address in a stack determines the thread. *)
Lemma stack_disjoint i j addr :
  stack_base i < addr < stack_base i + FORKALL_THREAD_STACK_SIZE ->
  stack_base j < addr < stack_base j + FORKALL_THREAD_STACK_SIZE -> i = j.
Proof. unfold stack_base, FORKALL_THREAD_STACK_DISTANCE, FORKALL_THREAD_STACK_SIZE. lia. Qed.

Lemma list_find_unique {A} (P : A -> Prop) `{forall x, Decision (P x)} (l : list A) i x :
  l !! i = Some x -> P x -> (forall j y, l !! j = Some y -> P y -> j = i) -> list_find P l = Some (i, x).
Proof.
  intros Hi HP Hu. apply list_find_Some. split_and!; [done..|]. intros j y Hj Hlt HPy.
  specialize (Hu j y Hj HPy). lia.
Qed.

Lemma lookup_used p i t : used p !! i = Some t <-> forkall_threads p !! i = Some t /\ (i < Z.to_nat (thread_count p))%nat.
Proof. unfold used. rewrite lookup_take_Some. done. Qed.

Section parent.
Context (p : proc) (Hp : parent_inv p).

Lemma used_slot i t :
  used p !! i = Some t -> exists sl, p_slots p !! i = Some sl /\ slot_ok i (p_memory p) sl t.
Proof.
  rewrite lookup_used, (pi_count _ Hp), Nat2Z.id. intros [Ht Hi].
  destruct (lookup_lt_is_Some_2 _ _ Hi) as [sl Hsl]. destruct (pi_slots _ Hp i sl Hsl) as (t'&Ht'&Hok).
  exists sl. rewrite Ht in Ht'. by injection Ht' as <-.
Qed.

Lemma slot_used i sl :
  p_slots p !! i = Some sl -> exists t, used p !! i = Some t /\ forkall_threads p !! i = Some t /\ slot_ok i (p_memory p) sl t.
Proof.
  intros Hi. destruct (pi_slots _ Hp i sl Hi) as (t&Ht&Hok). exists t. split_and!; [|done..].
  apply lookup_used. split; [done|]. rewrite (pi_count _ Hp), Nat2Z.id. by eapply lookup_lt_Some.
Qed.

(** Every thread finds its own entry, by its identifier ... *)
Lemma ski_thread_find_own i h :
  p_slots p !! i = Some (Live h) -> h_pc h <> Created -> ski_thread_find (h_tid h) p = Some i.
Proof.
  intros Hi Hc. destruct (slot_used i _ Hi) as (t&Hu&Ht&Hok). unfold ski_thread_find.
  rewrite (list_find_unique _ _ i t); [done|done| |].
  - rewrite (ok_tid_original _ _ _ _ Hok). by destruct (h_pc h).
  - intros j t' Hj Ht'. destruct (used_slot j t' Hj) as (sl'&Hsl'&Hok').
    pose proof (ok_tid _ _ _ _ Hok). destruct sl' as [w|w|h'|]; cbn in Hok'; try subst t'; cbn in Ht'; [lia|lia| |done].
    destruct (decide (j = i)) as [|Hne]; [done|]. apply lookup_used in Hj as [Hj _].
    destruct (pi_distinct _ Hp j i _ _ t' t Hne Hsl' Hi Hj Ht) as [Hd _].
    rewrite (ok_tid_original _ _ _ _ Hok') in Ht'. destruct (h_pc h'); try lia.
Qed.

(** ... and by an address on its stack. *)
Lemma find_own_stack i h addr :
  p_slots p !! i = Some (Live h) -> h_base h < addr < h_base h + FORKALL_THREAD_STACK_SIZE ->
  exists t, list_find (fun t => ft_stack_min t < addr < ft_stack_max t) (used p) = Some (i, t).
Proof.
  intros Hi Ha. destruct (slot_used i _ Hi) as (t&Hu&Ht&Hok). exists t.
  rewrite (ok_base _ _ _ _ Hok) in Ha. apply list_find_unique; [done| |].
  - by rewrite (ok_min _ _ _ _ Hok), (ok_max _ _ _ _ Hok).
  - intros j t' Hj Ht'. destruct (used_slot j t' Hj) as (sl'&Hsl'&Hok'). apply Nat2Z.inj.
    destruct sl' as [w|w|h'|]; cbn in Hok'; [subst t'; cbn in Ht'; lia| | |done].
    + subst t'. by apply (stack_disjoint _ _ addr).
    + rewrite (ok_min _ _ _ _ Hok'), (ok_max _ _ _ _ Hok') in Ht'. by apply (stack_disjoint _ _ addr).
Qed.

(** Once as many threads have reported as there are, all of them hang. *)
Lemma all_hanging :
  forkall_threads_done p = thread_count p -> Forall is_hanging (p_slots p).
Proof.
  rewrite (pi_done _ Hp), (pi_count _ Hp). intros E%Nat2Z.inj.
  assert (filter is_hanging (p_slots p) = p_slots p) as Ef.
  { clear Hp. revert E. generalize (p_slots p) as l. intros l. induction l as [|sl l IH]; [done|].
    rewrite filter_cons. destruct (decide _); cbn; intros E.
    - f_equal. apply IH. lia.
    - pose proof (length_filter is_hanging l). lia. }
  rewrite <- Ef. apply Forall_forall. intros sl Hsl. by apply list_elem_of_filter in Hsl as [].
Qed.
End parent.

(** *** Every action keeps the invariant *)

Lemma length_filter_insert {A} (P : A -> Prop) `{forall x, Decision (P x)} (l : list A) i x y :
  l !! i = Some x ->
  Z.of_nat (length (filter P (<[i := y]> l))) =
  Z.of_nat (length (filter P l)) + b2z (bool_decide (P y)) - b2z (bool_decide (P x)).
Proof.
  intros Hi. pose proof (lookup_lt_Some _ _ _ Hi). rewrite <- (take_drop_middle l i x Hi) at 2.
  rewrite insert_take_drop by done. rewrite !filter_app, !length_app, !filter_cons.
  repeat case_bool_decide; repeat case_decide; try done; cbn [length b2z]; lia.
Qed.

Lemma distinct_ids_sym sl sl' t t' : distinct_ids sl sl' t t' -> distinct_ids sl' sl t' t.
Proof. destruct sl, sl'; cbn; try done. intros []; by split. Qed.

(** Slot [i] and its entry change, in memory only its stack. *)
Lemma parent_update i sl sl' t' p p' :
  parent_inv p -> p_slots p !! i = Some sl ->
  (thread_count p', forkall_forking p', ski_forkall_is_child p', ski_forkall_parent_simulate_child p', p_master p') =
  (thread_count p, forkall_forking p, ski_forkall_is_child p, ski_forkall_parent_simulate_child p, p_master p) ->
  p_slots p' = <[i := sl']> (p_slots p) ->
  length (forkall_threads p') = length (forkall_threads p) ->
  forkall_threads p' !! i = Some t' -> (forall j, j <> i -> forkall_threads p' !! j = forkall_threads p !! j) ->
  (forall b, b <> stack_base (Z.of_nat i) -> p_memory p' !! b = p_memory p !! b) ->
  slot_ok i (p_memory p') sl' t' ->
  (forall j slj tj, j <> i -> p_slots p !! j = Some slj -> forkall_threads p !! j = Some tj -> distinct_ids sl' slj t' tj) ->
  forkall_threads_done p' = forkall_threads_done p + b2z (bool_decide (is_hanging sl')) - b2z (bool_decide (is_hanging sl)) ->
  (forall h, sl' = Live h -> in_slave (h_pc h) = true -> forkall_forking p = 1) ->
  (p_master p = MFork -> forkall_threads_done p' = forkall_threads_done p) ->
  parent_inv p'.
Proof.
  intros [] Hi [= Ec Ef Ech Esim Em] Esl Elen Ht' Hts Hmem Hok Hd Edone Hsl Hfork.
  pose proof (lookup_lt_Some _ _ _ Hi) as Hlt.
  split; rewrite ?Ec, ?Ef, ?Ech, ?Esim, ?Em, ?Elen, ?Esl, ?length_insert; try done.
  - intros j slj Hj. apply list_lookup_insert_Some in Hj as [(<-&<-&_)|(Hne&Hj)]; [by exists t'|].
    destruct (pi_slots0 j slj Hj) as (tj&Htj&Hokj). exists tj. rewrite Hts by done. split; [done|].
    destruct slj as [w|w|h|]; cbn in *; try done. destruct Hokj.
    assert (h_base h <> stack_base (Z.of_nat i)) as Hb.
    { rewrite ok_base0. intros ->%stack_base_inj%Nat2Z.inj. done. }
    split; rewrite ?Hmem by done; try done. unfold saved in *. by rewrite Hmem.
  - intros j tj Hj Htj. rewrite Hts in Htj by lia. by eapply pi_unused0.
  - intros j k slj slk tj tk Hne Hj Hk Htj Htk.
    apply list_lookup_insert_Some in Hj as [(<-&<-&_)|(Hnj&Hj)].
    + rewrite list_lookup_insert_ne in Hk by done. rewrite Hts in Htk by done.
      replace tj with t' by congruence. by apply (Hd k).
    + rewrite Hts in Htj by done. apply list_lookup_insert_Some in Hk as [(<-&<-&_)|(Hnk&Hk)].
      * replace tk with t' by congruence. apply distinct_ids_sym. by apply (Hd j).
      * rewrite Hts in Htk by done. by apply (pi_distinct0 j k).
  - rewrite (length_filter_insert _ _ _ _ _ Hi). lia.
  - intros j h Hj. apply list_lookup_insert_Some in Hj as [(<-&->&_)|(_&Hj)]; [by apply Hsl|by eapply pi_slave0].
  - destruct (p_master p); try done. destruct pi_master0. split; [done|]. rewrite Hfork; done.
Qed.

(** The thread of slot [i] keeps its identifiers and continues. *)
Lemma parent_continue i h h' t f s p :
  parent_inv p -> p_slots p !! i = Some (Live h) -> forkall_threads p !! i = Some t ->
  (h_tid h', h_base h', ft_thread_original (f t)) = (h_tid h, h_base h, ft_thread_original t) ->
  thread_ok i (<[h_base h := s]> (p_memory p)) h' (f t) ->
  h_pc h' <> Hanging -> h_pc h <> Hanging ->
  (in_slave (h_pc h') = true -> forkall_forking p = 1) ->
  parent_inv (set_host i h' (set_threads (alter f i) (set_memory <[h_base h := s]> p))).
Proof.
  intros Hp Hi Ht [= Etid Eb Eo] Hok Hh' Hh Hs. destruct (pi_slots _ Hp i _ Hi) as (t0&Ht0&Hok0).
  rewrite Ht in Ht0. injection Ht0 as <-.
  eapply (parent_update i (Live h) (Live h') (f t) p); try done.
  - cbn. by rewrite length_alter.
  - cbn. by rewrite list_lookup_alter_eq, Ht.
  - intros j Hj. cbn. by rewrite list_lookup_alter_ne.
  - intros b Hb. cbn. rewrite lookup_insert_ne; [done|]. rewrite (ok_base _ _ _ _ Hok0). done.
  - intros j slj tj Hj Hslj Htj. pose proof (pi_distinct _ Hp i j _ _ t tj (not_eq_sym Hj) Hi Hslj Ht Htj) as Hd.
    destruct slj; cbn in *; try done. by rewrite Etid, Eo.
  - cbn. rewrite !bool_decide_eq_false_2 by done. cbn. lia.
  - intros h0 [= <-]. done.
Qed.

Lemma set_memory_same b s p : p_memory p !! b = Some s -> set_memory <[b := s]> p = p.
Proof. destruct p. unfold set_memory. cbn. intros H. by rewrite insert_id. Qed.

Lemma set_threads_same i p : set_threads (alter id i) p = p.
Proof.
  destruct p. unfold set_threads. cbn. f_equal. apply list_eq. intros j.
  destruct (decide (j = i)) as [->|]; [|by rewrite list_lookup_alter_ne].
  rewrite list_lookup_alter_eq. by destruct (_ !! i).
Qed.

(** As [parent_continue], when the stack does not change. *)
Lemma parent_continue_same i h h' t f p :
  parent_inv p -> p_slots p !! i = Some (Live h) -> forkall_threads p !! i = Some t ->
  (h_tid h', h_base h', ft_thread_original (f t)) = (h_tid h, h_base h, ft_thread_original t) ->
  thread_ok i (p_memory p) h' (f t) ->
  h_pc h' <> Hanging -> h_pc h <> Hanging ->
  (in_slave (h_pc h') = true -> forkall_forking p = 1) ->
  parent_inv (set_host i h' (set_threads (alter f i) p)).
Proof.
  intros Hp Hi Ht E Hok. injection E as Etid Eb Eo. destruct (ok_mapped _ _ _ _ Hok) as [s Hs]. rewrite Eb in Hs. intros.
  rewrite <- (set_memory_same _ _ _ Hs). apply (parent_continue i h h' t f s p); try done; [by rewrite Etid, Eb, Eo|].
  by rewrite insert_id.
Qed.

Lemma slot_host i h p :
  parent_inv p -> p_slots p !! i = Some (Live h) ->
  exists t, forkall_threads p !! i = Some t /\ thread_ok i (p_memory p) h t.
Proof. intros Hp Hi. by destruct (pi_slots _ Hp i _ Hi) as (t&?&?); exists t. Qed.

Lemma is_free_running i p :
  is_free (Some i) p = true -> exists h, p_slots p !! i = Some (Live h) /\ h_pc h = Running.
Proof.
  unfold is_free, is_running. intros [H _]%andb_prop. destruct (p_slots p !! i) as [[| |h|]|]; try done.
  exists h. by destruct (h_pc h).
Qed.

(** A result of the parent's code; only the limit on threads stops it. *)
Definition parent_result (a : action) (r : R proc unit) : Prop :=
  match r with
  | Ret p _ => parent_inv p
  | Jump _ => False
  | Halt p h => h = HAssert /\ (exists w, a = ANew w) /\ thread_count p = FORKALL_MAX_THREADS
  end.

Lemma parent_work i s r p : parent_inv p -> parent_result (AWork i s r) (run_action (AWork i s r) p).
Proof.
  intros Hp. cbn. destruct (is_free (Some i) p) eqn:Ef; [|done]. apply is_free_running in Ef as (h&Hi&Hc).
  destruct (slot_host i h p Hp Hi) as (t&Ht&Hok). unfold on_host, modify. rewrite Hi. cbn.
  rewrite <- (set_threads_same i (set_memory _ p)).
  apply (parent_continue i h _ t id s p); try done; cbn; rewrite ?Hc; try done.
  destruct Hok. rewrite Hc in *. split; cbn; rewrite ?Hc; try done.
  - rewrite lookup_insert_eq. by eexists.
  - unfold saved. cbn. by rewrite Hc.
Qed.

Lemma parent_self i addr p : parent_inv p -> parent_result (ASelf i addr) (run_action (ASelf i addr) p).
Proof.
  intros Hp. cbn. unfold on_host. destruct (p_slots p !! i) as [[| |h|]|] eqn:Hi; try done.
  destruct (h_pc h) eqn:Hc; try done. destruct (_ && _) eqn:Ea; [|done].
  apply andb_prop in Ea as [Ea%Z.ltb_lt Eb%Z.ltb_lt].
  destruct (find_own_stack p Hp i h addr Hi (conj Ea Eb)) as [t0 Hfind]. unfold ski_forkall_thread_add_self_tid.
  rewrite Hfind. destruct (slot_host i h p Hp Hi) as (t&Ht&Hok). cbn.
  eapply (parent_continue_same i h _ t); try done; cbn; rewrite ?Hc; try done.
  destruct Hok. split; try done.
Qed.

Lemma parent_slave i p : parent_inv p -> parent_result (ASlave i) (run_action (ASlave i) p).
Proof.
  intros Hp. cbn. destruct (is_free (Some i) p) eqn:Ef; [|done]. apply is_free_running in Ef as (h&Hi&Hc).
  destruct (slot_host i h p Hp Hi) as (t&Ht&Hok). unfold on_host. rewrite Hi. unfold ski_forkall_slave.
  rewrite (pi_simulate _ Hp). destruct (Z.eqb_spec (forkall_forking p) 0) as [|Hf]; [done|]. cbn.
  rewrite <- (set_threads_same i p). eapply (parent_continue_same i h _ t id); try done; cbn; rewrite ?Hc; try done.
  - destruct Hok. rewrite Hc in *. by split.
  - intros _. destruct (pi_forking _ Hp); [done|]. done.
Qed.

Lemma parent_save i h p :
  parent_inv p -> p_slots p !! i = Some (Live h) -> h_pc h = SlaveSave -> parent_result (AStep i) (slave_save i h p).
Proof.
  intros Hp Hi Hc. destruct (slot_host i h p Hp Hi) as (t&Ht&Hok). unfold slave_save.
  rewrite (ski_thread_find_own p Hp i h Hi) by (by rewrite Hc). rewrite Ht. destruct (ok_mapped _ _ _ _ Hok) as [s Hs].
  rewrite (ok_min _ _ _ _ Hok), <- (ok_base _ _ _ _ Hok), Hs. cbn.
  eapply (parent_continue_same i h _ t); try done; cbn; rewrite ?Hc; try done.
  - destruct Hok. rewrite Hc in *. split; try done.
  - intros _. eapply (pi_slave _ Hp); [done|]. by rewrite Hc.
Qed.

Lemma parent_setjmp i k h p :
  parent_inv p -> p_slots p !! i = Some (Live h) -> h_pc h = SlaveSetjmp k -> parent_result (AStep i) (slave_setjmp i k h p).
Proof.
  intros Hp Hi Hc. destruct (slot_host i h p Hp Hi) as (t&Ht&Hok). unfold slave_setjmp. cbn.
  assert (forkall_forking p = 1) as -> by (eapply (pi_slave _ Hp); [done|by rewrite Hc]). cbn.
  destruct Hok. unfold saved in ok_saved0. rewrite Hc in *. destruct ok_saved0 as [-> Hs].
  eapply (parent_continue_same i h _ t); try done; cbn; rewrite ?Hc; try done.
  intros _. eapply (pi_slave _ Hp); [done|]. by rewrite Hc.
Qed.

Lemma parent_report i h p :
  parent_inv p -> p_slots p !! i = Some (Live h) -> h_pc h = SlaveReport -> parent_result (AStep i) (slave_report i h p).
Proof.
  intros Hp Hi Hc. destruct (slot_host i h p Hp Hi) as (t&Ht&Hok). unfold slave_report. cbn.
  pose proof (length_filter is_hanging (p_slots p)). pose proof (pi_done _ Hp). pose proof (pi_count _ Hp).
  pose proof (pi_limit _ Hp). unfold FORKALL_MAX_THREADS in *.
  eapply (parent_update i (Live h) (Live (set_pc Hanging h)) t p); try done.
  - cbn. destruct Hok. unfold saved in ok_saved0. rewrite Hc in *. by split.
  - intros j slj tj Hj Hslj Htj. pose proof (pi_distinct _ Hp i j _ _ t tj (not_eq_sym Hj) Hi Hslj Ht Htj) as Hd.
    by destruct slj.
  - cbn. rewrite wrap32_id by (unfold in_int; lia). rewrite bool_decide_eq_true_2 by done.
    rewrite bool_decide_eq_false_2 by (by rewrite Hc). cbn. lia.
  - intros h0 [= <-] _. eapply (pi_slave _ Hp); [done|]. by rewrite Hc.
  - intros Em. pose proof (pi_master _ Hp) as Hm. rewrite Em in Hm. destruct Hm as [_ Hm].
    pose proof (all_hanging p Hp Hm) as Hall. rewrite Forall_lookup in Hall. specialize (Hall i _ Hi). cbn in Hall. congruence.
Qed.

Lemma parent_step i p : parent_inv p -> parent_result (AStep i) (run_action (AStep i) p).
Proof.
  intros Hp. cbn. unfold on_host. destruct (p_slots p !! i) as [[| |h|]|] eqn:Hi; try done. unfold thread_step.
  destruct (slot_host i h p Hp Hi) as (t&Ht&Hok). destruct (h_pc h) as [| | |k| | |k|k|k] eqn:Hc; try done.
  - by apply parent_save.
  - by apply parent_setjmp.
  - by apply parent_report.
  - unfold slave_hang. by rewrite (pi_simulate _ Hp).
  - destruct Hok. unfold saved in *. by rewrite Hc in *.
  - destruct Hok. unfold saved in *. by rewrite Hc in *.
  - destruct Hok. unfold saved in *. by rewrite Hc in *.
Qed.

(** While the master is about to fork no thread creates another. *)
Lemma is_free_not_fork w p : parent_inv p -> is_free w p = true -> p_master p <> MFork.
Proof.
  intros Hp Hf Em. destruct w as [i|]; [|unfold is_free in Hf; by rewrite Em in Hf].
  apply is_free_running in Hf as (h&Hi&Hc). pose proof (pi_master _ Hp) as Hm. rewrite Em in Hm. destruct Hm as [_ Hm].
  pose proof (all_hanging p Hp Hm) as Hall. rewrite Forall_lookup in Hall. specialize (Hall i _ Hi). cbn in Hall. congruence.
Qed.

Lemma parent_new w p : parent_inv p -> parent_result (ANew w) (run_action (ANew w) p).
Proof.
  intros Hp. cbn. destruct (is_free w p) eqn:Ef; [|done]. pose proof (is_free_not_fork w p Hp Ef) as Hm.
  unfold thread_new_reserve. cbn. destruct (Z.ltb_spec (thread_count p + 1) FORKALL_MAX_THREADS) as [Hlt|Hge]; cbn.
  2:{ split_and!; [done|by eexists|]. pose proof (pi_limit _ Hp). cbn. lia. }
  destruct Hp. split; cbn; rewrite ?length_app; cbn; try done; try lia.
  - intros i sl Hi. apply lookup_snoc_Some in Hi as [[_ Hi]|[-> <-]]; [by apply pi_slots0|].
    destruct (lookup_lt_is_Some_2 (forkall_threads p) (length (p_slots p))) as [t Ht]; [unfold FORKALL_MAX_THREADS in *; lia|].
    exists t. split; [done|]. by eapply pi_unused0.
  - intros i t Hi. apply pi_unused0. lia.
  - intros i j sl sl' t t' Hne Hi Hj. apply lookup_snoc_Some in Hi as [[_ Hi]|[-> <-]]; [|done].
    apply lookup_snoc_Some in Hj as [[_ Hj]|[-> <-]]; [by apply pi_distinct0|by destruct sl].
  - rewrite filter_app, length_app, filter_cons_False by tauto. cbn. lia.
  - intros i h Hi. apply lookup_snoc_Some in Hi as [[_ Hi]|[_ ?]]; [by eapply pi_slave0|done].
  - by destruct (p_master p).
Qed.

Lemma parent_fill j p : parent_inv p -> parent_result (AFill j) (run_action (AFill j) p).
Proof.
  intros Hp. cbn. destruct (p_slots p !! j) as [[w| | |]|] eqn:Hj; try done. cbn.
  destruct (pi_slots _ Hp j _ Hj) as (t&Ht&Hok). pose proof (lookup_lt_Some _ _ _ Ht).
  eapply (parent_update j (Reserved w) (Filled w) _ p); try done; cbn.
  - by rewrite length_insert.
  - by apply list_lookup_insert_eq.
  - intros k Hk. by apply list_lookup_insert_ne.
  - cbn. lia.
Qed.

Lemma fresh_tid_spec tid p i h : fresh_tid tid p = true -> p_slots p !! i = Some (Live h) -> 0 < tid /\ tid <> h_tid h.
Proof.
  unfold fresh_tid. intros [Hp%Z.ltb_lt Hf]%andb_prop Hi. split; [done|]. rewrite forallb_forall in Hf.
  specialize (Hf (Live h)). rewrite <- list_elem_of_In in Hf. intros ->. apply list_elem_of_lookup_2 in Hi.
  specialize (Hf Hi). cbn in Hf. by rewrite Z.eqb_refl in Hf.
Qed.

Lemma fresh_pthread_spec pthread p i t : fresh_pthread pthread p = true -> used p !! i = Some t -> pthread <> ft_thread_original t.
Proof.
  unfold fresh_pthread. intros [_ Hf]%andb_prop Hi ->. rewrite forallb_forall in Hf.
  specialize (Hf t). rewrite <- list_elem_of_In in Hf. apply list_elem_of_lookup_2 in Hi.
  specialize (Hf Hi). by rewrite Z.eqb_refl in Hf.
Qed.

Lemma parent_spawn j tid pthread r p : parent_inv p -> parent_result (ASpawn j tid pthread r) (run_action (ASpawn j tid pthread r) p).
Proof.
  intros Hp. cbn. destruct (p_slots p !! j) as [[|w| |]|] eqn:Hj; try done.
  destruct (pi_slots _ Hp j _ Hj) as (t&Ht&Hok). cbn in Hok. subst t. rewrite Ht.
  destruct (_ && _) eqn:Ef; [|done]. apply andb_prop in Ef as [Htid Hpth]. cbn.
  eapply (parent_update j (Filled w) _ _ p); try done; cbn.
  - by rewrite length_alter.
  - by rewrite list_lookup_alter_eq, Ht.
  - intros k Hk. by apply list_lookup_alter_ne.
  - intros b Hb. by apply lookup_insert_ne.
  - unfold fresh_tid, fresh_pthread in *. apply andb_prop in Htid as [Htid%Z.ltb_lt _]. apply andb_prop in Hpth as [Hpth%Z.ltb_lt _].
    split; try done. cbn. rewrite lookup_insert_eq. by eexists.
  - intros k slk tk Hk Hslk Htk. destruct slk as [| |h|]; try done. cbn. split; [by eapply fresh_tid_spec|].
    apply (fresh_pthread_spec _ p k tk); [done|]. destruct (slot_used p Hp k _ Hslk) as (t&Hu&Ht'&_). congruence.
  - rewrite !bool_decide_eq_false_2 by done. cbn. lia.
  - by intros h [= <-].
Qed.

Lemma parent_master a p :
  match a with AMaster | AWait | AFork | ARestore _ _ _ => True | _ => False end ->
  parent_inv p -> parent_result a (run_action a p).
Proof.
  intros Ha Hp. pose proof (pi_master _ Hp) as Hm. destruct a; try done; cbn; clear Ha.
  - destruct (is_free None p && _); [|done]. destruct Hp. split; try done. by right.
  - destruct (p_master p) eqn:Em; try done. unfold master_wait. cbn.
    destruct (Z.eqb_spec (forkall_threads_done p) (thread_count p)); [|done]. destruct Hp. split; try done.
  - destruct (p_master p) eqn:Em; try done. destruct Hp. split; try done.
  - destruct (p_master p) eqn:Em; try done.
Qed.

Lemma parent_action a p : parent_inv p -> parent_result a (run_action a p).
Proof.
  intros Hp. destruct a; [by apply parent_work|by apply parent_new|by apply parent_fill|by apply parent_spawn|
    by apply parent_self|by apply parent_slave|by apply parent_step|by apply parent_master..].
Qed.

Lemma parent_initial : parent_inv ski_forkall_initialize.
Proof.
  split; try done; cbn; [by left|].
  intros i t _ Hi. change (replicate 10 ft_zero !! i = Some t) in Hi. by apply lookup_replicate in Hi as [-> _].
Qed.

Lemma parent_run l p :
  parent_inv p ->
  match run l p with
  | Ret p' _ => parent_inv p'
  | Jump _ => False
  | Halt p' h => h = HAssert /\ thread_count p' = FORKALL_MAX_THREADS
  end.
Proof.
  revert p. induction l as [|a l IH]; intros p Hp; [done|]. cbn. unfold bind.
  pose proof (parent_action a p Hp) as H. destruct (run_action a p) as [p' []|p'|p' h]; cbn in H; [by apply IH|done|].
  by destruct H as (?&_&?).
Qed.

(** The thread of slot [i] hangs in [ski_forkall_slave], and its entry holds its
    stack and its registers. *)
Definition snapshot_of (p : proc) (i : nat) (h : host) (t : forkall_thread) : Prop :=
  p_slots p !! i = Some (Live h) /\ forkall_threads p !! i = Some t /\
  h_pc h = Hanging /\ p_memory p !! h_base h = Some (ft_stack t) /\ ft_env t = Some (h_regs h).

Lemma fork_snapshot p i :
  parent_inv p -> p_master p = MFork -> (i < length (p_slots p))%nat ->
  exists h t, snapshot_of p i h t /\ thread_ok i (p_memory p) h t.
Proof.
  intros Hp Em Hi. pose proof (pi_master _ Hp) as Hm. rewrite Em in Hm. destruct Hm as [_ Hm].
  pose proof (all_hanging p Hp Hm) as Hall. rewrite Forall_lookup in Hall.
  destruct (lookup_lt_is_Some_2 _ _ Hi) as [sl Hsl]. specialize (Hall i sl Hsl).
  destruct sl as [| |h|]; try done. cbn in Hall. destruct (slot_host i h p Hp Hsl) as (t&Ht&Hok).
  exists h, t. split; [|done]. pose proof (ok_saved _ _ _ _ Hok) as Hs. unfold saved in Hs. rewrite Hall in Hs. done.
Qed.

(** ** The child *)

Definition is_done (sl : slot) : Prop := match sl with Live h => h_pc h = Running | _ => False end.

(** All threads are recreated and have returned from [ski_forkall_slave]. *)
Definition restored (c : proc) : Prop := p_master c = MRunning /\ Forall is_done (p_slots c).

(** How many threads the master has recreated. *)
Definition created (c : proc) : nat := match p_master c with MRestore k => k | _ => length (p_slots c) end.

(** The entry still holds what its thread saved before the fork. *)
Definition keeps (t t' : forkall_thread) : Prop :=
  (ft_stack t', ft_env t', ft_seq t', ft_stack_min t', ft_thread_original t') =
  (ft_stack t, ft_env t, ft_seq t, ft_stack_min t, ft_thread_original t).

Definition child_slot (i : nat) (c : proc) (sl : slot) (t : forkall_thread) : Prop :=
  match sl with
  | Gone => (created c <= i)%nat
  | Live h =>
      (i < created c)%nat /\ h_base h = ft_stack_min t /\ 0 < h_tid h /\
      match h_pc h with
      | Running => ft_tid_restore t = h_tid h
      | RestoreStart k => k = i
      | RestoreCopy k => k = i /\ ft_tid_restore t = h_tid h
      | RestoreJump k => k = i /\ ft_tid_restore t = h_tid h /\ p_memory c !! h_base h = Some (ft_stack t)
      | _ => False
      end
  | _ => False
  end.

(** A return in the child continues the thread where it was in the parent. *)
Definition return_ok (p : proc) (r : slave_return) : Prop :=
  exists h, p_slots p !! sr_thread r = Some (Live h) /\
    r = mk_return (sr_thread r) 1 (p_memory p !! h_base h) (h_regs h).

Record child_inv (p c : proc) : Prop := {
  ci_count : thread_count c = thread_count p;
  ci_forking : forkall_forking c = 0;
  ci_child : ski_forkall_is_child c = 1;
  ci_length : length (p_slots c) = length (p_slots p);
  ci_slots : forall i sl, p_slots c !! i = Some sl ->
    exists t, forkall_threads c !! i = Some t /\ child_slot i c sl t;
  ci_keeps : forall i t, used p !! i = Some t -> exists t', forkall_threads c !! i = Some t' /\ keeps t t';
  ci_returns : Forall (return_ok p) (p_returns c);
  ci_once : NoDup (sr_thread <$> p_returns c);
  ci_returned : forall i, i ∈ sr_thread <$> p_returns c <-> exists sl, p_slots c !! i = Some sl /\ is_done sl;
  ci_master : p_master c = MRunning \/ exists k, p_master c = MRestore k /\ (k <= length (p_slots p))%nat
}.

Section child.
Context (p : proc) (Hp : parent_inv p) (Hfork : p_master p = MFork).

Lemma child_initial : child_inv p (fork_child p).
Proof.
  split; cbn; try done.
  - by rewrite length_fmap.
  - intros i sl Hi. rewrite list_lookup_fmap in Hi. destruct (p_slots p !! i) as [sl0|] eqn:E; [|done]. injection Hi as <-.
    destruct (pi_slots _ Hp i sl0 E) as (t&Ht&_). exists t. split; [done|]. cbn. lia.
  - intros i t [Ht _]%lookup_used. by exists t.
  - apply NoDup_nil_2.
  - intros i. split; [set_solver|]. intros (sl&Hi&Hd). rewrite list_lookup_fmap in Hi. by destruct (p_slots p !! i); simplify_eq/=.
  - right. exists 0%nat. split; [done|lia].
Qed.

(** The entry of slot [i] in the child. *)
Lemma child_entry c i sl :
  child_inv p c -> p_slots c !! i = Some sl ->
  exists h t t', snapshot_of p i h t /\ thread_ok i (p_memory p) h t /\ forkall_threads c !! i = Some t' /\ keeps t t' /\
    child_slot i c sl t'.
Proof.
  intros Hc Hi. assert (i < length (p_slots p))%nat as Hlt.
  { rewrite <- (ci_length _ _ Hc). by eapply lookup_lt_Some. }
  destruct (fork_snapshot p i Hp Hfork Hlt) as (h&t&Hs&Hok). pose proof Hs as (Hsl&Ht&_).
  destruct (slot_used p Hp i _ Hsl) as (t0&Hu&Ht0&_). replace t0 with t in * by congruence.
  destruct (ci_keeps _ _ Hc i t Hu) as (t'&Ht'&Hk). destruct (ci_slots _ _ Hc i sl Hi) as (t1&Ht1&Hcs).
  replace t1 with t' in * by congruence. by exists h, t, t'.
Qed.

Lemma child_stack c i sl t :
  child_inv p c -> p_slots c !! i = Some sl -> forkall_threads c !! i = Some t -> ft_stack_min t = stack_base (Z.of_nat i).
Proof.
  intros Hc Hi Ht. destruct (child_entry c i sl Hc Hi) as (h&t0&t'&_&Hok&Ht'&Hk&_). rewrite Ht in Ht'. injection Ht' as <-.
  injection Hk as _ _ _ -> _. by apply (ok_min _ _ _ _ Hok).
Qed.

(** Slot [i] and its entry change; a thread that becomes done has returned. *)
Lemma child_update i sl sl' t t' c c' :
  child_inv p c -> p_slots c !! i = Some sl -> forkall_threads c !! i = Some t ->
  (thread_count c', forkall_forking c', ski_forkall_is_child c') = (thread_count c, forkall_forking c, ski_forkall_is_child c) ->
  p_slots c' = <[i := sl']> (p_slots c) ->
  forkall_threads c' !! i = Some t' -> keeps t t' -> (forall j, j <> i -> forkall_threads c' !! j = forkall_threads c !! j) ->
  (forall b, b <> stack_base (Z.of_nat i) -> p_memory c' !! b = p_memory c !! b) ->
  p_master c' = p_master c \/ p_master c = MRestore i /\ p_master c' = MRestore (S i) ->
  (created c' = created c \/ created c' = S i -> child_slot i c' sl' t') ->
  (p_returns c' = p_returns c /\ (is_done sl' <-> is_done sl)) \/
  (exists r, p_returns c' = p_returns c ++ [r] /\ sr_thread r = i /\ return_ok p r /\ ~ is_done sl /\ is_done sl') ->
  child_inv p c'.
Proof.
  intros Hc Hi Ht [= Ecnt Ef Ech] Esl Ht' Hk Hts Hmem Hm Hok Hret. pose proof (lookup_lt_Some _ _ _ Hi) as Hlt.
  assert (created c' = created c \/ created c = i /\ created c' = S i) as Hcr.
  { destruct Hm as [Hm|[Hm Hm']]; [left|right]; unfold created; rewrite ?Hm, ?Hm', ?Esl, ?length_insert; done. }
  pose proof Hc as []. split; rewrite ?Ecnt, ?Ef, ?Ech, ?Esl, ?length_insert; try done.
  - intros j slj Hj. apply list_lookup_insert_Some in Hj as [(<-&<-&_)|(Hne&Hj)]; [exists t'; split; [done|apply Hok; tauto]|].
    destruct (ci_slots0 j slj Hj) as (tj&Htj&Hokj). exists tj. rewrite Hts by done. split; [done|].
    pose proof (child_stack c j slj tj Hc Hj Htj) as Hb.
    destruct slj as [| |h|]; cbn in *; try done; [|lia]. destruct Hokj as (Hj1&Hbase&Htid&Hpc).
    split_and!; [lia|done..|]. rewrite Hmem; [done|]. rewrite Hbase, Hb. intros ?%stack_base_inj. lia.
  - intros j tj Hj. destruct (ci_keeps0 j tj Hj) as (tj'&Htj'&Hkj). destruct (decide (j = i)) as [->|Hne].
    + exists t'. split; [done|]. replace tj' with t in * by congruence. unfold keeps in *. congruence.
    + exists tj'. by rewrite Hts.
  - destruct Hret as [[-> _]|(r&->&_&Hr&_)]; [done|]. apply Forall_app_2; [done|by constructor].
  - destruct Hret as [[-> _]|(r&->&Hri&Hr&Hn&_)]; [done|]. rewrite fmap_app. apply NoDup_app. split_and!; [done| |apply NoDup_singleton].
    intros j Hj [= ->]%list_elem_of_singleton. rewrite Hri in Hj. apply ci_returned0 in Hj as (sl0&Hsl0&Hd).
    congruence.
  - intros j. destruct (decide (j = i)) as [->|Hne].
    + rewrite list_lookup_insert_eq by done. destruct Hret as [[-> Hd]|(r&->&Hri&Hr&Hn&Hd)].
      * rewrite ci_returned0. split; [intros (sl0&Hsl0&Hd0)|intros (sl0&[= <-]&Hd0)]; eexists; (split; [done|]); [|tauto].
        replace sl0 with sl in Hd0 by congruence. tauto.
      * split; [intros _; by exists sl'|intros _]. rewrite fmap_app. apply elem_of_app. right. cbn. rewrite Hri. by left.
    + rewrite list_lookup_insert_ne by done. rewrite <- ci_returned0. destruct Hret as [[-> _]|(r&->&Hri&_)]; [done|].
      rewrite fmap_app, elem_of_app. cbn. rewrite list_elem_of_singleton, Hri. split; [by intros [|]|by left].
  - destruct Hm as [->|[Hm Hm']]; [done|]. right. exists (S i). split; [done|]. lia.
Qed.

Lemma child_restore_start i k h c :
  child_inv p c -> p_slots c !! i = Some (Live h) -> h_pc h = RestoreStart k ->
  exists c', restore_start i k h c = Ret c' tt /\ child_inv p c'.
Proof.
  intros Hc Hi Hpc. destruct (child_entry c i _ Hc Hi) as (h0&t0&t&_&Hok&Ht&Hk&Hcr&Hb&Htid&Hs). rewrite Hpc in Hs. subst k.
  eexists. split; [reflexivity|].
  eapply (child_update i (Live h) _ t (set_tid_restore (h_tid h) t) c); try done; cbn.
  - by rewrite list_lookup_alter_eq, Ht.
  - intros j Hj. by apply list_lookup_alter_ne.
  - by left.
  - intros Hcr'. split_and!; try done. lia.
  - left. split; [done|]. cbn. by rewrite Hpc.
Qed.

Lemma child_restore_copy i k h c :
  child_inv p c -> p_slots c !! i = Some (Live h) -> h_pc h = RestoreCopy k ->
  exists c', restore_copy i k h c = Ret c' tt /\ child_inv p c'.
Proof.
  intros Hc Hi Hpc. destruct (child_entry c i _ Hc Hi) as (h0&t0&t&_&Hok&Ht&Hk&Hcr&Hb&Htid&Hs). rewrite Hpc in Hs.
  destruct Hs as [-> Hs]. unfold restore_copy. rewrite Ht. eexists. split; [reflexivity|].
  eapply (child_update i (Live h) _ t t c); try done; cbn.
  - intros b Hne. apply lookup_insert_ne. by rewrite (child_stack c i _ t Hc Hi Ht).
  - by left.
  - intros Hcr'. split_and!; try done; [lia|]. by rewrite Hb, lookup_insert_eq.
  - left. split; [done|]. cbn. by rewrite Hpc.
Qed.

(** The thread continues in the child with the stack and the registers it has in
    the parent. *)
Lemma child_restore_jump i k h c :
  child_inv p c -> p_slots c !! i = Some (Live h) -> h_pc h = RestoreJump k ->
  exists c', ski_forkall_thread_restore_registers i k h c = Ret c' tt /\ child_inv p c'.
Proof.
  intros Hc Hi Hpc. destruct (child_entry c i _ Hc Hi) as (h0&t0&t&Hsn&Hok&Ht&Hk&Hcr&Hb&Htid&Hs). rewrite Hpc in Hs.
  destruct Hs as (->&Hs&Hmem). destruct Hsn as (Hsl&_&_&Hm0&He0). pose proof Hk as [= Ek1 Ek2 Ek3 Ek4 Ek5].
  unfold ski_forkall_thread_restore_registers. rewrite Ht, Ek2, He0. eexists. split; [reflexivity|].
  eapply (child_update i (Live h) _ t t c); try done; cbn.
  - by left.
  - intros Hcr'. split_and!; try done. lia.
  - right. eexists. split_and!; [done|done| |by rewrite Hpc|done].
    exists h0. cbn. split; [done|]. by rewrite Hmem, Hm0, Ek1.
Qed.

Lemma child_work i s r c :
  child_inv p c -> exists c', run_action (AWork i s r) c = Ret c' tt /\ child_inv p c'.
Proof.
  intros Hc. cbn. destruct (is_free (Some i) c) eqn:Ef; [|by eexists]. apply is_free_running in Ef as (h&Hi&Hpc).
  destruct (child_entry c i _ Hc Hi) as (h0&t0&t&_&Hok&Ht&Hk&Hcr&Hb&Htid&Hs). rewrite Hpc in Hs.
  unfold on_host. rewrite Hi. eexists. split; [reflexivity|].
  eapply (child_update i (Live h) _ t t c); try done; cbn.
  - intros b Hne. apply lookup_insert_ne. by rewrite Hb, (child_stack c i _ t Hc Hi Ht).
  - by left.
  - intros Hcr'. cbn. rewrite Hpc. split_and!; try done. lia.
  - left. split; [done|]. cbn. by rewrite Hpc.
Qed.

Lemma child_create tid pthread r c :
  child_inv p c -> exists c', run_action (ARestore tid pthread r) c = Ret c' tt /\ child_inv p c'.
Proof.
  intros Hc. cbn. destruct (ci_master _ _ Hc) as [->|(k&Ek&Hk)]; [by eexists|]. rewrite Ek.
  destruct (fresh_tid tid c) eqn:Ef; [|by eexists]. unfold master_restore. rewrite (ci_count _ _ Hc), (pi_count _ Hp).
  destruct (Z.ltb_spec (Z.of_nat k) (Z.of_nat (length (p_slots p)))) as [Hlt|Hge].
  - destruct (lookup_lt_is_Some_2 (p_slots c) k) as [sl Hsl]; [rewrite (ci_length _ _ Hc); lia|].
    destruct (child_entry c k sl Hc Hsl) as (h0&t0&t&_&Hok&Ht&Hkeep&Hcs). rewrite Ht. eexists. split; [reflexivity|].
    assert (ft_seq t = Z.of_nat k) as Eseq by (injection Hkeep as _ _ -> _ _; by apply (ok_seq _ _ _ _ Hok)).
    eapply (child_update k sl _ t (set_thread_restore pthread t) c); try done; cbn; rewrite ?Eseq.
    + by rewrite list_lookup_alter_eq, Ht.
    + intros j Hj. by apply list_lookup_alter_ne.
    + intros b Hb. by apply lookup_insert_ne.
    + right. done.
    + intros _. split_and!; [unfold created; cbn; lia| |by apply andb_prop in Ef as [?%Z.ltb_lt _]|done].
      symmetry. by apply (child_stack c k sl).
    + left. split; [done|]. destruct sl as [| |h|]; cbn in *; try done. unfold created in Hcs. rewrite Ek in Hcs. lia.
  - eexists. split; [reflexivity|]. assert (k = length (p_slots c)) as -> by (rewrite (ci_length _ _ Hc); lia).
    destruct Hc. split; try done; [|by left]. cbn. intros i sl Hi. destruct (ci_slots0 i sl Hi) as (t&Ht&Hs).
    exists t. split; [done|]. unfold child_slot, created in *. rewrite Ek in Hs. apply lookup_lt_Some in Hi.
    destruct sl; cbn in *; try done.
Qed.

(** Inside [ski_forkall_master] of the child no further threads are created. *)
Definition no_creation (a : action) : Prop := match a with ANew _ => False | _ => True end.

Lemma child_action a c :
  child_inv p c -> no_creation a -> exists c', run_action a c = Ret c' tt /\ child_inv p c'.
Proof.
  intros Hc Ha.
  assert (forall i sl, p_slots c !! i = Some sl -> match sl with Reserved _ | Filled _ => False | _ => True end) as Hsl.
  { intros i sl Hi. destruct (ci_slots _ _ Hc i sl Hi) as (t&_&Hs). by destruct sl. }
  destruct a as [i s r|w|j|j tid pth r|i addr|i|i| | | |tid pth r]; [by apply child_work|done|..|by apply child_create].
  - cbn. destruct (p_slots c !! j) as [[]|] eqn:Ej; try (by eexists). by specialize (Hsl j _ Ej).
  - cbn. destruct (p_slots c !! j) as [[]|] eqn:Ej; try (by eexists). by specialize (Hsl j _ Ej).
  - cbn. unfold on_host. destruct (p_slots c !! i) as [[| |h|]|] eqn:Ei; try (by eexists).
    destruct (ci_slots _ _ Hc i _ Ei) as (t&_&_&_&_&Hs). destruct (h_pc h); try done; by eexists.
  - cbn. destruct (is_free (Some i) c) eqn:Ef; [|by eexists]. apply is_free_running in Ef as (h&Hi&Hpc).
    unfold on_host, ski_forkall_slave. rewrite Hi, (ci_forking _ _ Hc). by eexists.
  - cbn. unfold on_host. destruct (p_slots c !! i) as [[| |h|]|] eqn:Ei; try (by eexists). unfold thread_step.
    destruct (ci_slots _ _ Hc i _ Ei) as (t&_&_&_&_&Hs). destruct (h_pc h) eqn:Hpc; try done; [by eexists|..].
    + by apply child_restore_start.
    + by apply child_restore_copy.
    + by apply child_restore_jump.
  - cbn. rewrite (ci_child _ _ Hc), andb_false_r. by eexists.
  - cbn. destruct (ci_master _ _ Hc) as [->|(k&->&_)]; by eexists.
  - cbn. destruct (ci_master _ _ Hc) as [->|(k&->&_)]; by eexists.
Qed.

Lemma child_run l c :
  child_inv p c -> Forall no_creation l -> exists c', run l c = Ret c' tt /\ child_inv p c'.
Proof.
  intros Hc Hl. revert c Hc. induction Hl as [|a l Ha _ IH]; intros c Hc; [by exists c|].
  destruct (child_action a c Hc Ha) as (c1&E1&Hc1). cbn. rewrite (bind_Ret _ _ _ _ _ E1). by apply IH.
Qed.

(** *** The child can finish *)

(** The actions a thread still needs. *)
Definition slot_rank (sl : slot) : nat :=
  match sl with
  | Gone => 4
  | Live h => match h_pc h with RestoreStart _ => 3 | RestoreCopy _ => 2 | RestoreJump _ => 1 | _ => 0 end
  | _ => 0
  end.
Definition rank (c : proc) : nat :=
  (sum_list_with slot_rank (p_slots c) + match p_master c with MRunning => 0 | _ => 1 end)%nat.

Lemma sum_insert {A} (f : A -> nat) (l : list A) i x y :
  l !! i = Some x -> (sum_list_with f (<[i := y]> l) + f x = sum_list_with f l + f y)%nat.
Proof.
  intros Hi. pose proof (lookup_lt_Some _ _ _ Hi). rewrite <- (take_drop_middle l i x Hi) at 2.
  rewrite insert_take_drop by done. rewrite !sum_list_with_app. cbn. lia.
Qed.

Lemma fresh_tid_exists c : exists tid, fresh_tid tid c = true.
Proof.
  assert (exists b, 0 < b /\ Forall (fun sl => match sl with Live h => h_tid h < b | _ => True end) (p_slots c)) as (b&Hb&HF).
  { induction (p_slots c) as [|sl l (b&Hb&HF)]; [exists 1; split; [lia|constructor]|].
    exists (Z.max b (match sl with Live h => h_tid h + 1 | _ => 1 end)). split; [lia|]. constructor; [destruct sl; lia|].
    eapply Forall_impl; [done|]. intros []; lia. }
  exists b. unfold fresh_tid. rewrite (proj2 (Z.ltb_lt _ _)) by done. apply forallb_forall. intros sl Hsl.
  rewrite Forall_forall in HF. apply list_elem_of_In in Hsl. specialize (HF sl Hsl). destruct sl; try done.
  rewrite (proj2 (Z.eqb_neq _ _)) by lia. done.
Qed.

#[local] Instance is_done_dec sl : Decision (is_done sl).
Proof. destruct sl; cbn; apply _. Defined.

Lemma child_progress (r : regs) c :
  child_inv p c -> ~ restored c ->
  exists a c', no_creation a /\ run_action a c = Ret c' tt /\ (rank c' < rank c)%nat.
Proof.
  intros Hc Hn. destruct (ci_master _ _ Hc) as [Em|(k&Em&Hk)].
  - assert (Exists (fun sl => ~ is_done sl) (p_slots c)) as (sl&Hsl&Hd)%Exists_exists.
    { apply not_Forall_Exists; [apply _|]. intros HF. by apply Hn. }
    apply list_elem_of_lookup in Hsl as [i Hi]. destruct (child_entry c i sl Hc Hi) as (h0&t0&t&Hsn&Hok&Ht&Hkp&Hcs).
    destruct sl as [| |h|]; try done; [|cbn in Hcs; unfold created in Hcs; rewrite Em in Hcs; apply lookup_lt_Some in Hi; lia].
    exists (AStep i). cbn. unfold on_host. rewrite Hi. unfold thread_step. cbn in Hd, Hcs. destruct Hcs as (_&_&_&Hs).
    destruct (h_pc h) eqn:Hpc; try done.
    + eexists. split_and!; [done..|]. unfold rank. cbn. pose proof (sum_insert slot_rank _ i _ (Live (set_pc (RestoreCopy t1) h)) Hi) as E.
      cbn in E. rewrite Hpc in E. lia.
    + unfold restore_copy. destruct Hs as [-> _]. rewrite Ht. eexists. split_and!; [done..|]. unfold rank. cbn.
      pose proof (sum_insert slot_rank _ i _ (Live (set_pc (RestoreJump i) h)) Hi) as E. cbn in E. rewrite Hpc in E. lia.
    + unfold ski_forkall_thread_restore_registers. destruct Hs as [-> _]. rewrite Ht. destruct Hsn as (_&_&_&_&He0).
      injection Hkp as _ -> _ _ _. rewrite He0. eexists. split_and!; [done..|]. unfold rank. cbn.
      pose proof (sum_insert slot_rank _ i _ (Live (set_pc Running (set_regs (h_regs h0) h))) Hi) as E. cbn in E. rewrite Hpc in E. lia.
  - destruct (fresh_tid_exists c) as [tid Htid]. exists (ARestore tid 0 r). cbn. rewrite Em, Htid. unfold master_restore.
    destruct (Z.ltb_spec (Z.of_nat k) (thread_count c)) as [Hlt|Hge].
    + rewrite (ci_count _ _ Hc), (pi_count _ Hp) in Hlt.
      destruct (lookup_lt_is_Some_2 (p_slots c) k) as [sl Hsl]; [rewrite (ci_length _ _ Hc); lia|].
      destruct (child_entry c k sl Hc Hsl) as (h0&t0&t&Hsn&Hok&Ht&Hkp&Hcs). rewrite Ht. eexists. split_and!; [done..|].
      destruct sl as [| |h|]; cbn in Hcs; try done; [unfold created in Hcs; rewrite Em in Hcs; lia|].
      unfold rank. cbn. rewrite Em. pose proof (sum_insert slot_rank _ k _ (Live (mk_host tid (stack_base (ft_seq t)) r (RestoreStart k))) Hsl) as E.
      cbn in E. lia.
    + eexists. split_and!; [done..|]. unfold rank. cbn. rewrite Em. lia.
Qed.

Lemma child_finishes (r : regs) c :
  child_inv p c -> exists l c', Forall no_creation l /\ run l c = Ret c' tt /\ restored c'.
Proof.
  remember (rank c) as n eqn:En. revert c En. induction n as [n IH] using lt_wf_ind. intros c -> Hc.
  destruct (decide (Forall is_done (p_slots c))) as [Hd|Hd]; [destruct (p_master c) eqn:Em|].
  1: { exists [], c. split_and!; [constructor|done|by split]. }
  all: destruct (child_progress r c Hc) as (a&c1&Ha&E1&Hlt); [unfold restored; rewrite ?Em; by intros [? ?]|].
  all: destruct (child_action a c Hc Ha) as (c2&E2&Hc2); rewrite E1 in E2; injection E2 as <-.
  all: destruct (IH (rank c1) Hlt c1 eq_refl Hc2) as (l&c'&Hl&El&Hr); exists (a :: l), c'.
  all: split_and!; [by constructor| |done]; cbn; by rewrite (bind_Ret _ _ _ _ _ E1).
Qed.

(** A signal to a thread of the parent reaches the thread that replaces it. *)
Lemma child_kill c i h t :
  child_inv p c -> restored c -> snapshot_of p i h t ->
  exists h', p_slots c !! i = Some (Live h') /\ ski_forkall_pthread_kill (ft_thread_original t) c = Val (TidKill (h_tid h')).
Proof.
  intros Hc [_ Hr] Hs. pose proof Hs as (Hsl&Ht&_). pose proof (lookup_lt_Some _ _ _ Hsl) as Hlt.
  destruct (lookup_lt_is_Some_2 (p_slots c) i) as [sl Hi]; [by rewrite (ci_length _ _ Hc)|].
  destruct (child_entry c i sl Hc Hi) as (h0&t0&t'&Hs0&Hok&Ht'&Hk&Hcs). replace t0 with t in * by (destruct Hs0 as (_&?&_); congruence).
  rewrite Forall_lookup in Hr. specialize (Hr i sl Hi). destruct sl as [| |h'|]; try done. exists h'. split; [done|].
  cbn in Hr, Hcs. destruct Hcs as (_&_&Htid&Hpc). rewrite Hr in Hpc. injection Hk as _ _ _ _ Ek.
  unfold ski_forkall_pthread_kill. rewrite (ci_child _ _ Hc). cbn.
  rewrite (list_find_unique _ _ i t').
  - rewrite (proj2 (Z.eqb_neq _ _)) by lia. by rewrite Hpc.
  - apply lookup_used. split; [done|]. rewrite (ci_count _ _ Hc), (pi_count _ Hp). lia.
  - done.
  - intros j tj [Htj Hj]%lookup_used Ej. destruct (decide (j = i)) as [|Hne]; [done|]. exfalso.
    rewrite (ci_count _ _ Hc), (pi_count _ Hp), Nat2Z.id in Hj.
    destruct (fork_snapshot p j Hp Hfork Hj) as (hj&tj0&(Hslj&Htj0&_)&_).
    destruct (slot_used p Hp j _ Hslj) as (t1&Hu&Ht1&_). destruct (ci_keeps _ _ Hc j t1 Hu) as (tj'&Htj'&Hkj).
    injection Hkj as _ _ _ _ Ekj. replace tj' with tj in * by congruence. replace t1 with tj0 in * by congruence.
    destruct (pi_distinct _ Hp j i _ _ tj0 t Hne Hslj Hsl Htj0 Ht) as [_ Hd]. congruence.
Qed.
End child.

(** ** What a fork promises *)

(** C5: Under every interleaving, when the master is about to fork each thread of
    the table hangs in [ski_forkall_slave] and its entry holds its stack and its
    registers; and no assertion of the file fails but the limit on threads. *)
Theorem ski_forkall_saves_all (l : list action) :
  match run l ski_forkall_initialize with
  | Ret p _ =>
      p_master p = MFork -> forall i, (i < Z.to_nat (thread_count p))%nat -> exists h t, snapshot_of p i h t
  | Jump _ => False
  | Halt p h => h = HAssert /\ thread_count p = FORKALL_MAX_THREADS
  end.
Proof.
  pose proof (parent_run l _ parent_initial) as H. destruct (run l _) as [p u|p|p h]; [|done..].
  intros Em i Hi. rewrite (pi_count _ H), Nat2Z.id in Hi. destruct (fork_snapshot p i H Em Hi) as (h&t&Hs&_). by exists h, t.
Qed.

End forkall.

(** ** A process with two threads *)

Definition sample_run : list (action (stk := Z) (regs := Z)) :=
  [ ANew None; AFill 0; ASpawn 0 101 9001 0; ASelf 0 (stack_base 0 + 64);
    AWork 0 11 12; ANew (Some 0%nat); AMaster; AFill 1; ASpawn 1 102 9002 0; ASlave 1; ASelf 1 (stack_base 1 + 8);
    AWait; ASlave 0; AWork 1 21 22; AStep 0; ASlave 1; AStep 1; AStep 0; AWait; AStep 1; AStep 1; AStep 0; AWait ].

Definition sample_parent : proc (stk := Z) (regs := Z) :=
  match run 0 sample_run (ski_forkall_initialize 0) with Ret p _ | Jump p | Halt p _ => p end.

(** The two threads of the child interleave. *)
Definition sample_child : list (action (stk := Z) (regs := Z)) :=
  [ ARestore 201 9101 0; AStep 0; ARestore 202 9102 0; AStep 1; AStep 1; AStep 0; AStep 1; ARestore 203 0 0; AStep 0 ].

Lemma ski_forkall_saves_all_witness :
  p_master sample_parent = MFork /\
  exists h t, snapshot_of sample_parent 1 h t /\ ft_stack t = 21 /\ ft_env t = Some 22.
Proof.
  split; [vm_compute; reflexivity|].
  assert (run 0 sample_run (ski_forkall_initialize 0) = Ret sample_parent tt) as E by (vm_compute; reflexivity).
  pose proof (ski_forkall_saves_all 0 sample_run) as H. rewrite E in H.
  destruct (H ltac:(vm_compute; reflexivity) 1%nat ltac:(vm_compute; lia)) as (h&t&Hs). exists h, t. split; [exact Hs|].
  destruct Hs as (_&Ht&_). vm_compute in Ht. injection Ht as <-. split; reflexivity.
Defined.


(** *** Behaviour of the child outside the theorems *)

(** Between the creation of a thread and its first action the identifier in its
    entry is still -1; the test for 0 does not notice it and the signal goes to
    -1. *)
Lemma kill_before_restore :
  exists c, run 0 [ARestore 201 9101 0] (fork_child sample_parent) = Ret c tt /\
    ski_forkall_pthread_kill 9001 c = Val (TidKill (-1)).
Proof. eexists. split; [vm_compute; reflexivity|]. vm_compute. reflexivity. Qed.

(** A restored thread that creates a thread while the master still restores: the
    master's loop, which reads [thread_count] again, takes the new thread for one
    to restore, and the [longjmp] uses a buffer that was never set. *)
Lemma creation_during_restore :
  exists c, run 0 [ARestore 201 9101 0; AStep 0; AStep 0; AStep 0; ANew (Some 0%nat); AFill 2; ASpawn 2 301 9301 0;
                   ARestore 202 9102 0; ARestore 203 9103 0; AStep 2; AStep 2; AStep 2] (fork_child sample_parent) = Halt c HUndef.
Proof. eexists. vm_compute. reflexivity. Qed.
