(* ===== verification/Memfs.v ===== *)
(** * Memfs.v -- the in-memory file system

    Models [vmm/ski-memfs.c]: the hooks that replace the libc file operations of
    the emulator, so that the processes of an exploration share the files on disk
    without changing them.  A file is mapped privately when it is first opened
    and followed by a zero-filled extra block for the bytes written past its end;
    all files opened with the same inode share this support.

    The host's side is an input: [host_file] is what [fileno] or [open] and
    [fstat] answer, and a hook that leaves a call to libc says so ([Host]).
    Printing is left out. *)

From Stdlib Require Import Strings.String.
From S2P Require Import Prelude CString Machine.

Definition MEMFS_MAX_FILENAME : Z := 256.
Definition MEMFS_MAX_FILES : Z := 50.
Definition MEMFS_MMAP_EXTRA_SPACE : Z := 512 * 1024 * 1024.
Definition MEMFS_FD_START : Z := 100.
Definition MAX_TEST_BUFF : Z := 64 * 1024 * 1024.
Definition SKI_EXIT_MEMFS : Z := 3.
Definition SKI_EXIT_MEMFS_LOWMEM : Z := 3.

(** ** Memory blocks *)

(** A block is the list of its first bytes; the bytes after them are zero. *)
Definition peek (b : list Z) (i : nat) : Z := default 0 (b !! i).
Definition load (b : list Z) (off n : nat) : list Z := peek b <$> seq off n.
Definition store (b : list Z) (off : nat) (d : list Z) : list Z :=
  load b 0 off ++ d ++ drop (off + length d) b.

(** [memcpy] from and to a block of [cap] bytes. *)
Definition copy_from (cap : Z) (b : list Z) (off n : Z) : E (list Z) :=
  if (0 <=? off) && (0 <=? n) && (off + n <=? cap) then Val (load b (Z.to_nat off) (Z.to_nat n)) else Fail HUndef.
Definition copy_to (cap : Z) (b : list Z) (off : Z) (d : list Z) : E (list Z) :=
  if (0 <=? off) && (off + Z.of_nat (length d) <=? cap) then Val (store b (Z.to_nat off) d) else Fail HUndef.

(** ** Files *)

(** [s_mmap] is the mapped block of [mmap_length] bytes, [s_extra] the extra
    block of [MEMFS_MMAP_EXTRA_SPACE] bytes. *)
Record memfs_support := mk_support {
  s_filename : list Z;
  s_inode : Z;
  s_mmap : list Z;
  s_extra : list Z;
  s_length : Z
}.
Definition mmap_length (s : memfs_support) : Z := Z.of_nat (length (s_mmap s)).

(** [f_file] is the host's stream, 0 for a descriptor; [f_sup] an index in
    [sups]. *)
Record memfs_file := mk_file {
  f_id : Z;
  f_filename : list Z;
  f_fd : Z;
  f_file : Z;
  f_closed : bool;
  f_off : Z;
  f_sup : nat
}.
Definition set_f_closed v f := mk_file (f_id f) (f_filename f) (f_fd f) (f_file f) v (f_off f) (f_sup f).
Definition set_f_off v f := mk_file (f_id f) (f_filename f) (f_fd f) (f_file f) (f_closed f) v (f_sup f).

Record memfs := mk_memfs {
  ms_initialized : bool;
  ms_test_mode : Z;
  ms_enabled : Z;
  ms_sups : list memfs_support;
  ms_files : list memfs_file;
  ms_ignorelist : list (list Z);
  ms_test_buff : list Z
}.
Definition set_ms_sups v m :=
  mk_memfs (ms_initialized m) (ms_test_mode m) (ms_enabled m) v (ms_files m) (ms_ignorelist m) (ms_test_buff m).
Definition set_ms_files v m :=
  mk_memfs (ms_initialized m) (ms_test_mode m) (ms_enabled m) (ms_sups m) v (ms_ignorelist m) (ms_test_buff m).
Definition set_ms_ignorelist v m :=
  mk_memfs (ms_initialized m) (ms_test_mode m) (ms_enabled m) (ms_sups m) (ms_files m) v (ms_test_buff m).
Definition set_ms_test_buff v m :=
  mk_memfs (ms_initialized m) (ms_test_mode m) (ms_enabled m) (ms_sups m) (ms_files m) (ms_ignorelist m) v.

(** The state of the process before the first hook. *)
Definition memfs_start : memfs := mk_memfs false 0 1 [] [] [] [].

Definition MFS := M memfs.

(** The file's [assert]. *)
Definition fs_assert (b : bool) : MFS unit := SKI_ASSERT_MSG b SKI_EXIT_MEMFS.
Definition fs_eassert (b : bool) : E unit := if b then Val tt else Fail (HExit SKI_EXIT_MEMFS).

#[export] Instance memfs_support_inhabited : Inhabited memfs_support := populate (mk_support [] 0 [] [] 0).
#[export] Instance memfs_file_inhabited : Inhabited memfs_file := populate (mk_file 0 [] 0 0 false 0 0).

Definition the_file (i : nat) (m : memfs) : memfs_file := ms_files m !!! i.
Definition the_sup (i : nat) (m : memfs) : memfs_support := ms_sups m !!! f_sup (the_file i m).
Definition mod_file (i : nat) (f : memfs_file -> memfs_file) : MFS unit :=
  modify (fun m => set_ms_files (alter f i (ms_files m)) m).

(** A [FILE] pointer: null, a stream of the host, or an entry of [files]. *)
Inductive FILE := FNull | FHost (h : Z) | FMem (i : nat).

(** What a hook answers: its own result, or that of the libc function, called
    with the same arguments. *)
Inductive answer (A : Type) := Own (a : A) | Host.
Arguments Own {A} a.
Arguments Host {A}.

(** The descriptor the host gives, and its inode and content by [fstat] and
    [mmap] ([None] when [fstat] fails). *)
Record host_file := mk_host { h_fd : Z; h_fstat : option (Z * list Z) }.

(** ** Initialisation *)

(** [sscanf(env, "%d", &v)] when the variable is set. *)
Definition env_int (env : option (list Z)) (v : Z) : Z :=
  match env with
  | None => v
  | Some s => match sscanf_d s with Some (x, _) => wrap32 x | None => v end
  end.

Section memfs_ops.
Context (getenv : list Z -> option (list Z)).

Definition init_wrappers : MFS unit :=
m <- get ;;
if ms_initialized m then ret tt
else
  let test := env_int (getenv (str "SKI_MEMFS_TEST_MODE_ENABLED")) (ms_test_mode m) in
  let enabled := env_int (getenv (str "SKI_MEMFS_ENABLED")) (ms_enabled m) in
  SKI_ASSERT_MSG (negb (c_true test && negb (c_true enabled))) SKI_EXIT_MEMFS ;;;
  put (mk_memfs true test enabled (ms_sups m) [] (ms_ignorelist m) (ms_test_buff m)).

(** ** File names *)

Definition str_ends_with (s suffix : list Z) : bool :=
if (length s <? length suffix)%nat then false
else bool_decide (drop (length s - length suffix) s = suffix).

(** [strstr(s, p) != NULL] *)
Fixpoint strstr (s p : list Z) : bool :=
starts_with p s || match s with [] => false | _ :: s' => strstr s' p end.

Definition memfs_intercept_filename (pathname : list Z) : bool :=
let txt := str_ends_with pathname (str ".txt") in
if str_ends_with pathname (str ".ipfilter") then false
else if txt && strstr pathname (str "trace_") then false
else if txt && strstr pathname (str "msg_") then false
else if txt && strstr pathname (str "console_") then false
else if txt && strstr pathname (str "heuristics_") then false
else if txt && strstr pathname (str "run_") then false
else if txt && strstr pathname (str "forkall_") then false
else if txt && strstr pathname (str "console") then false
else negb (strstr pathname (str "/dev/null")).

Definition memfs_ignorelist_add (filename : list Z) : MFS unit :=
m <- get ;;
fs_assert (Z.of_nat (length (ms_ignorelist m)) <? MEMFS_MAX_FILES) ;;;
fs_assert (Z.of_nat (length filename) <? MEMFS_MAX_FILENAME) ;;;
modify (set_ms_ignorelist (ms_ignorelist m ++ [filename])).

(** ** Finding files *)

Definition memfs_get_file (file : FILE) : MFS (option nat) :=
m <- get ;;
match file with
| FMem i =>
    if (i <? length (ms_files m))%nat then fs_assert (negb (f_closed (the_file i m))) ;;; ret (Some i)
    else ret None
| _ => ret None
end.

Definition memfs_get_fd (fd : Z) : MFS (option nat) :=
m <- get ;;
let f_index := wrap32 (fd - MEMFS_FD_START) in
if (f_index >=? 0) && (f_index <? Z.of_nat (length (ms_files m))) then
  let i := Z.to_nat f_index in
  fs_assert (negb (f_closed (the_file i m))) ;;; ret (Some i)
else ret None.

Definition memfs_get_filename (filename : list Z) (m : memfs) : option nat :=
fst <$> list_find (fun f => f_closed f = false /\ f_filename f = filename) (ms_files m).

(** ** Opening and closing *)

Definition memfs_close (i : nat) : MFS Z := mod_file i (set_f_closed true) ;;; ret 0.

(** The support of a descriptor: an index in [sups]. *)
Definition memfs_support_open (path : list Z) (h : host_file) : MFS nat :=
fs_assert (negb (h_fd h =? 0)) ;;;
match h_fstat h with
| None => fs_assert false ;;; ret 0%nat
| Some (st_ino, content) =>
    m <- get ;;
    let inode := wrap32 st_ino in
    match list_find (fun s => s_inode s = inode) (ms_sups m) with
    | Some (i, _) => ret i
    | None =>
        fs_assert (Z.of_nat (length path) <? MEMFS_MAX_FILENAME - 1) ;;;
        fs_assert (Z.of_nat (length (ms_sups m)) <? MEMFS_MAX_FILES) ;;;
        modify (set_ms_sups (ms_sups m ++ [mk_support path inode content [] (Z.of_nat (length content))])) ;;;
        ret (length (ms_sups m))
    end
end.

(** [stream] is the host's stream for [fopen] and 0 for [open]; writing past
  the array [files] is undefined. *)
Definition memfs_open (path : list Z) (stream : Z) (h : host_file) : MFS nat :=
fs_assert (Z.of_nat (length path) <? MEMFS_MAX_FILENAME - 1) ;;;
m <- get ;;
fs_assert (Z.of_nat (length (ms_sups m)) <? MEMFS_MAX_FILES) ;;;
let id := length (ms_files m) in
if Z.of_nat id <? MEMFS_MAX_FILES then
  sup <- memfs_support_open path h ;;
  modify (fun m => set_ms_files (ms_files m ++ [mk_file (Z.of_nat id) path (h_fd h) stream false 0 sup]) m) ;;;
  ret id
else stop HUndef.

(** ** Reading and writing *)

(** The bytes of an access of [n] bytes at [off] that are in the mapped block,
  and where the others start in the extra block. *)
Definition mmap_part (s : memfs_support) (off n : Z) : Z :=
if off <? mmap_length s then Z.min (mmap_length s - off) n else 0.
Definition extra_off (s : memfs_support) (off mmap_n : Z) : Z :=
if c_true mmap_n then 0 else u64 (off - mmap_length s).

(** The result and the bytes copied to [ptr]. *)
Definition sup_read (size nmemb off : Z) (s : memfs_support) : E (Z * list Z) :=
if off >? s_length s then Val (0, [])
else if off =? s_length s then Val (0, [])
else
  let total := u64 (size * nmemb) in
  let total := if u64 (off + total) >? s_length s then (s_length s - off) / size * size else total in
  let mmap_read := mmap_part s off total in
  d1 <-? (if off <? mmap_length s then copy_from (mmap_length s) (s_mmap s) off mmap_read else Val []) ;;
  if mmap_read =? total then Val (total, d1)
  else
    let extra_read := total - mmap_read in
    let extra := extra_off s off mmap_read in
    _ <-? fs_eassert (u64 (extra + extra_read) <=? MEMFS_MMAP_EXTRA_SPACE) ;;
    d2 <-? copy_from MEMFS_MMAP_EXTRA_SPACE (s_extra s) extra extra_read ;;
    Val (total, d1 ++ d2).

Definition memfs_read (size nmemb off : Z) (i : nat) (update_off : bool) : MFS (Z * list Z) :=
m <- get ;;
r <- lift (fun m => sup_read size nmemb off (the_sup i m)) ;;
when (update_off && (off <? s_length (the_sup i m))) (mod_file i (set_f_off (u64 (off + fst r)))) ;;;
ret r.

(** The [n] bytes at [ptr + from]; the null pointer stands for zeroes. *)
Definition source_bytes (ptr : option (list Z)) (from n : Z) : E (list Z) :=
match ptr with
| None => Val (replicate (Z.to_nat n) 0)
| Some d =>
    if from + n <=? Z.of_nat (length d) then Val (take (Z.to_nat n) (drop (Z.to_nat from) d)) else Fail HUndef
end.

(** Writing [total] bytes at [off], not past the end of the file. *)
Definition sup_write_at (ptr : option (list Z)) (total off : Z) (s : memfs_support) : E memfs_support :=
let mmap_write := mmap_part s off total in
mmap <-? (if off <? mmap_length s
          then d <-? source_bytes ptr 0 mmap_write ;; copy_to (mmap_length s) (s_mmap s) off d
          else Val (s_mmap s)) ;;
extra <-? (if mmap_write =? total then Val (s_extra s)
           else
             let extra_write := total - mmap_write in
             let extra := extra_off s off mmap_write in
             if u64 (extra + extra_write) <=? MEMFS_MMAP_EXTRA_SPACE
             then d <-? source_bytes ptr mmap_write extra_write ;;
                  copy_to MEMFS_MMAP_EXTRA_SPACE (s_extra s) extra d
             else Fail (HExit SKI_EXIT_MEMFS_LOWMEM)) ;;
Val (mk_support (s_filename s) (s_inode s) mmap extra (Z.max (s_length s) (u64 (off + total)))).

(** The support after the write; an [off] past the end is reached by writing
  zeroes from the end on. *)
Definition sup_write (ptr : option (list Z)) (size nmemb off : Z) (s : memfs_support) : E memfs_support :=
s <-? (if off >? s_length s then
         s' <-? sup_write_at None (off - s_length s) (s_length s) s ;;
         _ <-? fs_eassert (off <=? s_length s') ;;
         Val s'
       else Val s) ;;
sup_write_at ptr (u64 (size * nmemb)) off s.

Definition memfs_write (ptr : option (list Z)) (size nmemb off : Z) (i : nat) (update_off : bool) : MFS Z :=
s <- lift (fun m => sup_write ptr size nmemb off (the_sup i m)) ;;
modify (fun m => set_ms_sups (<[f_sup (the_file i m) := s]> (ms_sups m)) m) ;;;
let total := u64 (size * nmemb) in
when update_off (mod_file i (set_f_off (u64 (off + total)))) ;;;
ret total.

(** ** Test mode *)

(** In test mode the hooks work on [test_buff] and compare with the host, whose
  result and bytes are [host]. *)
Definition START_TEST (max : Z) : MFS unit :=
m <- get ;; when (c_true (ms_test_mode m)) (fs_assert (max <? MAX_TEST_BUFF)).

(** [d] are the bytes just read; the bytes left in the caller's buffer. *)
Definition end_read_test (host : Z * list Z) (res_expected buf_length : Z) (d : list Z) : MFS (list Z) :=
m <- get ;;
if c_true (ms_test_mode m) then
  modify (set_ms_test_buff (store (ms_test_buff m) 0 d)) ;;;
  fs_assert (buf_length <? MAX_TEST_BUFF) ;;;
  fs_assert (wrap32 (fst host) =? res_expected) ;;;
  fs_assert (bool_decide (load d 0 (Z.to_nat buf_length) = load (snd host) 0 (Z.to_nat buf_length))) ;;;
  ret (snd host)
else ret d.

Definition end_write_test (host : Z) (res_expected : Z) : MFS unit :=
m <- get ;; when (c_true (ms_test_mode m)) (fs_assert (wrap32 host =? res_expected)).

(** A hook on an open file: [k] with its index, the host's function otherwise. *)
Definition hooked {A} (find : MFS (option nat)) (k : nat -> MFS A) : MFS (answer A) :=
init_wrappers ;;;
m <- get ;;
if c_true (ms_enabled m) then
  o <- find ;;
  match o with
  | Some i => a <- k i ;; ret (Own a)
  | None => ret Host
  end
else ret Host.

(** ** Hooks of streams *)

(** [host] is the stream of [default_fopen], if any, with its descriptor. *)
Definition memfs_hook_fopen (path mode : list Z) (host : option (Z * host_file)) : MFS FILE :=
init_wrappers ;;;
m <- get ;;
let file := match host with Some (h, _) => FHost h | None => FNull end in
if c_true (ms_enabled m) then
  if negb (memfs_intercept_filename path) then memfs_ignorelist_add path ;;; ret file
  else
    match host with
    | Some (h, hf) =>
        fs_assert (negb (hd 0 mode =? 97)) ;;;
        i <- memfs_open path h hf ;;
        ret (FMem i)
    | None => ret FNull
    end
else ret file.

Definition memfs_hook_fclose (fp : FILE) : MFS Z :=
a <- hooked (memfs_get_file fp) memfs_close ;;
ret (match a with Own r => r | Host => 0 end).

(** [bytes / size], undefined for a [size] of zero. *)
Definition div_size (bytes size : Z) : MFS Z := if size =? 0 then stop HUndef else ret (bytes / size).

Definition memfs_hook_fread (size nmemb : Z) (fp : FILE) (host : Z * list Z) : MFS (answer (Z * list Z)) :=
hooked (memfs_get_file fp) (fun i =>
  m <- get ;;
  START_TEST (u64 (size * nmemb)) ;;;
  r <- memfs_read size nmemb (f_off (the_file i m)) i true ;;
  n <- div_size (fst r) size ;;
  d <- end_read_test host n (if n >? 0 then u64 (n * size) else 0) (snd r) ;;
  ret (n, d)).

(** In test mode the bytes written are those of [test_buff]. *)
Definition memfs_hook_fwrite (ptr : list Z) (size nmemb : Z) (fp : FILE) (host : Z) : MFS (answer Z) :=
hooked (memfs_get_file fp) (fun i =>
  m <- get ;;
  START_TEST (u64 (size * nmemb)) ;;;
  let ptr := if c_true (ms_test_mode m) then load (ms_test_buff m) 0 (Z.to_nat (u64 (size * nmemb))) else ptr in
  bytes <- memfs_write (Some ptr) size nmemb (f_off (the_file i m)) i true ;;
  n <- div_size bytes size ;;
  end_write_test host n ;;;
  ret n).

(** [text] is the formatted text, [rest] the uninitialised bytes of the buffer
  after its terminating NUL; the whole buffer is written. *)
Definition memfs_hook_fprintf (text rest : list Z) (stream : FILE) (host : Z) : MFS (answer Z) :=
hooked (memfs_get_file stream) (fun i =>
  let n := Z.of_nat (length text) in
  fs_assert (n <? 1024) ;;;
  r <- memfs_hook_fwrite (take 1024 (text ++ 0 :: rest)) 1024 1 stream host ;;
  fs_assert (match r with Own w => w =? 1 | Host => host =? 1 end) ;;;
  ret n).

(** Not implemented for files in memory. *)
Definition not_implemented {A} (_ : nat) : MFS A := stop (HExit SKI_EXIT_MEMFS).
Definition memfs_hook_clearerr (stream : FILE) : MFS (answer unit) := hooked (memfs_get_file stream) not_implemented.
Definition memfs_hook_feof (stream : FILE) : MFS (answer Z) := hooked (memfs_get_file stream) not_implemented.
Definition memfs_hook_ferror (stream : FILE) : MFS (answer Z) := hooked (memfs_get_file stream) not_implemented.
Definition memfs_hook_fgetpos (stream : FILE) : MFS (answer Z) := init_wrappers ;;; stop (HExit SKI_EXIT_MEMFS).
Definition memfs_hook_fsetpos (stream : FILE) : MFS (answer Z) := init_wrappers ;;; stop (HExit SKI_EXIT_MEMFS).

Definition memfs_hook_fileno (stream : FILE) : MFS (answer Z) :=
hooked (memfs_get_file stream) (fun i => m <- get ;; ret (f_id (the_file i m) + MEMFS_FD_START)).

(** [SEEK_SET], [SEEK_CUR] and [SEEK_END] are 0, 1 and 2. *)
Definition seek (i : nat) (offset whence : Z) : MFS Z :=
m <- get ;;
off <- (if whence =? 0 then ret (u64 offset)
        else if whence =? 1 then ret (u64 (f_off (the_file i m) + offset))
        else if whence =? 2 then ret (u64 (s_length (the_sup i m) + offset))
        else stop (HExit SKI_EXIT_MEMFS)) ;;
mod_file i (set_f_off off) ;;;
fs_assert (off <=? s_length (the_sup i m)) ;;;
ret off.

Definition memfs_hook_fseek (stream : FILE) (offset whence : Z) (host : Z) : MFS (answer Z) :=
hooked (memfs_get_file stream) (fun i =>
  seek i offset whence ;;;
  m <- get ;;
  when (c_true (ms_test_mode m)) (fs_assert (host =? 0)) ;;;
  ret 0).

Definition memfs_hook_ftell (stream : FILE) (host : Z) : MFS (answer Z) :=
hooked (memfs_get_file stream) (fun i =>
  m <- get ;;
  when (c_true (ms_test_mode m)) (fs_assert (f_off (the_file i m) =? host)) ;;;
  ret (f_off (the_file i m))).

Definition memfs_hook_rewind (stream : FILE) : MFS (answer unit) :=
hooked (memfs_get_file stream) (fun i => mod_file i (set_f_off 0)).

(** The line read, [None] for a null result; the buffer of the hook has 4096
  bytes. *)
Definition memfs_hook_fgets (size : Z) (stream : FILE) : MFS (answer (option (list Z))) :=
hooked (memfs_get_file stream) (fun i =>
  fs_assert (u64 size <? 1024 * 4) ;;;
  m <- get ;;
  r <- memfs_read 1 (u64 (size - 1)) (f_off (the_file i m)) i false ;;
  (if fst r <? 1024 * 4 then ret tt else stop HUndef) ;;;
  fs_assert (fst r <? u64 size) ;;;
  let s := c_string (snd r) in
  let line := fst (fgets (length s) s) in
  mod_file i (fun f => set_f_off (u64 (f_off f + Z.of_nat (length line))) f) ;;;
  ret (match line with [] => None | _ => Some line end)).

(** ** Hooks of descriptors *)

Definition O_APPEND : Z := 1024.
Definition O_CREAT : Z := 64.
Definition O_WRONLY : Z := 1.
Definition O_TRUNC : Z := 512.

(** [h] is what [default_open] answers. *)
Definition memfs_hook_open (pathname : list Z) (flags : Z) (h : host_file) : MFS Z :=
init_wrappers ;;;
m <- get ;;
if negb (c_true (ms_enabled m)) || negb (memfs_intercept_filename pathname) then
  memfs_ignorelist_add pathname ;;; ret (h_fd h)
else if c_true (h_fd h) then
  i <- memfs_open pathname 0 h ;;
  m <- get ;;
  when (c_true (Z.land flags O_APPEND)) (mod_file i (set_f_off (s_length (the_sup i m)))) ;;;
  ret (Z.of_nat i + MEMFS_FD_START)
else ret 0.

Definition memfs_hook_creat (pathname : list Z) (h : host_file) : MFS (answer Z) :=
init_wrappers ;;;
m <- get ;;
if c_true (ms_enabled m) then
  fd <- memfs_hook_open pathname (Z.lor (Z.lor O_CREAT O_WRONLY) O_TRUNC) h ;; ret (Own fd)
else ret Host.

Definition memfs_hook_close (fd : Z) : MFS Z :=
a <- hooked (memfs_get_fd fd) memfs_close ;;
ret (match a with Own r => r | Host => 0 end).

(** The common body of [read] and [pread]. *)
Definition read_fd (i : nat) (count off : Z) (update_off : bool) (host : Z * list Z) : MFS (Z * list Z) :=
START_TEST count ;;;
r <- memfs_read 1 count off i update_off ;;
d <- end_read_test host (fst r) (fst r) (snd r) ;;
ret (fst r, d).

Definition memfs_hook_read (fd count : Z) (host : Z * list Z) : MFS (answer (Z * list Z)) :=
hooked (memfs_get_fd fd) (fun i => m <- get ;; read_fd i count (f_off (the_file i m)) true host).

Definition memfs_hook_pread (fd count offset : Z) (host : Z * list Z) : MFS (answer (Z * list Z)) :=
hooked (memfs_get_fd fd) (fun i => read_fd i count (u64 offset) false host).

Definition write_fd (i : nat) (ptr : list Z) (count off : Z) (update_off : bool) (host : Z) : MFS Z :=
START_TEST count ;;;
bytes <- memfs_write (Some ptr) 1 count off i update_off ;;
end_write_test host bytes ;;;
ret bytes.

Definition memfs_hook_write (fd : Z) (ptr : list Z) (count : Z) (host : Z) : MFS (answer Z) :=
hooked (memfs_get_fd fd) (fun i => m <- get ;; write_fd i ptr count (f_off (the_file i m)) true host).

Definition memfs_hook_pwrite (fd : Z) (ptr : list Z) (count offset : Z) (host : Z) : MFS (answer Z) :=
hooked (memfs_get_fd fd) (fun i => write_fd i ptr count (u64 offset) false host).

Definition memfs_hook_truncate : MFS (answer Z) := init_wrappers ;;; stop (HExit SKI_EXIT_MEMFS).

(** The expansion of a file is not reached. *)
Definition memfs_hook_ftruncate (fd length : Z) (host : Z) : MFS (answer Z) :=
hooked (memfs_get_fd fd) (fun i =>
  m <- get ;;
  (if u64 length >? s_length (the_sup i m) then stop (HExit SKI_EXIT_MEMFS)
   else
     let s := the_sup i m in
     modify (set_ms_sups (<[f_sup (the_file i m) :=
       mk_support (s_filename s) (s_inode s) (s_mmap s) (s_extra s) (u64 length)]> (ms_sups m))) ;;;
     when (c_true (ms_test_mode m)) (fs_assert (host =? 0))) ;;;
  ret 0).

Definition memfs_hook_lseek (fd offset whence : Z) (host : Z) : MFS (answer Z) :=
hooked (memfs_get_fd fd) (fun i =>
  off <- seek i offset whence ;;
  m <- get ;;
  when (c_true (ms_test_mode m)) (fs_assert (host =? off)) ;;;
  ret off).

Definition memfs_hook_llseek : MFS (answer Z) := init_wrappers ;;; stop (HExit SKI_EXIT_MEMFS).

(** [FD_ISSET] on an optional set of descriptors. *)
Definition is_set (fd : Z) (set : option (list Z)) : bool :=
match set with Some l => bool_decide (fd ∈ l) | None => false end.

(** Whether one of the sets has an open file in memory. *)
Definition any_hooked (sets : list (option (list Z))) (m : memfs) : bool :=
existsb (fun f => negb (f_closed f) &&
  existsb (fun set => is_set (f_fd f) set || is_set (f_id f + MEMFS_FD_START) set) sets) (ms_files m).

Definition memfs_hook_select (readfds writefds exceptfds : option (list Z)) : MFS (answer Z) :=
init_wrappers ;;;
m <- get ;;
fs_assert (negb (any_hooked [readfds; writefds; exceptfds] m)) ;;;
ret Host.

(** [pselect] reads the three sets without testing the pointers. *)
Definition memfs_hook_pselect (readfds writefds exceptfds : option (list Z)) : MFS (answer Z) :=
init_wrappers ;;;
m <- get ;;
match ms_files m, readfds, writefds, exceptfds with
| [], _, _, _ => ret Host
| _, Some _, Some _, Some _ => fs_assert (negb (any_hooked [readfds; writefds; exceptfds] m)) ;;; ret Host
| _, _, _, _ => stop HUndef
end.

(** [host] is the result and the size the system call gives. *)
Definition memfs_hook_stat (path : list Z) (host : Z * Z) : MFS (Z * Z) :=
init_wrappers ;;;
m <- get ;;
match (if c_true (ms_enabled m) then memfs_get_filename path m else None) with
| Some i =>
    fs_assert (fst host =? 0) ;;;
    when (c_true (ms_test_mode m)) (fs_assert (snd host =? s_length (the_sup i m))) ;;;
    ret (fst host, s_length (the_sup i m))
| None => ret host
end.

(** [host] gives the answer of the system call for a descriptor. *)
Definition memfs_hook_fstat (fd : Z) (host : Z -> Z * Z) : MFS (Z * Z) :=
a <- hooked (memfs_get_fd fd) (fun i =>
  m <- get ;;
  let r := host (f_fd (the_file i m)) in
  fs_assert (fst r =? 0) ;;;
  when (c_true (ms_test_mode m)) (fs_assert (snd r =? s_length (the_sup i m))) ;;;
  ret (fst r, s_length (the_sup i m))) ;;
ret (match a with Own r => r | Host => host fd end).

Definition memfs_hook_lstat : MFS (answer Z) := init_wrappers ;;; stop (HExit SKI_EXIT_MEMFS).

(** [F_DUPFD], [F_GETFD], [F_SETFD], [F_GETFL], [F_SETFL] and
  [F_DUPFD_CLOEXEC] are passed on, the descriptor as it is. *)
Definition memfs_hook_fcntl (cmd : Z) : MFS (answer Z) :=
init_wrappers ;;;
fs_assert (existsb (Z.eqb cmd) [0; 1; 2; 3; 4; 1030]) ;;;
ret Host.

Definition memfs_hook_dup (oldfd : Z) : MFS (answer Z) :=
init_wrappers ;;;
m <- get ;;
fs_assert (negb (c_true (ms_enabled m) && existsb (fun f => f_fd f =? oldfd) (ms_files m))) ;;;
ret Host.

Definition memfs_hook_dup2 (oldfd newfd : Z) : MFS (answer Z) :=
init_wrappers ;;;
m <- get ;;
fs_assert (negb (c_true (ms_enabled m) &&
                 existsb (fun f => (f_fd f =? oldfd) || (f_fd f =? newfd)) (ms_files m))) ;;;
ret Host.

(** [dup3], [openat], [readv] and [writev]. *)
Definition memfs_hook_unsupported : MFS (answer Z) := stop (HExit SKI_EXIT_MEMFS).

End memfs_ops.

(** ** Blocks *)

Lemma load_length b off n : length (load b off n) = n.
Proof. unfold load. by rewrite length_fmap, length_seq. Qed.

Lemma load_lookup b off n i : load b off n !! i = if decide (i < n)%nat then Some (peek b (off + i)) else None.
Proof.
  unfold load. rewrite list_lookup_fmap. case_decide as Hi.
  - by rewrite lookup_seq_lt.
  - by rewrite lookup_seq_ge by lia.
Qed.

Lemma load_peek b off n i : (i < n)%nat -> peek (load b off n) i = peek b (off + i).
Proof. intros Hi. unfold peek at 1. by rewrite load_lookup, decide_True. Qed.

Lemma peek_load0 b n i : (i < n)%nat -> peek (load b 0 n) i = peek b i.
Proof. apply load_peek. Qed.

Lemma peek_app_l b c i : (i < length b)%nat -> peek (b ++ c) i = peek b i.
Proof. intros Hi. unfold peek. by rewrite lookup_app_l. Qed.

Lemma peek_app_r b c i : (length b <= i)%nat -> peek (b ++ c) i = peek c (i - length b).
Proof. intros Hi. unfold peek. by rewrite lookup_app_r. Qed.

Lemma peek_beyond b i : (length b <= i)%nat -> peek b i = 0.
Proof. intros Hi. unfold peek. by rewrite lookup_ge_None_2. Qed.

Lemma peek_drop b n i : peek (drop n b) i = peek b (n + i).
Proof. unfold peek. by rewrite lookup_drop. Qed.

Lemma peek_take b n i : (i < n)%nat -> peek (take n b) i = peek b i.
Proof. intros Hi. unfold peek. by rewrite lookup_take_lt. Qed.

(** A stored byte is the new one inside the stored range, the old one outside. *)
Lemma peek_store b off d i :
  peek (store b off d) i =
    if decide (off <= i < off + length d)%nat then peek d (i - off) else peek b i.
Proof.
  unfold store. destruct (decide (i < off)%nat) as [Hi|Hi].
  - rewrite decide_False by lia. rewrite peek_app_l by (rewrite load_length; lia). by apply peek_load0.
  - rewrite peek_app_r by (rewrite load_length; lia). rewrite load_length. case_decide as Hd.
    + by rewrite peek_app_l by lia.
    + rewrite peek_app_r, peek_drop by lia. f_equal. lia.
Qed.

Lemma store_length b off d : length (store b off d) = Nat.max (length b) (off + length d).
Proof. unfold store. rewrite !length_app, load_length, length_drop. lia. Qed.

(** Lists are equal when they have the same length and bytes. *)
Lemma bytes_eq b c :
  length b = length c -> (forall i, (i < length b)%nat -> peek b i = peek c i) -> b = c.
Proof.
  intros Hl Hb. apply list_eq_same_length with (length b); [done|done|].
  intros i x y Hi Hx Hy. specialize (Hb i Hi). unfold peek in Hb. by rewrite Hx, Hy in Hb.
Qed.

Lemma store_same b off d : (off + length d <= length b)%nat -> length (store b off d) = length b.
Proof. rewrite store_length. lia. Qed.

(** ** Supports *)

Definition bytes_of (s : memfs_support) : list Z := s_mmap s ++ s_extra s.

(** The file a support stands for. *)
Definition content (s : memfs_support) : list Z := load (bytes_of s) 0 (Z.to_nat (s_length s)).
Definition capacity (s : memfs_support) : Z := mmap_length s + MEMFS_MMAP_EXTRA_SPACE.

Record sup_ok (s : memfs_support) : Prop := {
  ok_length : 0 <= s_length s <= capacity s;
  ok_mmap : mmap_length s < 2 ^ 62
}.

Lemma content_length s : sup_ok s -> Z.of_nat (length (content s)) = s_length s.
Proof. intros [Hl _]. unfold content. rewrite load_length. lia. Qed.

(** The items of [size] bytes that can be read. *)
Definition items (size nmemb avail : Z) : Z := Z.min nmemb (Z.max 0 avail / size).

Lemma items_all size nmemb avail :
  0 < size -> 0 <= nmemb -> size * nmemb <= avail -> items size nmemb avail * size = size * nmemb.
Proof.
  intros Hs Hn Ha. unfold items. rewrite Z.min_l; [lia|].
  apply Z.div_le_lower_bound; lia.
Qed.

Lemma items_some size nmemb avail :
  0 < size -> 0 <= avail < size * nmemb -> items size nmemb avail * size = avail / size * size.
Proof.
  intros Hs Ha. unfold items. rewrite Z.max_r by lia. rewrite Z.min_r; [done|].
  apply Z.lt_le_incl, Z.div_lt_upper_bound; lia.
Qed.

Lemma items_none size nmemb avail : 0 < size -> 0 <= nmemb -> avail <= 0 -> items size nmemb avail = 0.
Proof. intros Hs Hn Ha. unfold items. rewrite Z.max_l, Z.div_0_l by lia. lia. Qed.

Lemma items_bounds size nmemb avail :
  0 < size -> 0 <= nmemb -> 0 <= avail -> 0 <= items size nmemb avail * size <= avail.
Proof.
  intros Hs Hn Ha. unfold items. rewrite Z.max_r by lia. pose proof (Z.mul_div_le avail size Hs).
  pose proof (Z.div_pos avail size Ha Hs). nia.
Qed.

Lemma drop_content_peek s off n i :
  sup_ok s -> 0 <= off -> 0 <= n -> off + n <= s_length s -> (i < Z.to_nat n)%nat ->
  peek (take (Z.to_nat n) (drop (Z.to_nat off) (content s))) i = peek (bytes_of s) (Z.to_nat off + i).
Proof.
  intros Hs Ho Hn Hl Hi. rewrite peek_take, peek_drop by done. unfold content. apply peek_load0. lia.
Qed.

(** An access is in the mapped block, in the extra block, or reaches from the
    end of the one into the start of the other. *)
Lemma mmap_part_cases s off n :
  0 <= off -> 0 <= n ->
  (mmap_part s off n = n /\ off + n <= mmap_length s) \/
  (mmap_part s off n = 0 /\ mmap_length s <= off) \/
  (0 < mmap_part s off n < n /\ off < mmap_length s /\ off + mmap_part s off n = mmap_length s).
Proof. intros Ho Hn. unfold mmap_part. destruct (Z.ltb_spec off (mmap_length s)); lia. Qed.

Lemma extra_off_eq s off n :
  0 <= off < 2 ^ 64 -> 0 <= n -> mmap_part s off n <> n ->
  extra_off s off (mmap_part s off n) = Z.max 0 (off - mmap_length s).
Proof.
  intros Ho Hn Hk. unfold extra_off, c_true. pose proof (Nat2Z.is_nonneg (length (s_mmap s))) as Hm.
  fold (mmap_length s) in Hm.
  destruct (mmap_part_cases s off n ltac:(lia) Hn) as [[]|[[-> ?]|(?&?&?)]]; [done| |].
  - cbn. rewrite u64_id; lia.
  - rewrite (proj2 (Z.eqb_neq _ _)) by lia. cbn. lia.
Qed.

(** Reading [n] bytes before the end of the file, from the two blocks. *)
Lemma read_blocks s off n :
  sup_ok s -> 0 <= off -> 0 <= n -> off + n <= s_length s ->
  load (s_mmap s) (Z.to_nat off) (Z.to_nat (mmap_part s off n)) ++
    load (s_extra s) (Z.to_nat (off - mmap_length s)) (Z.to_nat (n - mmap_part s off n)) =
  take (Z.to_nat n) (drop (Z.to_nat off) (content s)).
Proof.
  intros Hs Ho Hn Hl. pose proof (content_length s Hs) as Hcl.
  pose proof (mmap_part_cases s off n Ho Hn) as Hk. set (k := mmap_part s off n) in *. clearbody k.
  apply bytes_eq.
  { rewrite length_app, !load_length, length_take, length_drop. lia. }
  intros i Hi. rewrite length_app, !load_length in Hi. rewrite drop_content_peek by (done || lia).
  unfold bytes_of, mmap_length in *. destruct (decide (i < Z.to_nat k)%nat) as [Hik|Hik].
  - rewrite peek_app_l by (rewrite load_length; lia). rewrite load_peek by lia. rewrite peek_app_l by lia. done.
  - rewrite peek_app_r by (rewrite load_length; lia). rewrite load_length, load_peek by lia.
    rewrite peek_app_r by lia. f_equal. lia.
Qed.

Lemma sup_read_spec size nmemb off s :
  sup_ok s -> 0 < size -> 0 <= nmemb -> size * nmemb < 2 ^ 63 -> 0 <= off ->
  let n := items size nmemb (s_length s - off) * size in
  sup_read size nmemb off s = Val (n, take (Z.to_nat n) (drop (Z.to_nat off) (content s))).
Proof.
  intros Hs Hsz Hnm Hsm Ho. pose proof Hs as [Hl Hm]. unfold sup_read, capacity, MEMFS_MMAP_EXTRA_SPACE in *.
  destruct (Z.gtb_spec off (s_length s)) as [Hg|Hg]; [|destruct (Z.eqb_spec off (s_length s)) as [He|He]].
  1,2: by rewrite items_none by lia.
  rewrite (u64_id (size * nmemb)) by nia. rewrite u64_id by nia.
  assert ((if off + size * nmemb >? s_length s then (s_length s - off) / size * size else size * nmemb) =
    items size nmemb (s_length s - off) * size) as ->.
  { destruct (Z.gtb_spec (off + size * nmemb) (s_length s)).
    - by rewrite items_some by lia.
    - by rewrite items_all by lia. }
  pose proof (items_bounds size nmemb (s_length s - off) Hsz Hnm ltac:(lia)) as Hb.
  cbv zeta. set (n := items size nmemb (s_length s - off) * size) in *. clearbody n.
  pose proof (read_blocks s off n Hs Ho ltac:(lia) ltac:(lia)) as Hr.
  pose proof (mmap_part_cases s off n Ho ltac:(lia)) as Hk.
  assert ((if off <? mmap_length s then copy_from (mmap_length s) (s_mmap s) off (mmap_part s off n) else Val []) =
    Val (load (s_mmap s) (Z.to_nat off) (Z.to_nat (mmap_part s off n)))) as ->.
  { unfold copy_from. destruct (Z.ltb_spec off (mmap_length s)) as [H|H]; [by zbool|].
    by replace (mmap_part s off n) with 0 by lia. }
  cbn [ebind]. destruct (Z.eqb_spec (mmap_part s off n) n) as [Hkn|Hkn].
  - rewrite <- Hr, Hkn, Z.sub_diag. unfold load at 3. cbn. by rewrite app_nil_r.
  - rewrite extra_off_eq by lia. rewrite u64_id by lia. rewrite (proj2 (Z.leb_le _ _)) by lia. cbn [fs_eassert ebind].
    unfold copy_from. zbool. rewrite <- Hr. replace (Z.to_nat (Z.max 0 (off - mmap_length s))) with (Z.to_nat (off - mmap_length s)) by lia.
    done.
Qed.

(** The [total] bytes written. *)
Definition written (ptr : option (list Z)) (total : Z) : list Z :=
  match ptr with None => replicate (Z.to_nat total) 0 | Some d => d end.
Definition ptr_ok (ptr : option (list Z)) (total : Z) : Prop :=
  match ptr with None => True | Some d => Z.of_nat (length d) = total end.

Lemma written_length ptr total : 0 <= total -> ptr_ok ptr total -> Z.of_nat (length (written ptr total)) = total.
Proof. intros Ht. destruct ptr as [d|]; cbn; [done|]. intros _. rewrite length_replicate. lia. Qed.

Lemma source_bytes_spec ptr total from n :
  ptr_ok ptr total -> 0 <= from -> 0 <= n -> from + n <= total ->
  source_bytes ptr from n = Val (take (Z.to_nat n) (drop (Z.to_nat from) (written ptr total))).
Proof.
  intros Hp Hf Hn Hl. destruct ptr as [d|]; cbn in *.
  - by rewrite (proj2 (Z.leb_le _ _)) by lia.
  - rewrite drop_replicate, take_replicate. do 2 f_equal. lia.
Qed.

(** The two blocks after writing [d] at [off]. *)
Definition mmap_after (s : memfs_support) (off : Z) (d : list Z) : list Z :=
  if off <? mmap_length s then store (s_mmap s) (Z.to_nat off) (take (Z.to_nat (mmap_part s off (Z.of_nat (length d)))) d)
  else s_mmap s.
Definition extra_after (s : memfs_support) (off : Z) (d : list Z) : list Z :=
  let k := mmap_part s off (Z.of_nat (length d)) in
  if k =? Z.of_nat (length d) then s_extra s
  else store (s_extra s) (Z.to_nat (off - mmap_length s)) (drop (Z.to_nat k) d).

Lemma mmap_after_length s off d : 0 <= off -> length (mmap_after s off d) = length (s_mmap s).
Proof.
  intros Ho. unfold mmap_after, mmap_part, mmap_length. destruct (Z.ltb_spec off (Z.of_nat (length (s_mmap s)))); [|done].
  apply store_same. rewrite length_take. lia.
Qed.

Lemma write_blocks s d off i :
  0 <= off -> peek (mmap_after s off d ++ extra_after s off d) i = peek (store (bytes_of s) (Z.to_nat off) d) i.
Proof.
  intros Ho. rewrite peek_store. pose proof (mmap_part_cases s off (Z.of_nat (length d)) Ho ltac:(lia)) as Hk.
  pose proof (mmap_after_length s off d Ho) as Hlen. unfold bytes_of.
  destruct (decide (i < length (s_mmap s))%nat) as [Hi|Hi].
  - rewrite !peek_app_l by lia. unfold mmap_after. unfold mmap_length in *.
    destruct (Z.ltb_spec off (Z.of_nat (length (s_mmap s)))) as [Hm|Hm]; [|by rewrite decide_False by lia].
    rewrite peek_store, length_take. case_decide as Hd.
    + rewrite decide_True by lia. rewrite peek_take by lia. done.
    + rewrite decide_False by lia. done.
  - rewrite !peek_app_r, Hlen by lia. unfold extra_after. cbv zeta.
    set (k := mmap_part s off (Z.of_nat (length d))) in *. clearbody k. unfold mmap_length in *.
    destruct (Z.eqb_spec k (Z.of_nat (length d))) as [Hkd|Hkd]; [by rewrite decide_False by lia|].
    rewrite peek_store, length_drop, peek_drop.
    case_decide; [rewrite decide_True by lia; f_equal; lia|by rewrite decide_False by lia].
Qed.

(** What stays when a support is written. *)
Definition same_file (s s' : memfs_support) : Prop :=
  s_filename s' = s_filename s /\ s_inode s' = s_inode s /\ mmap_length s' = mmap_length s.

Lemma sup_write_at_eq ptr total off s :
  sup_ok s -> 0 <= total -> ptr_ok ptr total -> 0 <= off <= s_length s -> off + total <= capacity s ->
  let d := written ptr total in
  sup_write_at ptr total off s =
    Val (mk_support (s_filename s) (s_inode s) (mmap_after s off d) (extra_after s off d) (Z.max (s_length s) (off + total))).
Proof.
  intros Hs Ht Hp Ho Hc. pose proof Hs as [Hl Hm]. unfold sup_write_at, mmap_after, extra_after, capacity, MEMFS_MMAP_EXTRA_SPACE in *.
  pose proof (written_length ptr total Ht Hp) as Hwl. cbv zeta. rewrite Hwl.
  pose proof (mmap_part_cases s off total ltac:(lia) Ht) as Hk.
  assert ((if off <? mmap_length s
            then d <-? source_bytes ptr 0 (mmap_part s off total) ;; copy_to (mmap_length s) (s_mmap s) off d else Val (s_mmap s)) =
    Val (if off <? mmap_length s
         then store (s_mmap s) (Z.to_nat off) (take (Z.to_nat (mmap_part s off total)) (written ptr total)) else s_mmap s)) as ->.
  { destruct (Z.ltb_spec off (mmap_length s)); [|done]. rewrite (source_bytes_spec ptr total) by (done || lia).
    cbn [ebind Z.to_nat drop]. unfold copy_to. rewrite length_take. rewrite !(proj2 (Z.leb_le _ _)) by lia. done. }
  cbn [ebind]. rewrite (u64_id (off + total)) by lia.
  destruct (Z.eqb_spec (mmap_part s off total) total) as [|Hne]; [done|].
  rewrite extra_off_eq, u64_id by lia. rewrite (proj2 (Z.leb_le _ _)) by lia.
  rewrite (source_bytes_spec ptr total) by (done || lia). cbn [ebind].
  rewrite take_ge by (rewrite length_drop; lia). unfold copy_to. rewrite length_drop.
  rewrite !(proj2 (Z.leb_le _ _)) by lia. cbn [andb ebind].
  by replace (Z.to_nat (Z.max 0 (off - mmap_length s))) with (Z.to_nat (off - mmap_length s)) by lia.
Qed.

Lemma sup_write_at_Val ptr total off s :
  sup_ok s -> 0 <= total -> ptr_ok ptr total -> 0 <= off <= s_length s -> off + total <= capacity s ->
  exists s', sup_write_at ptr total off s = Val s' /\ sup_ok s' /\ same_file s s' /\
    content s' = store (content s) (Z.to_nat off) (written ptr total) /\ s_length s' = Z.max (s_length s) (off + total).
Proof.
  intros Hs Ht Hp Ho Hc. pose proof Hs as [Hl Hm]. pose proof (written_length ptr total Ht Hp) as Hwl.
  eexists. split; [by apply sup_write_at_eq|]. set (d := written ptr total) in *.
  assert (forall l, mmap_length (mk_support (s_filename s) (s_inode s) (mmap_after s off d) (extra_after s off d) l) = mmap_length s) as Hme
    by (intros; unfold mmap_length; cbn; by rewrite mmap_after_length by lia).
  split; [split; unfold capacity in *; rewrite Hme; cbn [s_length]; lia|].
  split; [by split; [|split]|]. split; [|done].
  pose proof (content_length s Hs) as Hcl. apply bytes_eq.
  { rewrite store_length. unfold content at 1. rewrite load_length. cbn [s_length]. lia. }
  intros i Hi. unfold content at 1 in Hi. rewrite load_length in Hi. unfold content at 1. rewrite peek_load0 by done.
  unfold bytes_of at 1. cbn [s_mmap s_extra s_length] in *. rewrite write_blocks, !peek_store by lia.
  case_decide; [done|]. unfold content. rewrite peek_load0 by lia. done.
Qed.

(** A write past the extra block stops the process. *)
Lemma sup_write_at_Fail ptr total off s :
  sup_ok s -> 0 <= total -> ptr_ok ptr total -> 0 <= off <= s_length s -> off + total < 2 ^ 64 ->
  capacity s < off + total -> sup_write_at ptr total off s = Fail (HExit SKI_EXIT_MEMFS).
Proof.
  intros Hs Ht Hp Ho Hw Hc. pose proof Hs as [Hl Hm]. unfold sup_write_at, capacity, MEMFS_MMAP_EXTRA_SPACE in *.
  pose proof (mmap_part_cases s off total ltac:(lia) Ht) as Hk.
  assert (exists l, (if off <? mmap_length s
            then d <-? source_bytes ptr 0 (mmap_part s off total) ;; copy_to (mmap_length s) (s_mmap s) off d else Val (s_mmap s)) =
    Val l) as [l ->].
  { destruct (Z.ltb_spec off (mmap_length s)); [|by eexists]. rewrite (source_bytes_spec ptr total) by (done || lia).
    cbn [ebind Z.to_nat drop]. unfold copy_to. pose proof (written_length ptr total Ht Hp). rewrite length_take. rewrite !(proj2 (Z.leb_le _ _)) by lia. by eexists. }
  pose proof (Nat2Z.is_nonneg (length (s_mmap s))) as Hm0. fold (mmap_length s) in Hm0. cbn [ebind]. rewrite (proj2 (Z.eqb_neq _ _)) by lia. rewrite extra_off_eq, u64_id by lia.
  by rewrite (proj2 (Z.leb_gt _ _)) by lia.
Qed.

(** A file that is extended by zeroes and then written is written in one go. *)
Lemma store_store_zero b off d :
  (length b <= off)%nat -> store (store b (length b) (replicate (off - length b) 0)) off d = store b off d.
Proof.
  intros Ho. apply bytes_eq; [rewrite !store_length, length_replicate; lia|]. intros i _.
  rewrite !peek_store, length_replicate. case_decide; [done|]. case_decide; [|done].
  rewrite (peek_beyond b) by lia. unfold peek. rewrite lookup_replicate_2 by lia. done.
Qed.

(** Writing any bytes anywhere. *)
Lemma sup_write_spec d size nmemb off s :
  sup_ok s -> 0 <= size * nmemb < 2 ^ 63 -> Z.of_nat (length d) = size * nmemb -> 0 <= off < 2 ^ 64 ->
  if off + size * nmemb <=? capacity s then
    exists s', sup_write (Some d) size nmemb off s = Val s' /\ sup_ok s' /\ same_file s s' /\
      content s' = store (content s) (Z.to_nat off) d
  else sup_write (Some d) size nmemb off s = Fail (HExit SKI_EXIT_MEMFS).
Proof.
  intros Hs Hsz Hd Ho. pose proof Hs as [Hl Hm]. pose proof (content_length s Hs) as Hcl. unfold sup_write.
  rewrite (u64_id (size * nmemb)) by lia. destruct (Z.gtb_spec off (s_length s)) as [Hg|Hg].
  - destruct (Z.leb_spec off (capacity s)) as [Hoc|Hoc].
    2:{ rewrite (proj2 (Z.leb_gt _ _)) by lia. rewrite sup_write_at_Fail by (done || lia). done. }
    destruct (sup_write_at_Val None (off - s_length s) (s_length s) s Hs ltac:(lia) I ltac:(lia) ltac:(lia))
      as (s1&->&Hs1&(Hn1&Hi1&Hm1)&Hc1&Hl1).
    cbn [ebind]. rewrite (proj2 (Z.leb_le _ (s_length s1))) by lia. cbn [fs_eassert ebind].
    assert (capacity s1 = capacity s) as Hcap by (unfold capacity; lia).
    destruct (Z.leb_spec (off + size * nmemb) (capacity s)) as [Hf|Hf].
    + destruct (sup_write_at_Val (Some d) (size * nmemb) off s1 Hs1 ltac:(lia) Hd ltac:(lia) ltac:(lia))
        as (s2&->&Hs2&(Hn2&Hi2&Hm2)&Hc2&_).
      exists s2. split; [done|]. split; [done|]. split; [split; [congruence|split; congruence]|].
      rewrite Hc2, Hc1. cbn [written].
      replace (Z.to_nat (off - s_length s)) with (Z.to_nat off - length (content s))%nat by lia.
      replace (Z.to_nat (s_length s)) with (length (content s)) by lia. apply store_store_zero. lia.
    + unfold capacity, MEMFS_MMAP_EXTRA_SPACE in *. apply sup_write_at_Fail; (done || unfold capacity, MEMFS_MMAP_EXTRA_SPACE; lia).
  - cbn [ebind]. destruct (Z.leb_spec (off + size * nmemb) (capacity s)) as [Hf|Hf].
    + destruct (sup_write_at_Val (Some d) (size * nmemb) off s Hs ltac:(lia) Hd ltac:(lia) ltac:(lia))
        as (s2&->&Hs2&Hsame&Hc2&_).
      by exists s2.
    + unfold capacity, MEMFS_MMAP_EXTRA_SPACE in *. apply sup_write_at_Fail; (done || unfold capacity, MEMFS_MMAP_EXTRA_SPACE; lia).
Qed.
