(* ===== verification/MemfsRefine.v ===== *)
(** * MemfsRefine.v -- the in-memory file system implements files

    The abstract file system: files with an inode, a content of bytes and a
    capacity, and open files with an offset.  [spec_op] says what each operation
    answers, or with which exit the process ends; [ski_memfs_refines] shows that
    the hooks of [Memfs] (two memory blocks per file, tables of supports and
    files) do exactly this for any sequence of operations, [ski_memfs_fgets_line]
    that lines are read as libc's [fgets] reads them. *)

From Stdlib Require Import Strings.String.
From S2P Require Import Prelude CString Machine Memfs.

(** ** Files *)

Record afile := mk_afile { a_inode : Z; a_capacity : Z; a_content : list Z }.
Record aopen := mk_aopen { ao_file : nat; ao_off : Z; ao_closed : bool }.
Record afs := mk_afs { as_files : list afile; as_open : list aopen; as_ignored : Z }.

#[export] Instance afile_inhabited : Inhabited afile := populate (mk_afile 0 0 []).
#[export] Instance aopen_inhabited : Inhabited aopen := populate (mk_aopen 0 0 false).

Definition a_length (f : afile) : Z := Z.of_nat (length (a_content f)).

Definition set_off (i : nat) (off : Z) (a : afs) : afs :=
  mk_afs (as_files a) (alter (fun o => mk_aopen (ao_file o) off (ao_closed o)) i (as_open a)) (as_ignored a).
Definition set_closed (i : nat) (a : afs) : afs :=
  mk_afs (as_files a) (alter (fun o => mk_aopen (ao_file o) (ao_off o) true) i (as_open a)) (as_ignored a).
Definition set_content (j : nat) (c : list Z) (a : afs) : afs :=
  mk_afs (alter (fun f => mk_afile (a_inode f) (a_capacity f) c) j (as_files a)) (as_open a) (as_ignored a).

(** ** Operations *)

(** The open file of a descriptor and of a stream. *)
Definition open_fd (fd : Z) (a : afs) : option nat :=
  let i := wrap32 (fd - MEMFS_FD_START) in
  if (i >=? 0) && (i <? Z.of_nat (length (as_open a))) then Some (Z.to_nat i) else None.
Definition open_stream (fp : FILE) (a : afs) : option nat :=
  match fp with FMem i => if (i <? length (as_open a))%nat then Some i else None | _ => None end.

Definition with_open {A} (o : option nat) (k : nat -> aopen -> afile -> E (afs * A)) (a : afs) : E (afs * answer A) :=
  match o with
  | None => Val (a, Host)
  | Some i =>
      let o := as_open a !!! i in
      if ao_closed o then Fail (HExit SKI_EXIT_MEMFS)
      else r <-? k i o (as_files a !!! ao_file o) ;; Val (fst r, Own (snd r))
  end.

(** Reading whole items, as many as there are. *)
Definition spec_read (size nmemb off : Z) (f : afile) : Z * list Z :=
  let n := items size nmemb (a_length f - off) * size in
  (n, take (Z.to_nat n) (drop (Z.to_nat off) (a_content f))).

(** Writing at any offset that fits; a gap is filled with zeroes. *)
Definition spec_write (d : list Z) (off : Z) (o : aopen) (f : afile) (a : afs) : E afs :=
  if off + Z.of_nat (length d) <=? a_capacity f
  then Val (set_content (ao_file o) (store (a_content f) (Z.to_nat off) d) a)
  else Fail (HExit SKI_EXIT_MEMFS).

(** The new offset must be in the file. *)
Definition spec_seek (offset whence : Z) (o : aopen) (f : afile) : E Z :=
  off <-? (if whence =? 0 then Val (u64 offset)
           else if whence =? 1 then Val (u64 (ao_off o + offset))
           else if whence =? 2 then Val (u64 (a_length f + offset))
           else Fail (HExit SKI_EXIT_MEMFS)) ;;
  if off <=? a_length f then Val off else Fail (HExit SKI_EXIT_MEMFS).

Definition spec_ignore (path : list Z) (a : afs) : E afs :=
  if (as_ignored a <? MEMFS_MAX_FILES) && (Z.of_nat (length path) <? MEMFS_MAX_FILENAME)
  then Val (mk_afs (as_files a) (as_open a) (as_ignored a + 1)) else Fail (HExit SKI_EXIT_MEMFS).

(** A file is opened by its inode: known files are shared, others are copied. *)
Definition spec_open (path : list Z) (h : host_file) (a : afs) : E (afs * nat) :=
  if (Z.of_nat (length path) <? MEMFS_MAX_FILENAME - 1) && (Z.of_nat (length (as_files a)) <? MEMFS_MAX_FILES) then
    if negb (Z.of_nat (length (as_open a)) <? MEMFS_MAX_FILES) then Fail HUndef
    else if h_fd h =? 0 then Fail (HExit SKI_EXIT_MEMFS)
    else
      match h_fstat h with
      | None => Fail (HExit SKI_EXIT_MEMFS)
      | Some (ino, c) =>
          let '(j, files) :=
            match list_find (fun f => a_inode f = wrap32 ino) (as_files a) with
            | Some (j, _) => (j, as_files a)
            | None => (length (as_files a),
                       as_files a ++ [mk_afile (wrap32 ino) (Z.of_nat (length c) + MEMFS_MMAP_EXTRA_SPACE) c])
            end in
          Val (mk_afs files (as_open a ++ [mk_aopen j 0 false]) (as_ignored a), length (as_open a))
      end
  else Fail (HExit SKI_EXIT_MEMFS).

Inductive op :=
  | OOpen (path : list Z) (flags : Z) (h : host_file)
  | OFopen (path mode : list Z) (host : option (Z * host_file))
  | OClose (fd : Z)
  | OFclose (fp : FILE)
  | ORead (fd count : Z)
  | OPread (fd count offset : Z)
  | OWrite (fd : Z) (d : list Z)
  | OPwrite (fd : Z) (d : list Z) (offset : Z)
  | OFread (size nmemb : Z) (fp : FILE)
  | OFwrite (d : list Z) (size nmemb : Z) (fp : FILE)
  | OLseek (fd offset whence : Z)
  | OFseek (fp : FILE) (offset whence : Z)
  | OFtell (fp : FILE)
  | ORewind (fp : FILE)
  | OFtruncate (fd len : Z)
  | OFileno (fp : FILE).

Inductive reply := RInt (z : Z) | RData (r : Z * list Z) | RFile (f : FILE) | RHost.

Definition reply_of {A} (f : A -> reply) (a : answer A) : reply := match a with Own x => f x | Host => RHost end.
Definition close_reply (a : answer Z) : reply := RInt (match a with Own r => r | Host => 0 end).

Definition efmap {A B} (f : A -> B) (e : E (afs * A)) : E (afs * B) := r <-? e ;; Val (fst r, f (snd r)).

Definition spec_op (o : op) (a : afs) : E (afs * reply) :=
  match o with
  | OOpen path flags h =>
      if negb (memfs_intercept_filename path) then a <-? spec_ignore path a ;; Val (a, RInt (h_fd h))
      else if h_fd h =? 0 then Val (a, RInt 0)
      else
        r <-? spec_open path h a ;;
        let '(a, i) := r in
        let f := as_files a !!! ao_file (as_open a !!! i) in
        Val (if c_true (Z.land flags O_APPEND) then set_off i (a_length f) a else a,
             RInt (Z.of_nat i + MEMFS_FD_START))
  | OFopen path mode host =>
      if negb (memfs_intercept_filename path) then
        a <-? spec_ignore path a ;;
        Val (a, RFile (match host with Some (h, _) => FHost h | None => FNull end))
      else
        match host with
        | None => Val (a, RFile FNull)
        | Some (_, hf) =>
            if hd 0 mode =? 97 then Fail (HExit SKI_EXIT_MEMFS)
            else r <-? spec_open path hf a ;; Val (fst r, RFile (FMem (snd r)))
        end
  | OClose fd => efmap close_reply (with_open (open_fd fd a) (fun i _ _ => Val (set_closed i a, 0)) a)
  | OFclose fp => efmap close_reply (with_open (open_stream fp a) (fun i _ _ => Val (set_closed i a, 0)) a)
  | ORead fd count => efmap (reply_of RData) (with_open (open_fd fd a) (fun i o f =>
      let r := spec_read 1 count (ao_off o) f in Val (set_off i (ao_off o + fst r) a, r)) a)
  | OPread fd count offset => efmap (reply_of RData) (with_open (open_fd fd a) (fun i o f =>
      Val (a, spec_read 1 count (u64 offset) f)) a)
  | OWrite fd d => efmap (reply_of RInt) (with_open (open_fd fd a) (fun i o f =>
      a <-? spec_write d (ao_off o) o f a ;;
      Val (set_off i (ao_off o + Z.of_nat (length d)) a, Z.of_nat (length d))) a)
  | OPwrite fd d offset => efmap (reply_of RInt) (with_open (open_fd fd a) (fun i o f =>
      a <-? spec_write d (u64 offset) o f a ;; Val (a, Z.of_nat (length d))) a)
  | OFread size nmemb fp => efmap (reply_of RData) (with_open (open_stream fp a) (fun i o f =>
      let r := spec_read size nmemb (ao_off o) f in
      Val (set_off i (ao_off o + fst r) a, (items size nmemb (a_length f - ao_off o), snd r))) a)
  | OFwrite d size nmemb fp => efmap (reply_of RInt) (with_open (open_stream fp a) (fun i o f =>
      a <-? spec_write d (ao_off o) o f a ;;
      Val (set_off i (ao_off o + Z.of_nat (length d)) a, nmemb)) a)
  | OLseek fd offset whence => efmap (reply_of RInt) (with_open (open_fd fd a) (fun i o f =>
      off <-? spec_seek offset whence o f ;; Val (set_off i off a, off)) a)
  | OFseek fp offset whence => efmap (reply_of RInt) (with_open (open_stream fp a) (fun i o f =>
      off <-? spec_seek offset whence o f ;; Val (set_off i off a, 0)) a)
  | OFtell fp => efmap (reply_of RInt) (with_open (open_stream fp a) (fun i o f => Val (a, ao_off o)) a)
  | ORewind fp => efmap (reply_of (fun _ => RInt 0)) (with_open (open_stream fp a) (fun i o f => Val (set_off i 0 a, tt)) a)
  | OFtruncate fd len => efmap (reply_of RInt) (with_open (open_fd fd a) (fun i o f =>
      if u64 len >? a_length f then Fail (HExit SKI_EXIT_MEMFS)
      else Val (set_content (ao_file o) (take (Z.to_nat (u64 len)) (a_content f)) a, 0)) a)
  | OFileno fp => efmap (reply_of RInt) (with_open (open_stream fp a) (fun i o f =>
      Val (a, Z.of_nat i + MEMFS_FD_START)) a)
  end.

Fixpoint spec_ops (ops : list op) (a : afs) : E (afs * list reply) :=
  match ops with
  | [] => Val (a, [])
  | o :: ops' =>
      r <-? spec_op o a ;;
      rs <-? spec_ops ops' (fst r) ;;
      Val (fst rs, snd r :: snd rs)
  end.

Definition afs_empty : afs := mk_afs [] [] 0.

(** The hook of each operation; the host is not asked for its answers outside
    test mode. *)
Definition run_op (getenv : list Z -> option (list Z)) (o : op) : MFS reply :=
  let rep {A} (f : A -> reply) (m : MFS (answer A)) : MFS reply := a <- m ;; ret (reply_of f a) in
  match o with
  | OOpen path flags h => fd <- memfs_hook_open getenv path flags h ;; ret (RInt fd)
  | OFopen path mode host => f <- memfs_hook_fopen getenv path mode host ;; ret (RFile f)
  | OClose fd => r <- memfs_hook_close getenv fd ;; ret (RInt r)
  | OFclose fp => r <- memfs_hook_fclose getenv fp ;; ret (RInt r)
  | ORead fd count => rep RData (memfs_hook_read getenv fd count (0, []))
  | OPread fd count offset => rep RData (memfs_hook_pread getenv fd count offset (0, []))
  | OWrite fd d => rep RInt (memfs_hook_write getenv fd d (Z.of_nat (length d)) 0)
  | OPwrite fd d offset => rep RInt (memfs_hook_pwrite getenv fd d (Z.of_nat (length d)) offset 0)
  | OFread size nmemb fp => rep RData (memfs_hook_fread getenv size nmemb fp (0, []))
  | OFwrite d size nmemb fp => rep RInt (memfs_hook_fwrite getenv d size nmemb fp 0)
  | OLseek fd offset whence => rep RInt (memfs_hook_lseek getenv fd offset whence 0)
  | OFseek fp offset whence => rep RInt (memfs_hook_fseek getenv fp offset whence 0)
  | OFtell fp => rep RInt (memfs_hook_ftell getenv fp 0)
  | ORewind fp => rep (fun _ => RInt 0) (memfs_hook_rewind getenv fp)
  | OFtruncate fd len => rep RInt (memfs_hook_ftruncate getenv fd len 0)
  | OFileno fp => rep RInt (memfs_hook_fileno getenv fp)
  end.

(** ** Abstraction *)

Definition abs_sup (s : memfs_support) : afile := mk_afile (s_inode s) (capacity s) (content s).
Definition abs_file (f : memfs_file) : aopen := mk_aopen (f_sup f) (f_off f) (f_closed f).
Definition abs (m : memfs) : afs :=
  mk_afs (abs_sup <$> ms_sups m) (abs_file <$> ms_files m) (Z.of_nat (length (ms_ignorelist m))).

Definition file_ok (sups : nat) (i : nat) (f : memfs_file) : Prop :=
  f_id f = Z.of_nat i /\ (f_sup f < sups)%nat /\ 0 <= f_off f < 2 ^ 63.

(** A state of the file system outside test mode. *)
Record wf (m : memfs) : Prop := {
  wf_initialized : ms_initialized m = true;
  wf_enabled : c_true (ms_enabled m) = true;
  wf_test : c_true (ms_test_mode m) = false;
  wf_sups : Forall sup_ok (ms_sups m);
  wf_files : forall i f, ms_files m !! i = Some f -> file_ok (length (ms_sups m)) i f
}.

(** What the calls pass: sizes are below [2^63], a stream's items are not empty. *)
Definition op_ok (o : op) : Prop :=
  match o with
  | OOpen _ _ h | OFopen _ _ (Some (_, h)) =>
      match h_fstat h with Some (_, c) => Z.of_nat (length c) < 2 ^ 62 | None => True end
  | ORead _ count => 0 <= count < 2 ^ 63
  | OPread _ count _ => 0 <= count < 2 ^ 63
  | OWrite _ d | OPwrite _ d _ => Z.of_nat (length d) < 2 ^ 63
  | OFread size nmemb _ => 0 < size /\ 0 <= nmemb /\ size * nmemb < 2 ^ 63
  | OFwrite d size nmemb _ => 0 < size /\ 0 <= nmemb /\ size * nmemb < 2 ^ 63 /\ Z.of_nat (length d) = size * nmemb
  | _ => True
  end.

(** A computation of the code does what the specification says. *)
Definition matches {A} (r : R memfs A) (e : E (afs * A)) : Prop :=
  match e with
  | Val (a, v) => exists m, r = Ret m v /\ wf m /\ abs m = a
  | Fail h => exists m, r = Halt m h
  end.

Section refines.
Context (getenv : list Z -> option (list Z)).

Lemma init_wrappers_wf m : wf m -> init_wrappers getenv m = Ret m tt.
Proof. intros [Hi _ _ _ _]. unfold init_wrappers. erewrite bind_Ret by done. by rewrite Hi. Qed.

(** *** Open files *)

Lemma abs_open_at m i : (i < length (ms_files m))%nat -> as_open (abs m) !!! i = abs_file (the_file i m).
Proof.
intros Hi. apply list_lookup_total_correct. unfold abs, the_file. cbn.
by rewrite list_lookup_fmap, (list_lookup_lookup_total_lt (ms_files m) i Hi).
Qed.

Lemma the_file_ok m i : wf m -> (i < length (ms_files m))%nat -> file_ok (length (ms_sups m)) i (the_file i m).
Proof.
intros Hwf Hi. apply (wf_files m Hwf). unfold the_file. apply list_lookup_lookup_total_lt. done.
Qed.

Lemma abs_file_at m i :
wf m -> (i < length (ms_files m))%nat -> as_files (abs m) !!! f_sup (the_file i m) = abs_sup (the_sup i m).
Proof.
intros Hwf Hi. pose proof (the_file_ok m i Hwf Hi) as (_&Hs&_). apply list_lookup_total_correct. unfold abs, the_sup. cbn.
by rewrite list_lookup_fmap, (list_lookup_lookup_total_lt (ms_sups m) _ Hs).
Qed.

Lemma the_sup_ok m i : wf m -> (i < length (ms_files m))%nat -> sup_ok (the_sup i m).
Proof.
intros Hwf Hi. pose proof (the_file_ok m i Hwf Hi) as (_&Hs&_). unfold the_sup.
apply (Forall_lookup_total_1 _ _ _ (wf_sups m Hwf) Hs).
Qed.

Lemma open_length m : length (as_open (abs m)) = length (ms_files m).
Proof. unfold abs. cbn. by rewrite length_fmap. Qed.

(** What looking for an open file gives. *)
Definition found (o : option nat) (m : memfs) : R memfs (option nat) :=
match o with
| None => Ret m None
| Some i => if f_closed (the_file i m) then Halt m (HExit SKI_EXIT_MEMFS) else Ret m (Some i)
end.

Lemma get_fd_found fd m : memfs_get_fd fd m = found (open_fd fd (abs m)) m.
Proof.
unfold memfs_get_fd, open_fd. erewrite bind_Ret by done. rewrite open_length. cbv zeta.
destruct (_ && _); [|done]. unfold found. by destruct (f_closed _).
Qed.

Lemma get_file_found fp m : memfs_get_file fp m = found (open_stream fp (abs m)) m.
Proof.
unfold memfs_get_file, open_stream. erewrite bind_Ret by done. rewrite open_length.
destruct fp as [|h|i]; [done..|]. destruct (i <? length (ms_files m))%nat; [|done].
unfold found. by destruct (f_closed _).
Qed.

Lemma open_fd_lt fd m i : open_fd fd (abs m) = Some i -> (i < length (ms_files m))%nat.
Proof.
unfold open_fd. rewrite open_length. cbv zeta. destruct (_ && _) eqn:E; [|done]. intros [= <-]. lia.
Qed.

Lemma open_stream_lt fp m i : open_stream fp (abs m) = Some i -> (i < length (ms_files m))%nat.
Proof.
unfold open_stream. rewrite open_length. destruct fp as [|h|j]; [done..|].
destruct (Nat.ltb_spec j (length (ms_files m))); [|done]. by intros [= <-].
Qed.

(** A hook does what the operation says when its body does. *)
Lemma hooked_matches {A} find o (k : nat -> MFS A) k' m :
wf m -> find m = found o m -> (forall i, o = Some i -> (i < length (ms_files m))%nat) ->
(forall i, (i < length (ms_files m))%nat -> matches (k i m) (k' i (abs_file (the_file i m)) (abs_sup (the_sup i m)))) ->
matches (hooked getenv find k m) (with_open o k' (abs m)).
Proof.
intros Hwf Hf Ho Hk. unfold hooked, with_open. erewrite bind_Ret by by apply init_wrappers_wf.
erewrite bind_Ret by done. rewrite (wf_enabled m Hwf). destruct o as [i|]; cbn [found] in Hf.
2:{ erewrite bind_Ret by done. by exists m. }
specialize (Ho i eq_refl). rewrite abs_open_at by done. cbv zeta.
change (ao_closed (abs_file (the_file i m))) with (f_closed (the_file i m)).
change (ao_file (abs_file (the_file i m))) with (f_sup (the_file i m)).
rewrite abs_file_at by done. destruct (f_closed (the_file i m)) eqn:Ec.
{ erewrite bind_Halt by done. by exists m. }
erewrite bind_Ret by done. specialize (Hk i Ho).
destruct (k' i _ _) as [[a v]|h]; cbn [matches ebind fst snd] in *.
- destruct Hk as (m'&Em&Hw&Ha). exists m'. erewrite bind_Ret by done. done.
- destruct Hk as (m'&Em). exists m'. by erewrite bind_Halt by done.
Qed.

Lemma matches_fmap {A B} (f : A -> B) (x : MFS A) m e :
matches (x m) e -> matches ((a <- x ;; ret (f a)) m) (efmap f e).
Proof.
destruct e as [[a v]|h]; cbn [matches efmap ebind fst snd].
- intros (m'&E&Hw&Ha). exists m'. by erewrite bind_Ret by done.
- intros (m'&E). exists m'. by erewrite bind_Halt by done.
Qed.

Lemma fd_matches {A B} (f : answer A -> B) fd (k : nat -> MFS A) k' m :
wf m ->
(forall i, (i < length (ms_files m))%nat -> matches (k i m) (k' i (abs_file (the_file i m)) (abs_sup (the_sup i m)))) ->
matches ((a <- hooked getenv (memfs_get_fd fd) k ;; ret (f a)) m) (efmap f (with_open (open_fd fd (abs m)) k' (abs m))).
Proof.
intros Hwf Hk. apply matches_fmap, hooked_matches; [done|apply get_fd_found|intros i; apply open_fd_lt|done].
Qed.

Lemma stream_matches {A B} (f : answer A -> B) fp (k : nat -> MFS A) k' m :
wf m ->
(forall i, (i < length (ms_files m))%nat -> matches (k i m) (k' i (abs_file (the_file i m)) (abs_sup (the_sup i m)))) ->
matches ((a <- hooked getenv (memfs_get_file fp) k ;; ret (f a)) m)
  (efmap f (with_open (open_stream fp (abs m)) k' (abs m))).
Proof.
intros Hwf Hk. apply matches_fmap, hooked_matches; [done|apply get_file_found|intros i; apply open_stream_lt|done].
Qed.

(** *** Updates *)

Lemma wf_alter_file m i f :
wf m -> (forall x, file_ok (length (ms_sups m)) i x -> file_ok (length (ms_sups m)) i (f x)) ->
wf (set_ms_files (alter f i (ms_files m)) m).
Proof.
intros [Hi He Ht Hs Hf] Hok. split; [done..|]. intros j x. cbn [ms_files ms_sups set_ms_files].
destruct (decide (i = j)) as [<-|Hne].
- rewrite list_lookup_alter_eq. intros (y&Hy&->)%fmap_Some. eauto.
- rewrite list_lookup_alter_ne by done. apply Hf.
Qed.

Lemma alter_abs (f : memfs_file -> memfs_file) (g : aopen -> aopen) (i : nat) (l : list memfs_file) :
(forall x, abs_file (f x) = g (abs_file x)) -> abs_file <$> alter f i l = alter g i (abs_file <$> l).
Proof.
intros H. revert i. induction l as [|x l IH]; intros [|i]; try done; cbn; [by rewrite H|]. f_equal. apply IH.
Qed.

Lemma set_f_off_matches m i v :
wf m -> 0 <= v < 2 ^ 63 ->
exists m', mod_file i (set_f_off v) m = Ret m' tt /\ wf m' /\ abs m' = set_off i v (abs m) /\ ms_sups m' = ms_sups m.
Proof.
intros Hwf Hv. eexists. split; [reflexivity|]. split; [|split; [|done]].
- apply wf_alter_file; [done|]. intros x (H1&H2&H3). done.
- unfold abs, set_off. cbn. f_equal. by apply alter_abs.
Qed.

(** Setting the offset to what it is changes nothing. *)
Lemma set_off_same m i : (i < length (ms_files m))%nat -> set_off i (f_off (the_file i m)) (abs m) = abs m.
Proof.
intros Hi. unfold set_off, abs. cbn. f_equal. apply list_eq. intros j.
destruct (decide (i = j)) as [<-|Hne]; [|by rewrite list_lookup_alter_ne].
rewrite list_lookup_alter_eq, list_lookup_fmap. unfold the_file.
by rewrite (list_lookup_lookup_total_lt (ms_files m) i Hi).
Qed.

Lemma update_sup_matches m i s :
wf m -> (i < length (ms_files m))%nat -> sup_ok s -> same_file (the_sup i m) s ->
let m' := set_ms_sups (<[f_sup (the_file i m) := s]> (ms_sups m)) m in
wf m' /\ abs m' = set_content (f_sup (the_file i m)) (content s) (abs m).
Proof.
intros Hwf Hi Hs (Hn&Hin&Hm). pose proof (the_file_ok m i Hwf Hi) as (_&Hlt&_). split.
- destruct Hwf as [H1 H2 H3 H4 H5]. split; [done..| |].
  + cbn. by apply Forall_insert.
  + intros j x. cbn. rewrite length_insert. apply H5.
- unfold abs, set_content. cbn. f_equal. apply list_eq. intros j. rewrite list_lookup_fmap.
  unfold the_sup in *. set (k := f_sup (the_file i m)) in *. destruct (decide (k = j)) as [<-|Hne].
  + rewrite list_lookup_insert_eq, list_lookup_alter_eq, list_lookup_fmap by done.
    rewrite (list_lookup_lookup_total_lt (ms_sups m) k Hlt). cbn. unfold abs_sup, capacity. cbn. by rewrite Hin, Hm.
  + by rewrite list_lookup_insert_ne, list_lookup_alter_ne, list_lookup_fmap by done.
Qed.

(** *** Reading *)

Lemma spec_read_sup size nmemb off s : sup_ok s ->
spec_read size nmemb off (abs_sup s) =
(items size nmemb (s_length s - off) * size,
 take (Z.to_nat (items size nmemb (s_length s - off) * size)) (drop (Z.to_nat off) (content s))).
Proof. intros Hs. unfold spec_read, a_length. cbn. by rewrite content_length. Qed.

Lemma read_matches m i size nmemb off (upd : bool) :
wf m -> (i < length (ms_files m))%nat -> 0 < size -> 0 <= nmemb -> size * nmemb < 2 ^ 63 -> 0 <= off ->
(upd = true -> off = f_off (the_file i m)) ->
let r := spec_read size nmemb off (abs_sup (the_sup i m)) in
exists m', memfs_read size nmemb off i upd m = Ret m' r /\ wf m' /\
  abs m' = if upd then set_off i (off + fst r) (abs m) else abs m.
Proof.
intros Hwf Hi Hsz Hnm Hsm Ho Hu. pose proof (the_sup_ok m i Hwf Hi) as Hs. pose proof Hs as [Hl Hm].
rewrite spec_read_sup by done. unfold memfs_read. erewrite bind_Ret by done.
erewrite bind_Ret by (apply lift_Val, sup_read_spec; done || lia). cbv zeta. cbn [fst snd].
set (n := items size nmemb (s_length (the_sup i m) - off) * size).
destruct upd; cbn [andb when]; [|eexists; by erewrite bind_Ret by done].
specialize (Hu eq_refl). destruct (Z.ltb_spec off (s_length (the_sup i m))) as [Hlt|Hge].
- pose proof (items_bounds size nmemb (s_length (the_sup i m) - off) Hsz Hnm ltac:(lia)) as Hb. fold n in Hb.
  unfold capacity, MEMFS_MMAP_EXTRA_SPACE in *.
  destruct (set_f_off_matches m i (off + n) Hwf ltac:(lia)) as (m'&E&Hw&Ha&_).
  exists m'. erewrite bind_Ret; [|unfold when; rewrite u64_id by lia; exact E]. done.
- assert (n = 0) as -> by (unfold n; rewrite items_none; lia). exists m. erewrite bind_Ret by done.
  split; [done|]. split; [done|]. by rewrite Z.add_0_r, Hu, set_off_same.
Qed.

(** *** Writing *)

Lemma write_matches m i d size nmemb off (upd : bool) :
wf m -> (i < length (ms_files m))%nat -> 0 <= size * nmemb < 2 ^ 63 -> Z.of_nat (length d) = size * nmemb ->
0 <= off < 2 ^ 64 -> (upd = true -> off = f_off (the_file i m)) ->
matches (memfs_write (Some d) size nmemb off i upd m)
  (a <-? spec_write d off (abs_file (the_file i m)) (abs_sup (the_sup i m)) (abs m) ;;
   Val (if upd then set_off i (off + Z.of_nat (length d)) a else a, Z.of_nat (length d))).
Proof.
intros Hwf Hi Hsz Hd Ho Hu. pose proof (the_sup_ok m i Hwf Hi) as Hs. pose proof Hs as [Hl Hm].
pose proof (sup_write_spec d size nmemb off (the_sup i m) Hs Hsz Hd Ho) as Hw.
unfold spec_write. cbn [a_capacity abs_sup ao_file abs_file a_content]. rewrite Hd.
destruct (Z.leb_spec (off + size * nmemb) (capacity (the_sup i m))) as [Hf|Hf]; cbn [ebind].
- destruct Hw as (s&E&Hok&Hsame&Hc). unfold memfs_write. erewrite bind_Ret by by apply lift_Val.
  destruct (update_sup_matches m i s Hwf Hi Hok Hsame) as [Hwf1 Ha1]. rewrite Hc in Ha1.
  erewrite bind_Ret by done. cbv zeta. rewrite (u64_id (size * nmemb)) by lia.
  destruct upd; cbn [when]; [|eexists; split; [by erewrite bind_Ret by done|done]].
  unfold capacity, MEMFS_MMAP_EXTRA_SPACE in *. rewrite u64_id by lia.
  destruct (set_f_off_matches _ i (off + size * nmemb) Hwf1 ltac:(lia)) as (m'&E'&Hw'&Ha'&_).
  exists m'. erewrite bind_Ret by exact E'. split; [done|]. split; [done|]. by rewrite Ha', Ha1.
- unfold memfs_write. eexists. erewrite bind_Halt by by apply lift_Fail. done.
Qed.

(** *** Seeking and truncating *)

Lemma seek_matches m i offset whence :
wf m -> (i < length (ms_files m))%nat ->
matches (seek i offset whence m)
  (off <-? spec_seek offset whence (abs_file (the_file i m)) (abs_sup (the_sup i m)) ;;
   Val (set_off i off (abs m), off)).
Proof.
intros Hwf Hi. pose proof (the_sup_ok m i Hwf Hi) as Hs. pose proof Hs as [Hl Hm].
pose proof (content_length _ Hs) as Hc. unfold seek, spec_seek, a_length. cbn [a_content abs_sup ao_off abs_file].
rewrite Hc. erewrite bind_Ret by done.
assert (forall v, matches ((mod_file i (set_f_off (u64 v)) ;;; fs_assert (u64 v <=? s_length (the_sup i m)) ;;; ret (u64 v)) m)
  (off <-? (if u64 v <=? s_length (the_sup i m) then Val (u64 v) else Fail (HExit SKI_EXIT_MEMFS)) ;;
   Val (set_off i off (abs m), off))) as Hseek.
{ intros v. pose proof (u64_range v) as Hv. destruct (Z.leb_spec (u64 v) (s_length (the_sup i m))) as [Hle|Hgt]; cbn [ebind].
  - unfold capacity, MEMFS_MMAP_EXTRA_SPACE in *.
    destruct (set_f_off_matches m i (u64 v) Hwf ltac:(lia)) as (m'&E&Hw&Ha&_).
    injection E as <-. eexists. split; [|done]. erewrite bind_Ret by done. by erewrite bind_Ret by done.
  - eexists. erewrite bind_Ret by done. by erewrite bind_Halt by done. }
destruct (whence =? 0); [erewrite bind_Ret by done; apply Hseek|].
destruct (whence =? 1); [erewrite bind_Ret by done; apply Hseek|].
destruct (whence =? 2); [erewrite bind_Ret by done; apply Hseek|].
exists m. by erewrite bind_Halt by done.
Qed.

Lemma truncate_sup s n :
sup_ok s -> 0 <= n <= s_length s ->
let s' := mk_support (s_filename s) (s_inode s) (s_mmap s) (s_extra s) n in
sup_ok s' /\ same_file s s' /\ content s' = take (Z.to_nat n) (content s).
Proof.
intros Hs Hn. pose proof Hs as [Hl Hm]. split; [|split; [by split; [|split]|]].
- split; unfold capacity, mmap_length in *; cbn; lia.
- unfold content, bytes_of. cbn. unfold load. rewrite <- fmap_take, take_seq. f_equal. f_equal. lia.
Qed.

Lemma ftruncate_matches m i len :
wf m -> (i < length (ms_files m))%nat ->
matches
  ((m <- get ;;
    (if u64 len >? s_length (the_sup i m) then stop (HExit SKI_EXIT_MEMFS)
     else
       let s := the_sup i m in
       modify (set_ms_sups (<[f_sup (the_file i m) :=
         mk_support (s_filename s) (s_inode s) (s_mmap s) (s_extra s) (u64 len)]> (ms_sups m))) ;;;
       when (c_true (ms_test_mode m)) (fs_assert (0 =? 0))) ;;;
    ret 0) m)
  (if u64 len >? a_length (abs_sup (the_sup i m)) then Fail (HExit SKI_EXIT_MEMFS)
   else Val (set_content (ao_file (abs_file (the_file i m))) (take (Z.to_nat (u64 len)) (a_content (abs_sup (the_sup i m))))
               (abs m), 0)).
Proof.
intros Hwf Hi. pose proof (the_sup_ok m i Hwf Hi) as Hs. pose proof (content_length _ Hs) as Hc.
unfold a_length. cbn [a_content abs_sup ao_file abs_file]. rewrite Hc. erewrite bind_Ret by done.
pose proof (u64_range len) as Hu. destruct (Z.gtb_spec (u64 len) (s_length (the_sup i m))) as [Hg|Hg].
{ exists m. by erewrite bind_Halt by done. }
destruct (truncate_sup (the_sup i m) (u64 len) Hs ltac:(lia)) as (Hok&Hsame&Hct).
destruct (update_sup_matches m i _ Hwf Hi Hok Hsame) as [Hw Ha]. rewrite Hct in Ha. cbv zeta.
eexists. erewrite bind_Ret; [|erewrite bind_Ret by done; by rewrite (wf_test m Hwf)]. done.
Qed.

(** *** Opening *)

Lemma ignore_matches m path :
wf m ->
match spec_ignore path (abs m) with
| Val a => exists m', memfs_ignorelist_add path m = Ret m' tt /\ wf m' /\ abs m' = a
| Fail h => memfs_ignorelist_add path m = Halt m h
end.
Proof.
intros Hwf. unfold spec_ignore, memfs_ignorelist_add. erewrite bind_Ret by done. cbn [as_ignored abs].
destruct (Z.of_nat (length (ms_ignorelist m)) <? MEMFS_MAX_FILES); cbn [andb]; [|by erewrite bind_Halt by done].
erewrite bind_Ret by done.
destruct (Z.of_nat (length path) <? MEMFS_MAX_FILENAME); [|by erewrite bind_Halt by done].
erewrite bind_Ret by done. eexists. split; [reflexivity|]. split; [by destruct Hwf|].
unfold abs. cbn. rewrite length_app. cbn. f_equal. lia.
Qed.

Lemma new_support_content path inode c : content (mk_support path inode c [] (Z.of_nat (length c))) = c.
Proof.
unfold content, bytes_of. cbn. rewrite app_nil_r, Nat2Z.id. apply bytes_eq; [apply load_length|].
intros i Hi. rewrite load_length in Hi. by apply peek_load0.
Qed.

(** The open files after one more; [sups] are the supports, new or not. *)
Lemma wf_open m sups f :
wf m -> Forall sup_ok sups -> (length (ms_sups m) <= length sups)%nat -> file_ok (length sups) (length (ms_files m)) f ->
wf (set_ms_files (ms_files m ++ [f]) (set_ms_sups sups m)).
Proof.
intros [H1 H2 H3 H4 H5] Hs Hl Hf. split; [done..|]. intros i x. cbn.
intros [Hx|(->&->)]%lookup_snoc_Some; [|done].
destruct Hx as [Hi Hx]. destruct (H5 i x Hx) as (?&?&?). split; [done|]. split; [lia|done].
Qed.

Lemma open_matches m path stream h :
wf m -> match h_fstat h with Some (_, c) => Z.of_nat (length c) < 2 ^ 62 | None => True end ->
matches (memfs_open path stream h m) (spec_open path h (abs m)).
Proof.
intros Hwf Hc. unfold memfs_open, spec_open. cbn [as_files as_open abs]. rewrite !length_fmap.
destruct (Z.of_nat (length path) <? MEMFS_MAX_FILENAME - 1) eqn:Ep; [|exists m; by erewrite bind_Halt by done].
erewrite bind_Ret by done. erewrite bind_Ret by done. cbn [andb].
destruct (Z.of_nat (length (ms_sups m)) <? MEMFS_MAX_FILES) eqn:Es; [|exists m; by erewrite bind_Halt by done].
erewrite bind_Ret by done. destruct (Z.of_nat (length (ms_files m)) <? MEMFS_MAX_FILES); [|by exists m]. cbn [negb].
unfold memfs_support_open. destruct (h_fd h =? 0); [exists m; by erewrite bind_Halt by by erewrite bind_Halt by done|].
destruct (h_fstat h) as [[ino c]|] eqn:Ef; [|exists m; by erewrite bind_Halt by by erewrite bind_Ret by done].
rewrite list_find_fmap.
destruct (list_find (fun s => s_inode s = wrap32 ino) (ms_sups m)) as [[j s]|] eqn:El.
- apply list_find_Some in El as El'. destruct El' as (Hj&Hin&_).
  change (list_find ((fun f => a_inode f = wrap32 ino) ∘ abs_sup) (ms_sups m)) with
    (list_find (fun s => s_inode s = wrap32 ino) (ms_sups m)). rewrite El. cbn.
  erewrite bind_Ret; [|erewrite bind_Ret by done; erewrite bind_Ret by done; rewrite El; reflexivity].
  erewrite bind_Ret by done. eexists. split; [reflexivity|]. split.
  + replace m with (set_ms_sups (ms_sups m) m) at 3 by by destruct m. apply wf_open; [done|apply Hwf|done|].
    split; [done|]. split; [by eapply lookup_lt_Some|cbn; lia].
  + unfold abs. cbn. by rewrite fmap_app.
- change (list_find ((fun f => a_inode f = wrap32 ino) ∘ abs_sup) (ms_sups m)) with
    (list_find (fun s => s_inode s = wrap32 ino) (ms_sups m)). rewrite El. cbn.
  erewrite bind_Ret; [|erewrite bind_Ret by done; erewrite bind_Ret by done; rewrite El, Ep; erewrite bind_Ret by done;
    rewrite Es; erewrite bind_Ret by done; erewrite bind_Ret by done; reflexivity].
  erewrite bind_Ret by done. eexists. split; [reflexivity|]. split.
  + apply (wf_open m (ms_sups m ++ [_])); [done| |rewrite length_app; lia|].
    * apply Forall_app. split; [apply Hwf|]. apply Forall_singleton.
      split; unfold capacity, mmap_length, MEMFS_MMAP_EXTRA_SPACE; cbn; lia.
    * split; [done|]. cbn. rewrite length_app. cbn. lia.
  + unfold abs. cbn. rewrite !fmap_app. cbn. unfold abs_sup at 2. by rewrite new_support_content.
Qed.

(** *** The hooks *)

Lemma START_TEST_wf m max : wf m -> START_TEST max m = Ret m tt.
Proof. intros Hwf. unfold START_TEST. erewrite bind_Ret by done. by rewrite (wf_test m Hwf). Qed.

Lemma end_read_test_wf m host n l d : wf m -> end_read_test host n l d m = Ret m d.
Proof. intros Hwf. unfold end_read_test. erewrite bind_Ret by done. by rewrite (wf_test m Hwf). Qed.

Lemma end_write_test_wf m host n : wf m -> end_write_test host n m = Ret m tt.
Proof. intros Hwf. unfold end_write_test. erewrite bind_Ret by done. by rewrite (wf_test m Hwf). Qed.

Lemma the_off m i : wf m -> (i < length (ms_files m))%nat -> 0 <= f_off (the_file i m) < 2 ^ 63.
Proof. intros Hwf Hi. by destruct (the_file_ok m i Hwf Hi) as (_&_&?). Qed.

Lemma read_fd_matches m i count off (upd : bool) :
wf m -> (i < length (ms_files m))%nat -> 0 <= count < 2 ^ 63 -> 0 <= off -> (upd = true -> off = f_off (the_file i m)) ->
let r := spec_read 1 count off (abs_sup (the_sup i m)) in
matches (read_fd i count off upd (0, []) m) (Val (if upd then set_off i (off + fst r) (abs m) else abs m, r)).
Proof.
intros Hwf Hi Hc Ho Hu. unfold read_fd. erewrite bind_Ret by by apply START_TEST_wf.
destruct (read_matches m i 1 count off upd Hwf Hi ltac:(lia) ltac:(lia) ltac:(lia) Ho Hu) as (m'&E&Hw&Ha).
rewrite (bind_Ret _ _ _ _ _ E). exists m'. erewrite bind_Ret by by apply end_read_test_wf.
split; [|done]. cbv zeta. by destruct (spec_read _ _ _ _).
Qed.

Lemma fread_matches m i size nmemb :
wf m -> (i < length (ms_files m))%nat -> 0 < size -> 0 <= nmemb -> size * nmemb < 2 ^ 63 ->
let off := f_off (the_file i m) in
let r := spec_read size nmemb off (abs_sup (the_sup i m)) in
matches
  ((m <- get ;;
    START_TEST (u64 (size * nmemb)) ;;;
    r <- memfs_read size nmemb (f_off (the_file i m)) i true ;;
    n <- div_size (fst r) size ;;
    d <- end_read_test (0, []) n (if n >? 0 then u64 (n * size) else 0) (snd r) ;;
    ret (n, d)) m)
  (Val (set_off i (off + fst r) (abs m), (items size nmemb (a_length (abs_sup (the_sup i m)) - off), snd r))).
Proof.
intros Hwf Hi Hsz Hnm Hsm. cbv zeta. pose proof (the_off m i Hwf Hi) as Ho.
erewrite bind_Ret by done. erewrite bind_Ret by by apply START_TEST_wf.
destruct (read_matches m i size nmemb (f_off (the_file i m)) true Hwf Hi Hsz Hnm Hsm ltac:(lia) ltac:(done)) as (m'&E&Hw&Ha).
rewrite (bind_Ret _ _ _ _ _ E). exists m'. unfold div_size. rewrite (proj2 (Z.eqb_neq _ _)) by lia.
erewrite bind_Ret by done. erewrite bind_Ret by by apply end_read_test_wf. split; [|done].
unfold ret. do 2 f_equal. cbn [fst spec_read]. apply Z.div_mul. lia.
Qed.

Lemma write_fd_matches m i d off (upd : bool) :
wf m -> (i < length (ms_files m))%nat -> Z.of_nat (length d) < 2 ^ 63 -> 0 <= off < 2 ^ 64 ->
(upd = true -> off = f_off (the_file i m)) ->
matches (write_fd i d (Z.of_nat (length d)) off upd 0 m)
  (a <-? spec_write d off (abs_file (the_file i m)) (abs_sup (the_sup i m)) (abs m) ;;
   Val (if upd then set_off i (off + Z.of_nat (length d)) a else a, Z.of_nat (length d))).
Proof.
intros Hwf Hi Hd Ho Hu. unfold write_fd. erewrite bind_Ret by by apply START_TEST_wf.
pose proof (write_matches m i d 1 (Z.of_nat (length d)) off upd Hwf Hi ltac:(lia) ltac:(lia) Ho Hu) as Hm.
destruct (spec_write _ _ _ _ _) as [a|h]; cbn [ebind matches] in *.
- destruct Hm as (m'&E&Hw&Ha). rewrite (bind_Ret _ _ _ _ _ E). exists m'.
  by erewrite bind_Ret by by apply end_write_test_wf.
- destruct Hm as (m'&E). exists m'. by rewrite (bind_Halt _ _ _ _ _ E).
Qed.

Lemma fwrite_matches m i d size nmemb :
wf m -> (i < length (ms_files m))%nat -> 0 < size -> 0 <= nmemb -> size * nmemb < 2 ^ 63 ->
Z.of_nat (length d) = size * nmemb ->
let off := f_off (the_file i m) in
matches
  ((m <- get ;;
    START_TEST (u64 (size * nmemb)) ;;;
    let ptr := if c_true (ms_test_mode m) then load (ms_test_buff m) 0 (Z.to_nat (u64 (size * nmemb))) else d in
    bytes <- memfs_write (Some ptr) size nmemb (f_off (the_file i m)) i true ;;
    n <- div_size bytes size ;;
    end_write_test 0 n ;;;
    ret n) m)
  (a <-? spec_write d off (abs_file (the_file i m)) (abs_sup (the_sup i m)) (abs m) ;;
   Val (set_off i (off + Z.of_nat (length d)) a, nmemb)).
Proof.
intros Hwf Hi Hsz Hnm Hsm Hd. cbv zeta. pose proof (the_off m i Hwf Hi) as Ho.
erewrite bind_Ret by done. erewrite bind_Ret by by apply START_TEST_wf. rewrite (wf_test m Hwf).
pose proof (write_matches m i d size nmemb (f_off (the_file i m)) true Hwf Hi ltac:(lia) Hd ltac:(lia) ltac:(done)) as Hm.
destruct (spec_write _ _ _ _ _) as [a|h]; cbn [ebind matches] in *.
- destruct Hm as (m'&E&Hw&Ha). rewrite (bind_Ret _ _ _ _ _ E). exists m'. unfold div_size.
  rewrite (proj2 (Z.eqb_neq _ _)) by lia. erewrite bind_Ret by done. erewrite bind_Ret by by apply end_write_test_wf.
  split; [|done]. unfold ret. f_equal. rewrite Hd, Z.mul_comm. apply Z.div_mul. lia.
- destruct Hm as (m'&E). exists m'. by rewrite (bind_Halt _ _ _ _ _ E).
Qed.

Lemma close_matches m i :
wf m -> matches (memfs_close i m) (Val (set_closed i (abs m), 0)).
Proof.
intros Hwf. eexists. split; [reflexivity|]. split.
- apply wf_alter_file; [done|]. by intros x (?&?&?).
- unfold abs, set_closed. cbn. f_equal. by apply alter_abs.
Qed.

Lemma spec_open_index path h a a' i : spec_open path h a = Val (a', i) -> (i < length (as_open a'))%nat.
Proof.
unfold spec_open. intros H. repeat case_match; simplify_eq; cbn; rewrite length_app; cbn; lia.
Qed.

Lemma hook_open_matches m path flags h :
wf m -> op_ok (OOpen path flags h) ->
matches (run_op getenv (OOpen path flags h) m) (spec_op (OOpen path flags h) (abs m)).
Proof.
intros Hwf Hok.
unfold run_op, memfs_hook_open. cbn [spec_op]. rewrite bind_assoc.
erewrite bind_Ret by by apply init_wrappers_wf. rewrite bind_assoc. erewrite bind_Ret by done.
rewrite (wf_enabled m Hwf). cbn [negb orb]. destruct (memfs_intercept_filename path); cbn [negb].
2:{ rewrite bind_assoc. pose proof (ignore_matches m path Hwf) as Hi. destruct (spec_ignore path (abs m)) as [a|hh]; cbn [ebind].
    - destruct Hi as (m'&E&Hw&Ha). exists m'. by rewrite (bind_Ret _ _ _ _ _ E).
    - exists m. by rewrite (bind_Halt _ _ _ _ _ Hi). }
unfold c_true. destruct (h_fd h =? 0) eqn:Efd; cbn [negb]; [by exists m|]. rewrite bind_assoc.
pose proof (open_matches m path 0 h Hwf Hok) as Ho. destruct (spec_open path h (abs m)) as [[a i]|hh] eqn:Eo; cbn [ebind matches] in *.
2:{ destruct Ho as (m'&E). exists m'. by rewrite (bind_Halt _ _ _ _ _ E). }
destruct Ho as (m'&E&Hw&<-). rewrite (bind_Ret _ _ _ _ _ E). rewrite bind_assoc. erewrite bind_Ret by done.
assert (i < length (ms_files m'))%nat as Hi.
{ apply spec_open_index in Eo. by rewrite open_length in Eo. }
rewrite bind_assoc. destruct (negb (Z.land flags O_APPEND =? 0)) eqn:Ea; cbn [when].
- pose proof (the_sup_ok m' i Hw Hi) as Hs. pose proof Hs as [Hl Hm]. unfold capacity, MEMFS_MMAP_EXTRA_SPACE in *.
  destruct (set_f_off_matches m' i (s_length (the_sup i m')) Hw ltac:(lia)) as (m2&E2&Hw2&Ha2&_).
  exists m2. rewrite (bind_Ret _ _ _ _ _ E2). split; [done|]. split; [done|]. rewrite Ha2. f_equal.
  rewrite abs_open_at by done. change (ao_file (abs_file (the_file i m'))) with (f_sup (the_file i m')).
  rewrite abs_file_at by done. unfold a_length. cbn. by rewrite content_length.
- exists m'. by erewrite bind_Ret by done.
Qed.

Lemma hook_fopen_matches m path mode host :
wf m -> op_ok (OFopen path mode host) ->
matches (run_op getenv (OFopen path mode host) m) (spec_op (OFopen path mode host) (abs m)).
Proof.
intros Hwf Hok. unfold run_op, memfs_hook_fopen. cbn [spec_op]. rewrite bind_assoc.
erewrite bind_Ret by by apply init_wrappers_wf. rewrite bind_assoc. erewrite bind_Ret by done.
rewrite (wf_enabled m Hwf). destruct (memfs_intercept_filename path); cbn [negb].
2:{ rewrite bind_assoc. pose proof (ignore_matches m path Hwf) as Hi. destruct (spec_ignore path (abs m)) as [a|hh]; cbn [ebind].
    - destruct Hi as (m'&E&Hw&Ha). exists m'. by rewrite (bind_Ret _ _ _ _ _ E).
    - exists m. by rewrite (bind_Halt _ _ _ _ _ Hi). }
destruct host as [[h hf]|]; [|by exists m]. rewrite bind_assoc.
destruct (hd 0 mode =? 97); [exists m; by erewrite bind_Halt by done|]. erewrite bind_Ret by done. rewrite bind_assoc.
pose proof (open_matches m path h hf Hwf Hok) as Ho. destruct (spec_open path hf (abs m)) as [[a i]|hh]; cbn [ebind matches] in *.
- destruct Ho as (m'&E&Hw&Ha). exists m'. by rewrite (bind_Ret _ _ _ _ _ E).
- destruct Ho as (m'&E). exists m'. by rewrite (bind_Halt _ _ _ _ _ E).
Qed.

(** A seek and what follows it. *)
Lemma after_seek m i offset whence (r : Z -> Z) (b : Z -> bool) :
wf m -> (i < length (ms_files m))%nat ->
matches
  ((off <- seek i offset whence ;; m <- get ;; when (c_true (ms_test_mode m)) (fs_assert (b off)) ;;; ret (r off)) m)
  (off <-? spec_seek offset whence (abs_file (the_file i m)) (abs_sup (the_sup i m)) ;; Val (set_off i off (abs m), r off)).
Proof.
intros Hwf Hi. pose proof (seek_matches m i offset whence Hwf Hi) as Hs.
destruct (spec_seek _ _ _ _) as [off|h]; cbn [ebind matches] in *.
- destruct Hs as (m'&E&Hw&Ha). exists m'. rewrite (bind_Ret _ _ _ _ _ E). erewrite bind_Ret by done.
  rewrite (wf_test m' Hw). by erewrite bind_Ret by done.
- destruct Hs as (m'&E). exists m'. by rewrite (bind_Halt _ _ _ _ _ E).
Qed.

(** Every operation does what the specification says. *)
Lemma run_op_matches o m : wf m -> op_ok o -> matches (run_op getenv o m) (spec_op o (abs m)).
Proof.
intros Hwf. destruct o; intros Hok; cbn [op_ok] in Hok.
- by apply hook_open_matches.
- by apply hook_fopen_matches.
- cbn [run_op spec_op]. unfold memfs_hook_close. rewrite bind_assoc. apply (fd_matches close_reply); [done|].
  intros i Hi. by apply close_matches.
- cbn [run_op spec_op]. unfold memfs_hook_fclose. rewrite bind_assoc. apply (stream_matches close_reply); [done|].
  intros i Hi. by apply close_matches.
- apply fd_matches; [done|]. intros i Hi. erewrite bind_Ret by done. pose proof (the_off m i Hwf Hi).
  by apply (read_fd_matches m i count (f_off (the_file i m)) true); (done || lia).
- apply fd_matches; [done|]. intros i Hi. pose proof (u64_range offset).
  by apply (read_fd_matches m i count (u64 offset) false); (done || lia).
- apply fd_matches; [done|]. intros i Hi. erewrite bind_Ret by done. pose proof (the_off m i Hwf Hi).
  by apply (write_fd_matches m i d (f_off (the_file i m)) true); (done || lia).
- apply fd_matches; [done|]. intros i Hi. pose proof (u64_range offset).
  by apply (write_fd_matches m i d (u64 offset) false); (done || lia).
- apply stream_matches; [done|]. intros i Hi. apply fread_matches; (done || lia).
- apply stream_matches; [done|]. intros i Hi. apply fwrite_matches; (done || lia).
- apply fd_matches; [done|]. intros i Hi. by apply (after_seek m i offset whence (fun off => off) (fun off => 0 =? off)).
- apply stream_matches; [done|]. intros i Hi. by apply (after_seek m i offset whence (fun _ => 0) (fun _ => 0 =? 0)).
- apply stream_matches; [done|]. intros i Hi. exists m. erewrite bind_Ret by done. rewrite (wf_test m Hwf).
  by erewrite bind_Ret by done.
- apply stream_matches; [done|]. intros i Hi. destruct (set_f_off_matches m i 0 Hwf ltac:(lia)) as (m'&E&Hw&Ha&_).
  by exists m'.
- apply fd_matches; [done|]. intros i Hi. by apply ftruncate_matches.
- apply stream_matches; [done|]. intros i Hi. exists m. erewrite bind_Ret by done.
  by destruct (the_file_ok m i Hwf Hi) as (->&_).
Qed.

Fixpoint run_ops (ops : list op) : MFS (list reply) :=
match ops with
| [] => ret []
| o :: ops' => r <- run_op getenv o ;; rs <- run_ops ops' ;; ret (r :: rs)
end.

Lemma run_ops_matches ops m : wf m -> Forall op_ok ops -> matches (run_ops ops m) (spec_ops ops (abs m)).
Proof.
intros Hwf Hok. revert m Hwf. induction Hok as [|o ops Ho Hok IH]; intros m Hwf; [by exists m|].
cbn [run_ops spec_ops]. pose proof (run_op_matches o m Hwf Ho) as Hm.
destruct (spec_op o (abs m)) as [[a r]|h]; cbn [ebind matches fst snd] in *.
2:{ destruct Hm as (m'&E). exists m'. by rewrite (bind_Halt _ _ _ _ _ E). }
destruct Hm as (m1&E&Hw&<-). rewrite (bind_Ret _ _ _ _ _ E). specialize (IH m1 Hw).
destruct (spec_ops ops (abs m1)) as [[a2 rs]|h]; cbn [ebind matches fst snd] in *.
- destruct IH as (m2&E2&Hw2&Ha2). exists m2. by rewrite (bind_Ret _ _ _ _ _ E2).
- destruct IH as (m2&E2). exists m2. by rewrite (bind_Halt _ _ _ _ _ E2).
Qed.

(** The environment leaves the file system enabled and outside test mode. *)
Definition plain_env : Prop :=
c_true (env_int (getenv (str "SKI_MEMFS_TEST_MODE_ENABLED")) 0) = false /\
c_true (env_int (getenv (str "SKI_MEMFS_ENABLED")) 1) = true.

Lemma init_wrappers_start : plain_env -> exists m, init_wrappers getenv memfs_start = Ret m tt /\ wf m /\ abs m = afs_empty.
Proof.
intros [Ht He]. unfold init_wrappers. erewrite bind_Ret by done. cbn [ms_initialized ms_test_mode ms_enabled memfs_start].
cbv zeta. rewrite Ht. erewrite bind_Ret by done. eexists. split; [reflexivity|]. split; [|done].
split; [done|done|done|by constructor|]. intros i f Hf. cbn in Hf. by rewrite lookup_nil in Hf.
Qed.

(** C4: the in-memory file system implements files.  From the start of the
  process, any sequence of opens, reads, writes, seeks, truncations and closes
  through descriptors and streams answers what a file system of byte sequences
  answers: files are shared by inode and keep what is written to them, past
  their mapped part as well, gaps read as zeroes; where the specification
  fails the process exits, at the same operation and with the same code. *)
Theorem ski_memfs_refines (ops : list op) (Henv : plain_env) (Hok : Forall op_ok ops) :
matches ((init_wrappers getenv ;;; run_ops ops) memfs_start) (spec_ops ops afs_empty).
Proof.
destruct (init_wrappers_start Henv) as (m&E&Hw&<-). rewrite (bind_Ret _ _ _ _ _ E). by apply run_ops_matches.
Qed.

End refines.

(** A host file of four bytes, opened twice: writes through one descriptor past
    the end are read through the other, with zeroes in the gap; a closed
    descriptor ends the process. *)
Definition sample_host : host_file := mk_host 7 (Some (4711, [1; 2; 3; 4])).
Definition sample_ops : list op :=
  [OOpen (str "disk.img") 2 sample_host; OFopen (str "disk.img") (str "r+") (Some (9, sample_host));
   OPwrite 100 [8; 9] 6; OFread 2 10 (FMem 1); OFtell (FMem 1); OFtruncate 100 3; OLseek 100 0 2; OWrite 100 [5];
   OPread 100 10 1; OClose 100].

Lemma ski_memfs_refines_witness :
  matches ((init_wrappers (fun _ => None) ;;; run_ops (fun _ => None) (sample_ops ++ [ORead 100 1])) memfs_start)
    (spec_ops (sample_ops ++ [ORead 100 1]) afs_empty) /\
  matches ((init_wrappers (fun _ => None) ;;; run_ops (fun _ => None) sample_ops) memfs_start)
    (spec_ops sample_ops afs_empty) /\
  snd <$> (match spec_ops sample_ops afs_empty with Val r => Some r | Fail _ => None end) =
    Some [RInt 100; RFile (FMem 1); RInt 2; RData (4, [1; 2; 3; 4; 0; 0; 8; 9]); RInt 8; RInt 0; RInt 3; RInt 1;
          RData (3, [2; 3; 5]); RInt 0] /\
  spec_ops (sample_ops ++ [ORead 100 1]) afs_empty = Fail (HExit SKI_EXIT_MEMFS).
Proof.
  split; [|split; [|split; by vm_compute]].
  - refine (ski_memfs_refines (fun _ => None) (sample_ops ++ [ORead 100 1]) _ _); [by vm_compute|].
    repeat constructor; by vm_compute.
  - refine (ski_memfs_refines (fun _ => None) sample_ops _ _); [by vm_compute|].
    repeat constructor; by vm_compute.
Defined.

(** ** Bounds *)

Definition is_open (o : op) : bool := match o with OOpen _ _ _ | OFopen _ _ _ => true | _ => false end.

(** [e] keeps the number of open files and fails only with [exit]. *)
Definition safe {A} (n : nat) (e : E (afs * A)) : Prop :=
  match e with
  | Val (a, _) => length (as_open a) = n
  | Fail h => h = HExit SKI_EXIT_MEMFS
  end.

Lemma safe_efmap {A B} (f : A -> B) n e : safe n e -> safe n (efmap f e).
Proof. by destruct e as [[a v]|h]. Qed.

Lemma safe_with_open {A} o (k : nat -> aopen -> afile -> E (afs * A)) a :
  (forall i x f, safe (length (as_open a)) (k i x f)) -> safe (length (as_open a)) (with_open o k a).
Proof.
  intros Hk. unfold with_open. destruct o as [i|]; [|done]. cbv zeta. destruct (ao_closed _); [done|].
  specialize (Hk i (as_open a !!! i) (as_files a !!! ao_file (as_open a !!! i))).
  by destruct (k i _ _) as [[a' v]|h].
Qed.

Lemma safe_write {A} d off o f a n (g : afs -> afs) (v : A) :
  length (as_open a) = n -> (forall a, length (as_open (g a)) = length (as_open a)) ->
  safe n (a <-? spec_write d off o f a ;; Val (g a, v)).
Proof. intros Hn Hg. unfold spec_write. destruct (_ <=? _); cbn; [by rewrite Hg|done]. Qed.

Lemma spec_seek_fail offset whence o f h : spec_seek offset whence o f = Fail h -> h = HExit SKI_EXIT_MEMFS.
Proof. unfold spec_seek, ebind. intros H. repeat case_match; simplify_eq; done. Qed.

Lemma safe_seek offset whence o f n (g : Z -> afs * Z) :
  (forall off, length (as_open (fst (g off))) = n) -> safe n (off <-? spec_seek offset whence o f ;; Val (g off)).
Proof.
  intros Hg. destruct (spec_seek offset whence o f) as [off|h] eqn:E; cbn [ebind safe].
  - specialize (Hg off). by destruct (g off).
  - by eapply spec_seek_fail.
Qed.

Lemma set_off_length i off a : length (as_open (set_off i off a)) = length (as_open a).
Proof. cbn. by rewrite length_alter. Qed.

Lemma spec_op_safe o a : is_open o = false -> safe (length (as_open a)) (spec_op o a).
Proof.
  destruct o; intros Ho; try done; cbn [spec_op]; apply safe_efmap, safe_with_open; intros i x f.
  all: try (apply safe_write; [done|intros; (done || apply set_off_length)]).
  all: try (apply safe_seek; intros; apply set_off_length).
  all: try (cbn; (done || by rewrite length_alter)).
  destruct (_ >? _); done.
Qed.

Lemma spec_open_safe path h a :
  Z.of_nat (length (as_open a)) < MEMFS_MAX_FILES ->
  match spec_open path h a with
  | Val (a', _) => length (as_open a') = S (length (as_open a))
  | Fail x => x = HExit SKI_EXIT_MEMFS
  end.
Proof.
  intros Hl. unfold spec_open. rewrite (proj2 (Z.ltb_lt (Z.of_nat (length (as_open a))) _)) by done. cbn [negb].
  repeat case_match; simplify_eq; try done; cbn; rewrite length_app; cbn; lia.
Qed.

Lemma spec_ignore_safe path a :
  match spec_ignore path a with
  | Val a' => length (as_open a') = length (as_open a)
  | Fail x => x = HExit SKI_EXIT_MEMFS
  end.
Proof. unfold spec_ignore. by destruct (_ && _). Qed.

(** An operation opens at most one file and, while there is room, ends the
    process only with [exit]. *)
Lemma spec_op_bound o a :
  (is_open o = true -> Z.of_nat (length (as_open a)) < MEMFS_MAX_FILES) ->
  match spec_op o a with
  | Val (a', _) => (length (as_open a') <= length (as_open a) + (if is_open o then 1 else 0))%nat
  | Fail h => h = HExit SKI_EXIT_MEMFS
  end.
Proof.
  intros Hl. destruct (is_open o) eqn:Eo.
  - specialize (Hl eq_refl). destruct o as [path flags h|path mode host| | | | | | | | | | | | | |]; try done; cbn [spec_op].
    + pose proof (spec_ignore_safe path a) as Hi. pose proof (spec_open_safe path h a Hl) as Hs.
      destruct (memfs_intercept_filename path); cbn [negb]; [|destruct (spec_ignore path a); cbn; lia || done].
      destruct (h_fd h =? 0); [lia|]. destruct (spec_open path h a) as [[a' i]|x]; cbn [ebind]; [|done].
      destruct (c_true _); rewrite ?set_off_length; lia.
    + pose proof (spec_ignore_safe path a) as Hi.
      destruct (memfs_intercept_filename path); cbn [negb]; [|destruct (spec_ignore path a); cbn; lia || done].
      destruct host as [[h hf]|]; [|lia]. destruct (hd 0 mode =? 97); [done|].
      pose proof (spec_open_safe path hf a Hl) as Hs. destruct (spec_open path hf a) as [[a' i]|x]; cbn; [lia|done].
  - pose proof (spec_op_safe o a Eo) as Hs. destruct (spec_op o a) as [[a' r]|h]; cbn in Hs; [lia|done].
Qed.

Definition opens (ops : list op) : nat := length (List.filter is_open ops).

Lemma spec_ops_bound ops a h :
  Z.of_nat (length (as_open a) + opens ops) <= MEMFS_MAX_FILES -> spec_ops ops a = Fail h -> h = HExit SKI_EXIT_MEMFS.
Proof.
  revert a. induction ops as [|o ops IH]; intros a Hl; [done|]. cbn [spec_ops].
  unfold opens in Hl. cbn [List.filter] in Hl.
  pose proof (spec_op_bound o a) as Hb.
  destruct (spec_op o a) as [[a' r]|x]; cbn [ebind fst snd].
  2:{ intros [= <-]. apply Hb. intros Ho. rewrite Ho in Hl. cbn in Hl. lia. }
  specialize (IH a'). destruct (spec_ops ops a') as [[a2 rs]|x] eqn:E; cbn [ebind]; [done|]. intros [= <-]. apply IH; [|done].
  destruct (is_open o) eqn:Eo; cbn [length] in Hl; unfold opens; specialize (Hb ltac:(intros; done || lia)); lia.
Qed.

(** No access outside the blocks and tables.  With at most 50 opens, any
    sequence of operations either returns all its answers or leaves with the exit
    code of the file system; no read or write touches memory outside the mapped
    and the extra block of its file, no entry outside the tables is used. *)
Theorem ski_memfs_bounds (getenv : list Z -> option (list Z)) (ops : list op)
    (Henv : plain_env getenv) (Hok : Forall op_ok ops) (Hn : Z.of_nat (opens ops) <= MEMFS_MAX_FILES) :
  (exists m rs, (init_wrappers getenv ;;; run_ops getenv ops) memfs_start = Ret m rs) \/
  (exists m, (init_wrappers getenv ;;; run_ops getenv ops) memfs_start = Halt m (HExit SKI_EXIT_MEMFS)).
Proof.
  destruct (init_wrappers_start getenv Henv) as (m&E&Hw&Ha). rewrite (bind_Ret _ _ _ _ _ E).
  pose proof (run_ops_matches getenv ops m Hw Hok) as Hm. rewrite Ha in Hm.
  destruct (spec_ops ops afs_empty) as [[a rs]|h] eqn:Es; cbn in Hm.
  - left. destruct Hm as (m'&Em&_). by exists m', rs.
  - right. destruct Hm as (m'&Em). exists m'. rewrite Em. f_equal. by apply (spec_ops_bound ops afs_empty).
Qed.

Lemma ski_memfs_bounds_witness :
  let ops := sample_ops ++ [OPwrite 101 [1] (2 ^ 29 + 4)] in
  (exists m rs, (init_wrappers (fun _ => None) ;;; run_ops (fun _ => None) ops) memfs_start = Ret m rs) \/
  (exists m, (init_wrappers (fun _ => None) ;;; run_ops (fun _ => None) ops) memfs_start = Halt m (HExit SKI_EXIT_MEMFS)).
Proof.
  intros ops. refine (ski_memfs_bounds (fun _ => None) ops _ _ _); [by vm_compute| |by vm_compute].
  repeat constructor; by vm_compute.
Defined.

(** The 51st open writes behind the table: [files_n] is not checked when the
    files share a support. *)
Lemma memfs_open_overflows :
  match (init_wrappers (fun _ => None) ;;; run_ops (fun _ => None) (replicate 51 (OOpen [97] 2 sample_host))) memfs_start with
  | Halt m h => h = HUndef /\ length (ms_files m) = 50%nat /\ length (ms_sups m) = 1%nat
  | _ => False
  end.
Proof. by vm_compute. Qed.

(** ** Lines *)

Lemma fgets_take n s : fst (fgets n s) = fst (fgets (length (take n s)) (take n s)).
Proof.
  revert s. induction n as [|n IH]; intros [|c s]; try done. cbn [take length fgets].
  destruct (c =? 10); [done|]. specialize (IH s). destruct (fgets n s), (fgets (length (take n s)) (take n s)). cbn in *.
  by f_equal.
Qed.

Lemma fgets_fst_length n s : (length (fst (fgets n s)) <= length s)%nat.
Proof.
  revert s. induction n as [|n IH]; intros [|c s]; cbn [fgets]; [cbn; lia..|]. destruct (c =? 10); [cbn; lia|].
  specialize (IH s). destruct (fgets n s). cbn in *. lia.
Qed.

Lemma fgets_nil n s : fst (fgets (S n) s) = [] <-> s = [].
Proof.
  destruct s as [|c s]; [done|]. cbn [fgets]. destruct (c =? 10); [done|]. by destruct (fgets n s).
Qed.

(** Moving the offset of a file by [k]. *)
Lemma advance_off m m1 i k :
  wf m1 -> abs m1 = abs m -> (i < length (ms_files m))%nat -> 0 <= f_off (the_file i m) + k < 2 ^ 63 ->
  exists m', mod_file i (fun f => set_f_off (u64 (f_off f + k)) f) m1 = Ret m' tt /\ wf m' /\
    abs m' = set_off i (f_off (the_file i m) + k) (abs m).
Proof.
  intros Hw1 Ha Hi Hk. assert (length (ms_files m1) = length (ms_files m)) as Hl by by rewrite <- !open_length, Ha.
  pose proof (abs_open_at m i Hi) as Hm. rewrite <- Ha, abs_open_at in Hm by lia. injection Hm as _ Hoff _.
  destruct (set_f_off_matches m1 i (f_off (the_file i m) + k) Hw1 Hk) as (m'&E&Hw&Ha'&_). exists m'.
  split; [|split; [done|by rewrite Ha', Ha]]. rewrite <- E. unfold mod_file, modify. do 2 f_equal.
  apply (alter_ext_at _ _ _ _ (the_file i m1)); [apply list_lookup_lookup_total_lt; lia|].
  rewrite Hoff, u64_id by lia. done.
Qed.

(** Reading single bytes. *)
Lemma spec_read_bytes count off f :
  0 <= count -> 0 <= off ->
  exists n, spec_read 1 count off f = (n, take (Z.to_nat count) (drop (Z.to_nat off) (a_content f))) /\ 0 <= n <= count.
Proof.
  intros Hc Ho. exists (Z.min count (Z.max 0 (a_length f - off))). split; [|lia].
  unfold spec_read, items. rewrite Z.div_1_r, !Z.mul_1_r. f_equal. destruct (decide (count <= Z.max 0 (a_length f - off))) as [H|H]; [by rewrite Z.min_l by lia|].
  unfold a_length in *. rewrite Z.min_r by lia.
  rewrite !take_ge by (rewrite length_drop; lia). done.
Qed.

(** C30: reading lines from a file in memory is libc's [fgets].  On a file
    without NUL bytes the hook returns the line [fgets] reads at the file's
    offset with the same buffer size, moves the offset behind it, changes
    nothing else, and returns a null pointer exactly at the end of the file. *)
Theorem ski_memfs_fgets_line (getenv : list Z -> option (list Z)) (m : memfs) (i : nat) (size : Z)
    (Hwf : wf m) (Hi : (i < length (ms_files m))%nat) (Hopen : f_closed (the_file i m) = false)
    (Hsize : 1 < size < 4096) (Hnul : 0 ∉ content (the_sup i m)) :
  let rest := drop (Z.to_nat (f_off (the_file i m))) (content (the_sup i m)) in
  let line := fst (fgets (Z.to_nat (size - 1)) rest) in
  exists m', memfs_hook_fgets getenv size (FMem i) m = Ret m' (Own (match line with [] => None | _ => Some line end)) /\
    wf m' /\ abs m' = set_off i (f_off (the_file i m) + Z.of_nat (length line)) (abs m) /\
    (line = [] <-> rest = []).
Proof.
  intros rest line. pose proof (the_off m i Hwf Hi) as Ho. unfold memfs_hook_fgets, hooked.
  erewrite bind_Ret by by apply init_wrappers_wf. erewrite bind_Ret by done. rewrite (wf_enabled m Hwf).
  erewrite bind_Ret by (rewrite get_file_found; unfold open_stream; rewrite open_length, (proj2 (Nat.ltb_lt _ _)) by done;
    cbn [found]; by rewrite Hopen).
  destruct (spec_read_bytes (size - 1) (f_off (the_file i m)) (abs_sup (the_sup i m)) ltac:(lia) ltac:(lia)) as (n&Er&Hn).
  destruct (read_matches m i 1 (size - 1) (f_off (the_file i m)) false Hwf Hi ltac:(lia) ltac:(lia) ltac:(lia) ltac:(lia) ltac:(done))
    as (m1&E1&Hw1&Ha1). rewrite Er in E1. cbn [a_content abs_sup] in E1. fold rest in E1.
  assert (c_string (take (Z.to_nat (size - 1)) rest) = take (Z.to_nat (size - 1)) rest) as Hcs.
  { apply c_string_id. intros H%subseteq_take%subseteq_drop. done. }
  assert (fst (fgets (length (take (Z.to_nat (size - 1)) rest)) (take (Z.to_nat (size - 1)) rest)) = line) as Hline
    by (symmetry; apply fgets_take).
  pose proof (fgets_fst_length (Z.to_nat (size - 1)) rest) as Hll. fold line in Hll.
  rewrite (u64_id size), (u64_id (size - 1)) by lia.
  rewrite bind_assoc, (proj2 (Z.ltb_lt size _)) by lia. erewrite bind_Ret by done.
  rewrite bind_assoc. erewrite bind_Ret by done. rewrite bind_assoc, (bind_Ret _ _ _ _ _ E1). cbn [fst snd].
  rewrite bind_assoc, (proj2 (Z.ltb_lt n (1024 * 4))) by lia. erewrite bind_Ret by done.
  rewrite bind_assoc, (proj2 (Z.ltb_lt n size)) by lia. erewrite bind_Ret by done. cbv zeta. rewrite Hcs, Hline.
  pose proof (the_sup_ok m i Hwf Hi) as Hs. pose proof Hs as [Hl Hm]. pose proof (content_length _ Hs) as Hcl.
  unfold capacity, MEMFS_MMAP_EXTRA_SPACE in Hl. unfold rest in Hll. rewrite length_drop in Hll.
  destruct (advance_off m m1 i (Z.of_nat (length line)) Hw1 Ha1 Hi ltac:(lia)) as (m'&E&Hw'&Ha').
  exists m'. rewrite bind_assoc, (bind_Ret _ _ _ _ _ E). split; [done|]. split; [done|]. split; [done|].
  unfold line. replace (Z.to_nat (size - 1)) with (S (Z.to_nat (size - 2))) by lia. apply fgets_nil.
Qed.

(** Two lines of a file, the second without its newline. *)
Definition sample_lines : memfs :=
  mk_memfs true 0 1 [mk_support [97] 5 [104; 105; 10; 111] [107] 5] [mk_file 0 [97] 7 9 false 0 0] [] [].

Lemma ski_memfs_fgets_line_witness :
  let m := sample_lines in
  let rest := drop (Z.to_nat (f_off (the_file 0 m))) (content (the_sup 0 m)) in
  let line := fst (fgets (Z.to_nat (80 - 1)) rest) in
  (exists m', memfs_hook_fgets (fun _ => None) 80 (FMem 0) m = Ret m' (Own (match line with [] => None | _ => Some line end)) /\
    wf m' /\ abs m' = set_off 0 (f_off (the_file 0 m) + Z.of_nat (length line)) (abs m) /\
    (line = [] <-> rest = [])) /\ line = [104; 105; 10].
Proof.
  intros m. split; [|by vm_compute]. refine (ski_memfs_fgets_line (fun _ => None) m 0%nat 80 _ _ _ _ _).
  - split; [done|done|done| |].
    + repeat constructor; by vm_compute.
    + intros [|i] f Hf; [|done]. injection Hf as <-. repeat split; cbn; lia.
  - cbn. lia.
  - done.
  - lia.
  - apply (bool_decide_unpack _). by vm_compute.
Defined.

(** ** Where the hooks differ from libc *)

(** [fprintf] of two characters makes the file grow by the whole buffer. *)
Lemma fprintf_writes_buffer :
  match memfs_hook_fprintf (fun _ => None) [111; 107] (replicate 1021 7) (FMem 0) 1
          (mk_memfs true 0 1 [mk_support [97] 5 [] [] 0] [mk_file 0 [97] 7 9 false 0 0] [] []) with
  | Ret m r => r = Own 2 /\ s_length (the_sup 0 m) = 1024
  | _ => False
  end.
Proof. by vm_compute. Qed.

(** In test mode [fwrite] stores what is in the test buffer, not the bytes
    passed; [write] stores the bytes. *)
Lemma fwrite_test_mode_stores_buffer :
  let m := mk_memfs true 1 1 [mk_support [97] 5 [] [] 0] [mk_file 0 [97] 7 9 false 0 0] [] [] in
  match memfs_hook_fwrite (fun _ => None) [1; 2] 1 2 (FMem 0) 2 m, memfs_hook_write (fun _ => None) 100 [1; 2] 2 2 m with
  | Ret m1 (Own 2), Ret m2 (Own 2) => content (the_sup 0 m1) = [0; 0] /\ content (the_sup 0 m2) = [1; 2]
  | _, _ => False
  end.
Proof. by vm_compute. Qed.

(** [dup] and [fcntl] on a descriptor of a file in memory go to the host, which
    does not know it. *)
Lemma dup_not_refused m :
  wf m -> Forall (fun f => f_fd f < MEMFS_FD_START) (ms_files m) -> forall fd getenv,
  MEMFS_FD_START <= fd -> memfs_hook_dup getenv fd m = Ret m Host.
Proof.
  intros Hwf Hf fd getenv Hfd. unfold memfs_hook_dup. erewrite bind_Ret by by apply init_wrappers_wf.
  erewrite bind_Ret by done. rewrite (wf_enabled m Hwf). cbn [andb].
  replace (existsb (fun f => f_fd f =? fd) (ms_files m)) with false; [by erewrite bind_Ret by done|].
  symmetry. apply not_true_is_false. intros (f&Hin&He)%existsb_exists.
  apply list_elem_of_In in Hin. rewrite Forall_forall in Hf. specialize (Hf f Hin). cbn in Hf. lia.
Qed.
