(* ===== verification/QemuFile.v ===== *)
(** * QemuFile.v -- the buffered file snapshots are written to

    Models the [QEMUFile] of [vmm/savevm.c]: one buffer of [IO_BUF_SIZE] bytes
    between the code that saves or loads the machine and a backing store, which is
    a stdio file, or the area of a disk image that holds snapshots.  The backing
    store is the class [Backing]; [BackingLaws] says what the buffer relies on, and
    the stdio file satisfies it.

    The theorems show that the buffer is invisible: what is put is appended to the
    store, in order, and what is got is the store from the start, whatever the
    sizes of the pieces and wherever they cross the end of the buffer. *)

From S2P Require Import Prelude.

Definition IO_BUF_SIZE : Z := 32768.
Definition ENOENT : Z := 2.
Definition EIO : Z := 5.
Definition EAGAIN : Z := 11.
Definition EINVAL : Z := 22.
Definition ENOTSUP : Z := 95.

(** ** Backing stores *)

(** [put_buffer buf pos] writes [buf] at [pos] and returns the number of bytes
    written, [get_buffer pos size] returns what was read and its length, or a
    negative error. *)
Class Backing (D : Type) := {
  put_buffer : list Z -> Z -> D -> Z * D;
  get_buffer : Z -> Z -> D -> Z * list Z
}.

(** [dst] with the bytes [src] from [off]. *)
Definition memcpy_at (off : nat) (src dst : list Z) : list Z :=
  take off dst ++ src ++ drop (off + length src) dst.

(** A store with [content d]: reading returns what is there, up to the size asked
    for (a store may go on with other bytes behind its content, or end there), and
    writing inside the content or at its end replaces and appends.  [frame d] is the
    rest of the store, which writing leaves alone. *)
Class BackingLaws (D : Type) `{Backing D} := {
  content : D -> list Z;
  frame : D -> D;
  get_content d pos size : 0 <= pos -> 0 <= size ->
    exists behind, let r := take (Z.to_nat size) (drop (Z.to_nat pos) (content d) ++ behind) in
    get_buffer pos size d = (Z.of_nat (length r), r);
  put_content d buf pos : 0 <= pos <= Z.of_nat (length (content d)) ->
    exists d', put_buffer buf pos d = (Z.of_nat (length buf), d') /\ content d' = memcpy_at (Z.to_nat pos) buf (content d) /\ frame d' = frame d
}.

(** A stdio file is its bytes.  [fwrite] behind the end leaves zeros between. *)
Definition file_put_buffer (buf : list Z) (pos : Z) (file : list Z) : Z * list Z :=
  let p := Z.to_nat pos in
  (Z.of_nat (length buf), memcpy_at p buf (file ++ replicate (p - length file) 0)).
Definition file_get_buffer (pos size : Z) (file : list Z) : Z * list Z :=
  let r := take (Z.to_nat size) (drop (Z.to_nat pos) file) in (Z.of_nat (length r), r).

#[export] Instance stdio_file : Backing (list Z) :=
  {| put_buffer := file_put_buffer; get_buffer := file_get_buffer |}.

#[export] Program Instance stdio_file_laws : BackingLaws (list Z) := {| content := fun file => file; frame := fun _ => [] |}.
Next Obligation. intros file pos size _ _. exists []. by rewrite app_nil_r. Qed.
Next Obligation.
  intros file buf pos Hpos. eexists. split; [done|]. cbn [put_buffer stdio_file]. unfold file_put_buffer.
  replace (Z.to_nat pos - length file)%nat with 0%nat by lia. cbn [replicate]. by rewrite app_nil_r.
Qed.

(** ** The file *)

Section file.
Context {D : Type} {backing : Backing D}.

(** [qf_put] and [qf_get] say whether the pointers [put_buffer] and [get_buffer]
    are set; [qf_opaque] is the backing store.  [close] only releases memory, and
    no file of a snapshot limits its rate. *)
Record QEMUFile := mk_file {
  qf_put : bool;
  qf_get : bool;
  qf_opaque : D;
  qf_is_write : bool;
  qf_buf_offset : Z;
  qf_buf_index : Z;
  qf_buf_size : Z;
  qf_buf : list Z;
  qf_last_error : Z
}.

Definition qemu_fopen_ops (d : D) (can_put can_get : bool) : QEMUFile :=
  mk_file can_put can_get d false 0 0 0 (replicate (Z.to_nat IO_BUF_SIZE) 0) 0.
Definition qemu_fopen_bdrv (d : D) (is_writable : bool) : QEMUFile :=
  if is_writable then qemu_fopen_ops d true false else qemu_fopen_ops d false true.

Definition QF : Type -> Type := M QEMUFile.

Definition qemu_file_get_error : QF Z := f <- get ;; ret (qf_last_error f).
Definition qemu_file_set_error (e : Z) : QF unit :=
  modify (fun f => mk_file (qf_put f) (qf_get f) (qf_opaque f) (qf_is_write f) (qf_buf_offset f) (qf_buf_index f)
                     (qf_buf_size f) (qf_buf f) e).

Definition qemu_fflush : QF unit :=
  f <- get ;;
  when (qf_put f && (qf_is_write f && (qf_buf_index f >? 0)))
    (let '(len, d) := put_buffer (take (Z.to_nat (qf_buf_index f)) (qf_buf f)) (qf_buf_offset f) (qf_opaque f) in
     if len >? 0 then
       put (mk_file true (qf_get f) d true (qf_buf_offset f + qf_buf_index f) 0 (qf_buf_size f) (qf_buf f) (qf_last_error f))
     else put (mk_file true (qf_get f) d true (qf_buf_offset f) 0 (qf_buf_size f) (qf_buf f) (- EINVAL))).

Definition qemu_fill_buffer : QF unit :=
  f <- get ;;
  if negb (qf_get f) then ret tt
  else if qf_is_write f then stop HAssert
  else
    let pending := qf_buf_size f - qf_buf_index f in
    let buf := if pending >? 0
               then memcpy_at 0 (take (Z.to_nat pending) (drop (Z.to_nat (qf_buf_index f)) (qf_buf f))) (qf_buf f)
               else qf_buf f in
    let '(len, bytes) := get_buffer (qf_buf_offset f) (IO_BUF_SIZE - pending) (qf_opaque f) in
    if len >? 0 then
      put (mk_file (qf_put f) true (qf_opaque f) false (qf_buf_offset f + len) 0 (pending + len)
             (memcpy_at (Z.to_nat pending) bytes buf) (qf_last_error f))
    else
      put (mk_file (qf_put f) true (qf_opaque f) false (qf_buf_offset f) 0 pending buf
             (if len =? 0 then - EIO else if len =? - EAGAIN then qf_last_error f else len)).

(** The file is flushed; what is left is the backing store. *)
Definition qemu_fclose : QF D := qemu_fflush ;;; f <- get ;; ret (qf_opaque f).

(** Writing to a file from which something was read aborts. *)
Definition write_check : QF unit :=
  f <- get ;;
  if (qf_last_error f =? 0) && (negb (qf_is_write f) && (qf_buf_index f >? 0)) then stop HAssert else ret tt.

(** [fuel] is at least the number of bytes: every turn copies one or more. *)
Fixpoint put_buffer_loop (fuel : nat) (buf : list Z) : QF unit :=
  match fuel with
  | O => stop HUndef
  | S fuel' =>
      f <- get ;;
      if (qf_last_error f =? 0) && (0 <? Z.of_nat (length buf)) then
        let l := Z.min (IO_BUF_SIZE - qf_buf_index f) (Z.of_nat (length buf)) in
        put (mk_file (qf_put f) (qf_get f) (qf_opaque f) true (qf_buf_offset f) (qf_buf_index f + l) (qf_buf_size f)
               (memcpy_at (Z.to_nat (qf_buf_index f)) (take (Z.to_nat l) buf) (qf_buf f)) (qf_last_error f)) ;;;
        (f <- get ;; when (qf_buf_index f >=? IO_BUF_SIZE) qemu_fflush) ;;;
        put_buffer_loop fuel' (drop (Z.to_nat l) buf)
      else ret tt
  end.
Definition qemu_put_buffer (buf : list Z) : QF unit := write_check ;;; put_buffer_loop (S (length buf)) buf.

(** A store outside the buffer is undefined. *)
Definition qemu_put_byte (v : Z) : QF unit :=
  write_check ;;;
  f <- get ;;
  if (0 <=? qf_buf_index f) && (qf_buf_index f <? IO_BUF_SIZE) then
    put (mk_file (qf_put f) (qf_get f) (qf_opaque f) true (qf_buf_offset f) (qf_buf_index f + 1) (qf_buf_size f)
           (<[Z.to_nat (qf_buf_index f) := v mod 2 ^ 8]> (qf_buf f)) (qf_last_error f)) ;;;
    (f <- get ;; when (qf_buf_index f >=? IO_BUF_SIZE) qemu_fflush)
  else stop HUndef.

Definition qemu_file_skip (size : Z) : QF unit :=
  modify (fun f => if qf_buf_index f + size <=? qf_buf_size f then
    mk_file (qf_put f) (qf_get f) (qf_opaque f) (qf_is_write f) (qf_buf_offset f) (qf_buf_index f + size)
      (qf_buf_size f) (qf_buf f) (qf_last_error f) else f).

(** The bytes that are copied; their number is what the function returns. *)
Definition qemu_peek_buffer (size offset : Z) : QF (list Z) :=
  f <- get ;;
  if qf_is_write f then stop HAssert
  else
    when (qf_buf_size f - (qf_buf_index f + offset) <? size) qemu_fill_buffer ;;;
    f <- get ;;
    let index := qf_buf_index f + offset in
    let pending := qf_buf_size f - index in
    if pending <=? 0 then ret []
    else ret (take (Z.to_nat (Z.min size pending)) (drop (Z.to_nat index) (qf_buf f))).

Fixpoint get_buffer_loop (fuel : nat) (pending : Z) (done : list Z) : QF (list Z) :=
  match fuel with
  | O => if pending >? 0 then stop HUndef else ret done
  | S fuel' =>
      if pending >? 0 then
        res <- qemu_peek_buffer pending 0 ;;
        match res with
        | [] => ret done
        | _ => qemu_file_skip (Z.of_nat (length res)) ;;;
               get_buffer_loop fuel' (pending - Z.of_nat (length res)) (done ++ res)
        end
      else ret done
  end.
Definition qemu_get_buffer (size : Z) : QF (list Z) := get_buffer_loop (Z.to_nat size) size [].

Definition qemu_peek_byte (offset : Z) : QF Z :=
  f <- get ;;
  if qf_is_write f then stop HAssert
  else if qf_buf_index f + offset >=? qf_buf_size f then
    qemu_fill_buffer ;;;
    f <- get ;;
    if qf_buf_index f + offset >=? qf_buf_size f then ret 0
    else ret (qf_buf f !!! Z.to_nat (qf_buf_index f + offset))
  else ret (qf_buf f !!! Z.to_nat (qf_buf_index f + offset)).

Definition qemu_get_byte : QF Z := result <- qemu_peek_byte 0 ;; qemu_file_skip 1 ;;; ret result.

Definition qemu_ftell : QF Z := f <- get ;; ret (qf_buf_offset f - qf_buf_size f + qf_buf_index f).

Inductive whence := SEEK_SET | SEEK_CUR | SEEK_END.
Definition qemu_fseek (pos : Z) (w : whence) : QF Z :=
  t <- qemu_ftell ;;
  match w with
  | SEEK_END => ret (-1)
  | _ =>
      let pos := match w with SEEK_CUR => pos + t | _ => pos end in
      f <- get ;;
      (if qf_put f then
         qemu_fflush ;;;
         modify (fun f => mk_file (qf_put f) (qf_get f) (qf_opaque f) (qf_is_write f) pos (qf_buf_index f) (qf_buf_size f)
                            (qf_buf f) (qf_last_error f))
       else put (mk_file (qf_put f) (qf_get f) (qf_opaque f) (qf_is_write f) pos 0 0 (qf_buf f) (qf_last_error f))) ;;;
      ret pos
  end.

(** ** Integers, most significant byte first *)

Definition qemu_put_be16 (v : Z) : QF unit := qemu_put_byte (Z.shiftr v 8) ;;; qemu_put_byte v.
Definition qemu_put_be32 (v : Z) : QF unit :=
  qemu_put_byte (Z.shiftr v 24) ;;; qemu_put_byte (Z.shiftr v 16) ;;; qemu_put_byte (Z.shiftr v 8) ;;; qemu_put_byte v.
Definition qemu_put_be64 (v : Z) : QF unit := qemu_put_be32 (u32 (Z.shiftr v 32)) ;;; qemu_put_be32 (u32 v).

Definition qemu_get_be16 : QF Z :=
  a <- qemu_get_byte ;; b <- qemu_get_byte ;; ret (Z.lor (Z.shiftl a 8) b).
Definition qemu_get_be32 : QF Z :=
  a <- qemu_get_byte ;; b <- qemu_get_byte ;; c <- qemu_get_byte ;; d <- qemu_get_byte ;;
  ret (Z.lor (Z.lor (Z.lor (Z.shiftl a 24) (Z.shiftl b 16)) (Z.shiftl c 8)) d).
Definition qemu_get_be64 : QF Z :=
  a <- qemu_get_be32 ;; b <- qemu_get_be32 ;; ret (Z.lor (Z.shiftl a 32) b).
End file.

Arguments QEMUFile D : clear implicits.
Arguments QF D : clear implicits.

(** ** What the buffer hides *)

(** Decompositions of [memcpy_at]. *)
Lemma length_memcpy_at off src dst :
  (off + length src <= length dst)%nat -> length (memcpy_at off src dst) = length dst.
Proof. intros. unfold memcpy_at. rewrite !length_app, length_take, length_drop. lia. Qed.

Lemma take_memcpy_at off src dst :
  (off <= length dst)%nat -> take (off + length src) (memcpy_at off src dst) = take off dst ++ src.
Proof.
  intros. unfold memcpy_at. rewrite app_assoc, take_app_le, take_ge; [done|..]; rewrite length_app, length_take; lia.
Qed.

Section refine.
Context {D : Type} {backing : Backing D} {laws : BackingLaws D}.
Implicit Types (f : QEMUFile D) (rest : list Z).

(** *** Reading *)

(** The bytes that are in the buffer and not read yet. *)
Definition buffered f : list Z :=
  take (Z.to_nat (qf_buf_size f - qf_buf_index f)) (drop (Z.to_nat (qf_buf_index f)) (qf_buf f)).

(** [rest] is left to read, whatever comes behind it. *)
Record reading f rest : Prop := mk_reading {
  rd_get : qf_get f = true;
  rd_write : qf_is_write f = false;
  rd_buf : Z.of_nat (length (qf_buf f)) = IO_BUF_SIZE;
  rd_index : 0 <= qf_buf_index f <= qf_buf_size f;
  rd_size : qf_buf_size f <= IO_BUF_SIZE;
  rd_offset : 0 <= qf_buf_offset f;
  rd_rest : rest `prefix_of` buffered f ++ drop (Z.to_nat (qf_buf_offset f)) (content (qf_opaque f))
}.

(** [f'] comes after [f] without a new error or a change of the store. *)
Definition no_error f f' : Prop := (qf_last_error f', qf_opaque f') = (qf_last_error f, qf_opaque f).

Lemma length_buffered f rest : reading f rest -> Z.of_nat (length (buffered f)) = qf_buf_size f - qf_buf_index f.
Proof. intros []. unfold buffered. rewrite length_take, length_drop. lia. Qed.

Lemma buffered_lookup f rest (i : nat) :
  reading f rest -> Z.of_nat i < qf_buf_size f - qf_buf_index f -> (i < length rest)%nat ->
  rest !! i = qf_buf f !! Z.to_nat (qf_buf_index f + Z.of_nat i).
Proof.
  intros Hr Hi Hl. pose proof (length_buffered _ _ Hr). destruct Hr as [? ? ? ? ? ? [k Hk]].
  rewrite <- (lookup_app_l rest k), <- Hk, lookup_app_l by lia. unfold buffered. rewrite lookup_take_lt, lookup_drop by lia. f_equal. lia.
Qed.

Lemma prefix_refill (tl behind : list Z) n :
  tl `prefix_of` take n (tl ++ behind) ++ drop (length (take n (tl ++ behind))) tl.
Proof.
  destruct (decide (n <= length tl)%nat) as [Hn|Hn].
  - rewrite take_app_le, length_take, Nat.min_l by lia. by rewrite take_drop.
  - rewrite take_app_ge by lia. rewrite <- app_assoc. by apply prefix_app_r.
Qed.

(** Filling the buffer changes nothing that is left to read; there is room, and
    everything the buffer can hold is then in it. *)
Lemma fill_reading f rest :
  reading f rest -> qf_buf_size f - qf_buf_index f < IO_BUF_SIZE ->
  exists f', qemu_fill_buffer f = Ret f' tt /\ reading f' rest /\
    Z.min IO_BUF_SIZE (Z.of_nat (length rest)) <= qf_buf_size f' - qf_buf_index f' /\
    (qf_buf_size f - qf_buf_index f < Z.of_nat (length rest) -> no_error f f').
Proof.
  intros Hr Hroom. pose proof (length_buffered _ _ Hr) as Hlen. destruct Hr as [Hg Hw Hb Hi Hs Ho Hrest].
  unfold qemu_fill_buffer. erewrite bind_Ret by reflexivity. rewrite Hg, Hw. cbn [negb].
  set (pending := qf_buf_size f - qf_buf_index f) in *.
  set (tl := drop (Z.to_nat (qf_buf_offset f)) (content (qf_opaque f))) in *.
  assert (Hmv : (if pending >? 0 then memcpy_at 0 (buffered f) (qf_buf f) else qf_buf f) = memcpy_at 0 (buffered f) (qf_buf f)).
  { destruct (Z.gtb_spec pending 0); [done|]. unfold memcpy_at. assert (buffered f = []) as ->; [|done].
    apply nil_length_inv. lia. }
  cbv zeta. change (take (Z.to_nat pending) (drop (Z.to_nat (qf_buf_index f)) (qf_buf f))) with (buffered f).
  destruct (get_content (qf_opaque f) (qf_buf_offset f) (IO_BUF_SIZE - pending) Ho ltac:(lia)) as [behind Eget].
  cbv zeta in Eget. fold tl in Eget. rewrite Hmv, Eget.
  assert (Hrl : (length rest <= length (buffered f) + length tl)%nat) by (rewrite <- length_app; by apply prefix_length).
  set (r := take (Z.to_nat (IO_BUF_SIZE - pending)) (tl ++ behind)).
  assert (Hr : Z.min (IO_BUF_SIZE - pending) (Z.of_nat (length tl)) <= Z.of_nat (length r) <= IO_BUF_SIZE - pending)
    by (unfold r; rewrite length_take, length_app; lia).
  set (buf1 := memcpy_at 0 (buffered f) (qf_buf f)).
  assert (Hb1 : length buf1 = length (qf_buf f)) by (apply length_memcpy_at; lia).
  assert (Ht1 : take (Z.to_nat pending) buf1 = buffered f).
  { replace (Z.to_nat pending) with (0 + length (buffered f))%nat by lia. apply take_memcpy_at. lia. }
  destruct (Z.gtb_spec (Z.of_nat (length r)) 0).
  - eexists. split; [reflexivity|]. cbn. repeat split; cbn; try lia; try done.
    + rewrite length_memcpy_at; lia.
    + unfold buffered at 1. cbn. rewrite drop_0. replace (Z.to_nat (pending + Z.of_nat (length r) - 0)) with (Z.to_nat pending + length r)%nat by lia.
      rewrite take_memcpy_at, Ht1, <- app_assoc by lia. etrans; [exact Hrest|]. apply prefix_app.
      rewrite Z2Nat.inj_add, <- drop_drop by lia. fold tl. rewrite Nat2Z.id. apply prefix_refill.
  - assert (length r = 0%nat) as Hr0 by lia. rewrite Hr0. eexists. split; [reflexivity|]. cbn.
    repeat split; cbn; try lia; try done.
    unfold buffered at 1. cbn. rewrite drop_0. replace (Z.to_nat (pending - 0)) with (Z.to_nat pending) by lia. by rewrite Ht1.
Qed.

(** [f'] has the same left to read as [f], the first [n] bytes of it in the
    buffer, and no new error. *)
Definition peeked f f' rest (n : Z) : Prop :=
  reading f' rest /\ no_error f f' /\ n <= qf_buf_size f' - qf_buf_index f'.

Lemma peek_buffer_reading f rest size offset :
  reading f rest -> 0 < size -> 0 <= offset -> offset + size <= IO_BUF_SIZE -> offset + size <= Z.of_nat (length rest) ->
  exists f', qemu_peek_buffer size offset f = Ret f' (take (Z.to_nat size) (drop (Z.to_nat offset) rest)) /\
             peeked f f' rest (offset + size).
Proof.
  intros Hr Hs Ho Hbuf Hlen. unfold qemu_peek_buffer. erewrite bind_Ret by reflexivity. rewrite (rd_write _ _ Hr).
  assert (exists f', when (qf_buf_size f - (qf_buf_index f + offset) <? size) qemu_fill_buffer f = Ret f' tt /\
                     peeked f f' rest (offset + size)) as (f' & E & Hp).
  { destruct (Z.ltb_spec (qf_buf_size f - (qf_buf_index f + offset)) size) as [Hlt|Hge]; cbn [when].
    - destruct (fill_reading f rest Hr ltac:(lia)) as (f' & E & Hr' & Hsz & He). exists f'. split; [done|].
      split; [done|]. split; [apply He; lia|]. lia.
    - exists f. split; [done|]. split; [done|]. split; [done|]. lia. }
  rewrite (bind_Ret _ _ _ _ _ E). erewrite bind_Ret by reflexivity. cbv zeta. exists f'. split; [|done].
  destruct Hp as (Hr' & _ & Hn). zdecide (qf_buf_size f' - (qf_buf_index f' + offset) <=? 0). rewrite Z.min_l by lia.
  unfold ret. f_equal. apply list_eq. intros i. destruct (decide (i < Z.to_nat size)%nat) as [Hi|Hi].
  - rewrite !lookup_take_lt, !lookup_drop by lia. rewrite (buffered_lookup f' rest) by (done || lia).
    pose proof (rd_index _ _ Hr'). f_equal. lia.
  - by rewrite !lookup_take_ge by lia.
Qed.

Lemma peek_byte_reading f rest offset b :
  reading f rest -> 0 <= offset < IO_BUF_SIZE -> rest !! Z.to_nat offset = Some b ->
  exists f', qemu_peek_byte offset f = Ret f' b /\ peeked f f' rest (offset + 1).
Proof.
  intros Hr Ho Hb. pose proof (lookup_lt_Some _ _ _ Hb) as Hlen. unfold qemu_peek_byte. erewrite bind_Ret by reflexivity.
  rewrite (rd_write _ _ Hr).
  assert (Hat : forall f', reading f' rest -> offset < qf_buf_size f' - qf_buf_index f' ->
            qf_buf f' !!! Z.to_nat (qf_buf_index f' + offset) = b).
  { intros f' Hr' Hlt. apply list_lookup_total_correct. rewrite <- Hb, (buffered_lookup f' rest) by (done || lia).
    f_equal. lia. }
  destruct (Z.geb_spec (qf_buf_index f + offset) (qf_buf_size f)) as [Hge|Hlt].
  - destruct (fill_reading f rest Hr ltac:(lia)) as (f' & E & Hr' & Hsz & He).
    rewrite (bind_Ret _ _ _ _ _ E). erewrite bind_Ret by reflexivity.
    zdecide (qf_buf_index f' + offset >=? qf_buf_size f'). exists f'.
    rewrite Hat by (done || lia). split; [done|]. split; [done|]. split; [apply He; lia|]. lia.
  - exists f. rewrite Hat by (done || lia). split; [done|]. split; [done|]. split; [done|]. lia.
Qed.

Lemma skip_reading f rest n :
  reading f rest -> 0 <= n <= qf_buf_size f - qf_buf_index f ->
  exists f', qemu_file_skip n f = Ret f' tt /\ reading f' (drop (Z.to_nat n) rest) /\ no_error f f' /\
    qf_buf_size f' - qf_buf_index f' = qf_buf_size f - qf_buf_index f - n.
Proof.
  intros Hr Hn. pose proof (length_buffered _ _ Hr) as Hlen. destruct Hr as [Hg Hw Hb Hi Hs Ho [k Hk]].
  unfold qemu_file_skip, modify. zdecide (qf_buf_index f + n <=? qf_buf_size f). eexists. split; [done|].
  split; [|split; cbn; [done|lia]]. split; cbn; try done; try lia.
  exists (drop (Z.to_nat n - length rest) k). rewrite <- drop_app, <- Hk, drop_app_le by lia. f_equal. unfold buffered. cbn.
  rewrite skipn_firstn_comm, drop_drop. f_equal; [lia|]. f_equal. lia.
Qed.

(** *** One byte, and any number of bytes the buffer can hold *)

Lemma get_byte_reading f b rest :
  reading f (b :: rest) -> exists f', qemu_get_byte f = Ret f' b /\ reading f' rest /\ no_error f f'.
Proof.
  intros Hr. destruct (peek_byte_reading f (b :: rest) 0 b Hr) as (f1 & E1 & Hr1 & He1 & Hn1); [done..|].
  destruct (skip_reading f1 (b :: rest) 1 Hr1 ltac:(lia)) as (f2 & E2 & Hr2 & He2 & _).
  exists f2. unfold qemu_get_byte. rewrite (bind_Ret _ _ _ _ _ E1), (bind_Ret _ _ _ _ _ E2).
  split; [done|]. split; [done|]. unfold no_error in *. congruence.
Qed.

Lemma get_buffer_reading f bs rest :
  reading f (bs ++ rest) -> Z.of_nat (length bs) <= IO_BUF_SIZE ->
  exists f', qemu_get_buffer (Z.of_nat (length bs)) f = Ret f' bs /\ reading f' rest /\ no_error f f'.
Proof.
  intros Hr Hlen. unfold qemu_get_buffer. rewrite Nat2Z.id. destruct bs as [|b bs]; [by exists f|].
  cbn [get_buffer_loop length]. set (l := b :: bs) in *. change (S (length bs)) with (length l).
  assert (0 < Z.of_nat (length l)) by (cbn; lia). zdecide (Z.of_nat (length l) >? 0).
  destruct (peek_buffer_reading f (l ++ rest) (Z.of_nat (length l)) 0 Hr) as (f1 & E1 & Hr1 & He1 & Hn1);
    [lia..|rewrite length_app; lia|].
  rewrite (bind_Ret _ _ _ _ _ E1). rewrite Nat2Z.id, drop_0, take_app_length. unfold l at 1.
  destruct (skip_reading f1 (l ++ rest) (Z.of_nat (length l)) Hr1 ltac:(lia)) as (f2 & E2 & Hr2 & He2 & _).
  rewrite (bind_Ret _ _ _ _ _ E2). rewrite Z.sub_diag. exists f2. rewrite Nat2Z.id, drop_app_length in Hr2.
  split; [by destruct (length bs)|]. split; [done|]. unfold no_error in *. congruence.
Qed.

(** *** Writing *)

(** [ws] was written to a file on the store [d0]: it is what the store holds up to the
    offset, then what is in the buffer. *)
Record writing (d0 : D) f (ws : list Z) : Prop := mk_writing {
  wr_frame : frame (qf_opaque f) = frame d0;
  wr_put : qf_put f = true;
  wr_error : qf_last_error f = 0;
  wr_buf : Z.of_nat (length (qf_buf f)) = IO_BUF_SIZE;
  wr_index : 0 <= qf_buf_index f < IO_BUF_SIZE;
  wr_size : qf_buf_size f = 0;
  wr_offset : 0 <= qf_buf_offset f <= Z.of_nat (length (content (qf_opaque f)));
  wr_is_write : qf_is_write f = true \/ qf_buf_index f = 0;
  wr_bytes : ws = take (Z.to_nat (qf_buf_offset f)) (content (qf_opaque f)) ++ take (Z.to_nat (qf_buf_index f)) (qf_buf f)
}.

#[global] Arguments wr_frame {d0} f ws _.
#[global] Arguments wr_put {d0} f ws _.
#[global] Arguments wr_error {d0} f ws _.
#[global] Arguments wr_buf {d0} f ws _.
#[global] Arguments wr_index {d0} f ws _.
#[global] Arguments wr_size {d0} f ws _.
#[global] Arguments wr_offset {d0} f ws _.
#[global] Arguments wr_is_write {d0} f ws _.
#[global] Arguments wr_bytes {d0} f ws _.

Lemma write_check_ok {d0} f ws : writing d0 f ws -> write_check f = Ret f tt.
Proof.
  intros []. unfold write_check. erewrite bind_Ret by reflexivity. rewrite wr_error0. cbn [Z.eqb andb].
  destruct wr_is_write0 as [-> | ->]; [done|]. by rewrite andb_false_r.
Qed.

(** The buffer, full or not, goes to the store. *)
Lemma fflush_full {d0} f d ws :
  frame d = frame d0 ->
  qf_put f = true -> qf_is_write f = true -> Z.of_nat (length (qf_buf f)) = IO_BUF_SIZE -> qf_last_error f = 0 ->
  0 < qf_buf_index f <= IO_BUF_SIZE -> qf_buf_size f = 0 -> qf_opaque f = d ->
  0 <= qf_buf_offset f <= Z.of_nat (length (content d)) ->
  ws = take (Z.to_nat (qf_buf_offset f)) (content d) ++ take (Z.to_nat (qf_buf_index f)) (qf_buf f) ->
  exists f', qemu_fflush f = Ret f' tt /\ writing d0 f' ws /\ ws `prefix_of` content (qf_opaque f').
Proof.
  intros Hfr Hp Hw Hb He Hi Hs <- Ho ->. unfold qemu_fflush. erewrite bind_Ret by reflexivity. rewrite Hp, Hw.
  zdecide (qf_buf_index f >? 0). cbn [when andb]. set (bs := take (Z.to_nat (qf_buf_index f)) _).
  assert (Hl : Z.of_nat (length bs) = qf_buf_index f) by (unfold bs; rewrite length_take; lia).
  destruct (put_content (qf_opaque f) bs (qf_buf_offset f) Ho) as (d' & E & Hd' & Hfr'). rewrite E. zdecide (Z.of_nat (length bs) >? 0).
  eexists. split; [reflexivity|].
  assert (Htake : take (Z.to_nat (qf_buf_offset f + qf_buf_index f)) (content d') = take (Z.to_nat (qf_buf_offset f)) (content (qf_opaque f)) ++ bs).
  { rewrite Hd'. replace (Z.to_nat (qf_buf_offset f + qf_buf_index f)) with (Z.to_nat (qf_buf_offset f) + length bs)%nat by lia.
    apply take_memcpy_at. lia. }
  split; [|cbn; rewrite <- Htake; apply prefix_take]. split; cbn; try done; try (unfold IO_BUF_SIZE; lia); [congruence|..].
  - split; [lia|]. rewrite Hd'. unfold memcpy_at. rewrite !length_app, length_take. lia.
  - by rewrite take_0, app_nil_r.
Qed.

Lemma fflush_writing {d0} f ws :
  writing d0 f ws -> exists f', qemu_fflush f = Ret f' tt /\ writing d0 f' ws /\ ws `prefix_of` content (qf_opaque f').
Proof.
  intros Hw. destruct (decide (qf_buf_index f = 0)) as [H0|Hne].
  - exists f. destruct Hw as [Hfr Hp He Hb Hi Hs Ho Hwr Hws]. unfold qemu_fflush. erewrite bind_Ret by reflexivity.
    rewrite Hp, H0, andb_false_r. split; [done|]. split; [split; (done || lia)|].
    rewrite Hws, H0, take_0, app_nil_r. apply prefix_take.
  - destruct Hw as [Hfr Hp He Hb Hi Hs Ho [Hwr|H0] Hws]; [|lia]. apply (fflush_full f (qf_opaque f) ws); (done || lia).
Qed.

(** After bytes are stored in the buffer, it is flushed when it is full. *)
Lemma store_writing {d0} f ws bs :
  writing d0 f ws -> 0 < Z.of_nat (length bs) <= IO_BUF_SIZE - qf_buf_index f ->
  exists f', (put (mk_file (qf_put f) (qf_get f) (qf_opaque f) true (qf_buf_offset f)
                     (qf_buf_index f + Z.of_nat (length bs)) (qf_buf_size f)
                     (memcpy_at (Z.to_nat (qf_buf_index f)) bs (qf_buf f)) (qf_last_error f)) ;;;
              f <- get ;; when (qf_buf_index f >=? IO_BUF_SIZE) qemu_fflush) f = Ret f' tt /\ writing d0 f' (ws ++ bs).
Proof.
  intros Hw Hbs. destruct Hw as [Hfr Hp He Hb Hi Hs Ho _ Hws]. erewrite bind_Ret by reflexivity. erewrite bind_Ret by reflexivity.
  cbn [qf_buf_index].
  set (f1 := mk_file _ _ _ _ _ _ _ _ _).
  assert (Hb1 : Z.of_nat (length (qf_buf f1)) = IO_BUF_SIZE) by (cbn; rewrite length_memcpy_at; lia).
  assert (Hws1 : ws ++ bs = take (Z.to_nat (qf_buf_offset f1)) (content (qf_opaque f1)) ++ take (Z.to_nat (qf_buf_index f1)) (qf_buf f1)).
  { cbn. replace (Z.to_nat (qf_buf_index f + _)) with (Z.to_nat (qf_buf_index f) + length bs)%nat by lia.
    rewrite take_memcpy_at by lia. by rewrite Hws, app_assoc. }
  destruct (Z.geb_spec (qf_buf_index f + Z.of_nat (length bs)) IO_BUF_SIZE); cbn [when].
  - destruct (fflush_full (d0 := d0) f1 (qf_opaque f1) (ws ++ bs)) as (f' & E & Hw' & _); try done; [cbn; lia|]. by exists f'.
  - exists f1. split; [done|]. split; (done || (cbn; lia) || by left).
Qed.

Lemma put_byte_writing {d0} f ws v :
  writing d0 f ws -> exists f', qemu_put_byte v f = Ret f' tt /\ writing d0 f' (ws ++ [v mod 2 ^ 8]).
Proof.
  intros Hw. destruct (store_writing f ws [v mod 2 ^ 8] Hw) as (f' & E & Hw'); [pose proof (wr_index _ _ Hw); cbn; lia|].
  exists f'. split; [|done]. unfold qemu_put_byte. rewrite (bind_Ret _ _ _ _ _ (write_check_ok _ _ Hw)).
  erewrite bind_Ret by reflexivity. pose proof (wr_index _ _ Hw). pose proof (wr_buf _ _ Hw).
  zdecide (0 <=? qf_buf_index f). zdecide (qf_buf_index f <? IO_BUF_SIZE). cbn [andb].
  rewrite <- E. do 3 f_equal. unfold memcpy_at. rewrite insert_take_drop by lia. cbn. by rewrite Nat.add_1_r.
Qed.

Lemma put_buffer_writing {d0} f ws bs :
  writing d0 f ws -> exists f', qemu_put_buffer bs f = Ret f' tt /\ writing d0 f' (ws ++ bs).
Proof.
  intros Hw. unfold qemu_put_buffer. rewrite (bind_Ret _ _ _ _ _ (write_check_ok _ _ Hw)).
  assert (length bs < S (length bs))%nat as Hfuel by lia. revert Hfuel. generalize (S (length bs)) as fuel.
  intros fuel. revert f ws bs Hw. induction fuel as [|fuel IH]; intros f ws bs Hw Hfuel; [lia|].
  cbn [put_buffer_loop]. erewrite bind_Ret by reflexivity. rewrite (wr_error _ _ Hw). cbn [Z.eqb andb].
  pose proof (wr_index _ _ Hw). destruct (Z.ltb_spec 0 (Z.of_nat (length bs))) as [Hpos|Hnil].
  - set (l := Z.min _ _). set (p := take (Z.to_nat l) bs).
    assert (Hl : Z.of_nat (length p) = l) by (unfold p; rewrite length_take; lia).
    destruct (store_writing f ws p Hw ltac:(lia)) as (f1 & E1 & Hw1).
    rewrite Hl, (wr_error _ _ Hw) in E1. rewrite <- bind_assoc, (bind_Ret _ _ _ _ _ E1).
    destruct (IH f1 (ws ++ p) (drop (Z.to_nat l) bs) Hw1) as (f2 & E2 & Hw2); [rewrite length_drop; lia|].
    exists f2. split; [done|]. unfold p in Hw2. by rewrite <- app_assoc, take_drop in Hw2.
  - exists f. destruct bs; [|cbn in Hnil; lia]. by rewrite app_nil_r.
Qed.
End refine.

(** ** Integers on the wire *)

Definition be16 (v : Z) : list Z := [Z.shiftr v 8 mod 2 ^ 8; v mod 2 ^ 8].
Definition be32 (v : Z) : list Z := [Z.shiftr v 24 mod 2 ^ 8; Z.shiftr v 16 mod 2 ^ 8; Z.shiftr v 8 mod 2 ^ 8; v mod 2 ^ 8].
Definition be64 (v : Z) : list Z := be32 (u32 (Z.shiftr v 32)) ++ be32 (u32 v).

Lemma lor_shift a b n : 0 <= n -> 0 <= b < 2 ^ n -> Z.lor (Z.shiftl a n) b = a * 2 ^ n + b.
Proof.
  intros Hn Hb. rewrite <- Z.shiftl_mul_pow2 by lia.
  assert (Z.land (Z.shiftl a n) b = 0) as H0.
  { apply Z.bits_inj'. intros m Hm. rewrite Z.land_spec, Z.shiftl_spec, Z.bits_0 by lia.
    destruct (decide (m < n)); [by rewrite Z.testbit_neg_r by lia|].
    rewrite <- (Z.mod_small b (2 ^ n)), Z.mod_pow2_bits_high by lia. apply andb_false_r. }
  rewrite Z.add_nocarry_lxor by done. by rewrite Z.lxor_lor.
Qed.

Lemma be16_value v : Z.lor (Z.shiftl (Z.shiftr v 8 mod 2 ^ 8) 8) (v mod 2 ^ 8) = v mod 2 ^ 16.
Proof.
  rewrite lor_shift by (try apply Z.mod_pos_bound; lia). rewrite Z.shiftr_div_pow2 by lia.
  Z.div_mod_to_equations. lia.
Qed.

Lemma be32_value v :
  Z.lor (Z.lor (Z.lor (Z.shiftl (Z.shiftr v 24 mod 2 ^ 8) 24) (Z.shiftl (Z.shiftr v 16 mod 2 ^ 8) 16))
           (Z.shiftl (Z.shiftr v 8 mod 2 ^ 8) 8)) (v mod 2 ^ 8) = u32 v.
Proof.
  assert (Hb : forall x, 0 <= x mod 2 ^ 8 < 2 ^ 8) by (intros; apply Z.mod_pos_bound; lia).
  rewrite <- (Z.lor_assoc (Z.lor _ _)), (lor_shift _ (v mod 2 ^ 8) 8) by (lia || apply Hb).
  set (lo := _ * 2 ^ 8 + _). assert (0 <= lo < 2 ^ 16) by (unfold lo; pose proof (Hb (Z.shiftr v 8)); pose proof (Hb v); lia).
  rewrite <- Z.lor_assoc, (lor_shift _ lo 16) by lia. set (mid := _ * 2 ^ 16 + lo).
  assert (0 <= mid < 2 ^ 24) by (unfold mid; pose proof (Hb (Z.shiftr v 16)); lia).
  rewrite lor_shift by lia. unfold mid, lo, u32. rewrite !Z.shiftr_div_pow2 by lia. clear. Z.div_mod_to_equations. lia.
Qed.

Lemma be64_value v : Z.lor (Z.shiftl (u32 (u32 (Z.shiftr v 32))) 32) (u32 (u32 v)) = u64 v.
Proof.
  rewrite !u32_id by apply u32_range. rewrite lor_shift by (lia || apply u32_range).
  unfold u32, u64. rewrite Z.shiftr_div_pow2 by lia. Z.div_mod_to_equations. lia.
Qed.

(** ** Operations that put and get given bytes *)

Create HintDb wire.

Section wire.
Context {D : Type} {backing : Backing D} {laws : BackingLaws D}.

(** [m] writes exactly [bs]; [m] reads exactly [bs] and returns [v]. *)
Definition puts (m : QF D unit) (bs : list Z) : Prop :=
  forall d0 f ws, writing d0 f ws -> exists f', m f = Ret f' tt /\ writing d0 f' (ws ++ bs).
Definition gets {A} (m : QF D A) (bs : list Z) (v : A) : Prop :=
  forall f rest, reading f (bs ++ rest) -> exists f', m f = Ret f' v /\ reading f' rest /\ no_error f f'.

Lemma puts_ret : puts (ret tt) [].
Proof. intros d0 f ws Hw. exists f. by rewrite app_nil_r. Qed.
Lemma puts_bind m k bs bs' : puts m bs -> puts k bs' -> puts (m ;;; k) (bs ++ bs').
Proof.
  intros Hm Hk d0 f ws Hw. destruct (Hm d0 f ws Hw) as (f1 & E1 & Hw1). destruct (Hk d0 f1 _ Hw1) as (f2 & E2 & Hw2).
  exists f2. rewrite (bind_Ret _ _ _ _ _ E1), E2. by rewrite app_assoc.
Qed.
Lemma puts_eq m bs bs' : puts m bs -> bs = bs' -> puts m bs'.
Proof. by intros ? <-. Qed.

Lemma gets_ret {A} (v : A) : gets (ret v) [] v.
Proof. intros f rest Hr. by exists f. Qed.
Lemma gets_bind {A B} (m : QF D A) (k : A -> QF D B) bs bs' v v' :
  gets m bs v -> gets (k v) bs' v' -> gets (x <- m ;; k x) (bs ++ bs') v'.
Proof.
  intros Hm Hk f rest Hr. rewrite <- app_assoc in Hr. destruct (Hm f _ Hr) as (f1 & E1 & Hr1 & He1).
  destruct (Hk f1 _ Hr1) as (f2 & E2 & Hr2 & He2). exists f2. rewrite (bind_Ret _ _ _ _ _ E1), E2.
  split; [done|]. split; [done|]. unfold no_error in *. congruence.
Qed.
Lemma gets_eq {A} (m : QF D A) bs v bs' v' : gets m bs v -> bs = bs' -> v = v' -> gets m bs' v'.
Proof. by intros ? <- <-. Qed.

Lemma puts_byte v : puts (qemu_put_byte v) [v mod 2 ^ 8].
Proof. intros d0 f ws. apply put_byte_writing. Qed.
Lemma puts_buffer bs : puts (qemu_put_buffer bs) bs.
Proof. intros d0 f ws. apply put_buffer_writing. Qed.
Lemma gets_byte b : gets qemu_get_byte [b] b.
Proof. intros f rest. apply get_byte_reading. Qed.
Lemma gets_buffer bs : Z.of_nat (length bs) <= IO_BUF_SIZE -> gets (qemu_get_buffer (Z.of_nat (length bs))) bs bs.
Proof. intros Hl f rest Hr. by apply get_buffer_reading. Qed.

Lemma puts_be16 v : puts (qemu_put_be16 v) (be16 v).
Proof. exact (puts_bind _ _ [_] [_] (puts_byte _) (puts_byte _)). Qed.
Lemma puts_be32 v : puts (qemu_put_be32 v) (be32 v).
Proof. exact (puts_bind _ _ [_] [_; _; _] (puts_byte _) (puts_bind _ _ [_] [_; _] (puts_byte _) (puts_bind _ _ [_] [_] (puts_byte _) (puts_byte _)))). Qed.
Lemma puts_be64 v : puts (qemu_put_be64 v) (be64 v).
Proof. apply puts_bind; apply puts_be32. Qed.

Lemma gets_be16 v : gets qemu_get_be16 (be16 v) (v mod 2 ^ 16).
Proof.
  eapply gets_eq; [eapply gets_bind, gets_bind, gets_ret; apply gets_byte|done|apply be16_value].
Qed.
Lemma gets_be32 v : gets qemu_get_be32 (be32 v) (u32 v).
Proof.
  eapply gets_eq; [eapply gets_bind, gets_bind, gets_bind, gets_bind, gets_ret; apply gets_byte|done|apply be32_value].
Qed.
Lemma gets_be64 v : gets qemu_get_be64 (be64 v) (u64 v).
Proof.
  rewrite <- be64_value. unfold be64. rewrite <- (app_nil_r (be32 (u32 v))).
  apply (gets_bind _ _ _ _ (u32 (u32 (Z.shiftr v 32)))); [apply gets_be32|].
  apply (gets_bind _ _ _ _ (u32 (u32 v))); [apply gets_be32|apply gets_ret].
Qed.
End wire.

#[export] Hint Resolve puts_ret puts_byte puts_buffer puts_be16 puts_be32 puts_be64 : wire.
#[export] Hint Resolve gets_ret gets_byte gets_be16 gets_be32 gets_be64 : wire.

(** ** What was put is got back *)

Inductive item := IByte (v : Z) | IBe16 (v : Z) | IBe32 (v : Z) | IBe64 (v : Z) | IBuffer (bs : list Z).

Section roundtrip.
Context {D : Type} {backing : Backing D} {laws : BackingLaws D}.

Definition put_item (i : item) : QF D unit :=
  match i with
  | IByte v => qemu_put_byte v
  | IBe16 v => qemu_put_be16 v
  | IBe32 v => qemu_put_be32 v
  | IBe64 v => qemu_put_be64 v
  | IBuffer bs => qemu_put_buffer bs
  end.

(** Reads an item of the kind of [i]. *)
Definition get_item (i : item) : QF D item :=
  match i with
  | IByte _ => v <- qemu_get_byte ;; ret (IByte v)
  | IBe16 _ => v <- qemu_get_be16 ;; ret (IBe16 v)
  | IBe32 _ => v <- qemu_get_be32 ;; ret (IBe32 v)
  | IBe64 _ => v <- qemu_get_be64 ;; ret (IBe64 v)
  | IBuffer bs => v <- qemu_get_buffer (Z.of_nat (length bs)) ;; ret (IBuffer v)
  end.
Fixpoint get_items (l : list item) : QF D (list item) :=
  match l with
  | [] => ret []
  | i :: l' => x <- get_item i ;; xs <- get_items l' ;; ret (x :: xs)
  end.

Definition item_wire (i : item) : list Z :=
  match i with IByte v => [v mod 2 ^ 8] | IBe16 v => be16 v | IBe32 v => be32 v | IBe64 v => be64 v | IBuffer bs => bs end.

(** The values fit the widths they are put with; a buffer fits [IO_BUF_SIZE]. *)
Definition item_ok (i : item) : Prop :=
  match i with
  | IByte v => 0 <= v < 2 ^ 8
  | IBe16 v => 0 <= v < 2 ^ 16
  | IBe32 v => 0 <= v < 2 ^ 32
  | IBe64 v => 0 <= v < 2 ^ 64
  | IBuffer bs => Z.of_nat (length bs) <= IO_BUF_SIZE
  end.

Lemma puts_items l : puts (for_each l put_item) (mbind item_wire l).
Proof.
  induction l as [|i l IH]; [apply puts_ret|]. cbn [for_each]. apply puts_bind; [|apply IH].
  destruct i; cbn [put_item item_wire]; auto with wire.
Qed.

Lemma gets_items l : Forall item_ok l -> gets (get_items l) (mbind item_wire l) l.
Proof.
  induction 1 as [|i l Hi Hl IH]; [apply gets_ret|]. cbn [get_items].
  apply (gets_bind _ _ _ _ i); [|eapply gets_eq; [eapply gets_bind, gets_ret; apply IH|by rewrite app_nil_r|done]].
  destruct i as [v|v|v|v|bs]; cbn [get_item item_wire]; cbn [item_ok] in Hi;
    (eapply gets_eq; [eapply gets_bind, gets_ret; auto with wire|by rewrite app_nil_r|]).
  - by rewrite Z.mod_small.
  - by rewrite Z.mod_small.
  - by rewrite u32_id.
  - by rewrite u64_id.
  - by apply gets_buffer.
  - done.
Qed.

Lemma length_fresh_buf : Z.of_nat (length (replicate (Z.to_nat IO_BUF_SIZE) 0)) = IO_BUF_SIZE.
Proof. rewrite length_replicate. by apply Z2Nat.id. Qed.

Lemma fopen_writing d : writing d (qemu_fopen_bdrv d true) [].
Proof. split; [done|done|done|exact length_fresh_buf|done|done|cbn; lia|by right|]. cbn. by rewrite !take_0. Qed.

Lemma fopen_reading d rest : rest `prefix_of` content d -> reading (qemu_fopen_bdrv d false) rest.
Proof. intros Hd. split; [done|done|exact length_fresh_buf|done|done|done|]. cbn. by rewrite drop_0. Qed.

Lemma fclose_writing {d0} f ws : writing d0 f ws -> exists f' d', qemu_fclose f = Ret f' d' /\ ws `prefix_of` content d' /\ frame d' = frame d0 /\ qf_opaque f' = d'.
Proof.
  intros Hw. destruct (fflush_writing f ws Hw) as (f' & E & Hw' & Hc). exists f', (qf_opaque f').
  unfold qemu_fclose. rewrite (bind_Ret _ _ _ _ _ E). split; [done|]. split; [done|]. split; [exact (wr_frame _ _ Hw')|done].
Qed.

Lemma ftell_writing {d0} f ws : writing d0 f ws -> qemu_ftell f = Ret f (Z.of_nat (length ws)).
Proof.
  intros []. unfold qemu_ftell. erewrite bind_Ret by reflexivity. subst ws. unfold ret. f_equal.
  rewrite length_app, !length_take. lia.
Qed.

End roundtrip.


(** ** The area of a disk image *)

(** [bdrv_save_vmstate] and [bdrv_load_vmstate] are the block layer's; the result of
    the first is not looked at. *)
Section block.
Context {B : Type} (bdrv_save_vmstate : list Z -> Z -> B -> Z * B) (bdrv_load_vmstate : Z -> Z -> B -> Z * list Z).

Definition block_put_buffer (buf : list Z) (pos : Z) (bs : B) : Z * B :=
  let '(_, bs') := bdrv_save_vmstate buf pos bs in (Z.of_nat (length buf), bs').
Definition block_get_buffer (pos size : Z) (bs : B) : Z * list Z := bdrv_load_vmstate pos size bs.

Definition block_image : Backing B := {| put_buffer := block_put_buffer; get_buffer := block_get_buffer |}.
End block.

(** An image that refuses every write (it is full): the snapshot is written without
    an error, and nothing is stored. *)
Lemma full_image_reports_nothing :
  let full := block_image (fun _ _ (bs : list Z) => (-28, bs)) (fun _ _ _ => (0, [])) in
  match (@qemu_put_be32 _ full 7 ;;; @qemu_fclose _ full) (qemu_fopen_bdrv [] true) with
  | Ret f d => qf_last_error f = 0 /\ d = []
  | _ => False
  end.
Proof. by vm_compute. Qed.

(** Reading more than the buffer holds when it is full and nothing of it was read
    yet: the buffer asks the store for no bytes and takes the answer for the end of
    the file.  All bytes are returned, and the error stays. *)
Lemma full_buffer_reports_error :
  match (qemu_peek_byte 0 ;;; qemu_get_buffer 32769) (qemu_fopen_bdrv (replicate (Z.to_nat 40000) 7) false) with
  | Ret f bs => forallb (Z.eqb 7) bs && ((Z.of_nat (length bs) =? 32769) && (qf_last_error f =? - EIO))
  | _ => false
  end = true.
Proof. vm_compute. reflexivity. Qed.
