(* ===== verification/Vmstate.v ===== *)
(** * Vmstate.v -- saving and loading by description

    Models the interpreter of [VMStateDescription]s in [vmm/savevm.c] with the
    structures of [vmm/hw/hw.h] and the values [vmm/target-i386/machine.c] adds: a device is described by the list of its
    fields, and [vmstate_save_state] and [vmstate_load_state] walk the list.

    A C object is its path from the object that contains it: [(name, i) :: p] is the
    element [i] of the field [name] of the object [p].  [opaque + field->offset] is
    such a path; following a pointer of the object leads to the same path.  The
    memory maps paths to integers, and holds the active timers of the virtual clock,
    which are objects too. *)

From stdpp Require Import gmap strings.
From S2P Require Import Prelude CString Timers QemuFile.

Definition addr : Type := list (string * nat).

Record memory := mk_memory {
  mm_cells : gmap addr Z;
  mm_timers : list (addr * Z)
}.
Definition set_mm_cells (v : gmap addr Z) (m : memory) : memory := mk_memory v (mm_timers m).
Definition set_mm_timers (v : list (addr * Z)) (m : memory) : memory := mk_memory (mm_cells m) v.

Definition cell (a : addr) (m : memory) : Z := default 0 (mm_cells m !! a).
Definition store (a : addr) (v : Z) (m : memory) : memory := set_mm_cells (<[a := v]> (mm_cells m)) m.

(** The byte [j] of an array of bytes. *)
Definition buffer_byte (a : addr) (j : nat) : addr := match a with (n, i) :: p => (n, (i + j)%nat) :: p | [] => [] end.

(** ** Loops that stop at an error *)

Section loops.
Context {S A : Type} (body : A -> M S Z).

Fixpoint until_error (l : list A) : M S Z :=
  match l with
  | [] => ret 0
  | x :: l' => r <- body x ;; if r <? 0 then ret r else until_error l'
  end.
End loops.

Section each.
Context {S A : Type} (body : A -> M S unit).

Fixpoint each (l : list A) : M S unit :=
  match l with
  | [] => ret tt
  | x :: l' => body x ;;; each l'
  end.
End each.

Section vmstate.
Context {D : Type} {backing : Backing D}.

Record vm := mk_vm { vm_file : QEMUFile D; vm_mem : memory }.
Definition VM : Type -> Type := M vm.

Definition on_file {A} (m : QF D A) : VM A := fun s =>
  match m (vm_file s) with
  | Ret f a => Ret (mk_vm f (vm_mem s)) a
  | Jump f => Jump (mk_vm f (vm_mem s))
  | Halt f h => Halt (mk_vm f (vm_mem s)) h
  end.
Definition get_mem : VM memory := s <- get ;; ret (vm_mem s).
Definition modify_mem (g : memory -> memory) : VM unit := modify (fun s => mk_vm (vm_file s) (g (vm_mem s))).

(** ** Values *)

(** A value of [w] bits read as a signed one. *)
Definition signed (w z : Z) : Z := (z + 2 ^ (w - 1)) mod 2 ^ w - 2 ^ (w - 1).

Definition read_into (m : QF D Z) (conv : Z -> Z) (pv : addr) : VM Z :=
  x <- on_file m ;; modify_mem (store pv (conv x)) ;;; ret 0.
Definition read_check (m : QF D Z) (ok : Z -> Z -> bool) (pv : addr) : VM Z :=
  x <- on_file m ;; mem <- get_mem ;; ret (if ok (cell pv mem) x then 0 else - EINVAL).
Definition write_from (m : Z -> QF D unit) (pv : addr) : VM unit := mem <- get_mem ;; on_file (m (cell pv mem)).

(** A [bool] becomes 1 for every byte but 0. *)
Definition get_bool (pv : addr) (size : Z) : VM Z := read_into qemu_get_byte (fun v => b2z (c_true v)) pv.
Definition put_bool (pv : addr) (size : Z) : VM unit := write_from qemu_put_byte pv.
Definition get_int8 (pv : addr) (size : Z) : VM Z := read_into qemu_get_byte (signed 8) pv.
Definition put_int8 (pv : addr) (size : Z) : VM unit := write_from (fun v => qemu_put_byte (v mod 2 ^ 8)) pv.
Definition get_int16 (pv : addr) (size : Z) : VM Z := read_into qemu_get_be16 (signed 16) pv.
Definition put_int16 (pv : addr) (size : Z) : VM unit := write_from (fun v => qemu_put_be16 (v mod 2 ^ 16)) pv.
Definition get_int32 (pv : addr) (size : Z) : VM Z := read_into qemu_get_be32 wrap32 pv.
Definition put_int32 (pv : addr) (size : Z) : VM unit := write_from (fun v => qemu_put_be32 (u32 v)) pv.
Definition get_int32_equal (pv : addr) (size : Z) : VM Z := read_check qemu_get_be32 (fun v v2 => v =? wrap32 v2) pv.
Definition get_int32_le (pv : addr) (size : Z) : VM Z := read_check qemu_get_be32 (fun old new => old <=? wrap32 new) pv.
Definition get_int64 (pv : addr) (size : Z) : VM Z := read_into qemu_get_be64 wrap64 pv.
Definition put_int64 (pv : addr) (size : Z) : VM unit := write_from (fun v => qemu_put_be64 (u64 v)) pv.
Definition get_uint8 (pv : addr) (size : Z) : VM Z := read_into qemu_get_byte (fun v => v) pv.
Definition put_uint8 (pv : addr) (size : Z) : VM unit := write_from qemu_put_byte pv.
Definition get_uint16 (pv : addr) (size : Z) : VM Z := read_into qemu_get_be16 (fun v => v) pv.
Definition put_uint16 (pv : addr) (size : Z) : VM unit := write_from qemu_put_be16 pv.
Definition get_uint32 (pv : addr) (size : Z) : VM Z := read_into qemu_get_be32 (fun v => v) pv.
Definition put_uint32 (pv : addr) (size : Z) : VM unit := write_from qemu_put_be32 pv.
Definition get_uint32_equal (pv : addr) (size : Z) : VM Z := read_check qemu_get_be32 Z.eqb pv.
Definition get_uint64 (pv : addr) (size : Z) : VM Z := read_into qemu_get_be64 (fun v => v) pv.
Definition put_uint64 (pv : addr) (size : Z) : VM unit := write_from qemu_put_be64 pv.
Definition get_uint8_equal (pv : addr) (size : Z) : VM Z := read_check qemu_get_byte Z.eqb pv.
Definition get_uint16_equal (pv : addr) (size : Z) : VM Z := read_check qemu_get_be16 Z.eqb pv.

Definition qemu_put_timer (ts : addr) : VM unit :=
  mem <- get_mem ;; on_file (qemu_put_be64 (qemu_timer_expire_time_ns ts (mm_timers mem))).
Definition qemu_get_timer (ts : addr) : VM unit :=
  expire_time <- on_file qemu_get_be64 ;;
  modify_mem (fun m => set_mm_timers (if negb (expire_time =? u64 (-1)) then qemu_mod_timer_ns ts (wrap64 expire_time) (mm_timers m)
                                      else qemu_del_timer ts (mm_timers m)) m).
Definition get_timer (pv : addr) (size : Z) : VM Z := qemu_get_timer pv ;;; ret 0.
Definition put_timer (pv : addr) (size : Z) : VM unit := qemu_put_timer pv.

(** What the file has too few bytes for stays as it is. *)
Definition store_bytes (pv : addr) (bs : list Z) (m : memory) : memory :=
  foldl (fun m jb => store (buffer_byte pv jb.1) jb.2 m) m (zip (seq 0 (length bs)) bs).
Definition load_bytes (pv : addr) (size : Z) (m : memory) : list Z := (fun j => cell (buffer_byte pv j) m) <$> seq 0 (Z.to_nat size).
Definition get_buffer_info (pv : addr) (size : Z) : VM Z :=
  bs <- on_file (qemu_get_buffer size) ;; modify_mem (store_bytes pv bs) ;;; ret 0.
Definition put_buffer_info (pv : addr) (size : Z) : VM unit :=
  mem <- get_mem ;; on_file (qemu_put_buffer (load_bytes pv size mem)).

(** Blocks of at most 1024 bytes; [fuel] is at least the number of blocks. *)
Fixpoint unused_blocks (fuel : nat) (block : Z -> VM unit) (size : Z) : VM unit :=
  match fuel with
  | O => if size >? 0 then stop HUndef else ret tt
  | S fuel' =>
      if size >? 0 then
        let block_len := Z.min 1024 size in block block_len ;;; unused_blocks fuel' block (size - block_len)
      else ret tt
  end.
Definition get_unused_buffer (pv : addr) (size : Z) : VM Z :=
  unused_blocks (Z.to_nat size) (fun n => on_file (qemu_get_buffer n ;;; ret tt)) size ;;; ret 0.
Definition put_unused_buffer (pv : addr) (size : Z) : VM unit :=
  unused_blocks (Z.to_nat size) (fun n => on_file (qemu_put_buffer (replicate (Z.to_nat n) 0))) size.

(** Registers of the floating-point unit: [FPReg] holds an 80-bit number. *)
Definition fp_low (pv : addr) : addr := ("d.low", 0%nat) :: pv.
Definition fp_high (pv : addr) : addr := ("d.high", 0%nat) :: pv.
Definition get_fpreg (pv : addr) (size : Z) : VM Z :=
  mant <- on_file qemu_get_be64 ;; exp <- on_file qemu_get_be16 ;;
  modify_mem (fun m => store (fp_low pv) mant (store (fp_high pv) exp m)) ;;; ret 0.
Definition put_fpreg (pv : addr) (size : Z) : VM unit :=
  mem <- get_mem ;; on_file (qemu_put_be64 (cell (fp_low pv) mem)) ;;; on_file (qemu_put_be16 (cell (fp_high pv) mem)).
Definition put_fpreg_error (pv : addr) (size : Z) : VM unit := stop (HExit 0).

(** [union x86_longdouble] is a union: [exp] is the low half-word of [mant] (the host
    is little-endian), and both are the low word of the register. *)
Definition set_exp (exp mant : Z) : Z := Z.lor (Z.land mant (Z.lnot 65535)) (exp mod 2 ^ 16).
Definition get_fpreg_1_mmx (pv : addr) (size : Z) : VM Z :=
  mant <- on_file qemu_get_be64 ;; modify_mem (store (fp_low pv) (set_exp 65535 mant)) ;;; ret 0.
Definition fp64_to_fp80 (temp : Z) : Z :=
  let mant := Z.lor (u64 (Z.shiftl (Z.land temp (2 ^ 52 - 1)) 11)) (2 ^ 63) in
  let e := Z.land (Z.shiftr temp 52) 2047 - 1023 + 16383 in
  set_exp (Z.lor e (Z.shiftr (Z.land (Z.shiftr temp 32) (2 ^ 31)) 16)) mant.
Definition get_fpreg_1_no_mmx (pv : addr) (size : Z) : VM Z :=
  mant <- on_file qemu_get_be64 ;; modify_mem (store (fp_low pv) (fp64_to_fp80 mant)) ;;; ret 0.

Definition get_uint64_as_uint32 (pv : addr) (size : Z) : VM Z := read_into qemu_get_be32 (fun v => v) pv.
Definition put_uint64_as_uint32 (pv : addr) (size : Z) : VM unit := write_from (fun v => qemu_put_be32 (u32 v)) pv.

(** The tables of functions, by their names. *)
Inductive VMStateInfo :=
  | vmstate_info_bool
  | vmstate_info_int8
  | vmstate_info_int16
  | vmstate_info_int32
  | vmstate_info_int32_equal
  | vmstate_info_int32_le
  | vmstate_info_int64
  | vmstate_info_uint8
  | vmstate_info_uint16
  | vmstate_info_uint32
  | vmstate_info_uint32_equal
  | vmstate_info_uint64
  | vmstate_info_uint8_equal
  | vmstate_info_uint16_equal
  | vmstate_info_timer
  | vmstate_info_buffer
  | vmstate_info_unused_buffer
  | vmstate_fpreg
  | vmstate_fpreg_1_mmx
  | vmstate_fpreg_1_no_mmx
  | vmstate_hack_uint64_as_uint32.

Definition info_get (info : VMStateInfo) : addr -> Z -> VM Z :=
  match info with
  | vmstate_info_bool => get_bool
  | vmstate_info_int8 => get_int8
  | vmstate_info_int16 => get_int16
  | vmstate_info_int32 => get_int32
  | vmstate_info_int32_equal => get_int32_equal
  | vmstate_info_int32_le => get_int32_le
  | vmstate_info_int64 => get_int64
  | vmstate_info_uint8 => get_uint8
  | vmstate_info_uint16 => get_uint16
  | vmstate_info_uint32 => get_uint32
  | vmstate_info_uint32_equal => get_uint32_equal
  | vmstate_info_uint64 => get_uint64
  | vmstate_info_uint8_equal => get_uint8_equal
  | vmstate_info_uint16_equal => get_uint16_equal
  | vmstate_info_timer => get_timer
  | vmstate_info_buffer => get_buffer_info
  | vmstate_info_unused_buffer => get_unused_buffer
  | vmstate_fpreg => get_fpreg
  | vmstate_fpreg_1_mmx => get_fpreg_1_mmx
  | vmstate_fpreg_1_no_mmx => get_fpreg_1_no_mmx
  | vmstate_hack_uint64_as_uint32 => get_uint64_as_uint32
  end.
Definition info_put (info : VMStateInfo) : addr -> Z -> VM unit :=
  match info with
  | vmstate_info_bool => put_bool
  | vmstate_info_int8 => put_int8
  | vmstate_info_int16 => put_int16
  | vmstate_info_int32 | vmstate_info_int32_equal | vmstate_info_int32_le => put_int32
  | vmstate_info_int64 => put_int64
  | vmstate_info_uint8 | vmstate_info_uint8_equal => put_uint8
  | vmstate_info_uint16 | vmstate_info_uint16_equal => put_uint16
  | vmstate_info_uint32 | vmstate_info_uint32_equal => put_uint32
  | vmstate_info_uint64 => put_uint64
  | vmstate_info_timer => put_timer
  | vmstate_info_buffer => put_buffer_info
  | vmstate_info_unused_buffer => put_unused_buffer
  | vmstate_fpreg => put_fpreg
  | vmstate_fpreg_1_mmx | vmstate_fpreg_1_no_mmx => put_fpreg_error
  | vmstate_hack_uint64_as_uint32 => put_uint64_as_uint32
  end.

(** ** Descriptions *)

Definition VMS_SINGLE : Z := 1.
Definition VMS_POINTER : Z := 2.
Definition VMS_ARRAY : Z := 4.
Definition VMS_STRUCT : Z := 8.
Definition VMS_VARRAY_INT32 : Z := 16.
Definition VMS_BUFFER : Z := 32.
Definition VMS_ARRAY_OF_POINTER : Z := 64.
Definition VMS_VARRAY_UINT16 : Z := 128.
Definition VMS_VBUFFER : Z := 256.
Definition VMS_MULTIPLY : Z := 512.
Definition VMS_VARRAY_UINT8 : Z := 1024.
Definition VMS_VARRAY_UINT32 : Z := 2048.

(** [vf_name] is also the offset; [vf_num_offset] and [vf_size_offset] are the names
    of the fields that hold a number of elements or a size. *)
Inductive VMStateDescription := mk_vmsd {
  vd_name : string;
  vd_unmigratable : bool;
  vd_version_id : Z;
  vd_minimum_version_id : Z;
  vd_minimum_version_id_old : Z;
  vd_load_state_old : option (addr -> Z -> VM Z);
  vd_pre_load : option (addr -> memory -> memory * Z);
  vd_post_load : option (addr -> Z -> memory -> memory * Z);
  vd_pre_save : option (addr -> memory -> memory);
  vd_fields : list VMStateField;
  vd_subsections : list VMStateSubsection
}
with VMStateField := mk_field {
  vf_name : string;
  vf_size : Z;
  vf_start : nat;
  vf_num : Z;
  vf_num_offset : string;
  vf_size_offset : string;
  vf_info : option VMStateInfo;
  vf_flags : Z;
  vf_vmsd : option VMStateDescription;
  vf_version_id : Z;
  vf_field_exists : option (addr -> memory -> Z -> bool)
}
with VMStateSubsection := mk_subsection {
  sub_vmsd : VMStateDescription;
  sub_needed : addr -> memory -> bool
}.

Definition has_flag (fl : Z) (f : VMStateField) : bool := c_true (Z.land (vf_flags f) fl).

Definition field_size (f : VMStateField) (opaque : addr) (m : memory) : Z :=
  if has_flag VMS_VBUFFER f then
    let size := cell ((vf_size_offset f, 0%nat) :: opaque) m in
    if has_flag VMS_MULTIPLY f then wrap32 (size * vf_size f) else size
  else vf_size f.

(** Only loading knows [VMS_VARRAY_UINT32]. *)
Definition load_n_elems (f : VMStateField) (opaque : addr) (m : memory) : Z :=
  let num := cell ((vf_num_offset f, 0%nat) :: opaque) m in
  if has_flag VMS_ARRAY f then vf_num f
  else if has_flag VMS_VARRAY_INT32 f then num
  else if has_flag VMS_VARRAY_UINT32 f then wrap32 num
  else if has_flag VMS_VARRAY_UINT16 f then num
  else if has_flag VMS_VARRAY_UINT8 f then num
  else 1.
Definition save_n_elems (f : VMStateField) (opaque : addr) (m : memory) : Z :=
  let num := cell ((vf_num_offset f, 0%nat) :: opaque) m in
  if has_flag VMS_ARRAY f then vf_num f
  else if has_flag VMS_VARRAY_INT32 f then num
  else if has_flag VMS_VARRAY_UINT16 f then num
  else if has_flag VMS_VARRAY_UINT8 f then num
  else 1.

Definition element (f : VMStateField) (opaque : addr) (i : nat) : addr :=
  (vf_name f, ((if has_flag VMS_POINTER f then vf_start f else 0) + i)%nat) :: opaque.

Definition load_present (f : VMStateField) (opaque : addr) (version_id : Z) (m : memory) : bool :=
  match vf_field_exists f with Some t => t opaque m version_id | None => vf_version_id f <=? version_id end.
Definition save_present (f : VMStateField) (opaque : addr) (version_id : Z) (m : memory) : bool :=
  match vf_field_exists f with Some t => t opaque m version_id | None => true end.

(** ** The interpreter *)

Definition load_field (load : VMStateDescription -> addr -> Z -> VM Z) (opaque : addr) (version_id : Z)
    (f : VMStateField) : VM Z :=
  m <- get_mem ;;
  if load_present f opaque version_id m then
    until_error (fun i =>
      let a := element f opaque i in
      if has_flag VMS_STRUCT f then
        match vf_vmsd f with Some d => load d a (vd_version_id d) | None => stop HUndef end
      else match vf_info f with Some info => info_get info a (field_size f opaque m) | None => stop HUndef end)
      (seq 0 (Z.to_nat (load_n_elems f opaque m)))
  else ret 0.

Definition save_field (save : VMStateDescription -> addr -> VM unit) (opaque : addr) (version_id : Z)
    (f : VMStateField) : VM unit :=
  m <- get_mem ;;
  when (save_present f opaque version_id m)
    (each (fun i =>
      let a := element f opaque i in
      if has_flag VMS_STRUCT f then
        match vf_vmsd f with Some d => save d a | None => stop HUndef end
      else match vf_info f with Some info => info_put info a (field_size f opaque m) | None => stop HUndef end)
      (seq 0 (Z.to_nat (save_n_elems f opaque m)))).

Definition QEMU_VM_SUBSECTION : Z := 5.

(** [k] of the description that is found. *)
Section get_subsection.
Context {A : Type} (k : VMStateDescription -> A) (idstr : list Z).

Fixpoint vmstate_get_subsection (subs : list VMStateSubsection) : option A :=
  match subs with
  | [] => None
  | sub :: subs' =>
      if bool_decide (idstr = str (vd_name (sub_vmsd sub))) then Some (k (sub_vmsd sub))
      else vmstate_get_subsection subs'
  end.
End get_subsection.

(** One turn of the loop of [vmstate_subsection_load]: the value it returns, or
    [None] to go on. *)
Definition subsection_turn (name : list Z) (find : list Z -> option (addr -> Z -> VM Z)) (opaque : addr) : VM (option Z) :=
  b <- on_file (qemu_peek_byte 0) ;;
  if negb (b =? QEMU_VM_SUBSECTION) then ret (Some 0)
  else
    len <- on_file (qemu_peek_byte 1) ;;
    if len <? Z.of_nat (length name) + 1 then ret (Some 0)
    else
      idstr <- on_file (qemu_peek_buffer len 2) ;;
      if negb (Z.of_nat (length idstr) =? len) then ret (Some 0)
      else if negb (starts_with name (c_string idstr)) then ret (Some 0)
      else
        match find (c_string idstr) with
        | None => ret (Some (- ENOENT))
        | Some load =>
            on_file (qemu_file_skip 1) ;;; on_file (qemu_file_skip 1) ;;; on_file (qemu_file_skip len) ;;;
            v <- on_file qemu_get_be32 ;;
            r <- load opaque (v mod 2 ^ 8) ;;
            ret (if r =? 0 then None else Some r)
        end.

Fixpoint subsection_loop (fuel : nat) (turn : VM (option Z)) : VM Z :=
  match fuel with
  | O => stop HUndef
  | S fuel' => o <- turn ;; match o with Some r => ret r | None => subsection_loop fuel' turn end
  end.

(** [fuel] bounds the number of subsections of one object. *)
Fixpoint vmstate_load_state (fuel : nat) (vmsd : VMStateDescription) (opaque : addr) (version_id : Z) {struct vmsd} : VM Z :=
  if version_id >? vd_version_id vmsd then ret (- EINVAL)
  else if version_id <? vd_minimum_version_id_old vmsd then ret (- EINVAL)
  else if version_id <? vd_minimum_version_id vmsd then
    match vd_load_state_old vmsd with Some load => load opaque version_id | None => stop HUndef end
  else
    r <- match vd_pre_load vmsd with
         | Some h => m <- get_mem ;; let '(m', r) := h opaque m in modify_mem (fun _ => m') ;;; ret r
         | None => ret 0
         end ;;
    if c_true r then ret r
    else
      r <- until_error (load_field (vmstate_load_state fuel) opaque version_id) (vd_fields vmsd) ;;
      if r <? 0 then ret r
      else
        r <- subsection_loop fuel (subsection_turn (str (vd_name vmsd))
               (fun idstr => vmstate_get_subsection (vmstate_load_state fuel) idstr (vd_subsections vmsd)) opaque) ;;
        if c_true r then ret r
        else match vd_post_load vmsd with
             | Some h => m <- get_mem ;; let '(m', r) := h opaque version_id m in modify_mem (fun _ => m') ;;; ret r
             | None => ret 0
             end.

Fixpoint vmstate_save_state (vmsd : VMStateDescription) (opaque : addr) {struct vmsd} : VM unit :=
  match vd_pre_save vmsd with Some h => modify_mem (h opaque) | None => ret tt end ;;;
  each (save_field vmstate_save_state opaque (vd_version_id vmsd)) (vd_fields vmsd) ;;;
  each (fun sub =>
    m <- get_mem ;;
    when (sub_needed sub opaque m)
      (on_file (qemu_put_byte QEMU_VM_SUBSECTION) ;;;
       let name := str (vd_name (sub_vmsd sub)) in
       let len := Z.of_nat (length name) mod 2 ^ 8 in
       on_file (qemu_put_byte len) ;;; on_file (qemu_put_buffer (take (Z.to_nat len) name)) ;;;
       on_file (qemu_put_be32 (u32 (vd_version_id (sub_vmsd sub)))) ;;;
       vmstate_save_state (sub_vmsd sub) opaque)) (vd_subsections vmsd).
End vmstate.
