(* ===== verification/VmstateRoundtrip.v ===== *)
(** * VmstateRoundtrip.v -- what is saved is loaded

    The bytes a description stands for ([encode]), the locations it covers
    ([covers]), and the proof that [vmstate_save_state] writes these bytes and that
    [vmstate_load_state] brings every location back, leaves every other one alone and
    reads exactly these bytes.

    The format has no marks between its parts, and the loader looks for subsections
    after every object, embedded ones included: what follows an embedded object must
    not look like a subsection of it ([clear]). *)

From stdpp Require Import gmap strings.
From S2P Require Import Prelude CString Timers QemuFile Vmstate.

(** ** Locations *)

(** What can be saved: a cell, or whether and when a timer fires. *)
Inductive loc := Cell (a : addr) | Timer (a : addr).
#[export] Instance loc_eq_dec : EqDecision loc.
Proof. solve_decision. Defined.

Definition look (l : loc) (m : memory) : Z :=
  match l with Cell a => cell a m | Timer a => qemu_timer_expire_time_ns a (mm_timers m) end.

(** The list of timers is sorted and has no timer twice. *)
Definition mem_ok (m : memory) : Prop := timers_ok (mm_timers m).

(** [t'] is [t] with the locations [L] as in [s]. *)
Definition restores (L : list loc) (s t t' : memory) : Prop :=
  (forall l, l ∈ L -> look l t' = look l s) /\ (forall l, l ∉ L -> look l t' = look l t).

Lemma restores_nil s t : restores [] s t t.
Proof. split; [intros l Hl; by apply not_elem_of_nil in Hl|done]. Qed.

Lemma restores_app L1 L2 s t t1 t2 : restores L1 s t t1 -> restores L2 s t1 t2 -> restores (L1 ++ L2) s t t2.
Proof.
  intros [Hin1 Hout1] [Hin2 Hout2]. split; intros l Hl.
  - destruct (decide (l ∈ L2)) as [H2|H2]; [by apply Hin2|]. rewrite Hout2 by done. apply Hin1. set_solver.
  - rewrite Hout2, Hout1 by set_solver. done.
Qed.

Lemma restores_agree L s t t' done :
  (forall l, l ∈ done -> look l t = look l s) -> restores L s t t' -> forall l, l ∈ done ++ L -> look l t' = look l s.
Proof.
  intros Hd [Hin Hout] l Hl. destruct (decide (l ∈ L)) as [HL|HL]; [by apply Hin|]. rewrite Hout by done. apply Hd. set_solver.
Qed.

Lemma cell_store a b v m : cell a (store b v m) = if decide (a = b) then v else cell a m.
Proof.
  unfold cell, store. cbn. destruct (decide (a = b)) as [->|Hne]; [by rewrite lookup_insert_eq|].
  by rewrite lookup_insert_ne.
Qed.

Lemma restores_store a s t v : v = cell a s -> restores [Cell a] s t (store a v t).
Proof.
  intros ->. split; intros [b|b] Hl; cbn [look]; try done.
  - apply list_elem_of_singleton in Hl. injection Hl as ->. by rewrite cell_store, decide_True.
  - apply list_elem_of_singleton in Hl. done.
  - rewrite cell_store, decide_False; [done|]. intros ->. apply Hl. by apply list_elem_of_singleton.
Qed.

(** ** Values *)

Definition in_signed (w z : Z) : Prop := - 2 ^ (w - 1) <= z < 2 ^ (w - 1).
Definition in_unsigned (w z : Z) : Prop := 0 <= z < 2 ^ w.
#[export] Instance in_signed_dec w z : Decision (in_signed w z).
Proof. unfold in_signed. apply _. Defined.
#[export] Instance in_unsigned_dec w z : Decision (in_unsigned w z).
Proof. unfold in_unsigned. apply _. Defined.

(** The bytes of a value, the locations it is kept in, and that it is in the range
    of its type.  The values that are only compared, and those of old formats, are
    never brought back. *)
Definition wire (info : VMStateInfo) (a : addr) (size : Z) (m : memory) : list Z :=
  let v := cell a m in
  match info with
  | vmstate_info_bool | vmstate_info_uint8 | vmstate_info_uint8_equal => [v mod 2 ^ 8]
  | vmstate_info_int8 => [(v mod 2 ^ 8) mod 2 ^ 8]
  | vmstate_info_int16 => be16 (v mod 2 ^ 16)
  | vmstate_info_uint16 | vmstate_info_uint16_equal => be16 v
  | vmstate_info_int32 | vmstate_info_int32_equal | vmstate_info_int32_le | vmstate_hack_uint64_as_uint32 => be32 (u32 v)
  | vmstate_info_uint32 | vmstate_info_uint32_equal => be32 v
  | vmstate_info_int64 => be64 (u64 v)
  | vmstate_info_uint64 => be64 v
  | vmstate_info_timer => be64 (qemu_timer_expire_time_ns a (mm_timers m))
  | vmstate_info_buffer => load_bytes a size m
  | vmstate_info_unused_buffer => replicate (Z.to_nat size) 0
  | vmstate_fpreg => be64 (cell (fp_low a) m) ++ be16 (cell (fp_high a) m)
  | vmstate_fpreg_1_mmx | vmstate_fpreg_1_no_mmx => []
  end.
Definition kept_in (info : VMStateInfo) (a : addr) (size : Z) : list loc :=
  match info with
  | vmstate_info_timer => [Timer a]
  | vmstate_info_buffer => (fun j => Cell (buffer_byte a j)) <$> seq 0 (Z.to_nat size)
  | vmstate_info_unused_buffer => []
  | vmstate_fpreg => [Cell (fp_high a); Cell (fp_low a)]
  | _ => [Cell a]
  end.
Definition fits (info : VMStateInfo) (a : addr) (size : Z) (m : memory) : bool :=
  let v := cell a m in
  match info with
  | vmstate_info_bool => (v =? 0) || (v =? 1)
  | vmstate_info_int8 => bool_decide (in_signed 8 v)
  | vmstate_info_int16 => bool_decide (in_signed 16 v)
  | vmstate_info_int32 => bool_decide (in_signed 32 v)
  | vmstate_info_int64 => bool_decide (in_signed 64 v)
  | vmstate_info_uint8 => bool_decide (in_unsigned 8 v)
  | vmstate_info_uint16 => bool_decide (in_unsigned 16 v)
  | vmstate_info_uint32 | vmstate_hack_uint64_as_uint32 => bool_decide (in_unsigned 32 v)
  | vmstate_info_uint64 => bool_decide (in_unsigned 64 v)
  | vmstate_info_timer => true
  | vmstate_info_buffer => (0 <=? size) && (size <=? IO_BUF_SIZE)
  | vmstate_info_unused_buffer => 0 <=? size
  | vmstate_fpreg => bool_decide (in_unsigned 64 (cell (fp_low a) m)) && bool_decide (in_unsigned 16 (cell (fp_high a) m))
  | _ => false
  end.

Section values.
Context {D : Type} {backing : Backing D} {laws : BackingLaws D}.
Implicit Types (s t : memory) (bs tail : list Z).

(** [m] writes [bs] and leaves the memory [s]; [m] reads [bs], followed by [tail],
    returns [v] and takes the memory from [t] to [t']. *)
Definition vputs (m : VM unit) (bs : list Z) (s s' : memory) : Prop :=
  forall d0 f ws, writing d0 f ws -> exists f', m (mk_vm f s) = Ret (mk_vm f' s') tt /\ writing d0 f' (ws ++ bs).
Definition vgets {A} (m : VM A) (bs tail : list Z) (v : A) (t t' : memory) : Prop :=
  forall f, reading f (bs ++ tail) -> exists f', m (mk_vm f t) = Ret (mk_vm f' t') v /\ reading f' tail /\ no_error f f'.

Lemma on_file_Ret {A} (m : QF D A) f f' (a : A) t : m f = Ret f' a -> on_file m (mk_vm f t) = Ret (mk_vm f' t) a.
Proof. intros E. unfold on_file. cbn [vm_file]. by rewrite E. Qed.

Lemma vputs_file m bs s : puts m bs -> vputs (on_file m) bs s s.
Proof.
  intros Hm d0 f ws Hw. destruct (Hm d0 f ws Hw) as (f' & E & Hw'). exists f'. by rewrite (on_file_Ret _ _ _ _ _ E).
Qed.
Lemma vputs_ret s : vputs (ret tt) [] s s.
Proof. intros d0 f ws Hw. exists f. by rewrite app_nil_r. Qed.
Lemma vputs_mem g s : vputs (modify_mem g) [] s (g s).
Proof. intros d0 f ws Hw. exists f. by rewrite app_nil_r. Qed.
Lemma vputs_bind m k bs bs' s s1 s2 : vputs m bs s s1 -> vputs k bs' s1 s2 -> vputs (m ;;; k) (bs ++ bs') s s2.
Proof.
  intros Hm Hk d0 f ws Hw. destruct (Hm d0 f ws Hw) as (f1 & E1 & Hw1). destruct (Hk d0 f1 _ Hw1) as (f2 & E2 & Hw2).
  exists f2. rewrite (bind_Ret _ _ _ _ _ E1), E2. by rewrite app_assoc.
Qed.
Lemma vputs_get (k : memory -> VM unit) bs s s' : vputs (k s) bs s s' -> vputs (m <- get_mem ;; k m) bs s s'.
Proof. done. Qed.

Lemma vgets_file {A} (m : QF D A) bs tail v t : gets m bs v -> vgets (on_file m) bs tail v t t.
Proof.
  intros Hm f Hr. destruct (Hm f tail Hr) as (f' & E & Hr'). exists f'. by rewrite (on_file_Ret _ _ _ _ _ E).
Qed.
Lemma vgets_ret {A} (v : A) tail t : vgets (ret v) [] tail v t t.
Proof. intros f Hr. by exists f. Qed.
Lemma vgets_mem g tail t : vgets (modify_mem g) [] tail tt t (g t).
Proof. intros f Hr. by exists f. Qed.
Lemma vgets_bind {A B} (m : VM A) (k : A -> VM B) bs bs' tail v v' t t1 t2 :
  vgets m bs (bs' ++ tail) v t t1 -> vgets (k v) bs' tail v' t1 t2 -> vgets (x <- m ;; k x) (bs ++ bs') tail v' t t2.
Proof.
  intros Hm Hk f Hr. rewrite <- app_assoc in Hr. destruct (Hm f Hr) as (f1 & E1 & Hr1 & He1).
  destruct (Hk f1 Hr1) as (f2 & E2 & Hr2 & He2). exists f2. rewrite (bind_Ret _ _ _ _ _ E1), E2.
  split; [done|]. split; [done|]. unfold no_error in *. congruence.
Qed.
Lemma vgets_get {A} (k : memory -> VM A) bs tail v t t' : vgets (k t) bs tail v t t' -> vgets (m <- get_mem ;; k m) bs tail v t t'.
Proof. done. Qed.
Lemma vgets_eq {A} (m : VM A) bs bs' tail v t t' : vgets m bs tail v t t' -> bs = bs' -> vgets m bs' tail v t t'.
Proof. by intros ? <-. Qed.

(** [m] reads [bs] and brings the locations [L] back from [s]. *)
Definition brings (m : VM Z) (bs tail : list Z) (L : list loc) (s t : memory) : Prop :=
  mem_ok t -> exists t', vgets m bs tail 0 t t' /\ restores L s t t' /\ mem_ok t'.

Lemma brings_cell (m : QF D Z) conv a bs tail x s t :
  gets m bs x -> conv x = cell a s -> brings (read_into m conv a) bs tail [Cell a] s t.
Proof.
  intros Hm Hx Hok. exists (store a (conv x) t). split; [|split; [by apply restores_store|done]].
  rewrite <- (app_nil_r bs). eapply vgets_bind; [by apply vgets_file|].
  eapply (vgets_bind _ _ [] []); [apply vgets_mem|apply vgets_ret].
Qed.

Lemma signed_mod w z : 0 < w -> in_signed w z -> signed w (z mod 2 ^ w) = z.
Proof.
  unfold signed, in_signed. intros Hw Hz. rewrite Z.add_mod_idemp_l by lia.
  assert (2 ^ w = 2 * 2 ^ (w - 1)) as Hp by (rewrite <- Z.pow_succ_r by lia; f_equal; lia).
  rewrite Z.mod_small; lia.
Qed.

Lemma brings_timer a tail s t :
  brings (get_timer a 8) (be64 (qemu_timer_expire_time_ns a (mm_timers s))) tail [Timer a] s t.
Proof.
  intros Hok. set (e := qemu_timer_expire_time_ns a (mm_timers s)).
  assert (He : u64 e = e) by (unfold e, qemu_timer_expire_time_ns, u64; case_match; rewrite Z.mod_mod by lia; done).
  set (t' := set_mm_timers (if negb (u64 e =? u64 (-1)) then qemu_mod_timer_ns a (wrap64 (u64 e)) (mm_timers t)
                            else qemu_del_timer a (mm_timers t)) t).
  exists t'. split.
  - rewrite <- (app_nil_r (be64 e)). eapply vgets_bind; [|apply vgets_ret]. rewrite <- (app_nil_r (be64 e)).
    eapply vgets_bind; [apply vgets_file, gets_be64|apply vgets_mem].
  - destruct (Z.eqb_spec (u64 e) (u64 (-1))) as [Heq|Hne]; cbn [negb] in t'; subst t'; (split; [|by (apply del_ok || apply mod_ok)]);
      split; intros [b|b] Hl; cbn [look]; try done; try (by apply list_elem_of_singleton in Hl);
      unfold qemu_timer_expire_time_ns at 1; cbn [mm_timers set_mm_timers]; rewrite ?timer_time_del, ?timer_time_mod by done.
    + apply list_elem_of_singleton in Hl. injection Hl as ->. rewrite decide_True by done. fold e. by rewrite <- He.
    + rewrite decide_False; [done|]. intros ->. apply Hl. by apply list_elem_of_singleton.
    + apply list_elem_of_singleton in Hl. injection Hl as ->. rewrite decide_True by done. fold e.
      rewrite <- He at 2. unfold u64, wrap64. clear. Z.div_mod_to_equations. lia.
    + rewrite decide_False; [done|]. intros ->. apply Hl. by apply list_elem_of_singleton.
Qed.

Lemma restores_bytes a s t bs :
  (forall j b, bs !! j = Some b -> cell (buffer_byte a j) s = b) ->
  restores ((fun j => Cell (buffer_byte a j)) <$> seq 0 (length bs)) s t (store_bytes a bs t).
Proof.
  intros Hbs. induction bs as [|b bs IH] using rev_ind; [apply restores_nil|].
  unfold store_bytes. rewrite length_app, Nat.add_1_r, seq_S, fmap_app. cbn [fmap list_fmap Nat.add].
  rewrite zip_with_app by (by rewrite length_seq). rewrite foldl_app. cbn [zip_with foldl fst snd].
  eapply restores_app; [apply IH; intros j b' Hj; apply Hbs; rewrite lookup_app_l; [done|by eapply lookup_lt_Some]|].
  apply restores_store. symmetry. apply Hbs. by apply list_lookup_middle.
Qed.

Lemma unused_wire (P : @VM D unit -> list Z -> Prop) block :
  P (ret tt) [] -> (forall m k bs bs', P m bs -> P k bs' -> P (m ;;; k) (bs ++ bs')) ->
  (forall n, 0 < n <= 1024 -> P (block n) (replicate (Z.to_nat n) 0)) ->
  forall fuel size, 0 <= size -> size <= Z.of_nat fuel -> P (unused_blocks fuel block size) (replicate (Z.to_nat size) 0).
Proof.
  intros Hret Hbind Hblock fuel. induction fuel as [|fuel IH]; intros size Hs Hf; cbn [unused_blocks].
  - replace size with 0 by lia. done.
  - destruct (Z.gtb_spec size 0) as [Hpos|]; [|by replace size with 0 by lia].
    replace (Z.to_nat size) with (Z.to_nat (Z.min 1024 size) + Z.to_nat (size - Z.min 1024 size))%nat by lia.
    rewrite replicate_add. apply Hbind; [apply Hblock; lia|apply IH; lia].
Qed.

Lemma vputs_unused a size s : 0 <= size -> vputs (put_unused_buffer a size) (replicate (Z.to_nat size) 0) s s.
Proof.
  intros Hs. apply (unused_wire (fun m bs => vputs m bs s s)); [apply vputs_ret|intros; by eapply vputs_bind| |lia..].
  intros n Hn. apply vputs_file, puts_buffer.
Qed.

Lemma brings_unused a size tail s t :
  0 <= size -> brings (get_unused_buffer a size) (replicate (Z.to_nat size) 0) tail [] s t.
Proof.
  intros Hs Hok. exists t. split; [|by split; [apply restores_nil|]]. rewrite <- (app_nil_r (replicate _ _)).
  eapply vgets_bind; [|apply vgets_ret]. revert tail.
  apply (unused_wire (fun m bs => forall tail, vgets m bs tail tt t t)); [intros; apply vgets_ret|intros; by eapply vgets_bind| |lia..].
  intros n Hn tail. apply vgets_file. rewrite <- (app_nil_r (replicate _ _)). eapply gets_bind; [|apply gets_ret].
  replace n with (Z.of_nat (length (replicate (Z.to_nat n) 0))) at 1 by (rewrite length_replicate; lia).
  apply gets_buffer. rewrite length_replicate. unfold IO_BUF_SIZE. lia.
Qed.

Lemma brings_buffer a size tail s t :
  0 <= size <= IO_BUF_SIZE ->
  brings (get_buffer_info a size) (load_bytes a size s) tail ((fun j => Cell (buffer_byte a j)) <$> seq 0 (Z.to_nat size)) s t.
Proof.
  intros Hs Hok. set (bs := load_bytes a size s).
  assert (Hlen : length bs = Z.to_nat size) by (unfold bs, load_bytes; by rewrite length_fmap, length_seq).
  exists (store_bytes a bs t). split; [|split].
  - rewrite <- (app_nil_r bs) at 1. eapply vgets_bind; [|eapply (vgets_bind _ _ [] []); [apply vgets_mem|apply vgets_ret]].
    apply vgets_file. replace size with (Z.of_nat (length bs)) by lia. apply gets_buffer. lia.
  - rewrite <- Hlen. apply restores_bytes. intros j b Hj. unfold bs, load_bytes in Hj.
    rewrite list_lookup_fmap in Hj. destruct (seq 0 _ !! j) as [i|] eqn:Hi; [|done]. cbn in Hj. apply lookup_seq in Hi as [-> _].
    by injection Hj.
  - unfold store_bytes. generalize (zip (seq 0 (length bs)) bs). intros l. revert t Hok. induction l as [|x l IH]; intros t Hok; [done|].
    by apply IH.
Qed.

Lemma brings_fpreg a tail s t :
  in_unsigned 64 (cell (fp_low a) s) -> in_unsigned 16 (cell (fp_high a) s) ->
  brings (get_fpreg a 16) (be64 (cell (fp_low a) s) ++ be16 (cell (fp_high a) s)) tail [Cell (fp_high a); Cell (fp_low a)] s t.
Proof.
  intros Hl Hh Hok. exists (store (fp_low a) (cell (fp_low a) s) (store (fp_high a) (cell (fp_high a) s) t)). split; [|split; [|done]].
  - eapply vgets_bind; [apply vgets_file, gets_be64|]. rewrite <- (app_nil_r (be16 _)).
    eapply vgets_bind; [apply vgets_file, gets_be16|]. eapply (vgets_bind _ _ [] []); [|apply vgets_ret].
    rewrite Z.mod_small, u64_id by done.
    exact (vgets_mem (fun m => store (fp_low a) (cell (fp_low a) s) (store (fp_high a) (cell (fp_high a) s) m)) _ t).
  - eapply (restores_app [_] [_]); by apply restores_store.
Qed.

Lemma info_puts info a size s : fits info a size s -> vputs (info_put info a size) (wire info a size s) s s.
Proof.
  intros Hf. destruct info; cbn [info_put wire]; try done; try (apply vputs_get, vputs_file; auto with wire; done).
  - apply vputs_unused. by apply Is_true_true, Z.leb_le in Hf.
  - apply vputs_get. apply vputs_bind with s; apply vputs_file; auto with wire.
Qed.

(** Every value that is in the range of its type is brought back. *)
Lemma info_brings info a size tail s t :
  fits info a size s -> brings (info_get info a size) (wire info a size s) tail (kept_in info a size) s t.
Proof.
  intros Hf. apply Is_true_true in Hf. destruct info; cbn [fits] in Hf; try done; cbn [info_get wire kept_in];
    try apply bool_decide_eq_true in Hf; try (eapply brings_cell; [auto with wire|]).
  - apply orb_true_iff in Hf as [Hv%Z.eqb_eq|Hv%Z.eqb_eq]; by rewrite Hv.
  - rewrite Z.mod_mod by lia. by apply signed_mod.
  - rewrite Z.mod_mod by lia. by apply signed_mod.
  - unfold u32. rewrite Z.mod_mod by lia. by apply (signed_mod 32).
  - unfold u64. rewrite Z.mod_mod by lia. by apply (signed_mod 64).
  - by apply Z.mod_small.
  - by apply Z.mod_small.
  - by apply u32_id.
  - by apply u64_id.
  - apply brings_timer.
  - apply andb_true_iff in Hf as [H1%Z.leb_le H2%Z.leb_le]. by apply brings_buffer.
  - apply Z.leb_le in Hf. by apply brings_unused.
  - apply andb_true_iff in Hf as [H1%bool_decide_eq_true H2%bool_decide_eq_true]. by apply brings_fpreg.
  - rewrite (u32_id (u32 _)) by apply u32_range. by apply u32_id.
Qed.
End values.

(** ** Descriptions *)

(** Whether every embedded object of a list leaves what follows it alone: [clr x rest]
    for every [x], with the bytes of those behind it and [tail] as [rest]. *)
Section clear_list.
Context {A : Type} (enc : A -> list Z) (clr : A -> list Z -> bool).

Fixpoint clear_list (l : list A) (tail : list Z) : bool :=
  match l with
  | [] => true
  | x :: l' => clr x (flat_map enc l' ++ tail) && clear_list l' tail
  end.
End clear_list.

(** Whether the loop of [vmstate_subsection_load] for an object called [name] stops
    in front of [rest], without looking behind the end of the file. *)
Definition no_subsection (name rest : list Z) : bool :=
  match rest with
  | [] => false
  | b :: rest' =>
      negb (b =? QEMU_VM_SUBSECTION) ||
      match rest' with
      | [] => false
      | len :: rest'' =>
          (0 <=? len) && (len <? 256) &&
          ((len <? Z.of_nat (length name) + 1) ||
           ((len <=? Z.of_nat (length rest'')) && negb (starts_with name (c_string (take (Z.to_nat len) rest'')))))
      end
  end.

Section spec.
Context {D : Type} {backing : Backing D}.
Implicit Types (d : VMStateDescription (D := D)) (f : VMStateField (D := D)) (sub : VMStateSubsection (D := D)).
Implicit Types (p : addr) (s : memory).

(** What [leaf] or [node] gives for the element [i] of a field. *)
Definition at_element {X} (none : X) (leaf : VMStateInfo -> addr -> Z -> X) (node : VMStateDescription -> addr -> X)
    (p : addr) (s : memory) (f : VMStateField (D := D)) (i : nat) : X :=
  let a := element f p i in
  if has_flag VMS_STRUCT f then match vf_vmsd f with Some d => node d a | None => none end
  else match vf_info f with Some info => leaf info a (field_size f p s) | None => none end.

Definition elements f p s : list nat := seq 0 (Z.to_nat (save_n_elems f p s)).

(** The bytes of an object. *)
Definition encode_field (enc : VMStateDescription -> addr -> list Z) p (v : Z) s f : list Z :=
  if save_present f p v s then
    flat_map (at_element [] (fun info a size => wire info a size s) enc p s f) (elements f p s)
  else [].
Definition encode_subsection (enc : VMStateDescription -> addr -> list Z) p s sub : list Z :=
  if sub_needed sub p s then
    let name := str (vd_name (sub_vmsd sub)) in
    [QEMU_VM_SUBSECTION; Z.of_nat (length name)] ++ name ++ be32 (vd_version_id (sub_vmsd sub)) ++ enc (sub_vmsd sub) p
  else [].
Fixpoint encode s d p {struct d} : list Z :=
  flat_map (encode_field (encode s) p (vd_version_id d) s) (vd_fields d) ++
  flat_map (encode_subsection (encode s) p s) (vd_subsections d).

(** The locations of an object that are saved. *)
Definition covers_field (cov : VMStateDescription -> addr -> list loc) p (v : Z) s f : list loc :=
  if save_present f p v s then flat_map (at_element [] kept_in cov p s f) (elements f p s) else [].
Definition covers_subsection (cov : VMStateDescription -> addr -> list loc) p s sub : list loc :=
  if sub_needed sub p s then cov (sub_vmsd sub) p else [].
Fixpoint covers s d p {struct d} : list loc :=
  flat_map (covers_field (covers s) p (vd_version_id d) s) (vd_fields d) ++
  flat_map (covers_subsection (covers s) p s) (vd_subsections d).

(** Every value is in the range of its type. *)
Definition in_range_field (ir : VMStateDescription -> addr -> bool) p (v : Z) s f : bool :=
  negb (save_present f p v s) ||
  forallb (at_element false (fun info a size => fits info a size s) ir p s f) (elements f p s).
Fixpoint in_range s d p {struct d} : bool :=
  forallb (in_range_field (in_range s) p (vd_version_id d) s) (vd_fields d) &&
  forallb (fun sub => negb (sub_needed sub p s) || in_range s (sub_vmsd sub) p) (vd_subsections d).

(** Nothing behind an embedded object, and nothing behind the object itself, looks
    like one of its subsections. *)
Definition clear_field (enc : VMStateDescription -> addr -> list Z) (clr : VMStateDescription -> addr -> list Z -> bool)
    p (v : Z) s f (tail : list Z) : bool :=
  negb (save_present f p v s) ||
  clear_list (at_element [] (fun info a size => wire info a size s) enc p s f)
    (at_element (fun _ => true) (fun _ _ _ _ => true) clr p s f) (elements f p s) tail.
Definition clear_subsection (clr : VMStateDescription -> addr -> list Z -> bool) p s sub (tail : list Z) : bool :=
  negb (sub_needed sub p s) || clr (sub_vmsd sub) p tail.
Fixpoint clear s d p (tail : list Z) {struct d} : bool :=
  clear_list (encode_field (encode s) p (vd_version_id d) s) (clear_field (encode s) (clear s) p (vd_version_id d) s)
    (vd_fields d) (flat_map (encode_subsection (encode s) p s) (vd_subsections d) ++ tail) &&
  clear_list (encode_subsection (encode s) p s) (clear_subsection (clear s) p s) (vd_subsections d) tail &&
  no_subsection (str (vd_name d)) tail.

(** The description loads what it saves: every test, number of elements and size of a
    field is the same when the fields before it are loaded as it was when they were
    saved. *)
Definition determined p (v : Z) s (done : list loc) f : Prop :=
  forall t, (forall l, l ∈ done -> look l t = look l s) ->
    load_present f p v t = save_present f p v s /\
    (save_present f p v s = true -> load_n_elems f p t = save_n_elems f p s /\ field_size f p t = field_size f p s).
Section stable_fields.
Context (cov : VMStateDescription (D := D) -> addr -> list loc) (stab : VMStateDescription (D := D) -> addr -> Prop).
Context (p : addr) (v : Z) (s : memory).

Fixpoint stable_fields (done : list loc) (fs : list VMStateField) : Prop :=
  match fs with
  | [] => True
  | f :: fs' =>
      determined p v s done f /\
      (save_present f p v s = true -> forall i, i ∈ elements f p s -> at_element True (fun _ _ _ => True) stab p s f i) /\
      stable_fields (done ++ covers_field cov p v s f) fs'
  end.
End stable_fields.
Fixpoint stable s d p {struct d} : Prop :=
  stable_fields (covers s) (stable s) p (vd_version_id d) s [] (vd_fields d) /\
  foldr (fun sub P => (sub_needed sub p s = true -> stable s (sub_vmsd sub) p) /\ P) True (vd_subsections d).

(** Versions and names: an object can be loaded in its current version, embedded
    objects have no functions of their own, the names of subsections start with the
    name of the object and are distinct, and [fuel] allows for all of them. *)
Definition plain d : bool :=
  match vd_pre_load d, vd_post_load d, vd_pre_save d with None, None, None => true | _, _, _ => false end.
Definition named_under d sub : bool :=
  let name := str (vd_name (sub_vmsd sub)) in
  (Z.of_nat (length name) <? 256) && forallb (fun c => negb (c =? 0)) name &&
  (Z.of_nat (length (str (vd_name d))) + 1 <=? Z.of_nat (length name)) && starts_with (str (vd_name d)) name &&
  (0 <=? vd_version_id (sub_vmsd sub)) && (vd_version_id (sub_vmsd sub) <? 256).
Fixpoint loadable (fuel : nat) d {struct d} : bool :=
  (vd_minimum_version_id_old d <=? vd_version_id d) && (vd_minimum_version_id d <=? vd_version_id d) &&
  match vd_pre_load d with None => true | Some _ => false end &&
  bool_decide (length (vd_subsections d) < fuel)%nat &&
  bool_decide (NoDup ((fun sub => str (vd_name (sub_vmsd sub))) <$> vd_subsections d)) &&
  forallb (fun f => match vf_vmsd f with Some d' => plain d' && loadable fuel d' | None => true end) (vd_fields d) &&
  forallb (fun sub => named_under d sub && plain (sub_vmsd sub) && loadable fuel (sub_vmsd sub)) (vd_subsections d).
End spec.

(** ** Saving writes the bytes *)

Section induction.
Context {D : Type} (P : VMStateDescription (D := D) -> Prop).
Hypothesis step : forall d, (forall f d', f ∈ vd_fields d -> vf_vmsd f = Some d' -> P d') ->
  (forall sub, sub ∈ vd_subsections d -> P (sub_vmsd sub)) -> P d.

Fixpoint vmsd_induction (d : VMStateDescription) : P d.
Proof.
  apply step.
  - destruct d as [? ? ? ? ? ? ? ? ? fields subs]. cbn [vd_fields]. clear subs.
    induction fields as [|f fields IH]; intros f' d' Hf Hd; [destruct (not_elem_of_nil _ Hf)|].
    apply elem_of_cons in Hf. destruct Hf as [->|Hf]; [|exact (IH f' d' Hf Hd)].
    destruct f as [? ? ? ? ? ? ? ? [d|] ? ?]; [|discriminate Hd]. cbn [vf_vmsd] in Hd. injection Hd as <-. apply vmsd_induction.
  - destruct d as [? ? ? ? ? ? ? ? ? fields subs]. cbn [vd_subsections]. clear fields.
    induction subs as [|sub subs IH]; intros sub' Hs; [destruct (not_elem_of_nil _ Hs)|].
    apply elem_of_cons in Hs. destruct Hs as [->|Hs]; [|exact (IH sub' Hs)].
    destruct sub as [d ?]. apply vmsd_induction.
Qed.
End induction.

Section roundtrip.
Context {D : Type} {backing : Backing D} {laws : BackingLaws D}.
Implicit Types (d : VMStateDescription (D := D)) (f : VMStateField (D := D)) (sub : VMStateSubsection (D := D)).
Implicit Types (p : addr) (s t : memory) (tail : list Z).

Lemma vputs_each {A} (body : A -> @VM D unit) (enc : A -> list Z) l s :
  (forall x, x ∈ l -> vputs (body x) (enc x) s s) -> vputs (each body l) (flat_map enc l) s s.
Proof.
  induction l as [|x l IH]; intros Hb; [apply vputs_ret|]. cbn [each flat_map].
  eapply vputs_bind; [apply Hb; by left|apply IH; intros; apply Hb; by right].
Qed.

Lemma forallb_elem {A} (g : A -> bool) l x : forallb g l = true -> x ∈ l -> g x = true.
Proof. rewrite forallb_forall. intros H Hx. apply H. by apply list_elem_of_In. Qed.

Lemma vputs_field (save : VMStateDescription -> addr -> VM unit) (enc : VMStateDescription -> addr -> list Z) ir p v s f :
  (forall d' a, vf_vmsd f = Some d' -> ir d' a = true -> vputs (save d' a) (enc d' a) s s) ->
  in_range_field ir p v s f = true -> vputs (save_field save p v f) (encode_field enc p v s f) s s.
Proof.
  intros Hn Hr. unfold save_field, encode_field, in_range_field in *. apply vputs_get.
  destruct (save_present f p v s); cbn [when negb orb] in *; [|apply vputs_ret].
  apply vputs_each. intros i Hi. apply (forallb_elem _ _ _ Hr) in Hi. unfold at_element in *. cbv zeta in *.
  destruct (has_flag VMS_STRUCT f).
  - destruct (vf_vmsd f) as [d'|]; [|done]. by apply Hn.
  - destruct (vf_info f) as [info|]; [|done]. apply info_puts. by apply Is_true_true.
Qed.

Definition prepared d p s : memory := match vd_pre_save d with Some h => h p s | None => s end.

(** The loops of [vmstate_save_state] write [encode]. *)
Lemma save_puts fuel d :
  loadable fuel d = true -> forall p s, in_range (prepared d p s) d p = true ->
  vputs (vmstate_save_state d p) (encode (prepared d p s) d p) s (prepared d p s).
Proof.
  induction d as [d IHf IHs] using vmsd_induction. intros Hl p s Hr.
  assert (Hpre : vputs (match vd_pre_save d with Some h => modify_mem (h p) | None => ret tt end) [] s (prepared d p s)).
  { unfold prepared. destruct (vd_pre_save d); [apply vputs_mem|apply vputs_ret]. }
  set (s1 := prepared d p s) in *. clearbody s1.
  assert (Hnest : forall d' a, plain d' = true -> loadable fuel d' = true ->
            (loadable fuel d' = true -> forall p s, in_range (prepared d' p s) d' p = true ->
               vputs (vmstate_save_state d' p) (encode (prepared d' p s) d' p) s (prepared d' p s)) ->
            in_range s1 d' a = true -> vputs (vmstate_save_state d' a) (encode s1 d' a) s1 s1).
  { intros d' a Hp Hl' IH Hr'. specialize (IH Hl' a s1). unfold prepared, plain in *.
    destruct (vd_pre_load d'), (vd_post_load d'), (vd_pre_save d'); done || by apply IH. }
  destruct d as [name um ver mv mvo old pl po ps fields subs]. cbn [vd_fields vd_subsections] in *.
  cbn [vmstate_save_state vd_pre_save vd_version_id vd_fields vd_subsections] in *.
  cbn [in_range encode loadable vd_version_id vd_fields vd_subsections] in *. apply andb_true_iff in Hr as [Hrf Hrs].
  apply andb_true_iff in Hl as [Hl Hls]. apply andb_true_iff in Hl as [_ Hlf].
  eapply (vputs_bind _ _ []); [exact Hpre|]. eapply vputs_bind; apply vputs_each.
  - intros f Hf. eapply vputs_field; [|exact (forallb_elem _ _ _ Hrf Hf)]. intros d' a Hd Hr'.
    pose proof (forallb_elem _ _ _ Hlf Hf) as Hd'. cbn beta in Hd'. rewrite Hd in Hd'. apply andb_true_iff in Hd' as [Hp Hl'].
    apply Hnest; [done..|by eapply IHf|done].
  - intros sub Hs. pose proof (forallb_elem _ _ _ Hls Hs) as Hd'. pose proof (forallb_elem _ _ _ Hrs Hs) as Hr'. cbn beta in *.
    apply andb_true_iff in Hd' as [Hd' Hl']. apply andb_true_iff in Hd' as [Hnm Hp].
    apply vputs_get. unfold encode_subsection. destruct (sub_needed sub p s1); cbn [when negb orb] in *; [|apply vputs_ret].
    unfold named_under in Hnm. rewrite !andb_true_iff, !Z.ltb_lt, !Z.leb_le in Hnm. destruct Hnm as [[[[[Hlen _] _] _] Hv0] Hv1].
    rewrite (Z.mod_small (Z.of_nat _)) by lia. rewrite Nat2Z.id, firstn_all. rewrite u32_id by lia.
    change ([?a; ?b] ++ ?l) with ([a] ++ [b] ++ l).
    eapply vputs_bind; [apply vputs_file, puts_byte|]. eapply vputs_bind; [apply vputs_file|].
    { eapply puts_eq; [apply puts_byte|]. by rewrite Z.mod_small by lia. }
    eapply vputs_bind; [apply vputs_file, puts_buffer|]. eapply vputs_bind; [apply vputs_file, puts_be32|].
    apply Hnest; [done..|by apply IHs|done].
Qed.

(** ** Loading brings the locations back *)

Lemma brings_until {A} (body : A -> @VM D Z) (enc : A -> list Z) (cov : A -> list loc) (clr : A -> list Z -> bool) l tail s t :
  (forall x rest t, x ∈ l -> clr x rest = true -> brings (body x) (enc x) rest (cov x) s t) ->
  clear_list enc clr l tail = true -> brings (until_error body l) (flat_map enc l) tail (flat_map cov l) s t.
Proof.
  intros Hb Hc Hok. revert t Hok. induction l as [|x l IH]; intros t Hok.
  - exists t. split; [apply vgets_ret|]. by split; [apply restores_nil|].
  - cbn [clear_list] in Hc. apply andb_true_iff in Hc as [Hx Hc].
    destruct (Hb x _ t ltac:(by left) Hx Hok) as (t1 & E1 & R1 & Hok1).
    destruct (IH (fun y rest t Hy => Hb y rest t ltac:(by right)) Hc t1 Hok1) as (t2 & E2 & R2 & Hok2).
    exists t2. split; [|split; [by eapply restores_app|done]]. cbn [until_error flat_map].
    eapply vgets_bind; [exact E1|]. exact E2.
Qed.

Lemma brings_field load enc cov stab clr ir p v s f tail t done :
  (forall d' a rest t, vf_vmsd f = Some d' -> ir d' a = true -> stab d' a -> clr d' a rest = true ->
     brings (load d' a (vd_version_id d')) (enc d' a) rest (cov d' a) s t) ->
  determined p v s done f -> (forall l, l ∈ done -> look l t = look l s) ->
  (save_present f p v s = true -> forall i, i ∈ elements f p s -> at_element True (fun _ _ _ => True) stab p s f i) ->
  in_range_field ir p v s f = true -> clear_field enc clr p v s f tail = true ->
  brings (load_field load p v f) (encode_field enc p v s f) tail (covers_field cov p v s f) s t.
Proof.
  intros Hn Hdet Hag Hst Hr Hc Hok. destruct (Hdet t Hag) as [Hp Hshape].
  unfold encode_field, covers_field, in_range_field, clear_field in *.
  destruct (save_present f p v s) eqn:Hsp; cbn [negb orb] in *.
  - destruct (Hshape eq_refl) as [Hnum Hsize].
    destruct (brings_until (fun i => let a := element f p i in
      if has_flag VMS_STRUCT f then match vf_vmsd f with Some d => load d a (vd_version_id d) | None => stop HUndef end
      else match vf_info f with Some info => info_get info a (field_size f p t) | None => stop HUndef end)
      (at_element [] (fun info a size => wire info a size s) enc p s f) (at_element [] kept_in cov p s f)
      (at_element (fun _ => true) (fun _ _ _ _ => true) clr p s f) (elements f p s) tail s t) as (t' & E & H'); [|done..|].
    + intros i rest t1 Hi Hcl. specialize (Hst eq_refl i Hi). apply (forallb_elem _ _ _ Hr) in Hi.
      unfold at_element in *. cbv zeta in *. destruct (has_flag VMS_STRUCT f).
      * destruct (vf_vmsd f) as [d'|]; [|done]. by apply Hn.
      * destruct (vf_info f) as [info|]; [|done]. rewrite Hsize. apply info_brings. by apply Is_true_true.
    + exists t'. split; [|done]. unfold load_field. apply vgets_get. rewrite Hp, Hnum. exact E.
  - exists t. split; [|by split; [apply restores_nil|]]. unfold load_field. apply vgets_get. rewrite Hp. apply vgets_ret.
Qed.

Lemma brings_fields load enc cov stab clr ir p v s fs tail :
  (forall f d' a rest t, f ∈ fs -> vf_vmsd f = Some d' -> ir d' a = true -> stab d' a -> clr d' a rest = true ->
     brings (load d' a (vd_version_id d')) (enc d' a) rest (cov d' a) s t) ->
  forall done t, stable_fields cov stab p v s done fs -> (forall l, l ∈ done -> look l t = look l s) ->
  forallb (in_range_field ir p v s) fs = true ->
  clear_list (encode_field enc p v s) (clear_field enc clr p v s) fs tail = true ->
  brings (until_error (load_field load p v) fs) (flat_map (encode_field enc p v s) fs) tail
    (flat_map (covers_field cov p v s) fs) s t.
Proof.
  intros Hn done. revert done. induction fs as [|f fs IH]; intros done t Hst Hag Hr Hc Hok.
  - exists t. split; [apply vgets_ret|]. by split; [apply restores_nil|].
  - cbn [stable_fields forallb clear_list] in *. destruct Hst as (Hdet & Hel & Hst).
    apply andb_true_iff in Hr as [Hrf Hr]. apply andb_true_iff in Hc as [Hcf Hc].
    destruct (brings_field load enc cov stab clr ir p v s f _ t done (fun d' a rest t => Hn f d' a rest t ltac:(by left))
                Hdet Hag Hel Hrf Hcf Hok) as (t1 & E1 & R1 & Hok1).
    destruct (IH (fun g d' a rest t Hg => Hn g d' a rest t ltac:(by right)) _ t1 Hst) as (t2 & E2 & R2 & Hok2); [|done..|].
    { by eapply restores_agree. }
    exists t2. split; [|split; [by eapply restores_app|done]]. cbn [until_error flat_map].
    eapply vgets_bind; [exact E1|exact E2].
Qed.

(** *** Subsections *)

Lemma vpeek_byte rest (o : nat) b t :
  (Z.of_nat o < IO_BUF_SIZE) -> rest !! o = Some b -> vgets (on_file (qemu_peek_byte (Z.of_nat o))) [] rest b t t.
Proof.
  intros Ho Hb f Hr. destruct (peek_byte_reading f rest (Z.of_nat o) b Hr) as (f' & E & Hr' & He' & _);
    [lia|by rewrite Nat2Z.id|]. exists f'. by rewrite (on_file_Ret _ _ _ _ _ E).
Qed.

Lemma c_string_nonzero l : forallb (fun c => negb (c =? 0)) l = true -> c_string l = l.
Proof.
  intros H. apply c_string_id. intros H0. rewrite forallb_forall in H. by specialize (H 0 (proj1 (list_elem_of_In _ _) H0)).
Qed.

Lemma turn_stop name find p rest t :
  no_subsection name rest = true -> vgets (subsection_turn (D := D) name find p) [] rest (Some 0) t t.
Proof.
  unfold no_subsection. destruct rest as [|b rest]; [done|]. intros Hs. unfold subsection_turn.
  eapply (vgets_bind _ _ [] []); [by apply (vpeek_byte (b :: rest) 0)|]. cbn beta.
  destruct (b =? QEMU_VM_SUBSECTION); cbn [negb orb] in *; [|apply vgets_ret]. destruct rest as [|len rest]; [done|].
  rewrite !andb_true_iff, Z.leb_le, Z.ltb_lt in Hs. destruct Hs as [Hlen Hs].
  eapply (vgets_bind _ _ [] []); [by apply (vpeek_byte (b :: len :: rest) 1)|]. cbn beta.
  destruct (Z.ltb_spec len (Z.of_nat (length name) + 1)); [apply vgets_ret|]. cbn [orb] in Hs.
  rewrite andb_true_iff, Z.leb_le in Hs. destruct Hs as [Hl Hs].
  intros f Hr. destruct (peek_buffer_reading f (b :: len :: rest) len 2 Hr) as (f' & E & Hr' & He' & _);
    [lia|lia|unfold IO_BUF_SIZE; lia|cbn; lia|].
  exists f'. split; [|done]. rewrite (bind_Ret _ _ _ _ _ (on_file_Ret _ _ _ _ _ E)).
  change (drop (Z.to_nat 2) (b :: len :: rest)) with rest.
  replace (Z.of_nat (length (take (Z.to_nat len) rest))) with len by (rewrite length_take; lia).
  rewrite Z.eqb_refl. cbn [negb]. by rewrite Hs.
Qed.

Lemma turn_take name sname find (load : addr -> Z -> @VM D Z) p v bs tail L s t :
  Z.of_nat (length sname) < 256 -> forallb (fun c => negb (c =? 0)) sname = true ->
  Z.of_nat (length name) + 1 <= Z.of_nat (length sname) -> starts_with name sname = true -> 0 <= v < 256 ->
  find sname = Some load -> brings (load p v) bs tail L s t -> mem_ok t ->
  exists t', vgets (subsection_turn name find p) ([QEMU_VM_SUBSECTION; Z.of_nat (length sname)] ++ sname ++ be32 v ++ bs) tail None t t' /\
             restores L s t t' /\ mem_ok t'.
Proof.
  intros Hlen Hnz Hlong Hpre Hv Hfind Hl Hok. destruct (Hl Hok) as (t' & E & R & Hok'). exists t'. split; [|done].
  set (rest := sname ++ be32 v ++ bs ++ tail).
  assert (Hbytes : ([QEMU_VM_SUBSECTION; Z.of_nat (length sname)] ++ sname ++ be32 v ++ bs) ++ tail
                   = QEMU_VM_SUBSECTION :: Z.of_nat (length sname) :: rest) by (unfold rest; cbn; by rewrite <- !app_assoc).
  intros f Hr. rewrite Hbytes in Hr. unfold subsection_turn.
  destruct (peek_byte_reading f _ 0 QEMU_VM_SUBSECTION Hr ltac:(done) eq_refl) as (f1 & E1 & Hr1 & He1 & _).
  destruct (peek_byte_reading f1 _ 1 (Z.of_nat (length sname)) Hr1 ltac:(done) eq_refl) as (f2 & E2 & Hr2 & He2 & _).
  destruct (peek_buffer_reading f2 _ (Z.of_nat (length sname)) 2 Hr2) as (f3 & E3 & Hr3 & He3 & Hn3);
    [lia|lia|unfold IO_BUF_SIZE; lia|unfold rest; cbn; rewrite length_app; lia|].
  change (drop (Z.to_nat 2) _) with rest in E3. rewrite Nat2Z.id in E3. unfold rest in E3. rewrite take_app_length in E3.
  destruct (skip_reading f3 _ 1 Hr3 ltac:(lia)) as (f4 & E4 & Hr4 & He4 & Hn4).
  destruct (skip_reading f4 _ 1 Hr4 ltac:(lia)) as (f5 & E5 & Hr5 & He5 & Hn5).
  destruct (skip_reading f5 _ (Z.of_nat (length sname)) Hr5 ltac:(lia)) as (f6 & E6 & Hr6 & He6 & _).
  change (drop (Z.to_nat 1) (drop (Z.to_nat 1) _)) with rest in Hr6. unfold rest in Hr6. rewrite Nat2Z.id, drop_app_length in Hr6.
  destruct (gets_be32 v f6 _ Hr6) as (f7 & E7 & Hr7 & He7). destruct (E f7 Hr7) as (f8 & E8 & Hr8 & He8).
  exists f8. split; [|split; [done|unfold no_error in *; congruence]].
  rewrite (bind_Ret _ _ _ _ _ (on_file_Ret _ _ _ _ t E1)), Z.eqb_refl. cbn [negb].
  rewrite (bind_Ret _ _ _ _ _ (on_file_Ret _ _ _ _ t E2)). zdecide (Z.of_nat (length sname) <? Z.of_nat (length name) + 1).
  rewrite (bind_Ret _ _ _ _ _ (on_file_Ret _ _ _ _ t E3)), Z.eqb_refl, c_string_nonzero, Hpre, Hfind by done. cbn [negb].
  rewrite (bind_Ret _ _ _ _ _ (on_file_Ret _ _ _ _ t E4)), (bind_Ret _ _ _ _ _ (on_file_Ret _ _ _ _ t E5)).
  rewrite (bind_Ret _ _ _ _ _ (on_file_Ret _ _ _ _ t E6)), (bind_Ret _ _ _ _ _ (on_file_Ret _ _ _ _ t E7)).
  rewrite u32_id, (Z.mod_small v) by lia. by erewrite bind_Ret by exact E8.
Qed.

Lemma get_subsection_found (load : VMStateDescription -> addr -> Z -> @VM D Z) subs sub :
  NoDup ((fun sub => str (vd_name (sub_vmsd sub))) <$> subs) -> sub ∈ subs ->
  vmstate_get_subsection load (str (vd_name (sub_vmsd sub))) subs = Some (load (sub_vmsd sub)).
Proof.
  induction subs as [|x subs IH]; intros Hn Hs; [by apply not_elem_of_nil in Hs|]. cbn [vmstate_get_subsection].
  rewrite fmap_cons in Hn. apply NoDup_cons in Hn as [Hx Hn]. apply elem_of_cons in Hs as [->|Hs].
  - by rewrite bool_decide_eq_true_2.
  - rewrite bool_decide_eq_false_2; [by apply IH|]. intros Heq. apply Hx. rewrite <- Heq.
    exact (list_elem_of_fmap_2 _ _ _ Hs).
Qed.

Lemma named_under_spec d sub :
  named_under d sub = true ->
  let name := str (vd_name (sub_vmsd sub)) in
  Z.of_nat (length name) < 256 /\ forallb (fun c => negb (c =? 0)) name = true /\
  Z.of_nat (length (str (vd_name d))) + 1 <= Z.of_nat (length name) /\ starts_with (str (vd_name d)) name = true /\
  0 <= vd_version_id (sub_vmsd sub) < 256.
Proof. unfold named_under. rewrite !andb_true_iff, !Z.ltb_lt, !Z.leb_le. cbv zeta. intros [[[[[? ?] ?] ?] ?] ?]. by repeat split. Qed.

Lemma brings_subsections fuel d find (load : VMStateDescription -> addr -> Z -> @VM D Z) enc cov clr l p tail s t :
  (length l < fuel)%nat ->
  (forall sub, sub ∈ l -> named_under d sub = true /\ find (str (vd_name (sub_vmsd sub))) = Some (load (sub_vmsd sub))) ->
  (forall sub rest t, sub ∈ l -> sub_needed sub p s = true -> clr (sub_vmsd sub) p rest = true ->
     brings (load (sub_vmsd sub) p (vd_version_id (sub_vmsd sub))) (enc (sub_vmsd sub) p) rest (cov (sub_vmsd sub) p) s t) ->
  clear_list (encode_subsection enc p s) (clear_subsection clr p s) l tail = true ->
  no_subsection (str (vd_name d)) tail = true ->
  brings (subsection_loop fuel (subsection_turn (str (vd_name d)) find p)) (flat_map (encode_subsection enc p s) l) tail
    (flat_map (covers_subsection cov p s) l) s t.
Proof.
  revert fuel t. induction l as [|sub l IH]; intros fuel t Hf Hnm Hb Hc Hno Hok.
  - destruct fuel as [|fuel]; [cbn in Hf; lia|]. exists t. split; [|by split; [apply restores_nil|]]. cbn [subsection_loop flat_map].
    eapply (vgets_bind _ _ [] []); [by apply turn_stop|apply vgets_ret].
  - cbn [clear_list flat_map length] in *. apply andb_true_iff in Hc as [Hcs Hc].
    assert (IH' : forall fuel t, (length l < fuel)%nat -> brings (subsection_loop fuel (subsection_turn (str (vd_name d)) find p))
              (flat_map (encode_subsection enc p s) l) tail (flat_map (covers_subsection cov p s) l) s t).
    { intros. apply IH; [done|intros; apply Hnm; by right|intros; apply Hb; [by right|done..]|done..]. }
    unfold clear_subsection, encode_subsection, covers_subsection in Hcs |- *.
    destruct (sub_needed sub p s) eqn:Hneed; cbn [negb orb] in Hcs.
    + destruct fuel as [|fuel]; [lia|]. destruct (Hnm sub ltac:(by left)) as [Hname Hfind].
      apply named_under_spec in Hname as (Hlen & Hnz & Hlong & Hpre & Hv).
      destruct (turn_take (str (vd_name d)) _ find _ p _ _ _ _ s t Hlen Hnz Hlong Hpre Hv Hfind (Hb sub _ t ltac:(by left) Hneed Hcs) Hok)
        as (t1 & E1 & R1 & Hok1).
      destruct (IH' fuel t1 ltac:(lia) Hok1) as (t2 & E2 & R2 & Hok2).
      exists t2. split; [|split; [by eapply restores_app|done]]. cbn [subsection_loop]. eapply vgets_bind; [exact E1|exact E2].
    + apply IH'; [lia|done].
Qed.

Lemma stable_subsection p s subs (P : VMStateDescription (D := D) -> Prop) sub :
  foldr (fun sub Q => (sub_needed sub p s = true -> P (sub_vmsd sub)) /\ Q) True subs -> sub ∈ subs ->
  sub_needed sub p s = true -> P (sub_vmsd sub).
Proof.
  induction subs as [|x subs IH]; intros Hst Hs Hn; [by apply not_elem_of_nil in Hs|]. destruct Hst as [Hx Hst].
  apply elem_of_cons in Hs as [->|Hs]; [by apply Hx|by apply IH].
Qed.

(** What [post_load] makes of the memory, and its result. *)
Definition finished d p t : memory * Z :=
  match vd_post_load d with Some h => h p (vd_version_id d) t | None => (t, 0) end.

(** [vmstate_load_state] reads [encode] and brings back [covers]. *)
Definition loads_back (fuel : nat) d : Prop := forall p s tail t,
  in_range s d p = true -> stable s d p -> clear s d p tail = true -> mem_ok t ->
  exists t1, vgets (vmstate_load_state fuel d p (vd_version_id d)) (encode s d p) tail (finished d p t1).2 t (finished d p t1).1 /\
             restores (covers s d p) s t t1 /\ mem_ok t1.

Lemma brings_embedded fuel d' a s rest t :
  plain d' = true -> loads_back fuel d' -> in_range s d' a = true -> stable s d' a -> clear s d' a rest = true ->
  brings (vmstate_load_state fuel d' a (vd_version_id d')) (encode s d' a) rest (covers s d' a) s t.
Proof.
  intros Hp IH Hr Hs Hc Hok. destruct (IH a s rest t Hr Hs Hc Hok) as (t2 & E & H2).
  exists t2. split; [|done]. unfold finished, plain in *. destruct (vd_pre_load d'), (vd_post_load d'), (vd_pre_save d'); done.
Qed.

Lemma load_brings fuel d : loadable fuel d = true -> loads_back fuel d.
Proof.
  induction d as [d IHf IHs] using vmsd_induction. intros Hl p s tail t Hr Hst Hc Hok.
  destruct d as [name um ver mv mvo old pl po ps fields subs]. cbn [vd_fields vd_subsections] in *.
  cbn [vmstate_load_state in_range encode covers clear stable loadable vd_version_id vd_minimum_version_id vd_minimum_version_id_old
       vd_fields vd_subsections vd_name vd_pre_load vd_load_state_old] in *.
  apply andb_true_iff in Hr as [Hrf Hrs]. destruct Hst as [Hstf Hsts]. rewrite !andb_true_iff in Hl.
  destruct Hl as [[[[[[Hmvo Hmv] Hpl] Hfu] Hnd] Hlf] Hls]. rewrite !andb_true_iff in Hc. destruct Hc as [[Hcf Hcs] Hno].
  apply bool_decide_eq_true in Hnd. apply bool_decide_eq_true in Hfu. destruct pl; [done|].
  destruct (brings_fields (vmstate_load_state fuel) (encode s) (covers s) (stable s) (clear s) (in_range s) p ver s fields
              (flat_map (encode_subsection (encode s) p s) subs ++ tail)) with (done := @nil loc) (t := t) as (t1 & E1 & R1 & Hok1); try done.
  { intros f d' a rest t1 Hf Hd. pose proof (forallb_elem _ _ _ Hlf Hf) as Hd'. cbn beta in Hd'. rewrite Hd in Hd'.
    apply andb_true_iff in Hd' as [Hp Hl']. apply brings_embedded; [done|by eapply IHf]. }
  { intros l Hin. by apply not_elem_of_nil in Hin. }
  destruct (brings_subsections fuel (mk_vmsd name um ver mv mvo old None po ps fields subs)
              (fun idstr => vmstate_get_subsection (vmstate_load_state fuel) idstr subs) (vmstate_load_state fuel) (encode s) (covers s)
              (clear s) subs p tail s t1) as (t2 & E2 & R2 & Hok2); try done.
  { intros sub Hs. split; [|by apply get_subsection_found]. pose proof (forallb_elem _ _ _ Hls Hs) as Hd'. cbn beta in Hd'.
    rewrite !andb_true_iff in Hd'. apply Hd'. }
  { intros sub rest t2 Hs Hn Hcl. pose proof (forallb_elem _ _ _ Hls Hs) as Hd'. pose proof (forallb_elem _ _ _ Hrs Hs) as Hr'. cbn beta in *.
    rewrite Hn in Hr'. rewrite !andb_true_iff in Hd'. destruct Hd' as [[_ Hp] Hl'].
    apply brings_embedded; [done|by apply IHs|done|exact (stable_subsection p s subs (fun d' => stable s d' p) sub Hsts Hs Hn)|done]. }
  exists t2. split; [|split; [by eapply restores_app|done]].
  apply Z.leb_le in Hmvo. apply Z.leb_le in Hmv. zdecide (ver >? ver). zdecide (ver <? mvo). zdecide (ver <? mv).
  eapply (vgets_bind _ _ [] (_ ++ _)); [apply vgets_ret|]. eapply vgets_bind; [exact E1|]. cbn [Z.ltb Z.compare].
  rewrite <- (app_nil_r (flat_map (encode_subsection _ _ _) subs)). eapply vgets_bind; [exact E2|].
  unfold finished. cbn [vd_post_load vd_version_id c_true Z.eqb negb]. destruct po as [h|]; [|apply vgets_ret].
  apply vgets_get. destruct (h p ver t2) as [t3 r]. eapply (vgets_bind _ _ [] []); [exact (vgets_mem (fun _ => t3) _ t2)|apply vgets_ret].
Qed.
End roundtrip.
