(* ===== verification/SaveVM.v ===== *)
(** * SaveVM.v -- the sections of a snapshot

    Models the registration of savable objects and the file format of snapshots in
    [vmm/savevm.c]: [vmstate_register], [register_savevm_live], [qemu_savevm_state]
    with its three phases, and [qemu_loadvm_state].

    Every registered object is an entry of [savevm_handlers].  It has a description,
    or functions of its own (RAM and disks, which are saved in several rounds while
    the machine runs); those functions are values of the entry.  The file is a list
    of sections, each with the identifier and the number of its entry.  KVM, whose
    registers would be fetched first, is not used. *)

From stdpp Require Import gmap strings.
From S2P Require Import Prelude CString Timers QemuFile Vmstate VmstateRoundtrip.

Definition QEMU_VM_FILE_MAGIC : Z := 1363498573.
Definition QEMU_VM_FILE_VERSION_COMPAT : Z := 2.
Definition QEMU_VM_FILE_VERSION : Z := 3.
Definition QEMU_VM_EOF : Z := 0.
Definition QEMU_VM_SECTION_START : Z := 1.
Definition QEMU_VM_SECTION_PART : Z := 2.
Definition QEMU_VM_SECTION_END : Z := 3.
Definition QEMU_VM_SECTION_FULL : Z := 4.

(** [pstrcpy] and [pstrcat] into a buffer of [n] bytes. *)
Definition pstrcpy (n : nat) (s : list Z) : list Z := take (n - 1) s.
Definition pstrcat (n : nat) (buf s : list Z) : list Z := take (n - 1) (buf ++ s).

(** Whether [s] occurs in [l]. *)
Fixpoint strstr (l s : list Z) : bool :=
  starts_with s l || match l with [] => false | _ :: l' => strstr l' s end.

Section savevm.
Context {D : Type} {backing : Backing D}.

(** [se_compat] is the identifier and number older versions used. *)
Record SaveStateEntry := mk_se {
  se_idstr : list Z;
  se_instance_id : Z;
  se_alias_id : Z;
  se_version_id : Z;
  se_section_id : Z;
  se_set_params : option (Z -> Z -> @VM D unit);
  se_save_live_state : option (Z -> @VM D Z);
  se_save_state : option (@VM D unit);
  se_load_state : option (Z -> @VM D Z);
  se_vmsd : option (VMStateDescription (D := D));
  se_opaque : addr;
  se_compat : option (list Z * Z);
  se_no_migrate : bool
}.

(** ** Registration *)

(** The handlers, in the order of their registration, and [global_section_id]. *)
Record registry := mk_registry {
  savevm_handlers : list SaveStateEntry;
  global_section_id : Z
}.

Definition next_instance (id : SaveStateEntry -> option (list Z * Z)) (idstr : list Z) (l : list SaveStateEntry) : Z :=
  foldl (fun n se => match id se with
                     | Some (s, i) => if bool_decide (idstr = s) && (n <=? i) then wrap32 (i + 1) else n
                     | None => n
                     end) 0 l.
Definition calculate_new_instance_id (idstr : list Z) (l : list SaveStateEntry) : Z :=
  next_instance (fun se => Some (se_idstr se, se_instance_id se)) idstr l.
Definition calculate_compat_instance_id (idstr : list Z) (l : list SaveStateEntry) : Z := next_instance se_compat idstr l.

(** The identifier, the number and the old identifier of a new entry; [path] is what
    the bus of the device gives as its path. *)
Definition entry_names (path : option (list Z)) (name : list Z) (instance_id : Z) (l : list SaveStateEntry)
    : list Z * Z * option (list Z * Z) :=
  let '(prefix, instance_id, compat) :=
    match path with
    | Some id =>
        (pstrcat 256 (pstrcpy 256 id) (str "/"), -1,
         Some (pstrcpy 256 name, if instance_id =? -1 then calculate_compat_instance_id name l else instance_id))
    | None => ([], instance_id, None)
    end in
  let idstr := pstrcat 256 prefix name in
  (idstr, if instance_id =? -1 then calculate_new_instance_id idstr l else instance_id, compat).

Definition insert_entry (mk : list Z -> Z -> option (list Z * Z) -> Z -> SaveStateEntry) (path : option (list Z))
    (name : list Z) (instance_id : Z) : M registry Z :=
  r <- get ;;
  let '(idstr, inst, compat) := entry_names path name instance_id (savevm_handlers r) in
  assert_ (match compat with None => true | Some _ => inst =? 0 end) ;;;
  put (mk_registry (savevm_handlers r ++ [mk idstr inst compat (global_section_id r)]) (wrap32 (global_section_id r + 1))) ;;;
  ret 0.

Definition register_savevm_live (path : option (list Z)) (idstr : list Z) (instance_id version_id : Z)
    (set_params : option (Z -> Z -> @VM D unit)) (save_live_state : option (Z -> @VM D Z)) (save_state : option (@VM D unit))
    (load_state : option (Z -> @VM D Z)) (opaque : addr) : M registry Z :=
  insert_entry (fun id inst compat section_id =>
    mk_se id inst 0 version_id section_id set_params save_live_state save_state load_state None opaque compat false)
    path idstr instance_id.
Definition register_savevm (path : option (list Z)) (idstr : list Z) (instance_id version_id : Z)
    (save_state : option (@VM D unit)) (load_state : option (Z -> @VM D Z)) (opaque : addr) : M registry Z :=
  register_savevm_live path idstr instance_id version_id None None save_state load_state opaque.

Definition vmstate_register_with_alias_id (path : option (list Z)) (instance_id : Z) (vmsd : VMStateDescription)
    (opaque : addr) (alias_id required_for_version : Z) : M registry Z :=
  assert_ ((alias_id =? -1) || (required_for_version >=? vd_minimum_version_id vmsd)) ;;;
  insert_entry (fun id inst compat section_id =>
    mk_se id inst alias_id (vd_version_id vmsd) section_id None None None None (Some vmsd) opaque compat (vd_unmigratable vmsd))
    path (str (vd_name vmsd)) instance_id.
Definition vmstate_register (path : option (list Z)) (instance_id : Z) (vmsd : VMStateDescription) (opaque : addr) : M registry Z :=
  vmstate_register_with_alias_id path instance_id vmsd opaque (-1) 0.

Definition unregister_savevm (path : option (list Z)) (idstr : list Z) (opaque : addr) : M registry unit :=
  let id := pstrcat 256 (match path with Some p => pstrcat 256 (pstrcpy 256 p) (str "/") | None => [] end) idstr in
  modify (fun r => mk_registry
    (filter (fun se => ~ (se_idstr se = id /\ se_opaque se = opaque)) (savevm_handlers r)) (global_section_id r)).

(** ** Saving *)

(** Calling a null pointer is undefined. *)
Definition vmstate_load (fuel : nat) (se : SaveStateEntry) (version_id : Z) : @VM D Z :=
  match se_vmsd se with
  | None => match se_load_state se with Some load => load version_id | None => stop HUndef end
  | Some vmsd => vmstate_load_state fuel vmsd (se_opaque se) version_id
  end.
Definition vmstate_save (se : SaveStateEntry) : @VM D unit :=
  match se_vmsd se with
  | None => match se_save_state se with Some save => save | None => stop HUndef end
  | Some vmsd => vmstate_save_state vmsd (se_opaque se)
  end.

Definition qemu_savevm_state_blocked (l : list SaveStateEntry) : bool := existsb se_no_migrate l.

Definition qemu_savevm_state_cancel (l : list SaveStateEntry) : @VM D unit :=
  each (fun se => match se_save_live_state se with Some live => live (-1) ;;; ret tt | None => ret tt end) l.

Definition put_idstr (se : SaveStateEntry) : @VM D unit :=
  let len := Z.of_nat (length (se_idstr se)) in
  on_file (qemu_put_byte len) ;;; on_file (qemu_put_buffer (se_idstr se)) ;;;
  on_file (qemu_put_be32 (u32 (se_instance_id se))) ;;; on_file (qemu_put_be32 (u32 (se_version_id se))).

(** The number of the section, then [head], then the rounds of the handlers that have
    them, until [stops] says so of a result; the last result. *)
Section rounds.
Context (stage : Z) (head : SaveStateEntry -> @VM D unit) (stops : Z -> bool).

Fixpoint live_rounds (ret0 : Z) (l : list SaveStateEntry) : @VM D Z :=
  match l with
  | [] => ret ret0
  | se :: l' =>
      match se_save_live_state se with
      | None => live_rounds ret0 l'
      | Some live =>
          on_file (qemu_put_byte stage) ;;; on_file (qemu_put_be32 (u32 (se_section_id se))) ;;; head se ;;;
          r <- live stage ;;
          if stops r then ret r else live_rounds r l'
      end
  end.
End rounds.

Definition qemu_savevm_state_begin (l : list SaveStateEntry) (blk_enable shared : Z) : @VM D Z :=
  each (fun se => match se_set_params se with Some f => f blk_enable shared | None => ret tt end) l ;;;
  on_file (qemu_put_be32 QEMU_VM_FILE_MAGIC) ;;; on_file (qemu_put_be32 QEMU_VM_FILE_VERSION) ;;;
  r <- live_rounds QEMU_VM_SECTION_START put_idstr (fun r => r <? 0) 0 l ;;
  if r <? 0 then qemu_savevm_state_cancel l ;;; ret r
  else
    e <- on_file qemu_file_get_error ;;
    when (c_true e) (qemu_savevm_state_cancel l) ;;; ret e.

Definition qemu_savevm_state_iterate (l : list SaveStateEntry) : @VM D Z :=
  r <- live_rounds QEMU_VM_SECTION_PART (fun _ => ret tt) (fun r => r <=? 0) 1 l ;;
  if c_true r then ret r
  else
    e <- on_file qemu_file_get_error ;;
    when (c_true e) (qemu_savevm_state_cancel l) ;;; ret e.

Definition save_full (se : SaveStateEntry) : @VM D unit :=
  match se_save_state se, se_vmsd se with
  | None, None => ret tt
  | _, _ =>
      on_file (qemu_put_byte QEMU_VM_SECTION_FULL) ;;; on_file (qemu_put_be32 (u32 (se_section_id se))) ;;;
      put_idstr se ;;; vmstate_save se
  end.
Definition qemu_savevm_state_complete (l : list SaveStateEntry) : @VM D Z :=
  r <- live_rounds QEMU_VM_SECTION_END (fun _ => ret tt) (fun r => r <? 0) 0 l ;;
  if r <? 0 then ret r
  else
    each save_full l ;;;
    on_file (qemu_put_byte QEMU_VM_EOF) ;;; on_file qemu_file_get_error.

(** [fuel] bounds the rounds. *)
Fixpoint iterate_rounds (fuel : nat) (l : list SaveStateEntry) : @VM D Z :=
  match fuel with
  | O => stop HUndef
  | S fuel' => r <- qemu_savevm_state_iterate l ;; if r =? 0 then iterate_rounds fuel' l else ret r
  end.
Definition qemu_savevm_state (fuel : nat) (l : list SaveStateEntry) : @VM D Z :=
  let out r := if r =? 0 then on_file qemu_file_get_error else ret r in
  if qemu_savevm_state_blocked l then out (- EINVAL)
  else
    r <- qemu_savevm_state_begin l 0 0 ;;
    if r <? 0 then out r
    else
      r <- iterate_rounds fuel l ;;
      if r <? 0 then out r
      else r <- qemu_savevm_state_complete l ;; out r.

(** ** Loading *)

Definition se_matches (idstr : list Z) (instance_id : Z) (se : SaveStateEntry) : bool :=
  (bool_decide (se_idstr se = idstr) && ((instance_id =? se_instance_id se) || (instance_id =? se_alias_id se))) ||
  match se_compat se with
  | Some (old, old_id) =>
      strstr (se_idstr se) idstr && bool_decide (old = idstr) && ((instance_id =? old_id) || (instance_id =? se_alias_id se))
  | None => false
  end.
Definition find_se (idstr : list Z) (instance_id : Z) (l : list SaveStateEntry) : option SaveStateEntry :=
  List.find (se_matches idstr instance_id) l.

(** An entry of [loadvm_handlers]: its section, its handler and the version. *)
Definition LoadStateEntry : Type := Z * SaveStateEntry * Z.

(** One section: the entries of [loadvm_handlers] behind it, or the error.  A name
    that is cut off by the end of the file is compared with memory that was never
    written. *)
Definition load_section (fuel : nat) (l : list SaveStateEntry) (section_type : Z) (les : list LoadStateEntry)
    : @VM D (list LoadStateEntry + Z) :=
  if (section_type =? QEMU_VM_SECTION_START) || (section_type =? QEMU_VM_SECTION_FULL) then
    section_id <- on_file qemu_get_be32 ;;
    len <- on_file qemu_get_byte ;;
    idstr <- on_file (qemu_get_buffer len) ;;
    if Z.of_nat (length idstr) <? len then stop HUndef
    else
      instance_id <- on_file qemu_get_be32 ;;
      version_id <- on_file qemu_get_be32 ;;
      match find_se (c_string idstr) (wrap32 instance_id) l with
      | None => ret (inr (- EINVAL))
      | Some se =>
          if version_id >? u32 (se_version_id se) then ret (inr (- EINVAL))
          else
            r <- vmstate_load fuel se (wrap32 version_id) ;;
            ret (if r <? 0 then inr r else inl ((section_id, se, wrap32 version_id) :: les))
      end
  else if (section_type =? QEMU_VM_SECTION_PART) || (section_type =? QEMU_VM_SECTION_END) then
    section_id <- on_file qemu_get_be32 ;;
    match List.find (fun le => le.1.1 =? section_id) les with
    | None => ret (inr (- EINVAL))
    | Some (_, se, version_id) =>
        r <- vmstate_load fuel se version_id ;;
        ret (if r <? 0 then inr r else inl les)
    end
  else ret (inr (- EINVAL)).

(** [sections] bounds the number of sections. *)
Fixpoint load_sections (sections fuel : nat) (l : list SaveStateEntry) (les : list LoadStateEntry) : @VM D Z :=
  match sections with
  | O => stop HUndef
  | S sections' =>
      section_type <- on_file qemu_get_byte ;;
      if section_type =? QEMU_VM_EOF then ret 0
      else
        r <- load_section fuel l section_type les ;;
        match r with inl les' => load_sections sections' fuel l les' | inr e => ret e end
  end.

Definition qemu_loadvm_state (sections fuel : nat) (l : list SaveStateEntry) : @VM D Z :=
  if qemu_savevm_state_blocked l then ret (- EINVAL)
  else
    v <- on_file qemu_get_be32 ;;
    if negb (v =? QEMU_VM_FILE_MAGIC) then ret (- EINVAL)
    else
      v <- on_file qemu_get_be32 ;;
      if v =? QEMU_VM_FILE_VERSION_COMPAT then ret (- ENOTSUP)
      else if negb (v =? QEMU_VM_FILE_VERSION) then ret (- ENOTSUP)
      else
        r <- load_sections sections fuel l [] ;;
        if r =? 0 then on_file qemu_file_get_error else ret r.
End savevm.
