(* ===== verification/SaveVMRoundtrip.v ===== *)
(** * SaveVMRoundtrip.v -- a snapshot that was written can be loaded

    For entries that are saved and loaded by a description, directly or by functions
    that call the interpreter ([cpu_save] and [cpu_load]): [qemu_savevm_state] writes a section for every
    one of them, and [qemu_loadvm_state] finds the entry of every section, loads it
    and accepts the file. *)

From stdpp Require Import gmap strings.
From S2P Require Import Prelude CString Timers QemuFile Vmstate VmstateRoundtrip SaveVM.

Section snapshot.
Context {D : Type} {backing : Backing D} {laws : BackingLaws D}.
Implicit Types (e : SaveStateEntry (D := D)) (l es : list (SaveStateEntry (D := D))) (d : VMStateDescription (D := D)).
Implicit Types (s t : memory).

(** The entry [e] of [l] is saved and loaded by the description [d], it is found by
    its identifier, and its numbers fit the file. *)
Record described (fuel : nat) l e d : Prop := {
  de_full : save_full e = (on_file (qemu_put_byte QEMU_VM_SECTION_FULL) ;;; on_file (qemu_put_be32 (u32 (se_section_id e))) ;;;
                           put_idstr e ;;; vmstate_save_state d (se_opaque e));
  de_load v : vmstate_load fuel e v = vmstate_load_state fuel d (se_opaque e) v;
  de_live : se_save_live_state e = None;
  de_params : se_set_params e = None;
  de_length : Z.of_nat (length (se_idstr e)) < 256;
  de_chars : forallb (fun c => negb (c =? 0)) (se_idstr e) = true;
  de_find : find_se (se_idstr e) (se_instance_id e) l = Some e;
  de_instance : in_int (se_instance_id e);
  de_version : se_version_id e = vd_version_id d /\ 0 <= vd_version_id d < 2 ^ 31;
  de_migrate : se_no_migrate e = false
}.

(** Entries with their descriptions. *)
Implicit Types (x : SaveStateEntry (D := D) * VMStateDescription (D := D)).
Implicit Types (xs : list (SaveStateEntry (D := D) * VMStateDescription (D := D))).
Definition object x : addr := se_opaque x.1.

(** The memory after the object is prepared for saving. *)
Definition prepared_se x s : memory := prepared x.2 (object x) s.

Definition section_header e : list Z :=
  be32 (u32 (se_section_id e)) ++ [Z.of_nat (length (se_idstr e))] ++ se_idstr e ++
  be32 (u32 (se_instance_id e)) ++ be32 (u32 (se_version_id e)).

(** The sections of the entries, the memory going from one to the next. *)
Fixpoint sections_of xs s : list Z :=
  match xs with
  | [] => []
  | x :: xs' =>
      let s1 := prepared_se x s in
      [QEMU_VM_SECTION_FULL] ++ section_header x.1 ++ encode s1 x.2 (object x) ++ sections_of xs' s1
  end.
Definition snapshot_bytes xs s : list Z :=
  be32 QEMU_VM_FILE_MAGIC ++ be32 QEMU_VM_FILE_VERSION ++ sections_of xs s ++ [QEMU_VM_EOF].
Definition saved xs s : memory := foldl (fun s x => prepared_se x s) s xs.

(** Every entry can be saved and loaded where it stands in the file. *)
Fixpoint savable (fuel : nat) l xs s : Prop :=
  match xs with
  | [] => True
  | x :: xs' =>
      let s1 := prepared_se x s in
      (described fuel l x.1 x.2 /\ loadable fuel x.2 = true /\ in_range s1 x.2 (object x) = true /\ stable s1 x.2 (object x) /\
       clear s1 x.2 (object x) (sections_of xs' s1 ++ [QEMU_VM_EOF]) = true /\
       (forall t, mem_ok t -> mem_ok (finished x.2 (object x) t).1 /\ (finished x.2 (object x) t).2 = 0)) /\
      savable fuel l xs' s1
  end.

(** From [t], loading the entries one after the other leads to [t']: the locations of
    each come from what was saved of it, then its [post_load] runs. *)
Inductive loads : list (SaveStateEntry (D := D) * VMStateDescription (D := D)) -> memory -> memory -> memory -> Prop :=
  | loads_nil s t : loads [] s t t
  | loads_cons x xs s t t1 t' :
      restores (covers (prepared_se x s) x.2 (object x)) (prepared_se x s) t t1 ->
      loads xs (prepared_se x s) (finished x.2 (object x) t1).1 t' ->
      loads (x :: xs) s t t'.

(** ** Saving *)

Lemma live_rounds_none stage head stops r0 l st :
  Forall (fun e => se_save_live_state e = None) l -> live_rounds stage head stops r0 l st = ret (S := vm (D := D)) r0 st.
Proof. induction 1 as [|e l He Hl IH]; [done|]. cbn [live_rounds]. by rewrite He. Qed.

Lemma each_none {A} (g : A -> @VM D unit) (l : list A) st : Forall (fun a => g a = ret tt) l -> each g l st = Ret st tt.
Proof. induction 1 as [|a l Ha Hl IH]; [done|]. cbn [each]. by rewrite Ha. Qed.

Lemma save_full_puts fuel l e d s :
  described fuel l e d -> loadable fuel d = true -> in_range (prepared d (se_opaque e) s) d (se_opaque e) = true ->
  vputs (save_full e) ([QEMU_VM_SECTION_FULL] ++ section_header e ++ encode (prepared d (se_opaque e) s) d (se_opaque e))
    s (prepared d (se_opaque e) s).
Proof.
  intros Hd Hl Hr. rewrite (de_full _ _ _ _ Hd). pose proof (de_length _ _ _ _ Hd) as Hlen.
  eapply vputs_bind; [apply vputs_file, puts_byte|]. unfold section_header. rewrite <- app_assoc.
  eapply vputs_bind; [apply vputs_file, puts_be32|]. eapply vputs_bind; [|by eapply save_puts].
  eapply vputs_bind; [apply vputs_file; eapply puts_eq; [apply puts_byte|]; by rewrite Z.mod_small by lia|].
  eapply vputs_bind; [apply vputs_file, puts_buffer|]. eapply vputs_bind; apply vputs_file, puts_be32.
Qed.

Lemma save_all_puts fuel l xs s :
  savable fuel l xs s -> vputs (each save_full xs.*1) (sections_of xs s) s (saved xs s).
Proof.
  revert s. induction xs as [|x xs IH]; intros s Hs; [apply vputs_ret|]. cbn [savable sections_of] in *. rewrite fmap_cons. cbn [each].
  destruct Hs as [(Hd & Hl & Hr & _) Hs]. unfold saved. cbn [foldl]. fold (saved xs (prepared_se x s)).
  replace ([QEMU_VM_SECTION_FULL] ++ _) with (([QEMU_VM_SECTION_FULL] ++ section_header x.1 ++ encode (prepared_se x s) x.2 (object x)) ++
    sections_of xs (prepared_se x s)) by (by rewrite <- !app_assoc).
  eapply vputs_bind; [by eapply save_full_puts|by apply IH].
Qed.

Lemma savable_described fuel l xs s : savable fuel l xs s -> Forall (fun e => exists d, described fuel l e d) xs.*1.
Proof.
  revert s. induction xs as [|x xs IH]; intros s Hs; [done|]. destruct Hs as [(Hd & _) Hs].
  rewrite fmap_cons. constructor; [by exists x.2|by eapply IH].
Qed.

Lemma savable_unblocked fuel xs s : savable fuel xs.*1 xs s -> qemu_savevm_state_blocked xs.*1 = false.
Proof.
  intros Hs. pose proof (savable_described _ _ _ _ Hs) as Hd. apply not_true_iff_false.
  intros (e & He & Hb)%existsb_exists. rewrite Forall_forall in Hd.
  destruct (Hd e) as [d Hde]; [by apply list_elem_of_In|]. by rewrite (de_migrate _ _ _ _ Hde) in Hb.
Qed.

Lemma get_error_writing {d0 : D} f ws s : writing d0 f ws -> on_file qemu_file_get_error (mk_vm f s) = Ret (mk_vm f s) 0.
Proof. intros Hw. apply on_file_Ret. unfold qemu_file_get_error. erewrite bind_Ret by reflexivity. by rewrite (wr_error _ _ Hw). Qed.

Lemma savevm_begin fuel l s (d0 : D) f ws :
  Forall (fun e => exists d, described fuel l e d) l -> writing d0 f ws ->
  exists f', qemu_savevm_state_begin l 0 0 (mk_vm f s) = Ret (mk_vm f' s) 0 /\
             writing d0 f' (ws ++ be32 QEMU_VM_FILE_MAGIC ++ be32 QEMU_VM_FILE_VERSION).
Proof.
  intros Hd Hw. unfold qemu_savevm_state_begin.
  rewrite (bind_Ret _ _ _ (mk_vm f s) tt) by (apply each_none, (Forall_impl _ _ _ Hd); intros e [d He]; by rewrite (de_params _ _ _ _ He)).
  destruct (vputs_file _ _ s (puts_be32 QEMU_VM_FILE_MAGIC) d0 f ws Hw) as (f1 & E1 & Hw1).
  destruct (vputs_file _ _ s (puts_be32 QEMU_VM_FILE_VERSION) d0 f1 _ Hw1) as (f2 & E2 & Hw2).
  rewrite (bind_Ret _ _ _ _ _ E1), (bind_Ret _ _ _ _ _ E2). exists f2. rewrite app_assoc. split; [|done].
  rewrite (bind_Ret _ _ _ (mk_vm f2 s) 0) by (rewrite live_rounds_none; [done|];
    apply (Forall_impl _ _ _ Hd); intros e [d He]; exact (de_live _ _ _ _ He)).
  cbn [Z.ltb Z.compare]. by rewrite (bind_Ret _ _ _ _ _ (get_error_writing _ _ s Hw2)).
Qed.

Lemma savevm_writes fuel k xs s (d0 : D) f ws :
  savable fuel xs.*1 xs s -> (0 < k)%nat -> writing d0 f ws ->
  exists f', qemu_savevm_state k xs.*1 (mk_vm f s) = Ret (mk_vm f' (saved xs s)) 0 /\ writing d0 f' (ws ++ snapshot_bytes xs s).
Proof.
  intros Hs Hk Hw. pose proof (savable_unblocked _ _ _ Hs) as Hblk. pose proof (savable_described _ _ _ _ Hs) as Hd. set (l := xs.*1) in *. destruct k as [|k]; [lia|].
  assert (Hlive : Forall (fun e => se_save_live_state e = None) l)
    by (apply (Forall_impl _ _ _ Hd); intros e [d He]; exact (de_live _ _ _ _ He)).
  destruct (savevm_begin fuel l s d0 f ws Hd Hw) as (f1 & E1 & Hw1).
  destruct (save_all_puts fuel l xs s Hs d0 f1 _ Hw1) as (f2 & E2 & Hw2).
  destruct (vputs_file _ _ (saved xs s) (puts_byte QEMU_VM_EOF) d0 f2 _ Hw2) as (f3 & E3 & Hw3).
  exists f3. split; [|rewrite <- !app_assoc in Hw3; exact Hw3].
  unfold qemu_savevm_state. rewrite Hblk, (bind_Ret _ _ _ _ _ E1). cbn [Z.ltb Z.compare iterate_rounds].
  rewrite (bind_Ret _ _ _ (mk_vm f1 s) 1).
  - cbn [Z.ltb Z.compare]. rewrite (bind_Ret _ _ _ (mk_vm f3 (saved xs s)) 0); [exact (get_error_writing _ _ _ Hw3)|].
    unfold qemu_savevm_state_complete. rewrite (bind_Ret _ _ _ (mk_vm f1 s) 0) by (by rewrite live_rounds_none).
    cbn [Z.ltb Z.compare]. rewrite (bind_Ret _ _ _ _ _ E2), (bind_Ret _ _ _ _ _ E3). exact (get_error_writing _ _ _ Hw3).
  - unfold qemu_savevm_state_iterate. rewrite bind_assoc. rewrite (bind_Ret _ _ _ (mk_vm f1 s) 1) by (by rewrite live_rounds_none). done.
Qed.

(** ** Loading *)

Lemma gets_chars bs : Z.of_nat (length bs) < 256 -> gets (D := D) (qemu_get_buffer (Z.of_nat (length bs))) bs bs.
Proof. intros Hl. apply gets_buffer. unfold IO_BUF_SIZE. lia. Qed.

Lemma load_section_brings fuel l e d s tail les t :
  described fuel l e d -> loadable fuel d = true -> in_range s d (se_opaque e) = true -> stable s d (se_opaque e) ->
  clear s d (se_opaque e) tail = true -> (forall t, mem_ok t -> (finished d (se_opaque e) t).2 = 0) -> mem_ok t ->
  exists t1 les', vgets (load_section fuel l QEMU_VM_SECTION_FULL les) (section_header e ++ encode s d (se_opaque e)) tail (inl les') t
                    (finished d (se_opaque e) t1).1 /\
                  restores (covers s d (se_opaque e)) s t t1 /\ mem_ok t1.
Proof.
  intros Hd Hl Hr Hst Hc Hf Hok. destruct (load_brings fuel d Hl (se_opaque e) s tail t Hr Hst Hc Hok) as (t1 & E & R & Hok1).
  rewrite (Hf _ Hok1) in E. eexists t1, _. split; [|done]. unfold load_section, section_header. cbn [Z.eqb Pos.eqb orb].
  rewrite <- !app_assoc. eapply vgets_bind; [apply vgets_file, gets_be32|]. eapply vgets_bind; [apply vgets_file, gets_byte|].
  eapply vgets_bind; [apply vgets_file, gets_chars; exact (de_length _ _ _ _ Hd)|]. rewrite Z.ltb_irrefl.
  eapply vgets_bind; [apply vgets_file, gets_be32|]. eapply vgets_bind; [apply vgets_file, gets_be32|].
  destruct (de_version _ _ _ _ Hd) as [Hv Hvr]. rewrite !(u32_id (u32 _)) by apply u32_range.
  rewrite (c_string_nonzero _ (de_chars _ _ _ _ Hd)).
  replace (wrap32 (u32 (se_instance_id e))) with (se_instance_id e)
    by (symmetry; exact (signed_mod 32 (se_instance_id e) ltac:(lia) (de_instance _ _ _ _ Hd))).
  rewrite (de_find _ _ _ _ Hd), Hv, (u32_id (vd_version_id d)) by lia. zdecide (vd_version_id d >? vd_version_id d).
  rewrite wrap32_id by (unfold in_int; lia). rewrite <- (app_nil_r (encode s d _)).
  eapply vgets_bind; [rewrite (de_load _ _ _ _ Hd), app_nil_l; exact E|]. cbn [Z.ltb Z.compare]. apply vgets_ret.
Qed.

Lemma load_sections_brings k fuel l xs s les t :
  savable fuel l xs s -> (length xs < k)%nat -> mem_ok t ->
  exists t', vgets (load_sections k fuel l les) (sections_of xs s ++ [QEMU_VM_EOF]) [] 0 t t' /\ loads xs s t t' /\ mem_ok t'.
Proof.
  revert k s les t. induction xs as [|x xs IH]; intros k s les t Hs Hk Hok; (destruct k as [|k]; [cbn in Hk; lia|]).
  - exists t. split; [|split; [constructor|done]]. cbn [sections_of load_sections app].
    eapply (vgets_bind _ _ [_] []); [apply vgets_file, gets_byte|apply vgets_ret].
  - cbn [savable sections_of] in *. set (s1 := prepared_se x s) in *. destruct Hs as [(Hd & Hl & Hr & Hst & Hc & Hf) Hs].
    destruct (load_section_brings fuel l x.1 x.2 s1 _ les t Hd Hl Hr Hst Hc) as (t1 & les' & E1 & R1 & Hok1); [|done|].
    { intros t1 Ht1. by apply Hf. }
    destruct (Hf t1 Hok1) as [Hok2 _]. destruct (IH k s1 les' _ Hs ltac:(cbn in Hk; lia) Hok2) as (t' & E2 & L & Hok').
    exists t'. split; [|split; [by eapply loads_cons|done]].
    cbn [load_sections]. rewrite <- (app_assoc [_]). eapply vgets_bind; [apply vgets_file, gets_byte|].
    cbn [Z.eqb QEMU_VM_SECTION_FULL QEMU_VM_EOF]. rewrite <- !app_assoc.
    replace (section_header x.1 ++ _) with ((section_header x.1 ++ encode s1 x.2 (object x)) ++ sections_of xs s1 ++ [QEMU_VM_EOF])
      by (by rewrite <- app_assoc).
    eapply vgets_bind; [rewrite app_nil_r; exact E1|exact E2].
Qed.

(** A store with the bytes of a snapshot is loaded. *)
Lemma loadvm_loads fuel xs s t (b1 : D) :
  savable fuel xs.*1 xs s -> snapshot_bytes xs s `prefix_of` content b1 -> mem_ok t ->
  exists f2 t', qemu_loadvm_state (S (length xs)) fuel xs.*1 (mk_vm (qemu_fopen_bdrv b1 false) t) = Ret (mk_vm f2 t') 0 /\ loads xs s t t' /\
    reading f2 [] /\ qf_opaque f2 = b1.
Proof.
  intros Hs Hc Hok. destruct (load_sections_brings (S (length xs)) fuel _ xs s [] t Hs ltac:(lia) Hok) as (t' & Hg & L & Hok').
  pose proof (fopen_reading b1 _ Hc) as Hr0. rewrite <- (app_nil_r (snapshot_bytes xs s)) in Hr0. unfold snapshot_bytes in Hr0.
  rewrite <- !app_assoc in Hr0.
  destruct (vgets_file _ _ _ _ t (gets_be32 QEMU_VM_FILE_MAGIC) _ Hr0) as (f1 & E1 & Hr1 & He1).
  destruct (vgets_file _ _ _ _ t (gets_be32 QEMU_VM_FILE_VERSION) f1 Hr1) as (f2 & E2 & Hr2 & He2).
  rewrite app_assoc in Hr2. destruct (Hg f2 Hr2) as (f3 & E3 & Hr3 & He3). exists f3, t'.
  assert (He : no_error (qemu_fopen_bdrv b1 false) f3) by (unfold no_error in *; congruence). injection He as He Hop.
  split; [|split; [exact L|by split]].
  unfold qemu_loadvm_state. rewrite (savable_unblocked _ _ _ Hs), (bind_Ret _ _ _ _ _ E1), u32_id by done.
  cbn [Z.eqb Pos.eqb negb QEMU_VM_FILE_MAGIC].
  rewrite (bind_Ret _ _ _ _ _ E2), u32_id by done. cbn [Z.eqb Pos.eqb negb QEMU_VM_FILE_VERSION QEMU_VM_FILE_VERSION_COMPAT].
  rewrite (bind_Ret _ _ _ _ _ E3). cbn [Z.eqb]. apply on_file_Ret. unfold qemu_file_get_error. erewrite bind_Ret by reflexivity.
  by rewrite He.
Qed.

(** A snapshot of any list of registered objects with descriptions, each found by its identifier and holding values of
    its types, is written over whatever the store held, without an error, and loading it into any machine with the same objects succeeds: every section
    finds its object, the object's saved locations come back and the others stay, [post_load] runs, and the next section is
    found where the object ends. *)
Theorem loadvm_savevm fuel xs s t (b0 : D) :
  savable fuel xs.*1 xs s -> mem_ok t ->
  exists f f' b1 f2 t',
    qemu_savevm_state 1 xs.*1 (mk_vm (qemu_fopen_bdrv b0 true) s) = Ret (mk_vm f (saved xs s)) 0 /\
    qemu_fclose f = Ret f' b1 /\ snapshot_bytes xs s `prefix_of` content b1 /\
    qemu_loadvm_state (S (length xs)) fuel xs.*1 (mk_vm (qemu_fopen_bdrv b1 false) t) = Ret (mk_vm f2 t') 0 /\
    loads xs s t t'.
Proof.
  intros Hs Hok. destruct (savevm_writes fuel 1 xs s b0 _ [] Hs ltac:(lia) (fopen_writing b0)) as (f & E & Hw).
  destruct (fclose_writing f _ Hw) as (f' & b1 & E' & Hc & _). cbn [app] in Hc.
  destruct (loadvm_loads fuel xs s t b1 Hs Hc Hok) as (f2 & t' & E2 & L & _). by exists f, f', b1, f2, t'.
Qed.
End snapshot.
