(* ===== verification/Descriptions.v ===== *)
(** * Descriptions.v -- what a snapshot holds of the CPUs and interrupt controllers

    The descriptions of [vmm/target-i386/machine.c] (a CPU with the fields SKI adds
    to it), [vmm/exec.c], [vmm/cpus.c], [vmm/hw/apic.c], [vmm/hw/i8259.c] and
    [vmm/hw/ioapic.c], written with the macros of [vmm/hw/hw.h], and the functions
    they name.  [x86_64] is [TARGET_X86_64]: a CPU of 64 bits has more and wider
    registers.  Breakpoints and the TLB, which are rebuilt after loading, are not
    part of the memory. *)

From stdpp Require Import gmap strings.
From S2P Require Import Prelude CString Timers QemuFile Vmstate SaveVM.

Section descriptions.
Context {D : Type} {backing : Backing D}.

(** ** The macros *)

Abbreviation field := (VMStateField (D := D)).
Abbreviation description := (VMStateDescription (D := D)).

Definition VMSTATE_SINGLE_TEST (name : string) (test : option (addr -> memory -> Z -> bool)) (version : Z)
    (info : VMStateInfo) (size : Z) : field :=
  mk_field name size 0 0 "" "" (Some info) VMS_SINGLE None version test.
Definition VMSTATE_POINTER_TEST (name : string) (test : option (addr -> memory -> Z -> bool)) (info : VMStateInfo) (size : Z) : field :=
  mk_field name size 0 0 "" "" (Some info) (Z.lor VMS_SINGLE VMS_POINTER) None 0 test.
Definition VMSTATE_ARRAY (name : string) (num version : Z) (info : VMStateInfo) (size : Z) : field :=
  mk_field name size 0 num "" "" (Some info) VMS_ARRAY None version None.
Definition VMSTATE_ARRAY_TEST (name : string) (num : Z) (test : addr -> memory -> Z -> bool) (info : VMStateInfo) (size : Z) : field :=
  mk_field name size 0 num "" "" (Some info) VMS_ARRAY None 0 (Some test).
Definition VMSTATE_VARRAY_UINT32 (name num_name : string) (version : Z) (info : VMStateInfo) (size : Z) : field :=
  mk_field name size 0 0 num_name "" (Some info) (Z.lor VMS_VARRAY_UINT32 VMS_POINTER) None version None.
Definition VMSTATE_STRUCT_ARRAY (name : string) (num version : Z) (vmsd : description) (size : Z) : field :=
  mk_field name size 0 num "" "" None (Z.lor VMS_STRUCT VMS_ARRAY) (Some vmsd) version None.
Definition VMSTATE_UNUSED_V (version size : Z) : field :=
  mk_field "unused" size 0 0 "" "" (Some vmstate_info_unused_buffer) VMS_BUFFER None version None.

Definition VMSTATE_BOOL_V (name : string) (v : Z) : field := VMSTATE_SINGLE_TEST name None v vmstate_info_bool 1.
Definition VMSTATE_INT32_V (name : string) (v : Z) : field := VMSTATE_SINGLE_TEST name None v vmstate_info_int32 4.
Definition VMSTATE_INT64_V (name : string) (v : Z) : field := VMSTATE_SINGLE_TEST name None v vmstate_info_int64 8.
Definition VMSTATE_UINT8_V (name : string) (v : Z) : field := VMSTATE_SINGLE_TEST name None v vmstate_info_uint8 1.
Definition VMSTATE_UINT16_V (name : string) (v : Z) : field := VMSTATE_SINGLE_TEST name None v vmstate_info_uint16 2.
Definition VMSTATE_UINT32_V (name : string) (v : Z) : field := VMSTATE_SINGLE_TEST name None v vmstate_info_uint32 4.
Definition VMSTATE_UINT64_V (name : string) (v : Z) : field := VMSTATE_SINGLE_TEST name None v vmstate_info_uint64 8.
Definition VMSTATE_INT32 (name : string) : field := VMSTATE_INT32_V name 0.
Definition VMSTATE_INT64 (name : string) : field := VMSTATE_INT64_V name 0.
Definition VMSTATE_UINT8 (name : string) : field := VMSTATE_UINT8_V name 0.
Definition VMSTATE_UINT16 (name : string) : field := VMSTATE_UINT16_V name 0.
Definition VMSTATE_UINT32 (name : string) : field := VMSTATE_UINT32_V name 0.
Definition VMSTATE_UINT64 (name : string) : field := VMSTATE_UINT64_V name 0.
Definition VMSTATE_UINT32_TEST (name : string) (t : addr -> memory -> Z -> bool) : field :=
  VMSTATE_SINGLE_TEST name (Some t) 0 vmstate_info_uint32 4.
Definition VMSTATE_TIMER (name : string) : field := VMSTATE_POINTER_TEST name None vmstate_info_timer 8.
Definition VMSTATE_UINT32_ARRAY_V (name : string) (n v : Z) : field := VMSTATE_ARRAY name n v vmstate_info_uint32 4.
Definition VMSTATE_UINT64_ARRAY_V (name : string) (n v : Z) : field := VMSTATE_ARRAY name n v vmstate_info_uint64 8.
Definition VMSTATE_UINT32_ARRAY (name : string) (n : Z) : field := VMSTATE_UINT32_ARRAY_V name n 0.
Definition VMSTATE_UINT64_ARRAY (name : string) (n : Z) : field := VMSTATE_UINT64_ARRAY_V name n 0.
Definition VMSTATE_UINTTL_V (x86_64 : bool) (name : string) (v : Z) : field :=
  if x86_64 then VMSTATE_UINT64_V name v else VMSTATE_UINT32_V name v.
Definition VMSTATE_UINTTL (x86_64 : bool) (name : string) : field := VMSTATE_UINTTL_V x86_64 name 0.
Definition VMSTATE_UINTTL_ARRAY (x86_64 : bool) (name : string) (n : Z) : field :=
  if x86_64 then VMSTATE_UINT64_ARRAY_V name n 0 else VMSTATE_UINT32_ARRAY_V name n 0.

(** A description with one version. *)
Definition vmsd_v1 (name : string) (fields : list field) : description :=
  mk_vmsd name false 1 1 1 None None None None fields [].

(** ** Interrupt controllers *)

Definition vmstate_pic : description :=
  mk_vmsd "i8259" false 1 1 1 None None None None
    [VMSTATE_UINT8 "last_irr"; VMSTATE_UINT8 "irr"; VMSTATE_UINT8 "imr"; VMSTATE_UINT8 "isr"; VMSTATE_UINT8 "priority_add";
     VMSTATE_UINT8 "irq_base"; VMSTATE_UINT8 "read_reg_select"; VMSTATE_UINT8 "poll"; VMSTATE_UINT8 "special_mask";
     VMSTATE_UINT8 "init_state"; VMSTATE_UINT8 "auto_eoi"; VMSTATE_UINT8 "rotate_on_auto_eoi";
     VMSTATE_UINT8 "special_fully_nested_mode"; VMSTATE_UINT8 "init4"; VMSTATE_UINT8 "single_mode"; VMSTATE_UINT8 "elcr"] [].

Definition ioapic_post_load (opaque : addr) (version_id : Z) (m : memory) : memory * Z :=
  (if version_id =? 1 then store (("irr", 0%nat) :: opaque) 0 m else m, 0).
Definition vmstate_ioapic : description :=
  mk_vmsd "ioapic" false 3 1 1 None None (Some ioapic_post_load) None
    [VMSTATE_UINT8 "id"; VMSTATE_UINT8 "ioregsel"; VMSTATE_UNUSED_V 2 8; VMSTATE_UINT32_V "irr" 2;
     VMSTATE_UINT64_ARRAY "ioredtbl" 24] [].

(** Versions 1 and 2. *)
Definition old_field (opaque : addr) (m : QF D Z) (conv : Z -> Z) (ni : string * nat) : VM unit :=
  v <- on_file m ;; modify_mem (store (ni :: opaque) (conv v)).
Definition apic_load_old (opaque : addr) (version_id : Z) : VM Z :=
  if version_id >? 2 then ret (- EINVAL)
  else
    let be32 n := old_field opaque qemu_get_be32 (fun v => v) (n, 0%nat) in
    let u8 n := old_field opaque qemu_get_byte (fun v => v) (n, 0%nat) in
    be32 "apicbase" ;;; u8 "id" ;;; u8 "arb_id" ;;; u8 "tpr" ;;; be32 "spurious_vec" ;;; u8 "log_dest" ;;; u8 "dest_mode" ;;;
    for_each (seq 0 8) (fun i =>
      old_field opaque qemu_get_be32 (fun v => v) ("isr", i) ;;; old_field opaque qemu_get_be32 (fun v => v) ("tmr", i) ;;;
      old_field opaque qemu_get_be32 (fun v => v) ("irr", i)) ;;;
    for_each (seq 0 6) (fun i => old_field opaque qemu_get_be32 (fun v => v) ("lvt", i)) ;;;
    be32 "esr" ;;; old_field opaque qemu_get_be32 (fun v => v) ("icr", 0%nat) ;;;
    old_field opaque qemu_get_be32 (fun v => v) ("icr", 1%nat) ;;; be32 "divide_conf" ;;;
    old_field opaque qemu_get_be32 wrap32 ("count_shift", 0%nat) ;;; be32 "initial_count" ;;;
    old_field opaque qemu_get_be64 wrap64 ("initial_count_load_time", 0%nat) ;;;
    old_field opaque qemu_get_be64 wrap64 ("next_time", 0%nat) ;;;
    when (version_id >=? 2) (qemu_get_timer (("timer", 0%nat) :: opaque)) ;;;
    ret 0.
Definition vmstate_apic : description :=
  mk_vmsd "apic" false 3 3 1 (Some apic_load_old) None None None
    [VMSTATE_UINT32 "apicbase"; VMSTATE_UINT8 "id"; VMSTATE_UINT8 "arb_id"; VMSTATE_UINT8 "tpr"; VMSTATE_UINT32 "spurious_vec";
     VMSTATE_UINT8 "log_dest"; VMSTATE_UINT8 "dest_mode"; VMSTATE_UINT32_ARRAY "isr" 8; VMSTATE_UINT32_ARRAY "tmr" 8;
     VMSTATE_UINT32_ARRAY "irr" 8; VMSTATE_UINT32_ARRAY "lvt" 6; VMSTATE_UINT32 "esr"; VMSTATE_UINT32_ARRAY "icr" 2;
     VMSTATE_UINT32 "divide_conf"; VMSTATE_INT32 "count_shift"; VMSTATE_UINT32 "initial_count";
     VMSTATE_INT64 "initial_count_load_time"; VMSTATE_INT64 "next_time"; VMSTATE_TIMER "timer"] [].

(** ** CPUs and the virtual clock *)

(** Bit 0 was [CPU_INTERRUPT_EXIT]. *)
Definition cpu_common_post_load (opaque : addr) (version_id : Z) (m : memory) : memory * Z :=
  let a := ("interrupt_request", 0%nat) :: opaque in (store a (Z.land (cell a m) (Z.lnot 1)) m, 0).
Definition vmstate_cpu_common : description :=
  mk_vmsd "cpu_common" false 1 1 1 None None (Some cpu_common_post_load) None
    [VMSTATE_UINT32 "halted"; VMSTATE_UINT32 "interrupt_request"] [].

Definition vmstate_timers : description :=
  mk_vmsd "timer" false 2 1 1 None None None None
    [VMSTATE_INT64 "cpu_ticks_offset"; VMSTATE_INT64 "dummy"; VMSTATE_INT64_V "cpu_clock_offset" 2] [].

Definition CPU_NB_REGS (x86_64 : bool) : Z := if x86_64 then 16 else 8.
Definition MCE_BANKS_DEF : Z := 10.
Definition MSR_IA32_MISC_ENABLE_DEFAULT : Z := 1.
Definition CPU_SAVE_VERSION : Z := 12.

Definition vmstate_segment (x86_64 : bool) : description :=
  vmsd_v1 "segment" [VMSTATE_UINT32 "selector"; VMSTATE_UINTTL x86_64 "base"; VMSTATE_UINT32 "limit"; VMSTATE_UINT32 "flags"].
Definition VMSTATE_SEGMENT (x86_64 : bool) (name : string) : field :=
  mk_field name (if x86_64 then 24 else 16) 0 0 "" "" None VMS_STRUCT (Some (vmstate_segment x86_64)) 0 None.
Definition VMSTATE_SEGMENT_ARRAY (x86_64 : bool) (name : string) (n : Z) : field :=
  VMSTATE_STRUCT_ARRAY name n 0 (vmstate_segment x86_64) (if x86_64 then 24 else 16).
Definition vmstate_xmm_reg : description := vmsd_v1 "xmm_reg" [VMSTATE_UINT64 "XMM_Q(0)"; VMSTATE_UINT64 "XMM_Q(1)"].
Definition VMSTATE_XMM_REGS (name : string) (n : Z) : field := VMSTATE_STRUCT_ARRAY name n 0 vmstate_xmm_reg 16.
Definition vmstate_ymmh_reg : description := vmsd_v1 "ymmh_reg" [VMSTATE_UINT64 "XMM_Q(0)"; VMSTATE_UINT64 "XMM_Q(1)"].
Definition VMSTATE_YMMH_REGS_VARS (name : string) (n v : Z) : field := VMSTATE_STRUCT_ARRAY name n v vmstate_ymmh_reg 16.
Definition vmstate_mtrr_var : description := vmsd_v1 "mtrr_var" [VMSTATE_UINT64 "base"; VMSTATE_UINT64 "mask"].
Definition VMSTATE_MTRR_VARS (name : string) (n v : Z) : field := VMSTATE_STRUCT_ARRAY name n v vmstate_mtrr_var 16.

Definition fpregs_is_0 (opaque : addr) (m : memory) (version_id : Z) : bool :=
  cell (("fpregs_format_vmstate", 0%nat) :: opaque) m =? 0.
Definition guess_mmx (opaque : addr) (m : memory) : bool :=
  (cell (("fptag_vmstate", 0%nat) :: opaque) m =? 255) && (Z.land (cell (("fpus_vmstate", 0%nat) :: opaque) m) 14336 =? 0).
Definition fpregs_is_1_mmx (opaque : addr) (m : memory) (version_id : Z) : bool :=
  guess_mmx opaque m && (cell (("fpregs_format_vmstate", 0%nat) :: opaque) m =? 1).
Definition fpregs_is_1_no_mmx (opaque : addr) (m : memory) (version_id : Z) : bool :=
  negb (guess_mmx opaque m) && (cell (("fpregs_format_vmstate", 0%nat) :: opaque) m =? 1).
Definition VMSTATE_FP_REGS (name : string) (n : Z) : list field :=
  [VMSTATE_ARRAY_TEST name n fpregs_is_0 vmstate_fpreg 16; VMSTATE_ARRAY_TEST name n fpregs_is_1_mmx vmstate_fpreg_1_mmx 16;
   VMSTATE_ARRAY_TEST name n fpregs_is_1_no_mmx vmstate_fpreg_1_no_mmx 16].

Definition version_is_5 (opaque : addr) (m : memory) (version_id : Z) : bool := version_id =? 5.
Definition less_than_7 (opaque : addr) (m : memory) (version_id : Z) : bool := version_id <? 7.
Definition VMSTATE_HACK_UINT32 (name : string) (t : addr -> memory -> Z -> bool) : field :=
  VMSTATE_SINGLE_TEST name (Some t) 0 vmstate_hack_uint64_as_uint32 8.

Definition cpu_pre_save (opaque : addr) (m : memory) : memory :=
  let at_ n := cell ((n, 0%nat) :: opaque) m in
  let tags := foldl (fun tags i => Z.lor tags (Z.shiftl (b2z (cell (("fptags", i) :: opaque) m =? 0)) (Z.of_nat i))) 0 (seq 0 8) in
  store (("fpregs_format_vmstate", 0%nat) :: opaque) 0
    (store (("fptag_vmstate", 0%nat) :: opaque) tags
      (store (("fpus_vmstate", 0%nat) :: opaque)
        (Z.lor (Z.land (at_ "fpus") (Z.lnot 14336)) (Z.shiftl (Z.land (at_ "fpstt") 7) 11) mod 2 ^ 16) m)).

(** The flag [ski_snapshot_restoring] is a global variable. *)
Definition restoring_flag : addr := [("ski_snapshot_restoring", 0%nat)].
Definition cpu_post_load (opaque : addr) (version_id : Z) (m : memory) : memory * Z :=
  let fpus_vmstate := cell (("fpus_vmstate", 0%nat) :: opaque) m in
  let tags := Z.lxor (cell (("fptag_vmstate", 0%nat) :: opaque) m) 255 in
  let m := store (("fpstt", 0%nat) :: opaque) (Z.land (Z.shiftr fpus_vmstate 11) 7) m in
  let m := store (("fpus", 0%nat) :: opaque) (Z.land fpus_vmstate (Z.lnot 14336)) m in
  let m := store (("fptag_vmstate", 0%nat) :: opaque) tags m in
  let m := foldl (fun m i => store (("fptags", i) :: opaque) (Z.land (Z.shiftr tags (Z.of_nat i)) 1) m) m (seq 0 8) in
  (if c_true (cell (("ski_active", 0%nat) :: opaque) m) then store restoring_flag 1 m else m, 0).

Definition async_pf_msr_needed (opaque : addr) (m : memory) : bool := c_true (cell (("async_pf_en_msr", 0%nat) :: opaque) m).
Definition vmstate_async_pf_msr : description := vmsd_v1 "cpu/async_pf_msr" [VMSTATE_UINT64 "async_pf_en_msr"].
Definition fpop_ip_dp_needed (opaque : addr) (m : memory) : bool :=
  c_true (cell (("fpop", 0%nat) :: opaque) m) || c_true (cell (("fpip", 0%nat) :: opaque) m) ||
  c_true (cell (("fpdp", 0%nat) :: opaque) m).
Definition vmstate_fpop_ip_dp : description :=
  vmsd_v1 "cpu/fpop_ip_dp" [VMSTATE_UINT16 "fpop"; VMSTATE_UINT64 "fpip"; VMSTATE_UINT64 "fpdp"].
Definition tscdeadline_needed (opaque : addr) (m : memory) : bool := c_true (cell (("tsc_deadline", 0%nat) :: opaque) m).
Definition vmstate_msr_tscdeadline : description := vmsd_v1 "cpu/msr_tscdeadline" [VMSTATE_UINT64 "tsc_deadline"].
Definition misc_enable_needed (opaque : addr) (m : memory) : bool :=
  negb (cell (("msr_ia32_misc_enable", 0%nat) :: opaque) m =? MSR_IA32_MISC_ENABLE_DEFAULT).
Definition vmstate_msr_ia32_misc_enable : description := vmsd_v1 "cpu/msr_ia32_misc_enable" [VMSTATE_UINT64 "msr_ia32_misc_enable"].

Definition cpu_subsections : list VMStateSubsection :=
  [mk_subsection vmstate_async_pf_msr async_pf_msr_needed; mk_subsection vmstate_fpop_ip_dp fpop_ip_dp_needed;
   mk_subsection vmstate_msr_tscdeadline tscdeadline_needed; mk_subsection vmstate_msr_ia32_misc_enable misc_enable_needed].

(** The fields in front of the floating-point registers, and those behind them; the
    last ones are SKI's. *)
Definition cpu_fields_before (x86_64 : bool) : list field :=
  [VMSTATE_UINTTL_ARRAY x86_64 "regs" (CPU_NB_REGS x86_64); VMSTATE_UINTTL x86_64 "eip"; VMSTATE_UINTTL x86_64 "eflags";
   VMSTATE_UINT32 "hflags"; VMSTATE_UINT16 "fpuc"; VMSTATE_UINT16 "fpus_vmstate"; VMSTATE_UINT16 "fptag_vmstate";
   VMSTATE_UINT16 "fpregs_format_vmstate"].
Definition cpu_ski_fields : list field :=
  [VMSTATE_BOOL_V "ski_active" 5;
   VMSTATE_INT32_V "ski_cpu.nr_cpus" 5; VMSTATE_INT32_V "ski_cpu.nr_max_instr" 5; VMSTATE_INT32_V "ski_cpu.bug_depth" 5;
   VMSTATE_INT32_V "ski_cpu.state" 5; VMSTATE_INT32_V "ski_cpu.nr_instr_executed" 5;
   VMSTATE_INT32_V "ski_cpu.nr_instr_executed_other" 5; VMSTATE_INT32_V "ski_cpu.priority" 5;
   VMSTATE_INT32_V "ski_cpu.priority_adjust" 5; VMSTATE_BOOL_V "ski_cpu.blocked" 5;
   VMSTATE_UINT32_ARRAY_V "ski_cpu.ski_ignore_interrupts" 8 5;
   VMSTATE_INT32_V "ski_cpu.nr_syscalls_self" 5; VMSTATE_INT32_V "ski_cpu.nr_interrupts_self" 5;
   VMSTATE_INT32_V "ski_cpu.nr_syscalls_other" 5; VMSTATE_INT32_V "ski_cpu.nr_interrupts_other" 5;
   VMSTATE_INT32_V "ski_cpu.cr3" 5; VMSTATE_INT32_V "ski_cpu.gdt" 5; VMSTATE_BOOL_V "ski_cpu.last_enter_cpu" 5;
   VMSTATE_BOOL_V "ski_old_stop" 5; VMSTATE_BOOL_V "ski_old_stopped" 5].
Definition cpu_fields_behind (x86_64 : bool) : list field :=
  [VMSTATE_SEGMENT_ARRAY x86_64 "segs" 6; VMSTATE_SEGMENT x86_64 "ldt"; VMSTATE_SEGMENT x86_64 "tr"; VMSTATE_SEGMENT x86_64 "gdt";
   VMSTATE_SEGMENT x86_64 "idt"; VMSTATE_UINT32 "sysenter_cs"] ++
  (if x86_64 then
     [VMSTATE_HACK_UINT32 "sysenter_esp" less_than_7; VMSTATE_HACK_UINT32 "sysenter_eip" less_than_7;
      VMSTATE_UINTTL_V x86_64 "sysenter_esp" 7; VMSTATE_UINTTL_V x86_64 "sysenter_eip" 7]
   else [VMSTATE_UINTTL x86_64 "sysenter_esp"; VMSTATE_UINTTL x86_64 "sysenter_eip"]) ++
  [VMSTATE_UINTTL x86_64 "cr[0]"; VMSTATE_UINTTL x86_64 "cr[2]"; VMSTATE_UINTTL x86_64 "cr[3]"; VMSTATE_UINTTL x86_64 "cr[4]";
   VMSTATE_UINTTL_ARRAY x86_64 "dr" 8; VMSTATE_INT32 "a20_mask"; VMSTATE_UINT32 "mxcsr";
   VMSTATE_XMM_REGS "xmm_regs" (CPU_NB_REGS x86_64)] ++
  (if x86_64 then
     [VMSTATE_UINT64 "efer"; VMSTATE_UINT64 "star"; VMSTATE_UINT64 "lstar"; VMSTATE_UINT64 "cstar"; VMSTATE_UINT64 "fmask";
      VMSTATE_UINT64 "kernelgsbase"]
   else []) ++
  [VMSTATE_UINT32_V "smbase" 4; VMSTATE_UINT64_V "pat" 5; VMSTATE_UINT32_V "hflags2" 5; VMSTATE_UINT32_TEST "halted" version_is_5;
   VMSTATE_UINT64_V "vm_hsave" 5; VMSTATE_UINT64_V "vm_vmcb" 5; VMSTATE_UINT64_V "tsc_offset" 5; VMSTATE_UINT64_V "intercept" 5;
   VMSTATE_UINT16_V "intercept_cr_read" 5; VMSTATE_UINT16_V "intercept_cr_write" 5; VMSTATE_UINT16_V "intercept_dr_read" 5;
   VMSTATE_UINT16_V "intercept_dr_write" 5; VMSTATE_UINT32_V "intercept_exceptions" 5; VMSTATE_UINT8_V "v_tpr" 5;
   VMSTATE_UINT64_ARRAY_V "mtrr_fixed" 11 8; VMSTATE_UINT64_V "mtrr_deftype" 8; VMSTATE_MTRR_VARS "mtrr_var" 8 8;
   VMSTATE_INT32_V "interrupt_injected" 9; VMSTATE_UINT32_V "mp_state" 9; VMSTATE_UINT64_V "tsc" 9;
   VMSTATE_INT32_V "exception_injected" 11; VMSTATE_UINT8_V "soft_interrupt" 11; VMSTATE_UINT8_V "nmi_injected" 11;
   VMSTATE_UINT8_V "nmi_pending" 11; VMSTATE_UINT8_V "has_error_code" 11; VMSTATE_UINT32_V "sipi_vector" 11;
   VMSTATE_UINT64_V "mcg_cap" 10; VMSTATE_UINT64_V "mcg_status" 10; VMSTATE_UINT64_V "mcg_ctl" 10;
   VMSTATE_UINT64_ARRAY_V "mce_banks" (MCE_BANKS_DEF * 4) 10; VMSTATE_UINT64_V "tsc_aux" 11; VMSTATE_UINT64_V "system_time_msr" 11;
   VMSTATE_UINT64_V "wall_clock_msr" 11; VMSTATE_UINT64_V "xcr0" 12; VMSTATE_UINT64_V "xstate_bv" 12;
   VMSTATE_YMMH_REGS_VARS "ymmh_regs" (CPU_NB_REGS x86_64) 12] ++ cpu_ski_fields.
Definition vmstate_cpu (x86_64 : bool) : description :=
  mk_vmsd "cpu" false CPU_SAVE_VERSION 3 3 None None (Some cpu_post_load) (Some cpu_pre_save)
    (cpu_fields_before x86_64 ++ VMSTATE_FP_REGS "fpregs" 8 ++ cpu_fields_behind x86_64) cpu_subsections.

Definition cpu_save (x86_64 : bool) (opaque : addr) : VM unit := vmstate_save_state (vmstate_cpu x86_64) opaque.
Definition cpu_load (x86_64 : bool) (fuel : nat) (opaque : addr) (version_id : Z) : VM Z :=
  vmstate_load_state fuel (vmstate_cpu x86_64) opaque version_id.

(** ** Registration *)

(** The part of [cpu_exec_init] that registers a CPU, [qdev_init] for a device whose
    bus has no paths, and the order in which the machine is built: the clock, every
    CPU with its local APIC, the 8259 controllers, the IO-APIC. *)
Definition register_cpu (x86_64 : bool) (fuel : nat) (e : nat) : M (registry (D := D)) unit :=
  vmstate_register None (Z.of_nat e) vmstate_cpu_common [("cpu", e)] ;;;
  register_savevm None (str "cpu") (Z.of_nat e) CPU_SAVE_VERSION (Some (cpu_save x86_64 [("cpu", e)]))
    (Some (cpu_load x86_64 fuel [("cpu", e)])) [("cpu", e)] ;;;
  ret tt.
Definition register_device (vmsd : description) (dev : addr) : M (registry (D := D)) unit :=
  vmstate_register_with_alias_id None (-1) vmsd dev (-1) 0 ;;; ret tt.
Definition register_board (x86_64 : bool) (fuel cpus : nat) : M (registry (D := D)) unit :=
  vmstate_register None 0 vmstate_timers [("timers_state", 0%nat)] ;;;
  for_each (seq 0 cpus) (fun e => register_cpu x86_64 fuel e ;;; register_device vmstate_apic [("apic", e)]) ;;;
  register_device vmstate_pic [("i8259", 0%nat)] ;;; register_device vmstate_pic [("i8259", 1%nat)] ;;;
  register_device vmstate_ioapic [("ioapic", 0%nat)].
End descriptions.
