(* ===== verification/Snapshot.v ===== *)
(** * Snapshot.v -- which locations a snapshot brings back

    For descriptions whose tests do not look at the object, and for the description
    of a CPU: the condition [stable] of [VmstateRoundtrip] holds.  For objects that
    share a memory: which cells a description covers, and what a sequence of loaded
    sections does to a location that some of them carry and the others pass. *)

From stdpp Require Import gmap strings.
From S2P Require Import Prelude CString Timers QemuFile Vmstate VmstateRoundtrip SaveVM SaveVMRoundtrip Descriptions.

(** ** Descriptions whose tests do not look at the object *)

Section static.
Context {D : Type}.
Implicit Types (d : VMStateDescription (D := D)) (f : VMStateField (D := D)).

Definition fixed_size f : bool :=
  negb (has_flag VMS_VBUFFER f) && negb (has_flag VMS_VARRAY_INT32 f) && negb (has_flag VMS_VARRAY_UINT32 f) &&
  negb (has_flag VMS_VARRAY_UINT16 f) && negb (has_flag VMS_VARRAY_UINT8 f).
Definition static_field (v : Z) f : bool :=
  match vf_field_exists f with None => vf_version_id f <=? v | Some _ => false end && fixed_size f.
Fixpoint static d {struct d} : bool :=
  forallb (fun f => static_field (vd_version_id d) f && match vf_vmsd f with Some d' => static d' | None => true end) (vd_fields d) &&
  forallb (fun sub => static (sub_vmsd sub)) (vd_subsections d).

Lemma fixed_shape f p s t : fixed_size f = true -> load_n_elems f p t = save_n_elems f p s /\ field_size f p t = field_size f p s.
Proof.
  unfold fixed_size, load_n_elems, save_n_elems, field_size. rewrite !andb_true_iff, !negb_true_iff.
  intros [[[[-> ->] ->] ->] ->]. done.
Qed.

(** A test that looks at the version only. *)
Lemma determined_version p v s seen f (b : bool) :
  (forall m, load_present f p v m = b) -> (forall m, save_present f p v m = b) -> fixed_size f = true -> determined p v s seen f.
Proof. intros Hl Hs Hf t _. rewrite Hl, Hs. split; [done|]. intros _. by apply fixed_shape. Qed.

(** A test that looks at cells [cs] that are loaded before. *)
Lemma determined_test p v s seen f test (cs : list addr) :
  vf_field_exists f = Some test -> fixed_size f = true -> Forall (fun a => Cell a ∈ seen) cs ->
  (forall s t, Forall (fun a => cell a t = cell a s) cs -> test p t v = test p s v) -> determined p v s seen f.
Proof.
  intros He Hf Hcs Ht t Hag. unfold load_present, save_present. rewrite He. split; [|intros _; by apply fixed_shape].
  apply Ht. apply (Forall_impl _ _ _ Hcs). intros a Ha. exact (Hag _ Ha).
Qed.

Lemma determined_static p v s seen f : static_field v f = true -> determined p v s seen f.
Proof.
  unfold static_field. intros [He Hf]%andb_true_iff. apply (determined_version _ _ _ _ _ true); [..|done];
    intros m; unfold load_present, save_present; by destruct (vf_field_exists f).
Qed.

Lemma stable_fields_static p v s seen (fs : list (VMStateField (D := D))) :
  (forall f d', f ∈ fs -> vf_vmsd f = Some d' -> forall a, stable s d' a) ->
  forallb (static_field v) fs = true -> stable_fields (covers s) (stable s) p v s seen fs.
Proof.
  intros Hn. revert seen. induction fs as [|f fs IH]; intros seen Hs; [done|]. cbn [forallb] in Hs. apply andb_true_iff in Hs as [Hf Hs].
  cbn [stable_fields]. split; [by apply determined_static|]. split; [|apply IH; [|done]; intros g d' Hg; apply Hn; by right].
  intros _ i _. unfold at_element. destruct (has_flag VMS_STRUCT f); [|by destruct (vf_info f)].
  destruct (vf_vmsd f) as [d'|] eqn:Hd; [|done]. apply (Hn f); [by left|done].
Qed.

Lemma stable_fields_app p v s seen (fs1 fs2 : list (VMStateField (D := D))) :
  stable_fields (covers s) (stable s) p v s seen (fs1 ++ fs2) <->
  stable_fields (covers s) (stable s) p v s seen fs1 /\
  stable_fields (covers s) (stable s) p v s (seen ++ flat_map (covers_field (covers s) p v s) fs1) fs2.
Proof.
  revert seen. induction fs1 as [|f fs1 IH]; intros seen.
  - cbn. rewrite app_nil_r. tauto.
  - cbn [app stable_fields flat_map]. rewrite IH, app_assoc. tauto.
Qed.

Lemma static_stable d : static d = true -> forall s p, stable s d p.
Proof.
  induction d as [d IHf IHs] using vmsd_induction. intros Hd s p. destruct d as [name um ver mv mvo old pl po ps fields subs].
  cbn [static stable vd_fields vd_subsections vd_version_id] in *. apply andb_true_iff in Hd as [Hf Hs]. split.
  - apply stable_fields_static.
    + intros f d' Hin Hd a. apply (IHf f d' Hin Hd). pose proof (forallb_elem _ _ _ Hf Hin) as H. cbn beta in H.
      rewrite Hd in H. by apply andb_true_iff in H as [_ H].
    + apply forallb_forall. intros f Hin. rewrite forallb_forall in Hf. by apply Hf, andb_true_iff in Hin as [Hin _].
  - clear IHf Hf. induction subs as [|sub subs IH]; [done|]. cbn [forallb foldr] in *. apply andb_true_iff in Hs as [Hsub Hs].
    split; [intros _; apply IHs; [by left|done]|]. apply IH; [|done]. intros sub' Hin. apply IHs. by right.
Qed.

(** Fields with such a description, and fields whose test on the version fails. *)
Definition steady_field p (v : Z) f : Prop :=
  static_field v f && match vf_vmsd f with Some d' => static d' | None => true end = true \/
  (fixed_size f = true /\ forall m, load_present f p v m = false /\ save_present f p v m = false).

Lemma stable_steady p v s seen (fs : list (VMStateField (D := D))) :
  Forall (steady_field p v) fs -> stable_fields (covers s) (stable s) p v s seen fs.
Proof.
  intros Hl. revert seen. induction Hl as [|f fs Hf Hl IH]; intros seen; [done|]. cbn [stable_fields].
  destruct Hf as [[Hst Hn]%andb_true_iff|[Hsz Hno]].
  - split; [by apply determined_static|]. split; [|done]. intros _ i _. unfold at_element.
    destruct (has_flag VMS_STRUCT f); [|by destruct (vf_info f)]. destruct (vf_vmsd f); [|done]. by apply static_stable.
  - split; [apply (determined_version _ _ _ _ _ false); [intros m; apply Hno..|done]|].
    split; [|done]. intros Hp. destruct (Hno s) as [_ Hs]. by rewrite Hs in Hp.
Qed.
End static.

(** ** A CPU's description *)

Section cpu.
Context {D : Type} {backing : Backing D}.

Lemma pic_static : static (vmstate_pic (D := D)) = true. Proof. done. Qed.
Lemma ioapic_static : static (vmstate_ioapic (D := D)) = true. Proof. done. Qed.
Lemma apic_static : static (vmstate_apic (D := D)) = true. Proof. done. Qed.

(** Everything behind the floating-point registers but two tests on the version. *)
Lemma cpu_behind_stable x86_64 p s seen :
  stable_fields (covers s) (stable s) p CPU_SAVE_VERSION s seen (cpu_fields_behind (D := D) x86_64).
Proof.
  apply stable_steady. destruct x86_64; unfold cpu_fields_behind; cbn [app cpu_ski_fields];
    repeat (apply Forall_cons_2; [first [left; reflexivity|right; by split]|]); by apply Forall_nil_2.
Qed.

(** The cells the tests on the format of the floating-point registers look at. *)
Definition fp_cells (p : addr) : list addr :=
  [("fpregs_format_vmstate", 0%nat) :: p; ("fptag_vmstate", 0%nat) :: p; ("fpus_vmstate", 0%nat) :: p].

Lemma fp_cells_before x86_64 p s :
  Forall (fun a => Cell a ∈ flat_map (covers_field (covers s) p CPU_SAVE_VERSION s) (cpu_fields_before (D := D) x86_64)) (fp_cells p).
Proof.
  assert (H : forall n, VMSTATE_UINT16 (D := D) n ∈ cpu_fields_before x86_64 ->
            Cell ((n, 0%nat) :: p) ∈ flat_map (covers_field (covers s) p CPU_SAVE_VERSION s) (cpu_fields_before (D := D) x86_64)).
  { intros n Hn. apply list_elem_of_In, in_flat_map. exists (VMSTATE_UINT16 n). split; [by apply list_elem_of_In|by left]. }
  repeat constructor; apply H; unfold cpu_fields_before; rewrite !elem_of_cons; tauto.
Qed.

Lemma fpregs_stable p s seen :
  Forall (fun a => Cell a ∈ seen) (fp_cells p) ->
  stable_fields (covers s) (stable s) p CPU_SAVE_VERSION s seen (VMSTATE_FP_REGS (D := D) "fpregs" 8).
Proof.
  intros Hc. assert (Happ : forall l, Forall (fun a => Cell a ∈ seen ++ l) (fp_cells p)).
  { intros l. apply (Forall_impl _ _ _ Hc). intros a. rewrite elem_of_app. tauto. }
  split; [|split; [by intros _ i _|]]; [|split; [|split; [by intros _ i _|]]]; [| |split; [|split; [by intros _ i _|done]]].
  all: eapply determined_test; [reflexivity|done|by rewrite <- ?app_assoc; (exact Hc || apply Happ)|].
  all: intros s1 t1 Hag; unfold fp_cells in Hag; rewrite !Forall_cons in Hag; destruct Hag as (H1 & H2 & H3 & _).
  all: unfold fpregs_is_0, fpregs_is_1_mmx, fpregs_is_1_no_mmx, guess_mmx; by rewrite ?H1, ?H2, ?H3.
Qed.

Lemma cpu_stable x86_64 p s : stable s (vmstate_cpu (D := D) x86_64) p.
Proof.
  split; [|by repeat (split; [intros _; by apply static_stable|])].
  cbn [vd_fields vd_version_id vmstate_cpu]. rewrite !stable_fields_app. split; [|split].
  - apply stable_steady. by destruct x86_64; repeat (apply Forall_cons_2; [left; reflexivity|]); apply Forall_nil_2.
  - apply fpregs_stable. apply fp_cells_before.
  - apply cpu_behind_stable.
Qed.
End cpu.

(** ** Registers *)

(** The registers of a device: name of the field, number of the element, value. *)
Definition registers : Type := list (string * nat * Z).
Definition array_of (n : string) (l : list Z) : registers := imap (fun i v => (n, i, v)) l.

(** The object [p] holds the registers [regs]. *)
Definition holds (p : addr) (m : memory) (regs : registers) : Prop :=
  forall n i v, (n, i, v) ∈ regs -> cell ((n, i) :: p) m = v.

Lemma elem_of_array n l n' i v : (n', i, v) ∈ array_of n l <-> n' = n /\ l !! i = Some v.
Proof.
  unfold array_of. rewrite list_elem_of_lookup. split.
  - intros [j Hj]. rewrite list_lookup_imap in Hj. destruct (l !! j) as [x|] eqn:Hx; [|done]. cbn in Hj. injection Hj as <- <- <-. done.
  - intros [-> Hv]. exists i. rewrite list_lookup_imap, Hv. done.
Qed.

Section holding.
Context {D : Type}.
Implicit Types (d : VMStateDescription (D := D)) (f : VMStateField (D := D)).

Definition cell_info (info : VMStateInfo) : bool :=
  match info with
  | vmstate_info_timer | vmstate_info_buffer | vmstate_info_unused_buffer | vmstate_fpreg => false
  | _ => true
  end.

(** The field [f], in version [v], keeps the element [i] of [n] in a cell. *)
Definition keeps_cell (v : Z) (n : string) (i : nat) f : bool :=
  String.eqb (vf_name f) n && static_field v f && negb (has_flag VMS_STRUCT f) && negb (has_flag VMS_POINTER f) &&
  match vf_info f with Some info => cell_info info | None => false end &&
  (Z.of_nat i <? (if has_flag VMS_ARRAY f then vf_num f else 1)).
Definition saves_cell d (n : string) (i : nat) : bool := existsb (keeps_cell (vd_version_id d) n i) (vd_fields d).

Lemma saves_cell_covers d n i s p : saves_cell d n i = true -> Cell ((n, i) :: p) ∈ covers s d p.
Proof.
  destruct d as [name um ver mv mvo old pl po ps fields subs]. unfold saves_cell. cbn [vd_version_id vd_fields].
  intros (f & Hf & Hk)%existsb_exists. unfold keeps_cell, static_field in Hk. rewrite !andb_true_iff in Hk.
  destruct Hk as [[[[[Hn%String.eqb_eq [He Hsz]] Hst] Hp] Hi] Hnum%Z.ltb_lt].
  cbn [covers vd_version_id vd_fields vd_subsections]. apply elem_of_app. left. apply list_elem_of_In, in_flat_map.
  exists f. split; [done|]. unfold covers_field, save_present. destruct (vf_field_exists f); [done|].
  apply in_flat_map. exists i. destruct (fixed_shape f p s s Hsz) as [_ _]. split.
  - apply in_seq. unfold save_n_elems, fixed_size in *. rewrite !andb_true_iff, !negb_true_iff in Hsz.
    destruct Hsz as [[[[_ H1] _] H3] H4]. rewrite H1, H3, H4. destruct (has_flag VMS_ARRAY f); lia.
  - unfold at_element, element. rewrite negb_true_iff in Hst, Hp. rewrite Hst, Hp, Hn. destruct (vf_info f) as [info|]; [|done].
    destruct info; try done; by left.
Qed.

(** Loading brings the registers back. *)
Lemma holds_restored d s t t1 p regs :
  restores (covers s d p) s t t1 -> (forall n i v, (n, i, v) ∈ regs -> saves_cell d n i = true) -> holds p s regs -> holds p t1 regs.
Proof.
  intros [Hin _] Hs Hh n i v Hr. rewrite <- (Hh n i v Hr). apply (Hin (Cell _)), saves_cell_covers. by eapply Hs.
Qed.
End holding.

(** ** Objects that share a memory *)

(** The names of the fields of a description, its subsections included. *)
Section names.
Context {D : Type}.
Implicit Types (d : VMStateDescription (D := D)).

Fixpoint names d {struct d} : list string :=
  (vf_name <$> vd_fields d) ++ flat_map (fun sub => names (sub_vmsd sub)) (vd_subsections d).

Definition loc_addr (l : loc) : addr := match l with Cell a | Timer a => a end.

Lemma kept_in_under info n i p size l : l ∈ kept_in info ((n, i) :: p) size -> exists q j, loc_addr l = q ++ (n, j) :: p.
Proof.
  intros Hl. destruct info; cbn [kept_in] in Hl; rewrite ?list_elem_of_singleton in Hl;
    try (subst l; by exists [], i); try (by apply not_elem_of_nil in Hl).
  - apply list_elem_of_fmap in Hl as (j & -> & _). by exists [], (i + j)%nat.
  - rewrite !elem_of_cons in Hl. destruct Hl as [->|[->|Hl]]; [by exists [("d.high", 0%nat)], i|by exists [("d.low", 0%nat)], i|by apply not_elem_of_nil in Hl].
Qed.

(** What a description covers belongs to the object, under one of these names. *)
Lemma covers_under s d p l : l ∈ covers s d p -> exists q n i, loc_addr l = q ++ (n, i) :: p /\ n ∈ names d.
Proof.
  revert p. induction d as [d IHf IHs] using vmsd_induction. intros p Hl.
  destruct d as [name um ver mv mvo old pl po ps fields subs]. cbn [covers names vd_fields vd_subsections vd_version_id] in *.
  apply elem_of_app in Hl as [Hl|Hl]; apply list_elem_of_In, in_flat_map in Hl as (x & Hx%list_elem_of_In & Hl%list_elem_of_In).
  - unfold covers_field in Hl. destruct (save_present x p ver s); [|by apply not_elem_of_nil in Hl].
    apply list_elem_of_In, in_flat_map in Hl as (i & _ & Hl%list_elem_of_In). unfold at_element, element in Hl. cbv zeta in Hl.
    assert (Hn : vf_name x ∈ (vf_name <$> fields) ++ flat_map (fun sub => names (sub_vmsd sub)) subs)
      by (apply elem_of_app; left; by apply list_elem_of_fmap_2).
    destruct (has_flag VMS_STRUCT x).
    + destruct (vf_vmsd x) as [d'|] eqn:Hd; [|by apply not_elem_of_nil in Hl].
      destruct (IHf x d' Hx Hd _ Hl) as (q & n & j & -> & _). eexists (q ++ [(n, j)]), _, _. rewrite <- app_assoc. by split.
    + destruct (vf_info x); [|by apply not_elem_of_nil in Hl]. apply kept_in_under in Hl as (q & j & ->). by eexists q, _, j.
  - unfold covers_subsection in Hl. destruct (sub_needed x p s); [|by apply not_elem_of_nil in Hl].
    destruct (IHs x Hx p Hl) as (q & n & i & -> & Hn). exists q, n, i. split; [done|]. apply elem_of_app. right.
    apply list_elem_of_In, in_flat_map. exists x. split; by apply list_elem_of_In.
Qed.

(** An object of another place, or another field, is not covered. *)
Lemma not_covered s d r r' n i l :
  loc_addr l = [(n, i); r] -> (r <> r' \/ n ∉ names d) -> l ∉ covers s d [r'].
Proof.
  intros Ha Hne Hl. apply covers_under in Hl as (q & n' & j & Hq & Hn). rewrite Ha in Hq.
  destruct q as [|x [|y q]]; [injection Hq as -> -> ->; naive_solver|injection Hq as _ ->; naive_solver|].
  apply (f_equal length) in Hq. cbn in Hq. rewrite length_app in Hq. cbn in Hq. lia.
Qed.
End names.

Section chain.
Context {D : Type} {backing : Backing D}.
Implicit Types (x : SaveStateEntry (D := D) * VMStateDescription (D := D)) (l : loc).

(** Saving and finishing the load of [x] leave [l] alone. *)
Definition quiet x l : Prop :=
  (forall s, look l (prepared_se x s) = look l s) /\ (forall t, look l (finished x.2 (object x) t).1 = look l t).
(** [l] is saved with [x]; [l] is not. *)
Definition carries x l : Prop := quiet x l /\ forall s, l ∈ covers s x.2 (object x).
Definition passes x l : Prop := quiet x l /\ forall s, l ∉ covers s x.2 (object x).

Lemma Forall_or_split {A} (P Q : A -> Prop) (l : list A) : Forall (fun a => P a \/ Q a) l -> Exists P l \/ Forall Q l.
Proof. induction 1 as [|a l [Ha|Ha] _ [IH|IH]]; auto using Forall. Qed.

(** A location that some entry carries, and all others pass, comes back; one that all
    entries pass stays. *)
Lemma loads_look xs s t t' l :
  loads xs s t t' -> Forall (fun x => carries x l \/ passes x l) xs ->
  (Exists (fun x => carries x l) xs -> look l t' = look l s) /\ (Forall (fun x => passes x l) xs -> look l t' = look l t).
Proof.
  induction 1 as [s t|x xs s t t1 t' [Hin Hout] Hl IH]; intros Hall; [split; [intros He; by apply Exists_nil in He|done]|].
  apply Forall_cons in Hall as [Hx Hall]. destruct (IH Hall) as [IHc IHp].
  assert (Hq : quiet x l) by (destruct Hx as [[Hq _]|[Hq _]]; done). destruct Hq as [Hpre Hfin]. split.
  - intros He. destruct (Forall_or_split _ _ _ Hall) as [He'|Hp']; [by rewrite IHc, Hpre|].
    apply Exists_cons in He as [[_ Hc]|He]; [|by rewrite IHc, Hpre]. by rewrite IHp, Hfin, Hin, Hpre by done.
  - intros [[_ Hnc] Hp]%Forall_cons. by rewrite IHp, Hfin, Hout by done.
Qed.
End chain.
