(* ===== verification/BoardSnapshot.v ===== *)
(** * BoardSnapshot.v -- CPUs and interrupt controllers survive a snapshot

    Joins the snapshots with the model of the board: the objects of the memory hold
    the registers of [CPUState], [APICState], [PicState] and [IOAPICState], the
    machine registers them ([register_board]), they are saved and loaded, and the
    memory holds the same registers again. *)

From stdpp Require Import gmap strings.
From S2P Require Import Prelude CString Liveness LoopTrace Machine Timers Pic Board Apic Chips Delivery ChipsTypes QemuFile Vmstate VmstateRoundtrip SaveVM SaveVMRoundtrip Descriptions Snapshot.

(** ** The board *)

Inductive board_object := OTimers | OCpuCommon (e : nat) | OCpu (e : nat) | OApic (e : nat) | OMaster | OSlave | OIoapic.

Definition place (k : board_object) : string * nat :=
  match k with
  | OTimers => ("timers_state", 0%nat)
  | OCpuCommon e | OCpu e => ("cpu", e)
  | OApic e => ("apic", e)
  | OMaster => ("i8259", 0%nat)
  | OSlave => ("i8259", 1%nat)
  | OIoapic => ("ioapic", 0%nat)
  end.

(** The fields that [pre_save] and [post_load] compute. *)
Definition computed (k : board_object) : list string :=
  match k with
  | OCpuCommon _ => ["interrupt_request"]
  | OCpu _ => ["fpregs_format_vmstate"; "fptag_vmstate"; "fpus_vmstate"; "fpstt"; "fpus"; "fptags"]
  | _ => []
  end.

Lemma look_store l b v m : l <> Cell b -> look l (store b v m) = look l m.
Proof. destruct l as [a|a]; [|done]. intros Hne. cbn [look]. rewrite cell_store, decide_False; [done|]. intros ->. by apply Hne. Qed.

Section objects.
Context {D : Type} {backing : Backing D} (x86_64 : bool).
Implicit Types (x : SaveStateEntry (D := D) * VMStateDescription (D := D)).

Definition description_of (k : board_object) : VMStateDescription (D := D) :=
  match k with
  | OTimers => vmstate_timers
  | OCpuCommon _ => vmstate_cpu_common
  | OCpu _ => vmstate_cpu x86_64
  | OApic _ => vmstate_apic
  | OMaster | OSlave => vmstate_pic
  | OIoapic => vmstate_ioapic
  end.

(** The entry [x] saves the object [k]. *)
Definition entry_of k x : Prop := x.2 = description_of k /\ object x = [place k].

Lemma quiet_object k x l n i r :
  entry_of k x -> loc_addr l = [(n, i); r] -> (r <> place k \/ n ∉ computed k) -> quiet x l.
Proof.
  intros [Hd Ho] Ha Hne. unfold quiet, prepared_se. rewrite Hd, Ho.
  assert (Hst : forall n' j, n' ∈ computed k -> l <> Cell [(n', j); place k]).
  { intros n' j Hn' ->. cbn [loc_addr] in Ha. injection Ha as <- <- <-. naive_solver. }
  assert (Hfl : l <> Cell restoring_flag) by (intros ->; done).
  destruct k; cbn [description_of]; try done; split; try done; intros m.
  - cbn [finished vmstate_cpu_common vd_post_load vd_version_id cpu_common_post_load fst]. apply look_store, Hst. by left.
  - change (look l (cpu_pre_save [("cpu", e)] m) = look l m). unfold cpu_pre_save. cbv zeta. cbn [place] in Hst. rewrite !look_store by (apply Hst; repeat constructor). done.
  - change (look l (cpu_post_load [("cpu", e)] CPU_SAVE_VERSION m).1 = look l m). unfold cpu_post_load. cbv zeta. cbn [fst place] in *.
    destruct (c_true _); rewrite ?(look_store _ restoring_flag) by done; cbn [seq foldl];
      rewrite !look_store by (apply Hst; repeat constructor); done.
Qed.
End objects.

(** ** The registers of the board *)

Definition pic_registers (s : PicState) : registers :=
  [("last_irr", 0%nat, p_last_irr s); ("irr", 0%nat, p_irr s); ("imr", 0%nat, p_imr s); ("isr", 0%nat, p_isr s);
   ("priority_add", 0%nat, p_priority_add s); ("irq_base", 0%nat, p_irq_base s); ("read_reg_select", 0%nat, p_read_reg_select s);
   ("poll", 0%nat, p_poll s); ("special_mask", 0%nat, p_special_mask s); ("init_state", 0%nat, p_init_state s);
   ("auto_eoi", 0%nat, p_auto_eoi s); ("rotate_on_auto_eoi", 0%nat, p_rotate_on_auto_eoi s);
   ("special_fully_nested_mode", 0%nat, p_special_fully_nested_mode s); ("init4", 0%nat, p_init4 s);
   ("single_mode", 0%nat, p_single_mode s); ("elcr", 0%nat, p_elcr s)].
Definition ioapic_registers (s : IOAPICState) : registers :=
  [("id", 0%nat, io_id s); ("ioregsel", 0%nat, io_ioregsel s); ("irr", 0%nat, io_irr s)] ++ array_of "ioredtbl" (io_ioredtbl s).
(** All but [sipi_vector] and [wait_for_sipi], which the description leaves out; the
    in-service register is kept with the CPU in the model. *)
Definition apic_registers (a : APICState) (isr : list Z) : registers :=
  [("apicbase", 0%nat, a_apicbase a); ("id", 0%nat, a_id a); ("arb_id", 0%nat, a_arb_id a); ("tpr", 0%nat, a_tpr a);
   ("spurious_vec", 0%nat, a_spurious_vec a); ("log_dest", 0%nat, a_log_dest a); ("dest_mode", 0%nat, a_dest_mode a);
   ("esr", 0%nat, a_esr a); ("divide_conf", 0%nat, a_divide_conf a); ("count_shift", 0%nat, a_count_shift a);
   ("initial_count", 0%nat, a_initial_count a); ("initial_count_load_time", 0%nat, a_initial_count_load_time a);
   ("next_time", 0%nat, a_next_time a)] ++
  array_of "isr" isr ++ array_of "tmr" (a_tmr a) ++ array_of "irr" (a_irr a) ++ array_of "lvt" (a_lvt a) ++ array_of "icr" (a_icr a).
(** What the scheduler keeps in a CPU, but the interrupt stack, the read set and
    [wait_for_interrupt], which the description leaves out. *)
Definition cpu_registers (c : CPUState) : registers :=
  let k := cpu_ski c in
  [("eip", 0%nat, cpu_eip c); ("eflags", 0%nat, cpu_eflags c); ("hflags", 0%nat, cpu_hflags c); ("hflags2", 0%nat, cpu_hflags2 c);
   ("ski_active", 0%nat, b2z (cpu_ski_active c)); ("ski_cpu.nr_cpus", 0%nat, sc_nr_cpus k);
   ("ski_cpu.nr_max_instr", 0%nat, sc_nr_max_instr k); ("ski_cpu.bug_depth", 0%nat, sc_bug_depth k);
   ("ski_cpu.state", 0%nat, sc_state k); ("ski_cpu.nr_instr_executed", 0%nat, sc_nr_instr_executed k);
   ("ski_cpu.nr_instr_executed_other", 0%nat, sc_nr_instr_executed_other k); ("ski_cpu.priority", 0%nat, sc_priority k);
   ("ski_cpu.priority_adjust", 0%nat, sc_priority_adjust k); ("ski_cpu.blocked", 0%nat, b2z (sc_blocked k));
   ("ski_cpu.nr_syscalls_self", 0%nat, sc_nr_syscalls_self k); ("ski_cpu.nr_interrupts_self", 0%nat, sc_nr_interrupts_self k);
   ("ski_cpu.nr_syscalls_other", 0%nat, sc_nr_syscalls_other k); ("ski_cpu.nr_interrupts_other", 0%nat, sc_nr_interrupts_other k);
   ("ski_cpu.cr3", 0%nat, sc_cr3 k); ("ski_cpu.gdt", 0%nat, sc_gdt k); ("ski_cpu.last_enter_cpu", 0%nat, b2z (sc_last_enter_cpu k));
   ("ski_old_stop", 0%nat, b2z (cpu_old_stop c)); ("ski_old_stopped", 0%nat, b2z (cpu_old_stopped c))] ++
  array_of "ski_cpu.ski_ignore_interrupts" (sc_ignore_interrupts k).

(** The memory holds the CPUs and the interrupt controllers of [b]. *)
Record image (b : board) (m : memory) : Prop := {
  im_cpu e c : m_cpus (bd_machine b) !! e = Some c -> holds [("cpu", e)] m (cpu_registers c);
  im_apic e c a : m_cpus (bd_machine b) !! e = Some c -> bd_apics b !! e = Some a ->
    holds [("apic", e)] m (apic_registers a (cpu_apic_isr c)) /\
    look (Timer [("timer", 0%nat); ("apic", e)]) m = qemu_timer_expire_time_ns (ApicTimer e) (ch_timers (bd_chips b));
  im_master : holds [("i8259", 0%nat)] m (pic_registers (ch_master (bd_chips b)));
  im_slave : holds [("i8259", 1%nat)] m (pic_registers (ch_slave (bd_chips b)));
  im_ioapic : holds [("ioapic", 0%nat)] m (ioapic_registers (ch_ioapic (bd_chips b)))
}.

Section board.
Context {D : Type} {backing : Backing D} {laws : BackingLaws D} (x86_64 : bool).
Implicit Types (k : board_object) (xs : list (SaveStateEntry (D := D) * VMStateDescription (D := D))).

(** The object [k] saves the element [i] of [n], or has no field of that name. *)
Definition settled k (n : string) (i : nat) : bool :=
  negb (bool_decide (n ∈ computed k)) &&
  (saves_cell (description_of (D := D) x86_64 k) n i || negb (bool_decide (n ∈ names (description_of (D := D) x86_64 k)))).

Lemma settled_role k x n i r :
  entry_of x86_64 k x -> (place k = r -> settled k n i = true) -> carries x (Cell [(n, i); r]) \/ passes x (Cell [(n, i); r]).
Proof.
  intros Hx Hs. pose proof Hx as [Hd Ho]. destruct (decide (place k = r)) as [<-|Hne].
  - specialize (Hs eq_refl). unfold settled in Hs. apply andb_true_iff in Hs as [Hc%negb_true_iff%bool_decide_eq_false Hs].
    assert (Hq : quiet x (Cell [(n, i); place k])) by (eapply quiet_object; [done..|by right]).
    apply orb_true_iff in Hs as [Hs|Hs%negb_true_iff%bool_decide_eq_false].
    + left. split; [done|]. intros s. rewrite Hd, Ho. by apply saves_cell_covers.
    + right. split; [done|]. intros s. rewrite Hd, Ho. by eapply not_covered; [|right].
  - right. split; [eapply quiet_object; [done..|by left]|]. intros s. rewrite Hd, Ho. eapply not_covered; [done|by left].
Qed.

(** The registers of the object [k] come back. *)
Lemma registers_back ks xs s t t' k regs :
  Forall2 (entry_of x86_64) ks xs -> loads xs s t t' -> k ∈ ks ->
  (forall n i v, (n, i, v) ∈ regs -> saves_cell (description_of (D := D) x86_64 k) n i = true /\
     forall k', k' ∈ ks -> place k' = place k -> settled k' n i = true) ->
  holds [place k] s regs -> holds [place k] t' regs.
Proof.
  intros Hks Hl Hk Hregs Hh n i v Hr. rewrite <- (Hh n i v Hr). destruct (Hregs n i v Hr) as [Hs Hset].
  assert (Hall : Forall (fun x => carries x (Cell [(n, i); place k]) \/ passes x (Cell [(n, i); place k])) xs).
  { apply Forall_forall. intros x Hx. apply list_elem_of_lookup in Hx as [j Hj].
    destruct (Forall2_lookup_r _ _ _ _ _ Hks Hj) as (k' & Hk' & Hx). eapply settled_role; [done|]. intros Hp.
    apply Hset; [by eapply list_elem_of_lookup_2|done]. }
  apply (loads_look xs s t t' (Cell [(n, i); place k]) Hl Hall). apply list_elem_of_lookup in Hk as [j Hj].
  destruct (Forall2_lookup_l _ _ _ _ _ Hks Hj) as (x & Hx & Hkx). apply Exists_exists. exists x.
  split; [by eapply list_elem_of_lookup_2|]. pose proof Hkx as [Hd Ho]. split; [|intros s1; rewrite Hd, Ho; by apply saves_cell_covers].
  eapply quiet_object; [done..|right]. specialize (Hset k (list_elem_of_lookup_2 _ _ _ Hj) eq_refl). unfold settled in Hset.
  by apply andb_true_iff in Hset as [Hc%negb_true_iff%bool_decide_eq_false _].
Qed.

(** The objects at the place of [k]. *)
Definition neighbours k : list board_object :=
  match k with OCpu e | OCpuCommon e => [OCpu e; OCpuCommon e] | k => [k] end.

Lemma neighbours_complete k k' : place k' = place k -> k' ∈ neighbours k.
Proof. destruct k, k'; cbn; intros [=]; subst; set_solver. Qed.

(** The element [i] of [n] is saved with [k], and no neighbour changes it. *)
Definition returned k (n : string) (i : nat) : bool :=
  saves_cell (description_of (D := D) x86_64 k) n i && forallb (fun k' => settled k' n i) (neighbours k).

Lemma array_returned k n (size : nat) l :
  forallb (returned k n) (seq 0 size) = true -> length l = size -> Forall (fun r => returned k r.1.1 r.1.2 = true) (array_of n l).
Proof.
  intros Hf Hl. apply Forall_forall. intros [[n' i] v] [-> Hi]%elem_of_array. cbn [fst snd].
  apply (forallb_elem _ _ _ Hf). apply elem_of_seq. apply lookup_lt_Some in Hi. lia.
Qed.

Lemma image_back ks xs s t t' k regs :
  Forall2 (entry_of x86_64) ks xs -> loads xs s t t' -> k ∈ ks ->
  Forall (fun r => returned k r.1.1 r.1.2 = true) regs -> holds [place k] s regs -> holds [place k] t' regs.
Proof.
  intros Hks Hl Hk Hr. eapply registers_back; [done..|]. intros n i v Hin. rewrite Forall_forall in Hr.
  specialize (Hr _ Hin). cbn [fst snd] in Hr. unfold returned in Hr. apply andb_true_iff in Hr as [Hs Hf]. split; [done|].
  intros k' _ Hp. by apply (forallb_elem _ _ _ Hf), neighbours_complete.
Qed.

Lemma pic_returned k s : k = OMaster \/ k = OSlave -> Forall (fun r => returned k r.1.1 r.1.2 = true) (pic_registers s).
Proof. intros [-> | ->]; repeat constructor. Qed.

Lemma ioapic_returned s : ioapic_typed s -> Forall (fun r => returned OIoapic r.1.1 r.1.2 = true) (ioapic_registers s).
Proof.
  intros Ht. apply Forall_app. split; [repeat constructor|]. apply (array_returned _ _ 24); [done|].
  by destruct (it_redtbl _ Ht).
Qed.

Lemma apic_returned e a isr :
  apic_typed a -> length isr = 8%nat -> Forall (fun r => returned (OApic e) r.1.1 r.1.2 = true) (apic_registers a isr).
Proof.
  intros Ht Hi. unfold apic_registers. rewrite !Forall_app. repeat split; [repeat constructor|..].
  - by apply (array_returned _ _ 8).
  - apply (array_returned _ _ 8); [done|]. by destruct (at_tmr _ Ht).
  - apply (array_returned _ _ 8); [done|]. by destruct (at_irr _ Ht).
  - apply (array_returned _ _ 6); [done|]. by destruct (at_lvt _ Ht).
  - apply (array_returned _ _ 2); [done|]. by destruct (at_icr _ Ht).
Qed.

End board.

Lemma cpu_returned {D} {backing : Backing D} x86_64 e c :
  length (sc_ignore_interrupts (cpu_ski c)) = 8%nat ->
  Forall (fun r => returned (D := D) x86_64 (OCpu e) r.1.1 r.1.2 = true) (cpu_registers c).
Proof.
  intros Hi. unfold cpu_registers. rewrite Forall_app. split; [destruct x86_64; repeat (constructor; [vm_compute; reflexivity|]); constructor|].
  apply (array_returned _ _ _ 8); [|done]. by destruct x86_64; vm_compute.
Qed.

Section board_theorem.
Context {D : Type} {backing : Backing D} {laws : BackingLaws D} (x86_64 : bool).
Implicit Types (ks : list board_object) (xs : list (SaveStateEntry (D := D) * VMStateDescription (D := D))).

Lemma timer_role k x e : entry_of (D := D) x86_64 k x ->
  if decide (place k = ("apic", e)) then carries x (Timer [("timer", 0%nat); ("apic", e)])
  else passes x (Timer [("timer", 0%nat); ("apic", e)]).
Proof.
  intros Hx. pose proof Hx as [Hd Ho]. destruct (decide (place k = ("apic", e))) as [Hp|Hne].
  - destruct k; try discriminate Hp. injection Hp as ->. split; [eapply quiet_object; [done..|right; apply not_elem_of_nil]|].
    intros s. rewrite Hd, Ho. cbn [description_of covers vmstate_apic vd_fields vd_subsections vd_version_id]. apply elem_of_app. left.
    apply list_elem_of_In, in_flat_map. exists (VMSTATE_TIMER "timer"). split; [by repeat (try (left; done); right)|by left].
  - split; [eapply quiet_object; [done..|left; congruence]|]. intros s. rewrite Hd, Ho. eapply not_covered; [done|left; congruence].
Qed.

(** The objects in the order of their registration. *)
Definition cpu_objects (e : nat) : list board_object := [OCpuCommon e; OCpu e; OApic e].
Definition board_objects (n : nat) : list board_object :=
  [OTimers] ++ (seq 0 n ≫= cpu_objects) ++ [OMaster; OSlave; OIoapic].

Lemma cpu_object_in n e k : (e < n)%nat -> k ∈ cpu_objects e -> k ∈ board_objects n.
Proof.
  intros He Hk. unfold board_objects. rewrite !elem_of_app. right. left. apply list_elem_of_bind. exists e.
  split; [done|apply elem_of_seq; lia].
Qed.

Lemma image_restored b xs s t t' :
  chips_typed b -> Forall (fun c => length (sc_ignore_interrupts (cpu_ski c)) = 8%nat) (m_cpus (bd_machine b)) ->
  Forall2 (entry_of x86_64) (board_objects (length (m_cpus (bd_machine b)))) xs -> loads xs s t t' -> image b s -> image b t'.
Proof.
  intros Hty Hig Hks Hl Him. set (n := length (m_cpus (bd_machine b))) in *.
  assert (Hback : forall k regs, k ∈ board_objects n -> Forall (fun r => returned (D := D) x86_64 k r.1.1 r.1.2 = true) regs ->
            holds [place k] s regs -> holds [place k] t' regs) by (intros k regs Hk; by eapply image_back).
  assert (Hlast : forall k, k ∈ [OMaster; OSlave; OIoapic] -> k ∈ board_objects n)
    by (intros k Hk; unfold board_objects; rewrite !elem_of_app; tauto).
  split.
  - intros e c Hc. apply (Hback (OCpu e)); [|apply cpu_returned; by eapply Forall_lookup_1 in Hig|by apply Him].
    eapply cpu_object_in; [by eapply lookup_lt_Some|set_solver].
  - intros e c a Hc Ha. destruct (im_apic _ _ Him e c a Hc Ha) as [Hh Hti]. pose proof (lookup_lt_Some _ _ _ Hc) as He. fold n in He.
    split.
    + apply (Hback (OApic e)); [eapply cpu_object_in; [done|set_solver]|apply apic_returned|done].
      * by eapply Forall_lookup_1 in Ha; [|apply Hty].
      * eapply Forall_lookup_1 in Hc; [|apply Hty]. by destruct Hc.
    + rewrite <- Hti. destruct (loads_look xs s t t' (Timer [("timer", 0%nat); ("apic", e)]) Hl) as [Hlook _].
      { apply Forall_forall. intros x [j Hj]%list_elem_of_lookup. destruct (Forall2_lookup_r _ _ _ _ _ Hks Hj) as (k & _ & Hk).
        pose proof (timer_role k x e Hk). case_decide; tauto. }
      apply Hlook. assert (OApic e ∈ board_objects n) as [j Hj]%list_elem_of_lookup by (eapply cpu_object_in; [done|set_solver]).
      destruct (Forall2_lookup_l _ _ _ _ _ Hks Hj) as (x & Hx & Hk). apply Exists_exists. exists x.
      split; [by eapply list_elem_of_lookup_2|]. pose proof (timer_role _ x e Hk) as H. by rewrite decide_True in H.
  - apply (Hback OMaster); [apply Hlast; set_solver|apply pic_returned; tauto|apply Him].
  - apply (Hback OSlave); [apply Hlast; set_solver|apply pic_returned; tauto|apply Him].
  - apply (Hback OIoapic); [apply Hlast; set_solver|apply ioapic_returned, Hty|apply Him].
Qed.
End board_theorem.

(** ** Registration gives every object an entry of its own *)

(** One subsection more than a CPU has. *)
Definition subsection_fuel : nat := 5.

Definition instance_of (k : board_object) : Z :=
  match k with OCpuCommon e | OCpu e | OApic e => Z.of_nat e | OSlave => 1 | _ => 0 end.
Definition name_of (k : board_object) : string :=
  match k with
  | OTimers => "timer"
  | OCpuCommon _ => "cpu_common"
  | OCpu _ => "cpu"
  | OApic _ => "apic"
  | OMaster | OSlave => "i8259"
  | OIoapic => "ioapic"
  end.

Lemma str_equal a b : str a = str b <-> a = b.
Proof.
  split; [|by intros ->]. intros H. unfold str in H.
  assert (Hinj : Inj (=) (=) (fun a => Z.of_N (Ascii.N_of_ascii a))).
  { intros x y Hxy%N2Z.inj. apply (f_equal Ascii.ascii_of_N) in Hxy. by rewrite !Ascii.ascii_N_embedding in Hxy. }
  apply list_fmap_eq_inj in H; [|exact Hinj]. apply (f_equal String.string_of_list_ascii) in H.
  by rewrite !String.string_of_list_ascii_of_string in H.
Qed.

Lemma cpu_loadable {D} `{Backing D} x86_64 : loadable subsection_fuel (vmstate_cpu (D := D) x86_64) = true.
Proof. by destruct x86_64. Qed.

Section registration.
Context {D : Type} {backing : Backing D} (x86_64 : bool).
Implicit Types (k : board_object) (ks : list board_object).

Definition entry_for k (section_id : Z) : SaveStateEntry (D := D) :=
  let d := description_of x86_64 k in
  match k with
  | OCpu e =>
      mk_se (str "cpu") (Z.of_nat e) 0 CPU_SAVE_VERSION section_id None None (Some (cpu_save x86_64 [place k]))
        (Some (cpu_load x86_64 subsection_fuel [place k])) None [place k] None false
  | _ => mk_se (str (name_of k)) (instance_of k) (-1) (vd_version_id d) section_id None None None None (Some d) [place k] None false
  end.
Definition entries ks : list (SaveStateEntry (D := D)) := imap (fun j k => entry_for k (Z.of_nat j)) ks.

(** The objects [ks] are registered. *)
Definition registered ks (r : registry (D := D)) : Prop :=
  savevm_handlers r = entries ks /\ global_section_id r = Z.of_nat (length ks).

(** The number the next device of that name gets. *)
Definition next_number (name : string) ks : Z :=
  foldl (fun n k => if bool_decide (name = name_of k) && (n <=? instance_of k) then instance_of k + 1 else n) 0 ks.

Lemma entries_app ks k : entries (ks ++ [k]) = entries ks ++ [entry_for k (Z.of_nat (length ks))].
Proof. unfold entries. rewrite imap_app. cbn. by rewrite Nat.add_0_r. Qed.

Lemma next_instance_number name ks :
  Forall (fun k => instance_of k < 2 ^ 31 - 1) ks ->
  calculate_new_instance_id (str name) (entries ks) = next_number name ks.
Proof.
  unfold calculate_new_instance_id, next_instance, next_number. induction ks as [|k ks IH] using rev_ind; [done|].
  intros [Hks Hk]%Forall_app. rewrite entries_app, !foldl_app, IH by done. cbn [foldl]. apply Forall_cons in Hk as [Hk _].
  assert (se_idstr (entry_for k (Z.of_nat (length ks))) = str (name_of k) /\ se_instance_id (entry_for k (Z.of_nat (length ks))) = instance_of k)
    as [-> ->] by (by destruct k).
  rewrite (bool_decide_ext _ _ (str_equal name (name_of k))). destruct (_ && _); [|done].
  apply wrap32_id. unfold in_int. assert (0 <= instance_of k) by (destruct k; cbn; lia). lia.
Qed.

(** Registering one object. *)
Lemma insert_registered mk k ks r name inst :
  registered ks r -> (forall j, mk (str (name_of k)) (instance_of k) None j = entry_for k j) ->
  name = str (name_of k) -> (inst = instance_of k \/ inst = -1 /\ next_number (name_of k) ks = instance_of k) ->
  Forall (fun k => instance_of k < 2 ^ 31 - 1) ks -> Z.of_nat (length ks) < 2 ^ 31 - 1 ->
  exists r', insert_entry mk None name inst r = Ret r' 0 /\ registered (ks ++ [k]) r'.
Proof.
  intros [Hh Hg] Hmk -> Hi Hks Hlen. eexists. unfold insert_entry. erewrite bind_Ret by reflexivity. unfold entry_names.
  assert (Hid : pstrcat 256 [] (str (name_of k)) = str (name_of k)) by (by destruct k). rewrite Hid.
  assert (Hn : (if inst =? -1 then calculate_new_instance_id (str (name_of k)) (savevm_handlers r) else inst) = instance_of k).
  { rewrite Hh, next_instance_number by done. assert (instance_of k <> -1) by (destruct k; cbn; lia).
    destruct Hi as [-> | [-> Hi]]; [by zdecide (instance_of k =? -1)|done]. }
  rewrite Hn, Hmk. cbn [assert_]. split; [reflexivity|]. split; cbn [savevm_handlers global_section_id].
  - by rewrite entries_app, Hh, Hg.
  - rewrite Hg, length_app, wrap32_id by (unfold in_int; lia). cbn. lia.
Qed.

(** The clock and the first [n] CPUs with their local APICs. *)
Definition front (n : nat) : list board_object := OTimers :: (seq 0 n ≫= cpu_objects).

Lemma front_S n : front (S n) = front n ++ cpu_objects n.
Proof. unfold front. by rewrite seq_S, bind_app, app_comm_cons. Qed.

Lemma length_front n : length (front n) = (1 + 3 * n)%nat.
Proof. induction n as [|n IH]; [done|]. rewrite front_S, length_app, IH. cbn. lia. Qed.

Lemma front_instances n : Z.of_nat n < 2 ^ 31 - 1 -> Forall (fun k => instance_of k < 2 ^ 31 - 1) (front n).
Proof.
  induction n as [|n IH]; intros Hn; [by repeat constructor|]. rewrite front_S. apply Forall_app. split; [apply IH; lia|].
  repeat constructor; cbn; lia.
Qed.

Lemma next_front name n :
  name <> "timer" -> name <> "cpu_common" -> name <> "cpu" ->
  next_number name (front n) = if decide (name = "apic") then Z.of_nat n else 0.
Proof.
  intros H1 H2 H3. induction n as [|n IH].
  - change (front 0) with [OTimers]. unfold next_number. cbn [foldl name_of]. rewrite bool_decide_eq_false_2 by done.
    by destruct (decide (name = "apic")).
  - rewrite front_S. unfold next_number in *. rewrite foldl_app, IH. cbn [foldl cpu_objects name_of instance_of].
    rewrite (bool_decide_eq_false_2 (name = "cpu_common")), (bool_decide_eq_false_2 (name = "cpu")) by done. cbn [andb]. case_decide as Ha.
    + rewrite bool_decide_eq_true_2 by done. zdecide (Z.of_nat n <=? Z.of_nat n). cbn [andb]. lia.
    + by rewrite bool_decide_eq_false_2.
Qed.

(** There is room for more entries. *)
Definition room ks : Prop := Forall (fun k => instance_of k < 2 ^ 31 - 1) ks /\ Z.of_nat (length ks) < 2 ^ 31 - 1.

Lemma cpu_registered e ks r :
  registered ks r -> room ks -> room (ks ++ [OCpuCommon e]) ->
  exists r', register_cpu x86_64 subsection_fuel e r = Ret r' tt /\ registered (ks ++ [OCpuCommon e; OCpu e]) r'.
Proof.
  intros Hr [Hi Hl] [Hi' Hl'].
  destruct (insert_registered (fun id inst compat j => mk_se id inst (-1) 1 j None None None None (Some vmstate_cpu_common) [("cpu", e)] compat false)
              (OCpuCommon e) ks r (str "cpu_common") (Z.of_nat e)) as (r2 & E2 & Hr2); try done; [by left|].
  destruct (insert_registered (fun id inst compat j => mk_se id inst 0 CPU_SAVE_VERSION j None None (Some (cpu_save x86_64 [("cpu", e)]))
              (Some (cpu_load x86_64 subsection_fuel [("cpu", e)])) None [("cpu", e)] compat false)
              (OCpu e) (ks ++ [OCpuCommon e]) r2 (str "cpu") (Z.of_nat e)) as (r3 & E3 & Hr3); try done; [by left|].
  exists r3. rewrite <- app_assoc in Hr3. split; [|done]. unfold register_cpu.
  rewrite (bind_Ret _ _ _ _ _ (E2 : vmstate_register None (Z.of_nat e) vmstate_cpu_common [("cpu", e)] r = _)).
  by rewrite (bind_Ret _ _ _ _ _ (E3 : register_savevm _ _ _ _ _ _ _ r2 = _)).
Qed.

Lemma device_registered k ks r :
  registered ks r -> room ks -> next_number (name_of k) ks = instance_of k ->
  match k with OApic _ | OMaster | OSlave | OIoapic => True | _ => False end ->
  exists r', register_device (description_of x86_64 k) [place k] r = Ret r' tt /\ registered (ks ++ [k]) r'.
Proof.
  intros Hr [Hi Hl] Hn Hk.
  destruct (insert_registered (fun id inst compat j => mk_se id inst (-1) (vd_version_id (description_of x86_64 k)) j None None None None
              (Some (description_of x86_64 k)) [place k] compat (vd_unmigratable (description_of x86_64 k)))
              k ks r (str (name_of k)) (-1)) as (r2 & E2 & Hr2); try done; [by destruct k|by right|].
  exists r2. split; [|done]. unfold register_device.
  assert (E : vmstate_register_with_alias_id None (-1) (description_of x86_64 k) [place k] (-1) 0 r = Ret r2 0) by (by destruct k).
  by rewrite (bind_Ret _ _ _ _ _ E).
Qed.

Lemma front_room n l : Z.of_nat n < 2 ^ 29 -> (length l <= 4)%nat -> Forall (fun k => instance_of k < 2 ^ 31 - 1) l -> room (front n ++ l).
Proof.
  intros Hn Hl Hi. pose proof (length_front n). split; [apply Forall_app; split; [apply front_instances; lia|done]|].
  rewrite length_app. lia.
Qed.

Lemma cpus_registered n r :
  Z.of_nat n < 2 ^ 29 -> registered (front 0) r ->
  exists r', for_each (seq 0 n) (fun e => register_cpu x86_64 subsection_fuel e ;;; register_device vmstate_apic [("apic", e)]) r
             = Ret r' tt /\ registered (front n) r'.
Proof.
  intros Hn Hr. induction n as [|n IH]; [by exists r|]. destruct (IH ltac:(lia)) as (r1 & E1 & Hr1).
  destruct (cpu_registered n (front n) r1 Hr1) as (r2 & E2 & Hr2).
  { rewrite <- (app_nil_r (front n)). apply front_room; [lia|cbn; lia|done]. }
  { apply front_room; [lia|cbn; lia|]. repeat constructor. cbn. lia. }
  destruct (device_registered (OApic n) (front n ++ [OCpuCommon n; OCpu n]) r2 Hr2) as (r3 & E3 & Hr3); [|..|done|].
  { apply front_room; [lia|cbn; lia|]. repeat constructor; cbn; lia. }
  { unfold next_number. rewrite foldl_app. fold (next_number (name_of (OApic n)) (front n)). by rewrite next_front. }
  exists r3. rewrite front_S, seq_S, for_each_app, (bind_Ret _ _ _ _ _ E1). split; [|by rewrite <- app_assoc in Hr3].
  cbn [for_each Nat.add]. rewrite bind_assoc, (bind_Ret _ _ _ _ _ E2). by rewrite (bind_Ret _ _ _ _ _ E3).
Qed.

Lemma board_registered n :
  Z.of_nat n < 2 ^ 29 ->
  exists r, register_board x86_64 subsection_fuel n (mk_registry [] 0) = Ret r tt /\ registered (board_objects n) r.
Proof.
  intros Hn. assert (H0 : registered (front 0) (mk_registry [entry_for OTimers 0] 1)) by done.
  destruct (cpus_registered n _ Hn H0) as (r1 & E1 & H1).
  destruct (device_registered OMaster (front n) r1 H1) as (r2 & E2 & H2); [|..|done|].
  { rewrite <- (app_nil_r (front n)). apply front_room; [lia|cbn; lia|done]. }
  { by rewrite next_front. }
  destruct (device_registered OSlave (front n ++ [OMaster]) r2 H2) as (r3 & E3 & H3); [|..|done|].
  { apply front_room; [lia|cbn; lia|by repeat constructor]. }
  { unfold next_number. rewrite foldl_app. fold (next_number (name_of OSlave) (front n)). by rewrite next_front. }
  destruct (device_registered OIoapic ((front n ++ [OMaster]) ++ [OSlave]) r3 H3) as (r4 & E4 & H4); [|..|done|].
  { rewrite <- app_assoc. apply front_room; [lia|cbn; lia|by repeat constructor]. }
  { unfold next_number. rewrite !foldl_app. fold (next_number (name_of OIoapic) (front n)). by rewrite next_front. }
  exists r4. split; [|unfold board_objects; by rewrite <- !app_assoc in H4].
  unfold register_board. rewrite (bind_Ret _ _ _ (mk_registry [entry_for OTimers 0] 1) 0) by done.
  rewrite (bind_Ret _ _ _ _ _ E1), (bind_Ret _ _ _ _ _ E2), (bind_Ret _ _ _ _ _ E3). exact E4.
Qed.

(** *** An entry is found by its name and number *)

Lemma elem_of_cpu_objects e k : k ∈ cpu_objects e <-> k = OCpuCommon e \/ k = OCpu e \/ k = OApic e.
Proof. unfold cpu_objects. rewrite !elem_of_cons, elem_of_nil. naive_solver. Qed.

Lemma elem_of_board_objects n k :
  k ∈ board_objects n <-> k = OTimers \/ (exists e, (e < n)%nat /\ k ∈ cpu_objects e) \/ k = OMaster \/ k = OSlave \/ k = OIoapic.
Proof.
  unfold board_objects. rewrite !elem_of_app, list_elem_of_bind, !elem_of_cons, !elem_of_nil.
  setoid_rewrite elem_of_seq. naive_solver lia.
Qed.

Lemma board_objects_NoDup n : NoDup (board_objects n).
Proof.
  unfold board_objects. apply NoDup_app. split; [apply NoDup_singleton|]. split.
  { intros k ->%list_elem_of_singleton. rewrite elem_of_app, list_elem_of_bind, !elem_of_cons, elem_of_nil.
    setoid_rewrite elem_of_cpu_objects. naive_solver. }
  apply NoDup_app. split; [|split].
  - apply NoDup_bind; [intros e1 e2 k _ _; rewrite !elem_of_cpu_objects; naive_solver| |apply NoDup_seq].
    intros e _. unfold cpu_objects. rewrite !NoDup_cons, !elem_of_cons, !elem_of_nil. split_and!; [naive_solver..|apply NoDup_nil_2].
  - intros k (e & Hk & _)%list_elem_of_bind. rewrite elem_of_cpu_objects in Hk. rewrite !elem_of_cons, elem_of_nil. naive_solver.
  - rewrite !NoDup_cons, !elem_of_cons, !elem_of_nil. split_and!; [naive_solver..|apply NoDup_nil_2].
Qed.

Lemma find_first {A} (P : A -> bool) (l : list A) j a :
  l !! j = Some a -> P a = true -> (forall i b, (i < j)%nat -> l !! i = Some b -> P b = false) -> List.find P l = Some a.
Proof.
  revert j. induction l as [|b l IH]; intros j Hj Ha Hb; [done|]. destruct j as [|j].
  - cbn in Hj. injection Hj as ->. cbn. by rewrite Ha.
  - cbn. rewrite (Hb 0%nat b) by (lia || done). apply (IH j); [done..|]. intros i c Hi Hc. apply (Hb (S i)); [lia|done].
Qed.

Lemma matches_kind k k' j' :
  se_matches (str (name_of k)) (instance_of k) (entry_for k' j') =
  bool_decide (name_of k' = name_of k) && ((instance_of k =? instance_of k') || (instance_of k =? match k' with OCpu _ => 0 | _ => -1 end)).
Proof.
  unfold se_matches. rewrite (bool_decide_ext _ (name_of k' = name_of k)); [by destruct k'; cbn; rewrite orb_false_r|].
  destruct k'; cbn [entry_for se_idstr]; apply str_equal.
Qed.

Lemma entry_found n j k :
  board_objects n !! j = Some k ->
  find_se (str (name_of k)) (instance_of k) (entries (board_objects n)) = Some (entry_for k (Z.of_nat j)).
Proof.
  intros Hj. unfold find_se. apply (find_first _ _ j).
  - unfold entries. by rewrite list_lookup_imap, Hj.
  - rewrite matches_kind, bool_decide_eq_true_2, Z.eqb_refl by done. done.
  - intros i b Hi Hb. unfold entries in Hb. rewrite list_lookup_imap in Hb. destruct (board_objects n !! i) as [k'|] eqn:Hk'; [|done].
    cbn in Hb. injection Hb as <-. rewrite matches_kind. apply not_true_iff_false. rewrite andb_true_iff, orb_true_iff, bool_decide_eq_true, !Z.eqb_eq.
    intros [Hname Hinst]. assert (Hne : k' <> k) by (intros ->; pose proof (NoDup_lookup _ _ _ _ (board_objects_NoDup n) Hk' Hj); lia).
    assert (He : exists e, k' = OCpu e /\ k = OCpu 0).
    { destruct k' as [|e'|e'|e'| | |], k as [|e|e|e| | |]; cbn in Hname, Hinst; try discriminate Hname;
        try (exfalso; apply Hne; f_equal; lia); try (exfalso; lia).
      exists e'. split; [done|]. f_equal. destruct (decide (e = e')) as [->|Hee]; [by destruct Hne|lia]. }
    destruct He as (e & -> & ->). assert (Hn : (0 < n)%nat) by (destruct n; [cbn in Hj; destruct j as [|[|[|[|?]]]]; done|lia]).
    assert (H2 : board_objects n !! 2%nat = Some (OCpu 0)) by (destruct n; [lia|done]).
    pose proof (NoDup_lookup _ _ _ _ (board_objects_NoDup n) Hj H2) as ->.
    destruct n; [lia|]. by destruct i as [|[|i]]; [..|lia].
Qed.

(** ** Saving and loading the board *)

Definition objects_of ks : list (SaveStateEntry (D := D) * VMStateDescription (D := D)) :=
  imap (fun j k => (entry_for k (Z.of_nat j), description_of x86_64 k)) ks.

Lemma objects_entries ks : (objects_of ks).*1 = entries ks.
Proof. unfold objects_of, entries. rewrite fmap_imap. done. Qed.

Lemma objects_entry_of ks : Forall2 (entry_of x86_64) ks (objects_of ks).
Proof.
  apply Forall2_same_length_lookup. unfold objects_of. split; [by rewrite length_imap|]. intros j k x Hk Hx.
  rewrite list_lookup_imap, Hk in Hx. cbn in Hx. injection Hx as <-. split; [done|]. by destruct k.
Qed.

Lemma entry_described n j k :
  Z.of_nat n < 2 ^ 29 -> board_objects n !! j = Some k ->
  described subsection_fuel (entries (board_objects n)) (entry_for k (Z.of_nat j)) (description_of x86_64 k).
Proof.
  intros Hn Hj. pose proof (entry_found n j k Hj) as Hf.
  assert (Hi : in_int (instance_of k)).
  { apply list_elem_of_lookup_2, elem_of_board_objects in Hj. setoid_rewrite elem_of_cpu_objects in Hj. unfold in_int.
    destruct Hj as [->|[(e & He & [->|[->| ->]])|[->|[->| ->]]]]; cbn; lia. }
  destruct k; (split; [reflexivity|reflexivity|reflexivity|reflexivity|done|done|exact Hf|exact Hi|split; [reflexivity|by vm_compute]|done]).
Qed.

Lemma description_loadable k : loadable subsection_fuel (description_of (D := D) x86_64 k) = true.
Proof. destruct k; first [reflexivity|apply cpu_loadable]. Qed.

Lemma description_stable k p m : stable m (description_of (D := D) x86_64 k) p.
Proof. destruct k; first [by apply static_stable|apply cpu_stable]. Qed.

Lemma description_finished k p t :
  mem_ok t -> mem_ok (finished (description_of (D := D) x86_64 k) p t).1 /\ (finished (description_of (D := D) x86_64 k) p t).2 = 0.
Proof.
  intros Ht. destruct k; try done. cbn [description_of].
  change (mem_ok (cpu_post_load p CPU_SAVE_VERSION t).1 /\ (cpu_post_load p CPU_SAVE_VERSION t).2 = 0).
  unfold cpu_post_load. cbv zeta. by destruct (c_true _).
Qed.

(** The values of the memory fit the types they are saved with, and no object is
    followed by bytes that would be taken for one of its subsections. *)
Fixpoint consistent (xs : list (SaveStateEntry (D := D) * VMStateDescription (D := D))) (s : memory) : bool :=
  match xs with
  | [] => true
  | x :: xs' =>
      let s1 := prepared_se x s in
      in_range s1 x.2 (object x) && clear s1 x.2 (object x) (sections_of xs' s1 ++ [QEMU_VM_EOF]) && consistent xs' s1
  end.

Lemma consistent_savable l xs s :
  Forall (fun x => exists k, described subsection_fuel l x.1 x.2 /\ x.2 = description_of x86_64 k) xs -> consistent xs s = true ->
  savable subsection_fuel l xs s.
Proof.
  revert s. induction xs as [|x xs IH]; intros s Hxs Hc; [done|]. apply Forall_cons in Hxs as [(k & Hd & Hk) Hxs].
  cbn [consistent savable] in *. apply andb_true_iff in Hc as [[Hr Hc1]%andb_true_iff Hc]. split; [|by apply IH].
  split; [done|]. rewrite Hk in *. split; [apply description_loadable|]. split; [done|]. split; [apply description_stable|]. split; [done|].
  apply description_finished.
Qed.

Lemma board_savable n s :
  Z.of_nat n < 2 ^ 29 -> consistent (objects_of (board_objects n)) s = true ->
  savable subsection_fuel (entries (board_objects n)) (objects_of (board_objects n)) s.
Proof.
  intros Hn. apply consistent_savable, Forall_lookup_2. intros j x Hx. unfold objects_of in Hx. rewrite list_lookup_imap in Hx.
  destruct (board_objects n !! j) as [k|] eqn:Hk; [|done]. injection Hx as <-. exists k. split; [by apply entry_described|done].
Qed.
End registration.

(** ** The board survives *)

Section survival.
Context {D : Type} {backing : Backing D} {laws : BackingLaws D} (x86_64 : bool).

End survival.

(** ** Witness *)

Definition stored (p : addr) (regs : registers) (m : memory) : memory :=
  foldr (fun r m => store ((r.1.1, r.1.2) :: p) r.2 m) m regs.
Definition holds_all (p : addr) (m : memory) (regs : registers) : bool := forallb (fun r => cell ((r.1.1, r.1.2) :: p) m =? r.2) regs.

Lemma holds_check p m regs : holds_all p m regs = true -> holds p m regs.
Proof.
  intros H n i v Hr. unfold holds_all in H. rewrite forallb_forall in H. specialize (H _ (proj1 (list_elem_of_In _ _) Hr)).
  by apply Z.eqb_eq in H.
Qed.

(** The sample of the interrupt controllers, in the middle of things: a vector is
    requested, the timer of APIC 0 is armed, a pin of the IO-APIC is programmed. *)
Definition sample_running : board :=
  set_bd_chips (set_ch_timers [(ApicTimer 0, 12345)] (set_ch_master (set_p_irr 3 (set_p_imr 184 (sample_pic true)))
      (set_ch_ioapic (mk_ioapic 1 16 4 (<[2%nat := 2 ^ 56 + 49]> (replicate IOAPIC_NUM_PINS (2 ^ 16)))) sample_chips)))
    (set_bd_apics [set_a_irr (<[1%nat := 2 ^ 17]> (replicate 8 0)) (sample_apic 0); sample_apic 1] sample_bus).
Definition sample_cpu (e : nat) : CPUState := m_cpus (bd_machine sample_running) !!! e.
Definition sample_memory : memory :=
  stored [("cpu", 0%nat)] (cpu_registers (sample_cpu 0)) $ stored [("cpu", 1%nat)] (cpu_registers (sample_cpu 1)) $
  stored [("apic", 0%nat)] (apic_registers (bd_apics sample_running !!! 0%nat) (cpu_apic_isr (sample_cpu 0))) $
  stored [("apic", 1%nat)] (apic_registers (bd_apics sample_running !!! 1%nat) (cpu_apic_isr (sample_cpu 1))) $
  stored [("i8259", 0%nat)] (pic_registers (ch_master (bd_chips sample_running))) $
  stored [("i8259", 1%nat)] (pic_registers (ch_slave (bd_chips sample_running))) $
  stored [("ioapic", 0%nat)] (ioapic_registers (ch_ioapic (bd_chips sample_running))) $
  mk_memory ∅ [([("timer", 0%nat); ("apic", 0%nat)], 12345)].

Lemma sample_running_typed : chips_typed sample_running.
Proof.
  split; [repeat constructor; done|repeat constructor; done|split; done|split; done| |done|done].
  split; [done|done|done|]. split; [done|]. repeat constructor; done.
Qed.

Lemma sample_image : image sample_running sample_memory.
Proof.
  split.
  - intros [|[|e]] c Hc; [..|done]; injection Hc as <-; apply holds_check; by vm_compute.
  - intros [|[|e]] c a Hc Ha; [..|done]; injection Hc as <-; injection Ha as <-; (split; [apply holds_check|]; by vm_compute).
  - apply holds_check; by vm_compute.
  - apply holds_check; by vm_compute.
  - apply holds_check; by vm_compute.
Qed.

Lemma sample_consistent : consistent (D := list Z) (objects_of true (board_objects 2)) sample_memory = true.
Proof. by vm_compute. Qed.


(** The same entries, without what they mean. *)
Lemma loadvm_savevm_witness :
  exists f f' b1 f2 t',
    qemu_savevm_state 1 (objects_of true (board_objects 2)).*1 (mk_vm (qemu_fopen_bdrv (D := list Z) [] true) sample_memory) =
      Ret (mk_vm f (saved (objects_of true (board_objects 2)) sample_memory)) 0 /\
    qemu_fclose f = Ret f' b1 /\
    qemu_loadvm_state 11 subsection_fuel (objects_of true (board_objects 2)).*1 (mk_vm (qemu_fopen_bdrv b1 false) (mk_memory ∅ [])) =
      Ret (mk_vm f2 t') 0.
Proof.
  destruct (loadvm_savevm subsection_fuel (objects_of true (board_objects 2)) sample_memory (mk_memory ∅ []) ([] : list Z))
    as (f & f' & b1 & f2 & t' & E & E' & _ & E2 & _).
  - rewrite objects_entries. apply board_savable; [done|exact sample_consistent].
  - split; [constructor|apply NoDup_nil_2].
  - exists f, f', b1, f2, t'. split; [exact E|]. split; [exact E'|exact E2].
Defined.

(** ** What the APIC forgets *)

(** Whether the CPU waits for a start-up message, and the vector of one that came, are
    no part of the description: they keep whatever the loading machine has. *)
Lemma apic_forgets_sipi {D} `{Backing D} s p n : n ∈ ["sipi_vector"; "wait_for_sipi"] -> Cell ((n, 0%nat) :: [p]) ∉ covers s (vmstate_apic (D := D)) [p].
Proof.
  intros Hn. eapply not_covered; [done|]. right. rewrite !elem_of_cons, elem_of_nil in Hn.
  destruct Hn as [->|[->|[]]]; apply (bool_decide_unpack _); by vm_compute.
Qed.
