(* ===== verification/CpuSnapshot.v ===== *)
(** * CpuSnapshot.v -- the floating-point unit of a CPU and the flag of SKI

    A CPU's status word, top of stack and tags are not saved as they are:
    [cpu_pre_save] packs them and [cpu_post_load] takes them apart again
    (target-i386/machine.c).  Also a situation in which a CPU cannot be loaded. *)

From stdpp Require Import gmap strings.
From S2P Require Import Prelude CString Machine Timers QemuFile Vmstate VmstateRoundtrip SaveVM SaveVMRoundtrip Descriptions Snapshot BoardSnapshot.

(** The floating-point unit of the CPU [p] holds values of its registers' widths, and
    the bits of the status word that are kept apart are clear. *)
Record fpu_ok (p : addr) (m : memory) : Prop := {
  fo_fpstt : 0 <= cell (("fpstt", 0%nat) :: p) m < 8;
  fo_fpus : 0 <= cell (("fpus", 0%nat) :: p) m < 2 ^ 16 /\ Z.land (cell (("fpus", 0%nat) :: p) m) 14336 = 0;
  fo_tags i : (i < 8)%nat -> exists x : bool, cell (("fptags", i) :: p) m = b2z x
}.

(** ** Packing and unpacking *)

Lemma status_mask n : 0 <= n -> Z.testbit 14336 n = (11 <=? n) && (n <? 14).
Proof.
  intros Hn. change 14336 with (Z.shiftl (Z.ones 3) 11). rewrite Z.shiftl_spec by done.
  destruct (Z.leb_spec 11 n); [|by rewrite Z.testbit_neg_r by lia]. rewrite Z.testbit_ones by lia.
  destruct (Z.ltb_spec n 14); lia.
Qed.

Lemma testbit_below a k n : 0 <= a < 2 ^ k -> 0 <= k <= n -> Z.testbit a n = false.
Proof.
  intros Ha Hn. rewrite <- (Z.mod_small a (2 ^ k)) by done. by apply Z.mod_pow2_bits_high.
Qed.

Definition packed (fpus fpstt : Z) : Z := Z.lor (Z.land fpus (Z.lnot 14336)) (Z.shiftl (Z.land fpstt 7) 11) mod 2 ^ 16.

Lemma packed_top fpus fpstt : 0 <= fpstt < 8 -> Z.land (Z.shiftr (packed fpus fpstt) 11) 7 = fpstt.
Proof.
  intros Ht. apply Z.bits_inj'. intros n Hn. change 7 with (Z.ones 3). unfold packed.
  rewrite Z.land_spec, Z.testbit_ones, Z.shiftr_spec by lia. destruct (Z.ltb_spec n 3); cycle 1.
  - rewrite !andb_false_r. by rewrite (testbit_below _ 3) by lia.
  - rewrite Z.mod_pow2_bits_low, Z.lor_spec, Z.land_spec, Z.lnot_spec, status_mask, Z.shiftl_spec, Z.land_spec by lia.
    change 7 with (Z.ones 3). rewrite Z.testbit_ones by lia. replace (n + 11 - 11) with n by lia.
    rewrite !(proj2 (Z.leb_le _ _)), !(proj2 (Z.ltb_lt _ _)) by lia. cbn. by rewrite andb_false_r, !andb_true_r.
Qed.

Lemma packed_status fpus fpstt :
  0 <= fpus < 2 ^ 16 -> Z.land fpus 14336 = 0 -> Z.land (packed fpus fpstt) (Z.lnot 14336) = fpus.
Proof.
  intros Hu Hz. apply Z.bits_inj'. intros n Hn. unfold packed. rewrite Z.land_spec, Z.lnot_spec by lia.
  pose proof (f_equal (fun a => Z.testbit a n) Hz) as Hb. cbn beta in Hb. rewrite Z.land_spec, Z.bits_0 in Hb.
  destruct (Z.ltb_spec n 16); cycle 1.
  - by rewrite Z.mod_pow2_bits_high, (testbit_below fpus 16) by lia.
  - rewrite Z.mod_pow2_bits_low, Z.lor_spec, Z.land_spec, Z.lnot_spec, Z.shiftl_spec, Z.land_spec by lia.
    change 7 with (Z.ones 3). rewrite status_mask in * by done.
    destruct (Z.leb_spec 11 n); [|rewrite (Z.testbit_neg_r (Z.ones 3)) by lia; cbn; by rewrite andb_false_r, orb_false_r, !andb_true_r].
    rewrite Z.testbit_ones by lia. destruct (Z.ltb_spec n 14).
    + cbn in *. rewrite andb_true_r in Hb. by rewrite Hb, !andb_false_r.
    + rewrite (proj2 (Z.ltb_ge (n - 11) 3)) by lia. cbn. by rewrite !andb_false_r, orb_false_r, !andb_true_r.
Qed.

Definition tag_word (tag : nat -> Z) : Z :=
  foldl (fun tags i => Z.lor tags (Z.shiftl (b2z (tag i =? 0)) (Z.of_nat i))) 0 (seq 0 8).

Lemma tag_back (tag : nat -> Z) i :
  (forall j, (j < 8)%nat -> exists x : bool, tag j = b2z x) -> (i < 8)%nat ->
  Z.land (Z.shiftr (Z.lxor (tag_word tag) 255) (Z.of_nat i)) 1 = tag i.
Proof.
  intros Ht Hi. unfold tag_word. cbn [seq foldl].
  destruct (Ht 0%nat ltac:(lia)) as [x0 E0], (Ht 1%nat ltac:(lia)) as [x1 E1], (Ht 2%nat ltac:(lia)) as [x2 E2], (Ht 3%nat ltac:(lia)) as [x3 E3],
    (Ht 4%nat ltac:(lia)) as [x4 E4], (Ht 5%nat ltac:(lia)) as [x5 E5], (Ht 6%nat ltac:(lia)) as [x6 E6], (Ht 7%nat ltac:(lia)) as [x7 E7].
  rewrite E0, E1, E2, E3, E4, E5, E6, E7.
  do 8 (destruct i as [|i]; [rewrite ?E0, ?E1, ?E2, ?E3, ?E4, ?E5, ?E6, ?E7; by destruct x0, x1, x2, x3, x4, x5, x6, x7|]). lia.
Qed.

(** [cpu_post_load] undoes [cpu_pre_save], in any memory with the two packed words. *)
Lemma fpu_unpacked p s t n i :
  fpu_ok p s -> cell (("fpus_vmstate", 0%nat) :: p) t = packed (cell (("fpus", 0%nat) :: p) s) (cell (("fpstt", 0%nat) :: p) s) ->
  cell (("fptag_vmstate", 0%nat) :: p) t = tag_word (fun i => cell (("fptags", i) :: p) s) -> p <> [] ->
  (n, i) ∈ [("fpstt", 0%nat); ("fpus", 0%nat)] \/ n = "fptags" /\ (i < 8)%nat ->
  cell ((n, i) :: p) (cpu_post_load p CPU_SAVE_VERSION t).1 = cell ((n, i) :: p) s.
Proof.
  intros [Htop [Hu Hm] Htags] Hus Htag Hp Hn. unfold cpu_post_load. cbv zeta. cbn [fst].
  assert (Hflag : forall m, cell ((n, i) :: p) (if c_true (cell (("ski_active", 0%nat) :: p) m) then store restoring_flag 1 m else m) =
            cell ((n, i) :: p) m).
  { intros m. destruct (c_true _); [|done]. rewrite cell_store, decide_False; [done|]. by intros [= _ _ ->]. }
  rewrite Hflag, Hus, Htag. cbn [seq foldl]. destruct Hn as [Hn|[-> Hi]].
  - rewrite !elem_of_cons, elem_of_nil in Hn. destruct Hn as [[= -> ->]|[[= -> ->]|[]]];
      rewrite !cell_store; repeat (rewrite decide_False by (intros [=]; lia)); rewrite decide_True by done.
    + by apply packed_top.
    + by apply packed_status.
  - rewrite !cell_store. pose proof (tag_back _ i Htags Hi) as Hback.
    do 8 (destruct i as [|i]; [repeat (rewrite decide_False by (intros [=])); by rewrite decide_True by done|]). lia.
Qed.

(** ** The CPU *)

Lemma cpu_prepared {D} x86_64 p s : prepared (vmstate_cpu (D := D) x86_64) p s = cpu_pre_save p s.
Proof. done. Qed.

(** Neither function touches SKI's flags of the CPU, and the restoring flag depends on
    [ski_active] alone. *)
Lemma pre_save_active p s : cell (("ski_active", 0%nat) :: p) (cpu_pre_save p s) = cell (("ski_active", 0%nat) :: p) s.
Proof. unfold cpu_pre_save. cbv zeta. by rewrite !cell_store, !decide_False by done. Qed.

Lemma pre_save_packed p s :
  cell (("fpus_vmstate", 0%nat) :: p) (cpu_pre_save p s) = packed (cell (("fpus", 0%nat) :: p) s) (cell (("fpstt", 0%nat) :: p) s) /\
  cell (("fptag_vmstate", 0%nat) :: p) (cpu_pre_save p s) = tag_word (fun i => cell (("fptags", i) :: p) s).
Proof.
  unfold cpu_pre_save. cbv zeta. rewrite !cell_store. split; repeat (rewrite decide_False by done); by rewrite decide_True.
Qed.

Lemma post_load_flag p v t :
  p <> [] -> cell restoring_flag (cpu_post_load p v t).1 = if c_true (cell (("ski_active", 0%nat) :: p) t) then 1 else cell restoring_flag t.
Proof.
  intros Hp. unfold cpu_post_load. cbv zeta. cbn [fst].
  assert (Hne : forall x, restoring_flag <> x :: p) by (intros x [= _ <-]; done). set (m := foldl _ _ _).
  assert (Ha : cell (("ski_active", 0%nat) :: p) m = cell (("ski_active", 0%nat) :: p) t)
    by (subst m; cbn [seq foldl]; by rewrite !cell_store, !decide_False by done).
  assert (Hf : cell restoring_flag m = cell restoring_flag t)
    by (subst m; cbn [seq foldl]; by rewrite !cell_store, !decide_False by apply Hne).
  rewrite Ha. destruct (c_true _); [by rewrite cell_store, decide_True|exact Hf].
Qed.

Lemma cpu_saves {D} x86_64 n : n ∈ ["fpus_vmstate"; "fptag_vmstate"; "ski_active"] -> saves_cell (vmstate_cpu (D := D) x86_64) n 0 = true.
Proof. rewrite !elem_of_cons, elem_of_nil. by destruct x86_64; intros [->|[->|[->|[]]]]. Qed.

Section cpu.
Context {D : Type} {backing : Backing D} {laws : BackingLaws D} (x86_64 : bool).

(** C40: a CPU whose registers fit their widths is saved by [cpu_save], and [cpu_load] reads exactly what was written and
    succeeds in any machine: the top of the floating-point stack, the status word and the tags, which are saved packed, come
    back, and the flag that tells SKI about a restored snapshot is raised exactly when the saved CPU was active. *)
Theorem cpu_load_save e s t tail :
  let p := [("cpu", e)] in
  fpu_ok p s -> in_range (cpu_pre_save p s) (vmstate_cpu (D := D) x86_64) p = true ->
  clear (cpu_pre_save p s) (vmstate_cpu (D := D) x86_64) p tail = true -> mem_ok t ->
  exists bs,
    (forall d0 f ws, writing d0 f ws -> exists f', cpu_save x86_64 p (mk_vm f s) = Ret (mk_vm f' (cpu_pre_save p s)) tt /\ writing d0 f' (ws ++ bs)) /\
    (forall f, reading f (bs ++ tail) -> exists f' t',
      cpu_load x86_64 subsection_fuel p CPU_SAVE_VERSION (mk_vm f t) = Ret (mk_vm f' t') 0 /\ reading f' tail /\
      cell (("fpstt", 0%nat) :: p) t' = cell (("fpstt", 0%nat) :: p) s /\ cell (("fpus", 0%nat) :: p) t' = cell (("fpus", 0%nat) :: p) s /\
      (forall i, (i < 8)%nat -> cell (("fptags", i) :: p) t' = cell (("fptags", i) :: p) s) /\
      cell restoring_flag t' = if c_true (cell (("ski_active", 0%nat) :: p) s) then 1 else cell restoring_flag t).
Proof.
  intros p Hfpu Hr Hc Hok. exists (encode (cpu_pre_save p s) (vmstate_cpu (D := D) x86_64) p). split.
  { pose proof (save_puts subsection_fuel (vmstate_cpu x86_64) (cpu_loadable x86_64) p s) as Hp. rewrite cpu_prepared in Hp. exact (Hp Hr). }
  destruct (load_brings _ _ (cpu_loadable (D := D) x86_64) p (cpu_pre_save p s) tail t Hr (cpu_stable _ _ _) Hc Hok) as (t1 & Hg & [Hin Hout] & _).
  intros f Hf. destruct (Hg f Hf) as (f' & E & Hf' & _). exists f', (cpu_post_load p CPU_SAVE_VERSION t1).1.
  assert (Hback : forall n, saves_cell (vmstate_cpu (D := D) x86_64) n 0 = true -> cell ((n, 0%nat) :: p) t1 = cell ((n, 0%nat) :: p) (cpu_pre_save p s))
    by (intros n Hn; apply (Hin (Cell _)), saves_cell_covers, Hn).
  assert (Hun : forall n i, (n, i) ∈ [("fpstt", 0%nat); ("fpus", 0%nat)] \/ n = "fptags" /\ (i < 8)%nat ->
            cell ((n, i) :: p) (cpu_post_load p CPU_SAVE_VERSION t1).1 = cell ((n, i) :: p) s).
  { destruct (pre_save_packed p s) as [Hus Htag].
    intros n i. refine (fpu_unpacked p s t1 n i Hfpu (eq_trans (Hback _ (cpu_saves _ _ _)) Hus) (eq_trans (Hback _ (cpu_saves _ _ _)) Htag) _);
      [repeat constructor..|discriminate]. }
  split; [exact E|]. split; [done|]. split; [apply Hun; left; repeat constructor|]. split; [apply Hun; left; repeat constructor|]. split; [intros i Hi; apply Hun; by right|].
  rewrite post_load_flag, (Hback "ski_active"), pre_save_active by (discriminate || (apply cpu_saves; repeat constructor)). destruct (c_true _); [done|].
  apply (Hout (Cell _)). intros (q & n & j & Hq & _)%covers_under. apply (f_equal length) in Hq. rewrite length_app in Hq. cbn in Hq. lia.
Qed.
End cpu.

(** ** Witness *)

Definition sample_fpu : memory :=
  stored [("cpu", 0%nat)] [("fpstt", 0%nat, 5); ("fpus", 0%nat, 16640); ("fptags", 1%nat, 1); ("fptags", 6%nat, 1); ("ski_active", 0%nat, 1)] sample_memory.

(** A CPU in a test, its floating-point stack in use, followed by the end of the file. *)
Lemma cpu_load_save_witness :
  exists bs,
    (forall d0 f ws, writing (D := list Z) d0 f ws -> exists f', cpu_save true [("cpu", 0%nat)] (mk_vm f sample_fpu) =
       Ret (mk_vm f' (cpu_pre_save [("cpu", 0%nat)] sample_fpu)) tt /\ writing d0 f' (ws ++ bs)) /\
    (forall f, reading f (bs ++ [QEMU_VM_EOF]) -> exists f' t',
      cpu_load true subsection_fuel [("cpu", 0%nat)] CPU_SAVE_VERSION (mk_vm f (mk_memory ∅ [])) = Ret (mk_vm f' t') 0 /\
      cell [("fpstt", 0%nat); ("cpu", 0%nat)] t' = 5 /\ cell [("fptags", 6%nat); ("cpu", 0%nat)] t' = 1 /\ cell restoring_flag t' = 1).
Proof.
  destruct (cpu_load_save (D := list Z) true 0 sample_fpu (mk_memory ∅ []) [QEMU_VM_EOF]) as (bs & Hs & Hl).
  - split; [by vm_compute|split; by vm_compute|]. intros i Hi.
    do 8 (destruct i as [|i]; [first [by exists false; vm_compute|by exists true; vm_compute]|]). lia.
  - by vm_compute.
  - by vm_compute.
  - split; [constructor|apply NoDup_nil_2].
  - exists bs. split; [exact Hs|]. intros f Hf. destruct (Hl f Hf) as (f' & t' & E & _ & Ht & _ & Hg & Hr).
    exists f', t'. split; [exact E|]. split; [exact Ht|]. split; [exact (Hg 6%nat ltac:(lia))|exact Hr].
Defined.

(** ** A register that ends the load *)

(** [vmstate_subsection_load] also runs behind every structure inside the CPU, and
    takes the next bytes for the name of a subsection when they look like one.  With
    0x0508786d6d5f7265 and a 0x67 in front of the high half of [xmm_regs[1]] (the bytes
    5, 8 and the text xmm_reg with one letter more) the snapshot that was written
    without an error cannot be loaded. *)
Definition sample_xmm : memory :=
  store [("XMM_Q(1)", 0%nat); ("xmm_regs", 1%nat); ("cpu", 0%nat)] (103 * 2 ^ 56 + 97 * 2 ^ 48)
    (store [("XMM_Q(0)", 0%nat); ("xmm_regs", 1%nat); ("cpu", 0%nat)] 362672181385065061 sample_fpu).

Definition reload_cpu (m : memory) : option Z :=
  match cpu_save true [("cpu", 0%nat)] (mk_vm (qemu_fopen_bdrv (D := list Z) [] true) m) with
  | Ret v _ =>
      match qemu_fclose (vm_file v) with
      | Ret _ d =>
          match cpu_load true subsection_fuel [("cpu", 0%nat)] CPU_SAVE_VERSION (mk_vm (qemu_fopen_bdrv d false) (mk_memory ∅ [])) with
          | Ret _ r => Some r
          | _ => None
          end
      | _ => None
      end
  | _ => None
  end.

Lemma xmm_register_not_loaded : reload_cpu sample_fpu = Some 0 /\ reload_cpu sample_xmm = Some (- ENOENT).
Proof. split; by vm_compute. Qed.
