(* ===== verification/Qcow2.v ===== *)
(** * Qcow2.v -- the snapshots inside a disk image

    Models [vmm/block/qcow2-snapshot.c] and the state area of [vmm/block/qcow2.c]:
    the table of snapshots of an image, how a snapshot is found, made, returned to
    and deleted, and the area behind the disk in which the state of the machine is
    saved.

    What the L1 table of an image leads to is a value, the guest's disk and the state
    area: clusters that a snapshot shares are copied before they are written (the
    reference counts of [qcow2-refcount.c] are not modelled).  What the storage
    answers to the steps that can fail is the parameter [answer], negative for an
    error, and [torn] is what an L1 table that was read or written in part leads to. *)

From stdpp Require Import gmap strings.
From S2P Require Import Prelude CString QemuFile SaveVM.

(** ** Images *)

(** [block.h]; the strings are those in front of the NUL. *)
Record QEMUSnapshotInfo := mk_sn {
  sn_id_str : list Z;
  sn_name : list Z;
  sn_vm_state_size : Z;
  sn_date_sec : Z;
  sn_date_nsec : Z;
  sn_vm_clock_nsec : Z
}.

Record clusters := mk_clusters { cl_disk : list Z; cl_vmstate : list Z }.

(** [qs_name] is [None] when the memory of the name was freed. *)
Record QCowSnapshot := mk_qs {
  qs_l1 : clusters;
  qs_id_str : list Z;
  qs_name : option (list Z);
  qs_vm_state_size : Z;
  qs_date_sec : Z;
  qs_date_nsec : Z;
  qs_vm_clock_nsec : Z
}.

Record BDRVQcowState := mk_qcow { q_l1 : clusters; q_snapshots : list QCowSnapshot }.
Definition set_q_l1 (v : clusters) (q : BDRVQcowState) : BDRVQcowState := mk_qcow v (q_snapshots q).
Definition set_q_snapshots (v : list QCowSnapshot) (q : BDRVQcowState) : BDRVQcowState := mk_qcow (q_l1 q) v.

Inductive storage_op := SRefcount (addend : Z) | SAlloc | SWriteL1 | SReadL1 | SGrowL1 | SWriteTable | SSaveState | SLoadState.

(** [strtoul(s, NULL, 10)], made an [int]. *)
Definition strtoul_int (s : list Z) : Z :=
  match sscanf_d s with
  | Some (v, _) => wrap32 (if Z.abs v <? 2 ^ 64 then v else 2 ^ 64 - 1)
  | None => 0
  end.

Section qcow2.
Context (answer : storage_op -> BDRVQcowState -> Z) (torn : clusters -> clusters -> clusters).

(** ** The table *)

Definition find_new_snapshot_id (q : BDRVQcowState) : list Z :=
  let id_max := foldl (fun id_max sn => let id := strtoul_int (qs_id_str sn) in if id >? id_max then id else id_max) 0 (q_snapshots q) in
  print_dec (wrap32 (id_max + 1)).

Definition find_snapshot_by_id (id_str : list Z) (q : BDRVQcowState) : option nat :=
  fst <$> list_find (fun sn => qs_id_str sn = id_str) (q_snapshots q).

(** Comparing with a name that was freed is undefined. *)
Fixpoint find_name (name : list Z) (i : nat) (l : list QCowSnapshot) : M BDRVQcowState (option nat) :=
  match l with
  | [] => ret None
  | sn :: l' =>
      match qs_name sn with
      | None => stop HUndef
      | Some n => if bool_decide (n = name) then ret (Some i) else find_name name (S i) l'
      end
  end.
Definition find_snapshot_by_id_or_name (name : list Z) : M BDRVQcowState (option nat) :=
  q <- get ;;
  match find_snapshot_by_id name q with
  | Some i => ret (Some i)
  | None => find_name name 0 (q_snapshots q)
  end.

Definition qcow2_write_snapshots : M BDRVQcowState Z := q <- get ;; ret (Z.min 0 (answer SWriteTable q)).

(** ** The operations *)

(** The result, and the description with the identifier that was given to it. *)
Definition qcow2_snapshot_create (sn_info : QEMUSnapshotInfo) : M BDRVQcowState (Z * QEMUSnapshotInfo) :=
  q <- get ;;
  let id := match sn_id_str sn_info with [] => find_new_snapshot_id q | id => id end in
  let sn_info := mk_sn id (sn_name sn_info) (sn_vm_state_size sn_info) (sn_date_sec sn_info) (sn_date_nsec sn_info)
                   (sn_vm_clock_nsec sn_info) in
  match find_snapshot_by_id id q with
  | Some _ => ret (- ENOENT, sn_info)
  | None =>
      if answer (SRefcount 1) q <? 0 then ret (-1, sn_info)
      else if answer SAlloc q <? 0 then ret (-1, sn_info)
      else if answer SWriteL1 q <? 0 then ret (-1, sn_info)
      else
        let sn name := mk_qs (q_l1 q) id name (sn_vm_state_size sn_info) (sn_date_sec sn_info) (sn_date_nsec sn_info)
                         (sn_vm_clock_nsec sn_info) in
        put (set_q_snapshots (q_snapshots q ++ [sn (Some (sn_name sn_info))]) q) ;;;
        r <- qcow2_write_snapshots ;;
        if r <? 0 then put (set_q_snapshots (q_snapshots q ++ [sn None]) q) ;;; ret (-1, sn_info)
        else ret (0, sn_info)
  end.

Definition qcow2_snapshot_goto (snapshot_id : list Z) : M BDRVQcowState Z :=
  o <- find_snapshot_by_id_or_name snapshot_id ;;
  q <- get ;;
  match o ≫= (fun i => q_snapshots q !! i) with
  | None => ret (- ENOENT)
  | Some sn =>
      if answer (SRefcount (-1)) q <? 0 then ret (- EIO)
      else if answer SGrowL1 q <? 0 then ret (- EIO)
      else if (answer SReadL1 q <? 0) || (answer SWriteL1 q <? 0) then put (set_q_l1 (torn (q_l1 q) (qs_l1 sn)) q) ;;; ret (- EIO)
      else
        put (set_q_l1 (qs_l1 sn) q) ;;;
        ret (if answer (SRefcount 1) (set_q_l1 (qs_l1 sn) q) <? 0 then - EIO else 0)
  end.

Definition qcow2_snapshot_delete (snapshot_id : list Z) : M BDRVQcowState Z :=
  o <- find_snapshot_by_id_or_name snapshot_id ;;
  q <- get ;;
  match o with
  | None => ret (- ENOENT)
  | Some i =>
      if answer (SRefcount (-1)) q <? 0 then ret (answer (SRefcount (-1)) q)
      else if answer (SRefcount 0) q <? 0 then ret (answer (SRefcount 0) q)
      else put (set_q_snapshots (delete i (q_snapshots q)) q) ;;; qcow2_write_snapshots
  end.

Fixpoint snapshot_infos (l : list QCowSnapshot) : M BDRVQcowState (list QEMUSnapshotInfo) :=
  match l with
  | [] => ret []
  | sn :: l' =>
      match qs_name sn with
      | None => stop HUndef
      | Some name =>
          infos <- snapshot_infos l' ;;
          ret (mk_sn (pstrcpy 128 (qs_id_str sn)) (pstrcpy 256 name) (qs_vm_state_size sn) (qs_date_sec sn) (qs_date_nsec sn)
                 (qs_vm_clock_nsec sn) :: infos)
      end
  end.
Definition qcow2_snapshot_list : M BDRVQcowState (list QEMUSnapshotInfo) := q <- get ;; snapshot_infos (q_snapshots q).

(** ** The state area *)

(** Writing grows the area; behind what was written it reads as zeros. *)
Definition qcow2_save_vmstate (buf : list Z) (pos : Z) (q : BDRVQcowState) : Z * BDRVQcowState :=
  if answer SSaveState q <? 0 then (answer SSaveState q, q)
  else
    let p := Z.to_nat pos in
    let area := cl_vmstate (q_l1 q) in
    (Z.of_nat (length buf),
     set_q_l1 (mk_clusters (cl_disk (q_l1 q)) (memcpy_at p buf (area ++ replicate (p - length area) 0))) q).
Definition qcow2_load_vmstate (pos size : Z) (q : BDRVQcowState) : Z * list Z :=
  if answer SLoadState q <? 0 then (answer SLoadState q, [])
  else
    let r := take (Z.to_nat size) (drop (Z.to_nat pos) (cl_vmstate (q_l1 q)) ++ replicate (Z.to_nat size) 0) in
    (Z.of_nat (length r), r).

(** A snapshot file inside the image. *)
Definition image_file : Backing BDRVQcowState := block_image qcow2_save_vmstate qcow2_load_vmstate.
End qcow2.

(** ** A new snapshot gets a free number *)

Lemma id_max_bound (l : list QCowSnapshot) m :
  m <= foldl (fun id_max sn => let id := strtoul_int (qs_id_str sn) in if id >? id_max then id else id_max) m l /\
  Forall (fun sn => strtoul_int (qs_id_str sn) <=
            foldl (fun id_max sn => let id := strtoul_int (qs_id_str sn) in if id >? id_max then id else id_max) m l) l.
Proof.
  revert m. induction l as [|sn l IH]; intros m; [split; [done|constructor]|]. cbn [foldl]. cbv zeta.
  set (m' := if strtoul_int (qs_id_str sn) >? m then strtoul_int (qs_id_str sn) else m).
  assert (m <= m' /\ strtoul_int (qs_id_str sn) <= m') as [H1 H2] by (unfold m'; destruct (Z.gtb_spec (strtoul_int (qs_id_str sn)) m); lia).
  destruct (IH m') as [Hm Hl]. split; [etrans; [exact H1|exact Hm]|]. constructor; [etrans; [exact H2|exact Hm]|exact Hl].
Qed.

Lemma strtoul_print z : in_int z -> strtoul_int (print_dec z) = z.
Proof.
  intros Hz. unfold strtoul_int. rewrite <- (app_nil_r (print_dec z)), sscanf_print by done. unfold in_int in Hz.
  zdecide (Z.abs z <? 2 ^ 64). by apply wrap32_id.
Qed.

Lemma find_by_id_None id q : find_snapshot_by_id id q = None <-> Forall (fun sn => qs_id_str sn <> id) (q_snapshots q).
Proof.
  unfold find_snapshot_by_id. rewrite fmap_None. rewrite list_find_None. done.
Qed.

(** The identifier of a new snapshot is none of those in the table. *)
Lemma new_id_free q :
  Forall (fun sn => strtoul_int (qs_id_str sn) < 2 ^ 31 - 1) (q_snapshots q) -> find_snapshot_by_id (find_new_snapshot_id q) q = None.
Proof.
  intros Hb. apply find_by_id_None. unfold find_new_snapshot_id. destruct (id_max_bound (q_snapshots q) 0) as [H0 Hmax].
  set (m := foldl _ _ _) in *.
  assert (Hm : m < 2 ^ 31 - 1).
  { subst m. clear H0 Hmax. assert (0 < 2 ^ 31 - 1) as Hz by done. revert Hz Hb. generalize 0. induction (q_snapshots q) as [|sn l IH]; intros z Hz Hb; [done|].
    apply Forall_cons in Hb as [Hs Hb]. cbn [foldl]. cbv zeta. apply IH; [|done]. destruct (strtoul_int (qs_id_str sn) >? z); lia. }
  rewrite wrap32_id by (unfold in_int; lia). apply (Forall_impl _ _ _ Hmax). intros sn Hsn E. rewrite E, strtoul_print in Hsn by (unfold in_int; lia). lia.
Qed.

(** ** With a storage that answers *)

Section working.
Context (answer : storage_op -> BDRVQcowState -> Z) (torn : clusters -> clusters -> clusters).
Hypothesis answers : forall op q, 0 <= answer op q.

Lemma answered op q : (answer op q <? 0) = false.
Proof. apply Z.ltb_ge, answers. Qed.

#[local] Instance working_file : Backing BDRVQcowState := image_file answer.
#[local] Program Instance working_laws : BackingLaws BDRVQcowState := {| content := fun q => cl_vmstate (q_l1 q); frame := fun q => set_q_l1 (mk_clusters (cl_disk (q_l1 q)) []) q |}.
Next Obligation.
  intros q pos size Hpos Hsize. exists (replicate (Z.to_nat size) 0). cbn [get_buffer working_file image_file block_image].
  unfold block_get_buffer, qcow2_load_vmstate. by rewrite answered.
Qed.
Next Obligation.
  intros q buf pos Hpos. eexists. cbn [put_buffer working_file image_file block_image]. unfold block_put_buffer, qcow2_save_vmstate.
  rewrite answered. split; [done|]. cbn. replace (Z.to_nat pos - _)%nat with 0%nat by lia. by rewrite app_nil_r.
Qed.

(** Strings that fit the fields of [QEMUSnapshotInfo], and names that were not freed. *)
Definition named_entry (sn : QCowSnapshot) : Prop :=
  (length (qs_id_str sn) < 128)%nat /\ exists name, qs_name sn = Some name /\ (length name < 256)%nat.
Definition named (q : BDRVQcowState) : Prop := Forall named_entry (q_snapshots q).
(** [name] is neither the identifier nor the name of a snapshot. *)
Definition unused (name : list Z) (q : BDRVQcowState) : Prop :=
  Forall (fun sn => qs_id_str sn <> name /\ qs_name sn <> Some name) (q_snapshots q).

Definition snapshot_of (q : BDRVQcowState) (id : list Z) (sn : QEMUSnapshotInfo) : QCowSnapshot :=
  mk_qs (q_l1 q) id (Some (sn_name sn)) (sn_vm_state_size sn) (sn_date_sec sn) (sn_date_nsec sn) (sn_vm_clock_nsec sn).

Lemma create_appends q sn :
  let id := match sn_id_str sn with [] => find_new_snapshot_id q | id => id end in
  find_snapshot_by_id id q = None ->
  qcow2_snapshot_create answer sn q =
    Ret (set_q_snapshots (q_snapshots q ++ [snapshot_of q id sn]) q)
        (0, mk_sn id (sn_name sn) (sn_vm_state_size sn) (sn_date_sec sn) (sn_date_nsec sn) (sn_vm_clock_nsec sn)).
Proof.
  intros id Hid. unfold qcow2_snapshot_create. erewrite bind_Ret by reflexivity. fold id. rewrite Hid, !answered.
  erewrite bind_Ret by reflexivity. unfold qcow2_write_snapshots. rewrite bind_assoc. erewrite bind_Ret by reflexivity.
  erewrite bind_Ret by reflexivity. rewrite Z.min_l by apply answers. done.
Qed.

Lemma find_name_last name l sn i q :
  Forall named_entry l -> Forall (fun sn => qs_id_str sn <> name /\ qs_name sn <> Some name) l -> qs_name sn = Some name ->
  find_name name i (l ++ [sn]) q = Ret q (Some (i + length l)%nat).
Proof.
  revert i. induction l as [|a l IH]; intros i Hn Hu Hs; cbn [app find_name].
  - rewrite Hs, bool_decide_eq_true_2 by done. by rewrite Nat.add_0_r.
  - apply Forall_cons in Hn as [(_ & n & Hn & _) Hns]. apply Forall_cons in Hu as [[_ Hu] Hus]. rewrite Hn, bool_decide_eq_false_2 by congruence.
    rewrite IH by done. cbn. do 2 f_equal. lia.
Qed.

Lemma infos_entries l q :
  Forall named_entry l ->
  exists infos, snapshot_infos l q = Ret q infos /\
    Forall2 (fun sn info => sn_id_str info = qs_id_str sn /\ Some (sn_name info) = qs_name sn /\ sn_vm_state_size info = qs_vm_state_size sn) l infos.
Proof.
  induction 1 as [|sn l (Hid & n & Hn & Hlen) _ (infos & E & Hi)]; [by exists []|]. cbn [snapshot_infos]. rewrite Hn.
  rewrite (bind_Ret _ _ _ _ _ E). eexists. split; [reflexivity|]. constructor; [|done]. cbn. unfold pstrcpy. rewrite !take_ge by lia. done.
Qed.

(** Whatever happened to the image in between, going to the newest snapshot of an
    unused name brings back what the image was when it was made. *)
Lemma goto_last q0 q id sn :
  q_snapshots q = q_snapshots q0 ++ [snapshot_of q0 id sn] -> named q0 -> unused (sn_name sn) q0 ->
  qcow2_snapshot_goto answer torn (sn_name sn) q = Ret (mk_qcow (q_l1 q0) (q_snapshots q)) 0.
Proof.
  intros Hq Hn Hu. unfold qcow2_snapshot_goto.
  assert (Hf : find_snapshot_by_id_or_name (sn_name sn) q = Ret q (Some (length (q_snapshots q0)))).
  { unfold find_snapshot_by_id_or_name. erewrite bind_Ret by reflexivity. unfold find_snapshot_by_id. rewrite Hq.
    destruct (list_find (fun sn' => qs_id_str sn' = sn_name sn) (q_snapshots q0 ++ [snapshot_of q0 id sn])) as [[i x]|] eqn:E; cbn.
    - apply list_find_Some in E as (Hx & Hid & _). destruct (decide (i < length (q_snapshots q0))%nat) as [Hi|Hi].
      + rewrite lookup_app_l in Hx by done. eapply Forall_lookup_1 in Hu; [|exact Hx]. by destruct Hu.
      + apply lookup_lt_Some in Hx as Hlt. rewrite length_app in Hlt. cbn in Hlt. replace i with (length (q_snapshots q0)) by lia. done.
    - rewrite find_name_last by done. done. }
  rewrite (bind_Ret _ _ _ _ _ Hf). erewrite bind_Ret by reflexivity. cbn [mbind option_bind].
  rewrite Hq, lookup_app_r, Nat.sub_diag by done. cbn [lookup list_lookup]. rewrite !answered. cbn [orb]. erewrite bind_Ret by reflexivity.
  unfold set_q_l1. cbn. by rewrite Hq.
Qed.
End working.
