(* ===== verification/SkiSnapshot.v ===== *)
(** * SkiSnapshot.v -- SKI's snapshots: taking one and starting from it

    Models the part of [vmm/block.c] that deals with snapshots and the functions of
    [vmm/savevm.c] that take a snapshot of the machine and of its disks
    ([ski_do_savevm], called by the guest's hypercall when a test starts) and return
    to one ([load_vmstate]), and what [main] of [vmm/vl.c] does with the option -loadvm.

    A block device has a driver, qcow2 or one without snapshots, or none (no medium);
    chains in which a driver passes snapshots on to the file below it are left out.
    Requests in flight, which both functions wait for, are not modelled: every write
    of the guest is on the disk.  The host's clocks, the date and the name made from
    it are arguments, and [reset] is what [qemu_system_reset] makes of the memory. *)

From stdpp Require Import gmap strings.
From S2P Require Import Prelude CString Machine Timers Board Apic Chips Delivery ChipsTypes QemuFile Vmstate VmstateRoundtrip SaveVM SaveVMRoundtrip Descriptions Snapshot BoardSnapshot Qcow2.

(** ** Block devices *)

Inductive BlockDriver := bdrv_qcow2 (s : BDRVQcowState) | other_driver (inserted : bool).
Record BlockDriverState := mk_bs { bs_drv : option BlockDriver; bs_read_only : bool }.

Inductive RunState := RUN_STATE_RUNNING | RUN_STATE_SAVE_VM.

(** [bdrv_states] in their order, the device found by [bdrv_snapshots], SKI's flag,
    the state of the machine and its memory. *)
Record host := mk_host {
  bdrv_states : list BlockDriverState;
  bs_snapshots : option nat;
  ski_snapshot : Z;
  current_run_state : RunState;
  h_memory : memory
}.
Definition set_devices (v : list BlockDriverState) (h : host) : host :=
  mk_host v (bs_snapshots h) (ski_snapshot h) (current_run_state h) (h_memory h).
Definition set_bs_snapshots (v : option nat) (h : host) : host :=
  mk_host (bdrv_states h) v (ski_snapshot h) (current_run_state h) (h_memory h).
Definition set_ski_snapshot (v : Z) (h : host) : host :=
  mk_host (bdrv_states h) (bs_snapshots h) v (current_run_state h) (h_memory h).
Definition runstate_set (v : RunState) (h : host) : host :=
  mk_host (bdrv_states h) (bs_snapshots h) (ski_snapshot h) v (h_memory h).
Definition set_memory (v : memory) (h : host) : host :=
  mk_host (bdrv_states h) (bs_snapshots h) (ski_snapshot h) (current_run_state h) v.

Definition ENOMEDIUM : Z := 123.

Definition bdrv_is_inserted (bs : BlockDriverState) : bool :=
  match bs_drv bs with None => false | Some (bdrv_qcow2 _) => true | Some (other_driver inserted) => inserted end.
Definition bdrv_can_snapshot (bs : BlockDriverState) : bool :=
  match bs_drv bs with Some (bdrv_qcow2 _) => negb (bs_read_only bs) | _ => false end.

Definition bdrv_snapshots : M host (option nat) :=
  h <- get ;;
  match bs_snapshots h with
  | Some i => ret (Some i)
  | None =>
      match list_find (fun bs => bdrv_can_snapshot bs = true) (bdrv_states h) with
      | Some (i, _) => put (set_bs_snapshots (Some i) h) ;;; ret (Some i)
      | None => ret None
      end
  end.

(** An operation of the driver of device [i]; [other] is the answer when there is none. *)
Definition on_image {A} (i : nat) (other : Z -> A) (m : M BDRVQcowState A) : M host A := fun h =>
  match bdrv_states h !! i with
  | Some (mk_bs (Some (bdrv_qcow2 q)) ro) =>
      let back q' := set_devices (<[i := mk_bs (Some (bdrv_qcow2 q')) ro]> (bdrv_states h)) h in
      match m q with Ret q' a => Ret (back q') a | Jump q' => Jump (back q') | Halt q' x => Halt (back q') x end
  | Some (mk_bs None _) => Ret h (other (- ENOMEDIUM))
  | Some _ => Ret h (other (- ENOTSUP))
  | None => Halt h HUndef
  end.

Section snapshots.
Context (answer : storage_op -> BDRVQcowState -> Z) (torn : clusters -> clusters -> clusters).
#[local] Instance snapshot_area : Backing BDRVQcowState := image_file answer.

Definition bdrv_snapshot_create (i : nat) (sn_info : QEMUSnapshotInfo) : M host (Z * QEMUSnapshotInfo) :=
  on_image i (fun e => (e, sn_info)) (qcow2_snapshot_create answer sn_info).
Definition bdrv_snapshot_goto (i : nat) (snapshot_id : list Z) : M host Z :=
  on_image i (fun e => e) (qcow2_snapshot_goto answer torn snapshot_id).
Definition bdrv_snapshot_delete (i : nat) (snapshot_id : list Z) : M host Z :=
  on_image i (fun e => e) (qcow2_snapshot_delete answer snapshot_id).
Definition bdrv_snapshot_list (i : nat) : M host (list QEMUSnapshotInfo + Z) :=
  on_image i inr (l <- qcow2_snapshot_list ;; ret (inl l)).

(** ** Finding and deleting by name *)

Definition bdrv_snapshot_find (i : nat) (name : list Z) : M host (QEMUSnapshotInfo + Z) :=
  tab <- bdrv_snapshot_list i ;;
  ret match tab with
      | inr _ => inr (- ENOENT)
      | inl tab =>
          match list_find (fun sn => sn_id_str sn = name \/ sn_name sn = name) tab with
          | Some (_, sn) => inl sn
          | None => inr (- ENOENT)
          end
      end.

(** The devices from [i] on; [ski_del_existing_snapshots] is the same function. *)
Fixpoint del_existing_loop (n i : nat) (name : list Z) : M host Z :=
  match n with
  | O => ret 0
  | S n' =>
      h <- get ;;
      if default false (bdrv_can_snapshot <$> bdrv_states h !! i) then
        found <- bdrv_snapshot_find i name ;;
        match found with
        | inr _ => del_existing_loop n' (S i) name
        | inl _ =>
            r <- bdrv_snapshot_delete i name ;;
            if r <? 0 then ret (-1) else del_existing_loop n' (S i) name
        end
      else del_existing_loop n' (S i) name
  end.
Definition del_existing_snapshots (name : list Z) : M host Z :=
  h <- get ;; del_existing_loop (length (bdrv_states h)) 0 name.

(** ** Taking a snapshot *)

(** The clock of the machine is an object of the memory. *)
Definition timers_state : addr := [("timers_state", 0%nat)].
Definition timers_at (m : memory) : TimersState :=
  let at_ n := cell ((n, 0%nat) :: timers_state) m in
  mk_timers_state (at_ "cpu_ticks_prev") (at_ "cpu_ticks_offset") (at_ "cpu_clock_offset") (c_true (at_ "cpu_ticks_enabled")).
Definition set_timers_at (ts : TimersState) (m : memory) : memory :=
  store (("cpu_ticks_prev", 0%nat) :: timers_state) (ts_cpu_ticks_prev ts)
    (store (("cpu_ticks_offset", 0%nat) :: timers_state) (ts_cpu_ticks_offset ts)
      (store (("cpu_clock_offset", 0%nat) :: timers_state) (ts_cpu_clock_offset ts)
        (store (("cpu_ticks_enabled", 0%nat) :: timers_state) (b2z (ts_cpu_ticks_enabled ts)) m))).
Definition stop_clock (ticks now : Z) (m : memory) : memory := set_timers_at (cpu_disable_ticks ticks now (timers_at m)) m.
Definition start_clock (ticks now : Z) (m : memory) : memory := set_timers_at (cpu_enable_ticks ticks now (timers_at m)) m.

(** A program on a file in the state area of device [i]; what the file holds of the
    image goes back to the device. *)
Definition with_file {A} (i : nat) (is_writable : bool) (m : @VM BDRVQcowState A) : M host A := fun h =>
  match bdrv_states h !! i with
  | Some (mk_bs (Some (bdrv_qcow2 q)) ro) =>
      let back v := set_memory (vm_mem v)
        (set_devices (<[i := mk_bs (Some (bdrv_qcow2 (qf_opaque (vm_file v)))) ro]> (bdrv_states h)) h) in
      match m (mk_vm (qemu_fopen_bdrv q is_writable) (h_memory h)) with
      | Ret v a => Ret (back v) a
      | Jump v => Jump (back v)
      | Halt v x => Halt (back v) x
      end
  | _ => Halt h HUndef
  end.

(** The snapshots of the disks; the identifier the first one chooses is used for all,
    and an error is only reported. *)
Fixpoint create_loop (n j i : nat) (vm_state_size : Z) (sn : QEMUSnapshotInfo) : M host unit :=
  match n with
  | O => ret tt
  | S n' =>
      h <- get ;;
      if default false (bdrv_can_snapshot <$> bdrv_states h !! j) then
        r <- bdrv_snapshot_create j (mk_sn (sn_id_str sn) (sn_name sn) (if Nat.eqb i j then vm_state_size else 0)
               (sn_date_sec sn) (sn_date_nsec sn) (sn_vm_clock_nsec sn)) ;;
        create_loop n' (S j) i vm_state_size r.2
      else create_loop n' (S j) i vm_state_size sn
  end.

(** [sn] has the date, the clock and the name made from the date; [rounds] bounds the
    rounds of the handlers that save in parts.  The first return leaves the flag. *)
Definition ski_do_savevm (rounds : nat) (l : list (SaveStateEntry (D := BDRVQcowState))) (sn : QEMUSnapshotInfo)
    (ticks now ticks' now' : Z) : M host unit :=
  h <- get ;;
  assert_ (ski_snapshot h =? 0) ;;;
  put (set_ski_snapshot 1 h) ;;;
  if existsb (fun bs => bdrv_is_inserted bs && negb (bs_read_only bs) && negb (bdrv_can_snapshot bs)) (bdrv_states h) then ret tt
  else
    o <- bdrv_snapshots ;;
    match o with
    | None => stop HAssert
    | Some i =>
        modify (fun h => runstate_set RUN_STATE_SAVE_VM (set_memory (stop_clock ticks now (h_memory h)) h)) ;;;
        r <- with_file i true (r <- qemu_savevm_state rounds l ;; size <- on_file qemu_ftell ;; on_file qemu_fclose ;;; ret (r, size)) ;;
        (if r.1 <? 0 then ret tt
         else h <- get ;; create_loop (length (bdrv_states h)) 0 i (u32 r.2) sn) ;;;
        modify (fun h => runstate_set RUN_STATE_RUNNING (set_memory (start_clock ticks' now' (h_memory h)) (set_ski_snapshot 0 h)))
    end.

(** ** Returning to a snapshot *)

(** Every device that can be written has snapshots, and the one that is asked for. *)
Fixpoint check_loop (n j : nat) (name : list Z) : M host Z :=
  match n with
  | O => ret 0
  | S n' =>
      h <- get ;;
      match bdrv_states h !! j with
      | None => stop HUndef
      | Some bs =>
          if negb (bdrv_is_inserted bs) || bs_read_only bs then check_loop n' (S j) name
          else if negb (bdrv_can_snapshot bs) then ret (- ENOTSUP)
          else
            found <- bdrv_snapshot_find j name ;;
            match found with inr e => ret e | inl _ => check_loop n' (S j) name end
      end
  end.

Fixpoint goto_loop (n j : nat) (name : list Z) : M host unit :=
  match n with
  | O => ret tt
  | S n' =>
      h <- get ;;
      if default false (bdrv_can_snapshot <$> bdrv_states h !! j) then
        r <- bdrv_snapshot_goto j name ;;
        assert_ (r >=? 0) ;;; goto_loop n' (S j) name
      else goto_loop n' (S j) name
  end.

Definition load_vmstate (reset : memory -> memory) (sections fuel : nat) (l : list (SaveStateEntry (D := BDRVQcowState)))
    (name : list Z) : M host Z :=
  o <- bdrv_snapshots ;;
  match o with
  | None => ret (- ENOTSUP)
  | Some i =>
      found <- bdrv_snapshot_find i name ;;
      match found with
      | inr e => ret e
      | inl sn =>
          if sn_vm_state_size sn =? 0 then ret (- EINVAL)
          else
            h <- get ;;
            r <- check_loop (length (bdrv_states h)) 0 name ;;
            if r <? 0 then ret r
            else
              goto_loop (length (bdrv_states h)) 0 name ;;;
              modify (fun h => set_memory (reset (h_memory h)) h) ;;;
              r <- with_file i false (r <- qemu_loadvm_state sections fuel l ;; on_file qemu_fclose ;;; ret r) ;;
              ret (if r <? 0 then r else 0)
      end
  end.

(** ** At the start of the process *)

(** The name of the last snapshot of the image the option -hda names, [None] when it
    cannot be opened as qcow2; [name_auto] is what the name was before. *)
Definition ski_dump_snapshots (bs : BDRVQcowState) (name_auto : list Z) : M host (list Z) := fun h =>
  match qcow2_snapshot_list bs with
  | Ret _ sn_tab => Ret h (foldl (fun _ sn => sn_name sn) name_auto sn_tab)
  | Jump _ => Jump h
  | Halt _ x => Halt h x
  end.
Definition ski_get_snapshot (disk : option BDRVQcowState) : M host (list Z) :=
  match disk with
  | Some bs => ski_dump_snapshots bs []
  | None => ret []
  end.

(** The name found in the image replaces the argument of -loadvm in its place, where
    there is room for as many bytes as the argument has. *)
Definition chosen_name (name_auto loadvm : list Z) : M host (list Z) :=
  match name_auto with
  | [] => ret loadvm
  | _ => if (length name_auto <=? length loadvm)%nat then ret name_auto else stop HUndef
  end.

(** What [main] does with the option, up to the first fork. *)
Definition main_loadvm (reset : memory -> memory) (sections fuel : nat) (l : list (SaveStateEntry (D := BDRVQcowState)))
    (ski_forkall_enabled fast_resume : bool) (disk : option BDRVQcowState) (loadvm : option (list Z)) : M host unit :=
  name_auto <- ski_get_snapshot disk ;;
  match loadvm with
  | None => assert_ (negb ski_forkall_enabled)
  | Some loadvm =>
      assert_ ski_forkall_enabled ;;;
      when fast_resume (modify (set_ski_snapshot 1)) ;;;
      name <- chosen_name name_auto loadvm ;;
      r <- load_vmstate reset sections fuel l name ;;
      assert_ (negb (r <? 0))
  end.
End snapshots.
