(* ===== verification/SkiSnapshotRestore.v ===== *)
(** * SkiSnapshotRestore.v -- the machine and its disks come back from a snapshot

    Joins [ski_do_savevm] and [load_vmstate] with the snapshots of the board and of
    the images: a snapshot that SKI takes when a test starts brings back, in another
    process and whatever happened to the images since, the disks and the CPUs and
    interrupt controllers. *)

From stdpp Require Import gmap strings.
From S2P Require Import Prelude CString Machine Timers Board Apic Chips Delivery ChipsTypes QemuFile Vmstate VmstateRoundtrip SaveVM SaveVMRoundtrip Descriptions Snapshot BoardSnapshot Qcow2 SkiSnapshot.

(** ** Devices *)

(** The image of a device that takes part in snapshots, and a change of it. *)
Definition image_of (bs : BlockDriverState) : option BDRVQcowState :=
  match bs with mk_bs (Some (bdrv_qcow2 q)) false => Some q | _ => None end.
Definition on_q (g : BDRVQcowState -> BDRVQcowState) (bs : BlockDriverState) : BlockDriverState :=
  match bs with mk_bs (Some (bdrv_qcow2 q)) false => mk_bs (Some (bdrv_qcow2 (g q))) false | _ => bs end.

Lemma image_of_Some bs q : image_of bs = Some q -> bs = mk_bs (Some (bdrv_qcow2 q)) false.
Proof. destruct bs as [[[q'|]|] []]; by intros [= ->]. Qed.

Lemma can_snapshot_image bs : bdrv_can_snapshot bs = bool_decide (is_Some (image_of bs)).
Proof. destruct bs as [[[q|]|] []]; done. Qed.

Lemma on_q_None g bs : image_of bs = None -> on_q g bs = bs.
Proof. by destruct bs as [[[q|]|] []]. Qed.

(** The devices from [j] on are changed. *)
Definition devs_from (g : nat -> BDRVQcowState -> BDRVQcowState) (j : nat) (devs : list BlockDriverState) : list BlockDriverState :=
  imap (fun k bs => if decide (j <= k)%nat then on_q (g k) bs else bs) devs.

Lemma devs_from_lookup g j devs k :
  devs_from g j devs !! k = (fun bs => if decide (j <= k)%nat then on_q (g k) bs else bs) <$> devs !! k.
Proof. apply list_lookup_imap. Qed.

Lemma devs_from_all g devs k : devs_from g 0 devs !! k = on_q (g k) <$> devs !! k.
Proof. rewrite devs_from_lookup. destruct (devs !! k); [|done]. cbn [fmap option_fmap option_map]. by rewrite decide_True by lia. Qed.

Lemma devs_from_step g j devs bs :
  devs !! j = Some bs -> devs_from g (S j) (<[j := on_q (g j) bs]> devs) = devs_from g j devs.
Proof.
  intros Hj. apply list_eq. intros k. rewrite !devs_from_lookup. destruct (decide (k = j)) as [->|Hne].
  - rewrite list_lookup_insert_eq, Hj by (by eapply lookup_lt_Some). cbn. rewrite decide_False, decide_True by lia. done.
  - rewrite list_lookup_insert_ne by done. destruct (devs !! k); [|done]. cbn. f_equal.
    destruct (decide (j <= k)%nat); [rewrite decide_True by lia|rewrite decide_False by lia]; done.
Qed.

Lemma devs_from_skip g j devs bs : devs !! j = Some bs -> image_of bs = None -> devs_from g (S j) devs = devs_from g j devs.
Proof. intros Hj Hn. rewrite <- (devs_from_step g j devs bs Hj), on_q_None, list_insert_id by done. done. Qed.

Lemma devs_from_end g devs : devs_from g (length devs) devs = devs.
Proof.
  apply list_eq. intros k. rewrite devs_from_lookup. destruct (devs !! k) as [bs|] eqn:Hk; [|done]. cbn.
  apply lookup_lt_Some in Hk. by rewrite decide_False by lia.
Qed.

Lemma on_image_Ret {A} i other (m : M BDRVQcowState A) h q q' a :
  bdrv_states h !! i = Some (mk_bs (Some (bdrv_qcow2 q)) false) -> m q = Ret q' a ->
  on_image i other m h = Ret (set_devices (<[i := mk_bs (Some (bdrv_qcow2 q')) false]> (bdrv_states h)) h) a.
Proof. intros Hi Hm. unfold on_image. by rewrite Hi, Hm. Qed.

(** The description of the snapshot of device [j]; [i] holds the state. *)
Definition info_of (sn : QEMUSnapshotInfo) (size : Z) (i j : nat) : QEMUSnapshotInfo :=
  mk_sn [] (sn_name sn) (if Nat.eqb i j then size else 0) (sn_date_sec sn) (sn_date_nsec sn) (sn_vm_clock_nsec sn).
Definition saved_image (id : list Z) (sn : QEMUSnapshotInfo) (size : Z) (i j : nat) (q : BDRVQcowState) : BDRVQcowState :=
  set_q_snapshots (q_snapshots q ++ [snapshot_of q id (info_of sn size i j)]) q.

Section restore.
Context (answer : storage_op -> BDRVQcowState -> Z) (torn : clusters -> clusters -> clusters).
Hypothesis answers : forall op q, 0 <= answer op q.
#[local] Hint Extern 0 (Backing BDRVQcowState) => exact (snapshot_area answer) : typeclass_instances.
#[local] Instance area_laws : @BackingLaws BDRVQcowState (snapshot_area answer) := working_laws answer answers.
Implicit Types (q : BDRVQcowState) (h : host) (bs : BlockDriverState) (sn : QEMUSnapshotInfo).
Implicit Types (xs : list (SaveStateEntry (D := BDRVQcowState) * VMStateDescription (D := BDRVQcowState))).

Definition with_area (area : list Z) q : BDRVQcowState := set_q_l1 (mk_clusters (cl_disk (q_l1 q)) area) q.

(** ** The file in the image *)

Lemma frame_area q q' : frame q' = frame q -> q' = with_area (cl_vmstate (q_l1 q')) q.
Proof. destruct q as [[d v] l], q' as [[d' v'] l']. intros [= -> ->]. done. Qed.

Definition write_state (l : list (SaveStateEntry (D := BDRVQcowState))) : @VM BDRVQcowState (Z * Z) :=
  r <- qemu_savevm_state 1 l ;; size <- on_file qemu_ftell ;; on_file qemu_fclose ;;; ret (r, size).

Lemma with_file_writes i q ro h fuel xs :
  bdrv_states h !! i = Some (mk_bs (Some (bdrv_qcow2 q)) ro) -> savable fuel xs.*1 xs (h_memory h) ->
  exists area, snapshot_bytes xs (h_memory h) `prefix_of` area /\
    with_file i true (write_state xs.*1) h =
      Ret (set_memory (saved xs (h_memory h)) (set_devices (<[i := mk_bs (Some (bdrv_qcow2 (with_area area q))) ro]> (bdrv_states h)) h))
          (0, Z.of_nat (length (snapshot_bytes xs (h_memory h)))).
Proof.
  intros Hi Hs. destruct (savevm_writes fuel 1 xs (h_memory h) q _ [] Hs ltac:(lia) (fopen_writing q)) as (f & E & Hw).
  destruct (fclose_writing f _ Hw) as (f' & q' & E' & Hc & Hfr & Hop). cbn [app] in *. exists (cl_vmstate (q_l1 q')). split; [exact Hc|].
  unfold with_file. rewrite Hi.
  assert (Em : write_state xs.*1 (mk_vm (qemu_fopen_bdrv q true) (h_memory h)) =
               Ret (mk_vm f' (saved xs (h_memory h))) (0, Z.of_nat (length (snapshot_bytes xs (h_memory h))))).
  { unfold write_state. rewrite (bind_Ret _ _ _ _ _ E), (bind_Ret _ _ _ _ _ (on_file_Ret _ _ _ _ _ (ftell_writing _ _ Hw))).
    by rewrite (bind_Ret _ _ _ _ _ (on_file_Ret _ _ _ _ _ E')). }
  rewrite Em. cbn [vm_mem vm_file]. by rewrite Hop, <- (frame_area _ _ Hfr).
Qed.

Lemma with_file_reads i q ro h fuel xs s :
  bdrv_states h !! i = Some (mk_bs (Some (bdrv_qcow2 q)) ro) -> savable fuel xs.*1 xs s -> snapshot_bytes xs s `prefix_of` cl_vmstate (q_l1 q) ->
  mem_ok (h_memory h) ->
  exists t', with_file i false (r <- qemu_loadvm_state (S (length xs)) fuel xs.*1 ;; on_file qemu_fclose ;;; ret r) h =
      Ret (set_memory t' h) 0 /\ loads xs s (h_memory h) t'.
Proof.
  intros Hi Hs Hc Hok. pose proof (loadvm_loads fuel xs s (h_memory h) q Hs) as Hl. destruct (Hl Hc Hok) as (f & t' & E & L & Hr & Hop).
  exists t'. split; [|exact L]. unfold with_file. rewrite Hi, (bind_Ret _ _ _ _ _ E).
  rewrite (bind_Ret _ _ _ (mk_vm f t') q).
  - cbn [ret vm_mem vm_file]. rewrite Hop, list_insert_id by done. by destruct h.
  - apply on_file_Ret. unfold qemu_fclose, qemu_fflush. rewrite !bind_assoc. erewrite bind_Ret by reflexivity.
    rewrite (rd_write _ _ Hr), andb_false_r. cbn [when]. erewrite bind_Ret by reflexivity. erewrite bind_Ret by reflexivity. by rewrite Hop.
Qed.

(** ** The snapshots of all images *)

(** The images of [h] from [j] on have room for the identifier [id]; image [i] is the first. *)
Definition id_free (id : list Z) (i j : nat) h : Prop :=
  forall k bs q, (j <= k)%nat -> bdrv_states h !! k = Some bs -> image_of bs = Some q -> (i <= k)%nat /\ find_snapshot_by_id id q = None.
(** The next image is given [id]: it is the identifier already, or the one image [i] chooses. *)
Definition next_id (id : list Z) (i j : nat) sn h : Prop :=
  sn_id_str sn = id \/
  sn_id_str sn = [] /\ (j <= i)%nat /\ exists q, bdrv_states h !! i = Some (mk_bs (Some (bdrv_qcow2 q)) false) /\ find_new_snapshot_id q = id.

Lemma create_loop_saves n j i id size sn h :
  (j + n = length (bdrv_states h))%nat -> id <> [] -> id_free id i j h -> next_id id i j sn h ->
  create_loop answer n j i size sn h = Ret (set_devices (devs_from (saved_image id sn size i) j (bdrv_states h)) h) tt.
Proof.
  revert j sn h. induction n as [|n IH]; intros j sn h Hn Hid Hfree Hnext.
  { replace j with (length (bdrv_states h)) by lia. rewrite devs_from_end. by destruct h. }
  cbn [create_loop]. erewrite bind_Ret by reflexivity.
  destruct (bdrv_states h !! j) as [bs|] eqn:Hj; [|apply lookup_ge_None_1 in Hj; lia]. cbn [fmap option_fmap option_map from_option Datatypes.id].
  rewrite can_snapshot_image. destruct (image_of bs) as [q|] eqn:Hq.
  - rewrite bool_decide_eq_true_2 by eauto. destruct (Hfree j bs q ltac:(lia) Hj Hq) as [Hij Hfind].
    apply image_of_Some in Hq as ->. set (sn1 := mk_sn _ _ _ _ _ _).
    assert (Hchosen : match sn_id_str sn1 with [] => find_new_snapshot_id q | id => id end = id).
    { destruct Hnext as [E|(E & Hji & q' & Hi & Hnew)]; cbn [sn_id_str sn1]; rewrite E; [by destruct id|].
      assert (j = i) as -> by lia. rewrite Hj in Hi. injection Hi as ->. done. }
    pose proof (create_appends answer answers q sn1) as Hc. cbv zeta in Hc. rewrite Hchosen in Hc. specialize (Hc Hfind).
    unfold bdrv_snapshot_create. rewrite (bind_Ret _ _ _ _ _ (on_image_Ret _ _ _ _ _ _ _ Hj Hc)). cbn [snd].
    rewrite IH; cbn [bdrv_states set_devices sn_id_str].
    + unfold set_devices. cbn. do 2 f_equal. exact (devs_from_step (saved_image id sn size i) j (bdrv_states h) _ Hj).
    + rewrite length_insert. lia.
    + done.
    + intros k bs' q' Hk Hb. cbn [bdrv_states set_devices] in Hb. rewrite list_lookup_insert_ne in Hb by lia. by apply (Hfree k bs' q'); [lia|].
    + by left.
  - rewrite bool_decide_eq_false_2 by (by intros []). rewrite IH; [by rewrite (devs_from_skip _ _ _ bs)|lia|done| |].
    + intros k bs' q' Hk. apply Hfree. lia.
    + destruct Hnext as [E|(E & Hji & q' & Hi & Hnew)]; [by left|right]. split; [done|]. split; [|by exists q'].
      destruct (decide (j = i)) as [->|Hne]; [|lia]. rewrite Hj in Hi. injection Hi as ->. done.
Qed.

(** A host on which SKI can take the snapshot [sn]: every disk that can be written is
    an image, [i] is the first of them, the identifier it chooses is free in all, and
    the name is used in none. *)
Record snapshot_ready (i : nat) q sn h : Prop := {
  sr_flag : ski_snapshot h = 0;
  sr_writable bs : bs ∈ bdrv_states h -> bdrv_is_inserted bs = true -> bs_read_only bs = false -> is_Some (image_of bs);
  sr_cached : bs_snapshots h = None \/ bs_snapshots h = Some i;
  sr_image : bdrv_states h !! i = Some (mk_bs (Some (bdrv_qcow2 q)) false);
  sr_free : id_free (find_new_snapshot_id q) i 0 h;
  sr_names k bs q : bdrv_states h !! k = Some bs -> image_of bs = Some q -> named q /\ unused (sn_name sn) q;
  sr_sn : sn_id_str sn = [] /\ sn_name sn <> [] /\ (length (sn_name sn) < 256)%nat
}.

Lemma new_id_short q : find_new_snapshot_id q <> [] /\ (length (find_new_snapshot_id q) < 128)%nat.
Proof.
  unfold find_new_snapshot_id. split; [apply print_dec_nonempty|]. set (z := wrap32 _). unfold print_dec.
  assert (Hp : forall fuel n acc, (length (print_digits fuel n acc) <= fuel + length acc)%nat).
  { induction fuel as [|fuel IH]; intros n acc; [done|]. cbn [print_digits]. cbv zeta. destruct (n / 10 =? 0); [cbn; lia|].
    etrans; [apply IH|]. cbn. lia. }
  destruct (z <? 0); cbn [length]; [pose proof (Hp 20%nat (- z) [])|pose proof (Hp 20%nat z [])]; cbn [length] in *; lia.
Qed.

Lemma first_image i q h :
  bs_snapshots h = None \/ bs_snapshots h = Some i -> bdrv_states h !! i = Some (mk_bs (Some (bdrv_qcow2 q)) false) ->
  (forall k bs q', bdrv_states h !! k = Some bs -> image_of bs = Some q' -> (i <= k)%nat) ->
  bdrv_snapshots h = Ret (set_bs_snapshots (Some i) h) (Some i).
Proof.
  intros Hc Hi Hfirst. unfold bdrv_snapshots. erewrite bind_Ret by reflexivity. destruct Hc as [E|E]; rewrite E.
  - replace (list_find _ _) with (Some (i, mk_bs (Some (bdrv_qcow2 q)) false)); [by erewrite bind_Ret by reflexivity|].
    symmetry. apply list_find_Some. split; [done|]. split; [done|]. intros k bs Hk Hlt Hcan.
    rewrite can_snapshot_image in Hcan. apply bool_decide_eq_true in Hcan as [q' Hq']. specialize (Hfirst k bs q' Hk Hq'). lia.
  - destruct h; cbn in *. by rewrite E.
Qed.

Lemma all_writable i q sn h :
  snapshot_ready i q sn h ->
  existsb (fun bs => bdrv_is_inserted bs && negb (bs_read_only bs) && negb (bdrv_can_snapshot bs)) (bdrv_states h) = false.
Proof.
  intros []. apply not_true_iff_false. intros (bs & Hin%list_elem_of_In & Hb)%existsb_exists.
  rewrite !andb_true_iff, !negb_true_iff in Hb. destruct Hb as [[Hi Hr] Hc]. rewrite can_snapshot_image in Hc.
  apply bool_decide_eq_false in Hc. by destruct Hc; apply sr_writable0.
Qed.

(** ** Taking the snapshot *)

(** Writing the state leaves the tables alone. *)
Lemma same_images (devs : list BlockDriverState) (i : nat) q area :
  devs !! i = Some (mk_bs (Some (bdrv_qcow2 q)) false) ->
  forall k bs q', <[i := mk_bs (Some (bdrv_qcow2 (with_area area q))) false]> devs !! k = Some bs -> image_of bs = Some q' ->
    exists bs0 q0, devs !! k = Some bs0 /\ image_of bs0 = Some q0 /\ q_snapshots q' = q_snapshots q0.
Proof.
  intros Hi k bs q' Hk Hq'. apply list_lookup_insert_Some in Hk as [(-> & <- & _)|(Hk & Hb)].
  - injection Hq' as <-. by eexists _, q.
  - by exists bs, q'.
Qed.

Lemma snapshot_size xs s : Z.of_nat (length (snapshot_bytes xs s)) < 2 ^ 32 -> u32 (Z.of_nat (length (snapshot_bytes xs s))) <> 0.
Proof.
  intros Hlt. rewrite u32_id by lia. unfold snapshot_bytes. rewrite !length_app. cbn [length]. lia.
Qed.

Lemma savevm_takes i q sn h fuel xs ticks now ticks' now' :
  let s := stop_clock ticks now (h_memory h) in
  snapshot_ready i q sn h -> savable fuel xs.*1 xs s ->
  exists area, snapshot_bytes xs s `prefix_of` area /\
    ski_do_savevm answer 1 xs.*1 sn ticks now ticks' now' h =
      Ret (mk_host (devs_from (saved_image (find_new_snapshot_id q) sn (u32 (Z.of_nat (length (snapshot_bytes xs s)))) i) 0
                      (<[i := mk_bs (Some (bdrv_qcow2 (with_area area q))) false]> (bdrv_states h)))
             (Some i) 0 RUN_STATE_RUNNING (start_clock ticks' now' (saved xs s))) tt.
Proof.
  intros s Hr Hs. pose proof (all_writable _ _ _ _ Hr) as Hall. unfold ski_do_savevm. erewrite bind_Ret by reflexivity.
  rewrite (sr_flag _ _ _ _ Hr). erewrite bind_Ret by reflexivity. erewrite bind_Ret by reflexivity. rewrite Hall.
  rewrite (bind_Ret _ _ _ _ _ (first_image i q (set_ski_snapshot 1 h) (sr_cached _ _ _ _ Hr) (sr_image _ _ _ _ Hr)
    (fun k bs q' Hk Hq' => proj1 (sr_free _ _ _ _ Hr k bs q' (Nat.le_0_l k) Hk Hq')))).
  erewrite bind_Ret by reflexivity.
  set (h2 := runstate_set _ _).
  destruct (with_file_writes i q false h2 fuel xs (sr_image _ _ _ _ Hr) Hs) as (area & Hp & E2). exists area. split; [exact Hp|].
  unfold write_state in E2. rewrite (bind_Ret _ _ _ _ _ E2). cbn [fst snd Z.ltb Z.compare].
  rewrite bind_assoc. erewrite bind_Ret by reflexivity.
  set (h3 := set_memory _ _). destruct (new_id_short q) as [Hne _].
  pose proof (same_images (bdrv_states h) i q area (sr_image _ _ _ _ Hr)) as Hlk.
  assert (Hfree : id_free (find_new_snapshot_id q) i 0 h3).
  { intros k bs q' _ Hk Hq'. destruct (Hlk k bs q' Hk Hq') as (bs0 & q0 & Hk0 & Hq0 & Heq).
    destruct (sr_free _ _ _ _ Hr k bs0 q0 ltac:(lia) Hk0 Hq0) as [Hle Hf]. split; [done|]. unfold find_snapshot_by_id in *. by rewrite Heq. }
  assert (Hnext : next_id (find_new_snapshot_id q) i 0 sn h3).
  { right. split; [apply Hr|]. split; [lia|]. exists (with_area area q). split; [|done]. cbn.
    apply list_lookup_insert_eq. by eapply lookup_lt_Some, (sr_image _ _ _ _ Hr). }
  rewrite (bind_Ret _ _ _ _ _ (create_loop_saves (length (bdrv_states h3)) 0 i (find_new_snapshot_id q) _ sn h3 eq_refl Hne Hfree Hnext)).
  reflexivity.
Qed.

(** ** Returning to it *)

Section loading.
Context (id : list Z) (sn : QEMUSnapshotInfo) (size : Z) (i : nat).
Hypothesis id_short : (length id < 128)%nat.
Hypothesis name_short : (length (sn_name sn) < 256)%nat.

(** Device [k] was [bs0] when the snapshot was made, and still has it. *)
Definition has_snapshot (k : nat) bs0 bs : Prop :=
  match image_of bs0 with
  | Some q0 => exists q, bs = mk_bs (Some (bdrv_qcow2 q)) false /\ q_snapshots q = q_snapshots (saved_image id sn size i k q0) /\
                         named q0 /\ unused (sn_name sn) q0
  | None => bs = bs0 /\ (bdrv_is_inserted bs0 = true -> bs_read_only bs0 = true)
  end.
Definition have_snapshot (j : nat) (devs0 : list BlockDriverState) h : Prop :=
  length devs0 = length (bdrv_states h) /\
  forall k bs0 bs, (j <= k)%nat -> devs0 !! k = Some bs0 -> bdrv_states h !! k = Some bs -> has_snapshot k bs0 bs.

(** The table of such an image ends in it, and nothing in front has its name. *)
Lemma table_new k q q0 :
  q_snapshots q = q_snapshots (saved_image id sn size i k q0) -> named q0 ->
  exists infos info, qcow2_snapshot_list q = Ret q (infos ++ [info]) /\ sn_name info = sn_name sn /\
    sn_vm_state_size info = (if Nat.eqb i k then size else 0) /\
    Forall2 (fun e info => sn_id_str info = qs_id_str e /\ Some (sn_name info) = qs_name e) (q_snapshots q0) infos.
Proof.
  intros Hq Hn. destruct (infos_entries (q_snapshots q) q) as (infos & E & Hinfos).
  { rewrite Hq. apply Forall_app. split; [exact Hn|]. apply Forall_singleton. split; [exact id_short|]. by exists (sn_name sn). }
  rewrite Hq in Hinfos. cbn [saved_image q_snapshots set_q_snapshots] in Hinfos.
  apply Forall2_app_inv_l in Hinfos as (infos0 & infos1 & H0 & H1 & ->).
  apply Forall2_cons_inv_l in H1 as (info & rest & (_ & Hname & Hsize) & Hnil & ->).
  apply Forall2_nil_inv_l in Hnil as ->. injection Hname as Hname. exists infos0, info.
  split; [unfold qcow2_snapshot_list; by erewrite bind_Ret by reflexivity|]. split; [exact Hname|]. split; [exact Hsize|].
  eapply Forall2_impl; [exact H0|]. by intros a b (Ha & Hb & _).
Qed.

Lemma find_new k h q q0 :
  bdrv_states h !! k = Some (mk_bs (Some (bdrv_qcow2 q)) false) -> q_snapshots q = q_snapshots (saved_image id sn size i k q0) ->
  named q0 -> unused (sn_name sn) q0 ->
  exists info, bdrv_snapshot_find k (sn_name sn) h = Ret h (inl info) /\ sn_vm_state_size info = if Nat.eqb i k then size else 0.
Proof.
  intros Hk Hq Hn Hu. destruct (table_new k q q0 Hq Hn) as (infos & info & E & Hname & Hsize & H0). exists info. split; [|exact Hsize].
  assert (El : bdrv_snapshot_list k h = Ret h (inl (infos ++ [info]))).
  { unfold bdrv_snapshot_list. erewrite on_image_Ret; [|exact Hk|rewrite (bind_Ret _ _ _ _ _ E); reflexivity].
    rewrite list_insert_id by done. by destruct h. }
  unfold bdrv_snapshot_find. rewrite (bind_Ret _ _ _ _ _ El), list_find_app_r.
  - cbn [list_find]. rewrite decide_True by (by right). done.
  - apply list_find_None, Forall_lookup_2. intros n x Hx Hmatch. destruct (Forall2_lookup_r _ _ _ _ _ H0 Hx) as (y & Hy & Hid & Hnm).
    eapply Forall_lookup_1 in Hu; [|exact Hy]. destruct Hu as [Hu1 Hu2], Hmatch as [Hm|Hm]; congruence.
Qed.

(** It is the one [main] starts from. *)
Lemma found_by_name k h q q0 :
  q_snapshots q = q_snapshots (saved_image id sn size i k q0) -> named q0 -> ski_get_snapshot (Some q) h = Ret h (sn_name sn).
Proof.
  intros Hq Hn. destruct (table_new k q q0 Hq Hn) as (infos & info & E & Hname & _). unfold ski_get_snapshot, ski_dump_snapshots.
  by rewrite E, foldl_app, <- Hname.
Qed.

Lemma check_loop_passes n j devs0 h :
  (j + n = length (bdrv_states h))%nat -> have_snapshot j devs0 h -> check_loop n j (sn_name sn) h = Ret h 0.
Proof.
  revert j. induction n as [|n IH]; intros j Hn [Hlen Hh]; [done|]. cbn [check_loop]. erewrite bind_Ret by reflexivity.
  destruct (bdrv_states h !! j) as [bs|] eqn:Hj; [|apply lookup_ge_None_1 in Hj; lia].
  destruct (devs0 !! j) as [bs0|] eqn:Hj0; [|apply lookup_ge_None_1 in Hj0; lia].
  assert (Hnext : check_loop n (S j) (sn_name sn) h = Ret h 0) by (apply IH; [lia|split; [done|]]; intros k b0 b Hk; apply Hh; lia).
  specialize (Hh j bs0 bs ltac:(lia) Hj0 Hj). unfold has_snapshot in Hh. destruct (image_of bs0) as [q0|].
  - destruct Hh as (q & -> & Hq & Hnm & Hu). cbn [bdrv_is_inserted bs_drv bs_read_only negb orb bdrv_can_snapshot].
    destruct (find_new j h q q0 Hj Hq Hnm Hu) as (info & E & _). by rewrite (bind_Ret _ _ _ _ _ E).
  - destruct Hh as [-> Hro]. destruct (bdrv_is_inserted bs0); cbn [negb orb]; [by rewrite Hro|done].
Qed.

(** What the images go back to. *)
Definition went_back (devs0 : list BlockDriverState) (k : nat) q : BDRVQcowState :=
  match devs0 !! k ≫= image_of with Some q0 => mk_qcow (q_l1 q0) (q_snapshots q) | None => q end.

Lemma goto_loop_returns n j devs0 h :
  (j + n = length (bdrv_states h))%nat -> have_snapshot j devs0 h ->
  goto_loop answer torn n j (sn_name sn) h = Ret (set_devices (devs_from (went_back devs0) j (bdrv_states h)) h) tt.
Proof.
  revert j h. induction n as [|n IH]; intros j h Hn [Hlen Hh].
  { replace j with (length (bdrv_states h)) by lia. rewrite devs_from_end. by destruct h. }
  cbn [goto_loop]. erewrite bind_Ret by reflexivity.
  destruct (bdrv_states h !! j) as [bs|] eqn:Hj; [|apply lookup_ge_None_1 in Hj; lia]. cbn [fmap option_fmap option_map from_option Datatypes.id].
  destruct (devs0 !! j) as [bs0|] eqn:Hj0; [|apply lookup_ge_None_1 in Hj0; lia].
  pose proof (Hh j bs0 bs ltac:(lia) Hj0 Hj) as Hs. unfold has_snapshot in Hs. destruct (image_of bs0) as [q0|] eqn:Hq0.
  - destruct Hs as (q & -> & Hq & Hnm & Hu). cbn [bdrv_can_snapshot bs_drv bs_read_only negb].
    pose proof (goto_last answer torn answers q0 q id (info_of sn size i j) Hq Hnm Hu) as Hg.
    unfold bdrv_snapshot_goto. rewrite (bind_Ret _ _ _ _ _ (on_image_Ret _ _ _ _ _ _ _ Hj Hg)). erewrite bind_Ret by reflexivity.
    rewrite IH; cbn [bdrv_states set_devices].
    + unfold set_devices. cbn. do 2 f_equal. rewrite <- (devs_from_step (went_back devs0) j (bdrv_states h) _ Hj). cbn [on_q].
      assert (went_back devs0 j q = mk_qcow (q_l1 q0) (q_snapshots q)) as -> by (unfold went_back; rewrite Hj0; cbn; by rewrite Hq0). done.
    + rewrite length_insert. lia.
    + split; [cbn; by rewrite length_insert|]. intros k b0 b Hk Hb0 Hb. cbn in Hb. rewrite list_lookup_insert_ne in Hb by lia. apply Hh; [lia|done..].
  - destruct Hs as [-> _]. rewrite can_snapshot_image, Hq0, bool_decide_eq_false_2 by (by intros []).
    rewrite IH; [by rewrite (devs_from_skip _ _ _ bs0)|lia|]. split; [done|]. intros k b0 b Hk. apply Hh. lia.
Qed.

Lemma load_vmstate_returns reset devs0 q0 h fuel xs s :
  bs_snapshots h = None \/ bs_snapshots h = Some i -> devs0 !! i = Some (mk_bs (Some (bdrv_qcow2 q0)) false) ->
  (forall k bs q', devs0 !! k = Some bs -> image_of bs = Some q' -> (i <= k)%nat) -> have_snapshot 0 devs0 h -> size <> 0 ->
  savable fuel xs.*1 xs s -> snapshot_bytes xs s `prefix_of` cl_vmstate (q_l1 q0) -> mem_ok (reset (h_memory h)) ->
  exists t', load_vmstate answer torn reset (S (length xs)) fuel xs.*1 (sn_name sn) h =
      Ret (mk_host (devs_from (went_back devs0) 0 (bdrv_states h)) (Some i) (ski_snapshot h) (current_run_state h) t') 0 /\
    loads xs s (reset (h_memory h)) t'.
Proof.
  intros Hc Hi0 Hfirst Hh Hsize Hs Hp Hok. pose proof Hh as [Hlen Hall].
  destruct (bdrv_states h !! i) as [bs|] eqn:Hi; [|apply lookup_lt_Some in Hi0; apply lookup_ge_None_1 in Hi; lia].
  pose proof (Hall i _ bs ltac:(lia) Hi0 Hi) as Hsi. cbn in Hsi. destruct Hsi as (q & -> & Hq & Hnm & Hu).
  assert (Hfirst2 : forall k bs q', bdrv_states h !! k = Some bs -> image_of bs = Some q' -> (i <= k)%nat).
  { intros k bs q' Hk Hq'. destruct (devs0 !! k) as [bs0|] eqn:Hk0; [|apply lookup_lt_Some in Hk; apply lookup_ge_None_1 in Hk0; lia].
    pose proof (Hall k bs0 bs ltac:(lia) Hk0 Hk) as Hsk. unfold has_snapshot in Hsk. destruct (image_of bs0) as [q1|] eqn:Hq1; [by eapply Hfirst|].
    destruct Hsk as [-> _]. congruence. }
  unfold load_vmstate. rewrite (bind_Ret _ _ _ _ _ (first_image i q h Hc Hi Hfirst2)).
  set (h1 := set_bs_snapshots (Some i) h). destruct (find_new i h1 q q0 Hi Hq Hnm Hu) as (info & E & Hinfo).
  rewrite Nat.eqb_refl in Hinfo. rewrite (bind_Ret _ _ _ _ _ E), Hinfo, (proj2 (Z.eqb_neq _ _) Hsize).
  erewrite bind_Ret by reflexivity.
  rewrite (bind_Ret _ _ _ _ _ (check_loop_passes (length (bdrv_states h1)) 0 devs0 h1 eq_refl Hh)). cbn [Z.ltb Z.compare].
  rewrite (bind_Ret _ _ _ _ _ (goto_loop_returns (length (bdrv_states h1)) 0 devs0 h1 eq_refl Hh)).
  erewrite bind_Ret by reflexivity. set (h2 := set_memory _ _).
  assert (Hi2 : bdrv_states h2 !! i = Some (mk_bs (Some (bdrv_qcow2 (mk_qcow (q_l1 q0) (q_snapshots q)))) false)).
  { change (bdrv_states h2) with (devs_from (went_back devs0) 0 (bdrv_states h)). rewrite devs_from_lookup, Hi. cbn [fmap option_fmap option_map on_q]. unfold went_back. by rewrite Hi0. }
  destruct (with_file_reads i _ false h2 fuel xs s Hi2 Hs Hp Hok) as (t' & E2 & L). exists t'. split; [|exact L].
  by rewrite (bind_Ret _ _ _ _ _ E2).
Qed.

Lemma main_loads reset devs0 q0 h fuel xs s k q loadvm fast_resume :
  bs_snapshots h = None \/ bs_snapshots h = Some i -> devs0 !! i = Some (mk_bs (Some (bdrv_qcow2 q0)) false) ->
  (forall k bs q', devs0 !! k = Some bs -> image_of bs = Some q' -> (i <= k)%nat) -> have_snapshot 0 devs0 h -> size <> 0 ->
  savable fuel xs.*1 xs s -> snapshot_bytes xs s `prefix_of` cl_vmstate (q_l1 q0) -> mem_ok (reset (h_memory h)) ->
  bdrv_states h !! k = Some (mk_bs (Some (bdrv_qcow2 q)) false) -> (length (sn_name sn) <= length loadvm)%nat -> sn_name sn <> [] ->
  exists h3, main_loadvm answer torn reset (S (length xs)) fuel xs.*1 true fast_resume (Some q) (Some loadvm) h = Ret h3 tt /\
    bdrv_states h3 = devs_from (went_back devs0) 0 (bdrv_states h) /\ loads xs s (reset (h_memory h)) (h_memory h3).
Proof.
  intros Hc Hi Hfirst Hh Hsize Hs Hp Hok Hk Hroom Hne. pose proof Hh as [Hlen Hall].
  destruct (devs0 !! k) as [bs0|] eqn:Hk0; [|apply lookup_lt_Some in Hk; apply lookup_ge_None_1 in Hk0; lia].
  pose proof (Hall k _ _ ltac:(lia) Hk0 Hk) as Hsk. unfold has_snapshot in Hsk. destruct (image_of bs0) as [qk|] eqn:Hqk; cycle 1.
  { destruct Hsk as [<- _]. done. }
  destruct Hsk as (q' & [= <-] & Hq & Hn & _). unfold main_loadvm. rewrite (bind_Ret _ _ _ _ _ (found_by_name k h q qk Hq Hn)).
  erewrite bind_Ret by reflexivity. set (h' := if fast_resume then set_ski_snapshot 1 h else h).
  rewrite (bind_Ret _ _ _ h' tt) by (by destruct fast_resume). rewrite (bind_Ret _ _ _ h' (sn_name sn)).
  2:{ unfold chosen_name. destruct (sn_name sn) eqn:E; [done|]. by rewrite (proj2 (Nat.leb_le _ _) Hroom). }
  destruct (load_vmstate_returns reset devs0 q0 h' fuel xs s) as (t' & E & L); [by destruct fast_resume..|].
  eexists. split; [rewrite (bind_Ret _ _ _ _ _ E); reflexivity|]. by destruct fast_resume.
Qed.
End loading.

(** ** The machine and its disks *)

Definition disks (devs : list BlockDriverState) : list (option (list Z)) :=
  (fun bs => (fun q => cl_disk (q_l1 q)) <$> image_of bs) <$> devs.

(** The same images with the same snapshots; what the guest sees of them may differ. *)
Definition carried (devs devs' : list BlockDriverState) : Prop :=
  Forall2 (fun bs bs' => match image_of bs with
                         | Some q => exists q', bs' = mk_bs (Some (bdrv_qcow2 q')) false /\ q_snapshots q' = q_snapshots q
                         | None => bs' = bs
                         end) devs devs'.

Lemma image_of_on_q g bs : image_of (on_q g bs) = g <$> image_of bs.
Proof. by destruct bs as [[[q|]|] []]. Qed.

Lemma disks_lookup devs k : disks devs !! k = (fun bs => (fun q => cl_disk (q_l1 q)) <$> image_of bs) <$> devs !! k.
Proof. apply list_lookup_fmap. Qed.

Lemma disks_saved id sn size i devs : disks (devs_from (saved_image id sn size i) 0 devs) = disks devs.
Proof.
  apply list_eq. intros k. rewrite !disks_lookup, devs_from_all. destruct (devs !! k) as [bs|]; [|done]. cbn [fmap option_fmap option_map].
  rewrite image_of_on_q. by destruct (image_of bs).
Qed.

Lemma disks_area devs i q area :
  devs !! i = Some (mk_bs (Some (bdrv_qcow2 q)) false) -> disks (<[i := mk_bs (Some (bdrv_qcow2 (with_area area q))) false]> devs) = disks devs.
Proof. intros Hi. unfold disks. rewrite list_fmap_insert. apply list_insert_id. by rewrite list_lookup_fmap, Hi. Qed.

Lemma disks_back id sn size i devs0 h : have_snapshot id sn size i 0 devs0 h -> disks (devs_from (went_back devs0) 0 (bdrv_states h)) = disks devs0.
Proof.
  intros [Hlen Hall]. apply list_eq. intros k. rewrite !disks_lookup, devs_from_all. destruct (bdrv_states h !! k) as [bs|] eqn:Hk; cycle 1.
  { apply lookup_ge_None_1 in Hk. rewrite (lookup_ge_None_2 devs0) by lia. done. }
  destruct (devs0 !! k) as [bs0|] eqn:Hk0; [|apply lookup_lt_Some in Hk; apply lookup_ge_None_1 in Hk0; lia]. cbn [fmap option_fmap option_map]. rewrite image_of_on_q.
  pose proof (Hall k bs0 bs ltac:(lia) Hk0 Hk) as Hs. unfold has_snapshot in Hs. unfold went_back. rewrite Hk0. cbn [mbind option_bind].
  destruct (image_of bs0) as [q0|] eqn:Hq0; [by destruct Hs as (q & -> & _)|]. destruct Hs as [-> _]. by rewrite Hq0.
Qed.

(** The clock is no part of the image of a board. *)
Lemma image_clock b m ts : image b m -> image b (set_timers_at ts m).
Proof.
  intros Him. assert (Hh : forall p regs, p <> timers_state -> holds p m regs -> holds p (set_timers_at ts m) regs).
  { intros p regs Hne Hr n i v Hin. unfold set_timers_at. rewrite !cell_store, !decide_False by (intros [= _ _ E]; exact (Hne E)). by apply Hr. }
  split.
  - intros e c Hc. apply Hh; [done|]. by apply Him.
  - intros e c a Hc Ha. destruct (im_apic _ _ Him e c a Hc Ha) as [H1 H2]. split; [by apply Hh|exact H2].
  - apply Hh; [done|apply Him].
  - apply Hh; [done|apply Him].
  - apply Hh; [done|apply Him].
Qed.

Lemma stop_clock_offset ticks now m :
  cell (("cpu_clock_offset", 0%nat) :: timers_state) (stop_clock ticks now m) = cpu_get_clock now (timers_at m).
Proof.
  unfold stop_clock, set_timers_at. rewrite !cell_store. do 2 (rewrite decide_False by done). rewrite decide_True by done.
  unfold cpu_disable_ticks, cpu_get_ticks, cpu_get_clock. destruct (timers_at m) as [prev off clock []]; done.
Qed.

(** The images of another process that carry the snapshot have it. *)
Lemma carried_have id sn size i devs0 h2 :
  (forall k bs q, devs0 !! k = Some bs -> image_of bs = Some q -> named q /\ unused (sn_name sn) q) ->
  (forall bs, bs ∈ devs0 -> bdrv_is_inserted bs = true -> bs_read_only bs = false -> is_Some (image_of bs)) ->
  carried (devs_from (saved_image id sn size i) 0 devs0) (bdrv_states h2) -> have_snapshot id sn size i 0 devs0 h2.
Proof.
  intros Hn Hw Hc. split; [rewrite <- (Forall2_length _ _ _ Hc); symmetry; apply length_imap|].
  intros k bs0 bs _ Hk0 Hk. destruct (Forall2_lookup_r _ _ _ _ _ Hc Hk) as (bs1 & Hk1 & Hm).
  rewrite devs_from_all, Hk0 in Hk1. injection Hk1 as <-. rewrite image_of_on_q in Hm. unfold has_snapshot.
  destruct (image_of bs0) as [q0|] eqn:Hq0; cbn in Hm.
  - destruct Hm as (q & -> & Hq). exists q. split; [done|]. split; [exact Hq|]. by eapply Hn.
  - rewrite on_q_None in Hm by done. split; [exact Hm|]. intros Hi. destruct (bs_read_only bs0) eqn:Hr; [done|].
    destruct (Hw bs0 (list_elem_of_lookup_2 _ _ _ Hk0) Hi Hr). congruence.
Qed.

(** What a host that is ready says of its images still holds when the state is written. *)
Lemma ready_images i q sn h area :
  snapshot_ready i q sn h ->
  let devs0 := <[i := mk_bs (Some (bdrv_qcow2 (with_area area q))) false]> (bdrv_states h) in
  (forall k bs q', devs0 !! k = Some bs -> image_of bs = Some q' -> (i <= k)%nat) /\
  (forall k bs q', devs0 !! k = Some bs -> image_of bs = Some q' -> named q' /\ unused (sn_name sn) q') /\
  (forall bs, bs ∈ devs0 -> bdrv_is_inserted bs = true -> bs_read_only bs = false -> is_Some (image_of bs)).
Proof.
  intros Hr devs0. pose proof (same_images (bdrv_states h) i q area (sr_image _ _ _ _ Hr)) as Hold. fold devs0 in Hold. split; [|split].
  - intros k bs q' Hk Hq'. destruct (Hold k bs q' Hk Hq') as (bs0 & q0 & H1 & H2 & _).
    exact (proj1 (sr_free _ _ _ _ Hr k bs0 q0 ltac:(lia) H1 H2)).
  - intros k bs q' Hk Hq'. destruct (Hold k bs q' Hk Hq') as (bs0 & q0 & H1 & H2 & H3).
    pose proof (sr_names _ _ _ _ Hr k bs0 q0 H1 H2) as Hnn. unfold named, unused in *. by rewrite H3.
  - intros bs Hin. apply list_elem_of_lookup in Hin as [k Hk]. apply list_lookup_insert_Some in Hk as [(_ & <- & _)|(_ & Hk)]; [done|].
    apply (sr_writable _ _ _ _ Hr). by eapply list_elem_of_lookup_2.
Qed.

Lemma clock_restored x86_64 n s t t' :
  loads (objects_of (D := BDRVQcowState) x86_64 (board_objects n)) s t t' ->
  cell (("cpu_clock_offset", 0%nat) :: timers_state) t' = cell (("cpu_clock_offset", 0%nat) :: timers_state) s.
Proof.
  intros L. assert (Hin : OTimers ∈ board_objects n) by apply list_elem_of_here.
  apply (image_back x86_64 _ _ s t t' OTimers [("cpu_clock_offset", 0%nat, cell (("cpu_clock_offset", 0%nat) :: timers_state) s)]
           (objects_entry_of x86_64 _) L Hin).
  - repeat constructor.
  - intros m j v Hv. apply list_elem_of_singleton in Hv. by injection Hv as -> -> ->.
  - apply list_elem_of_here.
Qed.


End restore.

(** ** Witness *)

(** A storage that never fails, a disk whose image has one snapshot already, a drive
    without a medium and a CD; the clock runs. *)
Definition sound (op : storage_op) (q : BDRVQcowState) : Z := 0.
Definition sample_disk : BDRVQcowState :=
  mk_qcow (mk_clusters [7; 8; 9] []) [mk_qs (mk_clusters [0; 0; 0] [1]) (str "1") (Some (str "boot")) 1 0 0 0].
Definition sample_sn : QEMUSnapshotInfo := mk_sn [] (str "ski-vm-20140101120000") 0 1388577600 0 500.
Definition sample_host : host :=
  mk_host [mk_bs None false; mk_bs (Some (bdrv_qcow2 sample_disk)) false; mk_bs (Some (other_driver true)) true] None 0 RUN_STATE_RUNNING
    (set_timers_at (mk_timers_state 900 (-100) (-200) true) sample_memory).
(** The same images in a process that has just been started; the guest has written to the disk. *)
Definition later_host (h1 : host) : host :=
  mk_host (devs_from (fun _ q => set_q_l1 (mk_clusters [1; 1; 1] []) q) 0 (bdrv_states h1)) None 1 RUN_STATE_RUNNING (mk_memory ∅ []).

Lemma sample_ready : snapshot_ready 1 sample_disk sample_sn sample_host.
Proof.
  split.
  - done.
  - intros bs Hin. unfold sample_host in Hin. cbn in Hin. rewrite !elem_of_cons, elem_of_nil in Hin. destruct Hin as [->|[->|[->|[]]]]; done.
  - by left.
  - done.
  - intros [|[|[|k]]] bs q _ Hk Hq; [..|done]; injection Hk as <-; try done. injection Hq as <-. split; [lia|done].
  - intros [|[|[|k]]] bs q Hk Hq; [..|done]; injection Hk as <-; try done. injection Hq as <-.
    split; apply Forall_singleton; [|done]. split; [cbn; lia|]. exists (str "boot"). split; [done|cbn; lia].
  - split; [done|]. split; [done|cbn; lia].
Qed.

Lemma later_carried h1 : carried (bdrv_states h1) (bdrv_states (later_host h1)).
Proof.
  apply Forall2_same_length_lookup. split; [symmetry; apply length_imap|]. intros k bs bs' Hk Hk'.
  cbn [later_host bdrv_states] in Hk'. rewrite devs_from_all, Hk in Hk'. injection Hk' as <-. destruct (image_of bs) as [q|] eqn:Hq.
  - apply image_of_Some in Hq as ->. by eexists.
  - by apply on_q_None.
Qed.

Lemma disks_image devs k d : disks devs !! k = Some (Some d) -> exists q, devs !! k = Some (mk_bs (Some (bdrv_qcow2 q)) false).
Proof.
  rewrite disks_lookup. destruct (devs !! k) as [bs|]; [|done]. cbn. destruct (image_of bs) as [q|] eqn:Hq; [|done].
  apply image_of_Some in Hq as ->. by exists q.
Qed.

Lemma later_disks h1 k d : disks (bdrv_states h1) !! k = Some (Some d) -> disks (bdrv_states (later_host h1)) !! k = Some (Some [1; 1; 1]).
Proof.
  intros (q & Hk)%disks_image. rewrite disks_lookup. cbn [later_host bdrv_states]. by rewrite devs_from_all, Hk.
Qed.


(** ** Where it goes wrong *)

(** A disk that can be written and has no snapshots: the function reports it and
    returns, but keeps the flag; asked again it fails its assertion. *)
Lemma refused_twice answer k l sn t1 n1 t2 n2 h :
  ski_snapshot h = 0 ->
  existsb (fun bs => bdrv_is_inserted bs && negb (bs_read_only bs) && negb (bdrv_can_snapshot bs)) (bdrv_states h) = true ->
  (ski_do_savevm answer k l sn t1 n1 t2 n2 ;;; ski_do_savevm answer k l sn t1 n1 t2 n2) h = Halt (set_ski_snapshot 1 h) HAssert.
Proof.
  intros Hf He. unfold ski_do_savevm at 1. rewrite bind_assoc. erewrite bind_Ret by reflexivity. rewrite Hf. rewrite bind_assoc.
  erewrite bind_Ret by reflexivity. rewrite bind_assoc. erewrite bind_Ret by reflexivity. rewrite He.
  erewrite bind_Ret by reflexivity. reflexivity.
Qed.

(** The identifier that the first image chooses is taken in the second one: that image
    gets no snapshot, which nobody is told, and the snapshot cannot be returned to. *)
Definition second_disk (id : list Z) : BDRVQcowState :=
  mk_qcow (mk_clusters [4] []) [mk_qs (mk_clusters [3] []) id (Some (str "old")) 0 0 0 0].
Definition two_disks : host :=
  mk_host [mk_bs (Some (bdrv_qcow2 (mk_qcow (mk_clusters [5] []) []))) false; mk_bs (Some (bdrv_qcow2 (second_disk (str "1")))) false]
    None 0 RUN_STATE_RUNNING (mk_memory ∅ []).

Lemma identifier_taken :
  exists h1, create_loop sound 2 0 0 1000 sample_sn two_disks = Ret h1 tt /\
    bdrv_states h1 !! 1%nat = bdrv_states two_disks !! 1%nat /\
    load_vmstate sound (fun _ c => c) (fun m => m) 1 subsection_fuel [] (sn_name sample_sn) h1 = Ret (set_bs_snapshots (Some 0%nat) h1) (- ENOENT).
Proof. eexists. split; [by vm_compute|]. split; by vm_compute. Qed.

(** The argument of [run-ski.sh] has less room than the name of a snapshot. *)
Lemma script_argument_overrun l sections fast h q :
  ski_get_snapshot (Some q) h = Ret h (sn_name sample_sn) ->
  exists h', main_loadvm sound (fun _ c => c) (fun m => m) sections subsection_fuel l true fast (Some q) (Some (str "ski-vm-XXX")) h = Halt h' HUndef.
Proof. intros E. unfold main_loadvm. rewrite (bind_Ret _ _ _ _ _ E). destruct fast; by eexists. Qed.
